(* ===== verification/_CoqProject ===== *)
-Q . S2P
Prelude.v
Wire.v
Net.v
Filepath.v
Ipam.v
Replay.v
EspCipher.v
EspPacket.v
EspTunnel.v
EspThreads.v
EspSA.v
EspNatt.v
EspPmtu.v
EspEngine.v
L2tpPacket.v
L2tpControl.v
Rand.v
Exch.v
L2tpLcp.v
L2tpIpcp.v
L2tpChap.v
L2tpProfile.v
L2tpSession.v
L2tpTunnel.v
L2tpServer.v
IkeHeader.v
IkePayload.v
IkeSA.v
IkeV2.v
IkeV1.v
IkeMessage.v
IkeTotal.v
IkeProposal.v
IkeCrypto.v
IkeKeys.v
IkeSession.v
IkeSK.v
IkeFragment.v
IkeManager.v
IkeRetransmit.v
IkeEap.v
IkeExchange.v
IkeV2Init.v
IkeV2Auth.v
IkeV2Eap.v
IkeEapTls.v
IkeInfo.v
IkeV1Main.v
IkeV1Aggr.v
IkeV1Quick.v
IkeV1Xauth.v
IkeServer.v
Config.v
Watcher.v
Logging.v
Files.v
Dates.v
Certman.v
Export.v
Listener.v
Tun.v
Daemon.v
Commands.v
Service.v
Locks.v
