(* ===== verification/Prelude.v ===== *)
(** * SWAN-NG: a verification development

    SWAN-NG is a VPN server in Go: it negotiates keys with IKE (versions 1 and 2), carries
    packets in ESP, and serves L2TP clients.  This development models the code of [src/] in
    Rocq and proves what it does.  Definitions keep the names of the source; where the source
    has one long function, its parts are separate definitions, composed as the source composes
    them.  The manifest says which lines each definition translates.

    ** How the program is modelled

    Bytes are integers in [list Z] ([bytes], [bytes_wf]); machine integers are [Z] with their
    wrap-around written out ([u8], [u16], [u32], [u64], [i64]).  A slice expression, an index or a
    copy is [slice], [idx], [set_at], [copy_at], which panic where Go does.  A function that can
    fail returns [res]: [Ok], [Err] (an error value) or [Panic].  State that outlives an
    error is returned next to the result, or the function is a computation [exch S A]
    ([Exch]).  Objects the code shares by pointer live in a store and are named by their
    location: SAs, L2TP tunnels, IKE sessions.  What the program does to the outside is a list of
    events in the result.  Random bytes come from a source [rng] ([Rand]), the time is an
    argument, and a handler runs to its end before the next starts.  Two files look at what happens
    between: in [EspThreads] the halves of many calls of [Encrypt] and [Decrypt] on one SA interleave, in
    [Locks] the calls of [Lock] and [Unlock] of every handler do.  The order in which Go visits a map is a
    parameter ([MapOrder], [ConnOrder], [range]): theorems hold for every order.

    ** The parts

    - Shared: [Prelude] (integers, bytes, results, runs of a step relation [star], counting [times]), [Wire]
      (fields in order), [Net] ([net.IP], [strings]), [Filepath] ([path/filepath]), [Rand], [Exch].
    - Data plane, [src/internal/esp] and [src/internal/ipam]: [Ipam] (address pool, [pool.go]), [Replay]
      ([replay.go]), [EspCipher] ([cipher.go], [integrity.go]), [EspPacket] ([packet.go], the SA of [sa.go]),
      [EspSA] ([sa.go]), [EspNatt] ([natt.go]), [EspPmtu] ([pmtu.go]), [EspEngine] ([engine.go], [pool.go]);
      [EspTunnel] puts two ends and a network between them together, [EspThreads] the goroutines that share an SA.
    - L2TP, [src/internal/l2tp]: [L2tpPacket] ([packet.go], [ppp.go]), [L2tpControl], [L2tpLcp], [L2tpIpcp],
      [L2tpChap], [L2tpProfile], [L2tpSession], [L2tpTunnel], [L2tpServer], each the file of its name.
    - IKE, [src/internal/ike]: the codec [IkeHeader], [IkePayload], [IkeSA], [IkeV2], [IkeV1], [IkeMessage]
      ([header.go], [payload*.go]) and its totality [IkeTotal]; [IkeProposal], [IkeCrypto], [IkeKeys],
      [IkeSession], [IkeSK], [IkeFragment], [IkeManager] ([session.go]), [IkeRetransmit] ([retransmit.go],
      [dpd.go]), [IkeEap] ([eap.go], [eap_mschapv2.go]); the exchanges [IkeExchange], [IkeV2Init], [IkeV2Auth],
      [IkeV2Eap], [IkeEapTls], [IkeInfo], [IkeV1Main], [IkeV1Aggr], [IkeV1Quick], [IkeV1Xauth]; and [IkeServer]
      ([server.go]), which dispatches datagrams to them.
    - The process: [Config] and [Watcher] ([src/internal/config]), [Logging] ([src/internal/log]), [Listener] ([src/internal/listener]), [Tun]
      ([src/internal/tun] and the loop of the engine over it), [Daemon] ([src/cmd/swan-ng/daemon.go]), which
      wires all of them, and [Locks], the mutexes its goroutines take.
    - The commands: [Files] (the files of [os], with permissions) and [Dates] ([AddDate] of [time]);
      [Certman] ([pem.go], [ca.go], [server.go], [client.go] of [src/internal/certman]) and [Export] (its
      [export_*.go]); [Commands] ([ikev2.go], [l2tp.go], [main.go], [version.go] of
      [src/cmd/swan-ng]) and [Service] (its [service.go]).

    ** How they interact

    [EspEngine] calls [EspSA], [EspPacket] and [EspNatt]; its events are writes to the TUN device, payloads
    for L2TP and datagrams.  [L2tpServer] owns tunnels, a tunnel its control channel and sessions,
    a session the handlers of LCP, CHAP and IPCP; it asks its address pool through the class
    [AddressPool], whose laws [Ipam] satisfies, and its users through [UserDatabase], which
    [L2tpProfile] implements.  [IkeServer] keeps its sessions in [IkeManager], whose state also holds the
    world of [EspEngine]; handlers of a session run on the session and the random source.  In [Daemon] the
    ports lead to [IkeServer], [EspEngine] and [L2tpServer], and the events of the engine are
    carried out.  [Commands] makes the authority, the certificates and the profiles with [Certman] and
    [Export] on one disk, which is the state of its computations; the profile it writes for an L2TP user is the one
    [L2tpProfile] loads.

    ** Code that is not in the repository

    It is a class of operations with its documented laws, or an argument: AES, AES-GCM,
    ChaCha20-Poly1305 and HMAC ([Crypto], [CryptoLaws]), the digests ([Digests], [DigestLaws]), the
    curves ([ECDH], [ECDHLaws]), MD4 and DES ([Legacy]), MD5 (an argument), TLS ([TLS]), X.509 with
    ECDSA ([X509], [X509Laws]), PEM ([PEM], [PEMLaws]), PKCS #12, JSON and UUIDs ([ExportLib]), YAML
    ([YAML], [YAMLLaws], or arguments), the parsing of addresses, the sockets and the device; the configuration
    reads its files through arguments.  Toy instances of the classes evaluate the
    witnesses and show that the laws can hold.  Authenticity is never assumed of a cipher: a theorem
    such as [SK_authentic] says that nothing is decrypted before its check value is found right, and one such as
    [established_by_AUTH] which key a value was checked with.  The standard library is modelled where the code
    uses it; [AddDate] wraps in the 64 bits of Go's calendar ([Dates]).

    ** What the theorems show

    - Data plane: [window_refines_history] (the window is the set of numbers seen),
      [Encrypt_Decrypt_roundtrip], [tunnel_at_most_once], [engines_tunnel] (two engines carry a
      packet from device to device), [pool_refines_set]; however the calls interleave, [threads_never_reuse] (no
      nonce is used twice) and [threads_accept] (no packet is accepted twice by one receiver).
    - L2TP: [reliable_delivery], [tunnel_lifecycle], [session_login_completes],
      [tun_requires_login], [sessions_distinct_addresses]; [server_survives] says exactly which datagrams end
      the process.
    - IKE: [message_roundtrip] and [ParseMessage_panics]; [SelectProposal_correct]; [SK_roundtrip],
      [SK_authentic] (the check value comes before the cipher, for ciphers that are not AEAD), [reassembly_any_order];
      [SA_INIT_agreement] and [MainMode_agreement] (both ends derive the same keys), [MainMode5_completes] (which hash
      is accepted, and that it is not that of the RFC), [cookie_exchange], [eap_login] (the dialogue of a login, both
      sides in bytes), [xauth_login]; [child_sa_carries_packets] (the SAs made of a negotiated child carry packets);
      and for every run of the server [established_by_AUTH] (which request establishes a session, what it proves,
      and the two ways to be established without a proof), [sessions_well_formed], [control_plane_isolated].
    - The process: [Load_correct], [psk_isolated] (whose secret is offered to whom), and for every run of the daemon
      [daemon_never_tunnels] and [daemon_l2tp_silent]; [process_never_stuck]: the mutexes are taken in an order, so
      that no goroutine waits for ever.
    - The commands: [ikev2_user_verifies] (the certificate a user gets, until when, and who checks it),
      [ikev2_user_once] (a name is used once, also by a run that failed), [l2tp_user_logs_in] (the daemon
      finds the password that was typed).
    Where the code does not do what it means to, the theorem says what it does, and the manifest lists
    the finding.

    ** Loops and fuel

    Loops over data are structural or have their length as fuel ([parse_loop], [alloc_loop]), and their
    theorems show that this suffices.  A loop that draws until it likes the result has a number of
    tries as fuel; running out is a value of its own ([None] of [GenerateSPI_loop], [Panic] of
    [GenerateIKESPI]), so that a theorem that the code answers also says that the tries were enough.
    The theorems about L2TP are about datagrams of at most 52000 bytes.

    ** Not modelled

    What is inside the packages the program calls: the TUN device of the platform and the service manager
    are arguments.  What the commands print; the log lines of the other parts; accessors that only
    return a field.  On the disk: links, the mask of the process, failures of the device.  Data races, that
    is, what happens to fields no mutex protects, and the memory of the process. *)

From Stdlib Require Export ZArith Lia Sorted.
From stdpp Require Export base list gmap strings.
#[global] Set Default Goal Selector "!".
#[global] Set Warnings "-clear-no-such-hyp".
#[global] Open Scope Z_scope.

(** ** Outcomes of Go code

    A Go function that returns an error is modelled by [Err], one that hits a
    run-time panic (slice bounds, index, nil dereference) or a fatal runtime
    error by [Panic].  The error argument is the fixed part of the message the
    source formats. *)
Inductive res (A : Type) : Type :=
  | Ok (a : A)
  | Err (e : string)
  | Panic.
Arguments Ok {A} a.
Arguments Err {A} e.
Arguments Panic {A}.

#[global] Instance res_ret : MRet res := fun A a => Ok a.
#[global] Instance res_bind : MBind res := fun A B f m =>
  match m with Ok a => f a | Err e => Err e | Panic => Panic end.

Lemma bind_assoc {A B D} (m : res A) (f : A -> res B) (g : B -> res D) :
  ((m ≫= f) ≫= g) = (m ≫= (fun a => f a ≫= g)).
Proof. by destruct m. Qed.

Definition is_panic {A} (m : res A) : bool :=
  match m with Panic => true | _ => false end.

Lemma bind_Ok {A B} (f : A -> res B) a : (Ok a ≫= f) = f a.
Proof. reflexivity. Qed.

Lemma bind_Ok_inv {A B} (f : A -> res B) m b :
  (m ≫= f) = Ok b -> exists a, m = Ok a /\ f a = Ok b.
Proof. destruct m as [a|e|]; cbn; [eauto|discriminate|discriminate]. Qed.

Lemma bind_not_Panic {A B} (f : A -> res B) m :
  m <> Panic -> (forall a, m = Ok a -> f a <> Panic) -> (m ≫= f) <> Panic.
Proof. destruct m as [a|e|]; cbn; [auto|discriminate|congruence]. Qed.

(** ** Machine integers *)

Definition u8 (x : Z) : Z := x mod 256.
Definition u16 (x : Z) : Z := x mod 65536.
Definition u32 (x : Z) : Z := x mod 4294967296.
Definition u64 (x : Z) : Z := x mod 18446744073709551616.

(** The signed integer of 64 bits: [int], [int64] and [time.Duration]. *)
Definition i64 (x : Z) : Z := (x + 9223372036854775808) mod 18446744073709551616 - 9223372036854775808.

Definition is_u8 (x : Z) : Prop := 0 <= x < 256.
Definition is_u16 (x : Z) : Prop := 0 <= x < 65536.
Definition is_u32 (x : Z) : Prop := 0 <= x < 4294967296.
Definition is_u64 (x : Z) : Prop := 0 <= x < 18446744073709551616.

Abbreviation bytes := (list Z).
Definition bytes_wf (l : bytes) : Prop := Forall is_u8 l.

#[global] Instance is_u8_dec x : Decision (is_u8 x).
Proof. unfold is_u8; apply _. Defined.
#[global] Instance is_u16_dec x : Decision (is_u16 x).
Proof. unfold is_u16; apply _. Defined.
#[global] Instance is_u32_dec x : Decision (is_u32 x).
Proof. unfold is_u32; apply _. Defined.
#[global] Instance is_u64_dec x : Decision (is_u64 x).
Proof. unfold is_u64; apply _. Defined.
#[global] Instance bytes_wf_dec l : Decision (bytes_wf l).
Proof. unfold bytes_wf; apply _. Defined.

(** [unfold_words] exposes the bounds of the machine integers in the context. *)
Ltac unfold_words :=
  unfold u8, u16, u32, u64, is_u8, is_u16, is_u32, is_u64 in *.
Ltac solve_word := unfold_words; Z.div_mod_to_equations; lia.

Create HintDb go discriminated.

Lemma u8_range x : is_u8 (u8 x).
Proof. solve_word. Qed.
Lemma u16_range x : is_u16 (u16 x).
Proof. solve_word. Qed.
Lemma u32_range x : is_u32 (u32 x).
Proof. solve_word. Qed.
Lemma u64_range x : is_u64 (u64 x).
Proof. solve_word. Qed.
Lemma u8_id x : is_u8 x -> u8 x = x.
Proof. solve_word. Qed.
Lemma u16_id x : is_u16 x -> u16 x = x.
Proof. solve_word. Qed.
Lemma u32_id x : is_u32 x -> u32 x = x.
Proof. solve_word. Qed.
Lemma u64_id x : is_u64 x -> u64 x = x.
Proof. solve_word. Qed.
Lemma i64_id x : -9223372036854775808 <= x < 9223372036854775808 -> i64 x = x.
Proof. intros H. unfold i64. rewrite Z.mod_small; lia. Qed.
#[export] Hint Resolve u8_range u16_range u32_range u64_range : go.

(** ** Slices

    [len] is Go's [len]; [slice l a b] is [l[a:b]]; [idx l i] is [l[i]].  Every
    slice expression of the modelled code has an upper bound it has compared with
    [len], so the capacity beyond the length plays no part. *)

Definition len {A} (l : list A) : Z := Z.of_nat (length l).

Definition sub {A} (l : list A) (a b : Z) : list A :=
  take (Z.to_nat (b - a)) (drop (Z.to_nat a) l).

Definition slice {A} (l : list A) (a b : Z) : res (list A) :=
  if (0 <=? a) && (a <=? b) && (b <=? len l) then Ok (sub l a b) else Panic.

Definition idx {A} (l : list A) (i : Z) : res A :=
  if 0 <=? i
  then match l !! Z.to_nat i with Some x => Ok x | None => Panic end
  else Panic.

(** [make n] is [make([]byte, n)]; a negative length panics. *)
Definition make (n : Z) : bytes := replicate (Z.to_nat n) 0.

(** [set_at l i x] is [l[i] = x]. *)
Definition set_at {A} (l : list A) (i : Z) (x : A) : res (list A) :=
  if (0 <=? i) && (i <? len l) then Ok (<[Z.to_nat i := x]> l) else Panic.

(** [copy_at l a src] is [copy(l[a:], src)]: it stops at the end of [l]. *)
Definition copy_at {A} (l : list A) (a : Z) (src : list A) : res (list A) :=
  if (0 <=? a) && (a <=? len l)
  then Ok (take (Z.to_nat a) l ++
           take (length l - Z.to_nat a) src ++
           drop (Z.to_nat a + length src) l)
  else Panic.

Lemma len_nonneg {A} (l : list A) : 0 <= len l.
Proof. unfold len; lia. Qed.
#[export] Hint Resolve len_nonneg : go.

Lemma len_nil {A} : len (@nil A) = 0.
Proof. reflexivity. Qed.
Lemma len_cons {A} (x : A) l : len (x :: l) = 1 + len l.
Proof. unfold len; cbn [length]; lia. Qed.
Lemma len_app {A} (l k : list A) : len (l ++ k) = len l + len k.
Proof. unfold len; rewrite length_app; lia. Qed.
Lemma len_make n : len (make n) = Z.max 0 n.
Proof. unfold len, make; rewrite length_replicate; lia. Qed.
Lemma len_replicate {A} n (x : A) : len (replicate n x) = Z.of_nat n.
Proof. unfold len; by rewrite length_replicate. Qed.
Lemma len_take {A} n (l : list A) : len (take n l) = Z.min (Z.of_nat n) (len l).
Proof. unfold len; rewrite length_take; lia. Qed.
Lemma len_drop {A} n (l : list A) : len (drop n l) = Z.max 0 (len l - Z.of_nat n).
Proof. unfold len; rewrite length_drop; lia. Qed.
Lemma len_sub {A} (l : list A) a b :
  0 <= a <= b -> b <= len l -> len (sub l a b) = b - a.
Proof. intros; unfold sub; rewrite len_take, len_drop; lia. Qed.
Lemma len_insert {A} (l : list A) i x : len (<[i:=x]> l) = len l.
Proof. unfold len; by rewrite length_insert. Qed.
Lemma len_0_inv {A} (l : list A) : len l = 0 -> l = [].
Proof. destruct l; [done|]; rewrite len_cons; pose proof (len_nonneg l); lia. Qed.
Create Rewrite HintDb len.
#[export] Hint Rewrite @len_nil @len_cons @len_app len_make @len_replicate
  @len_take @len_drop @len_insert : len.
Ltac len_norm := autorewrite with len in *.

Lemma slice_ok {A} (l : list A) a b :
  0 <= a <= b -> b <= len l -> slice l a b = Ok (sub l a b).
Proof.
  intros; unfold slice.
  by rewrite (proj2 (Z.leb_le 0 a)), (proj2 (Z.leb_le a b)), (proj2 (Z.leb_le b _)) by lia.
Qed.

Lemma slice_inv {A} (l : list A) a b s :
  slice l a b = Ok s -> 0 <= a <= b /\ b <= len l /\ s = sub l a b.
Proof.
  unfold slice; destruct (_ && _) eqn:E; intros [=]; subst.
  rewrite !andb_true_iff, !Z.leb_le in E. split_and!; [lia..|done].
Qed.

Lemma slice_panic {A} (l : list A) a b :
  b < a -> slice l a b = Panic.
Proof.
  intros; unfold slice. rewrite (proj2 (Z.leb_gt a b)) by lia.
  by rewrite andb_false_r.
Qed.

Lemma slice_mid {A} (l1 l2 l3 : list A) a b :
  a = len l1 -> b = a + len l2 -> slice (l1 ++ l2 ++ l3) a b = Ok l2.
Proof.
  intros -> ->. pose proof (len_nonneg l1); pose proof (len_nonneg l2).
  pose proof (len_nonneg l3).
  rewrite slice_ok by (len_norm; lia). unfold sub, len. f_equal.
  rewrite drop_app_length' by lia. by rewrite take_app_length' by lia.
Qed.

Lemma slice_tail {A} (l1 l2 : list A) a b :
  a = len l1 -> b = a + len l2 -> slice (l1 ++ l2) a b = Ok l2.
Proof. intros. rewrite <- (app_nil_r (l1 ++ l2)), <- app_assoc. by apply slice_mid. Qed.

Lemma slice_head {A} (l1 l2 : list A) b :
  b = len l1 -> slice (l1 ++ l2) 0 b = Ok l1.
Proof. intros. apply (slice_mid [] l1 l2); auto. Qed.

Lemma slice_all {A} (l : list A) : slice l 0 (len l) = Ok l.
Proof. apply (slice_tail [] l); reflexivity. Qed.

Lemma idx_ok {A} (l : list A) i x :
  0 <= i -> l !! Z.to_nat i = Some x -> idx l i = Ok x.
Proof. intros Hi Hx. unfold idx. by rewrite (proj2 (Z.leb_le 0 i)), Hx. Qed.

Lemma idx_total {A} (l : list A) i :
  0 <= i < len l -> exists x, idx l i = Ok x /\ l !! Z.to_nat i = Some x.
Proof.
  intros Hi. unfold len in Hi.
  destruct (lookup_lt_is_Some_2 l (Z.to_nat i)) as [x Hx]; [lia|].
  exists x; split; [apply idx_ok|]; auto; lia.
Qed.

Lemma idx_mid {A} (l1 l2 : list A) x i : i = len l1 -> idx (l1 ++ x :: l2) i = Ok x.
Proof.
  intros ->. apply idx_ok; [apply len_nonneg|]. unfold len.
  by rewrite Nat2Z.id, list_lookup_middle.
Qed.

Lemma idx_0 {A} (x : A) l : idx (x :: l) 0 = Ok x.
Proof. reflexivity. Qed.

Lemma Forall_sub {A} (P : A -> Prop) l a b : Forall P l -> Forall P (sub l a b).
Proof. intros. unfold sub. by apply Forall_take, Forall_drop. Qed.

Lemma len_copy_at {A} (l : list A) a src r : copy_at l a src = Ok r -> len r = len l.
Proof.
  unfold copy_at. destruct (_ && _) eqn:E; intros [=]; subst.
  rewrite andb_true_iff, !Z.leb_le in E. unfold len in *.
  rewrite !length_app, !length_take, length_drop. lia.
Qed.

Lemma len_set_at {A} (l : list A) i x r : set_at l i x = Ok r -> len r = len l.
Proof. unfold set_at. case_match; intros [=]; subst. apply len_insert. Qed.

Lemma set_at_total {A} (l : list A) i x :
  0 <= i < len l -> exists l', set_at l i x = Ok l' /\ len l' = len l.
Proof.
  intros Hi. unfold set_at. rewrite (proj2 (Z.leb_le 0 i)), (proj2 (Z.ltb_lt i (len l))) by lia.
  eexists. split; [done|]. apply len_insert.
Qed.

(** ** Filling a zeroed buffer from left to right *)

Lemma make_app a b : 0 <= a -> 0 <= b -> make (a + b) = make a ++ make b.
Proof. intros. unfold make. rewrite <- replicate_add. f_equal. lia. Qed.

Lemma make_0 n : n <= 0 -> make n = [].
Proof. intros. unfold make. by replace (Z.to_nat n) with O by lia. Qed.

Lemma make_wf n : bytes_wf (make n).
Proof. apply Forall_replicate. unfold is_u8; lia. Qed.

Lemma fill_copy (l src : bytes) n a :
  a = len l -> len src <= n ->
  copy_at (l ++ make n) a src = Ok ((l ++ src) ++ make (n - len src)).
Proof.
  intros -> Hn. unfold copy_at. pose proof (len_nonneg l). pose proof (len_nonneg src).
  assert (length (make n) = Z.to_nat n) as Hmk by apply length_replicate.
  rewrite (proj2 (Z.leb_le 0 _)), (proj2 (Z.leb_le (len l) _)) by (len_norm; lia).
  cbn [andb]. f_equal. unfold len in *.
  rewrite Nat2Z.id, take_app_length, length_app, <- app_assoc. f_equal.
  rewrite (take_ge src) by lia. f_equal.
  rewrite drop_app_ge by lia. replace (_ + _ - _)%nat with (length src) by lia.
  unfold make. rewrite drop_replicate. f_equal. lia.
Qed.

Lemma fill_set (l : bytes) n a x :
  a = len l -> 1 <= n -> set_at (l ++ make n) a x = Ok ((l ++ [x]) ++ make (n - 1)).
Proof.
  intros -> Hn. unfold set_at. pose proof (len_nonneg l).
  rewrite (proj2 (Z.leb_le 0 _)), (proj2 (Z.ltb_lt (len l) _)) by (len_norm; lia).
  cbn [andb]. f_equal. unfold len. rewrite Nat2Z.id.
  rewrite insert_app_r_alt by lia. rewrite Nat.sub_diag.
  replace n with (1 + (n - 1)) at 1 by lia. rewrite make_app by lia.
  by rewrite <- app_assoc.
Qed.

(** ** Big-endian integers ([encoding/binary]) *)

Definition be16 (l : bytes) : res Z :=
  match l with a :: b :: _ => Ok (a * 256 + b) | _ => Panic end.

Definition be32 (l : bytes) : res Z :=
  match l with
  | a :: b :: c :: d :: _ => Ok (((a * 256 + b) * 256 + c) * 256 + d)
  | _ => Panic
  end.

Definition put16 (v : Z) : bytes := [v / 256 mod 256; v mod 256].

Definition put32 (v : Z) : bytes :=
  [v / 16777216 mod 256; v / 65536 mod 256; v / 256 mod 256; v mod 256].

(** [binary.BigEndian.PutUint16(l[a:], v)] and its 32-bit version. *)
Definition put16_at (l : bytes) (a v : Z) : res bytes :=
  if (0 <=? a) && (a + 2 <=? len l) then copy_at l a (put16 v) else Panic.
Definition put32_at (l : bytes) (a v : Z) : res bytes :=
  if (0 <=? a) && (a + 4 <=? len l) then copy_at l a (put32 v) else Panic.

Lemma be16_put16 v l : is_u16 v -> be16 (put16 v ++ l) = Ok v.
Proof. intros. cbn. f_equal. solve_word. Qed.
Lemma be32_put32 v l : is_u32 v -> be32 (put32 v ++ l) = Ok v.
Proof. intros. cbn. f_equal. solve_word. Qed.
Lemma be16_put16_nil v : is_u16 v -> be16 (put16 v) = Ok v.
Proof. apply (be16_put16 v []). Qed.
Lemma be32_put32_nil v : is_u32 v -> be32 (put32 v) = Ok v.
Proof. apply (be32_put32 v []). Qed.

Lemma put16_wf v : bytes_wf (put16 v).
Proof. repeat constructor; solve_word. Qed.
Lemma put32_wf v : bytes_wf (put32 v).
Proof. repeat constructor; solve_word. Qed.
Lemma len_put16 v : len (put16 v) = 2.
Proof. reflexivity. Qed.
Lemma len_put32 v : len (put32 v) = 4.
Proof. reflexivity. Qed.
#[export] Hint Rewrite len_put16 len_put32 : len.

Lemma put16_inj v w : is_u16 v -> is_u16 w -> put16 v = put16 w -> v = w.
Proof. intros ?? [=]. solve_word. Qed.
Lemma put32_inj v w : is_u32 v -> is_u32 w -> put32 v = put32 w -> v = w.
Proof. intros ?? [=]. solve_word. Qed.

Lemma be16_inv l v : be16 l = Ok v -> exists a b l', l = a :: b :: l' /\ v = a * 256 + b.
Proof. destruct l as [|a [|b l]]; cbn; intros [=]. eauto. Qed.

Lemma be16_ok l : 2 <= len l -> exists v, be16 l = Ok v.
Proof. destruct l as [|a [|b l]]; len_norm; [lia|lia|]. cbn; eauto. Qed.
Lemma be32_ok l : 4 <= len l -> exists v, be32 l = Ok v.
Proof. destruct l as [|a [|b [|c [|d l]]]]; len_norm; try lia. cbn; eauto. Qed.

Lemma be16_u16 l v : bytes_wf l -> be16 l = Ok v -> is_u16 v.
Proof.
  intros Hl (a & b & l' & -> & ->)%be16_inv.
  inversion_clear Hl as [|?? Ha Hl']; inversion_clear Hl' as [|?? Hb _]. solve_word.
Qed.

Lemma be32_u32 l v : bytes_wf l -> be32 l = Ok v -> is_u32 v.
Proof.
  destruct l as [|a [|b [|c [|d l]]]]; try discriminate.
  intros Hl [= <-]. repeat (apply Forall_cons in Hl as [? Hl]). solve_word.
Qed.

Lemma fill_put16 (l : bytes) n a v :
  a = len l -> 2 <= n -> put16_at (l ++ make n) a v = Ok ((l ++ put16 v) ++ make (n - 2)).
Proof.
  intros -> Hn. unfold put16_at. pose proof (len_nonneg l).
  rewrite (proj2 (Z.leb_le 0 _)), (proj2 (Z.leb_le _ (len (l ++ _)))) by (len_norm; lia).
  cbn [andb]. by rewrite fill_copy.
Qed.

Lemma fill_put32 (l : bytes) n a v :
  a = len l -> 4 <= n -> put32_at (l ++ make n) a v = Ok ((l ++ put32 v) ++ make (n - 4)).
Proof.
  intros -> Hn. unfold put32_at. pose proof (len_nonneg l).
  rewrite (proj2 (Z.leb_le 0 _)), (proj2 (Z.leb_le _ (len (l ++ _)))) by (len_norm; lia).
  cbn [andb]. by rewrite fill_copy.
Qed.

Lemma fill_start n : make n = [] ++ make n.
Proof. reflexivity. Qed.

(** [fill] evaluates a sequence of left-to-right writes into a fresh buffer. *)
Ltac fill_step :=
  first
    [ rewrite fill_copy by (len_norm; lia)
    | rewrite fill_put16 by (len_norm; lia)
    | rewrite fill_put32 by (len_norm; lia)
    | rewrite fill_set by (len_norm; lia) ];
  rewrite bind_Ok.

(** A Go string is the sequence of its bytes. *)
Definition bytes_of_string (s : string) : bytes :=
  (fun c => Z.of_nat (Ascii.nat_of_ascii c)) <$> String.list_ascii_of_string s.

Lemma bytes_of_string_wf s : bytes_wf (bytes_of_string s).
Proof.
  apply Forall_fmap, Forall_forall. intros c _. unfold is_u8; cbn.
  pose proof (Ascii.nat_ascii_bounded c). lia.
Qed.

(** Reading two and four bytes at an offset. *)
Definition be16_at (l : bytes) (a : Z) : res Z := s ← slice l a (a + 2); be16 s.
Definition be32_at (l : bytes) (a : Z) : res Z := s ← slice l a (a + 4); be32 s.

Lemma be16_at_total l a : 0 <= a -> a + 2 <= len l -> exists v, be16_at l a = Ok v.
Proof.
  intros. unfold be16_at. rewrite slice_ok, bind_Ok by lia. apply be16_ok. rewrite len_sub; lia.
Qed.

Lemma be16_at_u16 l a v : bytes_wf l -> be16_at l a = Ok v -> is_u16 v.
Proof.
  intros Hwf (s & (_ & _ & ->)%slice_inv & Hv)%bind_Ok_inv. eapply be16_u16; [|exact Hv].
  by apply Forall_sub.
Qed.

Lemma be32_at_total l a : 0 <= a -> a + 4 <= len l -> exists v, be32_at l a = Ok v.
Proof.
  intros. unfold be32_at. rewrite slice_ok, bind_Ok by lia. apply be32_ok. rewrite len_sub; lia.
Qed.

Lemma be16_at_mid l1 v l2 a : a = len l1 -> is_u16 v -> be16_at (l1 ++ put16 v ++ l2) a = Ok v.
Proof.
  intros Ha Hv. unfold be16_at. rewrite (slice_mid l1 (put16 v) l2) by (done || len_norm; lia).
  rewrite bind_Ok. by apply be16_put16_nil.
Qed.

Lemma be16_at_0 v l : is_u16 v -> be16_at (put16 v ++ l) 0 = Ok v.
Proof. intros. by apply (be16_at_mid [] v l). Qed.

Lemma be16_at_skip l1 l2 a : len l1 <= a -> be16_at (l1 ++ l2) a = be16_at l2 (a - len l1).
Proof.
  intros Ha. pose proof (len_nonneg l1). unfold be16_at, slice. rewrite len_app.
  rewrite (proj2 (Z.leb_le 0 a)), (proj2 (Z.leb_le 0 (a - len l1))),
    !(proj2 (Z.leb_le _ (_ + 2))) by lia. cbn [andb].
  assert ((a + 2 <=? len l1 + len l2) = (a - len l1 + 2 <=? len l2)) as -> by lia.
  destruct (_ <=? _); [|done]. rewrite !bind_Ok. unfold sub.
  assert (drop (Z.to_nat a) (l1 ++ l2) = drop (Z.to_nat (a - len l1)) l2) as ->.
  { rewrite drop_app_ge by (unfold len in *; lia). f_equal. unfold len in *. lia. }
  do 3 f_equal. lia.
Qed.

Lemma slice_skip {A} (l1 l2 : list A) a b :
  len l1 <= a -> slice (l1 ++ l2) a b = slice l2 (a - len l1) (b - len l1).
Proof.
  intros Ha. pose proof (len_nonneg l1). unfold slice. rewrite len_app.
  rewrite (proj2 (Z.leb_le 0 a)), (proj2 (Z.leb_le 0 (a - len l1))) by lia. cbn [andb].
  assert ((a <=? b) = (a - len l1 <=? b - len l1)) as -> by lia.
  assert ((b <=? len l1 + len l2) = (b - len l1 <=? len l2)) as -> by lia.
  destruct (_ && _) eqn:E; [|done]. f_equal. unfold sub.
  assert (drop (Z.to_nat a) (l1 ++ l2) = drop (Z.to_nat (a - len l1)) l2) as ->.
  { rewrite drop_app_ge by (unfold len in *; lia). f_equal. unfold len in *. lia. }
  f_equal. lia.
Qed.

Lemma slice_prefix {A} (l1 l2 : list A) a b : a = 0 -> b = len l1 -> slice (l1 ++ l2) a b = Ok l1.
Proof. intros ->. apply slice_head. Qed.

Lemma slice_whole {A} (l : list A) a b : a = 0 -> b = len l -> slice l a b = Ok l.
Proof. intros -> ->. apply slice_all. Qed.

(** [not_panic] runs through a handler: it splits on conditions and discharges
    the bounds of every access by [lia]. *)
Ltac not_panic_step :=
  match goal with
  | |- Ok _ <> Panic => done
  | |- Err _ <> Panic => done
  | |- (Ok _ ≫= _) <> Panic => rewrite bind_Ok
  | |- (Err _ ≫= _) <> Panic => done
  | |- (be16_at ?l ?a ≫= _) <> Panic =>
    let v := fresh "v" in let Hv := fresh "Hv" in
    destruct (be16_at_total l a) as [v Hv]; [lia|lia|]; rewrite Hv, bind_Ok
  | |- (slice ?l ?a ?b ≫= _) <> Panic => rewrite (slice_ok l a b) by lia; rewrite bind_Ok
  | |- (idx ?l ?a ≫= _) <> Panic =>
    let v := fresh "v" in let Hv := fresh "Hv" in
    destruct (idx_total l a) as (v & Hv & _); [lia|]; rewrite Hv, bind_Ok
  | |- ((if ?b then _ else _) ≫= _) <> Panic => destruct b eqn:?
  | |- ((_ ≫= _) ≫= _) <> Panic => rewrite bind_assoc
  | |- (if ?b then _ else _) <> Panic => destruct b eqn:?
  end.

Lemma gtb_false a b : a <= b -> (a >? b) = false.
Proof. lia. Qed.

(** [run_checks] passes the bounds checks of a parser on a valid input. *)
Ltac run_check :=
  match goal with
  | |- context [if ?a <? ?b then Err _ else _] => rewrite (proj2 (Z.ltb_ge a b)) by lia
  | |- context [if ?a >? ?b then Err _ else _] => rewrite (gtb_false a b) by lia
  end.

(** ** Flags in a word *)

Lemma land_pow2_small a k : 0 <= k -> 0 <= a < 2 ^ k -> Z.land a (2 ^ k) = 0.
Proof.
  intros Hk Ha. apply Z.bits_inj'. intros j Hj. rewrite Z.land_spec, Z.bits_0, Z.pow2_bits_eqb by done.
  destruct (Z.eqb_spec k j) as [<-|]; [|by rewrite andb_false_r].
  destruct (decide (a = 0)) as [->|]; [by rewrite Z.bits_0|].
  rewrite Z.bits_above_log2; [done|lia|]. apply Z.log2_lt_pow2; lia.
Qed.

Lemma filter_keep {A} (P : A -> Prop) `{!forall x, Decision (P x)} l : Forall P l -> filter P l = l.
Proof. induction 1 as [|x l Hx _ IH]; [done|]. by rewrite filter_cons_True, IH. Qed.

(** ** Strictly increasing lists *)

Definition increasing (l : list Z) : Prop := StronglySorted Z.lt l.

Lemma increasing_NoDup l : increasing l -> NoDup l.
Proof.
  induction 1 as [|x l _ IH Hx]; constructor; [|done].
  intros Hin. rewrite Forall_forall in Hx. specialize (Hx x Hin). lia.
Qed.

(** ** Writing inside a prefix of a buffer *)

Lemma copy_mid {A} (l1 x l2 src : list A) a :
  a = len l1 -> len src = len x -> copy_at (l1 ++ x ++ l2) a src = Ok (l1 ++ src ++ l2).
Proof.
  intros -> Hl. unfold copy_at. pose proof (len_nonneg l1). pose proof (len_nonneg x).
  pose proof (len_nonneg l2).
  rewrite (proj2 (Z.leb_le 0 _)), (proj2 (Z.leb_le (len l1) _)) by (len_norm; lia).
  cbn [andb]. f_equal. unfold len in *.
  rewrite Nat2Z.id, take_app_length. f_equal. rewrite take_ge by (rewrite !length_app; lia).
  f_equal. rewrite app_assoc, drop_app_length' by (rewrite length_app; lia). done.
Qed.

Lemma set_at_app_l {A} (l k : list A) i x l' :
  set_at l i x = Ok l' -> set_at (l ++ k) i x = Ok (l' ++ k).
Proof.
  unfold set_at. rewrite len_app. pose proof (len_nonneg k).
  destruct ((0 <=? i) && (i <? len l)) eqn:E; [|done]. intros [= <-].
  rewrite andb_true_iff, Z.leb_le, Z.ltb_lt in E. destruct E. unfold len in *.
  rewrite (proj2 (Z.leb_le 0 i)), (proj2 (Z.ltb_lt i _)) by lia. cbn [andb].
  by rewrite insert_app_l by lia.
Qed.

Lemma copy_at_app_l {A} (l k : list A) a src l' :
  a + len src <= len l -> copy_at l a src = Ok l' -> copy_at (l ++ k) a src = Ok (l' ++ k).
Proof.
  unfold copy_at. rewrite len_app. pose proof (len_nonneg k). pose proof (len_nonneg src). intros Hs.
  destruct ((0 <=? a) && (a <=? len l)) eqn:E; [|done]. intros [= <-].
  rewrite andb_true_iff, !Z.leb_le in E. destruct E. unfold len in *.
  rewrite (proj2 (Z.leb_le 0 a)), (proj2 (Z.leb_le a _)) by lia. cbn [andb]. f_equal.
  rewrite !take_app_le, drop_app_le by lia.
  rewrite (take_ge src (length (l ++ k) - _)), (take_ge src) by (rewrite ?length_app; lia).
  by rewrite <- !app_assoc.
Qed.

Lemma put16_at_app_l (l k : bytes) a v l' :
  put16_at l a v = Ok l' -> put16_at (l ++ k) a v = Ok (l' ++ k).
Proof.
  unfold put16_at. rewrite len_app. pose proof (len_nonneg k).
  destruct ((0 <=? a) && (a + 2 <=? len l)) eqn:E; [|done].
  rewrite andb_true_iff, !Z.leb_le in E. destruct E.
  rewrite (proj2 (Z.leb_le 0 a)), (proj2 (Z.leb_le _ (len l + len k))) by lia. cbn [andb].
  apply copy_at_app_l. rewrite len_put16. lia.
Qed.

(** ** Reachability: finite sequences of transitions *)

Inductive star {S : Type} (step : S -> S -> Prop) : S -> S -> Prop :=
  | star_refl s : star step s s
  | star_snoc s1 s2 s3 : star step s1 s2 -> step s2 s3 -> star step s1 s3.

Lemma star_invariant {S} (step : S -> S -> Prop) (I : S -> Prop) :
  (forall s s', I s -> step s s' -> I s') -> forall s s', I s -> star step s s' -> I s'.
Proof. intros Hpres s s' HI Hs. induction Hs; eauto. Qed.

(** ** How often an element occurs *)

Section times.
Context {A : Type} `{EqDecision A}.

Definition times (x : A) (l : list A) : nat := length (filter (fun y => y = x) l).

Lemma times_perm x l l' : l ≡ₚ l' -> times x l = times x l'.
Proof. intros H. unfold times. by rewrite H. Qed.
Lemma times_cons x y l : times x (y :: l) = ((if decide (y = x) then 1 else 0) + times x l)%nat.
Proof. unfold times. rewrite filter_cons. by case_decide. Qed.
Lemma times_le x l : (times x l <= length l)%nat.
Proof. apply length_filter. Qed.
Lemma times_pos x l : (0 < times x l)%nat <-> x ∈ l.
Proof.
  induction l as [|y l IH]; [split; [cbn; lia|by intros ?%elem_of_nil]|]. rewrite times_cons, elem_of_cons, <- IH.
  destruct (decide (y = x)) as [->|Hn]; [split; [by left|lia]|]. split; [by right|intros [->|H]; [done|lia]].
Qed.
Lemma times_0 x l : x ∉ l -> times x l = 0%nat.
Proof. rewrite <- times_pos. lia. Qed.
Lemma times_NoDup l : (forall x, (times x l <= 1)%nat) -> NoDup l.
Proof.
  induction l as [|y l IH]; intros H; constructor.
  - intros Hy%times_pos. specialize (H y). rewrite times_cons, decide_True in H by done. lia.
  - apply IH. intros x. specialize (H x). rewrite times_cons in H. lia.
Qed.

End times.

(** One of many lists is changed. *)
Lemma concat_insert {A} (ls : list (list A)) i l l' : ls !! i = Some l -> l ++ concat (<[i := l']> ls) ≡ₚ l' ++ concat ls.
Proof.
  revert i. induction ls as [|x ls IH]; intros [|i] H; [done..| |].
  - injection H as ->. cbn. rewrite !(assoc_L (++)). by rewrite (comm (++) l l').
  - cbn in *. specialize (IH i H). rewrite !(assoc_L (++)), (comm (++) l x), (comm (++) l' x), <- !(assoc_L (++)). by rewrite IH.
Qed.
