(* ===== verification/Wire.v ===== *)
(** * Wire: reading and writing fields in order

    Lemmas for the codecs of [internal/ike]: a marshalled structure is a
    concatenation of its fields, and the reads of a parser are evaluated field by
    field ([rd]) at whatever offsets the code computes. *)

From S2P Require Import Prelude.

#[global] Instance res_fmap : FMap res := fun A B f m =>
  match m with Ok a => Ok (f a) | Err e => Err e | Panic => Panic end.

Lemma fmap_Ok {A B} (f : A -> B) a : f <$> Ok a = Ok (f a).
Proof. reflexivity. Qed.
Lemma fmap_Panic {A B} (f : A -> B) (m : res A) : f <$> m = Panic <-> m = Panic.
Proof. by destruct m. Qed.

(** ** Reads at the head, and past a first field *)

Lemma idx_hd {A} (x : A) l i : i = 0 -> idx (x :: l) i = Ok x.
Proof. by intros ->. Qed.

Lemma idx_cons {A} (x : A) l i : 1 <= i -> idx (x :: l) i = idx l (i - 1).
Proof.
  intros Hi. unfold idx. rewrite (proj2 (Z.leb_le 0 i)), (proj2 (Z.leb_le 0 (i - 1))) by lia.
  by replace (Z.to_nat i) with (S (Z.to_nat (i - 1))) by lia.
Qed.

Lemma idx_skip {A} (l1 l2 : list A) i : len l1 <= i -> idx (l1 ++ l2) i = idx l2 (i - len l1).
Proof.
  intros Hi. pose proof (len_nonneg l1). unfold idx.
  rewrite (proj2 (Z.leb_le 0 i)), (proj2 (Z.leb_le 0 (i - len l1))) by lia.
  unfold len in *. rewrite lookup_app_r by lia. by replace (Z.to_nat i - _)%nat with (Z.to_nat (i - Z.of_nat (length l1))) by lia.
Qed.

Lemma be16_at_hd2 v l a : a = 0 -> is_u16 v -> be16_at (put16 v ++ l) a = Ok v.
Proof. intros ->. apply be16_at_0. Qed.

Lemma be16_at_end v a : a = 0 -> is_u16 v -> be16_at (put16 v) a = Ok v.
Proof. intros -> Hv. rewrite <- (app_nil_r (put16 v)). by apply be16_at_0. Qed.

Lemma be16_at_cons x l a : 1 <= a -> be16_at (x :: l) a = be16_at l (a - 1).
Proof. intros. by rewrite (be16_at_skip [x] l). Qed.

Lemma be32_at_hd4 v l a : a = 0 -> is_u32 v -> be32_at (put32 v ++ l) a = Ok v.
Proof.
  intros -> Hv. unfold be32_at. rewrite slice_prefix, bind_Ok by (len_norm; lia).
  by apply be32_put32_nil.
Qed.

Lemma be32_at_skip l1 l2 a : len l1 <= a -> be32_at (l1 ++ l2) a = be32_at l2 (a - len l1).
Proof.
  intros Ha. unfold be32_at. rewrite slice_skip by done.
  by replace (a + 4 - len l1) with (a - len l1 + 4) by lia.
Qed.

Lemma be32_at_cons x l a : 1 <= a -> be32_at (x :: l) a = be32_at l (a - 1).
Proof. intros. by rewrite (be32_at_skip [x] l). Qed.

Lemma slice_cons {A} (x : A) l a b : 1 <= a -> slice (x :: l) a b = slice l (a - 1) (b - 1).
Proof. intros. by rewrite (slice_skip [x] l). Qed.

(** [rd] reads the fields of a concatenation. *)
Ltac rd_step :=
  first
    [ rewrite bind_Ok
    | rewrite be16_at_hd2 by (len_norm; lia || done)
    | rewrite be16_at_end by (len_norm; lia || done)
    | rewrite be32_at_hd4 by (len_norm; lia || done)
    | rewrite idx_hd by (len_norm; lia)
    | rewrite be16_at_cons by (len_norm; lia)
    | rewrite be32_at_cons by (len_norm; lia)
    | rewrite idx_cons by (len_norm; lia)
    | rewrite be16_at_skip by (len_norm; lia)
    | rewrite be32_at_skip by (len_norm; lia)
    | rewrite idx_skip by (len_norm; lia) ].
Ltac rd := repeat rd_step.

(** [rd_slice] evaluates a slice that begins with whole fields. *)
Ltac rd_slice :=
  repeat first [ rewrite slice_cons by (len_norm; lia) | rewrite slice_skip by (len_norm; lia) ];
  first [ rewrite slice_whole by (len_norm; lia) | rewrite slice_prefix by (len_norm; lia) ];
  rewrite ?bind_Ok.

(** The first read of a handler, evaluated on its own: [get] a field, [cut] a slice. *)
Lemma bind_step {A B} (m : res A) (f : A -> res B) a r : m = Ok a -> f a = r -> (m ≫= f) = r.
Proof. by intros -> <-. Qed.

Ltac get := eapply bind_step; [solve [rd; reflexivity]|cbv beta].
Ltac cut := eapply bind_step; [solve [rd_slice; reflexivity]|cbv beta].

(** ** Every two and four bytes are an integer *)

Lemma put16_of a b : is_u8 a -> is_u8 b -> put16 (a * 256 + b) = [a; b].
Proof. intros. assert (forall x y : Z, a = x -> b = y -> [x; y] = [a; b]) as E by (by intros ?? -> ->). apply E; solve_word. Qed.

Lemma put32_of a b c d :
  is_u8 a -> is_u8 b -> is_u8 c -> is_u8 d ->
  put32 (((a * 256 + b) * 256 + c) * 256 + d) = [a; b; c; d].
Proof.
  intros. assert (forall x y z w : Z, a = x -> b = y -> c = z -> d = w -> [x; y; z; w] = [a; b; c; d]) as E
    by (by intros ???? -> -> -> ->).
  apply E; solve_word.
Qed.

(** ** Totality of the remaining accessors *)

Lemma be32_at_u32 l a v : bytes_wf l -> be32_at l a = Ok v -> is_u32 v.
Proof.
  intros Hwf (s & (_ & _ & ->)%slice_inv & Hv)%bind_Ok_inv. eapply be32_u32; [|exact Hv].
  by apply Forall_sub.
Qed.

Lemma idx_u8 l i v : bytes_wf l -> idx l i = Ok v -> is_u8 v.
Proof.
  unfold idx. intros Hwf. case_match; [|done]. case_match; [|done]. intros [= <-].
  by eapply Forall_lookup_1.
Qed.

Lemma Forall_concat_map {A} (f : A -> bytes) (l : list A) :
  Forall (fun x => bytes_wf (f x)) l -> bytes_wf (concat (f <$> l)).
Proof. intros H. by apply Forall_concat, Forall_fmap. Qed.

Lemma set_mid {A} (l1 l2 : list A) x y i :
  i = len l1 -> set_at (l1 ++ x :: l2) i y = Ok (l1 ++ y :: l2).
Proof.
  intros ->. unfold set_at. pose proof (len_nonneg l1). pose proof (len_nonneg l2).
  rewrite (proj2 (Z.leb_le 0 _)), (proj2 (Z.ltb_lt _ _)) by (len_norm; lia). cbn [andb].
  unfold len. rewrite Nat2Z.id, insert_app_r_alt by lia. by rewrite Nat.sub_diag.
Qed.

Lemma make_full (l src : bytes) n :
  n = len src -> copy_at (l ++ make n) (len l) src = Ok (l ++ src).
Proof. intros ->. rewrite fill_copy by lia. by rewrite make_0, app_nil_r by lia. Qed.

(** [fill_end] closes a sequence of writes that fills the buffer exactly. *)
Ltac fill_end := rewrite ?make_0, ?app_nil_r, <- ?app_assoc by (len_norm; lia).

(** [wf_bytes] proves that a concatenation of fields is made of bytes. *)
Ltac wf_bytes := unfold bytes_wf in *;
  repeat first
    [ assumption | apply put16_wf | apply put32_wf | apply make_wf | apply Forall_nil_2
    | apply Forall_app_2 | apply Forall_cons; split | (unfold is_u8; lia) | case_match ].

(** Masking the top bit of a byte and of a 16-bit word. *)
Lemma land_128 b : is_u8 b -> (negb (Z.land b 128 =? 0)) = (128 <=? b).
Proof.
  intros Hb. assert (forallb (fun b => Bool.eqb (negb (Z.land b 128 =? 0)) (128 <=? b))
    (Z.of_nat <$> seq 0 256) = true) as H by (vm_compute; reflexivity).
  rewrite forallb_forall in H. apply Bool.eqb_prop, H. apply list_elem_of_In, list_elem_of_fmap.
  exists (Z.to_nat b). unfold is_u8 in Hb. split; [lia|]. apply elem_of_seq. lia.
Qed.

Lemma land_high v : is_u16 v -> Z.land v 32768 = if 32768 <=? v then 32768 else 0.
Proof.
  intros Hv. unfold is_u16 in Hv. destruct (Z.leb_spec 32768 v) as [H|H].
  - replace v with (Z.lor (v - 32768) 32768) at 1.
    + rewrite Z.land_lor_distr_l, (land_pow2_small _ 15) by lia. reflexivity.
    + rewrite <- Z.lxor_lor, <- Z.add_nocarry_lxor by (apply (land_pow2_small _ 15); lia). lia.
  - apply (land_pow2_small _ 15); lia.
Qed.

Lemma land_low v : is_u16 v -> Z.land v 32767 = v mod 32768.
Proof. intros _. change 32767 with (Z.ones 15). by rewrite Z.land_ones by lia. Qed.

Lemma lor_high v : 0 <= v < 32768 -> Z.lor v 32768 = v + 32768.
Proof. intros. rewrite <- Z.lxor_lor, <- Z.add_nocarry_lxor; [done|..]; by apply (land_pow2_small _ 15); lia. Qed.
