(* ===== verification/Net.v ===== *)
(** * Net: the parts of Go's package [net] and [strings] the code relies on

    A [net.IP] is its byte slice: [[]] is the nil address, 4 bytes are an IPv4
    address and 16 bytes an IPv6 one (or an IPv4-mapped one, the form
    [net.IPv4] builds). *)

From S2P Require Import Prelude.

Definition v4InV6Prefix : bytes := [0;0;0;0;0;0;0;0;0;0;255;255].

(** [IP.To4]: nil when the address is not an IPv4 one. *)
Definition To4 (ip : bytes) : option bytes :=
  if decide (length ip = 4%nat) then Some ip
  else if decide (length ip = 16%nat /\ take 12 ip = v4InV6Prefix) then Some (drop 12 ip)
  else None.

(** [net.IPv4(a,b,c,d)]: the 16-byte form. *)
Definition IPv4 (a b c d : Z) : bytes := v4InV6Prefix ++ [a; b; c; d].

(** [IP.To16]: nil for a slice that is no address. *)
Definition To16 (ip : bytes) : bytes :=
  if decide (length ip = 4%nat) then v4InV6Prefix ++ ip
  else if decide (length ip = 16%nat) then ip else [].

(** [IP.Equal]: an IPv4 address equals its IPv4-mapped form. *)
Definition IPEqual (ip x : bytes) : bool :=
  if decide (length ip = length x) then bool_decide (ip = x)
  else if decide (length ip = 4%nat /\ length x = 16%nat)
  then bool_decide (take 12 x = v4InV6Prefix /\ ip = drop 12 x)
  else if decide (length ip = 16%nat /\ length x = 4%nat)
  then bool_decide (take 12 ip = v4InV6Prefix /\ drop 12 ip = x)
  else false.

(** A UDP endpoint ([*net.UDPAddr]). *)
Record UDPAddr := mkUDPAddr { IP : bytes; Port : Z }.

#[global] Instance UDPAddr_eq_dec : EqDecision UDPAddr.
Proof. solve_decision. Defined.

#[global] Instance UDPAddr_countable : Countable UDPAddr.
Proof.
  refine (inj_countable' (fun a => (IP a, Port a)) (fun p => mkUDPAddr p.1 p.2) _).
  by intros [].
Defined.

Lemma To4_length ip b : To4 ip = Some b -> length b = 4%nat.
Proof.
  unfold To4; intros H; repeat case_decide; simplify_eq; [done|].
  rewrite length_drop. lia.
Qed.

Lemma To4_4 ip : length ip = 4%nat -> To4 ip = Some ip.
Proof. intros. unfold To4. by case_decide. Qed.

Lemma To4_wf ip b : bytes_wf ip -> To4 ip = Some b -> bytes_wf b.
Proof.
  unfold To4; intros Hwf H; repeat case_decide; simplify_eq; [done|]. by apply Forall_drop.
Qed.

Lemma To16_to4 ip b : To4 ip = Some b -> To16 ip = v4InV6Prefix ++ b.
Proof.
  unfold To4, To16; intros H; repeat case_decide; destruct_and?; simplify_eq; try done.
  match goal with H : take 12 _ = _ |- _ => rewrite <- H end. by rewrite take_drop.
Qed.

Lemma IPEqual_refl ip : IPEqual ip ip = true.
Proof. unfold IPEqual. case_decide; [|done]. by apply bool_decide_eq_true. Qed.

(** On 4-byte addresses [IP.Equal] against any address is equality of the
    [To4] forms. *)
Lemma IPEqual_4 ip x b :
  length ip = 4%nat -> To4 x = Some b -> IPEqual ip x = bool_decide (ip = b).
Proof.
  unfold To4, IPEqual; intros Hl H; repeat case_decide; destruct_and?; simplify_eq; try done; try lia.
Qed.

Section Strings.
Open Scope string_scope.

(** [strings.SplitN(s, sep, 2)] for a one-character separator that occurs in
    [s]: the two parts; [None] when it does not (one part). *)
Fixpoint split2 (sep : Ascii.ascii) (s : string) : option (string * string) :=
  match s with
  | EmptyString => None
  | String c s' =>
    if Ascii.eqb c sep then Some ("", s')
    else match split2 sep s' with
         | Some (a, b) => Some (String c a, b)
         | None => None
         end
  end.

(** The ASCII white space [strings.TrimSpace] removes. *)
Definition is_space (c : Ascii.ascii) : bool :=
  let n := Ascii.nat_of_ascii c in
  Nat.eqb n 32 || (Nat.leb 9 n && Nat.leb n 13).

Fixpoint trim_left (s : string) : string :=
  match s with
  | String c s' => if is_space c then trim_left s' else s
  | EmptyString => s
  end.

Definition TrimSpace (s : string) : string :=
  String.rev (trim_left (String.rev (trim_left s))).
End Strings.
