(* ===== verification/Filepath.v ===== *)
(** * Filepath: the parts of Go's [path/filepath] and [strings] the configuration relies on

    Paths of Unix, where the separator is the slash and there are no volume names. *)

From Stdlib Require Import Ascii.
From S2P Require Import Prelude.

#[local] Open Scope string_scope.

(** The parts of [s] before and after the last [sep]. *)
Fixpoint cut_last (sep : Ascii.ascii) (s : string) : option (string * string) :=
  match s with
  | EmptyString => None
  | String c s' =>
    match cut_last sep s' with
    | Some (a, b) => Some (String c a, b)
    | None => if Ascii.eqb c sep then Some ("", s') else None
    end
  end.

(** [strings.Split(s, sep)] for a separator of one character. *)
Fixpoint split (sep : Ascii.ascii) (s : string) : list string :=
  match s with
  | EmptyString => [""]
  | String c s' =>
    if Ascii.eqb c sep then "" :: split sep s'
    else match split sep s' with
         | x :: l => String c x :: l
         | [] => [String c ""]
         end
  end.

Definition slash : Ascii.ascii := "/"%char.
Definition dot : Ascii.ascii := "."%char.

Definition IsAbs (path : string) : bool :=
  match path with String c _ => Ascii.eqb c slash | EmptyString => false end.

(** One element of the path; the elements kept so far are in reverse. *)
Definition clean_step (rooted : bool) (out : list string) (c : string) : list string :=
  if (c =? "") || (c =? ".") then out
  else if c =? ".." then
    match out with
    | [] => if rooted then [] else [".."]
    | x :: out' => if x =? ".." then ".." :: out else out'
    end
  else c :: out.

Definition Clean (path : string) : string :=
  let rooted := IsAbs path in
  let s := String.concat "/" (reverse (foldl (clean_step rooted) [] (split slash path))) in
  if rooted then String slash s else if s =? "" then "." else s.

(** [filepath.Join] of two elements: empty ones are ignored. *)
Definition Join (a b : string) : string :=
  if negb (a =? "") then Clean (a ++ "/" ++ b)
  else if negb (b =? "") then Clean b else "".

Definition Dir (path : string) : string :=
  match cut_last slash path with
  | Some (d, _) => Clean (d ++ "/")
  | None => Clean ""
  end.

(** What is left of a path without its trailing slashes. *)
Fixpoint trim_slashes (path : string) : string :=
  match path with
  | EmptyString => ""
  | String c p =>
    match trim_slashes p with
    | EmptyString => if Ascii.eqb c slash then "" else String c ""
    | p => String c p
    end
  end.

Definition Base (path : string) : string :=
  if path =? "" then "."
  else
    let path := trim_slashes path in
    let path := match cut_last slash path with Some (_, b) => b | None => path end in
    if path =? "" then "/" else path.

Definition Ext (path : string) : string :=
  let name := match cut_last slash path with Some (_, b) => b | None => path end in
  match cut_last dot name with Some (_, e) => String dot e | None => "" end.

Definition HasSuffix (s suffix : string) : bool :=
  let n := String.length s in let k := String.length suffix in
  Nat.leb k n && (String.substring (n - k) k s =? suffix).

Definition TrimSuffix (s suffix : string) : string :=
  if HasSuffix s suffix then String.substring 0 (String.length s - String.length suffix) s else s.

Example paths_clean :
  Clean "/etc//swan/./x/../ipsec.d/" = "/etc/swan/ipsec.d" /\ Clean "a/../../b" = "../b" /\ Clean "/.." = "/" /\
  Join "/etc/swan" "ipsec.d" = "/etc/swan/ipsec.d" /\ Dir "/etc/swan/config.yaml" = "/etc/swan" /\ Dir "config.yaml" = "." /\
  Base "/etc/ipsec.d/office.yaml" = "office.yaml" /\ Base "//" = "/" /\ Ext "a.b/office.tar.gz" = ".gz" /\
  TrimSuffix "office.yaml" ".yaml" = "office".
Proof. vm_compute. by split_and!. Qed.

(** ** Absolute paths *)

Lemma IsAbs_app a b : IsAbs a = true -> IsAbs (a ++ b) = true.
Proof. by destruct a. Qed.

Lemma IsAbs_Clean p : IsAbs p = true -> IsAbs (Clean p) = true.
Proof. intros H. unfold Clean. by rewrite H. Qed.

Lemma IsAbs_Join a b : IsAbs a = true -> IsAbs (Join a b) = true.
Proof.
  intros H. unfold Join. destruct a; [done|]. apply IsAbs_Clean, IsAbs_app, H.
Qed.

Lemma cut_last_app sep s a b : cut_last sep s = Some (a, b) -> s = a ++ String sep b.
Proof.
  revert a b. induction s as [|c s IH]; [done|]. intros a b H. cbn in H.
  destruct (cut_last sep s) as [[a' b']|].
  - injection H as <- <-. by rewrite (IH a' b').
  - destruct (Ascii.eqb_spec c sep); [|done]. by injection H as <- <-; subst.
Qed.

Lemma IsAbs_Dir p : IsAbs p = true -> IsAbs (Dir p) = true.
Proof.
  intros H. unfold Dir. destruct (cut_last slash p) as [[d b]|] eqn:E.
  - apply IsAbs_Clean. apply cut_last_app in E as ->. by destruct d.
  - exfalso. destruct p as [|c p]; [done|]. cbn in *. destruct (cut_last slash p) as [[]|]; [done|]. by rewrite H in E.
Qed.
