(* ===== verification/Ipam.v ===== *)
(** * Ipam: the IPv4 address pool ([internal/ipam/pool.go])

    [Pool] is the struct, one definition per method.  A method returns the new
    pool with its result, so that an error path that changed the pool would show.
    The mutex makes every method atomic; it has no other effect. *)

From Stdlib Require Import Ascii.
From S2P Require Import Prelude Net.
Open Scope string_scope.
Open Scope list_scope.
Open Scope Z_scope.

Module Pool.

Record Pool := mkPool {
  startIP : Z;            (* uint32 *)
  endIP : Z;              (* uint32 *)
  size : Z;
  bitmap : list bool;
  nextFree : Z
}.

Definition ipToUint32 (ip : bytes) : Z :=
  match To4 ip with
  | None => 0
  | Some b => match be32 b with Ok n => n | _ => 0 end
  end.

Definition uint32ToIP (n : Z) : bytes := put32 n.

Section Parse.
(** [net.ParseIP]: nil ([[]]) when the text is no address. *)
Variable ParseIP : string -> bytes.

Definition parseRange (rangeStr : string) : res (bytes * bytes) :=
  match split2 "-"%char rangeStr with
  | None => Err "ipam: invalid range"
  | Some (a, b) =>
    match To4 (ParseIP (TrimSpace a)) with
    | None => Err "ipam: invalid start IP"
    | Some s =>
      match To4 (ParseIP (TrimSpace b)) with
      | None => Err "ipam: invalid end IP"
      | Some e => Ok (s, e)
      end
    end
  end.

Definition NewPool (rangeStr : string) : res Pool :=
  '(s, e) ← parseRange rangeStr;
  let startN := ipToUint32 s in
  let endN := ipToUint32 e in
  if startN >? endN then Err "ipam: start IP is after end IP"
  else if (startN =? 0) || (endN =? 0) then Err "ipam: invalid IP range"
  else
    let sz := u32 (endN - startN) + 1 in
    if sz >? 65536 then Err "ipam: pool size exceeds maximum 65536"
    else Ok (mkPool startN endN sz (replicate (Z.to_nat sz) false) 0).
End Parse.

(** The loop of [Allocate]: [fuel] is the number of iterations left. *)
Fixpoint alloc_loop (fuel : nat) (p : Pool) (i : Z) : Pool * res bytes :=
  match fuel with
  | O => (p, Err "ipam: pool exhausted, no available addresses")
  | S f =>
    let k := (nextFree p + i) mod size p in
    match idx (bitmap p) k with
    | Ok false =>
      (mkPool (startIP p) (endIP p) (size p) (<[Z.to_nat k := true]> (bitmap p))
         ((k + 1) mod size p),
       Ok (uint32ToIP (u32 (startIP p + u32 k))))
    | Ok true => alloc_loop f p (i + 1)
    | _ => (p, Panic)
    end
  end.

Definition Allocate (p : Pool) : Pool * res bytes :=
  alloc_loop (Z.to_nat (size p)) p 0.

Definition AllocateSpecific (p : Pool) (ip : bytes) : Pool * res unit :=
  match To4 ip with
  | None => (p, Err "ipam: not a valid IPv4 address")
  | Some ip4 =>
    let n := ipToUint32 ip4 in
    if (n <? startIP p) || (n >? endIP p) then (p, Err "ipam: outside pool range")
    else
      let k := u32 (n - startIP p) in
      match idx (bitmap p) k with
      | Ok true => (p, Err "ipam: already allocated")
      | Ok false =>
        (mkPool (startIP p) (endIP p) (size p) (<[Z.to_nat k := true]> (bitmap p))
           (nextFree p), Ok tt)
      | _ => (p, Panic)
      end
  end.

Definition Release (p : Pool) (ip : bytes) : Pool * res unit :=
  match To4 ip with
  | None => (p, Err "ipam: not a valid IPv4 address")
  | Some ip4 =>
    let n := ipToUint32 ip4 in
    if (n <? startIP p) || (n >? endIP p) then (p, Err "ipam: outside pool range")
    else
      let k := u32 (n - startIP p) in
      match idx (bitmap p) k with
      | Ok false => (p, Err "ipam: not allocated")
      | Ok true =>
        (mkPool (startIP p) (endIP p) (size p) (<[Z.to_nat k := false]> (bitmap p))
           (if k <? nextFree p then k else nextFree p), Ok tt)
      | _ => (p, Panic)
      end
  end.

(** The counting loop of [Available]. *)
Definition Available (p : Pool) : Z :=
  fold_left (fun count allocated => if negb allocated then count + 1 else count) (bitmap p) 0.

Definition Size (p : Pool) : Z := size p.
Definition StartIP (p : Pool) : bytes := uint32ToIP (startIP p).
Definition EndIP (p : Pool) : bytes := uint32ToIP (endIP p).

(** ** Well-formed pools and the abstract set of addresses in use *)

Record pool_ok (p : Pool) : Prop := {
  ok_start : 0 < startIP p;
  ok_end : endIP p < 4294967296;
  ok_size : size p = endIP p - startIP p + 1;
  ok_pos : 1 <= size p <= 65536;
  ok_bitmap : len (bitmap p) = size p;
  ok_next : 0 <= nextFree p < size p
}.

(** [in_use p n]: the address [n] (as a uint32) is allocated. *)
Definition in_use (p : Pool) (n : Z) : Prop :=
  startIP p <= n /\ bitmap p !! Z.to_nat (n - startIP p) = Some true.

Definition in_range (p : Pool) (n : Z) : Prop := startIP p <= n <= endIP p.

#[global] Instance in_use_dec p n : Decision (in_use p n).
Proof. unfold in_use; apply _. Defined.

(** The pool with the bit of address [n] replaced: what every successful
    operation does, up to [nextFree]. *)
Definition with_bit (p : Pool) (k : Z) (b : bool) (nf : Z) : Pool :=
  mkPool (startIP p) (endIP p) (size p) (<[Z.to_nat k := b]> (bitmap p)) nf.

Lemma with_bit_ok p k b nf :
  pool_ok p -> 0 <= nf < size p -> pool_ok (with_bit p k b nf).
Proof. intros [] ?. constructor; cbn; rewrite ?len_insert; auto. Qed.

Lemma in_use_with_bit p k b nf n :
  pool_ok p -> 0 <= k < size p ->
  in_use (with_bit p k b nf) n <->
    (n = startIP p + k /\ b = true) \/ (n <> startIP p + k /\ in_use p n).
Proof.
  intros [] Hk. unfold in_use, with_bit; cbn. unfold len in *.
  destruct (decide (n = startIP p + k)) as [->|Hne].
  - rewrite Z.add_simpl_l, list_lookup_insert_eq by lia.
    split; [intros [_ [= ->]]; auto|]. intros [[_ ->]|[? _]]; [|done]. split; [lia|done].
  - split.
    + intros [Hle Hl]. right. split; [done|split; [done|]].
      by rewrite list_lookup_insert_ne in Hl by lia.
    + intros [[? _]|[_ [Hle Hl]]]; [done|]. split; [done|].
      by rewrite list_lookup_insert_ne by lia.
Qed.

Lemma in_use_set p k nf m :
  pool_ok p -> 0 <= k < size p ->
  in_use (with_bit p k true nf) m <-> m = startIP p + k \/ in_use p m.
Proof.
  intros. rewrite in_use_with_bit by done.
  destruct (decide (m = startIP p + k)); intuition congruence.
Qed.

Lemma in_use_clear p k nf m :
  pool_ok p -> 0 <= k < size p ->
  in_use (with_bit p k false nf) m <-> m <> startIP p + k /\ in_use p m.
Proof. intros. rewrite in_use_with_bit by done. intuition congruence. Qed.

Lemma bit_total p k :
  pool_ok p -> 0 <= k < size p -> exists b, idx (bitmap p) k = Ok b /\ bitmap p !! Z.to_nat k = Some b.
Proof. intros [] ?. apply idx_total. lia. Qed.

(** Counting free addresses. *)
Fixpoint free_count (l : list bool) : Z :=
  match l with [] => 0 | b :: l => (if b then 0 else 1) + free_count l end.

Lemma Available_free_count p : Available p = free_count (bitmap p).
Proof.
  unfold Available.
  enough (forall l c, fold_left (fun count (allocated : bool) =>
      if negb allocated then count + 1 else count) l c = c + free_count l) as -> by lia.
  induction l as [|[] l IH]; intros c; cbn; rewrite ?IH; lia.
Qed.

Lemma free_count_insert l k (b b' : bool) :
  l !! k = Some b ->
  free_count (<[k:=b']> l) = free_count l + (if b then 0 else -1) + (if b' then 0 else 1).
Proof.
  revert k; induction l as [|x l IH]; intros [|k] Hk; [done..| |].
  - injection Hk as ->. cbn. destruct b, b'; lia.
  - change (<[S k:=b']> (x :: l)) with (x :: <[k:=b']> l). cbn [free_count].
    rewrite (IH k Hk). lia.
Qed.

Lemma free_count_nonneg l : 0 <= free_count l.
Proof. induction l as [|[] l IH]; cbn; lia. Qed.

Lemma free_count_0 l : free_count l = 0 <-> (forall k b, l !! k = Some b -> b = true).
Proof.
  induction l as [|x l IH]; cbn; [done|]. pose proof (free_count_nonneg l).
  split.
  - destruct x; [|lia]. intros Hl [|k] b; cbn; [congruence|]. by apply IH.
  - intros Hall. rewrite (Hall O x eq_refl), (proj2 IH); [done|]. intros k. apply (Hall (S k)).
Qed.

(** ** [ipToUint32] and [uint32ToIP] *)

Lemma ipToUint32_uint32ToIP n : is_u32 n -> ipToUint32 (uint32ToIP n) = n.
Proof.
  intros. unfold ipToUint32, uint32ToIP. rewrite To4_4 by done.
  by rewrite be32_put32_nil.
Qed.

Lemma To4_uint32ToIP n : To4 (uint32ToIP n) = Some (uint32ToIP n).
Proof. by apply To4_4. Qed.

(** ** The allocation loop *)

(** What [Allocate] promises: a fresh address of the range, or exhaustion. *)
Definition alloc_spec (p : Pool) (out : Pool * res bytes) : Prop :=
  (exists k, 0 <= k < size p /\ bitmap p !! Z.to_nat k = Some false /\
     out = (with_bit p k true ((k + 1) mod size p), Ok (uint32ToIP (startIP p + k)))) \/
  (out = (p, Err "ipam: pool exhausted, no available addresses") /\
   forall k, 0 <= k < size p -> bitmap p !! Z.to_nat k = Some true).

(** The loop has examined the [i] slots that follow [nextFree], all taken. *)
Lemma alloc_loop_spec p fuel i :
  pool_ok p -> 0 <= i -> Z.of_nat fuel = size p - i ->
  (forall j, 0 <= j < i -> bitmap p !! Z.to_nat ((nextFree p + j) mod size p) = Some true) ->
  alloc_spec p (alloc_loop fuel p i).
Proof.
  intros Hok. destruct (Hok) as [? ? ? Hpos _ Hnext].
  revert i; induction fuel as [|f IH]; intros i Hi Hf Htaken; cbn [alloc_loop].
  - right. split; [done|]. intros k Hk.
    set (j := (k - nextFree p) mod size p).
    assert (0 <= j < size p) by (apply Z.mod_pos_bound; lia).
    assert (k = (nextFree p + j) mod size p) as Hkj.
    { unfold j. rewrite Zplus_mod_idemp_r.
      replace (nextFree p + (k - nextFree p)) with k by lia. by rewrite Z.mod_small by lia. }
    rewrite Hkj. apply Htaken. lia.
  - set (k := (nextFree p + i) mod size p).
    assert (0 <= k < size p) by (apply Z.mod_pos_bound; lia).
    destruct (bit_total p k) as [b [Hidx Hb]]; [done..|]. rewrite Hidx. destruct b.
    + apply IH; [lia..|]. intros j Hj.
      destruct (decide (j = i)) as [->|]; [done|]. apply Htaken. lia.
    + left. exists k. split_and!; [lia..|done|]. unfold with_bit.
      by rewrite (u32_id k), (u32_id (startIP p + k)) by (unfold is_u32; lia).
Qed.

Lemma Allocate_alloc_spec p : pool_ok p -> alloc_spec p (Allocate p).
Proof. intros [] . apply alloc_loop_spec; [by constructor|lia..|]. intros; lia. Qed.

Lemma in_use_bit p k b :
  0 <= k -> bitmap p !! Z.to_nat k = Some b -> in_use p (startIP p + k) <-> b = true.
Proof.
  intros Hk Hb. unfold in_use. rewrite Z.add_simpl_l, Hb.
  split; [by intros [_ [= ->]]|intros ->]. split; [lia|done].
Qed.

Lemma Available_with_bit p k (b b' : bool) nf :
  bitmap p !! Z.to_nat k = Some b ->
  Available (with_bit p k b' nf) = Available p + (if b then 0 else -1) + (if b' then 0 else 1).
Proof. intros. rewrite !Available_free_count. by apply free_count_insert. Qed.

Lemma Available_0 p :
  pool_ok p -> Available p = 0 <-> (forall n, in_range p n -> in_use p n).
Proof.
  intros Hok. destruct (Hok). rewrite Available_free_count, free_count_0. split.
  - intros Hall n Hn. unfold in_range in Hn.
    destruct (bit_total p (n - startIP p)) as [b [_ Hb]]; [done|lia|].
    split; [lia|]. by rewrite <- (Hall _ _ Hb).
  - intros Hall k b Hb. pose proof (lookup_lt_Some _ _ _ Hb). unfold len in *.
    destruct (Hall (startIP p + Z.of_nat k)) as [_ Ht]; [unfold in_range; lia|].
    rewrite Z.add_simpl_l, Nat2Z.id in Ht. congruence.
Qed.

(** ** Properties *)

Lemma ipToUint32_range b : bytes_wf b -> is_u32 (ipToUint32 b).
Proof.
  intros Hb. unfold ipToUint32. destruct (To4 b) as [b4|] eqn:E; [|unfold is_u32; lia].
  destruct (be32 b4) eqn:Eb; [|unfold is_u32; lia..].
  eauto using be32_u32, To4_wf.
Qed.

Lemma uint32ToIP_ipToUint32 b : bytes_wf b -> length b = 4%nat -> uint32ToIP (ipToUint32 b) = b.
Proof.
  intros Hb Hl. unfold ipToUint32. rewrite To4_4 by done.
  destruct b as [|x [|y [|z [|w [|]]]]]; try discriminate.
  repeat (apply Forall_cons in Hb as [? Hb]).
  cbn. unfold uint32ToIP, put32. repeat f_equal; solve_word.
Qed.

(** ** Properties *)

Definition same_range (p p' : Pool) : Prop := startIP p' = startIP p /\ endIP p' = endIP p.

(** Preservation shared by the three operations. *)
Lemma with_bit_props p k b nf :
  pool_ok p -> 0 <= k < size p -> 0 <= nf < size p ->
  pool_ok (with_bit p k b nf) /\ same_range p (with_bit p k b nf).
Proof. intros. split; [by apply with_bit_ok|done]. Qed.

(** a pool [NewPool] builds from a range text is well formed, every address
    of the range is free, and its bounds are the two addresses of the text. *)
Theorem NewPool_ok (ParseIP : string -> bytes) rangeStr p :
  (forall s, bytes_wf (ParseIP s)) ->
  NewPool ParseIP rangeStr = Ok p ->
  pool_ok p /\ Available p = Size p /\ (forall n, ~ in_use p n) /\
  parseRange ParseIP rangeStr = Ok (StartIP p, EndIP p).
Proof.
  intros Hwf. unfold NewPool. intros ([s e] & Hr & H)%bind_Ok_inv. rewrite Hr.
  assert (bytes_wf s /\ bytes_wf e /\ length s = 4%nat /\ length e = 4%nat) as (Hs & He & ? & ?).
  { unfold parseRange in Hr. repeat case_match; simplify_eq.
    eauto 10 using To4_wf, To4_length. }
  pose proof (ipToUint32_range _ Hs) as Hsr. pose proof (ipToUint32_range _ He) as Her.
  unfold is_u32 in *.
  destruct (ipToUint32 s >? ipToUint32 e) eqn:E1; [done|].
  destruct ((_ =? 0) || _) eqn:E2; [done|]. apply orb_false_iff in E2 as [E2 E3].
  rewrite u32_id in H by (unfold is_u32; lia).
  destruct (_ >? 65536) eqn:E4; simplify_eq.
  split_and!.
  - constructor; cbn; rewrite ?len_replicate; lia.
  - rewrite Available_free_count. cbn.
    enough (forall k, free_count (replicate k false) = Z.of_nat k) as -> by lia.
    induction k as [|k IH]; [done|]. cbn [replicate free_count]. lia.
  - intros n [_ Hn]. cbn in Hn. apply lookup_replicate in Hn as [? _]. done.
  - unfold StartIP, EndIP; cbn. by rewrite !uint32ToIP_ipToUint32.
Qed.

(** [Allocate] hands out an address of the range that was not in use, marks
    exactly that address, and fails, changing nothing, only when every address of
    the range is in use; it never indexes out of the bitmap. *)
Lemma Allocate_refines p :
  pool_ok p ->
  match Allocate p with
  | (p', Ok ip) =>
    pool_ok p' /\ same_range p p' /\ Available p' = Available p - 1 /\
    exists n, ip = uint32ToIP n /\ in_range p n /\ ~ in_use p n /\
      forall m, in_use p' m <-> m = n \/ in_use p m
  | (p', Err _) => p' = p /\ Available p = 0 /\ forall n, in_range p n -> in_use p n
  | (_, Panic) => False
  end.
Proof.
  intros Hok. destruct (Hok). destruct (Allocate_alloc_spec p Hok) as [(k & Hk & Hb & ->)|[-> Hall]].
  - assert (0 <= (k + 1) mod size p < size p) by (apply Z.mod_pos_bound; lia).
    destruct (with_bit_props p k true ((k + 1) mod size p)) as [? ?]; [done..|].
    split_and!; [done..| |].
    + rewrite (Available_with_bit _ _ false) by done. lia.
    + exists (startIP p + k). pose proof (in_use_bit p k false ltac:(lia) Hb) as Hbit.
      split_and!; [done|unfold in_range; lia|by intros ?%Hbit|].
      intros m. by apply in_use_set.
  - split; [done|]. assert (forall n, in_range p n -> in_use p n) as Hn.
    { intros n Hn. unfold in_range in Hn. split; [lia|]. apply Hall. lia. }
    split; [by apply Available_0|done].
Qed.

(** The index [Release] and [AllocateSpecific] compute for a 4-byte address. *)
Lemma specific_index p ip4 :
  pool_ok p -> bytes_wf ip4 ->
  (ipToUint32 ip4 <? startIP p) || (ipToUint32 ip4 >? endIP p) = false ->
  let k := u32 (ipToUint32 ip4 - startIP p) in
  0 <= k < size p /\ ipToUint32 ip4 = startIP p + k.
Proof.
  intros [] Hwf [H1 H2]%orb_false_iff. pose proof (ipToUint32_range _ Hwf). unfold is_u32 in *.
  cbn. rewrite u32_id by (unfold is_u32; lia). lia.
Qed.

Lemma out_of_range_free p n :
  pool_ok p -> (n <? startIP p) || (n >? endIP p) = true -> ~ in_use p n.
Proof.
  intros [] H [? Hb%lookup_lt_Some]. unfold len in *. apply orb_true_iff in H. lia.
Qed.

(** [Release] frees exactly the address it is given, which was in use, or
    fails and changes nothing when the address is not IPv4 or not in use. *)
Lemma Release_refines p ip :
  pool_ok p -> bytes_wf ip ->
  match Release p ip with
  | (p', Ok _) =>
    pool_ok p' /\ same_range p p' /\ Available p' = Available p + 1 /\
    exists ip4, To4 ip = Some ip4 /\ in_use p (ipToUint32 ip4) /\
      forall m, in_use p' m <-> m <> ipToUint32 ip4 /\ in_use p m
  | (p', Err _) => p' = p /\ forall ip4, To4 ip = Some ip4 -> ~ in_use p (ipToUint32 ip4)
  | (_, Panic) => False
  end.
Proof.
  intros Hok Hwf. destruct (Hok). unfold Release.
  destruct (To4 ip) as [ip4|] eqn:E4; [|by split].
  destruct (_ || _) eqn:Er.
  { split; [done|]. intros ? [= <-]. by apply out_of_range_free. }
  destruct (specific_index p ip4) as [Hk Hn]; [by eauto using To4_wf..|].
  set (k := u32 (ipToUint32 ip4 - startIP p)) in *.
  destruct (bit_total p k) as [b [-> Hb]]; [done..|].
  pose proof (in_use_bit p k b ltac:(lia) Hb) as Hbit. rewrite <- Hn in Hbit.
  destruct b; [|split; [done|]; by intros ? [= <-] ?%Hbit].
  fold (with_bit p k false (if k <? nextFree p then k else nextFree p)).
  assert (0 <= (if k <? nextFree p then k else nextFree p) < size p) by (case_match; lia).
  destruct (with_bit_props p k false (if k <? nextFree p then k else nextFree p)) as [? ?]; [done..|].
  split_and!; [done..| |].
  - rewrite (Available_with_bit _ _ true) by done. lia.
  - exists ip4. split_and!; [done|by apply Hbit|]. intros m. rewrite Hn. by apply in_use_clear.
Qed.

(** [AllocateSpecific] marks exactly the address it is given, which was a
    free address of the range, or fails and changes nothing. *)
Lemma AllocateSpecific_refines p ip :
  pool_ok p -> bytes_wf ip ->
  match AllocateSpecific p ip with
  | (p', Ok _) =>
    pool_ok p' /\ same_range p p' /\ Available p' = Available p - 1 /\
    exists ip4, To4 ip = Some ip4 /\ in_range p (ipToUint32 ip4) /\
      ~ in_use p (ipToUint32 ip4) /\
      forall m, in_use p' m <-> m = ipToUint32 ip4 \/ in_use p m
  | (p', Err _) =>
    p' = p /\ forall ip4, To4 ip = Some ip4 ->
      ~ in_range p (ipToUint32 ip4) \/ in_use p (ipToUint32 ip4)
  | (_, Panic) => False
  end.
Proof.
  intros Hok Hwf. destruct (Hok). unfold AllocateSpecific.
  destruct (To4 ip) as [ip4|] eqn:E4; [|by split].
  destruct (_ || _) eqn:Er.
  { split; [done|]. intros ? [= <-]. left. unfold in_range. apply orb_true_iff in Er. lia. }
  destruct (specific_index p ip4) as [Hk Hn]; [by eauto using To4_wf..|].
  set (k := u32 (ipToUint32 ip4 - startIP p)) in *.
  destruct (bit_total p k) as [b [-> Hb]]; [done..|].
  pose proof (in_use_bit p k b ltac:(lia) Hb) as Hbit. rewrite <- Hn in Hbit.
  destruct b; [split; [done|]; intros ? [= <-]; right; by apply Hbit|].
  fold (with_bit p k true (nextFree p)).
  destruct (with_bit_props p k true (nextFree p)) as [? ?]; [done..|].
  split_and!; [done..| |].
  - rewrite (Available_with_bit _ _ false) by done. lia.
  - exists ip4. split_and!; [done|unfold in_range; lia|by intros ?%Hbit|].
    intros m. rewrite Hn. by apply in_use_set.
Qed.

(** ** The abstract pool: a range and the set of addresses held

    [held] is the set of addresses (as uint32) the clients hold: those a successful
    [Allocate] or [AllocateSpecific] gave them, until they release them. *)

Inductive op := OpAllocate | OpSpecific (ip : bytes) | OpRelease (ip : bytes).

Definition op_wf (o : op) : Prop :=
  match o with OpAllocate => True | OpSpecific ip | OpRelease ip => bytes_wf ip end.

(** One call on the concrete pool; the address it hands out or takes back. *)
Definition run (o : op) (p : Pool) : Pool * res Z :=
  match o with
  | OpAllocate => let '(p', r) := Allocate p in (p', ip ← r; Ok (ipToUint32 ip))
  | OpSpecific ip => let '(p', r) := AllocateSpecific p ip in (p', _ ← r; Ok (ipToUint32 ip))
  | OpRelease ip => let '(p', r) := Release p ip in (p', _ ← r; Ok (ipToUint32 ip))
  end.

(** What each call may do to the set of addresses in use. *)
Definition set_spec (lo hi : Z) (o : op) (held : gset Z) (r : res Z) (held' : gset Z) : Prop :=
  match o, r with
  | OpAllocate, Ok n => lo <= n <= hi /\ (n ∉ held) /\ held' = {[n]} ∪ held
  | OpAllocate, Err _ => (forall n, lo <= n <= hi -> n ∈ held) /\ held' = held
  | OpSpecific ip, Ok n =>
    n = ipToUint32 ip /\ lo <= n <= hi /\ (n ∉ held) /\ held' = {[n]} ∪ held
  | OpSpecific ip, Err _ =>
    (To4 ip = None \/ ~ lo <= ipToUint32 ip <= hi \/ ipToUint32 ip ∈ held) /\ held' = held
  | OpRelease ip, Ok n => n = ipToUint32 ip /\ n ∈ held /\ held' = held ∖ {[n]}
  | OpRelease ip, Err _ => (To4 ip = None \/ ipToUint32 ip ∉ held) /\ held' = held
  | _, Panic => False
  end.

Record tracks (p : Pool) (held : gset Z) : Prop := {
  tr_ok : pool_ok p;
  tr_held n : n ∈ held <-> in_use p n;
  tr_count : Available p + Z.of_nat (base.size held) = size p
}.

Lemma ipToUint32_To4 ip ip4 : To4 ip = Some ip4 -> ipToUint32 ip4 = ipToUint32 ip.
Proof.
  intros H. unfold ipToUint32. rewrite H, To4_4; [done|]. by eapply To4_length.
Qed.

Lemma size_same_range p p' : pool_ok p -> pool_ok p' -> same_range p p' -> size p' = size p.
Proof. intros [] [] [? ?]. lia. Qed.

(** Adding and removing one address keeps the abstraction. *)
Lemma tracks_add p p' held n :
  tracks p held -> pool_ok p' -> same_range p p' -> Available p' = Available p - 1 ->
  ~ in_use p n -> (forall m, in_use p' m <-> m = n \/ in_use p m) ->
  tracks p' ({[n]} ∪ held).
Proof.
  intros [Hok Hh Hc] Hok' Hr Ha Hn Hm. constructor; [done| |].
  - intros m. rewrite Hm, <- Hh. set_solver.
  - assert (n ∉ held) by (by rewrite Hh).
    rewrite size_union, size_singleton by set_solver.
    rewrite (size_same_range p p') by done. lia.
Qed.

Lemma tracks_remove p p' held n :
  tracks p held -> pool_ok p' -> same_range p p' -> Available p' = Available p + 1 ->
  in_use p n -> (forall m, in_use p' m <-> m <> n /\ in_use p m) ->
  tracks p' (held ∖ {[n]}).
Proof.
  intros [Hok Hh Hc] Hok' Hr Ha Hn Hm. constructor; [done| |].
  - intros m. rewrite Hm, <- Hh. set_solver.
  - assert (n ∈ held) as Hin by (by apply Hh).
    rewrite size_difference, size_singleton by set_solver.
    rewrite (size_same_range p p') by done.
    assert (base.size held <> 0%nat) by (intros Hz%size_empty_inv; set_solver). lia.
Qed.

Lemma run_tracks o p held :
  tracks p held -> op_wf o ->
  exists held', set_spec (startIP p) (endIP p) o held (run o p).2 held' /\
    tracks (run o p).1 held' /\ same_range p (run o p).1.
Proof.
  intros Ht Hwf. destruct (Ht) as [Hok Hh _]. destruct o as [|ip|ip]; cbn [run op_wf] in *.
  - pose proof (Allocate_refines p Hok) as H. destruct (Allocate p) as [p' [ip|e|]]; [| |done]; cbn.
    + destruct H as (Hok' & Hs & Ha & n & -> & Hr & Hn & Hm).
      destruct (Hok). unfold in_range in Hr.
      rewrite ipToUint32_uint32ToIP by (unfold is_u32; lia). exists ({[n]} ∪ held).
      rewrite Hh. eauto 10 using tracks_add.
    + destruct H as (-> & _ & Hall). exists held. split_and!; [|done..].
      intros n Hn. by apply Hh, Hall.
  - pose proof (AllocateSpecific_refines p ip Hok Hwf) as H.
    destruct (AllocateSpecific p ip) as [p' [[]|e|]]; [| |done]; cbn.
    + destruct H as (Hok' & Hs & Ha & ip4 & H4 & Hr & Hn & Hm).
      rewrite (ipToUint32_To4 _ _ H4) in *. exists ({[ipToUint32 ip]} ∪ held).
      rewrite Hh. unfold in_range in Hr. eauto 10 using tracks_add.
    + destruct H as [-> Hall]. exists held. split_and!; [|done..].
      destruct (To4 ip) as [ip4|] eqn:H4; [|by left]. right.
      destruct (Hall _ eq_refl) as [?|?]; rewrite (ipToUint32_To4 _ _ H4) in *; [by left|].
      right. by apply Hh.
  - pose proof (Release_refines p ip Hok Hwf) as H.
    destruct (Release p ip) as [p' [[]|e|]]; [| |done]; cbn.
    + destruct H as (Hok' & Hs & Ha & ip4 & H4 & Hn & Hm).
      rewrite (ipToUint32_To4 _ _ H4) in *. exists (held ∖ {[ipToUint32 ip]}).
      rewrite Hh. eauto 10 using tracks_remove.
    + destruct H as [-> Hall]. exists held. split_and!; [|done..].
      destruct (To4 ip) as [ip4|] eqn:H4; [|by left]. right. rewrite Hh.
      rewrite <- (ipToUint32_To4 _ _ H4). by apply Hall.
Qed.

Lemma fresh_tracks p :
  pool_ok p -> Available p = Size p -> (forall n, ~ in_use p n) -> tracks p ∅.
Proof.
  intros Hok Ha Hf. constructor; [done| |].
  - intros n. specialize (Hf n). set_solver.
  - rewrite size_empty. unfold Size in Ha. lia.
Qed.

(** C37: the bitmap pool refines the abstract set of addresses in use: whatever
    one call of [Allocate], [AllocateSpecific] or [Release] does is a step of the
    specification (fresh address of the range or exhaustion; the given address or
    the reason it cannot be given; the given address or "not held"), its errors
    change nothing, it never indexes out of the bitmap, and [Available] keeps
    counting the addresses not held. *)
Theorem pool_refines_set o p held :
  tracks p held -> op_wf o ->
  exists held', set_spec (startIP p) (endIP p) o held (run o p).2 held' /\
    tracks (run o p).1 held' /\ same_range p (run o p).1.
Proof. apply run_tracks. Qed.

(** The calls that can be made on a pool, one after the other. *)
Fixpoint run_all (p : Pool) (os : list op) : Pool * list (res Z) :=
  match os with
  | [] => (p, [])
  | o :: os =>
    let '(p1, r) := run o p in
    let '(p2, rs) := run_all p1 os in
    (p2, r :: rs)
  end.

(** The addresses the clients hold after these calls and their results. *)
Fixpoint held_after (held : gset Z) (os : list op) (rs : list (res Z)) : gset Z :=
  match os, rs with
  | OpRelease _ :: os, Ok n :: rs => held_after (held ∖ {[n]}) os rs
  | _ :: os, Ok n :: rs => held_after ({[n]} ∪ held) os rs
  | _ :: os, _ :: rs => held_after held os rs
  | _, _ => held
  end.

Lemma run_all_tracks os p held :
  tracks p held -> Forall op_wf os ->
  tracks (run_all p os).1 (held_after held os (run_all p os).2) /\
  same_range p (run_all p os).1.
Proof.
  revert p held; induction os as [|o os IH]; intros p held Ht Hwf; cbn [run_all]; [by split|].
  apply Forall_cons in Hwf as [Hw Hwf].
  destruct (run_tracks o p held Ht Hw) as (held' & Hs & Ht' & Hr).
  destruct (run o p) as [p1 r]. cbn [fst snd] in *.
  specialize (IH p1 held' Ht' Hwf). destruct (run_all p1 os) as [p2 rs]. cbn [fst snd] in *.
  destruct IH as [IH [Hr1 Hr2]]. destruct Hr as [Hr3 Hr4]. split; [|split; congruence].
  destruct o, r; cbn in Hs; destruct_and?; subst; done.
Qed.

(** from a fresh pool and after any sequence of calls, [Allocate] never hands
    out an address some client still holds, hands out one of the pool's range, and
    fails only when the clients hold the whole range. *)
Theorem no_double_allocation p0 os :
  pool_ok p0 -> Available p0 = Size p0 -> (forall n, ~ in_use p0 n) -> Forall op_wf os ->
  let p := (run_all p0 os).1 in
  let held := held_after ∅ os (run_all p0 os).2 in
  match (Allocate p).2 with
  | Ok ip => (ipToUint32 ip ∉ held) /\ in_range p0 (ipToUint32 ip)
  | Err _ => forall n, in_range p0 n -> n ∈ held
  | Panic => False
  end.
Proof.
  intros Hok Ha Hfree Hwf p held.
  destruct (run_all_tracks os p0 ∅ (fresh_tracks _ Hok Ha Hfree) Hwf) as [Ht [Hr1 Hr2]].
  fold p in Ht, Hr1, Hr2. fold held in Ht.
  destruct (run_tracks OpAllocate p held Ht I) as (held' & Hs & _ & _).
  rewrite Hr1, Hr2 in Hs. cbn in Hs. destruct (Allocate p) as [p' [ip|e|]]; cbn in *.
  - destruct Hs as (? & ? & _). by split.
  - by destruct Hs.
  - done.
Qed.

(** ** Witnesses *)

Definition demo_parse (s : string) : bytes :=
  if String.eqb s "10.0.0.10" then [10; 0; 0; 10]
  else if String.eqb s "10.0.0.13" then [10; 0; 0; 13] else [].

Definition demo_pool (l : list bool) (nf : Z) : Pool :=
  mkPool 167772170 167772173 4 l nf.

Lemma demo_pool_ok l nf : len l = 4 -> 0 <= nf < 4 -> pool_ok (demo_pool l nf).
Proof. intros. constructor; cbn; lia. Qed.

Lemma demo_parse_wf s : bytes_wf (demo_parse s).
Proof. unfold demo_parse. repeat case_match; repeat constructor; unfold is_u8; lia. Qed.

Lemma NewPool_ok_witness :
  NewPool demo_parse "10.0.0.10 - 10.0.0.13" = Ok (demo_pool (replicate 4 false) 0) /\
  pool_ok (demo_pool (replicate 4 false) 0).
Proof.
  assert (NewPool demo_parse "10.0.0.10 - 10.0.0.13" = Ok (demo_pool (replicate 4 false) 0)) as H
    by (vm_compute; reflexivity).
  split; [exact H|]. apply (NewPool_ok demo_parse _ _ demo_parse_wf H).
Defined.

Lemma demo_tracks : tracks (demo_pool [true; false; true; false] 2) {[167772170; 167772172]}.
Proof.
  constructor; [by apply demo_pool_ok| |done].
  intros n. unfold in_use. cbn [startIP bitmap demo_pool]. rewrite !elem_of_union, !elem_of_singleton.
  split.
  - intros [-> | ->]; (split; [lia|done]).
  - intros [Hn H]. assert (Z.to_nat (n - 167772170) < 4)%nat as Hl by (by eapply lookup_lt_Some in H).
    destruct (Z.to_nat (n - 167772170)) as [|[|[|[|k]]]] eqn:E; try done; lia.
Qed.

Lemma pool_refines_set_witness :
  run OpAllocate (demo_pool [true; false; true; false] 2) =
    (demo_pool [true; false; true; true] 0, Ok 167772173) /\
  run (OpRelease [10; 0; 0; 10]) (demo_pool [true; false; true; false] 2) =
    (demo_pool [false; false; true; false] 0, Ok 167772170) /\
  exists held, set_spec 167772170 167772173 OpAllocate {[167772170; 167772172]} (Ok 167772173) held.
Proof.
  assert (run OpAllocate (demo_pool [true; false; true; false] 2) =
    (demo_pool [true; false; true; true] 0, Ok 167772173)) as E by (vm_compute; reflexivity).
  split; [exact E|]. split; [vm_compute; reflexivity|].
  destruct (pool_refines_set OpAllocate _ _ demo_tracks I) as (held & Hs & _).
  exists held. rewrite E in Hs. exact Hs.
Defined.

Lemma no_double_allocation_witness :
  let os := [OpAllocate; OpSpecific [10; 0; 0; 11]; OpRelease [10; 0; 0; 10]] in
  let p := (run_all (demo_pool (replicate 4 false) 0) os).1 in
  Allocate p = (demo_pool [true; true; false; false] 1, Ok [10; 0; 0; 10]) /\
  (167772170 ∉ held_after ∅ os (run_all (demo_pool (replicate 4 false) 0) os).2).
Proof.
  intros os p.
  assert (Allocate p = (demo_pool [true; true; false; false] 1, Ok [10; 0; 0; 10])) as E
    by (vm_compute; reflexivity).
  split; [exact E|].
  assert (Forall op_wf os) as Hwf by (repeat constructor; unfold is_u8; lia).
  assert (forall n, ~ in_use (demo_pool (replicate 4 false) 0) n) as Hf.
  { intros n [_ Hn]. apply lookup_replicate in Hn as [? _]. done. }
  pose proof (no_double_allocation (demo_pool (replicate 4 false) 0) os
    ltac:(apply demo_pool_ok; [reflexivity|lia]) eq_refl Hf Hwf) as H.
  cbv zeta in H. fold p in H. rewrite E in H. apply H.
Defined.

End Pool.
