(* ===== verification/Replay.v ===== *)
(** * Replay: the ESP anti-replay window ([internal/esp/replay.go])

    [ReplayWindow] is the struct; the bitmap is the source's array of 64-bit
    words, shifted in place by the source's three loops.  The properties relate it
    to the set of sequence numbers [Advance] has been given. *)

From S2P Require Import Prelude.

Module Replay.

Definition DefaultReplayWindowSize : Z := 128.

Record ReplayWindow := mkReplayWindow {
  bitmap : list Z;     (* []uint64 *)
  lastSeq : Z;         (* uint64 *)
  size : Z             (* uint32 *)
}.

Definition NewReplayWindow (sz : Z) : ReplayWindow :=
  let sz := if sz =? 0 then DefaultReplayWindowSize else sz in
  let words := u32 (sz + 63) / 64 in
  mkReplayWindow (replicate (Z.to_nat words) 0) 0 (u32 (words * 64)).

(** The word at an index below the length (the callers check it). *)
Definition word (bm : list Z) (i : nat) : Z := nth i bm 0.

Definition Check (rw : ReplayWindow) (seq : Z) : bool :=
  if seq =? 0 then false
  else if lastSeq rw =? 0 then true
  else if seq >? lastSeq rw then true
  else
    let diff := lastSeq rw - seq in
    if diff >=? size rw then false
    else
      let wordIndex := diff / 64 in
      let bitIndex := diff mod 64 in
      if wordIndex >=? len (bitmap rw) then false
      else if negb (Z.land (word (bitmap rw) (Z.to_nat wordIndex)) (Z.shiftl 1 bitIndex) =? 0)
      then false
      else true.

Definition setBit (bm : list Z) (offset : Z) : list Z :=
  let wordIndex := offset / 64 in
  let bitIndex := offset mod 64 in
  if wordIndex <? len bm
  then <[Z.to_nat wordIndex :=
         Z.lor (word bm (Z.to_nat wordIndex)) (u64 (Z.shiftl 1 bitIndex))]> bm
  else bm.

(** [for i := words - 1; i >= wordShift; i--]: the argument is [i + 1]. *)
Fixpoint shift_words (i : nat) (wordShift : nat) (bm : list Z) : list Z :=
  match i with
  | O => bm
  | S i' =>
    if (wordShift <=? i')%nat
    then shift_words i' wordShift (<[i' := word bm (i' - wordShift)]> bm)
    else bm
  end.

(** [for i := 0; i < wordShift && i < words; i++]: [n] iterations are left. *)
Fixpoint zero_words (n : nat) (i : nat) (bm : list Z) : list Z :=
  match n with
  | O => bm
  | S n' => if (i <? length bm)%nat then zero_words n' (S i) (<[i := 0]> bm) else bm
  end.

(** [for i := words - 1; i > 0; i--]: the argument is [i + 1]. *)
Fixpoint shift_bits (i : nat) (bitShift : Z) (bm : list Z) : list Z :=
  match i with
  | S (S i' as i1) =>
    shift_bits i1 bitShift
      (<[i1 := Z.lor (u64 (Z.shiftl (word bm i1) bitShift))
                     (Z.shiftr (word bm i') (64 - bitShift))]> bm)
  | _ => bm
  end.

Definition shiftBitmap (rw_size : Z) (bm : list Z) (n : Z) : list Z :=
  let words := length bm in
  if n >=? rw_size then replicate words 0
  else
    let wordShift := Z.to_nat (n / 64) in
    let bitShift := n mod 64 in
    let bm1 :=
      if (0 <? wordShift)%nat
      then zero_words wordShift 0 (shift_words words wordShift bm)
      else bm in
    if bitShift >? 0
    then
      let bm2 := shift_bits words bitShift bm1 in
      <[0%nat := u64 (Z.shiftl (word bm2 0) bitShift)]> bm2
    else bm1.

Definition Advance (rw : ReplayWindow) (seq : Z) : ReplayWindow :=
  if seq =? 0 then rw
  else if lastSeq rw =? 0
  then mkReplayWindow (setBit (bitmap rw) 0) seq (size rw)
  else if seq >? lastSeq rw
  then
    let shift := seq - lastSeq rw in
    mkReplayWindow (setBit (shiftBitmap (size rw) (bitmap rw) shift) 0) seq (size rw)
  else
    let diff := lastSeq rw - seq in
    if diff <? size rw
    then mkReplayWindow (setBit (bitmap rw) diff) (lastSeq rw) (size rw)
    else rw.

(** ** Bits of the window *)

(** The bit at offset [p] from the right edge; offsets past the end read 0. *)
Definition bit (bm : list Z) (p : Z) : bool :=
  Z.testbit (word bm (Z.to_nat (p / 64))) (p mod 64).

Definition words_ok (bm : list Z) : Prop := Forall is_u64 bm.

Lemma word_lookup bm i w : bm !! i = Some w -> word bm i = w.
Proof. apply nth_lookup_Some. Qed.

Lemma word_out bm i : (length bm <= i)%nat -> word bm i = 0.
Proof. apply nth_overflow. Qed.

Lemma word_u64 bm i : words_ok bm -> is_u64 (word bm i).
Proof.
  intros H. destruct (bm !! i) as [w|] eqn:E.
  - rewrite (word_lookup _ _ _ E). by eapply Forall_lookup_1.
  - apply lookup_ge_None in E. rewrite word_out by done. unfold is_u64; lia.
Qed.

Lemma word_insert bm i j x :
  (i < length bm)%nat -> word (<[i:=x]> bm) j = if decide (i = j) then x else word bm j.
Proof.
  intros Hi. case_decide as Hij.
  - subst. apply word_lookup. by rewrite list_lookup_insert_eq.
  - unfold word. rewrite !nth_lookup. by rewrite list_lookup_insert_ne.
Qed.

Lemma testbit_high w k : is_u64 w -> 64 <= k -> Z.testbit w k = false.
Proof.
  intros [Hw Hw'] Hk. destruct (decide (w = 0)) as [->|]; [apply Z.bits_0|].
  apply Z.bits_above_log2; [done|].
  enough (Z.log2 w < 64) by lia. apply Z.log2_lt_pow2; lia.
Qed.

Lemma testbit_u64 x k : 0 <= k -> Z.testbit (u64 x) k = (k <? 64) && Z.testbit x k.
Proof.
  intros Hk. unfold u64. change 18446744073709551616 with (2 ^ 64).
  destruct (Z.ltb_spec k 64).
  - by rewrite Z.mod_pow2_bits_low by lia.
  - by rewrite Z.mod_pow2_bits_high by lia.
Qed.

Lemma lor_u64 a b : is_u64 a -> is_u64 b -> is_u64 (Z.lor a b).
Proof.
  intros Ha Hb. assert (Z.lor a b = u64 (Z.lor a b)) as ->; [|apply u64_range].
  apply Z.bits_inj'. intros k Hk. rewrite testbit_u64, Z.lor_spec by done.
  destruct (Z.ltb_spec k 64); [done|]. by rewrite !testbit_high.
Qed.

Lemma shiftr_u64 a k : is_u64 a -> 0 <= k -> is_u64 (Z.shiftr a k).
Proof.
  intros [? ?] ?. rewrite Z.shiftr_div_pow2 by done.
  assert (0 < 2 ^ k) by (apply Z.pow_pos_nonneg; lia).
  split; [apply Z.div_pos; lia|]. apply Z.div_lt_upper_bound; [done|]. nia.
Qed.

Lemma length_setBit bm p : length (setBit bm p) = length bm.
Proof. unfold setBit. case_match; [apply length_insert|done]. Qed.

Lemma setBit_ok bm p : words_ok bm -> words_ok (setBit bm p).
Proof.
  intros H. unfold setBit. case_match; [|done].
  apply Forall_insert; [done|]. apply lor_u64; [by apply word_u64|apply u64_range].
Qed.

Lemma div_mod_64 p q : 0 <= p -> 0 <= q -> p / 64 = q / 64 -> p mod 64 = q mod 64 -> p = q.
Proof. intros. Z.div_mod_to_equations. lia. Qed.

Lemma bit_setBit bm p q :
  0 <= p < 64 * len bm -> 0 <= q ->
  bit (setBit bm p) q = (p =? q) || bit bm q.
Proof.
  intros Hp Hq. unfold setBit, bit. unfold len in *.
  rewrite (proj2 (Z.ltb_lt (p / 64) _)) by (Z.div_mod_to_equations; lia).
  rewrite word_insert by (Z.div_mod_to_equations; lia).
  destruct (Z.eqb_spec p q) as [->|Hne].
  - rewrite decide_True by done. rewrite Z.lor_spec.
    rewrite testbit_u64, Z.shiftl_spec by (Z.div_mod_to_equations; lia).
    rewrite Z.sub_diag. change (Z.testbit 1 0) with true. rewrite (proj2 (Z.ltb_lt (q mod 64) 64)) by (Z.div_mod_to_equations; lia).
    by rewrite orb_true_r.
  - case_decide as Hw; [|done]. assert (p / 64 = q / 64) by (Z.div_mod_to_equations; lia).
    rewrite Z.lor_spec, testbit_u64 by (Z.div_mod_to_equations; lia).
    replace (p / 64) with (q / 64) by done. cbn.
    rewrite Z.shiftl_spec by (Z.div_mod_to_equations; lia).
    assert (q mod 64 <> p mod 64) by (intros ?; apply Hne, div_mod_64; congruence || lia).
    destruct (decide (q mod 64 - p mod 64 < 0)).
    + rewrite (Z.testbit_neg_r 1) by lia. by rewrite andb_false_r, orb_false_r.
    + change 1 with (2 ^ 0). rewrite Z.pow2_bits_false by lia. by rewrite andb_false_r, orb_false_r.
Qed.

(** ** The shift *)

Lemma length_shift_words i ws bm : length (shift_words i ws bm) = length bm.
Proof.
  revert bm; induction i as [|i IH]; intros bm; cbn; [done|].
  case_match; [|done]. by rewrite IH, length_insert.
Qed.

Lemma word_shift_words i ws bm j :
  (0 < ws)%nat -> (i <= length bm)%nat ->
  word (shift_words i ws bm) j =
    if decide (ws <= j < i)%nat then word bm (j - ws) else word bm j.
Proof.
  intros Hws. revert bm; induction i as [|i IH]; intros bm Hi; cbn [shift_words].
  { rewrite decide_False by lia. done. }
  destruct (Nat.leb_spec ws i) as [Hle|Hgt].
  - rewrite IH by (rewrite length_insert; lia). rewrite !word_insert by lia.
    repeat case_decide; subst; try lia; done.
  - rewrite decide_False by lia. done.
Qed.

Lemma length_zero_words n i bm : length (zero_words n i bm) = length bm.
Proof.
  revert i bm; induction n as [|n IH]; intros i bm; cbn; [done|].
  case_match; [|done]. by rewrite IH, length_insert.
Qed.

Lemma word_zero_words n i bm j :
  word (zero_words n i bm) j = if decide (i <= j < i + n)%nat then 0 else word bm j.
Proof.
  revert i bm; induction n as [|n IH]; intros i bm; cbn [zero_words].
  { rewrite decide_False by lia. done. }
  destruct (Nat.ltb_spec i (length bm)) as [Hlt|Hge].
  - rewrite IH, word_insert by done. repeat case_decide; try lia; done.
  - case_decide; [|done]. rewrite word_out by lia. done.
Qed.

Lemma length_shift_bits i bs bm : length (shift_bits i bs bm) = length bm.
Proof.
  revert bm; induction i as [|i IH]; intros bm; cbn; [done|].
  destruct i; [done|]. by rewrite IH, length_insert.
Qed.

Definition shifted_word (bm : list Z) (bs : Z) (j : nat) : Z :=
  Z.lor (u64 (Z.shiftl (word bm j) bs)) (Z.shiftr (word bm (j - 1)) (64 - bs)).

Lemma word_shift_bits i bs bm j :
  (i <= length bm)%nat ->
  word (shift_bits i bs bm) j =
    if decide (0 < j < i)%nat then shifted_word bm bs j else word bm j.
Proof.
  revert bm; induction i as [|i IH]; intros bm Hi; cbn [shift_bits].
  { rewrite decide_False by lia. done. }
  destruct i as [|i]; [rewrite decide_False by lia; done|].
  rewrite IH by (rewrite length_insert; lia). rewrite !word_insert by lia.
  unfold shifted_word. rewrite !word_insert by lia.
  repeat case_decide; subst; try lia; try done.
  by replace (S i - 1)%nat with i by lia.
Qed.

Lemma shift_words_ok i ws bm : words_ok bm -> words_ok (shift_words i ws bm).
Proof.
  revert bm; induction i as [|i IH]; intros bm H; cbn; [done|].
  case_match; [|done]. apply IH, Forall_insert; [done|]. by apply word_u64.
Qed.

Lemma zero_words_ok n i bm : words_ok bm -> words_ok (zero_words n i bm).
Proof.
  revert i bm; induction n as [|n IH]; intros i bm H; cbn; [done|].
  case_match; [|done]. apply IH, Forall_insert; [done|]. unfold is_u64; lia.
Qed.

Lemma shift_bits_ok i bs bm : bs <= 64 -> words_ok bm -> words_ok (shift_bits i bs bm).
Proof.
  intros Hbs. revert bm; induction i as [|i IH]; intros bm H; cbn; [done|].
  destruct i; [done|]. apply IH, Forall_insert; [done|].
  apply lor_u64; [apply u64_range|]. apply shiftr_u64; [by apply word_u64|lia].
Qed.

(** The bits of a word after the bit loop. *)
Lemma testbit_shifted a b bs k :
  is_u64 b -> 0 < bs < 64 -> 0 <= k < 64 ->
  Z.testbit (Z.lor (u64 (Z.shiftl a bs)) (Z.shiftr b (64 - bs))) k =
    if decide (bs <= k) then Z.testbit a (k - bs) else Z.testbit b (k + 64 - bs).
Proof.
  intros Hb Hbs Hk.
  rewrite Z.lor_spec, testbit_u64, Z.shiftl_spec, Z.shiftr_spec by lia.
  rewrite (proj2 (Z.ltb_lt k 64)) by lia. cbn [andb].
  replace (k + (64 - bs)) with (k + 64 - bs) by lia. case_decide.
  - rewrite (testbit_high b) by (done || lia). by rewrite orb_false_r.
  - by rewrite (Z.testbit_neg_r a) by lia.
Qed.

(** Moving whole words and moving bits inside words, as offsets. *)
Lemma bit_after_words bm bm1 ws p :
  0 <= ws -> 0 <= p ->
  word bm1 (Z.to_nat (p / 64)) =
    (if decide (p / 64 < ws) then 0 else word bm (Z.to_nat (p / 64 - ws))) ->
  bit bm1 p = if decide (64 * ws <= p) then bit bm (p - 64 * ws) else false.
Proof.
  intros Hws Hp Hw. unfold bit. rewrite Hw.
  repeat case_decide; try (exfalso; Z.div_mod_to_equations; lia).
  - apply Z.bits_0.
  - f_equal; [f_equal|]; Z.div_mod_to_equations; lia.
Qed.

Lemma bit_after_bits bm bm2 bs p :
  words_ok bm -> 0 < bs < 64 -> 0 <= p ->
  word bm2 (Z.to_nat (p / 64)) =
    (if decide (p / 64 = 0) then u64 (Z.shiftl (word bm 0) bs)
     else shifted_word bm bs (Z.to_nat (p / 64))) ->
  bit bm2 p = if decide (bs <= p) then bit bm (p - bs) else false.
Proof.
  intros Hok Hbs Hp Hw. unfold bit. rewrite Hw.
  pose proof (Z.mod_pos_bound p 64 ltac:(lia)) as Hk.
  destruct (decide (p / 64 = 0)) as [H0|H0].
  - rewrite testbit_u64, Z.shiftl_spec, (proj2 (Z.ltb_lt (p mod 64) 64)) by lia. cbn [andb].
    case_decide.
    + replace (Z.to_nat ((p - bs) / 64)) with O by (Z.div_mod_to_equations; lia).
      f_equal. Z.div_mod_to_equations; lia.
    + apply Z.testbit_neg_r. Z.div_mod_to_equations; lia.
  - unfold shifted_word. rewrite testbit_shifted by (done || by apply word_u64).
    repeat case_decide; try (exfalso; Z.div_mod_to_equations; lia).
    + f_equal; [f_equal|]; Z.div_mod_to_equations; lia.
    + f_equal; [f_equal|]; Z.div_mod_to_equations; lia.
Qed.

Lemma word_zeroes n j : word (replicate n 0) j = 0.
Proof.
  unfold word. rewrite nth_lookup. destruct (replicate n 0 !! j) eqn:E; [|done].
  by apply lookup_replicate in E as [-> _].
Qed.

Lemma bit_zeroes n p : bit (replicate n 0) p = false.
Proof. unfold bit. rewrite word_zeroes. apply Z.bits_0. Qed.

Lemma length_shiftBitmap sz bm n : length (shiftBitmap sz bm n) = length bm.
Proof.
  unfold shiftBitmap. repeat case_match; rewrite ?length_insert, ?length_shift_bits,
    ?length_zero_words, ?length_shift_words, ?length_replicate; done.
Qed.

Lemma shiftBitmap_ok sz bm n : words_ok bm -> words_ok (shiftBitmap sz bm n).
Proof.
  intros H. unfold shiftBitmap.
  repeat case_match; try apply Forall_insert;
    repeat first [done | apply u64_range | apply shift_bits_ok | apply zero_words_ok | apply shift_words_ok];
    try (Z.div_mod_to_equations; lia).
  apply Forall_replicate. unfold is_u64; lia.
Qed.

(** After the word loops. *)
Lemma bit_word_phase bm ws p :
  words_ok bm -> (ws <= length bm)%nat -> 0 <= p < 64 * len bm ->
  let bm1 := if (0 <? ws)%nat then zero_words ws 0 (shift_words (length bm) ws bm) else bm in
  words_ok bm1 /\ length bm1 = length bm /\
  bit bm1 p = if decide (64 * Z.of_nat ws <= p) then bit bm (p - 64 * Z.of_nat ws) else false.
Proof.
  intros Hok Hws Hp bm1. unfold bm1, len in *. destruct (Nat.ltb_spec 0 ws) as [Hpos|H0].
  - split_and!.
    + by apply zero_words_ok, shift_words_ok.
    + by rewrite length_zero_words, length_shift_words.
    + apply bit_after_words; [lia..|].
      rewrite word_zero_words, word_shift_words by lia.
      repeat case_decide; try (exfalso; Z.div_mod_to_equations; lia); [done|].
      f_equal. lia.
  - split_and!; [done..|]. replace ws with O by lia.
    rewrite decide_True by lia. f_equal. lia.
Qed.

(** [shiftBitmap] moves the bit at offset [p - n] to offset [p] and clears the
    [n] lowest offsets. *)
Lemma bit_shiftBitmap sz bm n p :
  words_ok bm -> sz = 64 * len bm -> 0 < n -> 0 <= p < sz ->
  bit (shiftBitmap sz bm n) p = if decide (n <= p) then bit bm (p - n) else false.
Proof.
  intros Hok Hsz Hn Hp. unfold shiftBitmap.
  destruct (n >=? sz) eqn:Ebig.
  { rewrite bit_zeroes. by rewrite decide_False by lia. }
  set (ws := Z.to_nat (n / 64)). set (bs := n mod 64).
  assert (n = 64 * Z.of_nat ws + bs /\ 0 <= bs < 64) as [Hdec Hbs].
  { unfold ws, bs. Z.div_mod_to_equations; lia. }
  assert (ws <= length bm)%nat as Hws by (unfold len in *; lia).
  destruct (bit_word_phase bm ws p Hok Hws ltac:(lia)) as (Hok1 & Hlen1 & _).
  assert (forall q, 0 <= q < 64 * len bm -> bit (if (0 <? ws)%nat
      then zero_words ws 0 (shift_words (length bm) ws bm) else bm) q =
      if decide (64 * Z.of_nat ws <= q) then bit bm (q - 64 * Z.of_nat ws) else false) as Hbit1.
  { intros q Hq. apply (bit_word_phase bm ws q Hok Hws Hq). }
  set (bm1 := if (0 <? ws)%nat then _ else bm) in *.
  assert (len bm1 = len bm) as Hl by (unfold len; lia).
  destruct (bs >? 0) eqn:Ebs.
  - rewrite (bit_after_bits bm1 _ bs p Hok1) by
      (lia || (rewrite word_insert by (rewrite length_shift_bits; unfold len in *; lia);
        rewrite !word_shift_bits by lia;
        repeat case_decide; try done; unfold len in *; Z.div_mod_to_equations; lia)).
    repeat case_decide; try done; rewrite ?Hbit1 by lia; repeat case_decide; try lia; try done.
    f_equal. lia.
  - rewrite Hbit1 by lia. repeat case_decide; try lia; try done. f_equal. lia.
Qed.

(** ** The window as a record of the sequence numbers it has been given *)

(** The highest sequence number of a history; 0 for the empty one. *)
Definition newest (hist : list Z) : Z := foldr Z.max 0 hist.

(** RFC 4303 section 3.4.3: not zero, and either beyond the newest number or
    inside the window and not seen yet. *)
Definition acceptable (W : Z) (hist : list Z) (seq : Z) : Prop :=
  seq <> 0 /\ (newest hist < seq \/ (newest hist - seq < W /\ seq ∉ hist)).

Record tracks (rw : ReplayWindow) (hist : list Z) : Prop := {
  tr_words : words_ok (bitmap rw);
  tr_size : size rw = 64 * len (bitmap rw);
  tr_pos : 0 < size rw;
  tr_hist : Forall (fun s => 0 < s < 18446744073709551616) hist;
  tr_last : lastSeq rw = newest hist;
  tr_bits : forall p, 0 <= p < size rw -> bit (bitmap rw) p = true <-> lastSeq rw - p ∈ hist
}.

Lemma newest_nonneg hist : 0 <= newest hist.
Proof. unfold newest. induction hist; cbn; lia. Qed.

Lemma newest_ub hist s : s ∈ hist -> s <= newest hist.
Proof.
  unfold newest. induction hist as [|x hist IH]; cbn; [by intros ?%not_elem_of_nil|].
  intros [->|Hs]%elem_of_cons; [lia|]. specialize (IH Hs). lia.
Qed.

Lemma newest_0 hist : Forall (fun s => 0 < s < 18446744073709551616) hist -> newest hist = 0 -> hist = [].
Proof. intros H H0. destruct H as [|x l Hx _]; [done|]. cbn in H0. unfold newest in *. lia. Qed.

Lemma newest_cons s hist : newest (s :: hist) = Z.max s (newest hist).
Proof. reflexivity. Qed.

Lemma land_pow2_testbit w b : 0 <= b -> negb (Z.land w (Z.shiftl 1 b) =? 0) = Z.testbit w b.
Proof.
  intros Hb. rewrite Z.shiftl_1_l.
  destruct (Z.testbit w b) eqn:E; destruct (Z.eqb_spec (Z.land w (2 ^ b)) 0) as [H0|Hn]; try done.
  - apply (f_equal (fun x => Z.testbit x b)) in H0.
    rewrite Z.land_spec, E, Z.pow2_bits_true, Z.bits_0 in H0 by done. done.
  - exfalso. apply Hn. apply Z.bits_inj'. intros k Hk.
    rewrite Z.land_spec, Z.pow2_bits_eqb, Z.bits_0 by done.
    destruct (Z.eqb_spec b k) as [<-|]; [by rewrite E|by rewrite andb_false_r].
Qed.

Lemma Check_bit rw hist seq :
  tracks rw hist -> 0 < seq <= lastSeq rw ->
  Check rw seq = (lastSeq rw - seq <? size rw) && negb (bit (bitmap rw) (lastSeq rw - seq)).
Proof.
  intros [Hw Hsz Hpos _ _ _] Hs. unfold Check.
  rewrite (proj2 (Z.eqb_neq seq 0)), (proj2 (Z.eqb_neq (lastSeq rw) 0)) by lia.
  destruct (seq >? lastSeq rw) eqn:E; [lia|].
  destruct (Z.geb_spec (lastSeq rw - seq) (size rw)) as [Hge|Hlt].
  { by rewrite (proj2 (Z.ltb_ge _ _)) by lia. }
  rewrite (proj2 (Z.ltb_lt _ _)) by lia.
  destruct (_ >=? len (bitmap rw)) eqn:E2; [exfalso; Z.div_mod_to_equations; lia|].
  rewrite land_pow2_testbit by (Z.div_mod_to_equations; lia).
  unfold bit. by destruct (Z.testbit _ _).
Qed.

Lemma Check_acceptable rw hist seq :
  tracks rw hist -> 0 <= seq -> Check rw seq = true <-> acceptable (size rw) hist seq.
Proof.
  intros Ht Hs. pose proof (newest_nonneg hist). destruct (Ht) as [_ _ Hpos Hh Hl Hb].
  unfold acceptable. destruct (decide (seq = 0)) as [->|Hne].
  { unfold Check. cbn. split; [done|]. by intros [? _]. }
  destruct (decide (newest hist < seq)) as [Hnew|Hold].
  { unfold Check. rewrite (proj2 (Z.eqb_neq seq 0)) by done.
    destruct (lastSeq rw =? 0); [split; auto|].
    destruct (seq >? lastSeq rw) eqn:E; [split; auto|lia]. }
  rewrite (Check_bit _ _ _ Ht) by lia. rewrite andb_true_iff, Z.ltb_lt, negb_true_iff, Hl.
  split.
  - intros [Hlt Hbit]. split; [done|]. right. split; [done|]. intros Hin.
    rewrite <- Hl in Hlt, Hbit. apply not_true_iff_false in Hbit. apply Hbit, Hb; [lia|].
    by replace (lastSeq rw - (lastSeq rw - seq)) with seq by lia.
  - intros [_ [?|[Hlt Hnin]]]; [lia|]. split; [done|]. apply not_true_iff_false. rewrite <- Hl.
    rewrite Hb by lia. by replace (lastSeq rw - (lastSeq rw - seq)) with seq by lia.
Qed.

Lemma Check_fresh rw hist seq :
  tracks rw hist -> 0 <= seq -> Check rw seq = true -> seq <> 0 /\ (seq ∉ hist).
Proof.
  intros Ht Hs E. apply (Check_acceptable rw hist seq Ht Hs) in E as [Hne [Hlt|[_ ?]]]; split; try done.
  intros ?%newest_ub. lia.
Qed.

Lemma Check_newer rw hist seq :
  tracks rw hist -> newest hist < seq -> Check rw seq = true.
Proof.
  intros Ht Hlt. pose proof (newest_nonneg hist). apply (Check_acceptable rw hist seq Ht); [lia|].
  split; [lia|by left].
Qed.

Lemma setBit_tracks rw hist bm last seq :
  words_ok bm -> len bm = len (bitmap rw) -> size rw = 64 * len bm -> 0 < size rw ->
  Forall (fun s => 0 < s < 18446744073709551616) hist ->
  0 < seq < 18446744073709551616 ->
  last = newest (seq :: hist) -> last - seq < size rw ->
  (forall p, 0 <= p < size rw -> bit bm p = true <-> last - p ∈ hist) ->
  tracks (mkReplayWindow (setBit bm (last - seq)) last (size rw)) (seq :: hist).
Proof.
  intros Hw Hl Hsz Hpos Hh Hs Hlast Hin Hb.
  assert (seq <= last) by (rewrite Hlast, newest_cons; lia).
  constructor; cbn [bitmap lastSeq size]; auto using setBit_ok.
  - unfold len in *. by rewrite length_setBit.
  - intros p Hp. rewrite bit_setBit by lia. rewrite orb_true_iff, Hb, Z.eqb_eq, elem_of_cons by done.
    split; (intros [?|?]; [left; lia|by right]).
Qed.

Lemma Advance_tracks rw hist seq :
  tracks rw hist -> 0 < seq < 18446744073709551616 -> tracks (Advance rw seq) (seq :: hist).
Proof.
  intros Ht Hs. pose proof (newest_nonneg hist). destruct (Ht) as [Hw Hsz Hpos Hh Hl Hb].
  unfold Advance. rewrite (proj2 (Z.eqb_neq seq 0)) by lia.
  destruct (Z.eqb_spec (lastSeq rw) 0) as [H0|Hn0].
  { rewrite Hl in H0. pose proof (newest_0 _ Hh H0) as ->.
    replace 0 with (seq - seq) by lia. apply setBit_tracks; auto; [cbn; lia|lia|].
    intros p Hp. rewrite Hb, Hl by done. set_solver. }
  destruct (seq >? lastSeq rw) eqn:E.
  - replace 0 with (seq - seq) by lia. apply setBit_tracks; auto.
    + by apply shiftBitmap_ok.
    + unfold len. by rewrite length_shiftBitmap.
    + unfold len in *. by rewrite length_shiftBitmap.
    + rewrite newest_cons. lia.
    + lia.
    + intros p Hp. rewrite bit_shiftBitmap by (done || lia). case_decide.
      * rewrite Hb by lia. by replace (lastSeq rw - (p - (seq - lastSeq rw))) with (seq - p) by lia.
      * split; [done|]. intros ?%newest_ub. lia.
  - destruct (Z.ltb_spec (lastSeq rw - seq) (size rw)).
    + apply setBit_tracks; auto. rewrite newest_cons. lia.
    + constructor; [done|done|done|by constructor|rewrite newest_cons; lia|].
      intros p Hp. rewrite Hb, elem_of_cons by done. split; [by right|]. intros [?|?]; [lia|done].
Qed.

Lemma New_tracks sz : 0 <= sz -> sz + 63 < 4294967296 -> tracks (NewReplayWindow sz) [].
Proof.
  intros H0 H1. unfold NewReplayWindow.
  set (s := if sz =? 0 then _ else sz).
  assert (0 < s /\ s + 63 < 4294967296) as [? ?].
  { unfold s, DefaultReplayWindowSize. destruct (Z.eqb_spec sz 0); lia. }
  rewrite (u32_id (s + 63)) by (unfold is_u32; lia).
  rewrite u32_id by (unfold is_u32; Z.div_mod_to_equations; lia).
  constructor; cbn; rewrite ?len_replicate.
  - apply Forall_replicate. unfold is_u64; lia.
  - Z.div_mod_to_equations; lia.
  - Z.div_mod_to_equations; lia.
  - constructor.
  - done.
  - intros p _. rewrite bit_zeroes. set_solver.
Qed.

(** ** Properties *)

(** A receiver that checks every packet and advances on those it accepts, as
    [Decrypt] does for the packets that pass authentication. *)
Fixpoint receive (rw : ReplayWindow) (seqs : list Z) : ReplayWindow * list (Z * bool) :=
  match seqs with
  | [] => (rw, [])
  | s :: seqs =>
    let ok := Check rw s in
    let '(rw', out) := receive (if ok then Advance rw s else rw) seqs in
    (rw', (s, ok) :: out)
  end.

Definition accepted (out : list (Z * bool)) : list Z := (filter (fun r => r.2 = true) out).*1.

Lemma accepted_cons s b out :
  accepted ((s, b) :: out) = if b then s :: accepted out else accepted out.
Proof.
  unfold accepted. destruct b; [by rewrite filter_cons_True|by rewrite filter_cons_False].
Qed.

Lemma receive_fresh seqs rw hist :
  tracks rw hist -> Forall is_u64 seqs -> NoDup hist ->
  NoDup (accepted (receive rw seqs).2 ++ hist) /\
  tracks (receive rw seqs).1 (rev (accepted (receive rw seqs).2) ++ hist).
Proof.
  revert rw hist; induction seqs as [|s seqs IH]; intros rw hist Ht Hu Hnd; [done|].
  apply Forall_cons in Hu as [Hs Hu]. unfold is_u64 in Hs. cbn [receive].
  destruct (Check rw s) eqn:E.
  - destruct (Check_fresh rw hist s Ht ltac:(lia) E) as [Hne Hnin].
    destruct (IH (Advance rw s) (s :: hist)) as [IH1 IH2]; [|done|by constructor|].
    { apply Advance_tracks; [done|lia]. }
    destruct (receive (Advance rw s) seqs) as [rw' out]. cbn [fst snd] in *.
    rewrite accepted_cons. cbn [rev app].
    split.
    + by rewrite Permutation_middle.
    + by rewrite <- app_assoc.
  - destruct (IH rw hist Ht Hu Hnd) as [IH1 IH2].
    destruct (receive rw seqs) as [rw' out]. cbn [fst snd] in *.
    by rewrite accepted_cons.
Qed.

(** C32: for any history of accepted sequence numbers, [Check] accepts a number
    exactly when RFC 4303 says so (not zero; newer than all, or inside the
    [size]-packet window and never seen), and [Advance] records it: the shifted
    multi-word bitmap implements the set of seen numbers. *)
Theorem window_refines_history sz hist seq :
  0 <= sz -> sz + 63 < 4294967296 ->
  Forall (fun s => 0 < s < 18446744073709551616) hist -> is_u64 seq ->
  let rw := foldr (fun s rw => Advance rw s) (NewReplayWindow sz) hist in
  Check rw seq = true <-> acceptable (size rw) hist seq.
Proof.
  intros H0 H1 Hh [Hs _] rw. apply Check_acceptable; [|done].
  unfold rw. clear rw. induction Hh as [|s hist Hs' Hh IH]; [by apply New_tracks|].
  cbn. by apply Advance_tracks.
Qed.

(** no sequence number is ever accepted twice, whatever packets arrive in
    whatever order. *)
Theorem no_replay sz seqs :
  0 <= sz -> sz + 63 < 4294967296 -> Forall is_u64 seqs ->
  NoDup (accepted (receive (NewReplayWindow sz) seqs).2).
Proof.
  intros H0 H1 Hu. destruct (receive_fresh seqs _ [] (New_tracks sz H0 H1) Hu) as [Hnd _]; [constructor|].
  by rewrite app_nil_r in Hnd.
Qed.

(** ** Witnesses *)

Lemma window_refines_history_witness :
  let rw := foldr (fun s rw => Advance rw s) (NewReplayWindow 100) [3; 200; 130; 1] in
  size rw = 128 /\ (Check rw 130 = true <-> acceptable (size rw) [3; 200; 130; 1] 130) /\
  Check rw 130 = false /\ Check rw 131 = true.
Proof.
  split; [reflexivity|]. split; [|split; vm_compute; reflexivity].
  apply (window_refines_history 100); [lia|lia| |].
  - repeat constructor.
  - unfold is_u64; lia.
Defined.

Lemma no_replay_witness :
  accepted (receive (NewReplayWindow 0) [1; 3; 2; 3; 200; 73; 73; 72]).2 = [1; 3; 2; 200; 73] /\
  NoDup (accepted (receive (NewReplayWindow 0) [1; 3; 2; 3; 200; 73; 73; 72]).2).
Proof.
  split; [vm_compute; reflexivity|].
  apply (no_replay 0); [lia|lia|]. repeat constructor; unfold is_u64; lia.
Defined.

End Replay.
