(* ===== verification/EspCipher.v ===== *)
(** * EspCipher: cipher and integrity suites
      ([internal/esp/cipher.go], [internal/esp/integrity.go])

    AES, AES-GCM, ChaCha20-Poly1305 and HMAC are parameters (class [Crypto]); what
    the code relies on about them is the class [CryptoLaws], the documented contract
    of Go's [cipher.AEAD], [cipher.Block] and [hash.Hash].  CBC chaining is modelled
    over the block cipher. *)

From stdpp Require Import pretty.
From S2P Require Import Prelude.
Open Scope string_scope.
Open Scope list_scope.
Open Scope Z_scope.

Module Cipher.

Inductive CipherSuite :=
  | AES128GCM | AES256GCM | CHACHA20POLY1305 | AES128CBC | AES256CBC
  | UnknownSuite (id : Z).

#[global] Instance CipherSuite_eq_dec : EqDecision CipherSuite.
Proof. solve_decision. Defined.

Definition CipherSuite_String (cs : CipherSuite) : string :=
  match cs with
  | AES128GCM => "AES-128-GCM"
  | AES256GCM => "AES-256-GCM"
  | CHACHA20POLY1305 => "CHACHA20-POLY1305"
  | AES128CBC => "AES-128-CBC"
  | AES256CBC => "AES-256-CBC"
  | UnknownSuite n => "unknown(" +:+ pretty n +:+ ")"
  end.

Definition IsAEAD (suite : CipherSuite) : bool :=
  match suite with AES128GCM | AES256GCM | CHACHA20POLY1305 => true | _ => false end.

Definition AEADKeySize (suite : CipherSuite) : Z :=
  match suite with AES128GCM => 16 | AES256GCM => 32 | CHACHA20POLY1305 => 32 | _ => 0 end.

Definition CipherKeySize (suite : CipherSuite) : Z :=
  match suite with
  | AES128GCM => 16 | AES256GCM => 32 | CHACHA20POLY1305 => 32
  | AES128CBC => 16 | AES256CBC => 32 | _ => 0
  end.

(** [aes.BlockSize] *)
Definition aes_BlockSize : Z := 16.

Definition CBCIVSize (suite : CipherSuite) : Z :=
  match suite with AES128CBC | AES256CBC => aes_BlockSize | _ => 0 end.

Definition CBCBlockSize (suite : CipherSuite) : Z :=
  match suite with AES128CBC | AES256CBC => aes_BlockSize | _ => 0 end.

Definition AEADSaltSize (suite : CipherSuite) : Z := 4.
Definition AEADIVSize (suite : CipherSuite) : Z := 8.
Definition AEADNonceSize (suite : CipherSuite) : Z := 12.

Inductive IntegritySuite :=
  | IntegNone | IntegHMAC_SHA1_96 | IntegHMAC_SHA256_128 | IntegHMAC_SHA384_192
  | IntegHMAC_SHA512_256 | UnknownInteg (id : Z).

Definition IntegritySuite_String (suite : IntegritySuite) : string :=
  match suite with
  | IntegNone => "NONE"
  | IntegHMAC_SHA1_96 => "HMAC-SHA1-96"
  | IntegHMAC_SHA256_128 => "HMAC-SHA256-128"
  | IntegHMAC_SHA384_192 => "HMAC-SHA384-192"
  | IntegHMAC_SHA512_256 => "HMAC-SHA512-256"
  | UnknownInteg n => "unknown-integ(" +:+ pretty n +:+ ")"
  end.

Definition IntegrityKeySize (suite : IntegritySuite) : Z :=
  match suite with
  | IntegHMAC_SHA1_96 => 20 | IntegHMAC_SHA256_128 => 32
  | IntegHMAC_SHA384_192 => 48 | IntegHMAC_SHA512_256 => 64 | _ => 0
  end.

Definition IntegrityICVSize (suite : IntegritySuite) : Z :=
  match suite with
  | IntegHMAC_SHA1_96 => 12 | IntegHMAC_SHA256_128 => 16
  | IntegHMAC_SHA384_192 => 24 | IntegHMAC_SHA512_256 => 32 | _ => 0
  end.

(** The hash constructors [sha1.New], [sha256.New], [sha512.New384], [sha512.New]. *)
Inductive Hash := SHA1 | SHA256 | SHA384 | SHA512.
Definition hash_size (h : Hash) : Z :=
  match h with SHA1 => 20 | SHA256 => 32 | SHA384 => 48 | SHA512 => 64 end.

(** ** The cryptographic primitives *)

(** A [cipher.AEAD] object is its algorithm and key; a [cipher.Block] its AES key. *)
Record AEADObj := mkAEAD { aead_suite : CipherSuite; aead_key : bytes }.

Class Crypto := {
  Seal : AEADObj -> bytes -> bytes -> bytes -> bytes;          (* nonce plaintext aad *)
  Open : AEADObj -> bytes -> bytes -> bytes -> option bytes;   (* nonce ciphertext aad *)
  Overhead : AEADObj -> Z;
  block_encrypt : bytes -> bytes -> bytes;                     (* key block *)
  block_decrypt : bytes -> bytes -> bytes;
  hmac : Hash -> bytes -> bytes -> bytes                       (* hash key data *)
}.

Class CryptoLaws (C : Crypto) := {
  Open_Seal o n p a : length n = 12%nat -> bytes_wf p -> Open o n (Seal o n p a) a = Some p;
  len_Seal o n p a : len (Seal o n p a) = len p + Overhead o;
  len_Open o n c a p : Open o n c a = Some p -> len c = len p + Overhead o;
  Overhead_nonneg o : 0 <= Overhead o;
  block_inverse k b : length b = 16%nat -> bytes_wf b -> block_decrypt k (block_encrypt k b) = b;
  length_block_encrypt k b : length b = 16%nat -> length (block_encrypt k b) = 16%nat;
  block_encrypt_wf k b : length b = 16%nat -> bytes_wf b -> bytes_wf (block_encrypt k b);
  length_block_decrypt k b : length b = 16%nat -> length (block_decrypt k b) = 16%nat;
  Open_wf o n c a p : Open o n c a = Some p -> bytes_wf p;
  block_decrypt_wf k b : length b = 16%nat -> bytes_wf b -> bytes_wf (block_decrypt k b);
  len_hmac h k d : len (hmac h k d) = hash_size h;
  hmac_wf h k d : bytes_wf (hmac h k d)
}.

(** [aes.NewCipher]: the key selects AES-128, AES-192 or AES-256. *)
Definition aes_NewCipher (key : bytes) : res bytes :=
  if (len key =? 16) || (len key =? 24) || (len key =? 32) then Ok key
  else Err "crypto/aes: invalid key size".

Definition chacha20poly1305_New (key : bytes) : res AEADObj :=
  if len key =? 32 then Ok (mkAEAD CHACHA20POLY1305 key)
  else Err "chacha20poly1305: bad key length".

Definition NewAEAD (suite : CipherSuite) (key : bytes) : res AEADObj :=
  let expectedKeySize := AEADKeySize suite in
  if expectedKeySize =? 0 then Err "unsupported cipher suite"
  else if negb (len key =? expectedKeySize) then Err "invalid key size"
  else match suite with
       | AES128GCM | AES256GCM =>
         match aes_NewCipher key with
         | Ok block => Ok (mkAEAD suite block)
         | Err e => Err "creating AES cipher"
         | Panic => Panic
         end
       | CHACHA20POLY1305 =>
         match chacha20poly1305_New key with
         | Ok aead => Ok aead
         | Err e => Err "creating ChaCha20-Poly1305"
         | Panic => Panic
         end
       | _ => Err "unsupported cipher suite"
       end.

Definition BuildNonce (salt iv : bytes) : res bytes :=
  if negb (len salt =? 4) then Err "salt must be 4 bytes"
  else if negb (len iv =? 8) then Err "IV must be 8 bytes"
  else
    nonce ← copy_at (make 12) 0 salt;
    copy_at nonce 4 iv.

Definition SequenceToIV (seqNum : Z) : bytes :=
  [u8 (Z.shiftr seqNum 56); u8 (Z.shiftr seqNum 48); u8 (Z.shiftr seqNum 40);
   u8 (Z.shiftr seqNum 32); u8 (Z.shiftr seqNum 24); u8 (Z.shiftr seqNum 16);
   u8 (Z.shiftr seqNum 8); u8 seqNum].

(** ** Integrity *)

Record IntegrityAlgorithm := mkIntegrity {
  ia_suite : IntegritySuite; ia_key : bytes; ia_hashFunc : Hash; ia_icvSize : Z }.

Definition NewIntegrity (suite : IntegritySuite) (key : bytes) : res IntegrityAlgorithm :=
  let expectedKeySize := IntegrityKeySize suite in
  if expectedKeySize =? 0 then Err "unsupported integrity suite"
  else if negb (len key =? expectedKeySize) then Err "invalid key size"
  else
    hashFunc ← match suite with
               | IntegHMAC_SHA1_96 => Ok SHA1
               | IntegHMAC_SHA256_128 => Ok SHA256
               | IntegHMAC_SHA384_192 => Ok SHA384
               | IntegHMAC_SHA512_256 => Ok SHA512
               | _ => Err "unsupported integrity suite"
               end;
    keyCopy ← copy_at (make (len key)) 0 key;
    Ok (mkIntegrity suite keyCopy hashFunc (IntegrityICVSize suite)).

Section WithCrypto.
Context {C : Crypto}.

(** [AEADOverhead]: explicit IV plus tag. *)
Definition AEADOverhead (suite : CipherSuite) (aead : AEADObj) : Z :=
  AEADIVSize suite + Overhead aead.

Definition Compute (ia : IntegrityAlgorithm) (data : bytes) : res bytes :=
  let full := hmac (ia_hashFunc ia) (ia_key ia) data in
  part ← slice full 0 (ia_icvSize ia);
  copy_at (make (ia_icvSize ia)) 0 part.

Definition Verify (ia : IntegrityAlgorithm) (data icv : bytes) : res bool :=
  if negb (len icv =? ia_icvSize ia) then Ok false
  else
    computed ← Compute ia data;
    Ok (bool_decide (computed = icv)).

Definition xor_bytes (a b : bytes) : bytes := zip_with Z.lxor a b.

(** [cipher.NewCBCEncrypter(block, iv).CryptBlocks]: [n] blocks are left. *)
Fixpoint cbc_encrypt (n : nat) (key iv data : bytes) : bytes :=
  match n with
  | O => []
  | S n' =>
    let c := block_encrypt key (xor_bytes (take 16 data) iv) in
    c ++ cbc_encrypt n' key c (drop 16 data)
  end.

Fixpoint cbc_decrypt (n : nat) (key iv data : bytes) : bytes :=
  match n with
  | O => []
  | S n' =>
    let c := take 16 data in
    xor_bytes (block_decrypt key c) iv ++ cbc_decrypt n' key c (drop 16 data)
  end.

(** Both panic on an IV of the wrong length and on partial blocks. *)
Definition CBCEncrypt (key iv data : bytes) : res bytes :=
  if negb (len iv =? aes_BlockSize) || negb (len data mod aes_BlockSize =? 0) then Panic
  else Ok (cbc_encrypt (Z.to_nat (len data / aes_BlockSize)) key iv data).

Definition CBCDecrypt (key iv data : bytes) : res bytes :=
  if negb (len iv =? aes_BlockSize) || negb (len data mod aes_BlockSize =? 0) then Panic
  else Ok (cbc_decrypt (Z.to_nat (len data / aes_BlockSize)) key iv data).
End WithCrypto.

(** ** Lemmas *)

Lemma BuildNonce_ok salt iv :
  len salt = 4 -> len iv = 8 -> BuildNonce salt iv = Ok (salt ++ iv).
Proof.
  intros Hs Hi. unfold BuildNonce. rewrite Hs, Hi. cbn [negb Z.eqb Pos.eqb].
  rewrite (fill_start 12). fill_step. cbn [app].
  rewrite fill_copy by (len_norm; lia). rewrite make_0 by lia. by rewrite app_nil_r.
Qed.

Lemma BuildNonce_not_Panic salt iv : BuildNonce salt iv <> Panic.
Proof.
  destruct (decide (len salt = 4)); [destruct (decide (len iv = 8))|].
  - by rewrite BuildNonce_ok.
  - unfold BuildNonce. repeat case_match; try done; lia.
  - unfold BuildNonce. repeat case_match; try done; lia.
Qed.

Lemma length_SequenceToIV n : length (SequenceToIV n) = 8%nat.
Proof. reflexivity. Qed.

Lemma SequenceToIV_inj m n : is_u64 m -> is_u64 n -> SequenceToIV m = SequenceToIV n -> m = n.
Proof.
  unfold SequenceToIV. intros Hm Hn [=].
  rewrite !Z.shiftr_div_pow2 in * by lia. cbn [Z.pow Z.pow_pos Pos.iter] in *.
  unfold is_u64, u8 in *. Z.div_mod_to_equations. lia.
Qed.

Lemma lxor_u8 a b : is_u8 a -> is_u8 b -> is_u8 (Z.lxor a b).
Proof.
  intros Ha Hb. assert (Z.lxor a b = u8 (Z.lxor a b)) as ->; [|apply u8_range].
  apply Z.bits_inj'. intros k Hk. unfold u8. change 256 with (2 ^ 8).
  destruct (decide (k < 8)); [by rewrite Z.mod_pow2_bits_low by lia|].
  rewrite Z.mod_pow2_bits_high, Z.lxor_spec by lia.
  assert (forall x, is_u8 x -> Z.testbit x k = false) as H.
  { intros x [? ?]. destruct (decide (x = 0)) as [->|]; [apply Z.bits_0|].
    apply Z.bits_above_log2; [done|]. enough (Z.log2 x < 8) by lia.
    apply Z.log2_lt_pow2; lia. }
  by rewrite !H.
Qed.

Lemma length_xor_bytes a b : length a = length b -> length (xor_bytes a b) = length a.
Proof. intros. unfold xor_bytes. rewrite length_zip_with. lia. Qed.

Lemma xor_bytes_wf a b : bytes_wf a -> bytes_wf b -> bytes_wf (xor_bytes a b).
Proof.
  intros Ha. revert b. induction Ha as [|x a Hx Ha IH]; intros b Hb; destruct Hb; [constructor..|].
  constructor; [by apply lxor_u8|by apply IH].
Qed.

Lemma xor_bytes_involutive a b : length a = length b -> xor_bytes (xor_bytes a b) b = a.
Proof.
  revert b; induction a as [|x a IH]; intros [|y b] Hl; try done.
  cbn. f_equal; [|apply IH; cbn in Hl; lia]. by rewrite Z.lxor_assoc, Z.lxor_nilpotent, Z.lxor_0_r.
Qed.

Section CBC.
Context {C : Crypto} {CL : CryptoLaws C}.

Lemma length_cbc_encrypt n key iv data :
  length iv = 16%nat -> length data = (16 * n)%nat ->
  length (cbc_encrypt n key iv data) = (16 * n)%nat.
Proof.
  revert iv data; induction n as [|n IH]; intros iv data Hiv Hd; cbn [cbc_encrypt]; [done|].
  assert (length (xor_bytes (take 16 data) iv) = 16%nat) as Hx.
  { rewrite length_xor_bytes; rewrite length_take; lia. }
  rewrite length_app, IH; rewrite ?length_block_encrypt, ?length_drop by done; lia.
Qed.

Lemma cbc_decrypt_encrypt n key iv data :
  length iv = 16%nat -> bytes_wf iv -> length data = (16 * n)%nat -> bytes_wf data ->
  cbc_decrypt n key iv (cbc_encrypt n key iv data) = data.
Proof.
  revert iv data; induction n as [|n IH]; intros iv data Hiv Hwi Hd Hwd.
  { destruct data; [done|]. cbn in Hd. lia. }
  cbn [cbc_encrypt cbc_decrypt].
  set (x := xor_bytes (take 16 data) iv).
  assert (length (take 16 data) = 16%nat) as Ht by (rewrite length_take; lia).
  assert (length x = 16%nat) as Hx by (unfold x; rewrite length_xor_bytes; lia).
  assert (bytes_wf x) as Hwx by (apply xor_bytes_wf; [by apply Forall_take|done]).
  rewrite take_app_length', drop_app_length' by (by rewrite length_block_encrypt).
  rewrite block_inverse by done. unfold x. rewrite xor_bytes_involutive by lia.
  rewrite IH.
  - by rewrite take_drop.
  - by rewrite length_block_encrypt.
  - by apply block_encrypt_wf.
  - rewrite length_drop. lia.
  - by apply Forall_drop.
Qed.

Lemma length_cbc_decrypt n key iv data :
  length iv = 16%nat -> length data = (16 * n)%nat ->
  length (cbc_decrypt n key iv data) = (16 * n)%nat.
Proof.
  revert iv data; induction n as [|n IH]; intros iv data Hiv Hd; cbn [cbc_decrypt]; [done|].
  assert (length (take 16 data) = 16%nat) as Ht by (rewrite length_take; lia).
  rewrite length_app, IH, length_xor_bytes; rewrite ?length_block_decrypt, ?length_drop by done; lia.
Qed.

Lemma cbc_decrypt_wf n key iv data :
  bytes_wf iv -> length data = (16 * n)%nat -> bytes_wf data ->
  bytes_wf (cbc_decrypt n key iv data).
Proof.
  revert iv data; induction n as [|n IH]; intros iv data Hwi Hd Hwd; cbn [cbc_decrypt]; [constructor|].
  apply Forall_app_2.
  - apply xor_bytes_wf; [|done]. apply block_decrypt_wf; [rewrite length_take; lia|].
    by apply Forall_take.
  - apply IH; [by apply Forall_take|rewrite length_drop; lia|by apply Forall_drop].
Qed.

(** An instance [NewIntegrity] builds computes an ICV of its declared size. *)
Lemma Compute_ok suite key ia data :
  NewIntegrity suite key = Ok ia ->
  exists icv, Compute ia data = Ok icv /\ len icv = ia_icvSize ia /\
    ia_icvSize ia = IntegrityICVSize suite.
Proof.
  unfold NewIntegrity. intros H.
  destruct (_ =? 0); [done|]. destruct (negb _); [done|].
  apply bind_Ok_inv in H as (h & Hh & H).
  apply bind_Ok_inv in H as (k & _ & [= <-]).
  assert (0 <= IntegrityICVSize suite <= hash_size h) as Hsz by
    (destruct suite; simplify_eq; cbn; lia).
  unfold Compute. cbn [ia_hashFunc ia_key ia_icvSize].
  rewrite slice_ok by (rewrite ?len_hmac; lia). rewrite bind_Ok.
  rewrite (fill_start (IntegrityICVSize suite)).
  rewrite fill_copy by (rewrite ?len_sub by (rewrite ?len_hmac; lia); len_norm; lia).
  eexists; split; [done|]. len_norm. rewrite len_sub by (rewrite ?len_hmac; lia). lia.
Qed.
End CBC.

(** ** A concrete instance

    A checksum in place of the MAC and byte reversal in place of AES: it satisfies
    the contract, so the contract can be met, and it lets examples compute. *)
Module Toy.
Definition checksum (parts : list bytes) : bytes :=
  put32 (u32 (foldr (fun b acc => 31 * acc + b) 7 (concat parts))).

Definition toy_tag (o : AEADObj) (n p a : bytes) : bytes :=
  checksum [aead_key o; n; p; a] ++ replicate 12 0.

Definition toy_Seal (o : AEADObj) (n p a : bytes) : bytes := p ++ toy_tag o n p a.

Definition toy_Open (o : AEADObj) (n c a : bytes) : option bytes :=
  let p := take (length c - 16) c in
  if decide (16 <= length c)%nat then
    if decide (drop (length c - 16) c = toy_tag o n p a /\ bytes_wf p) then Some p else None
  else None.

Definition toy_hmac (h : Hash) (k d : bytes) : bytes :=
  checksum [k; d] ++ replicate (Z.to_nat (hash_size h - 4)) 0.

#[export] Instance toy : Crypto := {
  Seal := toy_Seal; Open := toy_Open; Overhead := fun _ => 16;
  block_encrypt := fun _ b => rev b; block_decrypt := fun _ b => rev b;
  hmac := toy_hmac }.

#[export] Instance toy_laws : CryptoLaws toy.
Proof.
  constructor; cbn.
  - intros o n p a _ Hp. unfold toy_Open, toy_Seal.
    assert (length (p ++ toy_tag o n p a) - 16 = length p)%nat as ->
      by (rewrite length_app; cbn; lia).
    rewrite take_app_length, drop_app_length, decide_True by (rewrite length_app; cbn; lia).
    by rewrite decide_True.
  - intros. unfold toy_Seal. by rewrite len_app.
  - intros o n c a p. unfold toy_Open. repeat case_decide; try done. intros [= <-].
    rewrite len_take. unfold len. lia.
  - lia.
  - intros. by rewrite rev_involutive.
  - intros. by rewrite length_rev.
  - intros. by apply Forall_rev.
  - intros. by rewrite length_rev.
  - intros o n c a p. unfold toy_Open. repeat case_decide; try done. intros [= <-]. tauto.
  - intros. by apply Forall_rev.
  - intros h k d. unfold toy_hmac. cbn [checksum]. by destruct h.
  - intros h k d. apply (Forall_app_2 _ (checksum [k; d])); [apply put32_wf|]. apply Forall_replicate. by unfold is_u8.
Qed.
End Toy.

End Cipher.
