(* ===== verification/EspPacket.v ===== *)
(** * EspPacket: security associations and ESP packets
      ([internal/esp/sa.go]: the SA record and its constructors,
       [internal/esp/packet.go]: encryption, decryption, trailers)

    An operation on an SA returns the SA it leaves behind together with its
    result, because the sequence counter moves on error paths too. *)

From S2P Require Import Prelude Net Replay EspCipher.
Import Cipher.
Open Scope string_scope.
Open Scope list_scope.
Open Scope Z_scope.

Module Esp.

Definition ESPHeaderLen : Z := 8.
Definition ESPTrailerMinLen : Z := 2.

Definition NextHeaderIPv4 : Z := 4.
Definition NextHeaderUDP : Z := 17.
Definition NextHeaderIPv6 : Z := 41.
Definition NextHeaderDummy : Z := 59.

Record SecurityAssociation := mkSA {
  SPI : Z;                                   (* uint32 *)
  SeqNum : Z;                                (* uint64 *)
  ESN : bool;
  Suite : CipherSuite;
  AEAD : option AEADObj;
  CBCBlock : option bytes;                   (* the AES key of the block *)
  Salt : bytes;
  IntegSuite : IntegritySuite;
  Integrity : option IntegrityAlgorithm;
  Window : option Replay.ReplayWindow;
  PeerAddr : option UDPAddr;
  TunnelMode : bool;
  CreatedAt : Z
}.

Definition with_SeqNum (sa : SecurityAssociation) (n : Z) : SecurityAssociation :=
  mkSA (SPI sa) n (ESN sa) (Suite sa) (AEAD sa) (CBCBlock sa) (Salt sa) (IntegSuite sa)
    (Integrity sa) (Window sa) (PeerAddr sa) (TunnelMode sa) (CreatedAt sa).
Definition with_Window (sa : SecurityAssociation) (w : option Replay.ReplayWindow) :=
  mkSA (SPI sa) (SeqNum sa) (ESN sa) (Suite sa) (AEAD sa) (CBCBlock sa) (Salt sa)
    (IntegSuite sa) (Integrity sa) w (PeerAddr sa) (TunnelMode sa) (CreatedAt sa).
Definition with_PeerAddr (sa : SecurityAssociation) (a : option UDPAddr) :=
  mkSA (SPI sa) (SeqNum sa) (ESN sa) (Suite sa) (AEAD sa) (CBCBlock sa) (Salt sa)
    (IntegSuite sa) (Integrity sa) (Window sa) a (TunnelMode sa) (CreatedAt sa).

(** ** Constructors.  [now] is [time.Now()]. *)

Definition NewSecurityAssociation (spi : Z) (suite : CipherSuite) (key salt : bytes)
    (peer : option UDPAddr) (withReplay : bool) (now : Z) : res SecurityAssociation :=
  match NewAEAD suite key with
  | Panic => Panic
  | Err _ => Err "creating AEAD for test SA"
  | Ok aead =>
    saltCopy ← copy_at (make (AEADSaltSize suite)) 0 salt;
    Ok (mkSA spi 0 false suite (Some aead) None saltCopy IntegNone None
          (if withReplay then Some (Replay.NewReplayWindow Replay.DefaultReplayWindowSize) else None)
          peer true now)
  end.

Definition NewCBCSecurityAssociation (spi : Z) (suite : CipherSuite) (encrKey : bytes)
    (integSuite : IntegritySuite) (integKey : bytes) (peer : option UDPAddr)
    (withReplay : bool) (now : Z) : res SecurityAssociation :=
  let expectedKeySize := CipherKeySize suite in
  if expectedKeySize =? 0 then Err "unsupported CBC cipher suite"
  else if negb (len encrKey =? expectedKeySize) then Err "invalid encryption key size"
  else match aes_NewCipher encrKey with
  | Panic => Panic
  | Err _ => Err "creating AES cipher"
  | Ok block =>
    match NewIntegrity integSuite integKey with
    | Panic => Panic
    | Err _ => Err "creating integrity"
    | Ok integ =>
      Ok (mkSA spi 0 false suite None (Some block) [] integSuite (Some integ)
            (if withReplay then Some (Replay.NewReplayWindow Replay.DefaultReplayWindowSize) else None)
            peer true now)
    end
  end.

(** ** Header *)

Record ESPHeader := mkESPHeader { hdr_SPI : Z; hdr_SeqNum : Z }.

Definition ParseHeader (buf : bytes) : res ESPHeader :=
  if len buf <? ESPHeaderLen then Err "buffer too short for ESP header"
  else
    s ← slice buf 0 4; spi ← be32 s;
    s ← slice buf 4 8; seq ← be32 s;
    Ok (mkESPHeader spi seq).

Definition MarshalHeader (buf : bytes) (hdr : ESPHeader) : res bytes :=
  buf ← put32_at buf 0 (hdr_SPI hdr);
  put32_at buf 4 (hdr_SeqNum hdr).

(** ** Trailer *)

(** [for i := 0; i < padLen; i++ { result[payloadLen+i] = byte(i + 1) }] *)
Fixpoint fill_padding (n : nat) (i payloadLen : Z) (result : bytes) : res bytes :=
  match n with
  | O => Ok result
  | S n' =>
    result ← set_at result (payloadLen + i) (u8 (i + 1));
    fill_padding n' (i + 1) payloadLen result
  end.

Definition buildESPTrailer (payload : bytes) (nextHeader : Z) : res bytes :=
  let payloadLen := len payload in
  let totalWithoutPad := payloadLen + ESPTrailerMinLen in
  let remainder := totalWithoutPad mod 4 in
  let padLen := if negb (remainder =? 0) then 4 - remainder else 0 in
  result ← copy_at (make (payloadLen + padLen + ESPTrailerMinLen)) 0 payload;
  result ← fill_padding (Z.to_nat padLen) 0 payloadLen result;
  result ← set_at result (payloadLen + padLen) (u8 padLen);
  set_at result (payloadLen + padLen + 1) nextHeader.

Definition buildESPTrailerCBC (payload : bytes) (nextHeader blockSize : Z) : res bytes :=
  let blockSize := if blockSize <? 4 then 4 else blockSize in
  let payloadLen := len payload in
  let totalWithoutPad := payloadLen + ESPTrailerMinLen in
  let remainder := totalWithoutPad mod blockSize in
  let padLen := if negb (remainder =? 0) then blockSize - remainder else 0 in
  result ← copy_at (make (payloadLen + padLen + ESPTrailerMinLen)) 0 payload;
  result ← fill_padding (Z.to_nat padLen) 0 payloadLen result;
  result ← set_at result (payloadLen + padLen) (u8 padLen);
  set_at result (payloadLen + padLen + 1) nextHeader.

(** The validation loop only logs: it yields the indices it warns about. *)
Fixpoint check_padding (n : nat) (i padStart : Z) (plaintext : bytes) : res (list Z) :=
  match n with
  | O => Ok []
  | S n' =>
    actual ← idx plaintext (padStart + i);
    rest ← check_padding n' (i + 1) padStart plaintext;
    Ok (if negb (actual =? u8 (i + 1)) then i :: rest else rest)
  end.

Definition stripESPTrailer (plaintext : bytes) : res (bytes * Z) :=
  if len plaintext <? ESPTrailerMinLen then Err "plaintext too short to contain ESP trailer"
  else
    nextHeader ← idx plaintext (len plaintext - 1);
    padLen ← idx plaintext (len plaintext - 2);
    let trailerLen := padLen + ESPTrailerMinLen in
    if trailerLen >? len plaintext then Err "invalid pad length exceeds plaintext length"
    else
      let padStart := len plaintext - ESPTrailerMinLen - padLen in
      _ ← check_padding (Z.to_nat padLen) 0 padStart plaintext;
      inner ← slice plaintext 0 padStart;
      Ok (inner, nextHeader).

(** ** Encryption *)

(** [fmt.Errorf("...: %w", err)] around a call. *)
Definition errorf {A} (msg : string) (m : res A) : res A :=
  match m with Ok a => Ok a | Err _ => Err msg | Panic => Panic end.

Definition window_check (w : option Replay.ReplayWindow) (seq : Z) : bool :=
  match w with Some rw => Replay.Check rw seq | None => true end.

Definition window_advance (w : option Replay.ReplayWindow) (seq : Z) : option Replay.ReplayWindow :=
  match w with Some rw => Some (Replay.Advance rw seq) | None => None end.

Section WithCrypto.
Context {C : Crypto}.

(** [AEAD.Seal] and assembly of [encryptAEAD], after the sequence number. *)
Definition sealAEAD (sa : SecurityAssociation) (aead : AEADObj) (newSeq : Z)
    (plainPayload : bytes) (nextHeader : Z) : res bytes :=
  let seqLow := u32 (Z.land newSeq 4294967295) in
  padded ← buildESPTrailer plainPayload nextHeader;
  let hdr := mkESPHeader (SPI sa) seqLow in
  let iv := SequenceToIV newSeq in
  nonce ← errorf "building nonce" (BuildNonce (Salt sa) iv);
  aad ← MarshalHeader (make ESPHeaderLen) hdr;
  let ciphertext := Seal aead nonce padded aad in
  let espPacketLen := ESPHeaderLen + len iv + len ciphertext in
  espPacket ← MarshalHeader (make espPacketLen) hdr;
  espPacket ← copy_at espPacket ESPHeaderLen iv;
  copy_at espPacket (ESPHeaderLen + len iv) ciphertext.

Definition encryptAEAD (sa : SecurityAssociation) (plainPayload : bytes) (nextHeader : Z) :
    SecurityAssociation * res bytes :=
  match AEAD sa with
  | None => (sa, Err "AEAD cipher not initialized")
  | Some aead =>
    let newSeq := u64 (SeqNum sa + 1) in
    let sa := with_SeqNum sa newSeq in
    if (newSeq >? 4294967295) && negb (ESN sa) then (sa, Err "sequence number overflow")
    else (sa, sealAEAD sa aead newSeq plainPayload nextHeader)
  end.

(** The body of [encryptCBC] after the sequence number.  [rnd] is what
    [rand.Read] stores into the IV, or its failure. *)
Definition sealCBC (sa : SecurityAssociation) (block : bytes) (integ : IntegrityAlgorithm)
    (rnd : option bytes) (newSeq : Z) (plainPayload : bytes) (nextHeader : Z) : res bytes :=
  let seqLow := u32 (Z.land newSeq 4294967295) in
  padded ← buildESPTrailerCBC plainPayload nextHeader (CBCBlockSize (Suite sa));
  let hdr := mkESPHeader (SPI sa) seqLow in
  let ivSize := CBCIVSize (Suite sa) in
  iv ← match rnd with
       | None => Err "generating CBC IV"
       | Some bs => copy_at (make ivSize) 0 bs
       end;
  ciphertext ← CBCEncrypt block iv padded;
  let icvSize := ia_icvSize integ in
  let espPacketLen := ESPHeaderLen + ivSize + len ciphertext + icvSize in
  espPacket ← MarshalHeader (make espPacketLen) hdr;
  espPacket ← copy_at espPacket ESPHeaderLen iv;
  espPacket ← copy_at espPacket (ESPHeaderLen + ivSize) ciphertext;
  covered ← slice espPacket 0 (ESPHeaderLen + ivSize + len ciphertext);
  icv ← Compute integ covered;
  copy_at espPacket (ESPHeaderLen + ivSize + len ciphertext) icv.

Definition encryptCBC (rnd : option bytes) (sa : SecurityAssociation)
    (plainPayload : bytes) (nextHeader : Z) : SecurityAssociation * res bytes :=
  match CBCBlock sa with
  | None => (sa, Err "CBC block cipher not initialized")
  | Some block =>
    match Integrity sa with
    | None => (sa, Err "integrity algorithm not initialized")
    | Some integ =>
      let newSeq := u64 (SeqNum sa + 1) in
      let sa := with_SeqNum sa newSeq in
      if (newSeq >? 4294967295) && negb (ESN sa) then (sa, Err "sequence number overflow")
      else (sa, sealCBC sa block integ rnd newSeq plainPayload nextHeader)
    end
  end.

Definition Encrypt (rnd : option bytes) (sa : option SecurityAssociation)
    (plainPayload : bytes) (nextHeader : Z) : option SecurityAssociation * res bytes :=
  match sa with
  | None => (None, Err "security association is nil")
  | Some sa =>
    let '(sa, r) :=
      if IsAEAD (Suite sa) then encryptAEAD sa plainPayload nextHeader
      else encryptCBC rnd sa plainPayload nextHeader in
    (Some sa, r)
  end.

(** ** Decryption *)

(** What follows a successful authentication: strip the trailer, drop dummy
    packets.  A nil payload is [None]. *)
Definition finish (plaintext : bytes) : res (option bytes * Z) :=
  '(innerPayload, nextHeader) ← errorf "stripping ESP trailer" (stripESPTrailer plaintext);
  if nextHeader =? NextHeaderDummy then Ok (None, NextHeaderDummy)
  else Ok (Some innerPayload, nextHeader).

(** [decryptAEAD] up to and including [AEAD.Open]: sequence number and plaintext. *)
Definition openAEAD (sa : SecurityAssociation) (aead : AEADObj) (espPacket : bytes) :
    res (Z * bytes) :=
  let ivSize := AEADIVSize (Suite sa) in
  let tagSize := Overhead aead in
  let minPacketSize := ESPHeaderLen + ivSize + ESPTrailerMinLen + tagSize in
  if len espPacket <? minPacketSize then Err "ESP packet too short"
  else
    hdr ← ParseHeader espPacket;
    let seq64 := hdr_SeqNum hdr in
    if negb (window_check (Window sa) seq64) then Err "anti-replay check failed"
    else
      iv ← slice espPacket ESPHeaderLen (ESPHeaderLen + ivSize);
      nonce ← errorf "building nonce" (BuildNonce (Salt sa) iv);
      aad ← slice espPacket 0 ESPHeaderLen;
      ciphertext ← slice espPacket (ESPHeaderLen + ivSize) (len espPacket);
      match Open aead nonce ciphertext aad with
      | None => Err "AEAD authentication failed"
      | Some plaintext => Ok (seq64, plaintext)
      end.

Definition decryptAEAD (sa : SecurityAssociation) (espPacket : bytes) :
    SecurityAssociation * res (option bytes * Z) :=
  match AEAD sa with
  | None => (sa, Err "AEAD cipher not initialized")
  | Some aead =>
    match openAEAD sa aead espPacket with
    | Ok (seq64, plaintext) =>
      (with_Window sa (window_advance (Window sa) seq64), finish plaintext)
    | Err e => (sa, Err e)
    | Panic => (sa, Panic)
    end
  end.

(** [decryptCBC] up to and including the CBC decryption. *)
Definition openCBC (sa : SecurityAssociation) (block : bytes) (integ : IntegrityAlgorithm)
    (espPacket : bytes) : res (Z * bytes) :=
  let ivSize := CBCIVSize (Suite sa) in
  let icvSize := ia_icvSize integ in
  let blockSize := CBCBlockSize (Suite sa) in
  let minPacketSize := ESPHeaderLen + ivSize + blockSize + icvSize in
  if len espPacket <? minPacketSize then Err "CBC ESP packet too short"
  else
    hdr ← ParseHeader espPacket;
    macData ← slice espPacket 0 (len espPacket - icvSize);
    receivedICV ← slice espPacket (len espPacket - icvSize) (len espPacket);
    ok ← Verify integ macData receivedICV;
    if negb ok then Err "ESP integrity check failed"
    else
      let seq64 := hdr_SeqNum hdr in
      if negb (window_check (Window sa) seq64) then Err "anti-replay check failed"
      else
        iv ← slice espPacket ESPHeaderLen (ESPHeaderLen + ivSize);
        ciphertext ← slice espPacket (ESPHeaderLen + ivSize) (len espPacket - icvSize);
        if blockSize =? 0 then Panic     (* integer division by zero *)
        else if negb (len ciphertext mod blockSize =? 0) then Err "CBC ciphertext not block-aligned"
        else
          plaintext ← CBCDecrypt block iv ciphertext;
          Ok (seq64, plaintext).

Definition decryptCBC (sa : SecurityAssociation) (espPacket : bytes) :
    SecurityAssociation * res (option bytes * Z) :=
  match CBCBlock sa with
  | None => (sa, Err "CBC block cipher not initialized")
  | Some block =>
    match Integrity sa with
    | None => (sa, Err "integrity algorithm not initialized")
    | Some integ =>
      match openCBC sa block integ espPacket with
      | Ok (seq64, plaintext) =>
        (with_Window sa (window_advance (Window sa) seq64), finish plaintext)
      | Err e => (sa, Err e)
      | Panic => (sa, Panic)
      end
    end
  end.

Definition Decrypt (sa : option SecurityAssociation) (espPacket : bytes) :
    option SecurityAssociation * res (option bytes * Z) :=
  match sa with
  | None => (None, Err "security association is nil")
  | Some sa =>
    let '(sa, r) :=
      if IsAEAD (Suite sa) then decryptAEAD sa espPacket else decryptCBC sa espPacket in
    (Some sa, r)
  end.
End WithCrypto.

(** ** Header and trailer lemmas *)

Lemma ParseHeader_put spi seq rest :
  is_u32 spi -> is_u32 seq ->
  ParseHeader (put32 spi ++ put32 seq ++ rest) = Ok (mkESPHeader spi seq).
Proof.
  intros Hs Hq. unfold ParseHeader. pose proof (len_nonneg rest).
  rewrite (proj2 (Z.ltb_ge _ _)) by (len_norm; unfold ESPHeaderLen; lia).
  rewrite slice_head by done. rewrite bind_Ok, be32_put32_nil, bind_Ok by done.
  rewrite (slice_mid (put32 spi)) by (len_norm; lia).
  by rewrite bind_Ok, be32_put32_nil, bind_Ok by done.
Qed.

Lemma MarshalHeader_ok n hdr :
  8 <= n ->
  MarshalHeader (make n) hdr =
    Ok ((put32 (hdr_SPI hdr) ++ put32 (hdr_SeqNum hdr)) ++ make (n - 8)).
Proof.
  intros. unfold MarshalHeader. rewrite (fill_start n). fill_step.
  rewrite fill_put32 by (len_norm; lia). do 3 f_equal. lia.
Qed.

(** The padding bytes 1, 2, 3, ... of RFC 4303 section 2.4. *)
Definition padding (n : nat) : bytes := (fun i => u8 (Z.of_nat i + 1)) <$> seq 0 n.

Lemma len_padding n : len (padding n) = Z.of_nat n.
Proof. unfold padding, len. by rewrite length_fmap, length_seq. Qed.

Lemma padding_S n : padding (S n) = padding n ++ [u8 (Z.of_nat n + 1)].
Proof. unfold padding. by rewrite seq_S, fmap_app. Qed.

Lemma fill_padding_ok n i l m :
  Z.of_nat n <= m -> 
  fill_padding n (Z.of_nat i) (len l) ((l ++ padding i) ++ make m) =
    Ok ((l ++ padding (i + n)) ++ make (m - Z.of_nat n)).
Proof.
  revert i m; induction n as [|n IH]; intros i m Hm; cbn [fill_padding].
  { rewrite Nat.add_0_r. do 2 f_equal. f_equal. lia. }
  rewrite fill_set by (len_norm; rewrite ?len_padding; lia). rewrite bind_Ok.
  rewrite <- (app_assoc l), <- padding_S.
  replace (Z.of_nat i + 1) with (Z.of_nat (S i)) by lia.
  rewrite IH by lia. replace (S i + n)%nat with (i + S n)%nat by lia.
  do 2 f_equal. f_equal. lia.
Qed.

(** The pad length [buildESPTrailer] and [buildESPTrailerCBC] compute. *)
Definition pad_len (payloadLen blockSize : Z) : Z :=
  let remainder := (payloadLen + ESPTrailerMinLen) mod blockSize in
  if negb (remainder =? 0) then blockSize - remainder else 0.

Lemma pad_len_spec n bs :
  0 <= n -> 0 < bs ->
  0 <= pad_len n bs < bs /\ (n + pad_len n bs + ESPTrailerMinLen) mod bs = 0.
Proof.
  intros Hn Hbs. unfold pad_len, ESPTrailerMinLen.
  pose proof (Z.mod_pos_bound (n + 2) bs Hbs).
  destruct (Z.eqb_spec ((n + 2) mod bs) 0) as [H0|Hne]; cbn [negb].
  - split; [lia|]. by replace (n + 0 + 2) with (n + 2) by lia.
  - split; [lia|]. replace (n + (bs - (n + 2) mod bs) + 2) with (bs * (1 + (n + 2) / bs)).
    + rewrite Z.mul_comm. by apply Z.mod_mul, Z.neq_sym, Z.lt_neq.
    + pose proof (Z.div_mod (n + 2) bs ltac:(lia)). lia.
Qed.

Definition trailer (payload : bytes) (nextHeader blockSize : Z) : bytes :=
  let p := pad_len (len payload) blockSize in
  payload ++ padding (Z.to_nat p) ++ [u8 p; nextHeader].

Lemma buildESPTrailerCBC_ok payload nh bs :
  4 <= bs -> buildESPTrailerCBC payload nh bs = Ok (trailer payload nh bs).
Proof.
  intros Hbs. unfold buildESPTrailerCBC, trailer.
  rewrite (proj2 (Z.ltb_ge bs 4)) by done. fold (pad_len (len payload) bs).
  pose proof (pad_len_spec (len payload) bs (len_nonneg _) ltac:(lia)) as [Hp _].
  unfold ESPTrailerMinLen in *. set (p := pad_len _ _) in *.
  rewrite (fill_start (_ + _)). fill_step. cbn [app].
  pose proof (fill_padding_ok (Z.to_nat p) 0 payload (len payload + p + 2 - len payload) ltac:(lia)) as Hf.
  rewrite app_nil_r in Hf. change (Z.of_nat 0) with 0 in Hf.
  rewrite Hf, bind_Ok. clear Hf.
  rewrite fill_set by (len_norm; rewrite ?len_padding; lia). rewrite bind_Ok.
  rewrite fill_set by (len_norm; rewrite ?len_padding; lia).
  rewrite make_0 by lia. by rewrite app_nil_r, <- !app_assoc.
Qed.

(** The AEAD trailer is the block-aligned one with 4-byte alignment. *)
Lemma buildESPTrailer_CBC payload nh : buildESPTrailer payload nh = buildESPTrailerCBC payload nh 4.
Proof. reflexivity. Qed.

Lemma len_trailer payload nh bs :
  0 < bs -> len (trailer payload nh bs) = len payload + pad_len (len payload) bs + ESPTrailerMinLen.
Proof.
  intros. pose proof (pad_len_spec (len payload) bs (len_nonneg _) ltac:(lia)) as [? _].
  unfold trailer. len_norm. rewrite len_padding. unfold ESPTrailerMinLen. lia.
Qed.

Lemma bytes_wf_app a b : bytes_wf a -> bytes_wf b -> bytes_wf (a ++ b).
Proof. apply Forall_app_2. Qed.

Lemma padding_wf n : bytes_wf (padding n).
Proof. apply Forall_fmap, Forall_forall. intros. apply u8_range. Qed.

Lemma trailer_wf payload nh bs : bytes_wf payload -> is_u8 nh -> bytes_wf (trailer payload nh bs).
Proof.
  intros. apply bytes_wf_app; [done|]. apply bytes_wf_app; [apply padding_wf|].
  apply Forall_cons; split; [apply u8_range|]. by apply Forall_singleton.
Qed.

Lemma check_padding_ok n i st (l : bytes) :
  0 <= st + i -> st + i + Z.of_nat n <= len l -> exists w, check_padding n i st l = Ok w.
Proof.
  revert i; induction n as [|n IH]; intros i H0 H1; cbn [check_padding]; [by eexists|].
  destruct (idx_total l (st + i)) as [x [-> _]]; [lia|]. rewrite bind_Ok.
  destruct (IH (i + 1)) as [w ->]; [lia..|]. rewrite bind_Ok. by eexists.
Qed.

(** [stripESPTrailer] on a non-empty tail, without the Go indexing. *)
Lemma strip_app body pad p nh :
  is_u8 p -> len pad = p -> stripESPTrailer (body ++ pad ++ [p; nh]) = Ok (body, nh).
Proof.
  intros Hp Hpad. pose proof (len_nonneg body). unfold is_u8 in Hp.
  unfold stripESPTrailer, ESPTrailerMinLen.
  rewrite (proj2 (Z.ltb_ge _ _)) by (len_norm; lia).
  replace (idx _ (len _ - 1)) with (Ok nh : res Z).
  2: { rewrite !app_assoc. change [p; nh] with ([p] ++ [nh]). rewrite app_assoc.
       symmetry. apply idx_mid. len_norm. lia. }
  rewrite bind_Ok.
  replace (idx _ (len _ - 2)) with (Ok p : res Z).
  2: { rewrite app_assoc. symmetry. apply idx_mid. len_norm. lia. }
  rewrite bind_Ok. destruct (_ >? _) eqn:E; [len_norm; lia|].
  destruct (check_padding_ok (Z.to_nat p) 0 (len (body ++ pad ++ [p; nh]) - 2 - p)
    (body ++ pad ++ [p; nh])) as [w ->]; [len_norm; lia..|].
  rewrite bind_Ok, slice_head by (len_norm; lia). done.
Qed.

Lemma strip_trailer payload nh bs :
  0 < bs <= 256 -> stripESPTrailer (trailer payload nh bs) = Ok (payload, nh).
Proof.
  intros Hbs. pose proof (pad_len_spec (len payload) bs (len_nonneg _) ltac:(lia)) as [? _].
  unfold trailer. rewrite u8_id by (unfold is_u8; lia).
  apply strip_app; [unfold is_u8; lia|]. rewrite len_padding. lia.
Qed.

Lemma strip_not_Panic l : bytes_wf l -> stripESPTrailer l <> Panic.
Proof.
  intros Hl. unfold stripESPTrailer, ESPTrailerMinLen. destruct (Z.ltb_spec (len l) 2); [done|].
  destruct (idx_total l (len l - 1)) as [nh [-> _]]; [lia|].
  destruct (idx_total l (len l - 2)) as [p [-> Hp]]; [lia|]. rewrite !bind_Ok.
  pose proof (Forall_lookup_1 _ _ _ _ Hl Hp) as [? ?].
  destruct (_ >? _) eqn:E; [done|].
  destruct (check_padding_ok (Z.to_nat p) 0 (len l - 2 - p) l) as [w ->]; [lia..|].
  by rewrite bind_Ok, slice_ok by lia.
Qed.

(** ** Closed forms of the packets *)

Section Packets.
Context {C : Crypto} {CL : CryptoLaws C}.

Definition low32 (seq : Z) : Z := u32 (Z.land seq 4294967295).

Lemma low32_u32 seq : is_u32 (low32 seq).
Proof. apply u32_range. Qed.

Lemma low32_id seq : is_u32 seq -> low32 seq = seq.
Proof.
  intros [? ?]. unfold low32. change 4294967295 with (Z.ones 32).
  rewrite Z.land_ones, Z.mod_small by lia. apply u32_id. unfold is_u32; lia.
Qed.

Definition aead_packet (sa : SecurityAssociation) (aead : AEADObj) (seq : Z)
    (payload : bytes) (nh : Z) : bytes :=
  let hdr := put32 (SPI sa) ++ put32 (low32 seq) in
  hdr ++ SequenceToIV seq ++
  Seal aead (Salt sa ++ SequenceToIV seq) (trailer payload nh 4) hdr.

Lemma sealAEAD_ok sa aead seq payload nh :
  len (Salt sa) = 4 -> sealAEAD sa aead seq payload nh = Ok (aead_packet sa aead seq payload nh).
Proof.
  intros Hsalt. unfold sealAEAD, aead_packet. fold (low32 seq).
  rewrite buildESPTrailer_CBC, buildESPTrailerCBC_ok, bind_Ok by lia.
  rewrite BuildNonce_ok by done. cbn [errorf]. rewrite bind_Ok.
  rewrite MarshalHeader_ok, bind_Ok by (unfold ESPHeaderLen; lia).
  cbn [hdr_SPI hdr_SeqNum]. rewrite (make_0 (ESPHeaderLen - 8)), app_nil_r by done.
  set (hdr := put32 (SPI sa) ++ put32 (low32 seq)).
  set (ct := Seal _ _ _ _). pose proof (len_nonneg ct). unfold ESPHeaderLen.
  change (len (SequenceToIV seq)) with 8.
  rewrite MarshalHeader_ok, bind_Ok by lia. cbn [hdr_SPI hdr_SeqNum]. fold hdr.
  assert (len hdr = 8) as Hh by reflexivity.
  assert (len (SequenceToIV seq) = 8) as Hi by reflexivity.
  rewrite fill_copy, bind_Ok by lia.
  rewrite fill_copy by (len_norm; lia).
  rewrite make_0 by lia. by rewrite app_nil_r, <- app_assoc.
Qed.

Definition cbc_body (sa : SecurityAssociation) (block iv : bytes) (seq : Z)
    (payload : bytes) (nh : Z) : bytes :=
  let padded := trailer payload nh 16 in
  (put32 (SPI sa) ++ put32 (low32 seq)) ++ iv ++
  cbc_encrypt (Z.to_nat (len padded / 16)) block iv padded.

(** A suite [encryptCBC] and [decryptCBC] can meet on a constructed SA. *)
Definition cbc_suite (s : CipherSuite) : Prop := s = AES128CBC \/ s = AES256CBC.

Lemma cbc_sizes s : cbc_suite s -> CBCIVSize s = 16 /\ CBCBlockSize s = 16.
Proof. by intros [-> | ->]. Qed.

Lemma len_padded payload nh :
  len (trailer payload nh 16) mod 16 = 0 /\ 16 <= len (trailer payload nh 16).
Proof.
  pose proof (len_nonneg payload) as Hn.
  pose proof (pad_len_spec (len payload) 16 Hn ltac:(lia)) as [Hp Hm].
  rewrite len_trailer by lia. split; [done|].
  unfold ESPTrailerMinLen in *. Z.div_mod_to_equations; lia.
Qed.

Lemma length_padded payload nh :
  length (trailer payload nh 16) = (16 * Z.to_nat (len (trailer payload nh 16) / 16))%nat.
Proof.
  destruct (len_padded payload nh). unfold len in *. Z.div_mod_to_equations; lia.
Qed.

Lemma sealCBC_ok sa block isuite ikey integ bs seq payload nh :
  cbc_suite (Suite sa) -> NewIntegrity isuite ikey = Ok integ -> len bs = 16 ->
  exists icv,
    Compute integ (cbc_body sa block bs seq payload nh) = Ok icv /\
    len icv = ia_icvSize integ /\ ia_icvSize integ = IntegrityICVSize isuite /\
    sealCBC sa block integ (Some bs) seq payload nh =
      Ok (cbc_body sa block bs seq payload nh ++ icv).
Proof.
  intros Hs Hi Hbs. destruct (cbc_sizes _ Hs) as [Hiv Hblk].
  destruct (Compute_ok isuite ikey integ (cbc_body sa block bs seq payload nh) Hi)
    as (icv & Hicv & Hlen & Hsz).
  exists icv. split_and!; [done..|].
  unfold sealCBC. fold (low32 seq). rewrite Hiv, Hblk.
  rewrite buildESPTrailerCBC_ok, bind_Ok by lia.
  rewrite (fill_start 16). rewrite fill_copy by (len_norm; lia).
  rewrite make_0, bind_Ok by lia. cbn [app]. rewrite app_nil_r.
  unfold CBCEncrypt. rewrite Hbs. unfold aes_BlockSize. cbn [Z.eqb Pos.eqb negb orb].
  rewrite (proj2 (Z.eqb_eq (_ mod 16) 0)) by apply len_padded. cbn [negb]. rewrite bind_Ok.
  set (ct := cbc_encrypt _ _ _ _) in *.
  unfold cbc_body in *. fold ct in Hicv |- *.
  set (hdr := put32 (SPI sa) ++ put32 (low32 seq)) in *.
  pose proof (len_nonneg ct). pose proof (len_nonneg icv). unfold ESPHeaderLen.
  rewrite MarshalHeader_ok, bind_Ok by lia. cbn [hdr_SPI hdr_SeqNum]. fold hdr.
  rewrite fill_copy, bind_Ok by (unfold hdr; len_norm; lia).
  rewrite fill_copy, bind_Ok by (unfold hdr; len_norm; lia).
  rewrite slice_head, bind_Ok by (unfold hdr; len_norm; lia).
  rewrite <- (app_assoc hdr bs ct), Hicv, bind_Ok.
  rewrite fill_copy by (unfold hdr; len_norm; lia).
  rewrite make_0 by (len_norm; lia). by rewrite app_nil_r.
Qed.

(** ** Opening what was sealed *)

Lemma openAEAD_packet sa_in sa_out aead seq payload nh :
  len (Salt sa_out) = 4 -> Salt sa_in = Salt sa_out -> is_u32 (SPI sa_out) ->
  bytes_wf payload -> is_u8 nh -> window_check (Window sa_in) (low32 seq) = true ->
  openAEAD sa_in aead (aead_packet sa_out aead seq payload nh) =
    Ok (low32 seq, trailer payload nh 4).
Proof.
  intros Hsalt Heq Hspi Hwp Hnh Hw. unfold openAEAD, AEADIVSize, ESPHeaderLen, ESPTrailerMinLen. cbv zeta.
  unfold aead_packet.
  set (hdr := put32 (SPI sa_out) ++ put32 (low32 seq)).
  set (iv := SequenceToIV seq). set (ct := Seal _ _ _ _).
  assert (len hdr = 8) as Hh by reflexivity. assert (len iv = 8) as Hi by reflexivity.
  assert (len ct = len (trailer payload nh 4) + Overhead aead) as Hct by apply len_Seal.
  pose proof (Overhead_nonneg aead). pose proof (len_nonneg payload).
  pose proof (pad_len_spec (len payload) 4 ltac:(lia) ltac:(lia)) as [? _].
  rewrite len_trailer in Hct by lia. unfold ESPTrailerMinLen in Hct.
  rewrite (proj2 (Z.ltb_ge _ _)) by (len_norm; lia).
  assert (ParseHeader (hdr ++ iv ++ ct) = Ok (mkESPHeader (SPI sa_out) (low32 seq))) as ->
    by (unfold hdr; rewrite <- app_assoc; apply ParseHeader_put; [done|apply low32_u32]).
  rewrite bind_Ok. cbn [hdr_SeqNum]. rewrite Hw. cbn [negb].
  rewrite (slice_mid hdr iv ct 8 (8 + 8)) by lia. rewrite bind_Ok, Heq.
  rewrite BuildNonce_ok by done. cbn [errorf]. rewrite bind_Ok.
  rewrite slice_head, bind_Ok by (by rewrite Hh). rewrite (app_assoc hdr iv ct).
  rewrite slice_tail, bind_Ok by (rewrite !len_app, ?Hh, ?Hi; lia).
  unfold ct. rewrite Open_Seal; [done| |by apply trailer_wf].
  rewrite length_app. unfold len in *. cbn. lia.
Qed.

Lemma openCBC_packet sa_in sa_out block isuite ikey integ iv icv seq payload nh :
  cbc_suite (Suite sa_in) -> NewIntegrity isuite ikey = Ok integ ->
  len iv = 16 -> bytes_wf iv -> bytes_wf payload -> is_u8 nh -> is_u32 (SPI sa_out) ->
  Compute integ (cbc_body sa_out block iv seq payload nh) = Ok icv ->
  len icv = ia_icvSize integ ->
  window_check (Window sa_in) (low32 seq) = true ->
  openCBC sa_in block integ (cbc_body sa_out block iv seq payload nh ++ icv) =
    Ok (low32 seq, trailer payload nh 16).
Proof.
  intros Hs Hi Hiv Hwi Hwp Hnh Hspi Hicv Hlen Hw. destruct (cbc_sizes _ Hs) as [Hivs Hblk].
  unfold openCBC. rewrite Hivs, Hblk. unfold ESPHeaderLen.
  unfold cbc_body in *. set (pt := trailer payload nh 16) in *.
  set (n := Z.to_nat (len pt / 16)) in *. set (ct := cbc_encrypt n block iv pt) in *.
  set (hdr := put32 (SPI sa_out) ++ put32 (low32 seq)) in *.
  assert (len hdr = 8) as Hh by reflexivity.
  pose proof (length_padded payload nh) as Hpt. fold pt n in Hpt.
  destruct (len_padded payload nh) as [_ Hpt16]. fold pt in Hpt16.
  assert (length iv = 16%nat) as Hiv' by (unfold len in Hiv; lia).
  assert (length ct = (16 * n)%nat) as Hct by (by apply length_cbc_encrypt).
  assert (len ct = 16 * Z.of_nat n /\ 16 <= len ct) as [Hct' Hct16] by (unfold len in *; lia).
  pose proof (len_nonneg icv).
  rewrite (proj2 (Z.ltb_ge _ _)) by (len_norm; lia).
  assert (ParseHeader ((hdr ++ iv ++ ct) ++ icv) =
      Ok (mkESPHeader (SPI sa_out) (low32 seq))) as ->
    by (unfold hdr; rewrite <- !app_assoc; apply ParseHeader_put; [done|apply low32_u32]).
  rewrite bind_Ok. cbn [hdr_SeqNum].
  rewrite slice_head, bind_Ok by (len_norm; lia).
  rewrite (slice_tail _ icv (_ - _) (len _)), bind_Ok by (len_norm; lia).
  unfold Verify. rewrite Hlen, Z.eqb_refl. cbn [negb].
  rewrite Hicv, !bind_Ok, bool_decide_eq_true_2 by done. cbn [negb]. rewrite Hw. cbn [negb].
  rewrite <- !app_assoc. rewrite (slice_mid hdr iv _ 8 (8 + 16)) by lia. rewrite bind_Ok.
  rewrite (app_assoc hdr). rewrite (slice_mid _ ct icv), bind_Ok by (len_norm; lia).
  cbn [Z.eqb]. unfold CBCDecrypt. rewrite Hiv. unfold aes_BlockSize.
  assert (len ct mod 16 = 0) as -> by (rewrite Hct'; Z.div_mod_to_equations; lia).
  cbn [Z.eqb Pos.eqb negb orb]. rewrite bind_Ok.
  replace (Z.to_nat (len ct / 16)) with n by (rewrite Hct'; Z.div_mod_to_equations; lia).
  unfold ct. rewrite cbc_decrypt_encrypt; [done|done|done|done|]. by apply trailer_wf.
Qed.

(** ** Properties *)

(** What the code establishes when it builds an SA. *)
Record sa_ok (sa : SecurityAssociation) : Prop := {
  sa_spi : is_u32 (SPI sa);
  sa_seq : is_u64 (SeqNum sa);
  sa_aead : IsAEAD (Suite sa) = true -> is_Some (AEAD sa) -> len (Salt sa) = 4;
  sa_cbc : IsAEAD (Suite sa) = false -> is_Some (CBCBlock sa) -> cbc_suite (Suite sa);
  sa_integ ia : Integrity sa = Some ia -> exists s k, NewIntegrity s k = Ok ia;
  sa_icv ia : Integrity sa = Some ia -> ia_icvSize ia = IntegrityICVSize (IntegSuite sa)
}.

(** The two ends of a tunnel: what the receiver's SA shares with the sender's. *)
Definition same_keys (a b : SecurityAssociation) : Prop :=
  Suite a = Suite b /\ AEAD a = AEAD b /\ CBCBlock a = CBCBlock b /\
  Salt a = Salt b /\ Integrity a = Integrity b.

(** The counter value [Encrypt] uses for its next packet. *)
Definition next_seq (sa : SecurityAssociation) : Z := u64 (SeqNum sa + 1).

(** [pkt] is what an SA with these keys sends under the counter [seq]. *)
Definition sent_packet (sa : SecurityAssociation) (rnd : option bytes) (seq : Z)
    (payload : bytes) (nh : Z) (pkt : bytes) : Prop :=
  (IsAEAD (Suite sa) = true /\ exists aead, AEAD sa = Some aead /\ len (Salt sa) = 4 /\
      pkt = aead_packet sa aead seq payload nh) \/
  (IsAEAD (Suite sa) = false /\ cbc_suite (Suite sa) /\
      exists block integ iv icv, CBCBlock sa = Some block /\ Integrity sa = Some integ /\
        rnd = Some iv /\
        Compute integ (cbc_body sa block iv seq payload nh) = Ok icv /\
        len icv = ia_icvSize integ /\
        pkt = cbc_body sa block iv seq payload nh ++ icv).

Lemma Encrypt_inv rnd sa payload nh sa' pkt :
  sa_ok sa -> (forall bs, rnd = Some bs -> len bs = 16 /\ bytes_wf bs) ->
  Encrypt rnd (Some sa) payload nh = (Some sa', Ok pkt) ->
  sa' = with_SeqNum sa (next_seq sa) /\
  sent_packet sa rnd (next_seq sa) payload nh pkt /\
  ~ (next_seq sa > 4294967295 /\ ESN sa = false).
Proof.
  intros Hok Hrnd. unfold Encrypt, sent_packet.
  assert (forall b, (next_seq sa >? 4294967295) && negb b = false ->
    ~ (next_seq sa > 4294967295 /\ b = false)) as Hov.
  { intros b Hb [H ->]. rewrite andb_true_r in Hb. lia. }
  destruct (IsAEAD (Suite sa)) eqn:EA.
  - unfold encryptAEAD. destruct (AEAD sa) as [aead|] eqn:E; [|done].
    fold (next_seq sa). cbn [ESN with_SeqNum].
    destruct (_ && _) eqn:Eo; [done|].
    pose proof (sa_aead _ Hok EA ltac:(by rewrite E; eexists)) as Hsalt.
    rewrite sealAEAD_ok by done. intros [= <- <-]. split_and!; [done| |by apply Hov].
    left. split; [done|]. by exists aead.
  - unfold encryptCBC. destruct (CBCBlock sa) as [block|] eqn:E; [|done].
    destruct (Integrity sa) as [integ|] eqn:EI; [|done].
    fold (next_seq sa). cbn [ESN with_SeqNum].
    destruct (_ && _) eqn:Eo; [done|].
    pose proof (sa_cbc _ Hok EA ltac:(by rewrite E; eexists)) as Hs.
    destruct (sa_integ _ Hok _ EI) as (isu & ik & Hik).
    destruct rnd as [iv|].
    + destruct (Hrnd _ eq_refl) as [Hiv _].
      destruct (sealCBC_ok (with_SeqNum sa (next_seq sa)) block isu ik integ iv (next_seq sa) payload nh)
        as (icv & Hc & Hl & _ & ->); [done..|].
      intros [= <- <-]. split_and!; [done| |by apply Hov].
      right. split_and!; [done|done|]. by exists block, integ, iv, icv.
    + unfold sealCBC. cbn [Suite with_SeqNum]. destruct (cbc_sizes _ Hs) as [_ ->].
      rewrite buildESPTrailerCBC_ok, bind_Ok by lia. cbn. by intros [= ].
Qed.

Definition good_rnd (rnd : option bytes) : Prop :=
  forall bs, rnd = Some bs -> len bs = 16 /\ bytes_wf bs.

Lemma finish_trailer payload nh bs :
  0 < bs <= 256 -> nh <> NextHeaderDummy -> finish (trailer payload nh bs) = Ok (Some payload, nh).
Proof.
  intros. unfold finish. rewrite strip_trailer by done. cbn.
  by rewrite (proj2 (Z.eqb_neq _ _)).
Qed.

(** A receiver with the same keys opens such a packet, if its window accepts it. *)
Lemma Decrypt_sent rnd out inb seq payload nh pkt :
  sa_ok out -> same_keys inb out -> good_rnd rnd -> bytes_wf payload ->
  is_u8 nh -> nh <> NextHeaderDummy ->
  sent_packet out rnd seq payload nh pkt ->
  window_check (Window inb) (low32 seq) = true ->
  Decrypt (Some inb) pkt =
    (Some (with_Window inb (window_advance (Window inb) (low32 seq))), Ok (Some payload, nh)).
Proof.
  intros Hok (Hs & Ha & Hb & Hsalt & Hi) Hrnd Hwp Hnh Hd Hcase Hw.
  unfold Decrypt. rewrite Hs.
  destruct Hcase as [(-> & aead & Haead & Hl & ->)|
    (-> & Hsuite & block & integ & iv & icv & Hblk & Hint & -> & Hc & Hlen & ->)].
  - unfold decryptAEAD. rewrite Ha, Haead, openAEAD_packet by (done || apply Hok).
    by rewrite finish_trailer by lia || done.
  - destruct (Hrnd _ eq_refl). destruct (sa_integ _ Hok _ Hint) as (isu & ik & Hik).
    unfold decryptCBC. rewrite Hb, Hblk, Hi, Hint.
    rewrite (openCBC_packet inb out block isu ik); try done.
    + by rewrite finish_trailer by lia || done.
    + by rewrite Hs.
    + apply Hok.
Qed.

(** C23: whatever [Encrypt] sends under either mode (AEAD or CBC with HMAC), a
    receiver that holds the same keys and has not yet seen the sequence number
    decrypts to the payload and next header that were sent, and moves its window. *)
Theorem Encrypt_Decrypt_roundtrip rnd out out' inb payload nh pkt :
  sa_ok out -> same_keys inb out -> good_rnd rnd -> bytes_wf payload ->
  is_u8 nh -> nh <> NextHeaderDummy ->
  Encrypt rnd (Some out) payload nh = (Some out', Ok pkt) ->
  window_check (Window inb) (low32 (next_seq out)) = true ->
  Decrypt (Some inb) pkt =
    (Some (with_Window inb (window_advance (Window inb) (low32 (next_seq out)))),
     Ok (Some payload, nh)).
Proof.
  intros Hok Hk Hrnd Hwp Hnh Hd He Hw.
  destruct (Encrypt_inv _ _ _ _ _ _ Hok Hrnd He) as (_ & Hs & _).
  by eapply Decrypt_sent.
Qed.

(** [Encrypt] on an initialised SA always produces a packet, unless the
    32-bit sequence space is exhausted without ESN (RFC 4303 3.3.3), in which
    case it produces an error; it never panics. *)
Theorem Encrypt_total sa payload nh iv :
  sa_ok sa -> len iv = 16 ->
  (if IsAEAD (Suite sa) then is_Some (AEAD sa)
   else is_Some (CBCBlock sa) /\ is_Some (Integrity sa)) ->
  exists r, Encrypt (Some iv) (Some sa) payload nh = (Some (with_SeqNum sa (next_seq sa)), r) /\
    if decide (next_seq sa > 4294967295 /\ ESN sa = false)
    then r = Err "sequence number overflow" else exists pkt, r = Ok pkt.
Proof.
  intros Hok Hiv Hinit. unfold Encrypt.
  destruct (IsAEAD (Suite sa)) eqn:EA.
  - destruct Hinit as [aead Ea]. unfold encryptAEAD. rewrite Ea. fold (next_seq sa).
    cbn [ESN with_SeqNum].
    destruct (_ && _) eqn:Eo; eexists; (split; [done|]).
    + rewrite andb_true_iff, negb_true_iff in Eo. by rewrite decide_True by (split; [lia|tauto]).
    + rewrite decide_False.
      * rewrite sealAEAD_ok by (by apply (sa_aead _ Hok)). eauto.
      * intros [? Hesn]. rewrite Hesn, andb_true_r in Eo. lia.
  - destruct Hinit as [[block Eb] [integ Ei]]. unfold encryptCBC. rewrite Eb, Ei.
    fold (next_seq sa). cbn [ESN with_SeqNum].
    destruct (sa_integ _ Hok _ Ei) as (isu & ik & Hik).
    destruct (_ && _) eqn:Eo; eexists; (split; [done|]).
    + rewrite andb_true_iff, negb_true_iff in Eo. by rewrite decide_True by (split; [lia|tauto]).
    + rewrite decide_False.
      * destruct (sealCBC_ok (with_SeqNum sa (next_seq sa)) block isu ik integ iv (next_seq sa)
          payload nh) as (icv & _ & _ & _ & ->); [by apply (sa_cbc _ Hok)|done..|eauto].
      * intros [? Hesn]. rewrite Hesn, andb_true_r in Eo. lia.
Qed.

(** ** The constructors *)

Lemma NewAEAD_suite suite key aead : NewAEAD suite key = Ok aead -> IsAEAD suite = true.
Proof. unfold NewAEAD. by destruct suite. Qed.

Lemma CipherKeySize_cbc suite :
  (CipherKeySize suite =? 0) = false -> IsAEAD suite = false -> cbc_suite suite.
Proof. destruct suite; cbn; try done; [by left|by right]. Qed.

Lemma New_sa_ok spi suite key salt peer withReplay now sa :
  is_u32 spi -> NewSecurityAssociation spi suite key salt peer withReplay now = Ok sa -> sa_ok sa.
Proof.
  unfold NewSecurityAssociation. intros Hspi H.
  destruct (NewAEAD suite key) as [aead|e|] eqn:E; [|done..].
  apply bind_Ok_inv in H as (salt' & Hs & [= <-]).
  apply len_copy_at in Hs. constructor; cbn; try done.
Qed.

Lemma NewCBC_sa_ok spi suite encrKey integSuite integKey peer withReplay now sa :
  is_u32 spi -> NewCBCSecurityAssociation spi suite encrKey integSuite integKey peer withReplay now = Ok sa ->
  sa_ok sa.
Proof.
  unfold NewCBCSecurityAssociation. intros Hspi H.
  destruct (CipherKeySize suite =? 0) eqn:E; [done|].
  destruct (negb _); [done|]. destruct (aes_NewCipher encrKey); [|done..].
  destruct (NewIntegrity integSuite integKey) eqn:EI; [|done..]. simplify_eq.
  constructor; cbn; try done.
  - intros Hf _. by apply CipherKeySize_cbc.
  - intros ia [= <-]. eauto.
  - intros ia [= <-]. by destruct (Compute_ok _ _ _ [] EI) as (x & _ & _ & ?).
Qed.
End Packets.

(** ** Witnesses *)

Import Toy.

Definition demo_sa : SecurityAssociation :=
  mkSA 4096 0 false AES128GCM (Some (mkAEAD AES128GCM (make 16))) None [1; 2; 3; 4] IntegNone None
    (Some (Replay.NewReplayWindow Replay.DefaultReplayWindowSize)) None true 0.

Definition demo_cbc : SecurityAssociation :=
  mkSA 4097 4294967295 false AES256CBC None (Some (make 32)) [] IntegHMAC_SHA256_128
    (Some (mkIntegrity IntegHMAC_SHA256_128 (make 32) SHA256 16))
    (Some (Replay.NewReplayWindow Replay.DefaultReplayWindowSize)) None true 0.

Lemma demo_sa_ok : sa_ok demo_sa.
Proof.
  apply (New_sa_ok 4096 AES128GCM (make 16) [1; 2; 3; 4] None true 0); [done|].
  vm_compute. reflexivity.
Qed.

Lemma demo_cbc_ok : sa_ok demo_cbc.
Proof.
  constructor; cbn; try done.
  - by right.
  - intros ia [= <-]. by exists IntegHMAC_SHA256_128, (make 32).
  - by intros ia [= <-].
Qed.

Lemma Encrypt_Decrypt_roundtrip_witness :
  exists pkt,
    Encrypt None (Some demo_sa) [69; 0; 17] NextHeaderIPv4 = (Some (with_SeqNum demo_sa 1), Ok pkt) /\
    len pkt = 40 /\
    (Decrypt (Some demo_sa) pkt).2 = Ok (Some [69; 0; 17], NextHeaderIPv4).
Proof.
  eexists. split; [vm_compute; reflexivity|]. split; [reflexivity|].
  rewrite (Encrypt_Decrypt_roundtrip None demo_sa (with_SeqNum demo_sa 1) demo_sa [69; 0; 17]
    NextHeaderIPv4); [reflexivity|exact demo_sa_ok|done|done| |done|done| |].
  - repeat constructor; unfold is_u8; lia.
  - vm_compute. reflexivity.
  - vm_compute. reflexivity.
Defined.

(** At 2^32 - 1 packets the next one is refused; one packet earlier it is sent. *)
Lemma Encrypt_total_witness :
  (exists r, Encrypt (Some (make 16)) (Some demo_cbc) [69] NextHeaderIPv4 =
     (Some (with_SeqNum demo_cbc 4294967296), r) /\ r = Err "sequence number overflow") /\
  (exists pkt, (Encrypt (Some (make 16)) (Some (with_SeqNum demo_cbc 4294967294)) [69] NextHeaderIPv4).2 = Ok pkt).
Proof.
  split.
  - destruct (Encrypt_total demo_cbc [69] NextHeaderIPv4 (make 16)) as (r & E & Hr);
      [exact demo_cbc_ok|reflexivity|split; by eexists|].
    exists r. split; [exact E|]. exact Hr.
  - eexists. vm_compute. reflexivity.
Defined.

End Esp.
