(* ===== verification/EspTunnel.v ===== *)
(** * EspTunnel: a security association over time
      (properties of [internal/esp/packet.go] and [internal/esp/replay.go])

    What [Decrypt] accepts and what it leaves unchanged; sequences of packets sent
    by one SA, and what a receiver makes of whatever the network delivers. *)

From S2P Require Import Prelude Net Replay EspCipher EspPacket.
Import Cipher Esp.
Open Scope string_scope.
Open Scope list_scope.
Open Scope Z_scope.

Module Tunnel.

Section Tunnel.
Context {C : Crypto} {CL : CryptoLaws C}.

(** ** What [Decrypt] accepts *)

(** The sequence number in the header of a packet. *)
Definition pkt_seq (pkt : bytes) : Z :=
  match ParseHeader pkt with Ok h => hdr_SeqNum h | _ => 0 end.

(** The packet passes the authentication of the SA: its AEAD tag over header and
    ciphertext opens, or its ICV is the HMAC of all that precedes it. *)
Definition authentic (sa : SecurityAssociation) (pkt : bytes) : Prop :=
  if IsAEAD (Suite sa) then
    exists aead pt, AEAD sa = Some aead /\
      Open aead (Salt sa ++ sub pkt 8 16) (sub pkt 16 (len pkt)) (sub pkt 0 8) = Some pt
  else
    exists integ, Integrity sa = Some integ /\
      Compute integ (sub pkt 0 (len pkt - ia_icvSize integ)) =
        Ok (sub pkt (len pkt - ia_icvSize integ) (len pkt)).

Lemma ParseHeader_total pkt :
  8 <= len pkt -> exists h, ParseHeader pkt = Ok h /\ pkt_seq pkt = hdr_SeqNum h.
Proof.
  intros Hl. unfold pkt_seq, ParseHeader, ESPHeaderLen.
  rewrite (proj2 (Z.ltb_ge _ _)) by lia.
  rewrite !slice_ok by lia. rewrite !bind_Ok.
  destruct (be32_ok (sub pkt 0 4)) as [a ->]; [rewrite len_sub; lia|]. rewrite !bind_Ok.
  destruct (be32_ok (sub pkt 4 8)) as [b ->]; [rewrite len_sub; lia|]. rewrite bind_Ok. eauto.
Qed.

Lemma openAEAD_cases sa aead pkt :
  len (Salt sa) = 4 ->
  match openAEAD sa aead pkt with
  | Ok (seq, pt) =>
    seq = pkt_seq pkt /\ window_check (Window sa) seq = true /\
    Open aead (Salt sa ++ sub pkt 8 16) (sub pkt 16 (len pkt)) (sub pkt 0 8) = Some pt
  | Err _ => True
  | Panic => False
  end.
Proof.
  intros Hs. unfold openAEAD, AEADIVSize, ESPHeaderLen, ESPTrailerMinLen. cbv zeta.
  pose proof (Overhead_nonneg aead).
  destruct (Z.ltb_spec (len pkt) (8 + 8 + 2 + Overhead aead)); [done|].
  destruct (ParseHeader_total pkt) as (h & -> & Hq); [lia|]. rewrite bind_Ok.
  destruct (window_check _ _) eqn:Ew; [|done]. cbn [negb].
  rewrite (slice_ok pkt 8 (8 + 8)), bind_Ok by lia.
  rewrite BuildNonce_ok by (done || rewrite len_sub; lia). cbn [errorf]. rewrite bind_Ok.
  rewrite (slice_ok pkt 0 8), bind_Ok by lia.
  rewrite (slice_ok pkt (8 + 8) _), bind_Ok by lia.
  change (8 + 8) with 16 in *. destruct (Open _ _ _ _); [done|done].
Qed.

Lemma Verify_total s k ia data icv :
  NewIntegrity s k = Ok ia ->
  exists b, Verify ia data icv = Ok b /\ (b = true -> Compute ia data = Ok icv).
Proof.
  intros Hi. unfold Verify. destruct (negb _); [by exists false|].
  destruct (Compute_ok s k ia data Hi) as (x & -> & _). rewrite bind_Ok.
  eexists; split; [done|]. intros Hb%bool_decide_eq_true. by subst.
Qed.

Lemma openCBC_cases sa block integ pkt s k :
  cbc_suite (Suite sa) -> NewIntegrity s k = Ok integ -> bytes_wf pkt ->
  match openCBC sa block integ pkt with
  | Ok (seq, pt) =>
    seq = pkt_seq pkt /\ window_check (Window sa) seq = true /\ bytes_wf pt /\
    Compute integ (sub pkt 0 (len pkt - ia_icvSize integ)) =
      Ok (sub pkt (len pkt - ia_icvSize integ) (len pkt))
  | Err _ => True
  | Panic => False
  end.
Proof.
  intros Hs Hi Hwf. destruct (cbc_sizes _ Hs) as [Hiv Hblk].
  destruct (Compute_ok s k integ [] Hi) as (x & _ & Hx & _). pose proof (len_nonneg x).
  unfold openCBC. rewrite Hiv, Hblk. unfold ESPHeaderLen.
  destruct (Z.ltb_spec (len pkt) (8 + 16 + 16 + ia_icvSize integ)); [done|].
  destruct (ParseHeader_total pkt) as (h & -> & Hq); [lia|]. rewrite bind_Ok.
  rewrite (slice_ok pkt 0 _), bind_Ok by lia.
  rewrite (slice_ok pkt (len pkt - ia_icvSize integ) _), bind_Ok by lia.
  destruct (Verify_total s k integ (sub pkt 0 (len pkt - ia_icvSize integ))
    (sub pkt (len pkt - ia_icvSize integ) (len pkt)) Hi) as (b & -> & Hb).
  rewrite bind_Ok. destruct b; [|done]. cbn [negb].
  destruct (window_check _ _) eqn:Ew; [|done]. cbn [negb].
  rewrite (slice_ok pkt 8 (8 + 16)), bind_Ok by lia.
  rewrite (slice_ok pkt (8 + 16) _), bind_Ok by lia.
  set (ct := sub pkt (8 + 16) _). change (16 =? 0) with false. cbv iota.
  destruct (Z.eqb_spec (len ct mod 16) 0) as [Hm|]; [|done]. cbn [negb].
  unfold CBCDecrypt. rewrite len_sub by lia. change (8 + 16 - 8 =? aes_BlockSize) with true.
  change aes_BlockSize with 16. rewrite (proj2 (Z.eqb_eq _ _) Hm). cbn [negb orb]. rewrite bind_Ok.
  split_and!; [done|done| |by apply Hb].
  apply cbc_decrypt_wf; [by apply Forall_sub| |by apply Forall_sub].
  pose proof (len_nonneg ct). unfold len in *. Z.div_mod_to_equations; lia.
Qed.

Lemma finish_not_Panic pt : bytes_wf pt -> finish pt <> Panic.
Proof.
  intros Hwf. unfold finish. pose proof (strip_not_Panic _ Hwf).
  destruct (stripESPTrailer pt) as [[p nh]|e|]; [|done..]. cbn. by case_match.
Qed.

Lemma Decrypt_cases sa pkt :
  sa_ok sa -> bytes_wf pkt ->
  exists sa' r, Decrypt (Some sa) pkt = (Some sa', r) /\ r <> Panic /\
    ((sa' = sa /\ exists e, r = Err e) \/
     (sa' = with_Window sa (window_advance (Window sa) (pkt_seq pkt)) /\
      window_check (Window sa) (pkt_seq pkt) = true /\ authentic sa pkt)).
Proof.
  intros Hok Hwf. unfold Decrypt, authentic. destruct (IsAEAD (Suite sa)) eqn:EA.
  - unfold decryptAEAD. destruct (AEAD sa) as [aead|] eqn:Ea; [|by eauto 10].
    pose proof (openAEAD_cases sa aead pkt (sa_aead _ Hok EA ltac:(by rewrite Ea))) as H.
    destruct (openAEAD sa aead pkt) as [[seq pt]|e|]; [|by eauto 10|done].
    destruct H as (-> & Hw & Ho). eexists _, _. split; [done|]. split.
    + apply finish_not_Panic. by eapply Open_wf.
    + right. eauto 10.
  - unfold decryptCBC. destruct (CBCBlock sa) as [block|] eqn:Eb; [|by eauto 10].
    destruct (Integrity sa) as [integ|] eqn:Ei; [|by eauto 10].
    destruct (sa_integ _ Hok _ Ei) as (s & k & Hi).
    pose proof (openCBC_cases sa block integ pkt s k
      (sa_cbc _ Hok EA ltac:(by rewrite Eb)) Hi Hwf) as H.
    destruct (openCBC sa block integ pkt) as [[seq pt]|e|]; [|by eauto 10|done].
    destruct H as (-> & Hw & Hpt & Hc). eexists _, _. split; [done|]. split.
    + by apply finish_not_Panic.
    + right. eauto 10.
Qed.

(** ** A sender's packets *)

(** What a sender is asked to send: the random bytes the CBC mode draws, the
    payload and its next header. *)
Record request := mkRequest { rq_rnd : option bytes; rq_payload : bytes; rq_nh : Z }.

(** The packets an SA emits for a list of requests: counter, content, packet. *)
Fixpoint send_all (sa : SecurityAssociation) (rs : list request) :
    list (Z * (bytes * Z) * bytes) :=
  match rs with
  | [] => []
  | r :: rs =>
    match Encrypt (rq_rnd r) (Some sa) (rq_payload r) (rq_nh r) with
    | (Some sa', Ok pkt) => (SeqNum sa', (rq_payload r, rq_nh r), pkt) :: send_all sa' rs
    | (Some sa', _) => send_all sa' rs
    | (None, _) => []
    end
  end.

Record good_request (r : request) : Prop := {
  gr_rnd : good_rnd (rq_rnd r);
  gr_payload : bytes_wf (rq_payload r);
  gr_nh : is_u8 (rq_nh r);
  gr_dummy : rq_nh r <> NextHeaderDummy
}.

(** Two SAs with the same keys and SPI, whatever their counters and windows. *)
Record same_sa (a b : SecurityAssociation) : Prop := {
  ss_spi : SPI a = SPI b;
  ss_esn : ESN a = ESN b;
  ss_keys : same_keys a b
}.

Lemma same_sa_SeqNum sa n : same_sa (with_SeqNum sa n) sa.
Proof. by repeat split. Qed.

Lemma same_sa_trans a b c : same_sa a b -> same_sa b c -> same_sa a c.
Proof.
  intros [] []. unfold same_keys in *. destruct_and!. constructor; [congruence..|].
  unfold same_keys. split_and!; congruence.
Qed.

Lemma sent_packet_same a b rnd seq p nh pkt :
  same_sa a b -> sent_packet a rnd seq p nh pkt -> sent_packet b rnd seq p nh pkt.
Proof.
  intros [Hs _ (H1 & H2 & H3 & H4 & H5)]. unfold sent_packet, aead_packet, cbc_body.
  by rewrite Hs, H1, H2, H3, H4, H5.
Qed.

(** An attempt leaves the SA or its counter one further. *)
Lemma Encrypt_state rnd sa p nh :
  exists sa' r, Encrypt rnd (Some sa) p nh = (Some sa', r) /\
    (sa' = with_SeqNum sa (next_seq sa) \/ sa' = sa).
Proof.
  unfold Encrypt, encryptAEAD, encryptCBC. fold (next_seq sa).
  repeat case_match; simplify_eq; eauto 10.
Qed.

Lemma Encrypt_not_Panic rnd sa p nh :
  sa_ok sa -> good_rnd rnd -> (Encrypt rnd (Some sa) p nh).2 <> Panic.
Proof.
  intros Hok Hrnd. unfold Encrypt. destruct (IsAEAD (Suite sa)) eqn:EA.
  - unfold encryptAEAD. destruct (AEAD sa) as [aead|] eqn:Ea; [|done].
    destruct (_ && _); [done|]. cbn [snd].
    by rewrite sealAEAD_ok by (apply (sa_aead _ Hok); [done|by rewrite Ea]).
  - unfold encryptCBC. destruct (CBCBlock sa) as [block|] eqn:Eb; [|done].
    destruct (Integrity sa) as [integ|] eqn:Ei; [|done]. destruct (_ && _); [done|]. cbn [snd].
    destruct (sa_integ _ Hok _ Ei) as (s & k & Hi).
    pose proof (sa_cbc _ Hok EA ltac:(by rewrite Eb)) as Hs.
    destruct rnd as [iv|].
    + destruct (Hrnd _ eq_refl) as [Hiv _].
      by destruct (sealCBC_ok (with_SeqNum sa (u64 (SeqNum sa + 1))) block s k integ iv
        (u64 (SeqNum sa + 1)) p nh) as (icv & _ & _ & _ & ->).
    + unfold sealCBC. cbn [Suite with_SeqNum]. destruct (cbc_sizes _ Hs) as [_ ->].
      by rewrite buildESPTrailerCBC_ok, bind_Ok by lia.
Qed.

Lemma sa_ok_next sa : sa_ok sa -> sa_ok (with_SeqNum sa (next_seq sa)).
Proof. intros []. constructor; cbn; auto. apply u64_range. Qed.

(** What is known of every packet an SA emits after its counter was [lo]. *)
Definition emitted (sa : SecurityAssociation) (lo : Z) (e : Z * (bytes * Z) * bytes) : Prop :=
  lo < e.1.1 < 18446744073709551616 /\ (ESN sa = false -> e.1.1 <= 4294967295) /\
  exists r, good_request r /\ e.1.2 = (rq_payload r, rq_nh r) /\
    sent_packet sa (rq_rnd r) e.1.1 (rq_payload r) (rq_nh r) e.2.

Lemma emitted_weaken a b lo lo' e :
  same_sa a b -> lo' <= lo -> emitted a lo e -> emitted b lo' e.
Proof.
  intros Hs Hle (H1 & H2 & r & Hr & He & Hp). destruct (Hs) as [_ He' _]. split_and!; [lia..| |].
  - by rewrite <- He'.
  - exists r. eauto using sent_packet_same.
Qed.

Lemma send_all_emitted rs sa :
  sa_ok sa -> Forall good_request rs ->
  SeqNum sa + Z.of_nat (length rs) < 18446744073709551616 ->
  Forall (emitted sa (SeqNum sa)) (send_all sa rs) /\
  increasing (fst <$> (fst <$> send_all sa rs)).
Proof.
  revert sa; induction rs as [|r rs IH]; intros sa Hok Hg Hlt; cbn [send_all length] in *;
    [split; constructor|].
  apply Forall_cons in Hg as [Hr Hg]. pose proof (sa_seq _ Hok) as [? ?].
  assert (next_seq sa = SeqNum sa + 1) as Hn by (unfold next_seq; apply u64_id; unfold is_u64; lia).
  destruct (Encrypt_state (rq_rnd r) sa (rq_payload r) (rq_nh r)) as (sa' & res & E & Hsa').
  rewrite E.
  assert (sa_ok sa' /\ same_sa sa' sa /\ SeqNum sa <= SeqNum sa' <= SeqNum sa + 1)
    as (Hok' & Hs & Hq).
  { destruct Hsa' as [-> | ->].
    - split_and!; [by apply sa_ok_next|apply same_sa_SeqNum|cbn; lia..].
    - split_and!; [done|by repeat split|lia..]. }
  destruct (IH sa' Hok' Hg ltac:(lia)) as [IH1 IH2].
  assert (Forall (emitted sa (SeqNum sa)) (send_all sa' rs)) as IH1'.
  { eapply Forall_impl; [exact IH1|]. intros e. apply emitted_weaken; [done|lia]. }
  destruct res as [pkt|e|]; [|by split..].
  destruct (Encrypt_inv _ _ _ _ _ _ Hok (gr_rnd _ Hr) E) as (-> & Hp & Hov).
  cbn [SeqNum with_SeqNum] in *. split.
  - constructor; [|done]. unfold emitted; cbn. split_and!; [lia..| |by exists r].
    intros Hesn. destruct (Z.le_gt_cases (next_seq sa) 4294967295); [done|]. exfalso. auto with lia.
  - cbn. constructor; [done|]. rewrite <- list_fmap_compose. apply Forall_fmap.
    eapply Forall_impl; [exact IH1|]. intros x [? _]. cbn in *. lia.
Qed.

(** ** The receiving end *)

(** The packets delivered, in order, from what the network presents. *)
Fixpoint recv_all (sa : SecurityAssociation) (pkts : list bytes) : list (bytes * Z) :=
  match pkts with
  | [] => []
  | pkt :: pkts =>
    match Decrypt (Some sa) pkt with
    | (Some sa', Ok (Some p, nh)) => (p, nh) :: recv_all sa' pkts
    | (Some sa', _) => recv_all sa' pkts
    | (None, _) => []
    end
  end.

Lemma pkt_seq_put spi seq rest : is_u32 spi -> is_u32 seq ->
  pkt_seq (put32 spi ++ put32 seq ++ rest) = seq.
Proof. intros. unfold pkt_seq. by rewrite ParseHeader_put. Qed.

Lemma pkt_seq_u32 pkt : bytes_wf pkt -> is_u32 (pkt_seq pkt).
Proof.
  intros Hwf. unfold pkt_seq, ParseHeader. destruct (len pkt <? ESPHeaderLen) eqn:El; [by split|]. unfold ESPHeaderLen in *.
  rewrite !slice_ok, !bind_Ok by lia. destruct (be32 (sub pkt 0 4)) as [a|e|]; [|by split..]. rewrite !bind_Ok.
  destruct (be32 (sub pkt 4 8)) as [b|e|] eqn:Eb; [|by split..]. cbn. eapply be32_u32; [|exact Eb]. by apply Forall_sub.
Qed.

Lemma pkt_seq_sent sa rnd seq p nh pkt :
  is_u32 (SPI sa) -> sent_packet sa rnd seq p nh pkt -> pkt_seq pkt = low32 seq.
Proof.
  intros Hs [(_ & aead & _ & _ & ->)|(_ & _ & block & integ & iv & icv & _ & _ & _ & _ & _ & ->)];
    unfold aead_packet, cbc_body; rewrite <- !app_assoc;
    apply pkt_seq_put; done || apply low32_u32.
Qed.

(** A receiver of [out]'s packets that has accepted the numbers [hist]. *)
Record receiver (out inb : SecurityAssociation) (hist : list Z) : Prop := {
  rc_ok : sa_ok inb;
  rc_keys : same_keys inb out;
  rc_window : exists rw, Window inb = Some rw /\ Replay.tracks rw hist
}.

Lemma receiver_advance out inb hist seq :
  receiver out inb hist -> 0 < seq < 18446744073709551616 ->
  receiver out (with_Window inb (window_advance (Window inb) seq)) (seq :: hist).
Proof.
  intros [[] Hk (rw & -> & Ht)] Hs. constructor; [by constructor|exact Hk|].
  exists (Replay.Advance rw seq). split; [done|by apply Replay.Advance_tracks].
Qed.

(** The receiver's answer to one packet of the sender: delivered exactly when
    the window takes its number, dropped without effect otherwise. *)
Lemma receive_emitted out inb hist e :
  sa_ok out -> ESN out = false -> receiver out inb hist -> emitted out 0 e -> bytes_wf e.2 ->
  let seq := e.1.1 in
  if window_check (Window inb) seq
  then Decrypt (Some inb) e.2 =
    (Some (with_Window inb (window_advance (Window inb) seq)), Ok (Some e.1.2.1, e.1.2.2))
  else exists er, Decrypt (Some inb) e.2 = (Some inb, Err er).
Proof.
  intros Hok Hesn [Hri Hk _] (Hlo & Hmax & r & Hr & He & Hp) Hwf seq.
  specialize (Hmax Hesn). fold seq in Hlo, Hmax, Hp.
  assert (low32 seq = seq) as Hl by (apply low32_id; unfold is_u32; lia).
  destruct (window_check (Window inb) seq) eqn:Ew.
  - rewrite He; cbn [fst snd].
    rewrite (Decrypt_sent (rq_rnd r) out inb seq (rq_payload r) (rq_nh r)); rewrite ?Hl; by destruct Hr.
  - destruct (Decrypt_cases inb e.2 Hri Hwf) as (sa' & res & E & _ & [[-> [er ->]]|(_ & Hc & _)]);
      [by exists er|].
    rewrite (pkt_seq_sent _ _ _ _ _ _ (sa_spi _ Hok) Hp), Hl in Hc. congruence.
Qed.

Lemma recv_all_once out sent net inb hist :
  sa_ok out -> ESN out = false -> Forall (emitted out 0) sent -> receiver out inb hist ->
  Forall bytes_wf net -> (forall pkt, pkt ∈ net -> pkt ∈ snd <$> sent) ->
  exists L, recv_all inb net = snd <$> L /\ NoDup (fst <$> L) /\
    forall x, x ∈ L -> (x.1 ∉ hist) /\ x ∈ fst <$> sent.
Proof.
  intros Hok Hesn Hsent. revert inb hist.
  induction net as [|pkt net IH]; intros inb hist Hrc Hwf Hnet.
  { exists []. split_and!; [done|constructor|]. intros ? []%not_elem_of_nil. }
  apply Forall_cons in Hwf as [Hw Hwf].
  assert (forall pkt, pkt ∈ net -> pkt ∈ snd <$> sent) as Hnet' by set_solver.
  destruct (proj1 (list_elem_of_fmap _ _ _) (Hnet pkt ltac:(set_solver))) as (e & -> & He).
  pose proof (proj1 (Forall_forall _ _) Hsent e He) as Hem.
  pose proof (receive_emitted out inb hist e Hok Hesn Hrc Hem Hw) as H. cbv zeta in H.
  destruct (Hem) as ([Hlo Hhi] & _).
  destruct (window_check _ _) eqn:Ew; cbn [recv_all].
  - rewrite H. destruct (Hrc) as [_ _ (rw & HW & Ht)]. rewrite HW in Ew. cbn in Ew.
    destruct (Replay.Check_fresh rw hist e.1.1 Ht ltac:(lia) Ew) as [_ Hfresh].
    destruct (IH _ _ (receiver_advance _ _ _ _ Hrc (conj Hlo Hhi)) Hwf Hnet') as (L & -> & Hnd & HL).
    exists (e.1 :: L). split_and!.
    + by destruct e as [[? []] ?].
    + cbn. constructor; [|done]. intros (x & Hx & Hin)%list_elem_of_fmap.
      destruct (HL x Hin) as [Hn _]. rewrite Hx in Hn. set_solver.
    + intros x [-> |Hin]%elem_of_cons; [split; [done|by apply list_elem_of_fmap_2]|].
      destruct (HL x Hin). set_solver.
  - destruct H as [er ->]. by apply (IH inb hist).
Qed.

Lemma recv_all_ordered out sent inb hist :
  sa_ok out -> ESN out = false -> Forall (emitted out 0) sent -> receiver out inb hist ->
  Forall bytes_wf (snd <$> sent) -> increasing (fst <$> (fst <$> sent)) ->
  Forall (fun e => Replay.newest hist < e.1.1) sent ->
  recv_all inb (snd <$> sent) = snd <$> (fst <$> sent).
Proof.
  intros Hok Hesn. revert inb hist.
  induction sent as [|e sent IH]; intros inb hist Hem Hrc Hwf Hinc Hnew; [done|].
  rewrite !fmap_cons in *.
  apply Forall_cons in Hem as [He Hem]. apply Forall_cons in Hwf as [Hw Hwf].
  apply Forall_cons in Hnew as [Hn Hnew]. apply StronglySorted_inv in Hinc as [Hinc Hlt].
  pose proof (receive_emitted out inb hist e Hok Hesn Hrc He Hw) as H. cbv zeta in H.
  destruct (Hrc) as [_ _ (rw & HW & Ht)]. destruct (He) as ([Hlo Hhi] & _).
  assert (window_check (Window inb) e.1.1 = true) as Hc.
  { rewrite HW. by apply (Replay.Check_newer rw hist). }
  rewrite Hc in H. cbn [recv_all]. rewrite H. f_equal; [by destruct e as [[? []] ?]|].
  apply (IH _ (e.1.1 :: hist)); [done|by apply receiver_advance|done|done|].
  rewrite <- list_fmap_compose, Forall_fmap in Hlt. eapply Forall_impl.
  { apply Forall_and. split; [exact Hlt|exact Hnew]. }
  intros x [? ?]. rewrite Replay.newest_cons. cbn in *. lia.
Qed.


(** ** Properties *)

(** [Decrypt] is total on every packet (no slice or index is out of bounds),
    and a packet that fails authentication or that the anti-replay window
    refuses is an error that leaves the SA as it was. *)
Theorem Decrypt_rejects sa pkt :
  sa_ok sa -> bytes_wf pkt ->
  exists sa' r, Decrypt (Some sa) pkt = (Some sa', r) /\ r <> Panic /\
    (~ authentic sa pkt \/ window_check (Window sa) (pkt_seq pkt) = false ->
     sa' = sa /\ exists e, r = Err e).
Proof.
  intros Hok Hwf. destruct (Decrypt_cases sa pkt Hok Hwf) as (sa' & r & E & Hr & Hcase).
  exists sa', r. split_and!; [done|done|]. intros Hbad.
  destruct Hcase as [H|(_ & Hw & Ha)]; [done|]. destruct Hbad; [done|congruence].
Qed.

(** an SA never emits two packets under the same counter, hence an AEAD SA
    never uses a nonce twice (the explicit IV is the counter), whatever it is
    asked to send in its first 2^64 - 1 attempts; and without ESN no packet has a
    counter above 2^32 - 1. *)
Theorem no_nonce_reuse sa rs :
  sa_ok sa -> SeqNum sa = 0 -> Forall good_request rs ->
  Z.of_nat (length rs) < 18446744073709551616 ->
  NoDup (fst <$> (fst <$> send_all sa rs)) /\
  (IsAEAD (Suite sa) = true -> NoDup ((fun e => sub e.2 8 16) <$> send_all sa rs)) /\
  (ESN sa = false -> Forall (fun e => 1 <= e.1.1 <= 4294967295) (send_all sa rs)).
Proof.
  intros Hok H0 Hg Hl. destruct (send_all_emitted rs sa Hok Hg ltac:(lia)) as [Hem Hinc].
  apply increasing_NoDup in Hinc. split_and!; [done| |].
  - intros HA.
    assert ((fun e => sub e.2 8 16) <$> send_all sa rs =
      SequenceToIV <$> (fst <$> (fst <$> send_all sa rs))) as ->.
    { rewrite <- !list_fmap_compose. apply list_fmap_ext. intros i e Hi.
      destruct (proj1 (Forall_lookup _ _) Hem i e Hi) as (_ & _ & r & _ & _ & Hp).
      destruct Hp as [(_ & aead & _ & _ & ->)|[Hf _]]; [done|congruence]. }
    apply NoDup_fmap_2_strong; [|done]. rewrite <- list_fmap_compose.
    intros x y (a & -> & Ha)%list_elem_of_fmap (b & -> & Hb)%list_elem_of_fmap.
    rewrite Forall_forall in Hem. destruct (Hem a Ha) as [? _], (Hem b Hb) as [? _].
    cbn. apply SequenceToIV_inj; unfold is_u64; lia.
  - intros Hesn. eapply Forall_impl; [exact Hem|]. intros e (? & Hm & _). specialize (Hm Hesn). lia.
Qed.

(** C8: end to end against a network that drops, delays, reorders and duplicates
    packets at will: what the receiver delivers is a sub-multiset of what the
    sender was given, so every payload arrives unaltered and at most once. *)
Theorem tunnel_at_most_once out inb rs net sz :
  sa_ok out -> sa_ok inb -> same_keys inb out -> SeqNum out = 0 -> ESN out = false ->
  0 <= sz -> sz + 63 < 4294967296 -> Window inb = Some (Replay.NewReplayWindow sz) ->
  Forall good_request rs -> Z.of_nat (length rs) < 18446744073709551616 ->
  Forall bytes_wf net -> (forall pkt, pkt ∈ net -> pkt ∈ snd <$> send_all out rs) ->
  recv_all inb net ⊆+ (snd <$> (fst <$> send_all out rs)).
Proof.
  intros Hok Hri Hk H0 Hesn Hs0 Hs1 HW Hg Hl Hwf Hnet.
  destruct (send_all_emitted rs out Hok Hg ltac:(lia)) as [Hem _]. rewrite H0 in Hem.
  assert (receiver out inb []) as Hrc.
  { constructor; [done|done|]. eexists; split; [done|]. by apply Replay.New_tracks. }
  destruct (recv_all_once out _ net inb [] Hok Hesn Hem Hrc Hwf Hnet) as (L & -> & Hnd & HL).
  apply fmap_submseteq, NoDup_submseteq; [by eapply NoDup_fmap_1|]. intros x Hx. by apply HL.
Qed.

(** over a network that keeps the order and loses nothing, the receiver
    delivers exactly what was sent, in order. *)
Theorem tunnel_in_order out inb rs sz :
  sa_ok out -> sa_ok inb -> same_keys inb out -> SeqNum out = 0 -> ESN out = false ->
  0 <= sz -> sz + 63 < 4294967296 -> Window inb = Some (Replay.NewReplayWindow sz) ->
  Forall good_request rs -> Z.of_nat (length rs) < 18446744073709551616 ->
  Forall bytes_wf (snd <$> send_all out rs) ->
  recv_all inb (snd <$> send_all out rs) = snd <$> (fst <$> send_all out rs).
Proof.
  intros Hok Hri Hk H0 Hesn Hs0 Hs1 HW Hg Hl Hwf.
  destruct (send_all_emitted rs out Hok Hg ltac:(lia)) as [Hem Hinc]. rewrite H0 in Hem.
  apply (recv_all_ordered out _ inb []); try done.
  - constructor; [done|done|]. eexists; split; [done|]. by apply Replay.New_tracks.
  - eapply Forall_impl; [exact Hem|]. intros e [? _]. cbn. lia.
Qed.
End Tunnel.

(** ** Witnesses *)

Import Toy.

Definition demo_requests : list request :=
  [mkRequest (Some (make 16)) [69; 1] 4; mkRequest (Some (make 16)) [69; 2; 3; 4; 5] 4;
   mkRequest (Some (make 16)) [96] 41].

Lemma demo_good p nh :
  bytes_wf p -> is_u8 nh -> nh <> NextHeaderDummy -> good_request (mkRequest (Some (make 16)) p nh).
Proof. constructor; cbn; try done. intros bs [= <-]. split; [done|apply make_wf]. Qed.

Lemma demo_requests_good : Forall good_request demo_requests.
Proof.
  repeat (apply Forall_cons; split; [apply demo_good; try done; by apply (bool_decide_unpack _)|]).
  constructor.
Qed.

Definition demo_out : SecurityAssociation := with_SeqNum demo_cbc 0.

Lemma demo_out_ok : sa_ok demo_out.
Proof. destruct demo_cbc_ok. by constructor. Qed.

(** The network delivers the third packet, the first, the third again. *)
Definition demo_net : list bytes :=
  match snd <$> send_all demo_out demo_requests with
  | [a; b; c] => [c; a; c]
  | _ => []
  end.

Lemma Decrypt_rejects_witness :
  (exists sa' r, Decrypt (Some demo_sa) (replicate 60 7) = (Some sa', r) /\ r <> Panic) /\
  exists e, (Decrypt (Some demo_sa) (replicate 60 7)).2 = Err e.
Proof.
  split.
  - destruct (Decrypt_rejects demo_sa (replicate 60 7) demo_sa_ok) as (sa' & r & E & Hr & _).
    + by apply Forall_replicate.
    + exists sa', r. by split.
  - eexists. vm_compute. reflexivity.
Defined.

Lemma no_nonce_reuse_witness :
  (fst <$> (fst <$> send_all demo_sa demo_requests)) = [1; 2; 3] /\
  NoDup ((fun e => sub e.2 8 16) <$> send_all demo_sa demo_requests).
Proof.
  split; [vm_compute; reflexivity|].
  destruct (no_nonce_reuse demo_sa demo_requests demo_sa_ok eq_refl demo_requests_good) as (_ & H & _);
    [done|by apply H].
Defined.

Lemma tunnel_at_most_once_witness :
  recv_all demo_out demo_net = [([96], 41); ([69; 1], 4)] /\
  recv_all demo_out demo_net ⊆+ (snd <$> (fst <$> send_all demo_out demo_requests)).
Proof.
  split; [vm_compute; reflexivity|].
  apply (tunnel_at_most_once demo_out demo_out demo_requests demo_net 128);
    try done; try apply demo_out_ok; try apply demo_requests_good.
  - apply (bool_decide_unpack _). vm_compute. exact I.
  - assert (Forall (fun pkt => pkt ∈ snd <$> send_all demo_out demo_requests) demo_net) as H
      by (apply (bool_decide_unpack _); vm_compute; exact I).
    by apply Forall_forall.
Defined.

Lemma tunnel_in_order_witness :
  recv_all demo_out (snd <$> send_all demo_out demo_requests) = [([69; 1], 4); ([69; 2; 3; 4; 5], 4); ([96], 41)].
Proof.
  rewrite (tunnel_in_order demo_out demo_out demo_requests 128); [vm_compute; reflexivity|..];
    try done; try apply demo_out_ok; try apply demo_requests_good.
  apply (bool_decide_unpack _). vm_compute. exact I.
Defined.

End Tunnel.
