(* ===== verification/EspThreads.v ===== *)
(** * EspThreads: goroutines that share a security association
      ([internal/esp/packet.go], [replay.go], [sa.go])

    [Encrypt] takes the next number with an atomic add, [Decrypt] asks the window and, once
    the packet has passed, marks it: the mutex of the window covers each of the two, not what
    is between them.  The rest of both functions reads only fields that never change.  So a
    call is two atomic steps, and the steps of any number of goroutines interleave.  The log
    has what happened, the newest first.  [readers] is the number of goroutines that
    receive; any may send. *)

From S2P Require Import Prelude Net Replay EspCipher EspPacket EspTunnel.
Import Cipher Esp Tunnel.
#[local] Open Scope string_scope.
#[local] Open Scope list_scope.
#[local] Open Scope Z_scope.

Module Threads.

Section Threads.
Context {C : Crypto}.

(** ** The two halves of a call *)

(** [Decrypt] until the packet has passed: its number and what was in it. *)
Definition open_packet (sa : SecurityAssociation) (pkt : bytes) : res (Z * bytes) :=
  if IsAEAD (Suite sa) then
    match AEAD sa with None => Err "AEAD cipher not initialized" | Some aead => openAEAD sa aead pkt end
  else
    match CBCBlock sa, Integrity sa with
    | None, _ => Err "CBC block cipher not initialized"
    | _, None => Err "integrity algorithm not initialized"
    | Some block, Some integ => openCBC sa block integ pkt
    end.

Definition mark (sa : SecurityAssociation) (seq : Z) : SecurityAssociation := with_Window sa (window_advance (Window sa) seq).

(** What [Encrypt] looks at before it takes a number. *)
Definition ready (sa : SecurityAssociation) : bool :=
  if IsAEAD (Suite sa) then bool_decide (is_Some (AEAD sa)) else bool_decide (is_Some (CBCBlock sa)) && bool_decide (is_Some (Integrity sa)).

Definition take_number (sa : SecurityAssociation) : SecurityAssociation := with_SeqNum sa (next_seq sa).

(** [Encrypt] after the number. *)
Definition seal_packet (sa : SecurityAssociation) (newSeq : Z) (r : request) : res bytes :=
  if (newSeq >? 4294967295) && negb (ESN sa) then Err "sequence number overflow"
  else if IsAEAD (Suite sa) then
    match AEAD sa with None => Err "AEAD cipher not initialized" | Some aead => sealAEAD sa aead newSeq (rq_payload r) (rq_nh r) end
  else
    match CBCBlock sa, Integrity sa with
    | Some block, Some integ => sealCBC sa block integ (rq_rnd r) newSeq (rq_payload r) (rq_nh r)
    | None, _ => Err "CBC block cipher not initialized"
    | _, None => Err "integrity algorithm not initialized"
    end.

(** The halves in a row are the functions of the source. *)
Lemma Decrypt_halves sa pkt : Decrypt (Some sa) pkt =
  match open_packet sa pkt with
  | Ok (seq, plaintext) => (Some (mark sa seq), finish plaintext)
  | Err e => (Some sa, Err e)
  | Panic => (Some sa, Panic)
  end.
Proof.
  unfold Decrypt, open_packet, decryptAEAD, decryptCBC. destruct (IsAEAD (Suite sa)).
  - destruct (AEAD sa) as [aead|]; [|done]. by destruct (openAEAD sa aead pkt) as [[]| |].
  - destruct (CBCBlock sa) as [block|]; [|done]. destruct (Integrity sa) as [integ|]; [|done].
    by destruct (openCBC sa block integ pkt) as [[]| |].
Qed.

Lemma Encrypt_halves sa r : ready sa = true ->
  Encrypt (rq_rnd r) (Some sa) (rq_payload r) (rq_nh r) = (Some (take_number sa), seal_packet (take_number sa) (next_seq sa) r).
Proof.
  unfold Encrypt, ready, seal_packet, encryptAEAD, encryptCBC, take_number, next_seq. cbn [Suite AEAD CBCBlock Integrity ESN with_SeqNum].
  destruct (IsAEAD (Suite sa)).
  - intros [aead ->]%bool_decide_eq_true. by destruct (_ && _).
  - intros [[block ->]%bool_decide_eq_true [integ ->]%bool_decide_eq_true]%andb_true_iff. by destruct (_ && _).
Qed.

(** ** Goroutines *)

(** Between calls, or between the two halves of one. *)
Inductive thread := Idle | Opened (pkt : bytes) (seq : Z) (plaintext : bytes) | Numbered (n : Z) (r : request).

Inductive event :=
  | Took (n : Z)
  | Emitted (n : Z) (r : request) (pkt : bytes)
  | Accepted (seq : Z) (pkt : bytes) (outcome : res (option bytes * Z)).

Record world := mkWorld { sa : SecurityAssociation; threads : list thread; log : list event }.

Definition put (i : nat) (t : thread) (w : world) : list thread := <[i := t]> (threads w).

Inductive step (readers : nat) (w : world) : world -> Prop :=
  | step_open i pkt seq plaintext : (i < readers)%nat -> threads w !! i = Some Idle -> bytes_wf pkt ->
      open_packet (sa w) pkt = Ok (seq, plaintext) -> step readers w (mkWorld (sa w) (put i (Opened pkt seq plaintext) w) (log w))
  | step_refuse i pkt e : (i < readers)%nat -> threads w !! i = Some Idle -> open_packet (sa w) pkt = Err e -> step readers w w
  | step_mark i pkt seq plaintext : threads w !! i = Some (Opened pkt seq plaintext) ->
      step readers w (mkWorld (mark (sa w) seq) (put i Idle w) (Accepted seq pkt (finish plaintext) :: log w))
  | step_number i r : threads w !! i = Some Idle -> ready (sa w) = true ->
      step readers w (mkWorld (take_number (sa w)) (put i (Numbered (next_seq (sa w)) r) w) (Took (next_seq (sa w)) :: log w))
  | step_emit i n r pkt : threads w !! i = Some (Numbered n r) -> seal_packet (sa w) n r = Ok pkt ->
      step readers w (mkWorld (sa w) (put i Idle w) (Emitted n r pkt :: log w))
  | step_fail i n r e : threads w !! i = Some (Numbered n r) -> seal_packet (sa w) n r = Err e ->
      step readers w (mkWorld (sa w) (put i Idle w) (log w)).

(** The goroutines at the start. *)
Definition start (sa : SecurityAssociation) (n : nat) : world := mkWorld sa (replicate n Idle) [].

Definition accepted (w : world) : list Z := omap (fun e => match e with Accepted seq _ _ => Some seq | _ => None end) (log w).
Definition taken (w : world) : list Z := omap (fun e => match e with Took n => Some n | _ => None end) (log w).
Definition emissions (w : world) : list (Z * bytes) := omap (fun e => match e with Emitted n _ pkt => Some (n, pkt) | _ => None end) (log w).
Definition acceptances (w : world) : list (Z * bytes) := omap (fun e => match e with Accepted seq pkt _ => Some (seq, pkt) | _ => None end) (log w).
Definition opened (t : thread) : option Z := match t with Opened _ seq _ => Some seq | _ => None end.
Definition numbered (t : thread) : option Z := match t with Numbered n _ => Some n | _ => None end.

(** ** One goroutine changes *)

Lemma omap_insert {A} (f : thread -> option A) ts i t t' : ts !! i = Some t ->
  option_list (f t) ++ omap f (<[i := t']> ts) ≡ₚ option_list (f t') ++ omap f ts.
Proof.
  revert i. induction ts as [|x ts IH]; intros [|i] H; [done..| |].
  - injection H as ->. cbn. destruct (f t) as [a|], (f t') as [a'|]; cbn; [apply perm_swap|done..].
  - cbn in *. specialize (IH i H). destruct (f x) as [a|]; [|done]. rewrite <- !Permutation_middle. by rewrite IH.
Qed.

Lemma omap_insert_None {A} (f : thread -> option A) ts i t t' : ts !! i = Some t -> f t = None -> f t' = None ->
  omap f (<[i := t']> ts) ≡ₚ omap f ts.
Proof. intros H E E'. pose proof (omap_insert f ts i t t' H) as Hp. by rewrite E, E' in Hp. Qed.

Lemma omap_insert_add {A} (f : thread -> option A) ts i t t' a : ts !! i = Some t -> f t = None -> f t' = Some a ->
  omap f (<[i := t']> ts) ≡ₚ a :: omap f ts.
Proof. intros H E E'. pose proof (omap_insert f ts i t t' H) as Hp. by rewrite E, E' in Hp. Qed.

Lemma omap_insert_del {A} (f : thread -> option A) ts i t t' a : ts !! i = Some t -> f t = Some a -> f t' = None ->
  a :: omap f (<[i := t']> ts) ≡ₚ omap f ts.
Proof. intros H E E'. pose proof (omap_insert f ts i t t' H) as Hp. by rewrite E, E' in Hp. Qed.

Lemma opened_few readers ts : (forall i t, ts !! i = Some t -> is_Some (opened t) -> (i < readers)%nat) -> (length (omap opened ts) <= readers)%nat.
Proof.
  revert readers. induction ts as [|t ts IH]; intros readers H; cbn; [lia|]. destruct readers as [|readers].
  - assert (omap opened (t :: ts) = []) as E.
    { apply elem_of_nil_inv. intros x Hx. apply list_elem_of_omap in Hx as (t' & Ht & Hx). apply list_elem_of_lookup in Ht as [i Hi].
      specialize (H i t' Hi). rewrite Hx in H. assert (i < 0)%nat by by apply H. lia. }
    cbn in E. rewrite E. done.
  - specialize (IH readers). assert (length (omap opened ts) <= readers)%nat.
    { apply IH. intros i t' Hi Ht. specialize (H (S i) t' Hi Ht). lia. }
    destruct (opened t); cbn; lia.
Qed.

(** ** Receiving *)

Context {CL : CryptoLaws C}.

(** What passes has a number the window takes, and is authentic. *)
Lemma open_packet_ok a pkt seq plaintext : sa_ok a -> bytes_wf pkt -> open_packet a pkt = Ok (seq, plaintext) ->
  window_check (Window a) seq = true /\ is_u32 seq /\ authentic a pkt /\ seq = pkt_seq pkt.
Proof.
  intros Hok Hwf H. unfold open_packet in H. unfold authentic. destruct (IsAEAD (Suite a)) eqn:EA.
  - destruct (AEAD a) as [aead|] eqn:Ea; [|done]. pose proof (openAEAD_cases a aead pkt (sa_aead _ Hok EA ltac:(by rewrite Ea))) as Hc.
    rewrite H in Hc. destruct Hc as (-> & Hw & Ho). split_and!; [done|by apply pkt_seq_u32|by eauto|done].
  - destruct (CBCBlock a) as [block|] eqn:Eb; [|done]. destruct (Integrity a) as [integ|] eqn:Ei; [|done].
    destruct (sa_integ _ Hok _ Ei) as (s & k & Hi).
    pose proof (openCBC_cases a block integ pkt s k (sa_cbc _ Hok EA ltac:(by rewrite Eb)) Hi Hwf) as Hc. rewrite H in Hc.
    destruct Hc as (-> & Hw & _ & Ho). split_and!; [done|by apply pkt_seq_u32|by eauto|done].
Qed.

Lemma sa_ok_mark a seq : sa_ok a -> sa_ok (mark a seq).
Proof. intros []. by constructor. Qed.

Record receiving (readers : nat) (w : world) : Prop := {
  rv_ok : sa_ok (sa w);
  rv_window : exists rw, Window (sa w) = Some rw /\ Replay.tracks rw (accepted w);
  rv_range : Forall (fun seq => 0 < seq < 18446744073709551616) (omap opened (threads w));
  rv_readers i t : threads w !! i = Some t -> is_Some (opened t) -> (i < readers)%nat;
  rv_count seq : (times seq (accepted w) + times seq (omap opened (threads w)) <= readers)%nat
}.

(** The steps that neither open nor mark a packet. *)
Lemma receiving_other readers w sa' i t t' evs :
  receiving readers w -> sa_ok sa' -> Window sa' = Window (sa w) -> threads w !! i = Some t -> opened t = None -> opened t' = None ->
  omap (fun e => match e with Accepted seq _ _ => Some seq | _ => None end) evs = [] ->
  receiving readers (mkWorld sa' (put i t' w) (evs ++ log w)).
Proof.
  intros [Hok Hw Hr Hi Hc] Hok' Hw' Ht E E' Hev. assert (accepted (mkWorld sa' (put i t' w) (evs ++ log w)) = accepted w) as Ha.
  { unfold accepted. cbn [log]. by rewrite omap_app, Hev. }
  pose proof (omap_insert_None opened _ i t t' Ht E E') as Hp. constructor; cbn [sa threads]; rewrite ?Ha.
  - done.
  - by rewrite Hw'.
  - unfold put. by rewrite Hp.
  - intros j u Hj Hu. unfold put in Hj. destruct (decide (i = j)) as [->|Hne].
    + rewrite list_lookup_insert_eq in Hj by (by eapply lookup_lt_Some). injection Hj as <-. rewrite E' in Hu. by destruct Hu.
    + rewrite list_lookup_insert_ne in Hj by done. by eapply Hi.
  - intros seq. unfold put. rewrite (times_perm seq _ _ Hp). apply Hc.
Qed.

Lemma receiving_step readers w w' : receiving readers w -> step readers w w' -> receiving readers w'.
Proof.
  intros Hr Hs. pose proof Hr as [Hok (rw & Hw & Ht) Hrange Hi Hc]. destruct Hs as
    [i pkt seq pt Hir Hth Hwf Ho|i pkt e Hir Hth Ho|i pkt seq pt Hth|i r Hth Hrd|i n r pkt Hth Hse|i n r e Hth Hse].
  - destruct (open_packet_ok _ _ _ _ Hok Hwf Ho) as (Hck & [H0 H1] & _ & _). rewrite Hw in Hck.
    destruct (Replay.Check_fresh rw (accepted w) seq Ht ltac:(lia) Hck) as [Hne Hnew].
    pose proof (omap_insert_add opened _ i Idle (Opened pkt seq pt) seq Hth eq_refl eq_refl) as Hp.
    assert (forall j u, put i (Opened pkt seq pt) w !! j = Some u -> is_Some (opened u) -> (j < readers)%nat) as Hi'.
    { intros j u Hj Hu. unfold put in Hj. destruct (decide (i = j)) as [->|Hn]; [done|]. rewrite list_lookup_insert_ne in Hj by done. by eapply Hi. }
    constructor; cbn [sa threads]; [done|by exists rw|unfold put; rewrite Hp; constructor; [lia|done]|done|].
    intros x. change (accepted (mkWorld _ _ (log w))) with (accepted w). destruct (decide (x = seq)) as [->|Hn].
    + rewrite (times_0 seq (accepted w)) by done. etrans; [apply times_le|]. by apply opened_few.
    + unfold put. rewrite (times_perm x _ _ Hp), times_cons, decide_False by congruence. apply Hc.
  - done.
  - pose proof (omap_insert_del opened _ i (Opened pkt seq pt) Idle seq Hth eq_refl eq_refl) as Hp.
    assert (0 < seq < 18446744073709551616) as Hseq.
    { rewrite Forall_forall in Hrange. apply Hrange. rewrite <- Hp. left. }
    constructor; cbn [sa threads].
    + by apply sa_ok_mark.
    + unfold mark. cbn [Window with_Window]. rewrite Hw. exists (Replay.Advance rw seq). split; [done|]. by apply Replay.Advance_tracks.
    + unfold put. rewrite <- Hp in Hrange. by apply Forall_cons in Hrange as [_ ?].
    + intros j u Hj Hu. unfold put in Hj. destruct (decide (i = j)) as [->|Hn]; [|rewrite list_lookup_insert_ne in Hj by done; by eapply Hi].
      by eapply (Hi j).
    + intros x. specialize (Hc x). rewrite <- (times_perm x _ _ Hp), times_cons in Hc. unfold accepted in *. cbn [log]. cbn [omap list_omap].
      rewrite times_cons. unfold put. lia.
  - apply (receiving_other readers w _ i Idle (Numbered _ r) [Took _]); try done. by apply sa_ok_next.
  - by apply (receiving_other readers w _ i (Numbered n r) Idle [Emitted n r pkt]).
  - by apply (receiving_other readers w _ i (Numbered n r) Idle []).
Qed.

Lemma receiving_start a n readers rw : sa_ok a -> Window a = Some rw -> Replay.tracks rw [] -> receiving readers (start a n).
Proof.
  intros Hok Hw Ht. assert (omap opened (replicate n Idle) = []) as E by (by induction n).
  constructor; cbn [sa threads start]; [done|by exists rw|by rewrite E| |].
  - intros i t Hi Hs. apply lookup_replicate in Hi as [-> _]. by destruct Hs.
  - intros seq. rewrite E. cbn. lia.
Qed.

(** What is known of the SA, of the packets under way and of those accepted. *)
Definition good_thread (a : SecurityAssociation) (t : thread) : Prop :=
  match t with Opened pkt seq _ => authentic a pkt /\ seq = pkt_seq pkt | _ => True end.

Record honest (a : SecurityAssociation) (w : world) : Prop := {
  hn_same : same_sa (sa w) a;
  hn_threads : Forall (good_thread a) (threads w);
  hn_log : Forall (fun x => authentic a x.2 /\ x.1 = pkt_seq x.2) (acceptances w)
}.

Lemma authentic_same a b pkt : same_sa a b -> authentic a pkt -> authentic b pkt.
Proof. intros [_ _ (H1 & H2 & _ & H4 & H5)]. unfold authentic. by rewrite H1, H2, H4, H5. Qed.

Lemma same_sa_mark a b seq : same_sa a b -> same_sa (mark a seq) b.
Proof. intros [H1 H2 H3]. by constructor. Qed.

Lemma same_sa_take a b : same_sa a b -> same_sa (take_number a) b.
Proof. intros [H1 H2 H3]. by constructor. Qed.

Lemma honest_step readers a w w' : receiving readers w -> honest a w -> step readers w w' -> honest a w'.
Proof.
  intros [Hok _ _ _ _] [Hsame Hth Hlog] Hs. destruct Hs as
    [i pkt seq pt Hir Ht Hwf Ho|i pkt e Hir Ht Ho|i pkt seq pt Ht|i r Ht Hrd|i n r pkt Ht Hse|i n r e Ht Hse];
    [..|constructor; [done|by apply Forall_insert|done]].
  - destruct (open_packet_ok _ _ _ _ Hok Hwf Ho) as (_ & _ & Ha & Hq). constructor; [done| |done].
    apply Forall_insert; [done|]. split; [by eapply authentic_same|done].
  - done.
  - constructor; [by apply same_sa_mark|by apply Forall_insert|]. unfold acceptances. cbn. constructor; [|done].
    rewrite Forall_lookup in Hth. apply (Hth _ _ Ht).
  - constructor; [by apply same_sa_take|by apply Forall_insert|done].
  - constructor; [done|by apply Forall_insert|done].
Qed.

Lemma reachable_receiving readers a n rw w : sa_ok a -> Window a = Some rw -> Replay.tracks rw [] -> star (step readers) (start a n) w ->
  receiving readers w /\ honest a w.
Proof.
  intros Hok Hw Ht. apply (star_invariant (step readers) (fun w => receiving readers w /\ honest a w)).
  - intros w1 w2 [H1 H2] Hs. split; [by eapply receiving_step|by eapply honest_step].
  - split; [by eapply receiving_start|]. constructor; [by repeat split|by apply Forall_replicate|constructor].
Qed.

(** ** Sending *)

Definition taken_count (w : world) : Z := len (taken w).

(** The numbers given out, to goroutines that have not sent yet and to packets. *)
Definition in_use (w : world) : list Z := omap numbered (threads w) ++ (emissions w).*1.

Record sending (a : SecurityAssociation) (w : world) : Prop := {
  sd_ok : sa_ok (sa w);
  sd_same : same_sa (sa w) a;
  sd_emitted : Forall (fun x => (ESN a = false -> x.1 <= 4294967295) /\ (IsAEAD (Suite a) = true -> sub x.2 8 16 = SequenceToIV x.1)) (emissions w);
  sd_seq : taken_count w < 18446744073709551616 -> SeqNum (sa w) = taken_count w;
  sd_range : taken_count w < 18446744073709551616 -> Forall (fun n => 1 <= n <= taken_count w) (in_use w);
  sd_nodup : taken_count w < 18446744073709551616 -> NoDup (in_use w)
}.

Lemma seal_packet_ok a n r pkt : sa_ok a -> seal_packet a n r = Ok pkt ->
  (ESN a = false -> n <= 4294967295) /\ (IsAEAD (Suite a) = true -> sub pkt 8 16 = SequenceToIV n).
Proof.
  intros Hok H. unfold seal_packet in H. destruct ((n >? 4294967295) && negb (ESN a)) eqn:Eo; [done|]. split.
  - intros He. rewrite He, andb_true_r in Eo. lia.
  - intros HA. rewrite HA in H. destruct (AEAD a) as [aead|] eqn:Ea; [|done].
    rewrite sealAEAD_ok in H by (apply (sa_aead _ Hok HA); by rewrite Ea). by injection H as <-.
Qed.

(** A step that takes no number: what is in use is a part of what was. *)
Lemma sending_keep a w sa' ts evs : sending a w -> sa_ok sa' -> same_sa sa' a -> SeqNum sa' = SeqNum (sa w) -> taken (mkWorld sa' ts evs) = taken w ->
  Forall (fun x => (ESN a = false -> x.1 <= 4294967295) /\ (IsAEAD (Suite a) = true -> sub x.2 8 16 = SequenceToIV x.1)) (emissions (mkWorld sa' ts evs)) ->
  in_use (mkWorld sa' ts evs) ⊆+ in_use w -> sending a (mkWorld sa' ts evs).
Proof.
  intros [_ _ _ Hq Hr Hn] Hok Hsame Hseq Ht He Hu. unfold taken_count in *. constructor; unfold taken_count; cbn [sa]; rewrite ?Ht; [done..| | |].
  - intros H. rewrite Hseq. by apply Hq.
  - intros H. specialize (Hr H). rewrite Forall_forall in Hr |- *. intros n Hi. apply Hr. by eapply elem_of_submseteq.
  - intros H. specialize (Hn H). apply submseteq_Permutation in Hu as [k Hk]. rewrite Hk in Hn. apply NoDup_app in Hn as [Hn _]. exact Hn.
Qed.

Lemma sending_step readers a w w' : sending a w -> step readers w w' -> sending a w'.
Proof.
  intros Hs Hst. pose proof Hs as [Hok Hsame Hem Hq Hr Hn]. destruct Hst as
    [i pkt seq pt Hir Ht Hwf Ho|i pkt e Hir Ht Ho|i pkt seq pt Ht|i r Ht Hrd|i n r pkt Ht Hse|i n r e Ht Hse].
  - apply (sending_keep a w); try done. unfold in_use, put. cbn [threads log emissions].
    by rewrite (omap_insert_None numbered _ i Idle (Opened pkt seq pt) Ht eq_refl eq_refl).
  - done.
  - apply (sending_keep a w); try done; [by apply sa_ok_mark|by apply same_sa_mark|]. unfold in_use, put. cbn [threads log emissions].
    by rewrite (omap_insert_None numbered _ i (Opened pkt seq pt) Idle Ht eq_refl eq_refl).
  - pose proof (omap_insert_add numbered _ i Idle (Numbered (next_seq (sa w)) r) _ Ht eq_refl eq_refl) as Hp.
    set (w' := mkWorld (take_number (sa w)) (put i (Numbered (next_seq (sa w)) r) w) (Took (next_seq (sa w)) :: log w)).
    assert (taken_count w' = taken_count w + 1) as Hc by (unfold taken_count, taken, len; cbn; lia).
    assert (in_use w' ≡ₚ next_seq (sa w) :: in_use w) as Hu by (unfold in_use, put; cbn [threads w']; rewrite Hp; done).
    assert (taken_count w' < 18446744073709551616 -> next_seq (sa w) = taken_count w') as Hnext.
    { intros H. unfold next_seq. rewrite Hq, Hc by lia. apply u64_id. unfold is_u64, taken_count in *. pose proof (len_nonneg (taken w)). lia. }
    constructor; [by apply sa_ok_next|by apply same_sa_take|done|..].
    + exact Hnext.
    + intros H. rewrite Hu. specialize (Hr ltac:(lia)). constructor; [rewrite (Hnext H); unfold taken_count; pose proof (len_nonneg (taken w)); unfold taken_count in Hc; lia|].
      eapply Forall_impl; [exact Hr|]. cbn. lia.
    + intros H. rewrite Hu. constructor; [|apply Hn; lia]. specialize (Hr ltac:(lia)). rewrite Forall_forall in Hr. intros Hi. specialize (Hr _ Hi).
      rewrite (Hnext H) in Hr. lia.
  - destruct (seal_packet_ok _ _ _ _ Hok Hse) as [H1 H2]. destruct (Hsame) as [_ HE (HS & _)].
    pose proof (omap_insert_del numbered _ i (Numbered n r) Idle n Ht eq_refl eq_refl) as Hp. apply (sending_keep a w); try done.
    + unfold emissions. cbn. constructor; [|done]. cbn. by rewrite <- HE, <- HS.
    + unfold in_use, put. change (emissions (mkWorld (sa w) _ _)) with ((n, pkt) :: emissions w). cbn [threads fmap list_fmap fst].
      rewrite <- Permutation_middle, app_comm_cons. by rewrite Hp.
  - pose proof (omap_insert_del numbered _ i (Numbered n r) Idle n Ht eq_refl eq_refl) as Hp. apply (sending_keep a w); try done.
    unfold in_use, put. cbn [threads log]. rewrite <- Hp. by apply submseteq_cons.
Qed.

Lemma sending_start a n : sa_ok a -> SeqNum a = 0 -> sending a (start a n).
Proof.
  intros Hok H0. assert (in_use (start a n) = []) as E by (unfold in_use; cbn; rewrite app_nil_r; by induction n).
  constructor; [done|by repeat split|constructor|done|rewrite E; constructor..].
Qed.

(** ** Schedules *)

Inductive action := Open_ (i : nat) (pkt : bytes) | Mark (i : nat) | Number (i : nat) (r : request) | Send (i : nat).

(** What the next half of a call does, when there is one and it succeeds. *)
Definition act (readers : nat) (w : world) (x : action) : option world :=
  match x with
  | Open_ i pkt =>
    match threads w !! i, open_packet (sa w) pkt with
    | Some Idle, Ok (seq, plaintext) =>
      if Nat.ltb i readers && bool_decide (bytes_wf pkt) then Some (mkWorld (sa w) (put i (Opened pkt seq plaintext) w) (log w)) else None
    | _, _ => None
    end
  | Mark i =>
    match threads w !! i with
    | Some (Opened pkt seq plaintext) => Some (mkWorld (mark (sa w) seq) (put i Idle w) (Accepted seq pkt (finish plaintext) :: log w))
    | _ => None
    end
  | Number i r =>
    match threads w !! i with
    | Some Idle =>
      if ready (sa w) then Some (mkWorld (take_number (sa w)) (put i (Numbered (next_seq (sa w)) r) w) (Took (next_seq (sa w)) :: log w)) else None
    | _ => None
    end
  | Send i =>
    match threads w !! i with
    | Some (Numbered n r) =>
      match seal_packet (sa w) n r with Ok pkt => Some (mkWorld (sa w) (put i Idle w) (Emitted n r pkt :: log w)) | _ => None end
    | _ => None
    end
  end.

Fixpoint schedule (readers : nat) (w : world) (xs : list action) : option world :=
  match xs with [] => Some w | x :: xs => w ← act readers w x; schedule readers w xs end.

Lemma act_step readers w x w' : act readers w x = Some w' -> step readers w w'.
Proof.
  destruct x as [i pkt|i|i r|i]; cbn; destruct (threads w !! i) as [[|pkt' seq pt|n r']|] eqn:Ht; try done.
  - destruct (open_packet (sa w) pkt) as [[seq pt]| |] eqn:Ho; [|done..]. destruct (_ && _) eqn:Eb; [|done]. intros [= <-].
    apply andb_true_iff in Eb as [Hi%Nat.ltb_lt Hb%bool_decide_eq_true]. by eapply step_open.
  - intros [= <-]. by eapply step_mark.
  - destruct (ready (sa w)) eqn:Hr; [|done]. intros [= <-]. by apply step_number.
  - destruct (seal_packet (sa w) n r') as [pkt| |] eqn:Hs; [|done..]. intros [= <-]. by eapply step_emit.
Qed.

Lemma schedule_star readers w0 w xs w' : star (step readers) w0 w -> schedule readers w xs = Some w' -> star (step readers) w0 w'.
Proof.
  revert w. induction xs as [|x xs IH]; intros w Hw H; cbn in H; [by injection H as <-|].
  destruct (act readers w x) as [w1|] eqn:E; [|done]. apply (IH w1); [|done]. eapply star_snoc; [exact Hw|by apply act_step in E].
Qed.

(** ** Properties *)

(** C31: However the steps of the goroutines interleave: what is accepted is authentic; a packet
    that passes after its number was accepted there is none; no number is accepted more
    often than there are goroutines that receive, so with one, as in the daemon, never
    twice. *)
Theorem threads_accept a sz n readers w :
  sa_ok a -> Window a = Some (Replay.NewReplayWindow sz) -> 0 <= sz -> sz + 63 < 4294967296 ->
  star (step readers) (start a n) w ->
  (forall seq pkt, (seq, pkt) ∈ acceptances w -> authentic a pkt /\ seq = pkt_seq pkt) /\
  (forall pkt seq plaintext, bytes_wf pkt -> open_packet (sa w) pkt = Ok (seq, plaintext) -> seq ∉ accepted w) /\
  (forall seq, (times seq (accepted w) <= readers)%nat) /\
  (readers = 1%nat -> NoDup (accepted w)).
Proof.
  intros Hok Hw H0 H1 Hst.
  destruct (reachable_receiving readers a n _ w Hok Hw (Replay.New_tracks sz H0 H1) Hst) as [[Hok' (rw & Hw' & Ht) _ _ Hc] [_ _ Hlog]].
  split_and!.
  - intros seq pkt Hi. rewrite Forall_forall in Hlog. exact (Hlog (seq, pkt) Hi).
  - intros pkt seq pt Hwf Ho. destruct (open_packet_ok _ _ _ _ Hok' Hwf Ho) as (Hck & [Hs _] & _). rewrite Hw' in Hck.
    by destruct (Replay.Check_fresh rw (accepted w) seq Ht Hs Hck).
  - intros seq. specialize (Hc seq). lia.
  - intros ->. apply times_NoDup. intros seq. specialize (Hc seq). lia.
Qed.

(** C38: However the calls of any number of goroutines interleave, fewer than 2^64 of them: no
    counter is used twice, hence no AEAD SA uses a nonce twice (the bytes 8 to 16 of a packet
    are the part of it that varies), and without ESN no counter exceeds 32 bits. *)
Theorem threads_never_reuse a n readers w :
  sa_ok a -> SeqNum a = 0 -> star (step readers) (start a n) w -> taken_count w < 18446744073709551616 ->
  NoDup (emissions w).*1 /\
  (IsAEAD (Suite a) = true -> NoDup ((fun x => sub x.2 8 16) <$> emissions w)) /\
  (ESN a = false -> Forall (fun n => 1 <= n <= 4294967295) (emissions w).*1).
Proof.
  intros Hok H0 Hst Hlt.
  assert (sending a w) as [_ _ Hem _ Hr Hn].
  { eapply (star_invariant (step readers) (sending a)); [intros; by eapply sending_step|by apply sending_start|exact Hst]. }
  specialize (Hr Hlt). specialize (Hn Hlt). unfold in_use in *. apply Forall_app in Hr as [_ Hr]. apply NoDup_app in Hn as (_ & _ & Hn).
  rewrite Forall_fmap in Hr. split_and!; [done| |].
  - intros HA. assert ((fun x => sub x.2 8 16) <$> emissions w = SequenceToIV <$> (emissions w).*1) as ->.
    { rewrite <- list_fmap_compose. apply list_fmap_ext. intros i x Hi. rewrite Forall_lookup in Hem. by apply (Hem i x Hi). }
    apply NoDup_fmap_2_strong; [|done]. intros x y (u & -> & Hu)%list_elem_of_fmap (v & -> & Hv)%list_elem_of_fmap.
    rewrite Forall_forall in Hr. pose proof (Hr u Hu). pose proof (Hr v Hv). cbn in *. apply SequenceToIV_inj; unfold is_u64; lia.
  - intros HE. apply Forall_fmap, Forall_forall. intros x Hx. rewrite Forall_forall in Hem, Hr.
    pose proof (proj1 (Hem x Hx) HE). pose proof (Hr x Hx). cbn in *. lia.
Qed.

End Threads.

(** ** Runs *)

Import Toy.

Definition demo_request : request := mkRequest None [69; 0; 17] 4.

(** Two senders take their numbers before either sends. *)
Definition demo_sends : option world := schedule 0 (start demo_sa 2) [Number 0 demo_request; Number 1 demo_request; Send 1; Send 0].

Definition demo_packet : bytes := match seal_packet (take_number demo_sa) 1 demo_request with Ok pkt => pkt | _ => [] end.

(** With two receivers a packet that arrives twice is accepted twice, when the second asks the
    window before the first has marked it. *)
Example accepted_twice :
  accepted <$> schedule 2 (start demo_sa 2) [Open_ 0 demo_packet; Open_ 1 demo_packet; Mark 0; Mark 1] = Some [1; 1].
Proof. vm_compute. reflexivity. Qed.

Definition demo_receives : option world := schedule 1 (start demo_sa 1) [Open_ 0 demo_packet; Mark 0].

Lemma threads_accept_witness : exists w, demo_receives = Some w /\ accepted w = [1] /\ NoDup (accepted w).
Proof.
  destruct demo_receives as [w|] eqn:E; [|vm_compute in E; discriminate E]. exists w. split; [reflexivity|].
  unfold demo_receives in E. split.
  - vm_compute in E. injection E as <-. reflexivity.
  - apply (schedule_star 1 (start demo_sa 1)) in E; [|apply star_refl].
    exact (proj2 (proj2 (proj2 (threads_accept demo_sa _ 1 1 w demo_sa_ok eq_refl ltac:(discriminate) ltac:(reflexivity) E))) eq_refl).
Defined.

Lemma threads_never_reuse_witness : exists w, demo_sends = Some w /\ (emissions w).*1 = [1; 2] /\ NoDup ((fun x => sub x.2 8 16) <$> emissions w).
Proof.
  destruct demo_sends as [w|] eqn:E; [|vm_compute in E; discriminate E]. exists w. split; [reflexivity|].
  unfold demo_sends in E. assert ((emissions w).*1 = [1; 2] /\ taken_count w < 18446744073709551616) as [H1 H2].
  { vm_compute in E. injection E as <-. split; reflexivity. }
  split; [exact H1|]. apply (schedule_star 0 (start demo_sa 2)) in E; [|apply star_refl].
  exact (proj1 (proj2 (threads_never_reuse demo_sa 2 0 w demo_sa_ok eq_refl E H2)) eq_refl).
Defined.

End Threads.
