(* ===== verification/EspSA.v ===== *)
(** * EspSA: the security association database ([internal/esp/sa.go])

    An SA is shared by pointer between the database, the security policy table and
    the packets in flight, so SAs live in a store and the database keeps locations.
    The database's mutex makes each method atomic. *)

From S2P Require Import Prelude Net Replay EspCipher EspPacket.
Import Cipher Esp.
Open Scope string_scope.
Open Scope list_scope.
Open Scope Z_scope.

Module SADB.

(** Pointers to SAs, and the store they point into. *)
Abbreviation loc := nat.
Abbreviation store := (gmap loc SecurityAssociation).

Record SADatabase := mkDB {
  bySPI : gmap Z loc;              (* map[uint32]*SecurityAssociation *)
  outbound : list loc
}.

Definition NewSADatabase : SADatabase := mkDB ∅ [].

(** [rnd k] is what the [k]-th [rand.Read] of 4 bytes yields.  [None] is the loop
    still running when the fuel is spent. *)
Fixpoint GenerateSPI_loop (fuel k : nat) (rnd : nat -> option bytes) : option (res Z) :=
  match fuel with
  | O => None
  | S fuel =>
    match rnd k with
    | None => Some (Err "generating random SPI")
    | Some buf =>
      match be32 buf with
      | Ok spi => if spi >? 255 then Some (Ok spi) else GenerateSPI_loop fuel (S k) rnd
      | Err e => Some (Err e)
      | Panic => Some Panic
      end
    end
  end.

Definition GenerateSPI (fuel : nat) (rnd : nat -> option bytes) : option (res Z) :=
  GenerateSPI_loop fuel 0 rnd.

(** A nil pointer is [None]; a live pointer always points into the store. *)
Definition AddInbound (st : store) (db : SADatabase) (p : option loc) : SADatabase * res unit :=
  match p with
  | None => (db, Err "cannot add nil security association")
  | Some l =>
    match st !! l with
    | None => (db, Panic)
    | Some sa =>
      if SPI sa =? 0 then (db, Err "SPI 0 is reserved for local use (RFC 4303 2.1)")
      else if SPI sa <=? 255 then (db, Err "SPI is in IANA reserved range 1-255 (RFC 4303 2.1)")
      else match bySPI db !! SPI sa with
           | Some _ => (db, Err "inbound SA already exists")
           | None => (mkDB (<[SPI sa := l]> (bySPI db)) (outbound db), Ok tt)
           end
    end
  end.

Definition AddOutbound (db : SADatabase) (p : option loc) : SADatabase * res unit :=
  match p with
  | None => (db, Err "cannot add nil security association")
  | Some l => (mkDB (bySPI db) (outbound db ++ [l]), Ok tt)
  end.

Definition LookupBySPI (db : SADatabase) (spi : Z) : option loc := bySPI db !! spi.

Definition OutboundSAs (db : SADatabase) : list loc := outbound db.

Definition RemoveInbound (db : SADatabase) (spi : Z) : SADatabase :=
  match bySPI db !! spi with
  | Some _ => mkDB (delete spi (bySPI db)) (outbound db)
  | None => db
  end.

(** [append(outbound[:i], outbound[i+1:]...)] at the first [i] with this SPI. *)
Fixpoint remove_first (st : store) (spi : Z) (ls : list loc) : list loc :=
  match ls with
  | [] => []
  | l :: ls =>
    match st !! l with
    | Some sa => if SPI sa =? spi then ls else l :: remove_first st spi ls
    | None => l :: remove_first st spi ls
    end
  end.

Definition RemoveOutbound (st : store) (db : SADatabase) (spi : Z) : SADatabase :=
  mkDB (bySPI db) (remove_first st spi (outbound db)).

Definition InboundCount (db : SADatabase) : Z := Z.of_nat (base.size (bySPI db)).
Definition OutboundCount (db : SADatabase) : Z := len (outbound db).

(** ** Invariant and properties *)

(** Every inbound entry is filed under the SPI of the SA it points to, outside the
    reserved range; every outbound entry is live. *)
Record db_ok (st : store) (db : SADatabase) : Prop := {
  ok_in spi l : bySPI db !! spi = Some l ->
    exists sa, st !! l = Some sa /\ SPI sa = spi /\ 255 < spi;
  ok_out l : l ∈ outbound db -> is_Some (st !! l)
}.

(** The store may grow and its SAs may change, but not their SPI. *)
Definition store_le (st st' : store) : Prop :=
  forall l sa, st !! l = Some sa -> exists sa', st' !! l = Some sa' /\ SPI sa' = SPI sa.

Lemma store_le_refl st : store_le st st.
Proof. intros l sa H. eauto. Qed.

Lemma store_le_insert st l sa sa' :
  st !! l = Some sa -> SPI sa' = SPI sa -> store_le st (<[l := sa']> st).
Proof.
  intros Hl Hs k s Hk. destruct (decide (k = l)) as [->|Hne].
  - exists sa'. rewrite lookup_insert_eq. split; congruence.
  - exists s. by rewrite lookup_insert_ne.
Qed.

Lemma store_le_fresh st l sa : st !! l = None -> store_le st (<[l := sa]> st).
Proof.
  intros Hl k s Hk. destruct (decide (k = l)) as [->|Hne]; [congruence|].
  exists s. by rewrite lookup_insert_ne.
Qed.

Lemma db_ok_store_le st st' db : store_le st st' -> db_ok st db -> db_ok st' db.
Proof.
  intros Hle [Hi Ho]. constructor.
  - intros spi l Hl. destruct (Hi spi l Hl) as (sa & Hsa & <- & ?).
    destruct (Hle l sa Hsa) as (sa' & ? & ?). eauto.
  - intros l Hl. destruct (Ho l Hl) as [sa Hsa]. destruct (Hle l sa Hsa) as (sa' & ? & _). eauto.
Qed.
#[export] Hint Resolve store_le_refl db_ok_store_le : go.

Lemma New_ok st : db_ok st NewSADatabase.
Proof.
  constructor; cbn.
  - intros spi l. by rewrite lookup_empty.
  - by intros l ?%not_elem_of_nil.
Qed.

Lemma AddInbound_ok st db p : db_ok st db -> db_ok st (AddInbound st db p).1.
Proof.
  intros [Hi Ho]. unfold AddInbound. repeat case_match; cbn; try by constructor.
  constructor; cbn; [|done]. intros spi l' Hl.
  destruct (decide (spi = SPI s)) as [->|Hne].
  - rewrite lookup_insert_eq in Hl. simplify_eq. exists s. split_and!; [done|done|lia].
  - rewrite lookup_insert_ne in Hl by done. by apply Hi.
Qed.

Lemma AddOutbound_ok st db p :
  (forall l, p = Some l -> is_Some (st !! l)) -> db_ok st db -> db_ok st (AddOutbound db p).1.
Proof.
  intros Hp [Hi Ho]. destruct p as [l|]; [|by constructor]. constructor; cbn; [done|].
  intros k [Hk| ->%list_elem_of_singleton]%elem_of_app; [by apply Ho|by apply Hp].
Qed.

Lemma RemoveInbound_ok st db spi : db_ok st db -> db_ok st (RemoveInbound db spi).
Proof.
  intros [Hi Ho]. unfold RemoveInbound. case_match; [|by constructor].
  constructor; cbn; [|done]. intros s l [_ Hl]%lookup_delete_Some. by apply Hi.
Qed.

Lemma remove_first_subset st spi ls l : l ∈ remove_first st spi ls -> l ∈ ls.
Proof.
  induction ls as [|k ls IH]; cbn; [done|].
  repeat case_match; rewrite ?elem_of_cons; intuition.
Qed.

Lemma RemoveOutbound_ok st db spi : db_ok st db -> db_ok st (RemoveOutbound st db spi).
Proof.
  intros [Hi Ho]. constructor; cbn; [done|]. intros l Hl. eapply Ho, remove_first_subset, Hl.
Qed.

(** [AddInbound] accepts an SA exactly when it is not nil, its SPI is outside
    the reserved range 0-255 and no inbound SA has it; it then makes
    [LookupBySPI] find this SA under its SPI, changes no other entry and counts
    one more; a refusal changes nothing. *)
Theorem AddInbound_correct st db p sa :
  db_ok st db -> (forall l, p = Some l -> st !! l = Some sa) ->
  match AddInbound st db p with
  | (db', Ok _) => exists l, p = Some l /\ 255 < SPI sa /\ LookupBySPI db (SPI sa) = None /\
      LookupBySPI db' (SPI sa) = Some l /\
      (forall spi, spi <> SPI sa -> LookupBySPI db' spi = LookupBySPI db spi) /\
      InboundCount db' = InboundCount db + 1 /\ OutboundSAs db' = OutboundSAs db /\ db_ok st db'
  | (db', Err _) => db' = db /\
      (p = None \/ SPI sa <= 255 \/ is_Some (LookupBySPI db (SPI sa)))
  | (_, Panic) => False
  end.
Proof.
  intros Hok Hp. pose proof (AddInbound_ok st db p Hok) as Hok'. revert Hok'.
  unfold AddInbound, LookupBySPI. destruct p as [l|]; [|by auto].
  rewrite (Hp l eq_refl).
  destruct (SPI sa =? 0) eqn:E0; [intros _; split; [done|right; left; lia]|].
  destruct (SPI sa <=? 255) eqn:E1; [intros _; split; [done|right; left; lia]|].
  destruct (bySPI db !! SPI sa) eqn:E2; [intros _; split; [done|right; right; by eexists]|].
  cbn. intros Hok'. exists l. split_and!; [done|lia|done| | | |done|done].
  - by rewrite lookup_insert_eq.
  - intros spi Hne. by rewrite lookup_insert_ne.
  - unfold InboundCount; cbn. rewrite map_size_insert_None by done. lia.
Qed.

Lemma GenerateSPI_loop_spec fuel k rnd n buf spi :
  rnd (k + n)%nat = Some buf -> be32 buf = Ok spi -> 255 < spi -> (n < fuel)%nat ->
  (forall j, (j < n)%nat -> exists b s, rnd (k + j)%nat = Some b /\ be32 b = Ok s /\ s <= 255) ->
  GenerateSPI_loop fuel k rnd = Some (Ok spi).
Proof.
  revert k n; induction fuel as [|fuel IH]; intros k n Hr Hb Hs Hn Hj; [lia|].
  cbn [GenerateSPI_loop]. destruct n as [|n].
  - rewrite Nat.add_0_r in Hr. rewrite Hr, Hb. by destruct (Z.gtb_spec spi 255); [|lia].
  - destruct (Hj O ltac:(lia)) as (b & s & H1 & H2 & H3). rewrite Nat.add_0_r in H1.
    rewrite H1, H2. destruct (Z.gtb_spec s 255); [lia|].
    apply (IH (S k) n); [by replace (S k + n)%nat with (k + S n)%nat by lia|done|done|lia|].
    intros j Hlt. replace (S k + j)%nat with (k + S j)%nat by lia. apply Hj. lia.
Qed.

Lemma GenerateSPI_loop_range fuel k rnd spi :
  (forall k b, rnd k = Some b -> bytes_wf b) ->
  GenerateSPI_loop fuel k rnd = Some (Ok spi) -> 255 < spi < 4294967296.
Proof.
  intros Hwf. revert k; induction fuel as [|fuel IH]; intros k; cbn [GenerateSPI_loop]; [done|].
  destruct (rnd k) as [b|] eqn:Er; [|done]. destruct (be32 b) as [s|e|] eqn:Eb; [|done..].
  destruct (Z.gtb_spec s 255); [|apply IH]. intros [= <-].
  pose proof (be32_u32 _ _ (Hwf _ _ Er) Eb) as [? ?]. lia.
Qed.

(** C40: [GenerateSPI] ends as soon as the random source yields a value outside
    the reserved range, with that value; an SPI it returns is a 32-bit number above
    255, so [AddInbound] can only refuse it as a duplicate. *)
Theorem GenerateSPI_correct rnd :
  (forall k b, rnd k = Some b -> bytes_wf b) ->
  (forall n buf spi fuel, rnd n = Some buf -> be32 buf = Ok spi -> 255 < spi ->
     (forall j, (j < n)%nat -> exists b s, rnd j = Some b /\ be32 b = Ok s /\ s <= 255) ->
     (n < fuel)%nat -> GenerateSPI fuel rnd = Some (Ok spi)) /\
  (forall fuel spi, GenerateSPI fuel rnd = Some (Ok spi) -> 255 < spi < 4294967296).
Proof.
  intros Hwf. split.
  - intros n buf spi fuel Hr Hb Hs Hj Hf. by apply (GenerateSPI_loop_spec fuel 0 rnd n buf).
  - intros fuel spi. by apply GenerateSPI_loop_range.
Qed.

(** ** Witnesses *)

Definition demo_store : store := <[0%nat := demo_sa]> (<[1%nat := demo_cbc]> ∅).

Lemma AddInbound_correct_witness :
  AddInbound demo_store NewSADatabase (Some 0%nat) = (mkDB {[4096 := 0%nat]} [], Ok tt) /\
  InboundCount (mkDB {[4096 := 0%nat]} []) = 1.
Proof.
  pose proof (New_ok demo_store) as Hok.
  assert (forall l, Some 0%nat = Some l -> demo_store !! l = Some demo_sa) as Hl
    by (intros l [= <-]; reflexivity).
  assert (AddInbound demo_store NewSADatabase (Some 0%nat) = (mkDB {[4096 := 0%nat]} [], Ok tt)) as E
    by (vm_compute; reflexivity).
  split; [exact E|].
  pose proof (AddInbound_correct demo_store NewSADatabase (Some 0%nat) demo_sa Hok Hl) as H.
  rewrite E in H. destruct H as (l & _ & _ & _ & _ & _ & H & _). exact H.
Defined.

Definition demo_rnd (k : nat) : option bytes :=
  match k with O => Some [0; 0; 0; 200] | S O => Some [0; 0; 1; 7] | _ => None end.

Lemma GenerateSPI_correct_witness : GenerateSPI 5 demo_rnd = Some (Ok 263) /\ 255 < 263 < 4294967296.
Proof.
  assert (forall k b, demo_rnd k = Some b -> bytes_wf b) as Hwf.
  { intros [|[|k]] b [= <-]; by apply (bool_decide_unpack _). }
  destruct (GenerateSPI_correct demo_rnd Hwf) as [H1 H2].
  split; [|apply (H2 5%nat); reflexivity].
  apply (H1 1%nat [0; 0; 1; 7]); [reflexivity|reflexivity|lia| |lia].
  intros [|j] Hj; [|lia]. exists [0; 0; 0; 200], 200. split_and!; [reflexivity|reflexivity|lia].
Defined.

End SADB.
