(* ===== verification/EspNatt.v ===== *)
(** * EspNatt: NAT traversal demultiplexing ([internal/esp/natt.go])

    UDP port 4500 carries IKE (behind a marker of four zero bytes), ESP (whose
    first four bytes are the SPI) and one-byte keepalives. *)

From S2P Require Import Prelude Net Replay EspCipher EspPacket.
Import Cipher Esp.
Open Scope string_scope.
Open Scope list_scope.
Open Scope Z_scope.

Module Natt.

Definition NonESPMarkerLen : Z := 4.
Definition MinNATTESPPacketLen : Z := ESPHeaderLen + 1.

Inductive PacketType := PacketTypeESP | PacketTypeIKE | PacketTypeKeepalive.

#[global] Instance PacketType_eq_dec : EqDecision PacketType.
Proof. solve_decision. Defined.

Definition is_byte (buf : bytes) (i b : Z) : res bool :=
  x ← idx buf i; Ok (x =? b).

(** [a && b] where evaluating [b] may panic. *)
Definition and_then (a b : res bool) : res bool :=
  mbind (fun x : bool => if x then b else Ok false) a.

Definition IsNATTKeepalive (buf : bytes) : res bool :=
  and_then (Ok (len buf =? 1)) (is_byte buf 0 255).

Definition ClassifyNATT (buf : bytes) : res (PacketType * bytes) :=
  ka ← and_then (Ok (len buf =? 1)) (is_byte buf 0 255);
  if (ka : bool) then Ok (PacketTypeKeepalive, [])
  else if len buf <? NonESPMarkerLen then Err "NAT-T packet too short"
  else
    marker ← and_then (and_then (and_then (is_byte buf 0 0) (is_byte buf 1 0)) (is_byte buf 2 0))
               (is_byte buf 3 0);
    if (marker : bool) then
      ikePayload ← slice buf NonESPMarkerLen (len buf);
      Ok (PacketTypeIKE, ikePayload)
    else if len buf <? MinNATTESPPacketLen then Err "NAT-T ESP packet too short"
    else Ok (PacketTypeESP, buf).

Definition PrependNonESPMarker (ikePacket : bytes) : res bytes :=
  copy_at (make (NonESPMarkerLen + len ikePacket)) NonESPMarkerLen ikePacket.

Definition NATTKeepalivePacket : bytes := [255].

(** [SendTo] is the method of the [UDPSender] the caller passes. *)
Definition SendNATTKeepalive (sender : option (Z -> bytes -> UDPAddr -> res unit))
    (peerAddr : option UDPAddr) : res unit :=
  match sender, peerAddr with
  | Some SendTo, Some addr => SendTo 4500 NATTKeepalivePacket addr
  | _, _ => Err "NAT-T keepalive: sender or peer address is nil"
  end.

(** ** What the demultiplexer decides *)

Lemma ClassifyNATT_short buf :
  len buf < 4 ->
  ClassifyNATT buf = if bool_decide (buf = [255]) then Ok (PacketTypeKeepalive, [])
                     else Err "NAT-T packet too short".
Proof.
  intros Hl. unfold ClassifyNATT, NonESPMarkerLen.
  destruct buf as [|a [|b [|c [|d l]]]];
    try (rewrite bool_decide_eq_false_2 by congruence; reflexivity).
  - unfold and_then. destruct (Z.eqb_spec a 255) as [->|Hne]; [done|].
    rewrite bool_decide_eq_false_2 by congruence. change (len [a]) with 1.
    change (is_byte [a] 0 255) with (Ok (a =? 255)).
    by rewrite (proj2 (Z.eqb_neq a 255)).
  - len_norm. pose proof (len_nonneg l). lia.
Qed.

Lemma ClassifyNATT_spec a b c d l :
  ClassifyNATT (a :: b :: c :: d :: l) =
    if bool_decide (a = 0 /\ b = 0 /\ c = 0 /\ d = 0) then Ok (PacketTypeIKE, l)
    else if len l <? 5 then Err "NAT-T ESP packet too short"
    else Ok (PacketTypeESP, a :: b :: c :: d :: l).
Proof.
  unfold ClassifyNATT, NonESPMarkerLen, MinNATTESPPacketLen, ESPHeaderLen.
  pose proof (len_nonneg l).
  assert (len (a :: b :: c :: d :: l) = 4 + len l) as Hl by (len_norm; lia).
  rewrite Hl. rewrite (proj2 (Z.eqb_neq (4 + len l) 1)), (proj2 (Z.ltb_ge (4 + len l) 4)) by lia.
  change (and_then (Ok false) ?b) with (Ok false). rewrite bind_Ok. cbv iota.
  assert (and_then (and_then (and_then (is_byte (a :: b :: c :: d :: l) 0 0)
      (is_byte (a :: b :: c :: d :: l) 1 0)) (is_byte (a :: b :: c :: d :: l) 2 0))
      (is_byte (a :: b :: c :: d :: l) 3 0) =
    Ok (bool_decide (a = 0 /\ b = 0 /\ c = 0 /\ d = 0))) as ->.
  { change (is_byte (a :: b :: c :: d :: l) 0 0) with (Ok (a =? 0)).
    change (is_byte (a :: b :: c :: d :: l) 1 0) with (Ok (b =? 0)).
    change (is_byte (a :: b :: c :: d :: l) 2 0) with (Ok (c =? 0)).
    change (is_byte (a :: b :: c :: d :: l) 3 0) with (Ok (d =? 0)).
    destruct (Z.eqb_spec a 0), (Z.eqb_spec b 0), (Z.eqb_spec c 0), (Z.eqb_spec d 0); cbn;
      f_equal; symmetry; try (apply bool_decide_eq_true_2; tauto);
      apply bool_decide_eq_false_2; tauto. }
  rewrite bind_Ok. case_bool_decide.
  - change (a :: b :: c :: d :: l) with ([a; b; c; d] ++ l).
    by rewrite (slice_tail [a; b; c; d] l) by done.
  - destruct (Z.ltb_spec (len l) 5), (Z.ltb_spec (4 + len l) (8 + 1)); try lia; done.
Qed.

Lemma four_or_short {A} (l : list A) :
  len l < 4 \/ exists a b c d l', l = a :: b :: c :: d :: l'.
Proof. destruct l as [|a [|b [|c [|d l]]]]; eauto 10; left; len_norm; lia. Qed.

(** The three kinds of datagram, by their bytes. *)
Inductive natt_shape (buf : bytes) : PacketType -> bytes -> Prop :=
  | shape_keepalive : buf = NATTKeepalivePacket -> natt_shape buf PacketTypeKeepalive []
  | shape_ike ike : buf = [0; 0; 0; 0] ++ ike -> natt_shape buf PacketTypeIKE ike
  | shape_esp : take 4 buf <> [0; 0; 0; 0] -> MinNATTESPPacketLen <= len buf ->
      natt_shape buf PacketTypeESP buf.

Lemma ClassifyNATT_complete buf t payload :
  ClassifyNATT buf = Ok (t, payload) <-> natt_shape buf t payload.
Proof.
  destruct (four_or_short buf) as [Hs|(a & b & c & d & l & ->)].
  - rewrite ClassifyNATT_short by done. unfold MinNATTESPPacketLen in *. split.
    + case_bool_decide; intros [=]; subst. by constructor.
    + intros [-> |ike -> |_ Hl]; [done| |unfold MinNATTESPPacketLen, ESPHeaderLen in *; lia].
      len_norm. pose proof (len_nonneg ike). lia.
  - rewrite ClassifyNATT_spec. split.
    + case_bool_decide as Hz; [intros [= <- <-]; destruct_and!; subst; by apply shape_ike|].
      destruct (Z.ltb_spec (len l) 5); [done|]. intros [= <- <-]. apply shape_esp.
      * cbn. intros [=]. by apply Hz.
      * unfold MinNATTESPPacketLen, ESPHeaderLen. len_norm. lia.
    + intros [Hk |ike Hk |Hz Hl]; [done| |].
      * injection Hk as -> -> -> -> ->. done.
      * rewrite bool_decide_eq_false_2 by (cbn in Hz; intros (-> & -> & -> & ->); done).
        unfold MinNATTESPPacketLen, ESPHeaderLen in Hl. len_norm.
        destruct (Z.ltb_spec (len l) 5); [lia|done].
Qed.

Lemma ClassifyNATT_not_Panic buf : ClassifyNATT buf <> Panic.
Proof.
  destruct (four_or_short buf) as [Hs|(a & b & c & d & l & ->)].
  - rewrite ClassifyNATT_short by done. by case_bool_decide.
  - rewrite ClassifyNATT_spec. case_bool_decide; [done|]. by case_match.
Qed.

Lemma Prepend_ok ike : PrependNonESPMarker ike = Ok ([0; 0; 0; 0] ++ ike).
Proof.
  unfold PrependNonESPMarker, NonESPMarkerLen. pose proof (len_nonneg ike).
  rewrite make_app by lia.
  change (make 4) with [0; 0; 0; 0]. rewrite fill_copy by (len_norm; lia).
  rewrite make_0 by lia. by rewrite app_nil_r.
Qed.

(** A packet an SA emits is taken for ESP on port 4500. *)
Lemma classify_sent (C : Crypto) (CL : CryptoLaws C) sa rnd seq p nh pkt :
  is_u32 (SPI sa) -> SPI sa <> 0 -> good_rnd rnd -> sent_packet sa rnd seq p nh pkt ->
  ClassifyNATT pkt = Ok (PacketTypeESP, pkt).
Proof.
  intros Hspi Hnz Hrnd Hp. apply ClassifyNATT_complete. unfold is_u32 in Hspi.
  assert (exists rest, pkt = put32 (SPI sa) ++ put32 (low32 seq) ++ rest /\ 1 <= len rest)
    as (rest & -> & Hrest).
  { destruct Hp as [(_ & aead & _ & _ & ->)|(_ & _ & blk & ig & iv & icv & _ & _ & -> & _ & _ & ->)].
    - unfold aead_packet. rewrite <- app_assoc. eexists. split; [done|].
      rewrite len_app. pose proof (len_nonneg (Seal aead (Salt sa ++ SequenceToIV seq)
        (trailer p nh 4) (put32 (SPI sa) ++ put32 (low32 seq)))).
      change (len (SequenceToIV seq)) with 8. lia.
    - unfold cbc_body. rewrite <- !app_assoc. eexists. split; [done|].
      destruct (Hrnd _ eq_refl) as [Hiv _]. rewrite !len_app, Hiv.
      pose proof (len_nonneg icv). unfold len at 1. lia. }
  apply shape_esp.
  - rewrite take_app_length' by done. intros H.
    assert (be32 (put32 (SPI sa)) = Ok 0) as H0 by (by rewrite H).
    rewrite be32_put32_nil in H0 by done. congruence.
  - unfold MinNATTESPPacketLen, ESPHeaderLen. len_norm. lia.
Qed.

(** ** Properties *)

(** the port 4500 demultiplexer never panics, and it answers exactly by the
    shape of the datagram: a keepalive is the single byte 255, IKE is what follows
    four zero bytes, and anything else of at least nine bytes is ESP and is
    returned whole.  The three shapes exclude one another. *)
Theorem ClassifyNATT_correct buf :
  ClassifyNATT buf <> Panic /\
  (forall t payload, ClassifyNATT buf = Ok (t, payload) <-> natt_shape buf t payload) /\
  (forall t t' p p', natt_shape buf t p -> natt_shape buf t' p' -> t = t' /\ p = p') /\
  (IsNATTKeepalive buf = Ok true <-> natt_shape buf PacketTypeKeepalive []).
Proof.
  split_and!.
  - apply ClassifyNATT_not_Panic.
  - apply ClassifyNATT_complete.
  - intros t t' p p' H1%ClassifyNATT_complete H2%ClassifyNATT_complete. split; congruence.
  - rewrite <- ClassifyNATT_complete.
    destruct buf as [|a [|b l]].
    + done.
    + rewrite ClassifyNATT_short by (len_norm; lia). unfold IsNATTKeepalive, and_then.
      destruct (Z.eqb_spec a 255) as [->|Hne]; [done|].
      rewrite bool_decide_eq_false_2 by congruence. change (len [a]) with 1.
    change (is_byte [a] 0 255) with (Ok (a =? 255)).
      by rewrite (proj2 (Z.eqb_neq a 255)).
    + assert (IsNATTKeepalive (a :: b :: l) = Ok false) as ->.
      { unfold IsNATTKeepalive, and_then. len_norm. pose proof (len_nonneg l).
        rewrite (proj2 (Z.eqb_neq _ 1)) by lia. done. }
      split; [done|]. rewrite ClassifyNATT_complete. intros H; by inversion H.
Qed.

(** what this side sends on port 4500 is what the other side takes it for: an
    IKE message behind the marker comes back as IKE and unchanged, and every
    packet [Encrypt] emits for an SA with a usable SPI comes back as ESP, whole. *)
Theorem natt_roundtrip (C : Crypto) (CL : CryptoLaws C) ike rnd sa sa' p nh pkt :
  sa_ok sa -> SPI sa <> 0 -> good_rnd rnd -> Encrypt rnd (Some sa) p nh = (Some sa', Ok pkt) ->
  (exists m, PrependNonESPMarker ike = Ok m /\ ClassifyNATT m = Ok (PacketTypeIKE, ike)) /\
  ClassifyNATT pkt = Ok (PacketTypeESP, pkt) /\
  ClassifyNATT NATTKeepalivePacket = Ok (PacketTypeKeepalive, []).
Proof.
  intros Hok Hnz Hrnd He. split_and!; [| |done].
  - exists ([0; 0; 0; 0] ++ ike). split; [apply Prepend_ok|].
    by apply ClassifyNATT_complete, shape_ike.
  - destruct (Encrypt_inv _ _ _ _ _ _ Hok Hrnd He) as (_ & Hp & _).
    eapply (classify_sent C CL); [apply Hok|done|done|exact Hp].
Qed.

(** ** Witnesses *)

Lemma ClassifyNATT_correct_witness :
  ClassifyNATT [0; 0; 0; 0; 9] = Ok (PacketTypeIKE, [9]) /\ natt_shape [0; 0; 0; 0; 9] PacketTypeIKE [9].
Proof.
  destruct (ClassifyNATT_correct [0; 0; 0; 0; 9]) as (_ & H & _).
  split; [reflexivity|]. apply H. reflexivity.
Defined.

Lemma natt_roundtrip_witness :
  exists pkt, (Encrypt (C := Toy.toy) None (Some demo_sa) [69; 1] 4).2 = Ok pkt /\
    ClassifyNATT pkt = Ok (PacketTypeESP, pkt).
Proof.
  eexists. split; [vm_compute; reflexivity|].
  eapply (natt_roundtrip Toy.toy Toy.toy_laws [] None demo_sa (with_SeqNum demo_sa 1) [69; 1] 4).
  - exact demo_sa_ok.
  - cbn. lia.
  - by intros ?.
  - vm_compute. reflexivity.
Defined.

End Natt.
