(* ===== verification/EspPmtu.v ===== *)
(** * EspPmtu: path MTU ([internal/esp/pmtu.go])

    The per-peer MTU table, the overhead estimate that decides whether an inner
    packet fits, and the ICMP message that reports one that does not. *)

From stdpp Require Import pretty.
From S2P Require Import Prelude Net Replay EspCipher EspPacket.
Import Cipher Esp.
Open Scope string_scope.
Open Scope list_scope.
Open Scope Z_scope.

Module Pmtu.

Definition MinMTU : Z := 576.
Definition DefaultMTU : Z := 1280.

(** ** The table *)

Record PMTUManager := mkPMTU { defaultMTU : Z; byPeer : gmap string Z }.

Definition NewPMTUManager (def : Z) : PMTUManager :=
  mkPMTU (if def <? MinMTU then DefaultMTU else def) ∅.

Section Table.
(** [net.IP.String], the key of the table. *)
Variable IP_String : bytes -> string.

Definition GetMTU (m : PMTUManager) (peerIP : bytes) : Z :=
  match byPeer m !! IP_String peerIP with
  | Some mtu => mtu
  | None => defaultMTU m
  end.

Definition SetMTU (m : PMTUManager) (peerIP : bytes) (mtu : Z) : PMTUManager :=
  let mtu := if mtu <? MinMTU then MinMTU else mtu in
  mkPMTU (defaultMTU m) (<[IP_String peerIP := mtu]> (byPeer m)).
End Table.

Definition DefaultMTUValue (m : PMTUManager) : Z := defaultMTU m.

(** ** Sizes *)

Definition CalculateESPOverhead (suite : CipherSuite) (integSuite : IntegritySuite)
    (nattEncap : bool) : Z :=
  let overhead := ESPHeaderLen in
  let overhead :=
    if IsAEAD suite then
      let overhead := overhead + AEADIVSize suite in
      let overhead := overhead + 16 in
      overhead + (4 + 2)
    else
      let overhead := overhead + CBCIVSize suite in
      let overhead := overhead + (CBCBlockSize suite + 2) in
      overhead + IntegrityICVSize integSuite in
  if nattEncap then overhead + 28 else overhead.

Definition CheckPacketExceedsMTU (innerPacketLen pathMTU espOverhead : Z) : bool * Z :=
  let maxInnerSize := pathMTU - espOverhead in
  let maxInnerSize := if maxInnerSize <? 0 then 0 else maxInnerSize in
  if innerPacketLen >? maxInnerSize then (true, maxInnerSize) else (false, maxInnerSize).

Definition InnerMTUFromPath (pathMTU espOverhead : Z) : Z :=
  let innerMTU := pathMTU - espOverhead in
  let innerMTU := if innerMTU <? MinMTU then MinMTU else innerMTU in
  let innerMTU := if innerMTU >? 65535 then 65535 else innerMTU in
  u16 innerMTU.

Definition HasDFBit (packet : bytes) : res bool :=
  if len packet <? 7 then Ok false
  else
    b ← idx packet 6;
    Ok (negb (Z.land b 64 =? 0)).

(** ** Checksums *)

(** [for sum > 0xFFFF { sum = (sum & 0xFFFF) + (sum >> 16) }] *)
Fixpoint fold_carry (fuel : nat) (sum : Z) : Z :=
  match fuel with
  | O => sum
  | S fuel =>
    if sum >? 65535 then fold_carry fuel (u32 (Z.land sum 65535 + Z.shiftr sum 16)) else sum
  end.

(** A uint32 needs at most two rounds; see [fold_carry_done]. *)
Definition carry_fuel : nat := 3.

(** [^uint16(sum)] *)
Definition not16 (sum : Z) : Z := Z.lxor (u16 sum) 65535.

(** The summing loop of [icmpChecksum] from an even offset. *)
Fixpoint sum_words (data : bytes) (sum : Z) : Z :=
  match data with
  | a :: b :: rest => sum_words rest (u32 (sum + (a * 256 + b)))
  | [a] => u32 (sum + u32 (Z.shiftl a 8))
  | [] => sum
  end.

Definition icmpChecksum (data : bytes) : Z := not16 (fold_carry carry_fuel (sum_words data 0)).

(** The loop of [ipv4HeaderChecksum]: [i] is the offset of the list's head. *)
Fixpoint sum_header (i : Z) (header : bytes) (sum : Z) : Z :=
  match header with
  | a :: b :: rest =>
    sum_header (i + 2) rest (if i =? 10 then sum else u32 (sum + (a * 256 + b)))
  | _ => sum
  end.

Definition ipv4HeaderChecksum (header : bytes) : Z :=
  not16 (fold_carry carry_fuel (sum_header 0 header 0)).

(** ** ICMP *)

Definition buildIPv4ICMPPacket (originalPacket icmpPayload : bytes) : res bytes :=
  if len originalPacket <? 20 then Ok icmpPayload
  else
    let totalLen := 20 + len icmpPayload in
    pkt ← set_at (make totalLen) 0 69;
    pkt ← set_at pkt 1 0;
    pkt ← put16_at pkt 2 (u16 totalLen);
    pkt ← set_at pkt 8 64;
    pkt ← set_at pkt 9 1;
    src ← slice originalPacket 16 20;
    pkt ← copy_at pkt 12 src;
    dst ← slice originalPacket 12 16;
    pkt ← copy_at pkt 16 dst;
    pkt ← copy_at pkt 20 icmpPayload;
    header ← slice pkt 0 20;
    put16_at pkt 10 (ipv4HeaderChecksum header).

Definition BuildICMPFragNeeded (originalPacket : bytes) (nextHopMTU : Z) : res bytes :=
  let origLen := if len originalPacket >? 28 then 28 else len originalPacket in
  let icmpLen := 8 + origLen in
  icmp ← set_at (make icmpLen) 0 3;
  icmp ← set_at icmp 1 4;
  icmp ← put16_at icmp 6 nextHopMTU;
  orig ← slice originalPacket 0 origLen;
  icmp ← copy_at icmp 8 orig;
  icmp ← put16_at icmp 2 (icmpChecksum icmp);
  buildIPv4ICMPPacket originalPacket icmp.

(** ** Checksum lemmas *)

(** The one's complement sum of a uint32: its residue modulo 65535, with 65535
    for a non-zero multiple. *)
Definition ones_sum (s : Z) : Z := if s =? 0 then 0 else (s - 1) mod 65535 + 1.

Lemma land_65535 s : Z.land s 65535 = s mod 65536.
Proof. change 65535 with (Z.ones 16). by rewrite Z.land_ones by lia. Qed.

Lemma ones_sum_step s :
  is_u32 s -> 65535 < s -> ones_sum (s mod 65536 + s / 65536) = ones_sum s.
Proof.
  intros [? ?] ?. unfold ones_sum.
  rewrite !(proj2 (Z.eqb_neq _ 0)) by (Z.div_mod_to_equations; lia).
  f_equal. pose proof (Z.div_mod s 65536 ltac:(lia)) as Hd.
  replace (s mod 65536 + s / 65536 - 1) with (s - 1 + (- (s / 65536)) * 65535) by lia.
  by rewrite Z_mod_plus_full.
Qed.

Lemma ones_sum_small s : 0 <= s <= 65535 -> ones_sum s = s.
Proof.
  intros. unfold ones_sum. destruct (Z.eqb_spec s 0); [lia|]. rewrite Z.mod_small by lia. lia.
Qed.

Lemma fold_carry_done s : is_u32 s -> fold_carry carry_fuel s = ones_sum s.
Proof.
  intros Hs. unfold carry_fuel. cbn [fold_carry].
  assert (forall x, is_u32 x -> 65535 < x ->
    u32 (Z.land x 65535 + Z.shiftr x 16) = x mod 65536 + x / 65536) as Hstep.
  { intros x [? ?] ?. rewrite land_65535, Z.shiftr_div_pow2 by lia.
    change (2 ^ 16) with 65536. apply u32_id. unfold is_u32. Z.div_mod_to_equations; lia. }
  destruct (Z.gtb_spec s 65535); [|rewrite ones_sum_small; unfold is_u32 in Hs; lia].
  rewrite Hstep by (done || lia). rewrite <- (ones_sum_step s) by (done || lia).
  set (s1 := s mod 65536 + s / 65536).
  assert (0 <= s1 <= 131070) by (unfold s1, is_u32 in *; Z.div_mod_to_equations; lia).
  destruct (Z.gtb_spec s1 65535); [|rewrite ones_sum_small; lia].
  assert (is_u32 s1) by (unfold is_u32; lia).
  rewrite Hstep by (done || lia). rewrite <- (ones_sum_step s1) by (done || lia).
  set (s2 := s1 mod 65536 + s1 / 65536).
  assert (0 <= s2 <= 65535) by (unfold s2 in *; Z.div_mod_to_equations; lia).
  destruct (Z.gtb_spec s2 65535); [lia|]. by rewrite ones_sum_small.
Qed.

Lemma not16_spec x : is_u16 x -> not16 x = 65535 - x.
Proof.
  intros Hx. unfold not16. rewrite u16_id by done.
  assert (Z.lxor x 65535 = Z.land (Z.lnot x) (Z.ones 16)) as ->.
  { apply Z.bits_inj'. intros k Hk. change 65535 with (Z.ones 16).
    rewrite Z.lxor_spec, Z.land_spec, Z.lnot_spec by done.
    destruct (decide (k < 16)).
    - rewrite Z.ones_spec_low by lia. by destruct (Z.testbit x k).
    - rewrite Z.ones_spec_high by lia. rewrite andb_false_r, xorb_false_r.
      destruct (decide (x = 0)) as [->|]; [apply Z.bits_0|].
      apply Z.bits_above_log2; [apply Hx|].
      enough (Z.log2 x < 16) by lia. apply Z.log2_lt_pow2; unfold is_u16 in Hx; lia. }
  rewrite Z.land_ones by lia. unfold Z.lnot, is_u16 in *. change (2 ^ 16) with 65536.
  Z.div_mod_to_equations; lia.
Qed.

(** The value of the 16-bit words of a list, not reduced. *)
Fixpoint words_sum (data : bytes) : Z :=
  match data with
  | a :: b :: rest => a * 256 + b + words_sum rest
  | [a] => a * 256
  | [] => 0
  end.

Lemma bytes_ind2 (P : bytes -> Prop) :
  P [] -> (forall a, P [a]) -> (forall a b l, P l -> P (a :: b :: l)) -> forall l, P l.
Proof.
  intros H0 H1 H2. assert (forall l, P l /\ forall a, P (a :: l)) as H; [|apply H].
  induction l as [|x l [IH1 IH2]]; split; auto.
Qed.

Lemma words_sum_bound l : bytes_wf l -> 0 <= words_sum l <= 65535 * (len l + 1).
Proof.
  induction l as [|a|a b l IH] using bytes_ind2; intros Hwf; cbn [words_sum]; len_norm.
  - lia.
  - apply Forall_cons in Hwf as [Ha _]. unfold is_u8 in Ha. lia.
  - apply Forall_cons in Hwf as [Ha Hwf]. apply Forall_cons in Hwf as [Hb Hwf].
    specialize (IH Hwf). unfold is_u8 in *. lia.
Qed.

Lemma sum_words_spec l s :
  bytes_wf l -> 0 <= s -> s + 65535 * (len l + 1) < 4294967296 -> sum_words l s = s + words_sum l.
Proof.
  revert s; induction l as [|a|a b l IH] using bytes_ind2; intros s Hwf Hs Hb; cbn [sum_words words_sum]; len_norm.
  - lia.
  - apply Forall_cons in Hwf as [Ha _]. unfold is_u8 in Ha.
    rewrite Z.shiftl_mul_pow2 by lia. change (2 ^ 8) with 256.
    rewrite !u32_id; unfold is_u32; rewrite ?u32_id by (unfold is_u32; lia); lia.
  - apply Forall_cons in Hwf as [Ha Hwf]. apply Forall_cons in Hwf as [Hc Hwf]. unfold is_u8 in *.
    pose proof (len_nonneg l). rewrite u32_id by (unfold is_u32; lia). rewrite IH by (done || lia). lia.
Qed.

Lemma words_sum_app a b : Nat.even (length a) = true -> words_sum (a ++ b) = words_sum a + words_sum b.
Proof.
  induction a as [|x|x y a IH] using bytes_ind2; intros He; [done|done|].
  cbn [words_sum app]. rewrite IH by done. lia.
Qed.

Lemma words_sum_put16 v : is_u16 v -> words_sum (put16 v) = v.
Proof. intros. cbn. solve_word. Qed.

Lemma icmpChecksum_spec l :
  bytes_wf l -> len l <= 65000 -> icmpChecksum l = 65535 - ones_sum (words_sum l).
Proof.
  intros Hwf Hl. pose proof (words_sum_bound l Hwf). unfold icmpChecksum.
  rewrite sum_words_spec by (done || lia). cbn [Z.add].
  rewrite fold_carry_done by (unfold is_u32; lia). apply not16_spec.
  unfold is_u16, ones_sum. case_match; [lia|]. Z.div_mod_to_equations; lia.
Qed.

Lemma ones_sum_range s : 0 <= s -> 0 <= ones_sum s <= 65535.
Proof. unfold ones_sum. case_match; [lia|]. Z.div_mod_to_equations; lia. Qed.

Lemma ones_sum_complement s : 0 <= s -> ones_sum (s + (65535 - ones_sum s)) = 65535.
Proof.
  intros Hs. unfold ones_sum at 2. destruct (Z.eqb_spec s 0) as [->|Hne]; [done|].
  unfold ones_sum. pose proof (Z.div_mod (s - 1) 65535 ltac:(lia)).
  pose proof (Z.mod_pos_bound (s - 1) 65535 ltac:(lia)).
  rewrite (proj2 (Z.eqb_neq _ 0)) by lia.
  replace (s + (65535 - ((s - 1) mod 65535 + 1)) - 1)
    with (65534 + (s - 1) / 65535 * 65535) by lia.
  by rewrite Z_mod_plus_full.
Qed.

(** A checksum stored in a zero field at an even offset makes the whole sum verify. *)
Lemma checksum_verifies a b :
  bytes_wf (a ++ [0; 0] ++ b) -> len (a ++ [0; 0] ++ b) <= 65000 -> Nat.even (length a) = true ->
  icmpChecksum (a ++ put16 (icmpChecksum (a ++ [0; 0] ++ b)) ++ b) = 0.
Proof.
  intros Hwf Hl He. set (ck := icmpChecksum (a ++ [0; 0] ++ b)).
  assert (words_sum (a ++ [0; 0] ++ b) = words_sum a + words_sum b) as Hs
    by (rewrite words_sum_app; done).
  pose proof (words_sum_bound _ Hwf) as [Hb _].
  assert (ck = 65535 - ones_sum (words_sum a + words_sum b)) as Hck
    by (unfold ck; rewrite icmpChecksum_spec, Hs; done).
  pose proof (ones_sum_range (words_sum a + words_sum b) ltac:(lia)).
  assert (bytes_wf (a ++ put16 ck ++ b)) as Hwf'.
  { apply Forall_app in Hwf as [? Hwf]. apply Forall_app in Hwf as [_ ?].
    apply bytes_wf_app; [done|]. apply bytes_wf_app; [apply put16_wf|done]. }
  assert (len (a ++ put16 ck ++ b) = len (a ++ [0; 0] ++ b)) as Hlen by (len_norm; lia).
  rewrite icmpChecksum_spec by (done || lia).
  rewrite words_sum_app by done. change (put16 ck ++ b) with (put16 ck ++ b).
  rewrite words_sum_app, words_sum_put16 by (done || unfold is_u16; lia).
  replace (words_sum a + (ck + words_sum b)) with
    ((words_sum a + words_sum b) + (65535 - ones_sum (words_sum a + words_sum b))) by lia.
  rewrite ones_sum_complement by lia. done.
Qed.

(** On a 20-byte header whose checksum field is zero the two checksums agree. *)
Lemma header_checksum_icmp h r :
  length h = 10%nat -> length r = 8%nat ->
  ipv4HeaderChecksum (h ++ [0; 0] ++ r) = icmpChecksum (h ++ [0; 0] ++ r).
Proof.
  intros Hh Hr. unfold ipv4HeaderChecksum, icmpChecksum. do 2 f_equal.
  do 10 (destruct h as [|? h]; [done|]). destruct h; [|done].
  do 8 (destruct r as [|? r]; [done|]). destruct r; [|done].
  cbn -[u32 Z.mul Z.add]. by rewrite Z.mul_0_l, !Z.add_0_r, (u32_id (u32 _)) by apply u32_range.
Qed.

(** ** The ICMP packet *)

Definition icmp_message (orig : bytes) (mtu : Z) (ck : bytes) : bytes :=
  [3; 4] ++ ck ++ [0; 0] ++ put16 mtu ++ take 28 orig.

Definition ip_header (orig : bytes) (total : Z) (ck : bytes) : bytes :=
  ([69; 0] ++ put16 total ++ [0; 0; 0; 0; 64; 1]) ++ ck ++ sub orig 16 20 ++ sub orig 12 16.

Lemma buildIPv4ICMPPacket_ok orig icmp :
  20 <= len orig ->
  buildIPv4ICMPPacket orig icmp =
    Ok (ip_header orig (u16 (20 + len icmp))
          (put16 (ipv4HeaderChecksum (ip_header orig (u16 (20 + len icmp)) [0; 0]))) ++ icmp).
Proof.
  intros Ho. unfold buildIPv4ICMPPacket. pose proof (len_nonneg icmp).
  rewrite (proj2 (Z.ltb_ge _ 20)) by lia. set (total := u16 (20 + len icmp)).
  rewrite make_app by lia.
  set (src := sub orig 16 20). set (dst := sub orig 12 16).
  assert (len src = 4) as Hsrc by (unfold src; rewrite len_sub; lia).
  assert (len dst = 4) as Hdst by (unfold dst; rewrite len_sub; lia).
  rewrite (set_at_app_l _ _ 0 69 ([69] ++ make 19)) by reflexivity. rewrite bind_Ok.
  rewrite (set_at_app_l _ _ 1 0 ([69; 0] ++ make 18)) by reflexivity. rewrite bind_Ok.
  rewrite (put16_at_app_l _ _ 2 total ([69; 0] ++ put16 total ++ make 16)) by reflexivity.
  rewrite bind_Ok.
  rewrite (set_at_app_l _ _ 8 64 ([69; 0] ++ put16 total ++ [0; 0; 0; 0; 64] ++ make 11))
    by reflexivity.
  rewrite bind_Ok.
  rewrite (set_at_app_l _ _ 9 1 (([69; 0] ++ put16 total ++ [0; 0; 0; 0; 64; 1]) ++ make 10))
    by reflexivity.
  rewrite bind_Ok. set (h := [69; 0] ++ put16 total ++ [0; 0; 0; 0; 64; 1]).
  assert (len h = 10) as Hh by reflexivity.
  rewrite (slice_ok orig 16 20), bind_Ok by lia. fold src.
  change (make 10) with ([0; 0] ++ [0; 0; 0; 0] ++ [0; 0; 0; 0]).
  rewrite <- !app_assoc, (app_assoc h [0; 0]).
  rewrite copy_mid, bind_Ok by (len_norm; lia).
  rewrite (slice_ok orig 12 16), bind_Ok by lia. fold dst.
  rewrite (app_assoc _ src), copy_mid, bind_Ok by (len_norm; lia).
  rewrite (app_assoc _ dst), fill_copy, bind_Ok by (len_norm; lia).
  rewrite make_0, app_nil_r by lia.
  rewrite slice_head, bind_Ok by (len_norm; lia).
  unfold ip_header. fold src dst h. rewrite <- !app_assoc.
  unfold put16_at. rewrite (proj2 (Z.leb_le (10 + 2) _)) by (len_norm; lia).
  cbn [Z.leb andb Z.compare]. by rewrite copy_mid by done.
Qed.

Definition icmp_with_checksum (orig : bytes) (mtu : Z) : bytes :=
  icmp_message orig mtu (put16 (icmpChecksum (icmp_message orig mtu [0; 0]))).

Lemma BuildICMPFragNeeded_ok orig mtu :
  BuildICMPFragNeeded orig mtu = buildIPv4ICMPPacket orig (icmp_with_checksum orig mtu).
Proof.
  unfold BuildICMPFragNeeded. pose proof (len_nonneg orig).
  set (n := if len orig >? 28 then 28 else len orig).
  assert (0 <= n <= len orig /\ n <= 28) as [Hn Hn28] by (unfold n; case_match; lia).
  assert (take 28 orig = sub orig 0 n) as Htake.
  { unfold sub, n. rewrite drop_0. destruct (Z.gtb_spec (len orig) 28); [done|].
    rewrite !take_ge; unfold len in *; [done|lia..]. }
  assert (len (sub orig 0 n) = n) as Hlen by (rewrite len_sub; lia).
  rewrite make_app by lia.
  rewrite (set_at_app_l _ _ 0 3 ([3] ++ make 7)), bind_Ok by reflexivity.
  rewrite (set_at_app_l _ _ 1 4 ([3; 4] ++ make 6)), bind_Ok by reflexivity.
  rewrite (put16_at_app_l _ _ 6 mtu ([3; 4; 0; 0; 0; 0] ++ put16 mtu)), bind_Ok by reflexivity.
  rewrite slice_ok, bind_Ok by lia. rewrite fill_copy, bind_Ok by (len_norm; lia).
  rewrite make_0, app_nil_r by lia. unfold icmp_with_checksum, icmp_message. rewrite Htake.
  set (ob := sub orig 0 n) in *.
  rewrite (put16_at_app_l _ ob 2 _ ([3; 4] ++ put16 (icmpChecksum (([3; 4; 0; 0; 0; 0] ++ put16 mtu) ++ ob))
    ++ [0; 0] ++ put16 mtu)) by reflexivity.
  by rewrite bind_Ok, <- !app_assoc.
Qed.

Lemma icmp_message_wf orig mtu ck :
  bytes_wf orig -> bytes_wf ck -> bytes_wf (icmp_message orig mtu ck).
Proof.
  intros. unfold icmp_message.
  repeat (apply bytes_wf_app; [try apply put16_wf; try done; repeat constructor; unfold is_u8; lia|]).
  by apply Forall_take.
Qed.

Lemma len_icmp_message orig mtu ck : len (icmp_message orig mtu ck) = 6 + len ck + Z.min 28 (len orig).
Proof. unfold icmp_message. len_norm. lia. Qed.

Lemma icmp_verifies orig mtu :
  bytes_wf orig -> icmpChecksum (icmp_with_checksum orig mtu) = 0.
Proof.
  intros Hwf. unfold icmp_with_checksum. apply (checksum_verifies [3; 4] _); [| |done].
  - apply (icmp_message_wf orig mtu [0; 0]); [done|]. repeat constructor; unfold is_u8; lia.
  - change (len (icmp_message orig mtu [0; 0]) <= 65000). rewrite len_icmp_message. len_norm. lia.
Qed.

(** ** Properties *)

(** the ICMP "fragmentation needed" packet built for a dropped IPv4 packet is
    the one RFC 791 and RFC 792 ask for: sent from the packet's destination back to
    its source, type 3 code 4, with the next-hop MTU and the first 28 bytes of the
    packet, and both Internet checksums verify (sum to zero) at the receiver. *)
Theorem BuildICMPFragNeeded_correct orig mtu :
  bytes_wf orig -> 20 <= len orig -> is_u16 mtu ->
  exists ck1 ck2,
    BuildICMPFragNeeded orig mtu =
      Ok (([69; 0] ++ put16 (28 + Z.min 28 (len orig)) ++ [0; 0; 0; 0; 64; 1] ++ ck1 ++
           sub orig 16 20 ++ sub orig 12 16) ++
          ([3; 4] ++ ck2 ++ [0; 0] ++ put16 mtu ++ take 28 orig)) /\
    icmpChecksum ([69; 0] ++ put16 (28 + Z.min 28 (len orig)) ++ [0; 0; 0; 0; 64; 1] ++ ck1 ++
                  sub orig 16 20 ++ sub orig 12 16) = 0 /\
    icmpChecksum ([3; 4] ++ ck2 ++ [0; 0] ++ put16 mtu ++ take 28 orig) = 0 /\
    len ck1 = 2 /\ len ck2 = 2.
Proof.
  intros Hwf Hl Hm. rewrite BuildICMPFragNeeded_ok, buildIPv4ICMPPacket_ok by done.
  set (icmp := icmp_with_checksum orig mtu).
  assert (u16 (20 + len icmp) = 28 + Z.min 28 (len orig)) as ->.
  { unfold icmp, icmp_with_checksum. rewrite len_icmp_message, len_put16.
    pose proof (len_nonneg orig). rewrite u16_id; unfold is_u16; lia. }
  set (total := 28 + Z.min 28 (len orig)).
  assert (len (sub orig 16 20) = 4 /\ len (sub orig 12 16) = 4) as [Hs Hd]
    by (rewrite !len_sub; lia).
  set (h := [69; 0] ++ put16 total ++ [0; 0; 0; 0; 64; 1]).
  set (r := sub orig 16 20 ++ sub orig 12 16).
  assert (ip_header orig total [0; 0] = h ++ [0; 0] ++ r) as Hh by reflexivity.
  exists (put16 (icmpChecksum (h ++ [0; 0] ++ r))),
    (put16 (icmpChecksum (icmp_message orig mtu [0; 0]))).
  rewrite Hh, header_checksum_icmp by (done || (unfold r; rewrite length_app; unfold len in *; lia)).
  split_and!; [done| |by apply icmp_verifies|done|done].
  change (icmpChecksum (h ++ put16 (icmpChecksum (h ++ [0; 0] ++ r)) ++ r) = 0).
  apply checksum_verifies; [| |done].
  - apply bytes_wf_app; [|apply bytes_wf_app].
    + apply bytes_wf_app; [|apply bytes_wf_app; [apply put16_wf|]]; repeat constructor; unfold is_u8; lia.
    + repeat constructor; unfold is_u8; lia.
    + apply bytes_wf_app; by apply Forall_sub.
  - unfold h, r. len_norm. lia.
Qed.

Section Overhead.
Context {C : Crypto} {CL : CryptoLaws C}.

Lemma len_sent sa rnd seq p nh pkt natt :
  sa_ok sa -> good_rnd rnd -> (forall a, AEAD sa = Some a -> Overhead a = 16) ->
  sent_packet sa rnd seq p nh pkt ->
  len pkt + (if (natt : bool) then 28 else 0) <= len p + CalculateESPOverhead (Suite sa) (IntegSuite sa) natt.
Proof.
  intros Hok Hrnd Hov Hp. pose proof (len_nonneg p) as Hp0. unfold CalculateESPOverhead, ESPHeaderLen.
  destruct Hp as [(HA & aead & Ha & Hs & ->)|
    (HA & Hsuite & block & integ & iv & icv & Hb & Hi & -> & Hc & Hl & ->)]; rewrite HA.
  - pose proof (pad_len_spec (len p) 4 Hp0 ltac:(lia)) as [? _]. unfold aead_packet.
    rewrite !len_app, len_Seal, len_trailer, (Hov aead Ha) by lia.
    rewrite !len_put32. change (len (SequenceToIV seq)) with 8.
    unfold ESPTrailerMinLen, AEADIVSize. destruct natt; lia.
  - destruct (cbc_sizes _ Hsuite) as [Hiv Hblk]. rewrite Hiv, Hblk.
    destruct (Hrnd _ eq_refl) as [Hl16 _]. rewrite (sa_icv _ Hok _ Hi) in Hl.
    pose proof (pad_len_spec (len p) 16 Hp0 ltac:(lia)) as [? _].
    assert (len (cbc_encrypt (Z.to_nat (len (trailer p nh 16) / 16)) block iv (trailer p nh 16)) =
      len p + pad_len (len p) 16 + 2) as Hct.
    { unfold len at 1. rewrite length_cbc_encrypt, <- length_padded by
        (apply length_padded || (unfold len in Hl16; lia)).
      fold (len (trailer p nh 16)). rewrite len_trailer by lia. unfold ESPTrailerMinLen. lia. }
    unfold cbc_body. cbv zeta. rewrite !len_app, Hct, !len_put32, Hl16, Hl. destruct natt; lia.
Qed.

(** [CalculateESPOverhead] bounds what [Encrypt] really adds under every
    suite, so a packet that [CheckPacketExceedsMTU] lets through fits the path
    MTU once it is encrypted and, with NAT-T, put into UDP. *)
Theorem overhead_sound rnd sa sa' p nh pkt natt pathMTU :
  sa_ok sa -> good_rnd rnd -> (forall a, AEAD sa = Some a -> Overhead a = 16) ->
  Encrypt rnd (Some sa) p nh = (Some sa', Ok pkt) -> 0 < len p ->
  (CheckPacketExceedsMTU (len p) pathMTU
     (CalculateESPOverhead (Suite sa) (IntegSuite sa) natt)).1 = false ->
  len pkt + (if natt then 28 else 0) <= pathMTU.
Proof.
  intros Hok Hrnd Hov He Hp0 Hc. destruct (Encrypt_inv _ _ _ _ _ _ Hok Hrnd He) as (_ & Hp & _).
  pose proof (len_sent _ _ _ _ _ _ natt Hok Hrnd Hov Hp) as Hl. unfold CheckPacketExceedsMTU in Hc.
  cbv zeta in Hc. destruct (_ >? _) eqn:E in Hc; [done|].
  destruct (Z.ltb_spec (pathMTU - CalculateESPOverhead (Suite sa) (IntegSuite sa) natt) 0); lia.
Qed.
End Overhead.

(** the table answers with what was last set for the peer, never below the
    IPv4 minimum of 576 bytes, and with the default for every other peer; the two
    textual forms of one address are one peer. *)
Theorem pmtu_table (IP_String : bytes -> string) m def peer other mtu :
  (forall a b, IP_String a = IP_String b <-> To16 a = To16 b) ->
  GetMTU IP_String (SetMTU IP_String m peer mtu) peer = Z.max mtu MinMTU /\
  (To16 other <> To16 peer ->
     GetMTU IP_String (SetMTU IP_String m peer mtu) other = GetMTU IP_String m other) /\
  (To16 other = To16 peer ->
     GetMTU IP_String (SetMTU IP_String m peer mtu) other = Z.max mtu MinMTU) /\
  MinMTU <= GetMTU IP_String (NewPMTUManager def) peer.
Proof.
  intros Hs. unfold GetMTU, SetMTU, NewPMTUManager. cbn [byPeer defaultMTU].
  assert ((if mtu <? MinMTU then MinMTU else mtu) = Z.max mtu MinMTU) as -> by (case_match; lia).
  split_and!.
  - by rewrite lookup_insert_eq.
  - intros Hne. rewrite lookup_insert_ne; [done|]. intros H%Hs. congruence.
  - intros ->%Hs. by rewrite lookup_insert_eq.
  - rewrite lookup_empty. unfold DefaultMTU. case_match; unfold MinMTU in *; lia.
Qed.

(** ** Witnesses *)

Definition demo_packet : bytes :=
  [69; 0; 0; 24; 0; 0; 64; 0; 64; 17; 0; 0; 10; 0; 0; 1; 192; 168; 1; 9; 1; 2; 3; 4].

Lemma BuildICMPFragNeeded_correct_witness :
  HasDFBit demo_packet = Ok true /\
  (exists pkt, BuildICMPFragNeeded demo_packet 1400 = Ok pkt /\ len pkt = 52) /\
  exists ck1 ck2, BuildICMPFragNeeded demo_packet 1400 =
    Ok (([69; 0; 0; 52; 0; 0; 0; 0; 64; 1] ++ ck1 ++ [192; 168; 1; 9; 10; 0; 0; 1]) ++
        [3; 4] ++ ck2 ++ [0; 0; 5; 120] ++ demo_packet).
Proof.
  split; [reflexivity|]. split; [eexists; split; vm_compute; reflexivity|].
  assert (bytes_wf demo_packet) as Hwf by (apply (bool_decide_unpack _); vm_compute; exact I).
  destruct (BuildICMPFragNeeded_correct demo_packet 1400 Hwf ltac:(done) ltac:(unfold is_u16; lia))
    as (ck1 & ck2 & H & _ & _ & _ & _).
  exists ck1, ck2. rewrite H. reflexivity.
Defined.

Lemma overhead_sound_witness :
  exists pkt, (Encrypt (C := Toy.toy) None (Some demo_sa) demo_packet 4).2 = Ok pkt /\
    len pkt + 28 <= 90 /\ len pkt = 60.
Proof.
  eexists. split; [vm_compute; reflexivity|]. split; [|reflexivity].
  apply (overhead_sound (C := Toy.toy) (CL := Toy.toy_laws) None demo_sa (with_SeqNum demo_sa 1) demo_packet 4
    _ true 90 demo_sa_ok); [by intros ?|by intros a ?|vm_compute; reflexivity|done|vm_compute; reflexivity].
Defined.

Definition demo_String (ip : bytes) : string := pretty (N.pos (encode (To16 ip))).

Lemma demo_String_inj a b : demo_String a = demo_String b <-> To16 a = To16 b.
Proof.
  unfold demo_String. split; [|by intros ->].
  intros H%(inj pretty). injection H as H. by apply (inj encode).
Qed.

Lemma pmtu_table_witness :
  GetMTU demo_String (SetMTU demo_String (NewPMTUManager 1400) [10; 0; 0; 1] 300) (IPv4 10 0 0 1) = 576.
Proof.
  destruct (pmtu_table demo_String (NewPMTUManager 1400) 1400 [10; 0; 0; 1] (IPv4 10 0 0 1) 300
    demo_String_inj) as (_ & _ & H & _).
  rewrite H by reflexivity. reflexivity.
Defined.

End Pmtu.
