(* ===== verification/EspEngine.v ===== *)
(** * EspEngine: the data plane ([internal/esp/engine.go], [internal/esp/pool.go])

    The engine, the store of SAs it shares with IKE, and what it does to the world:
    writes to the TUN device, hands L2TP payloads over, sends UDP datagrams.  Each
    function is one handler call or one round of a loop; the events it causes are
    its result. *)

From S2P Require Import Prelude Net Replay EspCipher EspPacket EspTunnel EspSA EspNatt.
Import Cipher Esp Tunnel SADB Natt.
Open Scope string_scope.
Open Scope list_scope.
Open Scope Z_scope.

(** ** The buffer pool *)
Module BufPool.

Definition MaxPacketSize : Z := 65536.

(** The buffers [sync.Pool] holds, and their size. *)
Record BufferPool := mkPool { items : list bytes; bufSize : Z }.

Definition NewBufferPool (bufferSize : Z) : BufferPool := mkPool [] bufferSize.

(** [sync.Pool] may give any buffer it holds, or call [New]: [pick] chooses. *)
Definition Get (pick : option nat) (bp : BufferPool) : bytes * BufferPool :=
  let '(buf, rest) :=
    match pick with
    | Some k =>
      match items bp !! k with
      | Some buf => (buf, delete k (items bp))
      | None => (make (bufSize bp), items bp)
      end
    | None => (make (bufSize bp), items bp)
    end in
  (make (len buf), mkPool rest (bufSize bp)).        (* clear(buf) *)

(** [capacity] is [cap(buf)]; [buf[:bp.size]] re-extends the slice to it. *)
Definition Put (bp : BufferPool) (buf : bytes) (capacity : Z) : BufferPool :=
  if negb (capacity =? bufSize bp) then bp else mkPool (buf :: items bp) (bufSize bp).

Definition pool_ok (bp : BufferPool) : Prop := Forall (fun b => len b = bufSize bp) (items bp).

Lemma Get_ok pick bp :
  0 <= bufSize bp -> pool_ok bp ->
  (Get pick bp).1 = make (bufSize bp) /\ pool_ok (Get pick bp).2 /\
  bufSize (Get pick bp).2 = bufSize bp.
Proof.
  intros Hs Hok. unfold Get.
  assert (make (len (make (bufSize bp))) = make (bufSize bp)) as Hm by (rewrite len_make; f_equal; lia).
  destruct pick as [k|]; [|by split_and!].
  destruct (items bp !! k) eqn:E; cbn; [|by split_and!]. split_and!; [|by apply Forall_delete|done].
  by rewrite (proj1 (Forall_lookup _ _) Hok k _ E).
Qed.

Lemma Put_ok bp buf : pool_ok bp -> pool_ok (Put bp buf (len buf)).
Proof.
  intros Hok. unfold Put. destruct (Z.eqb_spec (len buf) (bufSize bp)); cbn; [|done]. by constructor.
Qed.
End BufPool.

(** ** The engine *)
Module Engine.

(** The interface fields hold a device or nil; which one it is plays no part. *)
Record Engine := mkEngine {
  saDB : SADatabase;
  tunReader : bool;
  tunWriter : bool;
  udpSender : bool;
  defaultOutSA : option loc;
  nattPort : Z;
  l2tpHandler : bool;
  spd : gmap bytes (option loc)        (* key: string(IP.To16()) *)
}.

(** What the engine asks of [TUNWriter], [L2TPHandler] and [UDPSender]. *)
Inductive event :=
  | WritePacket (packet : bytes)
  | HandlePacket (payload : bytes) (from : UDPAddr)
  | SendTo (port : Z) (data : bytes) (to : UDPAddr).

Record world := mkWorld { st : store; eng : Engine }.

Definition set_sa (w : world) (l : loc) (sa : SecurityAssociation) : world :=
  mkWorld (<[l := sa]> (st w)) (eng w).

Definition with_db (e : Engine) (db : SADatabase) : Engine :=
  mkEngine db (tunReader e) (tunWriter e) (udpSender e) (defaultOutSA e) (nattPort e)
    (l2tpHandler e) (spd e).
Definition with_spd (e : Engine) (m : gmap bytes (option loc)) : Engine :=
  mkEngine (saDB e) (tunReader e) (tunWriter e) (udpSender e) (defaultOutSA e) (nattPort e)
    (l2tpHandler e) m.

Record EngineConfig := mkConfig {
  cfg_SADatabase : option SADatabase;
  cfg_Pool : option BufPool.BufferPool;
  cfg_TUNReader : bool;
  cfg_TUNWriter : bool;
  cfg_UDPSender : bool;
  cfg_DefaultOutboundSA : option loc;
  cfg_NATTPort : Z
}.

Definition NewEngine (cfg : EngineConfig) : res Engine :=
  match cfg_SADatabase cfg, cfg_Pool cfg with
  | None, _ => Err "SADatabase is required"
  | _, None => Err "BufferPool is required"
  | Some db, Some _ =>
    let nattPort := if cfg_NATTPort cfg =? 0 then 4500 else cfg_NATTPort cfg in
    Ok (mkEngine db (cfg_TUNReader cfg) (cfg_TUNWriter cfg) (cfg_UDPSender cfg)
          (cfg_DefaultOutboundSA cfg) nattPort false ∅)
  end.

Definition SetDefaultOutboundSA (e : Engine) (p : option loc) : Engine :=
  mkEngine (saDB e) (tunReader e) (tunWriter e) (udpSender e) p (nattPort e) (l2tpHandler e) (spd e).

Definition SetL2TPHandler (e : Engine) (h : bool) : Engine :=
  mkEngine (saDB e) (tunReader e) (tunWriter e) (udpSender e) (defaultOutSA e) (nattPort e) h (spd e).

(** The entry is stored before the log line dereferences the pointer. *)
Definition AddOutboundSA (e : Engine) (dstIP : bytes) (p : option loc) : Engine * res unit :=
  (with_spd e (<[To16 dstIP := p]> (spd e)), match p with None => Panic | Some _ => Ok tt end).

Definition RemoveOutboundSA (e : Engine) (dstIP : bytes) : Engine :=
  with_spd e (delete (To16 dstIP) (spd e)).

(** The error of [AddInbound] is dropped; the log line dereferences the pointer. *)
Definition AddInboundSA (w : world) (p : option loc) : world * res unit :=
  let '(db, r) := AddInbound (st w) (saDB (eng w)) p in
  (mkWorld (st w) (with_db (eng w) db),
   match p, r with
   | None, _ | _, Panic => Panic
   | Some _, _ => Ok tt
   end).

Definition RemoveInboundSA (w : world) (spi : Z) : world :=
  mkWorld (st w) (with_db (eng w) (RemoveInbound (saDB (eng w)) spi)).

(** ** Inspecting IP packets *)

Definition detectIPVersion (packet : bytes) : res Z :=
  if len packet =? 0 then Ok NextHeaderIPv4
  else
    b ← idx packet 0;
    let version := Z.shiftr b 4 in
    Ok (if version =? 4 then NextHeaderIPv4
        else if version =? 6 then NextHeaderIPv6 else NextHeaderIPv4).

(** A nil result is [None]. *)
Definition extractDstIP (packet : bytes) : res (option bytes) :=
  if len packet <? 20 then Ok None
  else
    b ← idx packet 0;
    let version := Z.shiftr b 4 in
    if version =? 4 then ip ← slice packet 16 20; Ok (Some ip)
    else if version =? 6 then
      (if len packet <? 40 then Ok None else ip ← slice packet 24 40; Ok (Some ip))
    else Ok None.

Section WithCrypto.
Context {C : Crypto}.

(** ** Inbound *)

Definition handleInnerUDP (e : Engine) (udpData : bytes) (remoteAddr : UDPAddr) : res (list event) :=
  if len udpData <? 8 then Ok []
  else
    s ← slice udpData 2 4;
    dstPort ← be16 s;
    if dstPort =? 1701 then
      if l2tpHandler e then
        l2tpPayload ← slice udpData 8 (len udpData);
        Ok [HandlePacket l2tpPayload remoteAddr]
      else Ok []
    else if tunWriter e then Ok [WritePacket udpData]
    else Ok [].

(** The switch on the next header; a nil payload is [None]. *)
Definition route (e : Engine) (innerPacket : option bytes) (nextHeader : Z) (remoteAddr : UDPAddr) :
    res (list event) :=
  if nextHeader =? NextHeaderUDP then handleInnerUDP e (default [] innerPacket) remoteAddr
  else if nextHeader =? NextHeaderDummy then Ok []
  else match innerPacket with
       | Some p => if tunWriter e then Ok [WritePacket p] else Ok []
       | None => Ok []
       end.

(** The update of the peer address after NAT rebinding. *)
Definition rebind (sa : SecurityAssociation) (remoteAddr : UDPAddr) : SecurityAssociation :=
  match PeerAddr sa with
  | Some a => if negb (IPEqual (IP a) (IP remoteAddr)) then with_PeerAddr sa (Some remoteAddr) else sa
  | None => sa
  end.

(** [HandleInboundESP] from the SA lookup on. *)
Definition inboundSA (w : world) (l : loc) (espData : bytes) (remoteAddr : UDPAddr) :
    world * res (list event) :=
  match st w !! l with
  | None => (w, Panic)
  | Some sa =>
    match Decrypt (Some sa) espData with
    | (Some sa', Ok (innerPacket, nextHeader)) =>
      (set_sa w l (rebind sa' remoteAddr), route (eng w) innerPacket nextHeader remoteAddr)
    | (Some sa', Err _) => (set_sa w l sa', Ok [])
    | (Some sa', Panic) => (set_sa w l sa', Panic)
    | (None, _) => (w, Panic)
    end
  end.

Definition HandleInboundESP (w : world) (buf : bytes) (n : Z) (remoteAddr : UDPAddr) :
    world * res (list event) :=
  if n <? ESPHeaderLen then (w, Ok [])
  else match (data ← slice buf 0 n; ClassifyNATT data) with
  | Panic => (w, Panic)
  | Err _ => (w, Ok [])
  | Ok (PacketTypeIKE, _) => (w, Ok [])
  | Ok (PacketTypeKeepalive, _) => (w, Ok [])
  | Ok (PacketTypeESP, espData) =>
    match ParseHeader espData with
    | Panic => (w, Panic)
    | Err _ => (w, Ok [])
    | Ok hdr =>
      match LookupBySPI (saDB (eng w)) (hdr_SPI hdr) with
      | None => (w, Ok [])
      | Some l => inboundSA w l espData remoteAddr
      end
    end
  end.

(** ** Outbound *)

(** [outSA = e.spd[string(dstIP.To16())]], with the default SA as fallback. *)
Definition selectOutbound (e : Engine) (dstIP : option bytes) : option loc :=
  let outSA := match dstIP with
               | Some ip => match spd e !! To16 ip with Some p => p | None => None end
               | None => None
               end in
  match outSA with None => defaultOutSA e | Some l => Some l end.

(** One round of [outboundLoop]; [rd] is what [ReadPacket] yields, [rnd] the
    random bytes the CBC mode draws. *)
Definition outboundStep (w : world) (rnd : option bytes) (rd : res bytes) :
    world * res (list event) :=
  match rd with
  | Panic => (w, Panic)
  | Err _ => (w, Ok [])
  | Ok packet =>
    if len packet =? 0 then (w, Ok [])
    else match (nh ← detectIPVersion packet; ip ← extractDstIP packet; Ok (nh, ip)) with
    | Ok (nextHeader, dstIP) =>
      match selectOutbound (eng w) dstIP with
      | None => (w, Ok [])
      | Some l =>
        match st w !! l with
        | None => (w, Panic)
        | Some sa =>
          match Encrypt rnd (Some sa) packet nextHeader with
          | (Some sa', Ok espPacket) =>
            (set_sa w l sa',
             Ok (match PeerAddr sa' with
                 | Some peer => if udpSender (eng w) then [SendTo (nattPort (eng w)) espPacket peer] else []
                 | None => []
                 end))
          | (Some sa', Err _) => (set_sa w l sa', Ok [])
          | (Some sa', Panic) => (set_sa w l sa', Panic)
          | (None, _) => (w, Panic)
          end
        end
      end
    | Err _ => (w, Ok [])
    | Panic => (w, Panic)
    end
  end.
End WithCrypto.

(** ** Invariant *)

Record world_ok (w : world) : Prop := {
  wk_db : db_ok (st w) (saDB (eng w));
  wk_sas l sa : st w !! l = Some sa -> sa_ok sa;
  wk_spd k p : spd (eng w) !! k = Some p -> exists l, p = Some l /\ is_Some (st w !! l);
  wk_default l : defaultOutSA (eng w) = Some l -> is_Some (st w !! l)
}.

(** Replacing an SA by one with the same SPI keeps the world well formed. *)
Lemma set_sa_ok w l sa sa' :
  world_ok w -> st w !! l = Some sa -> SPI sa' = SPI sa -> sa_ok sa' -> world_ok (set_sa w l sa').
Proof.
  intros [Hdb Hsas Hspd Hdef] Hl Hs Hok. constructor; cbn.
  - eapply db_ok_store_le; [by eapply store_le_insert|done].
  - intros k s [[-> ->]|[_ Hk]]%lookup_insert_Some; [done|by eapply Hsas].
  - intros k p Hk. destruct (Hspd k p Hk) as (m & -> & Hm). exists m. split; [done|].
    by apply lookup_insert_is_Some'; right.
  - intros k Hk. apply lookup_insert_is_Some'; right. by apply Hdef.
Qed.

Lemma set_sa_id w l sa : st w !! l = Some sa -> set_sa w l sa = w.
Proof. intros H. unfold set_sa. rewrite insert_id by done. by destruct w. Qed.

Lemma rebind_fields sa addr :
  SPI (rebind sa addr) = SPI sa /\ SeqNum (rebind sa addr) = SeqNum sa /\
  Window (rebind sa addr) = Window sa /\ same_keys (rebind sa addr) sa /\
  (sa_ok sa -> sa_ok (rebind sa addr)).
Proof.
  unfold rebind, same_keys. repeat case_match; split_and!; try done. intros []; by constructor.
Qed.

Lemma with_Window_ok sa rw : sa_ok sa -> sa_ok (with_Window sa rw).
Proof. intros []; by constructor. Qed.

Lemma selectOutbound_live w dst l :
  world_ok w -> selectOutbound (eng w) dst = Some l -> exists sa, st w !! l = Some sa /\ sa_ok sa.
Proof.
  intros [_ Hsas Hspd Hdef] H. enough (is_Some (st w !! l)) as [sa Hsa] by eauto.
  unfold selectOutbound in H. destruct dst as [ip|]; [|by apply Hdef].
  destruct (spd (eng w) !! To16 ip) as [p|] eqn:E; [|by apply Hdef].
  destruct (Hspd _ _ E) as (m & -> & Hm). by simplify_eq.
Qed.

(** The SPI in the header of a packet. *)
Definition pkt_spi (pkt : bytes) : Z :=
  match ParseHeader pkt with Ok h => hdr_SPI h | _ => 0 end.

Section Properties.
Context {C : Crypto} {CL : CryptoLaws C}.

Lemma handleInnerUDP_total e d addr :
  exists evs, handleInnerUDP e d addr = Ok evs /\ (length evs <= 1)%nat.
Proof.
  unfold handleInnerUDP. destruct (Z.ltb_spec (len d) 8); [by exists []; split; [|cbn; lia]|].
  rewrite (slice_ok d 2 4), bind_Ok by lia.
  destruct (be16_ok (sub d 2 4)) as [p ->]; [rewrite len_sub; lia|]. rewrite bind_Ok.
  rewrite (slice_ok d 8) by lia.
  repeat case_match; eexists; (split; [reflexivity|cbn; lia]).
Qed.

Lemma route_total e p nh addr :
  exists evs, route e p nh addr = Ok evs /\ (length evs <= 1)%nat.
Proof.
  unfold route. destruct (nh =? NextHeaderUDP); [apply handleInnerUDP_total|].
  repeat case_match; eexists; (split; [reflexivity|cbn; lia]).
Qed.

(** What one inbound datagram can do: nothing at all, or move the window of the
    SA its SPI selects, after authentication, and hand over its payload. *)
Definition inbound_effect (w : world) (pkt : bytes) (addr : UDPAddr) (l : loc)
    (sa : SecurityAssociation) (w' : world) (evs : list event) : Prop :=
  LookupBySPI (saDB (eng w)) (pkt_spi pkt) = Some l /\ st w !! l = Some sa /\
  authentic sa pkt /\ window_check (Window sa) (pkt_seq pkt) = true /\
  (exists sa', w' = set_sa w l sa' /\ SPI sa' = SPI sa /\
     Window sa' = window_advance (Window sa) (pkt_seq pkt) /\ sa_ok sa') /\
  (evs = [] \/ exists p nh, (Decrypt (Some sa) pkt).2 = Ok (p, nh) /\
     route (eng w) p nh addr = Ok evs).

Lemma inbound_cases w buf n addr :
  world_ok w -> bytes_wf buf -> 0 <= n <= len buf ->
  exists w' evs, HandleInboundESP w buf n addr = (w', Ok evs) /\ (length evs <= 1)%nat /\
    ((w' = w /\ evs = []) \/
     exists l sa, inbound_effect w (sub buf 0 n) addr l sa w' evs).
Proof.
  intros Hok Hwf Hn. unfold HandleInboundESP.
  assert (forall w', exists w'' evs, (w', Ok []) = (w'', Ok evs) /\ (length evs <= 1)%nat /\
    ((w'' = w' /\ evs = []) \/
     exists l sa, inbound_effect w' (sub buf 0 n) addr l sa w'' evs)) as Hnone.
  { intros w'. exists w', []. split_and!; [done|cbn; lia|by left]. }
  destruct (Z.ltb_spec n ESPHeaderLen) as [|H8]; [apply Hnone|]. unfold ESPHeaderLen in H8.
  rewrite slice_ok, bind_Ok by lia. set (pkt := sub buf 0 n) in *.
  pose proof (ClassifyNATT_not_Panic pkt) as Hnp.
  destruct (ClassifyNATT pkt) as [[[] d]|e|] eqn:Ec; [|apply Hnone..|done].
  apply ClassifyNATT_complete in Ec. inversion Ec as [| |Hz Hl]; subst d.
  destruct (ParseHeader_total pkt) as (h & Hh & _).
  { unfold MinNATTESPPacketLen, ESPHeaderLen in Hl. lia. }
  rewrite Hh. destruct (LookupBySPI _ _) as [l|] eqn:El; [|apply Hnone].
  destruct (ok_in _ _ (wk_db _ Hok) _ _ El) as (sa & Hsa & Hspi & _).
  unfold inboundSA. rewrite Hsa.
  pose proof (wk_sas _ Hok _ _ Hsa) as Hsok.
  destruct (Decrypt_cases sa pkt Hsok (Forall_sub _ _ _ _ Hwf)) as (sa' & r & E & Hr & Hcase).
  rewrite E. destruct Hcase as [[-> [er ->]]|(Hsa' & Hw & Ha)].
  { exists w, []. rewrite set_sa_id by done. split_and!; [done|cbn; lia|by left]. }
  assert (SPI sa' = SPI sa /\ Window sa' = window_advance (Window sa) (pkt_seq pkt) /\ sa_ok sa')
    as (H1 & H2 & H3) by (subst sa'; split_and!; [done|done|by apply with_Window_ok]).
  assert (LookupBySPI (saDB (eng w)) (pkt_spi pkt) = Some l) as Hlk
    by (unfold pkt_spi; by rewrite Hh).
  destruct r as [[p nh]|er|]; [| |done].
  - destruct (rebind_fields sa' addr) as (R1 & _ & R3 & _ & R5).
    destruct (route_total (eng w) p nh addr) as (evs & Hev & Hlen).
    exists (set_sa w l (rebind sa' addr)), evs. rewrite Hev. split_and!; [done|done|].
    right. exists l, sa. unfold inbound_effect. rewrite E. split_and!; try done.
    + exists (rebind sa' addr). split_and!; [done|congruence|congruence|by apply R5].
    + right. by exists p, nh.
  - exists (set_sa w l sa'), []. split_and!; [done|cbn; lia|]. right. exists l, sa.
    unfold inbound_effect. split_and!; try done; [by exists sa'|by left].
Qed.

(** [AddInboundSA] on a live SA. *)
Lemma AddInboundSA_ok w l w' r :
  world_ok w -> AddInboundSA w (Some l) = (w', r) ->
  world_ok w' /\ st w' = st w /\
  (forall spi k, bySPI (saDB (eng w')) !! spi = Some k -> k = l \/ bySPI (saDB (eng w)) !! spi = Some k).
Proof.
  intros [Hdb Hsas Hspd Hdef]. unfold AddInboundSA.
  pose proof (AddInbound_ok _ _ (Some l) Hdb) as Hok.
  destruct (AddInbound _ _ _) as [db rr] eqn:E. intros [= <- _]. cbn in *.
  split_and!; [by constructor|done|]. revert E. unfold AddInbound.
  repeat case_match; intros [= <- <-]; try by right. cbn. intros spi k.
  intros [[_ ->]|[_ ?]]%lookup_insert_Some; [by left|by right].
Qed.

(** ** What the outbound path sends *)

Lemma detectIPVersion_ok p : exists nh, detectIPVersion p = Ok nh /\ (nh = NextHeaderIPv4 \/ nh = NextHeaderIPv6).
Proof.
  unfold detectIPVersion. pose proof (len_nonneg p).
  destruct (Z.eqb_spec (len p) 0); [eauto|].
  destruct (idx_total p 0) as [b [-> _]]; [lia|]. rewrite bind_Ok.
  repeat case_match; eauto.
Qed.

Lemma extractDstIP_ok p : exists ip, extractDstIP p = Ok ip.
Proof.
  unfold extractDstIP. destruct (Z.ltb_spec (len p) 20); [eauto|].
  destruct (idx_total p 0) as [b [-> _]]; [lia|]. rewrite bind_Ok.
  destruct (_ =? 4); [rewrite slice_ok by lia; cbn; eauto|].
  destruct (_ =? 6); [|eauto]. destruct (Z.ltb_spec (len p) 40); [eauto|].
  rewrite slice_ok by lia; cbn; eauto.
Qed.

(** The next header the engine announces for a packet. *)
Definition next_header (p : bytes) : Z :=
  match detectIPVersion p with Ok nh => nh | _ => NextHeaderIPv4 end.

Definition dst_of (p : bytes) : option bytes :=
  match extractDstIP p with Ok ip => ip | _ => None end.

(** What one packet read from the TUN device can do. *)
Definition outbound_effect (w : world) (rnd : option bytes) (p : bytes) (l : loc)
    (out : SecurityAssociation) (w' : world) (evs : list event) : Prop :=
  selectOutbound (eng w) (dst_of p) = Some l /\ st w !! l = Some out /\
  exists out' r, Encrypt rnd (Some out) p (next_header p) = (Some out', r) /\
    w' = set_sa w l out' /\ Window out' = Window out /\ SPI out' = SPI out /\ sa_ok out' /\
    evs = match r, PeerAddr out with
          | Ok pkt, Some peer =>
            if udpSender (eng w) then [SendTo (nattPort (eng w)) pkt peer] else []
          | _, _ => []
          end.

Lemma outbound_cases w rnd rd :
  world_ok w -> good_rnd rnd -> rd <> Panic ->
  exists w' evs, outboundStep w rnd rd = (w', Ok evs) /\
    ((w' = w /\ evs = []) \/
     exists p l out, rd = Ok p /\ outbound_effect w rnd p l out w' evs).
Proof.
  intros Hok Hrnd Hrd. unfold outboundStep.
  destruct rd as [p|e|]; [|by eauto 10|done]. destruct (len p =? 0); [by eauto 10|].
  destruct (detectIPVersion_ok p) as (nh & Enh & _). destruct (extractDstIP_ok p) as (ip & Eip).
  rewrite Enh, Eip, !bind_Ok.
  destruct (selectOutbound (eng w) ip) as [l|] eqn:Es; [|by eauto 10].
  destruct (selectOutbound_live w ip l Hok Es) as (out & Hl & Hso). rewrite Hl.
  destruct (Encrypt_state rnd out p nh) as (out' & r & E & Hout').
  pose proof (Encrypt_not_Panic rnd out p nh Hso Hrnd) as Hr. rewrite E in Hr |- *. cbn in Hr.
  set (evs := match r, PeerAddr out with
    | Ok pkt, Some peer => if udpSender (eng w) then [SendTo (nattPort (eng w)) pkt peer] else []
    | _, _ => [] end).
  assert (PeerAddr out' = PeerAddr out) as Hpeer by (by destruct Hout' as [-> | ->]).
  exists (set_sa w l out'), evs. split; [by destruct r; rewrite ?Hpeer|].
  right. exists p, l, out. split; [done|]. unfold outbound_effect, next_header, dst_of.
  rewrite Enh, Eip. split_and!; [done|done|]. exists out', r.
  destruct Hout' as [-> | ->]; eauto 10 using sa_ok_next.
Qed.

(** ** Histories of the data plane *)

(** A window that has seen nothing, or none (an outbound SA). *)
Definition fresh_window (w : option Replay.ReplayWindow) : Prop :=
  w = None \/ exists sz, 0 <= sz /\ sz + 63 < 4294967296 /\ w = Some (Replay.NewReplayWindow sz).

(** The SA and the sequence number of a packet that caused an event. *)
Definition delivered (w : world) (pkt : bytes) (evs : list event) : list (loc * Z) :=
  match evs, LookupBySPI (saDB (eng w)) (pkt_spi pkt) with
  | _ :: _, Some l => [(l, pkt_seq pkt)]
  | _, _ => []
  end.

(** Everything that can happen to the engine, in any order; the log holds the
    deliveries so far. *)
Inductive engine_step : world * list (loc * Z) -> world * list (loc * Z) -> Prop :=
  | step_inbound w log buf n addr w' evs :
      bytes_wf buf -> 0 <= n <= len buf -> HandleInboundESP w buf n addr = (w', Ok evs) ->
      engine_step (w, log) (w', delivered w (sub buf 0 n) evs ++ log)
  | step_outbound w log rnd rd w' evs :
      good_rnd rnd -> rd <> Panic -> outboundStep w rnd rd = (w', Ok evs) ->
      engine_step (w, log) (w', log)
  | step_new_sa w log l sa :
      st w !! l = None -> sa_ok sa -> fresh_window (Window sa) ->
      engine_step (w, log) (set_sa w l sa, log)
  | step_add_inbound w log l sa w' r :
      st w !! l = Some sa -> Window sa <> None -> AddInboundSA w (Some l) = (w', r) ->
      engine_step (w, log) (w', log)
  | step_remove_inbound w log spi :
      engine_step (w, log) (RemoveInboundSA w spi, log)
  | step_add_outbound w log dst l :
      is_Some (st w !! l) ->
      engine_step (w, log) (mkWorld (st w) (AddOutboundSA (eng w) dst (Some l)).1, log)
  | step_remove_outbound w log dst :
      engine_step (w, log) (mkWorld (st w) (RemoveOutboundSA (eng w) dst), log)
  | step_default w log p :
      (forall l, p = Some l -> is_Some (st w !! l)) ->
      engine_step (w, log) (mkWorld (st w) (SetDefaultOutboundSA (eng w) p), log)
  | step_handler w log h :
      engine_step (w, log) (mkWorld (st w) (SetL2TPHandler (eng w) h), log).

Record history_ok (s : world * list (loc * Z)) : Prop := {
  hk_world : world_ok s.1;
  hk_window spi l : bySPI (saDB (eng s.1)) !! spi = Some l ->
    exists sa, st s.1 !! l = Some sa /\ Window sa <> None;
  hk_log : exists h : loc -> list Z,
    (forall l sa rw, st s.1 !! l = Some sa -> Window sa = Some rw -> Replay.tracks rw (h l)) /\
    (forall l q, (l, q) ∈ s.2 -> is_Some (st s.1 !! l) /\ q ∈ h l);
  hk_nodup : NoDup s.2
}.

(** One SA moves its window by a number it had not seen. *)
Lemma log_advance (h : loc -> list Z) (m : store) l sa sa' (log : list (loc * Z)) q rw :
  (forall l sa rw, m !! l = Some sa -> Window sa = Some rw -> Replay.tracks rw (h l)) ->
  (forall l q, (l, q) ∈ log -> is_Some (m !! l) /\ q ∈ h l) ->
  m !! l = Some sa -> Window sa = Some rw -> Window sa' = Some (Replay.Advance rw q) ->
  0 < q < 18446744073709551616 ->
  exists h' : loc -> list Z,
    (forall k s w, <[l := sa']> m !! k = Some s -> Window s = Some w -> Replay.tracks w (h' k)) /\
    (forall k x, (k, x) ∈ (l, q) :: log -> is_Some (<[l := sa']> m !! k) /\ x ∈ h' k).
Proof.
  intros Ht Hlog Hl Hw Hw' Hq. exists (fun k => if decide (k = l) then q :: h k else h k). split.
  - intros k s w [[<- <-]|[Hne Hk]]%lookup_insert_Some Hsw.
    + rewrite decide_True by done. rewrite Hw' in Hsw. injection Hsw as <-.
      apply Replay.Advance_tracks; [|done]. by eapply Ht.
    + rewrite decide_False by done. by eapply Ht.
  - intros k x [Hx|Hx]%elem_of_cons.
    + simplify_eq. rewrite lookup_insert_eq, decide_True by done. split; [done|set_solver].
    + destruct (Hlog k x Hx) as [Hs Hin]. split; [by apply lookup_insert_is_Some'; right|].
      case_decide; [set_solver|done].
Qed.

Lemma set_sa_windows w l sa sa' :
  st w !! l = Some sa -> (Window sa <> None -> Window sa' <> None) ->
  (forall spi k, bySPI (saDB (eng w)) !! spi = Some k ->
    exists s, st w !! k = Some s /\ Window s <> None) ->
  (forall spi k, bySPI (saDB (eng w)) !! spi = Some k ->
    exists s, st (set_sa w l sa') !! k = Some s /\ Window s <> None).
Proof.
  intros Hl Hw H spi k Hk. destruct (H spi k Hk) as (s & Hs & Hn). cbn.
  destruct (decide (k = l)) as [->|Hne].
  - exists sa'. rewrite lookup_insert_eq. simplify_eq. auto.
  - exists s. by rewrite lookup_insert_ne.
Qed.

Lemma history_inbound w log buf n addr w' evs :
  history_ok (w, log) -> bytes_wf buf -> 0 <= n <= len buf ->
  HandleInboundESP w buf n addr = (w', Ok evs) ->
  history_ok (w', delivered w (sub buf 0 n) evs ++ log).
Proof.
  intros [Hwk Hwin (h & Ht & Hlog) Hnd] Hwf Hn E. cbn in *.
  destruct (inbound_cases w buf n addr Hwk Hwf Hn) as (w1 & evs1 & E1 & Hlen & Hcase).
  rewrite E in E1. injection E1 as <- <-.
  destruct Hcase as [[-> ->]|(l & sa & Hlk & Hsa & _ & Hc & (sa' & -> & Hspi & Hw' & Hok') & _)].
  { constructor; cbn; eauto. }
  set (pkt := sub buf 0 n) in *. set (q := pkt_seq pkt) in *.
  destruct (Hwin _ _ Hlk) as (sa0 & Hsa0 & Hne). rewrite Hsa in Hsa0. injection Hsa0 as <-.
  destruct (Window sa) as [rw|] eqn:Erw; [|done]. cbn in Hc, Hw'.
  assert (bytes_wf pkt) as Hwp by (by apply Forall_sub).
  pose proof (pkt_seq_u32 pkt Hwp) as [Hq0 Hq1]. fold q in Hq0, Hq1.
  destruct (Replay.Check_fresh rw (h l) q (Ht _ _ _ Hsa Erw) Hq0 Hc) as [Hqn Hfresh].
  destruct (log_advance h (st w) l sa sa' log q rw Ht Hlog Hsa Erw Hw' ltac:(lia)) as (h' & H1 & H2).
  assert (forall k x, (k, x) ∈ delivered w pkt evs ++ log -> (k, x) ∈ (l, q) :: log) as Hsub.
  { intros k x. unfold delivered. rewrite Hlk. fold q. destruct evs; set_solver. }
  constructor; cbn.
  - by eapply set_sa_ok.
  - eapply set_sa_windows; [exact Hsa|by rewrite Hw'|exact Hwin].
  - exists h'. split; [exact H1|]. intros k x Hx. by apply H2, Hsub.
  - unfold delivered. rewrite Hlk. fold q. destruct evs; cbn; [done|]. constructor; [|done].
    intros Hin. by destruct (Hlog _ _ Hin).
Qed.

(** Steps that leave every window alone. *)
Lemma history_same_windows w w' log :
  history_ok (w, log) -> world_ok w' ->
  (forall l sa', st w' !! l = Some sa' -> (exists sa, st w !! l = Some sa /\ Window sa' = Window sa) \/
     (st w !! l = None /\ fresh_window (Window sa'))) ->
  (forall l, is_Some (st w !! l) -> is_Some (st w' !! l)) ->
  (forall spi l, bySPI (saDB (eng w')) !! spi = Some l ->
    exists sa, st w' !! l = Some sa /\ Window sa <> None) ->
  history_ok (w', log).
Proof.
  intros [Hwk Hwin (h & Ht & Hlog) Hnd] Hwk' Hsas Hdom Hwin'. cbn in *.
  constructor; cbn; [done|done| |done].
  exists (fun l => match st w !! l with Some _ => h l | None => [] end). split.
  - intros l sa' rw Hl Hw.
    destruct (Hsas l sa' Hl) as [(sa & Hsa & Heq)|[Hn Hf]].
    + rewrite Hsa. rewrite Heq in Hw. by eapply Ht.
    + rewrite Hn. destruct Hf as [Hf|(sz & ? & ? & Hf)]; [congruence|].
      rewrite Hf in Hw. injection Hw as <-. by apply Replay.New_tracks.
  - intros l q Hin. destruct (Hlog l q Hin) as [[sa Hsa] Hq]. split; [by apply Hdom|]. by rewrite Hsa.
Qed.

Lemma history_same_store w e log :
  history_ok (w, log) -> world_ok (mkWorld (st w) e) ->
  (forall spi l, bySPI (saDB e) !! spi = Some l ->
    bySPI (saDB (eng w)) !! spi = Some l \/ exists sa, st w !! l = Some sa /\ Window sa <> None) ->
  history_ok (mkWorld (st w) e, log).
Proof.
  intros Hh Hwk Hdb. apply (history_same_windows w); cbn; [done|done| |done|].
  - intros l sa Hl. left. eauto.
  - intros spi l Hl. destruct (Hdb spi l Hl) as [H|H]; [by apply (hk_window _ Hh) in H|done].
Qed.

Lemma history_new_sa w log l sa :
  history_ok (w, log) -> st w !! l = None -> sa_ok sa -> fresh_window (Window sa) ->
  history_ok (set_sa w l sa, log).
Proof.
  intros Hh Hl Hok Hf. pose proof (hk_world _ Hh) as Hwk. cbn in Hwk.
  apply (history_same_windows w); [done| | | |].
  - destruct Hwk as [Hdb Hsas Hspd Hdef].
    assert (forall k, is_Some (st w !! k) -> is_Some (<[l:=sa]> (st w) !! k)) as Hdom
      by (intros k Hk; by apply lookup_insert_is_Some'; right).
    constructor; cbn; eauto.
    + eapply db_ok_store_le; [by apply store_le_fresh|done].
    + cbn. intros k s [[<- <-]|[_ ?]]%lookup_insert_Some; [done|by eapply Hsas].
    + intros k p Hk. destruct (Hspd k p Hk) as (m & ? & ?). eauto.
  - cbn. intros k s [[<- <-]|[_ ?]]%lookup_insert_Some; [by right|left; eauto].
  - cbn. intros k Hk. by apply lookup_insert_is_Some'; right.
  - intros spi k Hk. destruct (hk_window _ Hh spi k Hk) as (s & Hs & ?). cbn in Hs.
    exists s. cbn. rewrite lookup_insert_ne by congruence. done.
Qed.

Lemma history_step s s' : history_ok s -> engine_step s s' -> history_ok s'.
Proof.
  intros Hh Hs. pose proof (hk_world _ Hh) as Hwk. destruct Hs as [|w log rnd rd w' evs Hr Hd E0|w log l sa Hl Hok Hf|w log l sa w' r Hl Hw E0|
    | | | |]; cbn [fst snd] in *.
  - by eapply history_inbound.
  - destruct (outbound_cases w rnd rd Hwk Hr Hd) as (w1 & ev1 & E & Hcase).
    rewrite E0 in E. injection E as <- <-. destruct Hcase as [[-> _]|(p & l & out & _ & _ & Hl & out' & r & _ & -> & Hw & Hspi & Hok & _)];
      [by apply Hh|].
    apply (history_same_windows w); [done|by eapply set_sa_ok| | |].
    + cbn. intros k s [[<- <-]|[_ ?]]%lookup_insert_Some; left; eauto.
    + cbn. intros k Hk. by apply lookup_insert_is_Some'; right.
    + apply (set_sa_windows w l out out'); [done|by rewrite Hw|apply (hk_window _ Hh)].
  - by apply history_new_sa.
  - destruct (AddInboundSA_ok w l w' r Hwk E0) as (Hwk' & Hst & Hdb).
    destruct w' as [st' e]. cbn in *. subst st'. apply history_same_store; [done|done|].
    intros spi k Hk. destruct (Hdb spi k Hk) as [->|?]; [right; eauto|by left].
  - apply history_same_store; [done| |].
    + destruct Hwk. constructor; cbn; eauto. by apply RemoveInbound_ok.
    + intros k m. cbn. unfold RemoveInbound. case_match; [|by left]. cbn.
      intros [_ ?]%lookup_delete_Some. by left.
  - apply history_same_store; [done| |by left]. destruct Hwk. constructor; cbn; eauto.
    intros k p [[_ <-]|[_ ?]]%lookup_insert_Some; eauto.
  - apply history_same_store; [done| |by left]. destruct Hwk. constructor; cbn; eauto.
    intros k p [_ ?]%lookup_delete_Some; eauto.
  - apply history_same_store; [done| |by left]. destruct Hwk. constructor; cbn; eauto.
  - apply history_same_store; [done| |by left]. destruct Hwk. constructor; cbn; eauto.
Qed.

Lemma pkt_spi_sent sa rnd seq p nh pkt :
  is_u32 (SPI sa) -> sent_packet sa rnd seq p nh pkt -> pkt_spi pkt = SPI sa.
Proof.
  intros Hs [(_ & aead & _ & _ & ->)|(_ & _ & block & integ & iv & icv & _ & _ & _ & _ & _ & ->)];
    unfold aead_packet, cbc_body, pkt_spi; rewrite <- !app_assoc;
    (rewrite ParseHeader_put; [done|done|apply low32_u32]).
Qed.

(** A packet sent by the other end, at the engine that holds its keys. *)
Lemma deliver_sent w m inb out rnd seq p pkt from :
  sa_ok inb -> sa_ok out -> good_rnd rnd -> bytes_wf p -> sent_packet out rnd seq p (next_header p) pkt ->
  LookupBySPI (saDB (eng w)) (SPI out) = Some m -> st w !! m = Some inb ->
  same_keys inb out -> SPI out <> 0 -> tunWriter (eng w) = true ->
  window_check (Window inb) (low32 seq) = true ->
  (HandleInboundESP w pkt (len pkt) from).2 = Ok [WritePacket p].
Proof.
  intros Hri Hso Hrnd Hwp Hp Hlk Hm Hk Hnz Htun Hw. unfold HandleInboundESP.
  pose proof (classify_sent C CL out rnd seq p _ pkt (sa_spi _ Hso) Hnz Hrnd Hp) as Hc.
  assert (9 <= len pkt) as Hlen.
  { apply ClassifyNATT_complete in Hc. inversion Hc as [| |_ Hl]. done. }
  destruct (Z.ltb_spec (len pkt) ESPHeaderLen); [unfold ESPHeaderLen in *; lia|].
  rewrite slice_all, bind_Ok, Hc.
  destruct (ParseHeader_total pkt) as (h & Hh & _); [lia|]. rewrite Hh.
  assert (hdr_SPI h = SPI out) as ->.
  { pose proof (pkt_spi_sent out rnd seq p _ pkt (sa_spi _ Hso) Hp) as Hs.
    unfold pkt_spi in Hs. by rewrite Hh in Hs. }
  rewrite Hlk. unfold inboundSA. rewrite Hm.
  destruct (detectIPVersion_ok p) as (nh & Enh & Hnh). unfold next_header in Hp. rewrite Enh in Hp.
  rewrite (Decrypt_sent rnd out inb seq p nh pkt); try done.
  - cbn [snd]. unfold route. rewrite Htun.
    by destruct Hnh as [-> | ->].
  - destruct Hnh as [-> | ->]; unfold is_u8, NextHeaderIPv4, NextHeaderIPv6; lia.
  - by destruct Hnh as [-> | ->].
Qed.

(** ** Theorems *)

(** an inbound datagram never panics the engine and never forges anything:
    unless it is ESP under the SPI of a registered SA, passes that SA's
    authentication and is new to its window, the engine's world is unchanged and
    nothing is written, handed over or sent; otherwise at most one event follows,
    the routing of what [Decrypt] returned, and only that SA has changed. *)
Theorem inbound_safe w buf n addr :
  world_ok w -> bytes_wf buf -> 0 <= n <= len buf ->
  exists w' evs, HandleInboundESP w buf n addr = (w', Ok evs) /\ world_ok w' /\
    (length evs <= 1)%nat /\
    ((w' = w /\ evs = []) \/
     exists l sa, inbound_effect w (sub buf 0 n) addr l sa w' evs).
Proof.
  intros Hok Hwf Hn. destruct (inbound_cases w buf n addr Hok Hwf Hn) as (w' & evs & E & Hl & Hc).
  exists w', evs. split_and!; [done| |done|done].
  destruct Hc as [[-> _]|(l & sa & _ & Hsa & _ & _ & (sa' & -> & ? & _ & ?) & _)]; [done|].
  by eapply set_sa_ok.
Qed.

(** whatever happens to the engine, in any order (datagrams in, packets out,
    SAs created, registered, removed, routes and default changed), no inbound SA
    ever delivers two packets with the same sequence number. *)
Theorem engine_at_most_once e w log :
  world_ok (mkWorld ∅ e) -> bySPI (saDB e) = ∅ ->
  star engine_step (mkWorld ∅ e, []) (w, log) -> NoDup log.
Proof.
  intros Hok Hdb Hs. apply (hk_nodup (w, log)).
  eapply (star_invariant engine_step history_ok); [apply history_step| |exact Hs].
  constructor; cbn; [done| | |constructor].
  - intros spi l. by rewrite Hdb, lookup_empty.
  - exists (fun _ => []). split; [intros l sa rw; by rewrite lookup_empty|].
    by intros l q ?%not_elem_of_nil.
Qed.

(** C3: two engines make a tunnel.  Whatever event the outbound path of one
    causes for a packet read from its TUN device is the sending of an ESP datagram
    to the peer of the SA its policy selects; and an engine that holds the same
    keys under that SPI, and has not seen the number, writes exactly this packet
    to its own TUN device when it receives the datagram. *)
Theorem engines_tunnel wA wA' rnd p evs ev wB m inb from :
  world_ok wA -> world_ok wB -> good_rnd rnd -> bytes_wf p ->
  outboundStep wA rnd (Ok p) = (wA', Ok evs) -> ev ∈ evs ->
  exists l out pkt peer,
    selectOutbound (eng wA) (dst_of p) = Some l /\ st wA !! l = Some out /\
    PeerAddr out = Some peer /\ ev = SendTo (nattPort (eng wA)) pkt peer /\
    (LookupBySPI (saDB (eng wB)) (SPI out) = Some m -> st wB !! m = Some inb ->
     same_keys inb out -> SPI out <> 0 -> tunWriter (eng wB) = true ->
     window_check (Window inb) (low32 (next_seq out)) = true ->
     (HandleInboundESP wB pkt (len pkt) from).2 = Ok [WritePacket p]).
Proof.
  intros HA HB Hrnd Hwp Hstep Hev.
  destruct (outbound_cases wA rnd (Ok p) HA Hrnd) as (w1 & ev1 & E & Hcase); [done|].
  rewrite Hstep in E. injection E as <- <-.
  destruct Hcase as [[_ ->]|(p' & l & out & [= <-] & Hsel & Hl & out' & r & He & _ & _ & _ & _ & ->)];
    [by apply not_elem_of_nil in Hev|].
  destruct r as [pkt|er|]; [|by apply not_elem_of_nil in Hev..].
  destruct (PeerAddr out) as [peer|] eqn:Ep; [|by apply not_elem_of_nil in Hev].
  destruct (udpSender (eng wA)); [|by apply not_elem_of_nil in Hev].
  apply list_elem_of_singleton in Hev as ->. exists l, out, pkt, peer. split_and!; try done.
  intros Hlk Hm Hk Hnz Htun Hw.
  pose proof (wk_sas _ HA _ _ Hl) as Hso.
  destruct (Encrypt_inv _ _ _ _ _ _ Hso Hrnd He) as (_ & Hp & _).
  apply (deliver_sent wB m inb out rnd (next_seq out) p pkt from); try done; by eapply wk_sas.
Qed.

(** an inbound datagram from a new address only ever changes the inbound SA
    it was decrypted under.  The outbound SA of the same peer is a different
    object, so what the engine sends, and to which address, is as before: the
    address learned after NAT rebinding is never used for sending. *)
Theorem rebinding_not_outbound w buf n addr w' evs rnd p l :
  world_ok w -> bytes_wf buf -> 0 <= n <= len buf ->
  HandleInboundESP w buf n addr = (w', Ok evs) ->
  selectOutbound (eng w) (dst_of p) = Some l ->
  (forall spi, LookupBySPI (saDB (eng w)) spi <> Some l) ->
  st w' !! l = st w !! l /\ (outboundStep w' rnd (Ok p)).2 = (outboundStep w rnd (Ok p)).2.
Proof.
  intros Hok Hwf Hn E Hsel Hout.
  destruct (inbound_cases w buf n addr Hok Hwf Hn) as (w1 & ev1 & E1 & _ & Hcase).
  rewrite E in E1. injection E1 as <- <-.
  assert (st w' !! l = st w !! l /\ eng w' = eng w) as [Hst Heng].
  { destruct Hcase as [[-> _]|(k & sa & Hlk & _ & _ & _ & (sa' & -> & _) & _)]; [done|].
    cbn. split; [|done]. rewrite lookup_insert_ne; [done|]. intros ->. by apply (Hout (pkt_spi (sub buf 0 n))). }
  split; [done|]. unfold outboundStep. rewrite Heng.
  destruct (len p =? 0); [done|].
  destruct (detectIPVersion_ok p) as (nh & Enh & _). destruct (extractDstIP_ok p) as (ip & Eip).
  unfold dst_of in Hsel. rewrite Eip in Hsel. rewrite Enh, Eip, !bind_Ok, Hsel, Hst.
  destruct (st w !! l) as [sa|]; [|done].
  by destruct (Encrypt rnd (Some sa) p nh) as [[sa'|] [|?|]].
Qed.
End Properties.

(** ** Witnesses *)

Section Demo.
Import Toy.

Definition demo_peer : UDPAddr := mkUDPAddr [203; 0; 113; 7] 4500.
Definition demo_from : UDPAddr := mkUDPAddr [198; 51; 100; 2] 61000.

Definition demo_A : world :=
  mkWorld {[0%nat := with_PeerAddr demo_sa (Some demo_peer)]}
    (mkEngine NewSADatabase true true true (Some 0%nat) 4500 false ∅).

Definition demo_B : world :=
  mkWorld {[0%nat := with_PeerAddr demo_sa (Some demo_peer); 1%nat := with_PeerAddr demo_cbc (Some demo_peer)]}
    (mkEngine (mkDB {[4096 := 0%nat]} []) true true true (Some 1%nat) 4500 false ∅).

Lemma with_PeerAddr_ok sa a : sa_ok sa -> sa_ok (with_PeerAddr sa a).
Proof. intros []; by constructor. Qed.

Lemma demo_A_ok : world_ok demo_A.
Proof.
  constructor; cbn.
  - apply New_ok.
  - intros l sa [_ <-]%lookup_singleton_Some. by apply with_PeerAddr_ok, demo_sa_ok.
  - intros k p. by rewrite lookup_empty.
  - intros l [= <-]. by eexists.
Qed.

Lemma demo_B_ok : world_ok demo_B.
Proof.
  constructor; cbn.
  - constructor; cbn; [|by intros l ?%not_elem_of_nil].
    intros spi l [<- <-]%lookup_singleton_Some. eexists. split_and!; [reflexivity|done|done].
  - intros l sa [[_ <-]|[_ [_ <-]%lookup_singleton_Some]]%lookup_insert_Some;
      apply with_PeerAddr_ok; [apply demo_sa_ok|apply demo_cbc_ok].
  - intros k p. by rewrite lookup_empty.
  - intros l [= <-]. by eexists.
Qed.

Definition demo_ip : bytes :=
  [69; 0; 0; 24; 0; 0; 64; 0; 64; 17; 0; 0; 10; 0; 0; 1; 192; 168; 1; 9; 1; 2; 3; 4].

Definition demo_datagram : bytes :=
  match outboundStep demo_A None (Ok demo_ip) with
  | (_, Ok [SendTo _ pkt _]) => pkt
  | _ => []
  end.

Lemma inbound_safe_witness :
  (HandleInboundESP demo_B demo_datagram (len demo_datagram) demo_from).2 = Ok [WritePacket demo_ip] /\
  (exists w' evs, HandleInboundESP demo_B demo_datagram (len demo_datagram) demo_from = (w', Ok evs) /\
     world_ok w').
Proof.
  split; [vm_compute; reflexivity|].
  destruct (inbound_safe demo_B demo_datagram (len demo_datagram) demo_from demo_B_ok) as (w' & evs & E & Hw & _).
  - apply (bool_decide_unpack _). vm_compute. exact I.
  - split; [apply len_nonneg|lia].
  - exists w', evs. by split.
Defined.

Definition demo_engine : Engine := mkEngine NewSADatabase true true true None 4500 false ∅.

(** A history: an SA is created and registered, and a datagram delivered, twice. *)
Lemma engine_at_most_once_witness :
  exists w, star engine_step (mkWorld ∅ demo_engine, []) (w, [(0%nat, 1)]) /\ NoDup [(0%nat, 1)].
Proof.
  assert (world_ok (mkWorld ∅ demo_engine)) as Hok.
  { constructor; cbn; [apply New_ok|intros ? ?; by rewrite lookup_empty..|done]. }
  set (w1 := set_sa (mkWorld ∅ demo_engine) 0%nat demo_sa).
  set (w2 := (AddInboundSA w1 (Some 0%nat)).1).
  set (w3 := (HandleInboundESP w2 demo_datagram (len demo_datagram) demo_from).1).
  set (w4 := (HandleInboundESP w3 demo_datagram (len demo_datagram) demo_from).1).
  assert (bytes_wf demo_datagram) as Hwf by (apply (bool_decide_unpack _); vm_compute; exact I).
  assert (star engine_step (mkWorld ∅ demo_engine, []) (w4, [(0%nat, 1)])) as Hs.
  { eapply star_snoc; [eapply star_snoc; [eapply star_snoc; [eapply star_snoc; [apply star_refl|]|]|]|].
    - apply (step_new_sa (mkWorld ∅ demo_engine) [] 0%nat demo_sa); [done|apply demo_sa_ok|].
      right. exists 128. split_and!; [lia|lia|done].
    - apply (step_add_inbound w1 [] 0%nat demo_sa w2 (Ok tt)); [done|done|]. vm_compute. reflexivity.
    - apply (step_inbound w2 [] demo_datagram (len demo_datagram) demo_from w3 [WritePacket demo_ip] Hwf);
        [split; [apply len_nonneg|lia]|vm_compute; reflexivity].
    - assert (HandleInboundESP w3 demo_datagram (len demo_datagram) demo_from = (w4, Ok [])) as E
        by (vm_compute; reflexivity).
      pose proof (step_inbound w3 [(0%nat, 1)] demo_datagram (len demo_datagram) demo_from w4 [] Hwf
        (conj (len_nonneg _) (Z.le_refl _)) E) as Hst.
      replace (delivered w2 (sub demo_datagram 0 (len demo_datagram)) [WritePacket demo_ip] ++ [])
        with [(0%nat, 1)] by (vm_compute; reflexivity).
      exact Hst. }
  exists w4. split; [exact Hs|].
  exact (engine_at_most_once demo_engine w4 [(0%nat, 1)] Hok eq_refl Hs).
Defined.

Lemma engines_tunnel_witness :
  exists pkt, (outboundStep demo_A None (Ok demo_ip)).2 = Ok [SendTo 4500 pkt demo_peer] /\
    (HandleInboundESP demo_B pkt (len pkt) demo_from).2 = Ok [WritePacket demo_ip].
Proof.
  assert (outboundStep demo_A None (Ok demo_ip) =
    ((outboundStep demo_A None (Ok demo_ip)).1, Ok [SendTo 4500 demo_datagram demo_peer])) as E
    by (vm_compute; reflexivity).
  exists demo_datagram. split; [by rewrite E|].
  assert (bytes_wf demo_ip) as Hwf by (apply (bool_decide_unpack _); vm_compute; exact I).
  destruct (engines_tunnel demo_A (outboundStep demo_A None (Ok demo_ip)).1 None demo_ip
    [SendTo 4500 demo_datagram demo_peer] (SendTo 4500 demo_datagram demo_peer) demo_B 0%nat
    (with_PeerAddr demo_sa (Some demo_peer)) demo_from demo_A_ok demo_B_ok)
    as (l & out & pkt & peer & Hsel & Hl & Hp & Hev & H);
    [by intros ?|exact Hwf|exact E|by apply list_elem_of_singleton|].
  injection Hev as -> _.
  assert (out = with_PeerAddr demo_sa (Some demo_peer)) as ->.
  { vm_compute in Hsel. injection Hsel as <-. vm_compute in Hl. injection Hl as <-. reflexivity. }
  apply H; [reflexivity|reflexivity|by repeat split|cbn; lia|reflexivity|vm_compute; reflexivity].
Defined.

Lemma rebinding_not_outbound_witness :
  exists w', HandleInboundESP demo_B demo_datagram (len demo_datagram) demo_from =
      (w', Ok [WritePacket demo_ip]) /\
    (PeerAddr <$> st w' !! 0%nat) = Some (Some demo_from) /\ st w' !! 1%nat = st demo_B !! 1%nat.
Proof.
  eexists. split; [vm_compute; reflexivity|]. split; [vm_compute; reflexivity|].
  eapply (rebinding_not_outbound demo_B demo_datagram (len demo_datagram) demo_from _
    [WritePacket demo_ip] None demo_ip 1%nat demo_B_ok).
  - apply (bool_decide_unpack _). vm_compute. exact I.
  - split; [apply len_nonneg|lia].
  - vm_compute. reflexivity.
  - reflexivity.
  - intros spi. unfold LookupBySPI. cbn. intros [_ ?]%lookup_singleton_Some. done.
Defined.
End Demo.
End Engine.
