(* ===== verification/L2tpPacket.v ===== *)
(** * L2tpPacket: L2TP headers, attribute-value pairs and PPP frames
      ([internal/l2tp/packet.go], [internal/l2tp/ppp.go])

    Parsers and serializers, their totality and their round trips. *)

From S2P Require Import Prelude.
Open Scope string_scope.
Open Scope list_scope.
Open Scope Z_scope.

Module Packet.

(** ** Header *)

Definition flagType : Z := 32768.
Definition flagLength : Z := 16384.
Definition flagSequence : Z := 2048.
Definition flagOffset : Z := 512.
Definition flagPriority : Z := 256.
Definition versionMask : Z := 15.
Definition version2 : Z := 2.

Definition MsgSCCRQ : Z := 1.
Definition MsgSCCRP : Z := 2.
Definition MsgSCCCN : Z := 3.
Definition MsgStopCCN : Z := 4.
Definition MsgHello : Z := 6.
Definition MsgICRQ : Z := 10.
Definition MsgICRP : Z := 11.
Definition MsgICCN : Z := 12.
Definition MsgCDN : Z := 14.

Definition AVPMessageType : Z := 0.
Definition AVPResultCode : Z := 1.
Definition AVPProtocolVersion : Z := 2.
Definition AVPFramingCap : Z := 3.
Definition AVPBearerCap : Z := 4.
Definition AVPFirmwareRevision : Z := 6.
Definition AVPHostName : Z := 7.
Definition AVPVendorName : Z := 8.
Definition AVPAssignedTunnelID : Z := 9.
Definition AVPReceiveWindowSize : Z := 10.
Definition AVPChallenge : Z := 11.
Definition AVPChallengeResponse : Z := 13.
Definition AVPAssignedSessionID : Z := 14.
Definition AVPCallSerialNumber : Z := 15.
Definition AVPFramingType : Z := 19.
Definition AVPTxConnectSpeed : Z := 24.

Record Header := mkHeader {
  IsControl : bool;
  HasLength : bool;
  HasSequence : bool;
  HasOffset : bool;
  Priority : bool;
  Length : Z;
  TunnelID : Z;
  SessionID : Z;
  Ns : Z;
  Nr : Z
}.

Definition minControlHeaderLen : Z := 12.
Definition minDataHeaderLen : Z := 6.

(** [flags&f != 0] *)
Definition has (flags f : Z) : bool := negb (Z.land flags f =? 0).

Definition ParseHeader (data : bytes) : res (Header * bytes) :=
  if len data <? minDataHeaderLen then Err "l2tp: packet too short"
  else
    flags ← be16_at data 0;
    if negb (Z.land flags versionMask =? version2) then Err "l2tp: unsupported version"
    else
    let isControl := has flags flagType in
    let hasLength := has flags flagLength in
    let hasSequence := has flags flagSequence in
    let hasOffset := has flags flagOffset in
    if isControl && (negb hasLength || negb hasSequence)
    then Err "l2tp: control message missing required L/S bits"
    else
    '(length, offset) ←
      (if hasLength then
         if len data <? 2 + 2 then Err "l2tp: truncated length field"
         else
           length ← be16_at data 2;
           if length >? len data then Err "l2tp: stated length exceeds packet size"
           else Ok (length, 4)
       else Ok (0, 2));
    if len data <? offset + 4 then Err "l2tp: truncated tunnel/session ID"
    else
    tunnelID ← be16_at data offset;
    sessionID ← be16_at data (offset + 2);
    let offset := offset + 4 in
    '(ns, nr, offset) ←
      (if hasSequence then
         if len data <? offset + 4 then Err "l2tp: truncated Ns/Nr fields"
         else
           ns ← be16_at data offset;
           nr ← be16_at data (offset + 2);
           Ok (ns, nr, offset + 4)
       else Ok (0, 0, offset));
    offset ←
      (if hasOffset then
         if len data <? offset + 2 then Err "l2tp: truncated offset field"
         else
           offsetSize ← be16_at data offset;
           Ok (offset + (2 + offsetSize))
       else Ok offset);
    let end_ := if hasLength then length else len data in
    if offset >? end_ then Err "l2tp: header overflows packet"
    else
      payload ← slice data offset end_;
      Ok (mkHeader isControl hasLength hasSequence hasOffset (has flags flagPriority)
            length tunnelID sessionID ns nr, payload).

(** The flag word [SerializeHeader] computes. *)
Definition header_flags (hdr : Header) : Z :=
  let flags := version2 in
  let flags := if IsControl hdr then Z.lor flags (Z.lor (Z.lor flagType flagLength) flagSequence) else flags in
  let flags := if HasLength hdr then Z.lor flags flagLength else flags in
  let flags := if HasSequence hdr then Z.lor flags flagSequence else flags in
  let flags := if HasOffset hdr then Z.lor flags flagOffset else flags in
  if Priority hdr then Z.lor flags flagPriority else flags.

Definition SerializeHeader (hdr : Header) : res bytes :=
  let flags := header_flags hdr in
  let size := 2 in
  let size := if has flags flagLength then size + 2 else size in
  let size := size + 4 in
  let size := if has flags flagSequence then size + 4 else size in
  buf ← put16_at (make size) 0 flags;
  '(buf, offset) ←
    (if has flags flagLength then
       buf ← put16_at buf 2 (Length hdr); Ok (buf, 4)
     else Ok (buf, 2));
  buf ← put16_at buf offset (TunnelID hdr);
  buf ← put16_at buf (offset + 2) (SessionID hdr);
  let offset := offset + 4 in
  if has flags flagSequence then
    buf ← put16_at buf offset (Ns hdr);
    put16_at buf (offset + 2) (Nr hdr)
  else Ok buf.

Definition BuildControlHeader (tunnelID sessionID ns nr payloadLen : Z) : res bytes :=
  let totalLen := u16 (minControlHeaderLen + payloadLen) in
  SerializeHeader (mkHeader true true true false false totalLen tunnelID sessionID ns nr).

Definition BuildDataHeader (tunnelID sessionID : Z) : res bytes :=
  SerializeHeader (mkHeader false false false false false 0 tunnelID sessionID 0 0).

Definition BuildZLB (tunnelID ns nr : Z) : res bytes := BuildControlHeader tunnelID 0 ns nr 0.

(** ** Attribute-value pairs *)

Record AVP := mkAVP {
  Mandatory : bool;
  Hidden : bool;
  VendorID : Z;
  AttrType : Z;
  Value : bytes
}.

Definition avpHeaderLen : Z := 6.
Definition avpFlagMandatory : Z := 32768.
Definition avpFlagHidden : Z := 16384.
Definition avpLengthMask : Z := 1023.

(** One round of the loop of [ParseAVPs]: the AVP and the remaining data. *)
Definition parse_one (data : bytes) : res (AVP * bytes) :=
  flagsLen ← be16_at data 0;
  let avpLen := Z.land flagsLen avpLengthMask in
  if avpLen <? avpHeaderLen then Err "l2tp: AVP length below minimum"
  else if avpLen >? len data then Err "l2tp: AVP length exceeds remaining data"
  else
    vendor ← be16_at data 2;
    attr ← be16_at data 4;
    value ← (if avpLen >? avpHeaderLen then
               src ← slice data avpHeaderLen avpLen;
               copy_at (make (avpLen - avpHeaderLen)) 0 src
             else Ok []);
    rest ← slice data avpLen (len data);
    Ok (mkAVP (has flagsLen avpFlagMandatory) (has flagsLen avpFlagHidden) vendor attr value, rest).

(** Every round removes at least six bytes, so the length of the data is fuel
    enough ([ParseAVPs_unfold]). *)
Fixpoint parse_loop (fuel : nat) (data : bytes) : res (list AVP) :=
  if len data <? avpHeaderLen then Ok []
  else match fuel with
       | O => Panic
       | S fuel =>
         '(avp, rest) ← parse_one data;
         avps ← parse_loop fuel rest;
         Ok (avp :: avps)
       end.

Definition ParseAVPs (data : bytes) : res (list AVP) := parse_loop (length data) data.

Definition SerializeAVP (avp : AVP) : res bytes :=
  let totalLen := avpHeaderLen + len (Value avp) in
  let flagsLen := Z.land (u16 totalLen) avpLengthMask in
  let flagsLen := if Mandatory avp then Z.lor flagsLen avpFlagMandatory else flagsLen in
  let flagsLen := if Hidden avp then Z.lor flagsLen avpFlagHidden else flagsLen in
  buf ← put16_at (make totalLen) 0 flagsLen;
  buf ← put16_at buf 2 (VendorID avp);
  buf ← put16_at buf 4 (AttrType avp);
  if len (Value avp) >? 0 then copy_at buf avpHeaderLen (Value avp) else Ok buf.

Fixpoint SerializeAVPs (avps : list AVP) : res bytes :=
  match avps with
  | [] => Ok []
  | avp :: avps =>
    b ← SerializeAVP avp;
    rest ← SerializeAVPs avps;
    Ok (b ++ rest)
  end.

Definition NewMessageTypeAVP (msgType : Z) : AVP := mkAVP true false 0 AVPMessageType (put16 msgType).
Definition NewAssignedTunnelIDAVP (tunnelID : Z) : AVP :=
  mkAVP true false 0 AVPAssignedTunnelID (put16 tunnelID).
Definition NewAssignedSessionIDAVP (sessionID : Z) : AVP :=
  mkAVP true false 0 AVPAssignedSessionID (put16 sessionID).
Definition NewProtocolVersionAVP : AVP := mkAVP true false 0 AVPProtocolVersion [1; 0].
Definition NewHostNameAVP (hostname : bytes) : AVP := mkAVP true false 0 AVPHostName hostname.
Definition NewVendorNameAVP (vendor : bytes) : AVP := mkAVP false false 0 AVPVendorName vendor.
Definition NewFramingCapAVP : AVP := mkAVP true false 0 AVPFramingCap (put32 3).
Definition NewBearerCapAVP : AVP := mkAVP true false 0 AVPBearerCap (put32 3).
Definition NewReceiveWindowSizeAVP (windowSize : Z) : AVP :=
  mkAVP true false 0 AVPReceiveWindowSize (put16 windowSize).
Definition NewFirmwareRevisionAVP (revision : Z) : AVP :=
  mkAVP false false 0 AVPFirmwareRevision (put16 revision).
Definition NewChallengeAVP (challenge : bytes) : AVP := mkAVP true false 0 AVPChallenge challenge.
Definition NewChallengeResponseAVP (response : bytes) : AVP :=
  mkAVP true false 0 AVPChallengeResponse response.

Definition NewResultCodeAVP (resultCode errorCode : Z) (errorMsg : bytes) : res AVP :=
  let more := negb (errorCode =? 0) || negb (len errorMsg =? 0) in
  let size := (if more then 2 + 2 else 2) + len errorMsg in
  val ← put16_at (make size) 0 resultCode;
  val ← (if more then
           val ← put16_at val 2 errorCode;
           if negb (len errorMsg =? 0) then copy_at val 4 errorMsg else Ok val
         else Ok val);
  Ok (mkAVP true false 0 AVPResultCode val).

Definition NewCallSerialNumberAVP (serial : Z) : AVP :=
  mkAVP true false 0 AVPCallSerialNumber (put32 serial).

Definition NewFramingTypeAVP (async sync : bool) : AVP :=
  let v := if async then Z.lor 0 2 else 0 in
  let v := if sync then Z.lor v 1 else v in
  mkAVP true false 0 AVPFramingType (put32 v).

Definition NewTxConnectSpeedAVP (bps : Z) : AVP := mkAVP true false 0 AVPTxConnectSpeed (put32 bps).

Fixpoint GetMessageType (avps : list AVP) : res Z :=
  match avps with
  | [] => Ok 0
  | avp :: avps =>
    if (VendorID avp =? 0) && (AttrType avp =? AVPMessageType) && (len (Value avp) >=? 2)
    then be16 (Value avp) else GetMessageType avps
  end.

(** [(value, true)] is [Some value], [(0, false)] is [None]. *)
Fixpoint GetAVPUint16 (avps : list AVP) (attrType : Z) : res (option Z) :=
  match avps with
  | [] => Ok None
  | avp :: avps =>
    if (VendorID avp =? 0) && (AttrType avp =? attrType) && (len (Value avp) >=? 2)
    then v ← be16 (Value avp); Ok (Some v) else GetAVPUint16 avps attrType
  end.

Fixpoint GetAVPUint32 (avps : list AVP) (attrType : Z) : res (option Z) :=
  match avps with
  | [] => Ok None
  | avp :: avps =>
    if (VendorID avp =? 0) && (AttrType avp =? attrType) && (len (Value avp) >=? 4)
    then v ← be32 (Value avp); Ok (Some v) else GetAVPUint32 avps attrType
  end.

Fixpoint GetAVPBytes (avps : list AVP) (attrType : Z) : option bytes :=
  match avps with
  | [] => None
  | avp :: avps =>
    if (VendorID avp =? 0) && (AttrType avp =? attrType) then Some (Value avp)
    else GetAVPBytes avps attrType
  end.

Definition GetAVPString (avps : list AVP) (attrType : Z) : option bytes := GetAVPBytes avps attrType.

(** ** PPP frames *)

Definition PPPProtoIPv4 : Z := 33.
Definition PPPProtoIPCP : Z := 32801.
Definition PPPProtoIPv6CP : Z := 32855.
Definition PPPProtoCCP : Z := 33021.
Definition PPPProtoLCP : Z := 49185.
Definition PPPProtoPAP : Z := 49187.
Definition PPPProtoCHAP : Z := 49699.

Definition pppAddress : Z := 255.
Definition pppControl : Z := 3.

Record PPPFrame := mkPPP { Protocol : Z; Payload : bytes }.

Definition ParsePPPFrame (data : bytes) : res PPPFrame :=
  if len data <? 2 then Err "ppp: frame too short"
  else
    b0 ← idx data 0;
    offset ← (if b0 =? pppAddress then
                if len data <? 4 then Err "ppp: frame too short for address+control"
                else
                  b1 ← idx data 1;
                  if negb (b1 =? pppControl) then Err "ppp: unexpected control byte" else Ok 2
              else Ok 0);
    remaining ← slice data offset (len data);
    if len remaining <? 1 then Err "ppp: missing protocol field"
    else
      r0 ← idx remaining 0;
      '(proto, offset) ←
        (if negb (Z.land r0 1 =? 0) then Ok (r0, offset + 1)
         else if len remaining <? 2 then Err "ppp: truncated 2-byte protocol field"
         else proto ← be16_at remaining 0; Ok (proto, offset + 2));
      payload ← slice data offset (len data);
      Ok (mkPPP proto payload).

Definition SerializePPPFrame (proto : Z) (payload : bytes) : res bytes :=
  frame ← set_at (make (4 + len payload)) 0 pppAddress;
  frame ← set_at frame 1 pppControl;
  frame ← put16_at frame 2 proto;
  if len payload >? 0 then copy_at frame 4 payload else Ok frame.

Definition SerializePPPFrameCompact (proto : Z) (payload : bytes) : res bytes :=
  frame ← put16_at (make (2 + len payload)) 0 proto;
  if len payload >? 0 then copy_at frame 2 payload else Ok frame.

(** ** Totality of the parsers *)

Lemma ParseHeader_not_Panic data : bytes_wf data -> ParseHeader data <> Panic.
Proof.
  intros Hwf. unfold ParseHeader, minDataHeaderLen. destruct (len data <? 6) eqn:?; [done|].
  repeat not_panic_step.
  all: pose proof (be16_at_u16 _ _ _ Hwf ltac:(eassumption)) as [? ?]; repeat not_panic_step.
Qed.

Lemma parse_one_spec data :
  bytes_wf data -> 6 <= len data ->
  match parse_one data with
  | Ok (avp, rest) => len rest + 6 + len (Value avp) = len data /\ bytes_wf rest
  | Err _ => True
  | Panic => False
  end.
Proof.
  intros Hwf Hl. unfold parse_one, avpHeaderLen.
  destruct (be16_at_total data 0) as [v ->]; [lia..|]. rewrite bind_Ok.
  destruct (Z.land v avpLengthMask <? 6) eqn:E1; [done|].
  destruct (_ >? len data) eqn:E2; [done|]. set (n := Z.land v avpLengthMask) in *.
  destruct (be16_at_total data 2) as [v1 ->]; [lia..|]. rewrite bind_Ok.
  destruct (be16_at_total data 4) as [v2 ->]; [lia..|]. rewrite bind_Ok.
  rewrite (slice_ok data n) by lia. destruct (n >? 6) eqn:E3.
  - rewrite slice_ok, bind_Ok by lia. rewrite (fill_start (n - 6)).
    rewrite fill_copy by (len_norm; rewrite ?len_sub; lia).
    rewrite !bind_Ok. cbn [Value]. rewrite make_0 by (rewrite len_sub; lia).
    len_norm. rewrite !len_sub by lia. split; [lia|by apply Forall_sub].
  - rewrite !bind_Ok. cbn [Value]. rewrite len_sub by lia. len_norm.
    split; [lia|by apply Forall_sub].
Qed.

(** More fuel than bytes changes nothing. *)
Lemma parse_loop_fuel f f' data :
  bytes_wf data -> (length data <= f)%nat -> (length data <= f')%nat ->
  parse_loop f data = parse_loop f' data.
Proof.
  revert f' data; induction f as [|f IH]; intros f' data Hwf Hf Hf'.
  - destruct data; [|cbn in Hf; lia]. by destruct f'.
  - destruct f' as [|f']; [destruct data; [done|cbn in Hf'; lia]|]. cbn [parse_loop].
    destruct (Z.ltb_spec (len data) avpHeaderLen) as [|Hl]; [done|]. unfold avpHeaderLen in Hl.
    pose proof (parse_one_spec data Hwf Hl) as Hp.
    destruct (parse_one data) as [[avp rest]|e|]; [|done..]. rewrite !bind_Ok.
    destruct Hp as [Hr Hwr]. pose proof (len_nonneg (Value avp)).
    rewrite (IH f' rest Hwr); [done|unfold len in *; lia..].
Qed.

(** The loop as the source has it: the fuel never runs out. *)
Lemma ParseAVPs_unfold data :
  bytes_wf data ->
  ParseAVPs data =
    if len data <? avpHeaderLen then Ok []
    else '(avp, rest) ← parse_one data; avps ← ParseAVPs rest; Ok (avp :: avps).
Proof.
  intros Hwf. unfold ParseAVPs at 1. destruct (Z.ltb_spec (len data) avpHeaderLen) as [|Hl].
  { destruct data; cbn [parse_loop length]; [done|]. by rewrite (proj2 (Z.ltb_lt _ _)). }
  unfold avpHeaderLen in Hl. pose proof (parse_one_spec data Hwf Hl) as Hp.
  destruct data as [|x data]; [by rewrite len_nil in Hl|]. cbn [parse_loop length].
  unfold avpHeaderLen. rewrite (proj2 (Z.ltb_ge _ _)) by done.
  destruct (parse_one (x :: data)) as [[avp rest]|e|]; [|done..]. rewrite !bind_Ok.
  destruct Hp as [Hr Hwr]. pose proof (len_nonneg (Value avp)). rewrite len_cons in Hr.
  unfold ParseAVPs. rewrite (parse_loop_fuel _ (length rest) rest Hwr); [done|unfold len in *; lia..].
Qed.

Lemma ParseAVPs_ind (P : bytes -> Prop) :
  (forall data, bytes_wf data ->
     (forall avp rest, 6 <= len data -> parse_one data = Ok (avp, rest) -> P rest) -> P data) ->
  forall data, bytes_wf data -> P data.
Proof.
  intros H data. remember (length data) as n eqn:Hn. revert data Hn.
  induction n as [n IH] using lt_wf_ind. intros data -> Hwf. apply H; [done|].
  intros avp rest Hl E. pose proof (parse_one_spec data Hwf Hl) as Hp. rewrite E in Hp.
  destruct Hp as [Hr Hwr]. pose proof (len_nonneg (Value avp)).
  eapply IH; [|reflexivity|done]. unfold len in *. lia.
Qed.

Lemma ParseAVPs_not_Panic data : bytes_wf data -> ParseAVPs data <> Panic.
Proof.
  revert data. apply ParseAVPs_ind. intros data Hwf IH. rewrite ParseAVPs_unfold by done.
  destruct (Z.ltb_spec (len data) avpHeaderLen) as [|Hl]; [done|]. unfold avpHeaderLen in Hl.
  pose proof (parse_one_spec data Hwf Hl) as Hp.
  destruct (parse_one data) as [[avp rest]|e|] eqn:E; [|done..]. rewrite bind_Ok.
  specialize (IH avp rest Hl eq_refl). by destruct (ParseAVPs rest).
Qed.

Lemma GetMessageType_not_Panic avps : GetMessageType avps <> Panic.
Proof.
  induction avps as [|avp avps IH]; cbn [GetMessageType]; [done|]. destruct (_ && _) eqn:E; [|done].
  apply andb_true_iff in E as [_ E]. destruct (be16_ok (Value avp)) as [v ->]; [lia|done].
Qed.

Lemma GetAVPUint16_total avps t : exists o, GetAVPUint16 avps t = Ok o.
Proof.
  induction avps as [|avp avps IH]; cbn [GetAVPUint16]; [eauto|]. destruct (_ && _) eqn:E; [|done].
  apply andb_true_iff in E as [_ E]. destruct (be16_ok (Value avp)) as [v ->]; [lia|eauto].
Qed.

Lemma ParsePPPFrame_not_Panic data : ParsePPPFrame data <> Panic.
Proof.
  unfold ParsePPPFrame. destruct (len data <? 2) eqn:?; [done|].
  assert (forall o, 0 <= o <= 2 -> o <= len data -> len (sub data o (len data)) = len data - o) as Hs
    by (intros; apply len_sub; lia).
  destruct (idx_total data 0) as (b0 & -> & _); [lia|]. rewrite bind_Ok.
  destruct (b0 =? pppAddress).
  - destruct (len data <? 4) eqn:?; [done|].
    destruct (idx_total data 1) as (b1 & -> & _); [lia|]. rewrite bind_Ok.
    destruct (negb _); [done|]. rewrite bind_Ok, slice_ok, bind_Ok by lia.
    pose proof (Hs 2 ltac:(lia) ltac:(lia)). repeat not_panic_step.
  - rewrite bind_Ok, slice_ok, bind_Ok by lia. pose proof (Hs 0 ltac:(lia) ltac:(lia)).
    repeat not_panic_step.
Qed.

(** ** Closed forms and round trips *)

Definition opt_bytes (b : bool) (l : bytes) : bytes := if b then l else [].

Definition header_bytes (hdr : Header) : bytes :=
  put16 (header_flags hdr) ++
  opt_bytes (IsControl hdr || HasLength hdr) (put16 (Length hdr)) ++
  put16 (TunnelID hdr) ++ put16 (SessionID hdr) ++
  opt_bytes (IsControl hdr || HasSequence hdr) (put16 (Ns hdr) ++ put16 (Nr hdr)).

Lemma header_flags_spec hdr :
  is_u16 (header_flags hdr) /\ Z.land (header_flags hdr) versionMask = version2 /\
  has (header_flags hdr) flagType = IsControl hdr /\
  has (header_flags hdr) flagLength = IsControl hdr || HasLength hdr /\
  has (header_flags hdr) flagSequence = IsControl hdr || HasSequence hdr /\
  has (header_flags hdr) flagOffset = HasOffset hdr /\
  has (header_flags hdr) flagPriority = Priority hdr.
Proof.
  destruct hdr as [[] [] [] [] [] ? ? ? ? ?]; split_and!; try reflexivity; unfold is_u16;
    match goal with |- context [header_flags ?h] =>
      let v := eval vm_compute in (header_flags h) in change (header_flags h) with v end; lia.
Qed.

Lemma SerializeHeader_ok hdr : SerializeHeader hdr = Ok (header_bytes hdr).
Proof.
  destruct (header_flags_spec hdr) as (_ & _ & _ & HL & HS & _). unfold SerializeHeader, header_bytes.
  rewrite HL, HS. destruct (IsControl hdr || HasLength hdr), (IsControl hdr || HasSequence hdr); reflexivity.
Qed.

(** A header its serialization determines, for this payload. *)
Record header_for (hdr : Header) (payload : bytes) : Prop := {
  hf_control : IsControl hdr = true -> HasLength hdr = true /\ HasSequence hdr = true;
  hf_offset : HasOffset hdr = false;
  hf_length : Length hdr = if HasLength hdr then len (header_bytes hdr) + len payload else 0;
  hf_seq : HasSequence hdr = false -> Ns hdr = 0 /\ Nr hdr = 0;
  hf_u16 : is_u16 (Length hdr) /\ is_u16 (TunnelID hdr) /\ is_u16 (SessionID hdr) /\
           is_u16 (Ns hdr) /\ is_u16 (Nr hdr)
}.

Lemma be16_at_skip16 v l a : 2 <= a -> be16_at (put16 v ++ l) a = be16_at l (a - 2).
Proof. intros. by rewrite be16_at_skip by (len_norm; lia). Qed.

Lemma be16_at_hd v l a : a = 0 -> is_u16 v -> be16_at (put16 v ++ l) a = Ok v.
Proof. intros -> ?. by apply be16_at_0. Qed.

(** Reads the 16-bit fields of a buffer in closed form. *)
Ltac read_fields :=
  repeat first
    [ rewrite be16_at_hd by (lia || done)
    | rewrite be16_at_skip16 by lia
    | rewrite bind_Ok ].

Lemma ParseHeader_header_bytes hdr payload trailing :
  header_for hdr payload -> trailing = [] \/ HasLength hdr = true ->
  ParseHeader (header_bytes hdr ++ payload ++ trailing) = Ok (hdr, payload).
Proof.
  intros [Hc Ho Hl Hs (U1 & U2 & U3 & U4 & U5)] Htr.
  destruct (header_flags_spec hdr) as (U0 & HV & HT & HL & HS & HO & HP).
  unfold ParseHeader, minDataHeaderLen, header_bytes in *.
  set (f := header_flags hdr) in *. clearbody f.
  destruct hdr as [c L S o p ln tid sid ns nr].
  cbn [IsControl HasLength HasSequence HasOffset Priority Length TunnelID SessionID Ns Nr] in *.
  subst o. pose proof (len_nonneg payload). pose proof (len_nonneg trailing).
  assert (c || L = L) as EL by (destruct c; [by destruct Hc as [-> _]|done]).
  assert (c || S = S) as ES by (destruct c; [by destruct Hc as [_ ->]|done]).
  rewrite EL, ES in *. rewrite <- !app_assoc.
  assert (c && (negb L || negb S) = false) as Hcs.
  { destruct c; [|done]. by destruct Hc as [-> ->]. }
  destruct L, S; cbn [opt_bytes app] in *; rewrite <- ?app_assoc; len_norm;
    rewrite (proj2 (Z.ltb_ge _ 6)) by lia;
    rewrite be16_at_0, bind_Ok, HV by done; cbn [Z.eqb Pos.eqb negb version2];
    rewrite HT, HL, HS, HO, HP, Hcs.
  all: repeat first [run_check | rewrite bind_Ok | rewrite be16_at_hd by (lia || done)
    | rewrite be16_at_skip16 by lia].
  all: repeat (rewrite slice_skip by (len_norm; lia)); rewrite ?len_put16.
  all: try (destruct Htr as [->|]; [|done]).
  all: try destruct (Hs eq_refl) as [-> ->].
  all: by rewrite slice_prefix, bind_Ok by (len_norm; lia); subst ln.
Qed.

Lemma ParseHeader_exact hdr payload :
  header_for hdr payload -> ParseHeader (header_bytes hdr ++ payload) = Ok (hdr, payload).
Proof.
  intros H. pose proof (ParseHeader_header_bytes hdr payload [] H (or_introl eq_refl)) as Hp.
  by rewrite app_nil_r in Hp.
Qed.

Lemma BuildControlHeader_ok tid sid ns nr n :
  BuildControlHeader tid sid ns nr n =
    Ok (put16 51202 ++ put16 (u16 (12 + n)) ++ put16 tid ++ put16 sid ++ put16 ns ++ put16 nr).
Proof. unfold BuildControlHeader. by rewrite SerializeHeader_ok. Qed.

Lemma BuildDataHeader_ok tid sid :
  BuildDataHeader tid sid = Ok (put16 2 ++ put16 tid ++ put16 sid).
Proof. unfold BuildDataHeader. by rewrite SerializeHeader_ok. Qed.

Lemma ParseHeader_control tid sid ns nr body :
  is_u16 tid -> is_u16 sid -> is_u16 ns -> is_u16 nr -> 12 + len body < 65536 ->
  exists h, BuildControlHeader tid sid ns nr (len body) = Ok h /\
    ParseHeader (h ++ body) =
      Ok (mkHeader true true true false false (12 + len body) tid sid ns nr, body).
Proof.
  intros ? ? ? ? Hl. pose proof (len_nonneg body). unfold BuildControlHeader, minControlHeaderLen.
  rewrite SerializeHeader_ok, u16_id by (unfold is_u16; lia). eexists; split; [done|].
  apply ParseHeader_exact.
  constructor; try done. split_and!; try done. unfold is_u16. change (0 <= 12 + len body < 65536). lia.
Qed.

Lemma ParseHeader_data tid sid body :
  is_u16 tid -> is_u16 sid ->
  exists h, BuildDataHeader tid sid = Ok h /\
    ParseHeader (h ++ body) = Ok (mkHeader false false false false false 0 tid sid 0 0, body).
Proof.
  intros ? ?. unfold BuildDataHeader. rewrite SerializeHeader_ok. eexists; split; [done|].
  apply ParseHeader_exact.
  by constructor.
Qed.

(** *** AVPs *)

(** An AVP the wire format can carry: its length field has ten bits. *)
Record avp_ok (avp : AVP) : Prop := {
  ao_vendor : is_u16 (VendorID avp);
  ao_type : is_u16 (AttrType avp);
  ao_len : len (Value avp) <= 1017
}.

Definition avp_flags (avp : AVP) : Z :=
  let n := Z.land (u16 (6 + len (Value avp))) avpLengthMask in
  let n := if Mandatory avp then Z.lor n avpFlagMandatory else n in
  if Hidden avp then Z.lor n avpFlagHidden else n.

Definition avp_bytes (avp : AVP) : bytes :=
  put16 (avp_flags avp) ++ put16 (VendorID avp) ++ put16 (AttrType avp) ++ Value avp.

Lemma land_1023 n : Z.land n 1023 = n mod 1024.
Proof. change 1023 with (Z.ones 10). by rewrite Z.land_ones by lia. Qed.

Lemma avp_flags_spec avp :
  is_u16 (avp_flags avp) /\
  Z.land (avp_flags avp) avpLengthMask = (6 + len (Value avp)) mod 1024 /\
  has (avp_flags avp) avpFlagMandatory = Mandatory avp /\
  has (avp_flags avp) avpFlagHidden = Hidden avp.
Proof.
  unfold avp_flags, avpLengthMask, avpFlagMandatory, avpFlagHidden, has.
  set (t := u16 _). rewrite land_1023.
  assert (t mod 1024 = (6 + len (Value avp)) mod 1024) as ->
    by (unfold t, u16; Z.div_mod_to_equations; lia).
  set (n := _ mod 1024). assert (0 <= n < 1024) as Hn by (apply Z.mod_pos_bound; lia).
  assert (n mod 1024 = n) as Hm by (by apply Z.mod_small).
  assert (Z.land n 32768 = 0) as H1 by (apply (land_pow2_small n 15); lia).
  assert (Z.land n 16384 = 0) as H2 by (apply (land_pow2_small n 14); lia).
  assert (Z.lor n 32768 = n + 32768) as L1.
  { rewrite <- Z.lxor_lor, <- Z.add_nocarry_lxor; done. }
  assert (Z.lor n 16384 = n + 16384) as L2.
  { rewrite <- Z.lxor_lor, <- Z.add_nocarry_lxor; done. }
  assert (Z.lor (Z.lor n 32768) 16384 = n + 49152) as L3.
  { rewrite <- Z.lor_assoc. change (Z.lor 32768 16384) with 49152.
    assert (Z.land n 49152 = 0) as H3.
    { change 49152 with (Z.lor 32768 16384). by rewrite Z.land_lor_distr_r, H1, H2. }
    rewrite <- Z.lxor_lor, <- Z.add_nocarry_lxor; done. }
  split_and!.
  - unfold is_u16. destruct (Mandatory avp), (Hidden avp); rewrite ?L3, ?L1, ?L2; lia.
  - destruct (Mandatory avp), (Hidden avp);
      rewrite ?Z.land_lor_distr_l, land_1023, Hm; cbn [Z.land Pos.land]; by rewrite ?Z.lor_0_r.
  - destruct (Mandatory avp), (Hidden avp); rewrite ?Z.land_lor_distr_l, H1; reflexivity.
  - destruct (Mandatory avp), (Hidden avp); rewrite ?Z.land_lor_distr_l, H2; reflexivity.
Qed.

Lemma SerializeAVP_ok avp : SerializeAVP avp = Ok (avp_bytes avp).
Proof.
  unfold SerializeAVP, avpHeaderLen, avp_bytes. pose proof (len_nonneg (Value avp)).
  fold (avp_flags avp). cbv zeta. fold (avp_flags avp). rewrite (fill_start (6 + len (Value avp))).
  fill_step. fill_step. fill_step. destruct (_ >? 0) eqn:E.
  - rewrite fill_copy by (len_norm; lia). rewrite make_0 by lia. by rewrite app_nil_r, <- !app_assoc.
  - rewrite (len_0_inv (Value avp)) by lia. by rewrite make_0, <- !app_assoc by (len_norm; lia).
Qed.

Lemma SerializeAVPs_ok avps : SerializeAVPs avps = Ok (concat (avp_bytes <$> avps)).
Proof.
  induction avps as [|avp avps IH]; [done|]. cbn [SerializeAVPs]. by rewrite SerializeAVP_ok, bind_Ok, IH.
Qed.

Lemma parse_one_bytes avp rest : avp_ok avp -> parse_one (avp_bytes avp ++ rest) = Ok (avp, rest).
Proof.
  intros [Hv Ht Hl]. destruct (avp_flags_spec avp) as (U & HL & HM & HH).
  pose proof (len_nonneg (Value avp)). pose proof (len_nonneg rest).
  unfold parse_one, avp_bytes, avpHeaderLen. rewrite <- !app_assoc. len_norm.
  rewrite be16_at_0, bind_Ok, HL, HM, HH, Z.mod_small by (done || lia).
  repeat run_check.
  read_fields.
  repeat (rewrite slice_skip by (len_norm; lia)). rewrite !len_put16.
  destruct (_ >? 6) eqn:E.
  - rewrite slice_prefix, bind_Ok by lia. rewrite (fill_start (_ - 6)).
    rewrite fill_copy, bind_Ok by (len_norm; lia). rewrite make_0, app_nil_r by lia.
    rewrite slice_whole, bind_Ok by lia. by destruct avp.
  - rewrite bind_Ok. destruct avp as [m h v t val]. cbn [Value] in *.
    rewrite slice_whole, bind_Ok by lia. by rewrite (len_0_inv val) by lia.
Qed.

Lemma bytes_wf_avp avp : bytes_wf (Value avp) -> bytes_wf (avp_bytes avp).
Proof. intros. unfold avp_bytes. repeat apply Forall_app_2; done || apply put16_wf. Qed.

Lemma ParseAVPs_bytes avps :
  Forall avp_ok avps -> Forall (fun a => bytes_wf (Value a)) avps ->
  ParseAVPs (concat (avp_bytes <$> avps)) = Ok avps.
Proof.
  intros Hok Hwf. induction Hok as [|avp avps Ha Hok IH]; [done|].
  apply Forall_cons in Hwf as [Hw Hwf]. cbn [fmap list_fmap concat].
  assert (bytes_wf (avp_bytes avp ++ concat (avp_bytes <$> avps))) as Hall.
  { apply Forall_app_2; [by apply bytes_wf_avp|]. apply Forall_concat, Forall_fmap.
    eapply Forall_impl; [exact Hwf|]. intros a. apply bytes_wf_avp. }
  rewrite ParseAVPs_unfold by done. unfold avpHeaderLen.
  pose proof (len_nonneg (Value avp)). pose proof (len_nonneg (concat (avp_bytes <$> avps))).
  assert (6 <= len (avp_bytes avp)) by (unfold avp_bytes; len_norm; lia).
  rewrite (proj2 (Z.ltb_ge _ 6)) by (rewrite len_app; lia).
  rewrite parse_one_bytes, bind_Ok by done. by rewrite IH.
Qed.
(** *** PPP *)

Lemma SerializePPPFrame_ok proto payload :
  SerializePPPFrame proto payload = Ok ([255; 3] ++ put16 proto ++ payload).
Proof.
  unfold SerializePPPFrame. pose proof (len_nonneg payload). rewrite make_app by lia.
  rewrite (set_at_app_l _ _ 0 pppAddress ([255] ++ make 3)), bind_Ok by reflexivity.
  rewrite (set_at_app_l _ _ 1 pppControl ([255; 3] ++ make 2)), bind_Ok by reflexivity.
  rewrite (put16_at_app_l _ _ 2 proto ([255; 3] ++ put16 proto)), bind_Ok by reflexivity.
  destruct (_ >? 0) eqn:E.
  - rewrite fill_copy by (len_norm; lia). by rewrite make_0, app_nil_r, <- app_assoc by lia.
  - rewrite (len_0_inv payload) by lia. by rewrite make_0, !app_nil_r by (len_norm; lia).
Qed.

Lemma SerializePPPFrameCompact_ok proto payload :
  SerializePPPFrameCompact proto payload = Ok (put16 proto ++ payload).
Proof.
  unfold SerializePPPFrameCompact. pose proof (len_nonneg payload). rewrite make_app by lia.
  rewrite (put16_at_app_l _ _ 0 proto (put16 proto)), bind_Ok by reflexivity.
  destruct (_ >? 0) eqn:E.
  - rewrite fill_copy by (len_norm; lia). by rewrite make_0, app_nil_r by lia.
  - rewrite (len_0_inv payload) by lia. by rewrite make_0, !app_nil_r by (len_norm; lia).
Qed.

(** A protocol number RFC 1661 section 2 allows: its high byte is even. *)
Definition ppp_proto (proto : Z) : Prop := is_u16 proto /\ Z.land (proto / 256 mod 256) 1 = 0.

Lemma ParsePPPFrame_body (pre : bytes) proto payload :
  ppp_proto proto -> pre = [] \/ pre = [255; 3] ->
  ParsePPPFrame (pre ++ put16 proto ++ payload) = Ok (mkPPP proto payload).
Proof.
  intros [Hu Heven] Hpre. unfold ParsePPPFrame. pose proof (len_nonneg payload).
  assert (slice (pre ++ put16 proto ++ payload) (len pre) (len (pre ++ put16 proto ++ payload)) =
    Ok (put16 proto ++ payload)) as Hrem by (apply slice_tail; len_norm; lia).
  assert (slice (pre ++ put16 proto ++ payload) (len pre + 2) (len (pre ++ put16 proto ++ payload)) =
    Ok payload) as Hpay.
  { rewrite app_assoc. apply slice_tail; len_norm; lia. }
  assert (idx (put16 proto ++ payload) 0 = Ok (proto / 256 mod 256)) as Hidx by reflexivity.
  rewrite (proj2 (Z.ltb_ge _ 2)) by (len_norm; destruct Hpre as [-> | ->]; len_norm; lia).
  destruct Hpre as [-> | ->].
  - change (idx ([] ++ put16 proto ++ payload) 0) with (Ok (proto / 256 mod 256)). rewrite bind_Ok.
    destruct (Z.eqb_spec (proto / 256 mod 256) pppAddress) as [E|_]; [by rewrite E in Heven|].
    rewrite bind_Ok. change (len []) with 0 in Hrem, Hpay. rewrite Hrem, bind_Ok.
    rewrite (proj2 (Z.ltb_ge _ 1)) by (len_norm; lia). rewrite Hidx, bind_Ok, Heven. cbn [Z.eqb negb].
    rewrite (proj2 (Z.ltb_ge _ 2)) by (len_norm; lia). rewrite be16_at_0, !bind_Ok by done.
    by rewrite Hpay, bind_Ok.
  - change (idx ([255; 3] ++ put16 proto ++ payload) 0) with (Ok 255). rewrite bind_Ok.
    change (255 =? pppAddress) with true. cbv iota.
    rewrite (proj2 (Z.ltb_ge _ 4)) by (len_norm; lia).
    change (idx ([255; 3] ++ put16 proto ++ payload) 1) with (Ok 3). rewrite bind_Ok.
    change (negb (3 =? pppControl)) with false. cbv iota. rewrite bind_Ok.
    change (len [255; 3]) with 2 in Hrem, Hpay. rewrite Hrem, bind_Ok.
    rewrite (proj2 (Z.ltb_ge _ 1)) by (len_norm; lia). rewrite Hidx, bind_Ok, Heven. cbn [Z.eqb negb].
    rewrite (proj2 (Z.ltb_ge _ 2)) by (len_norm; lia). rewrite be16_at_0, !bind_Ok by done.
    by rewrite Hpay, bind_Ok.
Qed.

(** ** Properties *)

(** no sequence of bytes from the network makes a parser of the packet layer
    panic: header, AVP list, AVP lookups and PPP frame all answer with a value or
    an error.  The AVP loop ends (its fuel is never spent) and is the loop of the
    source, one AVP at a time. *)
Theorem parsers_total data avps attr :
  bytes_wf data ->
  ParseHeader data <> Panic /\ ParseAVPs data <> Panic /\ ParsePPPFrame data <> Panic /\
  GetMessageType avps <> Panic /\ GetAVPUint16 avps attr <> Panic /\
  ParseAVPs data =
    (if len data <? avpHeaderLen then Ok []
     else '(avp, rest) ← parse_one data; l ← ParseAVPs rest; Ok (avp :: l)).
Proof.
  intros Hwf. split_and!.
  - by apply ParseHeader_not_Panic.
  - by apply ParseAVPs_not_Panic.
  - apply ParsePPPFrame_not_Panic.
  - apply GetMessageType_not_Panic.
  - by destruct (GetAVPUint16_total avps attr) as [o ->].
  - by apply ParseAVPs_unfold.
Qed.

(** a serialized header followed by its payload parses back to the header and
    exactly the payload, for control and data messages and every combination of
    optional fields the serializer writes; when the length is present, bytes after
    the stated length are cut off. *)
Theorem header_roundtrip hdr payload trailing :
  header_for hdr payload -> trailing = [] \/ HasLength hdr = true ->
  exists h, SerializeHeader hdr = Ok h /\ ParseHeader (h ++ payload ++ trailing) = Ok (hdr, payload).
Proof.
  intros Hf Htr. exists (header_bytes hdr). split; [apply SerializeHeader_ok|].
  by apply ParseHeader_header_bytes.
Qed.

(** every list of AVPs whose values fit the ten-bit length field (1017 bytes)
    survives serialization and parsing: flags, vendor, type and value. *)
Theorem avps_roundtrip avps :
  Forall avp_ok avps -> Forall (fun a => bytes_wf (Value a)) avps ->
  exists b, SerializeAVPs avps = Ok b /\ ParseAVPs b = Ok avps.
Proof.
  intros Hok Hwf. exists (concat (avp_bytes <$> avps)). split; [apply SerializeAVPs_ok|].
  by apply ParseAVPs_bytes.
Qed.

(** both PPP serializations, with and without the address and control bytes,
    parse back to the protocol and the payload. *)
Theorem ppp_roundtrip proto payload :
  ppp_proto proto ->
  (exists f, SerializePPPFrame proto payload = Ok f /\ ParsePPPFrame f = Ok (mkPPP proto payload)) /\
  (exists f, SerializePPPFrameCompact proto payload = Ok f /\ ParsePPPFrame f = Ok (mkPPP proto payload)).
Proof.
  intros Hp. split.
  - eexists. split; [apply SerializePPPFrame_ok|]. apply ParsePPPFrame_body; [done|by right].
  - eexists. split; [apply SerializePPPFrameCompact_ok|].
    apply (ParsePPPFrame_body []); [done|by left].
Qed.

(** Outside these bounds the round trips fail. The serializer announces an Offset
    field it does not write, and it cuts the AVP length to ten bits. *)
Example offset_not_written :
  exists h, SerializeHeader (mkHeader false false false true false 0 5 6 0 0) = Ok h /\
    ParseHeader (h ++ [33; 69; 0; 0]) = Err "l2tp: header overflows packet".
Proof. exists [2; 2; 0; 5; 0; 6]. split; vm_compute; reflexivity. Qed.

Example long_avp_cut :
  exists b, SerializeAVPs [NewHostNameAVP (replicate 1018 97)] = Ok b /\
    ParseAVPs b = Err "l2tp: AVP length below minimum".
Proof. exists ([128; 0; 0; 0; 0; 7] ++ replicate 1018 97). split; vm_compute; reflexivity. Qed.

(** ** Witnesses *)

Lemma parsers_total_witness :
  ParseHeader [200; 2; 255; 255; 0; 0; 0; 0] <> Panic /\ ParsePPPFrame [255; 3; 0] = Err "ppp: frame too short for address+control".
Proof.
  split; [|reflexivity].
  apply (parsers_total [200; 2; 255; 255; 0; 0; 0; 0] [] 0). by apply (bool_decide_unpack _).
Defined.

Lemma header_roundtrip_witness :
  let hdr := mkHeader true true true false false 14 7 0 3 4 in
  exists h, SerializeHeader hdr = Ok h /\ ParseHeader (h ++ [1; 2] ++ [9; 9]) = Ok (hdr, [1; 2]).
Proof.
  intros hdr. apply (header_roundtrip hdr [1; 2] [9; 9]); [|by right].
  - by repeat constructor.
Defined.

Lemma avps_roundtrip_witness :
  let l := [NewMessageTypeAVP MsgSCCRQ; NewHostNameAVP (bytes_of_string "lac"); NewAssignedTunnelIDAVP 513] in
  (exists b, SerializeAVPs l = Ok b /\ ParseAVPs b = Ok l) /\ GetAVPUint16 l AVPAssignedTunnelID = Ok (Some 513).
Proof.
  intros l. split; [|reflexivity]. apply (avps_roundtrip l).
  - repeat constructor; cbn; try (unfold is_u16; lia); reflexivity || (vm_compute; discriminate).
  - by apply (bool_decide_unpack _).
Defined.

Lemma ppp_roundtrip_witness :
  (exists f, SerializePPPFrame PPPProtoLCP [1; 1; 0; 4] = Ok f /\
     ParsePPPFrame f = Ok (mkPPP PPPProtoLCP [1; 1; 0; 4])) /\
  ParsePPPFrame [33; 69] = Ok (mkPPP PPPProtoIPv4 [69]).
Proof.
  split; [|reflexivity].
  apply (ppp_roundtrip PPPProtoLCP [1; 1; 0; 4]). split; [unfold is_u16, PPPProtoLCP; lia|reflexivity].
Defined.

End Packet.
