(* ===== verification/L2tpControl.v ===== *)
(** * L2tpControl: reliable delivery of control messages ([internal/l2tp/control.go])

    Times are nanoseconds.  What the channel sends is returned as a list of
    datagrams; a pending message keeps the bytes it was sent as, which a
    retransmission updates in place. *)

From S2P Require Import Prelude L2tpPacket.
Import Packet.
Open Scope string_scope.
Open Scope list_scope.
Open Scope Z_scope.

Module Control.

Definition Second : Z := 1000000000.
Definition defaultRetransmitInterval : Z := 1 * Second.
Definition maxRetransmitInterval : Z := 8 * Second.
Definition defaultMaxRetries : Z := 5.
Definition defaultReceiveWindow : Z := 4.
Definition defaultHelloInterval : Z := 60 * Second.

Record pendingMessage := mkPending {
  data : bytes;
  ns : Z;
  retries : Z;
  nextRetransmit : Z;
  interval : Z
}.

Record ControlChannel := mkCC {
  sendNs : Z;
  recvNr : Z;
  peerRecvWindow : Z;
  pending : list pendingMessage;
  maxRetries : Z;
  remoteTunnelID : Z
}.

Definition NewControlChannel : ControlChannel :=
  mkCC 0 0 defaultReceiveWindow [] defaultMaxRetries 0.

Definition SetPeerWindow (cc : ControlChannel) (w : Z) : ControlChannel :=
  let w := if w =? 0 then defaultReceiveWindow else w in
  mkCC (sendNs cc) (recvNr cc) w (pending cc) (maxRetries cc) (remoteTunnelID cc).

Definition SetRemoteTunnelID (cc : ControlChannel) (id : Z) : ControlChannel :=
  mkCC (sendNs cc) (recvNr cc) (peerRecvWindow cc) (pending cc) (maxRetries cc) id.

(** [Send]: the message sent. *)
Definition Send (now : Z) (cc : ControlChannel) (avpPayload : bytes) : res (ControlChannel * bytes) :=
  let n := sendNs cc in
  let nr := recvNr cc in
  hdr ← BuildControlHeader (remoteTunnelID cc) 0 n nr (len avpPayload);
  msg ← copy_at (make (len hdr + len avpPayload)) 0 hdr;
  msg ← copy_at msg (len hdr) avpPayload;
  let pm := mkPending msg n 0 (now + defaultRetransmitInterval) defaultRetransmitInterval in
  Ok (mkCC (u16 (n + 1)) nr (peerRecvWindow cc) (pending cc ++ [pm]) (maxRetries cc)
        (remoteTunnelID cc), msg).

Definition SendZLB (cc : ControlChannel) : res bytes :=
  BuildZLB (remoteTunnelID cc) (sendNs cc) (recvNr cc).

Definition seqLessThan (a b : Z) : bool :=
  let diff := Z.land (u16 (b - a)) 65535 in
  (diff >? 0) && (diff <? 32768).

Definition acknowledgeUpTo (cc : ControlChannel) (nr : Z) : ControlChannel :=
  let remaining := filter (fun pm => negb (seqLessThan (ns pm) nr) = true) (pending cc) in
  mkCC (sendNs cc) (recvNr cc) (peerRecvWindow cc) remaining (maxRetries cc) (remoteTunnelID cc).

Definition Receive (cc : ControlChannel) (n nr : Z) (isZLB : bool) : ControlChannel * bool :=
  let cc := acknowledgeUpTo cc nr in
  if isZLB then (cc, false)
  else if negb (n =? recvNr cc) then (cc, false)
  else (mkCC (sendNs cc) (u16 (n + 1)) (peerRecvWindow cc) (pending cc) (maxRetries cc)
          (remoteTunnelID cc), true).

(** ** Retransmission *)

(** [pm.data[10] = byte(nr >> 8); pm.data[11] = byte(nr)], when it is long enough. *)
Definition update_nr (d : bytes) (nr : Z) : res bytes :=
  if len d >=? 12 then
    d ← set_at d 10 (u8 (Z.shiftr nr 8));
    set_at d 11 (u8 nr)
  else Ok d.

(** What a round does to one due message that has retries left. *)
Definition backoff (now nr : Z) (pm : pendingMessage) : res pendingMessage :=
  let i := interval pm * 2 in
  let i := if i >? maxRetransmitInterval then maxRetransmitInterval else i in
  d ← update_nr (data pm) nr;
  Ok (mkPending d (ns pm) (retries pm + 1) (now + i) i).

(** The loop: the messages it leaves, the datagrams it sends, and whether it ran
    to its end ([false]: a message has exhausted its retries). *)
Fixpoint retransmit_loop (now nr maxr : Z) (pms : list pendingMessage) :
    res (list pendingMessage * list bytes * bool) :=
  match pms with
  | [] => Ok ([], [], true)
  | pm :: pms =>
    if now <? nextRetransmit pm then
      '(pms', out, alive) ← retransmit_loop now nr maxr pms;
      Ok (pm :: pms', out, alive)
    else if retries pm + 1 >? maxr then
      Ok (mkPending (data pm) (ns pm) (retries pm + 1) (nextRetransmit pm) (interval pm) :: pms,
          [], false)
    else
      pm' ← backoff now nr pm;
      '(pms', out, alive) ← retransmit_loop now nr maxr pms;
      Ok (pm' :: pms', data pm' :: out, alive)
  end.

Definition with_pending (cc : ControlChannel) (pms : list pendingMessage) : ControlChannel :=
  mkCC (sendNs cc) (recvNr cc) (peerRecvWindow cc) pms (maxRetries cc) (remoteTunnelID cc).

(** [sync.Mutex]: unlocking an unlocked mutex is a fatal error. *)
Definition Unlock (locked : bool) : res bool := if locked then Ok false else Panic.

(** [CheckRetransmit]: the channel left behind, the datagrams sent, whether
    [onTimeout] was called, and the answer.  The mutex is locked on entry and
    unlocked by a deferred call on every return. *)
Definition CheckRetransmit (now : Z) (cc : ControlChannel) :
    ControlChannel * list bytes * bool * res bool :=
  let mu := true in
  match retransmit_loop now (recvNr cc) (maxRetries cc) (pending cc) with
  | Ok (pms, out, true) =>
    (with_pending cc pms, out, false, _ ← Unlock mu; Ok true)
  | Ok (pms, out, false) =>
    let cc := with_pending cc pms in
    match Unlock mu with                       (* cc.mu.Unlock() *)
    | Ok mu => (cc, out, true, _ ← Unlock mu; Ok false)
    | _ => (cc, out, false, Panic)
    end
  | Err e => (cc, [], false, Err e)
  | Panic => (cc, [], false, Panic)
  end.

Definition PendingCount (cc : ControlChannel) : Z := len (pending cc).

(** ** Sequence numbers *)

Lemma seqLessThan_spec a b :
  is_u16 a -> is_u16 b ->
  seqLessThan a b = true <-> exists d, 1 <= d <= 32767 /\ b = u16 (a + d).
Proof.
  intros Ha Hb. unfold seqLessThan. change 65535 with (Z.ones 16). rewrite Z.land_ones by lia.
  change (2 ^ 16) with 65536. set (diff := u16 (b - a) mod 65536).
  assert (diff = (b - a) mod 65536) as Hd by (unfold diff, u16; by rewrite Z.mod_mod by lia).
  rewrite andb_true_iff, Z.gtb_lt, Z.ltb_lt. unfold is_u16, u16 in *. split.
  - intros [H1 H2]. exists diff. split; [lia|]. rewrite Hd. Z.div_mod_to_equations; lia.
  - intros (d & Hd' & ->). rewrite Hd. Z.div_mod_to_equations; lia.
Qed.

(** For numbers of one window of 32768 the modular order is the order of the
    unwrapped counters. *)
Lemma seqLessThan_unwrapped x y :
  -32768 < y - x < 32768 -> seqLessThan (u16 x) (u16 y) = bool_decide (x < y).
Proof.
  intros H. apply eq_true_iff_eq. rewrite seqLessThan_spec by apply u16_range.
  rewrite bool_decide_eq_true. unfold u16. split.
  - intros (d & Hd & E). Z.div_mod_to_equations; lia.
  - intros Hlt. exists (y - x). split; [lia|]. Z.div_mod_to_equations; lia.
Qed.

(** ** Messages *)

(** A control message with this number, acknowledgement and payload. *)
Definition ctl (tid n nr : Z) (p : bytes) : bytes :=
  put16 51202 ++ put16 (12 + len p) ++ put16 tid ++ put16 0 ++ put16 n ++ put16 nr ++ p.

Lemma Send_ok now cc p :
  12 + len p < 65536 ->
  Send now cc p =
    Ok (mkCC (u16 (sendNs cc + 1)) (recvNr cc) (peerRecvWindow cc)
          (pending cc ++ [mkPending (ctl (remoteTunnelID cc) (sendNs cc) (recvNr cc) p) (sendNs cc) 0
             (now + defaultRetransmitInterval) defaultRetransmitInterval])
          (maxRetries cc) (remoteTunnelID cc),
        ctl (remoteTunnelID cc) (sendNs cc) (recvNr cc) p).
Proof.
  intros Hl. pose proof (len_nonneg p). unfold Send. rewrite BuildControlHeader_ok, bind_Ok.
  rewrite (u16_id (12 + len p)) by (unfold is_u16; lia). set (h := put16 51202 ++ _).
  assert (len h = 12) as Hh by reflexivity. rewrite (fill_start (_ + _)). fill_step. cbn [app].
  rewrite fill_copy, bind_Ok by lia. rewrite make_0, app_nil_r by lia. unfold h, ctl. by rewrite <- !app_assoc.
Qed.

Lemma SendZLB_ok cc : SendZLB cc = Ok (ctl (remoteTunnelID cc) (sendNs cc) (recvNr cc) []).
Proof. unfold SendZLB, BuildZLB. by rewrite BuildControlHeader_ok. Qed.

Lemma ParseHeader_ctl tid n nr p :
  is_u16 tid -> is_u16 n -> is_u16 nr -> 12 + len p < 65536 ->
  ParseHeader (ctl tid n nr p) = Ok (mkHeader true true true false false (12 + len p) tid 0 n nr, p).
Proof.
  intros ? ? ? Hl. pose proof (len_nonneg p).
  destruct (ParseHeader_control tid 0 n nr p) as (h & Hb & Hp); [done..|].
  rewrite BuildControlHeader_ok, u16_id in Hb by (unfold is_u16; lia). injection Hb as <-.
  exact Hp.
Qed.

(** The in-place update of a retransmission only changes the acknowledgement. *)
Lemma update_nr_ctl tid n nr nr' p :
  is_u16 nr' -> update_nr (ctl tid n nr p) nr' = Ok (ctl tid n nr' p).
Proof.
  intros Hnr. unfold update_nr, ctl. pose proof (len_nonneg p). rewrite !app_assoc.
  set (h := ((((put16 51202 ++ put16 (12 + len p)) ++ put16 tid) ++ put16 0) ++ put16 n)).
  destruct (Z.geb_spec (len ((h ++ put16 nr) ++ p)) 12) as [|Hlt].
  2: { exfalso. revert Hlt. unfold h. len_norm. lia. }
  rewrite (set_at_app_l (h ++ put16 nr) p 10 _ (h ++ [u8 (Z.shiftr nr' 8); nr mod 256])) by reflexivity.
  rewrite bind_Ok.
  rewrite (set_at_app_l _ p 11 _ (h ++ [u8 (Z.shiftr nr' 8); u8 nr'])) by reflexivity.
  unfold put16, u8. by rewrite Z.shiftr_div_pow2 by lia.
Qed.

(** ** The channel as the server runs it *)

(** [Server.handleControlMessage] as far as it concerns the channel: a datagram is
    parsed, its numbers are processed, an acknowledgement is sent, and the payload
    goes on when it is in order. *)
Definition control_input (cc : ControlChannel) (m : bytes) :
    res (ControlChannel * bytes * option bytes) :=
  '(hdr, payload) ← ParseHeader m;
  let isZLB := len payload =? 0 in
  let '(cc, inOrder) := Receive cc (Ns hdr) (Nr hdr) isZLB in
  zlb ← SendZLB cc;
  Ok (cc, zlb, if inOrder then Some payload else None).

(** One direction of a tunnel: the sender, the receiver, what was sent and
    delivered, and every datagram the network has ever been given. *)
Record link := mkLink {
  snd_cc : ControlChannel;
  rcv_cc : ControlChannel;
  sent : list bytes;
  delivered : list bytes;
  net : list bytes;
  acks : list bytes
}.

Definition good_payload (p : bytes) : Prop := p <> [] /\ 12 + len p < 65536.

Inductive link_step : link -> link -> Prop :=
  | link_send l now p cc m :
      good_payload p -> len (sent l) < 32767 -> Send now (snd_cc l) p = Ok (cc, m) ->
      link_step l (mkLink cc (rcv_cc l) (sent l ++ [p]) (delivered l) (m :: net l) (acks l))
  | link_retransmit l now cc out t r :
      CheckRetransmit now (snd_cc l) = (cc, out, t, r) ->
      link_step l (mkLink cc (rcv_cc l) (sent l) (delivered l) (out ++ net l) (acks l))
  | link_deliver l m cc zlb o :
      m ∈ net l -> control_input (rcv_cc l) m = Ok (cc, zlb, o) ->
      link_step l (mkLink (snd_cc l) cc (sent l)
        (delivered l ++ match o with Some p => [p] | None => [] end) (net l) (zlb :: acks l))
  | link_ack l m cc zlb o :
      m ∈ acks l -> control_input (snd_cc l) m = Ok (cc, zlb, o) ->
      link_step l (mkLink cc (rcv_cc l) (sent l) (delivered l) (net l) (acks l)).

(** The pending messages are those from [una] on, in order. *)
Definition pending_from (tid una : Z) (sent : list bytes) (pms : list pendingMessage) : Prop :=
  0 <= una /\ una + len pms = len sent /\
  forall i pm, pms !! i = Some pm ->
    exists p nr, sent !! (Z.to_nat una + i)%nat = Some p /\ ns pm = u16 (una + Z.of_nat i) /\
      is_u16 nr /\ data pm = ctl tid (ns pm) nr p.

Record link_ok (tid tid' una : Z) (l : link) : Prop := {
  lk_tid : is_u16 tid /\ remoteTunnelID (snd_cc l) = tid;
  lk_tid' : is_u16 tid' /\ remoteTunnelID (rcv_cc l) = tid';
  lk_sent : Forall good_payload (sent l) /\ len (sent l) <= 32767;
  lk_ns : sendNs (snd_cc l) = u16 (len (sent l)) /\ is_u16 (recvNr (snd_cc l));
  lk_pending : pending_from tid una (sent l) (pending (snd_cc l));
  lk_rcv : recvNr (rcv_cc l) = u16 (len (delivered l)) /\ is_u16 (sendNs (rcv_cc l));
  lk_prefix : delivered l `prefix_of` sent l;
  lk_una : una <= len (delivered l);
  lk_net m : m ∈ net l -> exists k nr p, sent l !! k = Some p /\ is_u16 nr /\
    m = ctl tid (u16 (Z.of_nat k)) nr p;
  lk_acks m : m ∈ acks l -> exists j n, 0 <= j <= len (delivered l) /\ is_u16 n /\
    m = ctl tid' n (u16 j) []
}.

Lemma pending_from_grow tid una sent pms p now nr :
  pending_from tid una sent pms -> is_u16 nr ->
  pending_from tid una (sent ++ [p])
    (pms ++ [mkPending (ctl tid (u16 (len sent)) nr p) (u16 (len sent)) 0
       (now + defaultRetransmitInterval) defaultRetransmitInterval]).
Proof.
  intros (H0 & Hl & Hp) Hnr. split_and!; [done|len_norm; lia|].
  intros i pm [Hi|[Hi Hpm]]%lookup_app_Some.
  - destruct (Hp i pm Hi) as (q & nr' & Hq & Hn). exists q, nr'. split; [|done].
    by apply lookup_app_l_Some.
  - apply list_lookup_singleton_Some in Hpm as [Hi0 <-]. unfold len in *.
    assert (i = length pms) as -> by lia.
    assert (Z.to_nat una + length pms = length sent)%nat as -> by lia. exists p, nr. cbn.
    split_and!; [by rewrite list_lookup_middle|f_equal; lia|done|done].
Qed.

(** A retransmission round keeps numbers and payloads, sends some of the pending
    messages, and drops none. *)
Lemma retransmit_loop_spec now nr maxr tid una sent pms pms' out alive :
  is_u16 nr -> pending_from tid una sent pms ->
  retransmit_loop now nr maxr pms = Ok (pms', out, alive) ->
  pending_from tid una sent pms' /\
  forall m, m ∈ out -> exists k nr p, sent !! k = Some p /\ is_u16 nr /\ m = ctl tid (u16 (Z.of_nat k)) nr p.
Proof.
  intros Hnr. revert una pms' out alive. induction pms as [|pm pms IH]; intros una pms' out alive Hp E.
  { injection E as <- <- <-. split; [done|]. by intros m ?%not_elem_of_nil. }
  destruct Hp as (H0 & Hl & Hp). destruct (Hp O pm eq_refl) as (p & nr0 & Hs & Hn & Hnr0 & Hd).
  rewrite Nat.add_0_r in Hs. rewrite Z.add_0_r in Hn.
  assert (pending_from tid (una + 1) sent pms) as Hp'.
  { split_and!; [lia|rewrite len_cons in Hl; lia|]. intros i q Hi. destruct (Hp (S i) q Hi) as (p' & nr' & A & B & D).
    exists p', nr'. replace (Z.to_nat (una + 1) + i)%nat with (Z.to_nat una + S i)%nat by lia.
    split; [done|]. split; [|done]. rewrite B. f_equal. lia. }
  assert (forall q qs, ns q = ns pm -> (exists nr, is_u16 nr /\ data q = ctl tid (ns pm) nr p) ->
    pending_from tid (una + 1) sent qs -> pending_from tid una sent (q :: qs)) as Hcons.
  { intros q qs Hq (nr' & Hnr' & Hdq) (_ & Hl' & Hqs). split_and!; [done|len_norm; lia|].
    intros [|i] x Hx.
    - injection Hx as <-. exists p, nr'. rewrite Nat.add_0_r, Z.add_0_r, Hq. split_and!; done.
    - destruct (Hqs i x Hx) as (p' & nr'' & A & B & D). exists p', nr''.
      replace (Z.to_nat una + S i)%nat with (Z.to_nat (una + 1) + i)%nat by lia.
      split; [done|]. split; [|done]. rewrite B. f_equal. lia. }
  cbn [retransmit_loop] in E. destruct (now <? nextRetransmit pm).
  - apply bind_Ok_inv in E as ([[qs o] al] & E & [= <- <- <-]).
    destruct (IH _ _ _ _ Hp' E) as [IH1 IH2]. split; [|done]. apply Hcons; eauto.
  - destruct (retries pm + 1 >? maxr).
    + injection E as <- <- <-. split; [|by intros m ?%not_elem_of_nil]. apply Hcons; cbn; eauto.
    + apply bind_Ok_inv in E as (pm' & Eb & E). apply bind_Ok_inv in E as ([[qs o] al] & E & [= <- <- <-]).
      destruct (IH _ _ _ _ Hp' E) as [IH1 IH2]. unfold backoff in Eb.
      rewrite Hd, update_nr_ctl, bind_Ok in Eb by done. injection Eb as <-. split.
      * apply Hcons; cbn; eauto.
      * cbn. intros m [->|Hm]%elem_of_cons; [|by apply IH2]. exists (Z.to_nat una), nr, p.
        rewrite Z2Nat.id, <- Hn by lia. done.
Qed.

(** An acknowledgement of [j] removes exactly the messages numbered below [j]. *)
Lemma ack_pending tid una sent pms j :
  pending_from tid una sent pms -> len sent <= 32767 -> 0 <= j <= len sent ->
  pending_from tid (Z.max una j) sent (filter (fun pm => negb (seqLessThan (ns pm) (u16 j)) = true) pms).
Proof.
  revert una; induction pms as [|pm pms IH]; intros una (H0 & Hl & Hp) Hs Hj.
  { rewrite len_nil in Hl. split_and!; [lia|rewrite filter_nil, len_nil; lia|]. by intros i pm; rewrite filter_nil. }
  destruct (Hp O pm eq_refl) as (p & nr & _ & Hn & _). rewrite Z.add_0_r in Hn.
  rewrite len_cons in Hl. pose proof (len_nonneg pms).
  assert (seqLessThan (ns pm) (u16 j) = bool_decide (una < j)) as Hlt
    by (rewrite Hn; apply seqLessThan_unwrapped; lia).
  destruct (decide (una < j)).
  - rewrite filter_cons_False by (rewrite Hlt, bool_decide_eq_true_2 by done; done).
    replace (Z.max una j) with (Z.max (una + 1) j) by lia. apply IH; [|done|done].
    split_and!; [lia|lia|]. intros i q Hi. destruct (Hp (S i) q Hi) as (p' & nr' & A & B & D).
    exists p', nr'. replace (Z.to_nat (una + 1) + i)%nat with (Z.to_nat una + S i)%nat by lia.
    split; [done|]. split; [|done]. rewrite B. f_equal. lia.
  - replace (Z.max una j) with una by lia.
    assert (filter (fun pm => negb (seqLessThan (ns pm) (u16 j)) = true) (pm :: pms) = pm :: pms) as ->.
    { apply filter_keep. apply Forall_lookup. intros i q Hi.
      destruct (Hp i q Hi) as (_ & _ & _ & B & _). apply lookup_lt_Some in Hi.
      rewrite B, seqLessThan_unwrapped, bool_decide_eq_false_2; [done|lia|].
      cbn [length] in Hi. unfold len in *. lia. }
    split_and!; [done|rewrite len_cons; lia|done].
Qed.

Lemma Receive_cases cc n nr z :
  exists ok : bool, Receive cc n nr z =
    (mkCC (sendNs cc) (if ok then u16 (n + 1) else recvNr cc) (peerRecvWindow cc)
       (filter (fun pm => negb (seqLessThan (ns pm) nr) = true) (pending cc)) (maxRetries cc)
       (remoteTunnelID cc), ok) /\
    (ok = true <-> z = false /\ n = recvNr cc).
Proof.
  unfold Receive, acknowledgeUpTo. cbn [recvNr sendNs pending maxRetries remoteTunnelID peerRecvWindow].
  destruct z; [exists false; split; [done|split; [done|by intros []]]|].
  destruct (Z.eqb_spec n (recvNr cc)); cbn [negb]; [exists true|exists false]; (split; [done|]);
    [by split|]. split; [done|by intros []].
Qed.

Lemma control_input_ctl cc tid n nr p :
  is_u16 tid -> is_u16 n -> is_u16 nr -> 12 + len p < 65536 ->
  control_input cc (ctl tid n nr p) =
    let '(cc', ok) := Receive cc n nr (len p =? 0) in
    Ok (cc', ctl (remoteTunnelID cc) (sendNs cc) (recvNr cc') [], if ok then Some p else None).
Proof.
  intros. unfold control_input. rewrite ParseHeader_ctl, bind_Ok by done. cbn [Ns Nr].
  destruct (Receive_cases cc n nr (len p =? 0)) as (ok & -> & _).
  rewrite SendZLB_ok, bind_Ok. reflexivity.
Qed.

Lemma prefix_next {A} (l k : list A) p :
  l `prefix_of` k -> k !! length l = Some p -> (l ++ [p]) `prefix_of` k.
Proof.
  intros [q ->] Hp. rewrite lookup_app_r, Nat.sub_diag in Hp by done.
  destruct q as [|x q]; [done|]. injection Hp as ->. exists q. by rewrite <- app_assoc.
Qed.

Lemma link_deliver_ok tid tid' una l m cc zlb o :
  link_ok tid tid' una l -> m ∈ net l -> control_input (rcv_cc l) m = Ok (cc, zlb, o) ->
  link_ok tid tid' una (mkLink (snd_cc l) cc (sent l)
    (delivered l ++ match o with Some p => [p] | None => [] end) (net l) (zlb :: acks l)).
Proof.
  intros [[Ht Hti] [Ht' Hti'] [Hg Hs] Hns Hp [Hr Hrs] Hpre Hu Hnet Hacks] Hm E.
  destruct (Hnet m Hm) as (k & nr & p & Hk & Hnr & ->).
  pose proof (proj1 (Forall_lookup _ _) Hg k p Hk) as [Hne Hlen].
  rewrite control_input_ctl in E; [|exact Ht|apply u16_range|exact Hnr|lia].
  assert ((len p =? 0) = false) as Hz.
  { destruct (Z.eqb_spec (len p) 0) as [H|]; [|done]. by apply len_0_inv in H. }
  rewrite Hz in E. destruct (Receive_cases (rcv_cc l) (u16 (Z.of_nat k)) nr false) as (ok & ER & Hok).
  rewrite ER in E. injection E as <- <- <-.
  pose proof (prefix_length _ _ Hpre) as Hpl. pose proof (lookup_lt_Some _ _ _ Hk) as Hkl.
  destruct ok; cbn [sendNs recvNr remoteTunnelID] in *.
  - destruct (proj1 Hok eq_refl) as [_ Heq]. rewrite Hr in Heq.
    assert (k = length (delivered l)) as ->.
    { unfold len, u16 in *. rewrite !Z.mod_small in Heq by lia. lia. }
    constructor; cbn [snd_cc rcv_cc sent delivered net acks sendNs recvNr remoteTunnelID]; try done.
    + split; [|done]. rewrite len_app. unfold u16, len. cbn. Z.div_mod_to_equations; lia.
    + by apply prefix_next.
    + len_norm. lia.
    + intros a [->|Ha]%elem_of_cons.
      * exists (len (delivered l) + 1), (sendNs (rcv_cc l)). rewrite Hti'. len_norm.
        pose proof (len_nonneg (delivered l)). split_and!; [lia..|done|].
        f_equal. unfold u16, len. Z.div_mod_to_equations; lia.
      * destruct (Hacks a Ha) as (j & n & ? & ?). exists j, n. len_norm. split; [lia|done].
  - rewrite app_nil_r.
    constructor; cbn [snd_cc rcv_cc sent delivered net acks sendNs recvNr remoteTunnelID]; try done.
    intros a [->|Ha]%elem_of_cons; [|by apply Hacks].
    exists (len (delivered l)), (sendNs (rcv_cc l)). rewrite Hti', Hr.
    pose proof (len_nonneg (delivered l)). split_and!; [lia..|done|done].
Qed.

Lemma link_ack_ok tid tid' una l m cc zlb o :
  link_ok tid tid' una l -> m ∈ acks l -> control_input (snd_cc l) m = Ok (cc, zlb, o) ->
  exists una', link_ok tid tid' una' (mkLink cc (rcv_cc l) (sent l) (delivered l) (net l) (acks l)).
Proof.
  intros [[Ht Hti] [Ht' Hti'] [Hg Hs] [Hn Hnr] Hp [Hr Hrs] Hpre Hu Hnet Hacks] Hm E.
  destruct (Hacks m Hm) as (j & n & Hj & Hnu & ->).
  rewrite control_input_ctl in E; [|exact Ht'|exact Hnu|apply u16_range|reflexivity].
  rewrite len_nil in E. change (0 =? 0) with true in E.
  destruct (Receive_cases (snd_cc l) n (u16 j) true) as (ok & ER & Hok). rewrite ER in E.
  destruct ok; [by destruct (proj1 Hok eq_refl)|]. injection E as <- <- <-.
  pose proof (prefix_length _ _ Hpre) as Hpl. exists (Z.max una j).
  constructor; cbn [snd_cc rcv_cc sent delivered net acks sendNs recvNr remoteTunnelID pending]; try done.
  - apply ack_pending; [done|done|]. unfold len in *. lia.
  - lia.
Qed.

Lemma link_step_ok tid tid' una l l' :
  link_ok tid tid' una l -> link_step l l' -> exists una', link_ok tid tid' una' l'.
Proof.
  intros Hl Hstep. destruct Hstep as [l now p cc m Hg Hlen E|l now cc out t r E|l m cc zlb o Hm E|l m cc zlb o Hm E].
  - destruct Hl as [[Ht Hti] Ht' [Hgs Hs] [Hn Hnr] Hp Hr Hpre Hu Hnet Hacks].
    rewrite Send_ok in E by apply Hg. injection E as <- <-. exists una.
    rewrite Hti, Hn in *.
    constructor; cbn [snd_cc rcv_cc sent delivered net acks sendNs recvNr remoteTunnelID pending]; try done.
    + split; [by apply Forall_app_2; [|apply Forall_singleton]|len_norm; lia].
    + split; [|done]. rewrite len_app. unfold u16, len. cbn. Z.div_mod_to_equations; lia.
    + by apply pending_from_grow.
    + by apply prefix_app_r.
    + intros a [->|Ha]%elem_of_cons.
      * exists (length (sent l)), (recvNr (snd_cc l)), p. by rewrite list_lookup_middle.
      * destruct (Hnet a Ha) as (k & nr & q & Hk & ?). exists k, nr, q. split; [|done].
        by apply lookup_app_l_Some.
  - pose proof Hl as [Ht Ht' Hs [Hn Hnr] Hp Hr Hpre Hu Hnet Hacks]. exists una. unfold CheckRetransmit in E.
    destruct (retransmit_loop now _ _ _) as [[[pms o] alive]|e|] eqn:EL;
      [|injection E as <- <- <- <-; destruct l; by constructor..].
    destruct (retransmit_loop_spec _ _ _ tid una (sent l) _ _ _ _ Hnr Hp EL) as [Hp' Hout].
    assert (cc = with_pending (snd_cc l) pms /\ out = o) as [-> ->]
      by (destruct alive; cbn in E; by injection E as <- <- _ _).
    constructor; cbn [snd_cc rcv_cc sent delivered net acks with_pending sendNs recvNr remoteTunnelID pending]; try done.
    intros a [Ha|Ha]%elem_of_app; [by apply Hout|by apply Hnet].
  - exists una. by apply (link_deliver_ok tid tid' una l m).
  - by apply (link_ack_ok tid tid' una l m cc zlb o).
Qed.

(** A new channel on both sides, each knowing the other's tunnel id. *)
Definition new_link (tid tid' : Z) : link :=
  mkLink (SetRemoteTunnelID NewControlChannel tid) (SetRemoteTunnelID NewControlChannel tid') [] [] [] [].

Lemma new_link_ok tid tid' : is_u16 tid -> is_u16 tid' -> link_ok tid tid' 0 (new_link tid tid').
Proof.
  intros. constructor; try done; by intros m ?%not_elem_of_nil.
Qed.

(** ** Properties *)

(** C11: over a network that loses, repeats and reorders datagrams at will, the
    control channel delivers a prefix of what was sent: every message at most once,
    unaltered and in order (for the first 32767 messages of a tunnel).  And nothing
    is lost: as long as something is undelivered, the message the receiver waits for
    is still queued at the sender, in a form the receiver accepts on arrival. *)
Theorem reliable_delivery tid tid' l :
  is_u16 tid -> is_u16 tid' -> star link_step (new_link tid tid') l ->
  delivered l `prefix_of` sent l /\
  (delivered l <> sent l ->
   exists pm p cc zlb, pm ∈ pending (snd_cc l) /\
     control_input (rcv_cc l) (data pm) = Ok (cc, zlb, Some p) /\
     (delivered l ++ [p]) `prefix_of` sent l).
Proof.
  intros Ht Ht' Hs.
  assert (exists una, link_ok tid tid' una l) as (una & [[_ Hti] _ [Hg Hlen] [Hn Hnr] (H0 & Hpl & Hp) [Hr Hrs] Hpre Hu Hnet _]).
  { eapply (star_invariant link_step (fun l => exists una, link_ok tid tid' una l)); [|exists 0|exact Hs].
    - intros s s' [una Hl] Hst. by eapply link_step_ok.
    - by apply new_link_ok. }
  split; [done|]. intros Hne. pose proof (prefix_length _ _ Hpre) as Hle.
  assert (length (delivered l) < length (sent l))%nat as Hlt.
  { destruct (decide (length (delivered l) = length (sent l))) as [E|]; [|lia].
    destruct Hpre as [q Hq]. rewrite Hq, length_app in E. destruct q; [|cbn in E; lia].
    rewrite app_nil_r in Hq. congruence. }
  destruct (lookup_lt_is_Some_2 (pending (snd_cc l)) (length (delivered l) - Z.to_nat una)) as [pm Hpm];
    [unfold len in *; lia|].
  destruct (Hp _ pm Hpm) as (p & nr & Hsp & Hnp & Hnru & Hd).
  replace (Z.to_nat una + (length (delivered l) - Z.to_nat una))%nat with (length (delivered l)) in Hsp
    by (unfold len in *; lia).
  replace (una + Z.of_nat (length (delivered l) - Z.to_nat una)) with (len (delivered l)) in Hnp
    by (unfold len in *; lia).
  pose proof (proj1 (Forall_lookup _ _) Hg _ p Hsp) as [Hpne Hpl'].
  assert ((len p =? 0) = false) as Hz.
  { destruct (Z.eqb_spec (len p) 0) as [H|]; [|done]. by apply len_0_inv in H. }
  destruct (Receive_cases (rcv_cc l) (ns pm) nr false) as (ok & ER & Hok).
  assert (ok = true) as -> by (apply Hok; split; [done|]; congruence).
  eexists pm, p, _, _. split_and!; [by eapply list_elem_of_lookup_2| |by apply prefix_next].
  rewrite Hd, control_input_ctl by (done || rewrite Hnp; apply u16_range). by rewrite Hz, ER.
Qed.

(** A message due for retransmission at [now]. *)
Definition due (now : Z) (pm : pendingMessage) : Prop := nextRetransmit pm <= now.

#[global] Instance due_dec now pm : Decision (due now pm).
Proof. unfold due. apply _. Defined.

(** A message of the channel: its bytes are a control message with its number. *)
Definition is_ctl (pm : pendingMessage) : Prop := exists tid nr p, data pm = ctl tid (ns pm) nr p.

(** What a round makes of a message, if it goes through. *)
Definition round_of (now : Z) (out : list bytes) (pm pm' : pendingMessage) : Prop :=
  ns pm' = ns pm /\
  if decide (due now pm) then
    retries pm' = retries pm + 1 /\ interval pm' = Z.min (interval pm * 2) maxRetransmitInterval /\
    nextRetransmit pm' = now + interval pm' /\ data pm' ∈ out
  else pm' = pm.

Lemma round_of_weaken now m out pm pm' : round_of now out pm pm' -> round_of now (m :: out) pm pm'.
Proof. unfold round_of. case_decide; [|done]. rewrite elem_of_cons. tauto. Qed.

Lemma retransmit_loop_alive now nr maxr pms :
  is_u16 nr -> Forall is_ctl pms -> (forall pm, pm ∈ pms -> due now pm -> retries pm < maxr) ->
  exists pms' out, retransmit_loop now nr maxr pms = Ok (pms', out, true) /\
    length out = length (filter (due now) pms) /\ Forall2 (round_of now out) pms pms'.
Proof.
  intros Hnr Hc. induction Hc as [|pm pms (tid & nr0 & p & Hd) _ IH]; intros Hr.
  { exists [], []. split_and!; [done|done|constructor]. }
  destruct IH as (pms' & out & E & Hl & Hf); [set_solver|]. cbn [retransmit_loop].
  destruct (Z.ltb_spec now (nextRetransmit pm)) as [Hlt|Hge].
  - exists (pm :: pms'), out. rewrite E, bind_Ok, filter_cons_False by (unfold due; lia).
    split_and!; [done|done|]. constructor; [|done]. split; [done|].
    by rewrite decide_False by (unfold due; lia).
  - assert (retries pm < maxr) by (apply Hr; [set_solver|done]). rewrite gtb_false by lia.
    unfold backoff. rewrite Hd, update_nr_ctl, !bind_Ok, E, bind_Ok by done.
    eexists _, _. split; [done|]. rewrite filter_cons_True by done. cbn [length]. split; [lia|].
    constructor.
    + split; [done|]. rewrite decide_True by done. cbn. split_and!; [done| |done|set_solver].
      destruct (Z.gtb_spec (interval pm * 2) maxRetransmitInterval); lia.
    + eapply Forall2_impl; [exact Hf|]. intros. by apply round_of_weaken.
Qed.

Lemma retransmit_loop_dead now nr maxr pms :
  is_u16 nr -> Forall is_ctl pms -> (exists pm, pm ∈ pms /\ due now pm /\ maxr <= retries pm) ->
  exists pms' out, retransmit_loop now nr maxr pms = Ok (pms', out, false).
Proof.
  intros Hnr Hc. induction Hc as [|pm pms (tid & nr0 & p & Hd) _ IH]; intros (x & Hx & Hdue & Hr);
    [by apply not_elem_of_nil in Hx|].
  cbn [retransmit_loop]. unfold due in Hdue.
  destruct (Z.ltb_spec now (nextRetransmit pm)) as [Hlt|Hge].
  - destruct IH as (pms' & out & ->); [|by eauto].
    exists x. apply elem_of_cons in Hx as [->|?]; [lia|done].
  - destruct (Z.gtb_spec (retries pm + 1) maxr); [by eauto|].
    destruct IH as (pms' & out & E).
    { exists x. apply elem_of_cons in Hx as [->|?]; [lia|done]. }
    unfold backoff. rewrite Hd, update_nr_ctl, !bind_Ok, E, bind_Ok by done. by eauto.
Qed.

(** Whatever is pending, a round ends; it gives up only on a due message whose
    retries are used up. *)
Lemma update_nr_total d nr : exists d', update_nr d nr = Ok d'.
Proof.
  unfold update_nr. destruct (Z.geb_spec (len d) 12) as [H|]; [|eauto].
  destruct (set_at_total d 10 (u8 (Z.shiftr nr 8))) as (d' & -> & Hl); [lia|]. rewrite bind_Ok.
  destruct (set_at_total d' 11 (u8 nr)) as (d'' & -> & _); [lia|eauto].
Qed.

Lemma retransmit_loop_total now nr maxr pms :
  exists pms' out alive, retransmit_loop now nr maxr pms = Ok (pms', out, alive) /\
    (alive = false -> exists pm, pm ∈ pms /\ due now pm /\ maxr <= retries pm).
Proof.
  induction pms as [|pm pms (pms' & out & alive & E & IH)]; [by eexists _, _, _|]. cbn [retransmit_loop].
  assert (alive = false -> exists pm', pm' ∈ pm :: pms /\ due now pm' /\ maxr <= retries pm') as Hd.
  { intros H. destruct (IH H) as (x & Hx & ?). exists x. split; [by right|done]. }
  destruct (Z.ltb_spec now (nextRetransmit pm)); [rewrite E, bind_Ok; eauto 6|].
  destruct (Z.gtb_spec (retries pm + 1) maxr).
  - eexists _, _, _. split; [done|]. intros _. exists pm. split_and!; [by left|done|lia].
  - unfold backoff. destruct (update_nr_total (data pm) nr) as [d' ->]. rewrite !bind_Ok, E, bind_Ok. eauto 6.
Qed.

(** one retransmission round.  While no due message has used up its retries,
    the round answers "alive", sends exactly the due messages and doubles their
    interval up to eight seconds.  But when one has, the mutex that the code unlocks
    by hand before calling [onTimeout] is unlocked a second time by the deferred
    call: the Go runtime stops the whole process instead of one tunnel. *)
Theorem CheckRetransmit_outcome now cc :
  is_u16 (recvNr cc) -> Forall is_ctl (pending cc) ->
  let '(cc', out, timeout, r) := CheckRetransmit now cc in
  ((forall pm, pm ∈ pending cc -> due now pm -> retries pm < maxRetries cc) ->
   r = Ok true /\ timeout = false /\ length out = length (filter (due now) (pending cc)) /\
   Forall2 (round_of now out) (pending cc) (pending cc')) /\
  ((exists pm, pm ∈ pending cc /\ due now pm /\ maxRetries cc <= retries pm) ->
   r = Panic /\ timeout = true).
Proof.
  intros Hnr Hc. destruct (CheckRetransmit now cc) as [[[cc' out] timeout] r] eqn:E.
  unfold CheckRetransmit in E. split.
  - intros Hr. destruct (retransmit_loop_alive now _ _ _ Hnr Hc Hr) as (pms & o & El & Hl & Hf).
    rewrite El in E. cbn in E. by injection E as <- <- <- <-.
  - intros Hr. destruct (retransmit_loop_dead now _ _ _ Hnr Hc Hr) as (pms & o & El).
    rewrite El in E. cbn in E. by injection E as <- <- <- <-.
Qed.

(** ** Witnesses *)

(** One message is sent, lost, and retransmitted after a second; the copy arrives. *)
Definition demo_payload : bytes := [128; 8; 0; 0; 0; 0; 0; 1].

Definition demo_link : link :=
  let cc := SetRemoteTunnelID NewControlChannel 7 in
  let cc1 := mkCC 1 0 4 [mkPending (ctl 7 0 0 demo_payload) 0 0 1000000000 1000000000] 5 7 in
  mkLink cc1 (SetRemoteTunnelID NewControlChannel 9) [demo_payload] [] [ctl 7 0 0 demo_payload] [].

Lemma demo_link_reached : star link_step (new_link 7 9) demo_link.
Proof.
  eapply star_snoc; [apply star_refl|].
  apply (link_send (new_link 7 9) 0 demo_payload); [|done|vm_compute; reflexivity].
  split; [done|reflexivity].
Qed.

Lemma reliable_delivery_witness :
  delivered demo_link = [] /\
  exists pm p cc zlb, pm ∈ pending (snd_cc demo_link) /\
    control_input (rcv_cc demo_link) (data pm) = Ok (cc, zlb, Some p) /\ [p] `prefix_of` sent demo_link.
Proof.
  split; [reflexivity|].
  destruct (reliable_delivery 7 9 demo_link) as [_ H]; [by apply (bool_decide_unpack _)..|exact demo_link_reached|].
  apply H. discriminate.
Defined.

Definition demo_cc (r : Z) : ControlChannel :=
  mkCC 1 3 4 [mkPending (ctl 7 0 0 demo_payload) 0 r 1000 4000000000] 5 7.

Lemma CheckRetransmit_outcome_witness :
  (CheckRetransmit 2000 (demo_cc 5)).2 = Panic /\
  CheckRetransmit 2000 (demo_cc 4) =
    (mkCC 1 3 4 [mkPending (ctl 7 0 3 demo_payload) 0 5 8000002000 8000000000] 5 7,
     [ctl 7 0 3 demo_payload], false, Ok true).
Proof.
  split; [|vm_compute; reflexivity].
  pose proof (CheckRetransmit_outcome 2000 (demo_cc 5) ltac:(by apply (bool_decide_unpack _))
    ltac:(apply Forall_singleton; by exists 7, 0, demo_payload)) as H.
  destruct (CheckRetransmit 2000 (demo_cc 5)) as [[[cc' out] t] r]. apply H.
  eexists. split_and!; [by apply list_elem_of_singleton|done|done].
Defined.

End Control.
