(* ===== verification/Rand.v ===== *)
(** * Rand: the random source ([crypto/rand])

    A source is the sequence of the byte strings its successive reads deliver.
    [rand.Read(buf)] fills [buf] with the next one; where the code ignores the
    error of a short read, the rest of the buffer stays zero. *)

From S2P Require Import Prelude.

Record rng := mkRng { draw : nat -> bytes; used : nat }.

Definition rng_ok (r : rng) : Prop := forall k, bytes_wf (draw r k).

(** [rand.Read] into a fresh buffer of [n] bytes. *)
Definition rand_Read (r : rng) (n : nat) : bytes * rng :=
  (resize n 0 (draw r (used r)), mkRng (draw r) (S (used r))).

Lemma rand_Read_ok r n b r' :
  rng_ok r -> rand_Read r n = (b, r') -> length b = n /\ bytes_wf b /\ rng_ok r'.
Proof.
  intros Hr [= <- <-]. split_and!; [apply length_resize| |done].
  apply Forall_resize; [unfold is_u8; lia|apply Hr].
Qed.

(** A concrete source: the successive multiples of 17. *)
Definition demo_rng : rng := mkRng (fun k => replicate 16 (u8 (17 * Z.of_nat k + 5))) 0.

Lemma demo_rng_ok : rng_ok demo_rng.
Proof. intros k. apply Forall_replicate, u8_range. Qed.
