(* ===== verification/Exch.v ===== *)
(** * Exch: computations with a state that survives errors

    An operation changes a state and may return an error: it is a computation [exch S A]
    from a state to a state and an outcome.  The state survives an error, as a Go object
    does, and the assignments made before the error stay.  A panic ends the process, so the
    state it comes with means nothing.  [wp m Q s] says that [m], started in [s], ends in a
    state and an outcome for which [Q] holds; [within R m] that [m] relates the state before
    to the state after by [R]. *)

From S2P Require Import Prelude Rand.

(** ** Computations with a state *)

Definition exch (S A : Type) : Type := S -> S * res A.

#[global] Instance exch_ret S : MRet (exch S) := fun A a s => (s, Ok a).
#[global] Instance exch_bind S : MBind (exch S) := fun A B f m s =>
  match m s with
  | (s, Ok a) => f a s
  | (s, Err e) => (s, Err e)
  | (s, Panic) => (s, Panic)
  end.

Definition ret {S A} (a : A) : exch S A := fun s => (s, Ok a).
Definition fail {S A} (e : string) : exch S A := fun s => (s, Err e).
Definition lift {S A} (r : res A) : exch S A := fun s => (s, r).
Definition get {S A} (f : S -> A) : exch S A := fun s => (s, Ok (f s)).
Definition modify {S} (f : S -> S) : exch S unit := fun s => (f s, Ok tt).

(** The state of a handler of an existing session: the session, the random source. *)
Definition on_session {T A} (f : T -> A) : exch (T * rng) A := get (fun s => f s.1).
Definition assign {T} (f : T -> T) : exch (T * rng) unit := modify (fun s => (f s.1, s.2)).

(** A function that draws from the random source. *)
Definition drawn {T A} (f : rng -> res (A * rng)) : exch (T * rng) A := fun s =>
  match f s.2 with
  | Ok (a, r) => ((s.1, r), Ok a)
  | Err e => (s, Err e)
  | Panic => (s, Panic)
  end.

(** [x.f, err = r; if err != nil { return err }]: the field is assigned, the zero value with an error. *)
Definition store {T A} (f : T -> A -> T) (zero : A) (r : res A) : exch (T * rng) A := fun s =>
  match r with
  | Ok a => ((f s.1 a, s.2), Ok a)
  | Err e => ((f s.1 zero, s.2), Err e)
  | Panic => (s, Panic)
  end.

(** The same with a function that draws. *)
Definition store_drawn {T A} (f : T -> A -> T) (zero : A) (g : rng -> res (A * rng)) : exch (T * rng) A := fun s =>
  match g s.2 with
  | Ok (a, r) => ((f s.1 a, r), Ok a)
  | Err e => ((f s.1 zero, s.2), Err e)
  | Panic => (s, Panic)
  end.

(** ** Weakest preconditions *)

Definition wp {S A} (m : exch S A) (Q : S -> res A -> Prop) (s : S) : Prop := Q (m s).1 (m s).2.

Section wp.
Context {S : Type}.
Implicit Types s : S.

Lemma wp_bind {A B} (m : exch S A) (f : A -> exch S B) Q s :
  wp m (fun s r => match r with Ok a => wp (f a) Q s | Err e => Q s (Err e) | Panic => Q s Panic end) s ->
  wp (m ≫= f) Q s.
Proof. unfold wp, mbind, exch_bind. by destruct (m s) as [s' [a|e|]]. Qed.

Lemma wp_ret {A} (a : A) Q s : Q s (Ok a) -> wp (ret a) Q s.
Proof. done. Qed.
Lemma wp_fail {A} e (Q : S -> res A -> Prop) s : Q s (Err e) -> wp (fail e) Q s.
Proof. done. Qed.
Lemma wp_lift {A} (r : res A) Q s : Q s r -> wp (lift r) Q s.
Proof. done. Qed.
Lemma wp_get {A} (f : S -> A) Q s : Q s (Ok (f s)) -> wp (get f) Q s.
Proof. done. Qed.
Lemma wp_modify (f : S -> S) Q s : Q (f s) (Ok tt) -> wp (modify f) Q s.
Proof. done. Qed.

Lemma wp_mono {A} (m : exch S A) (P Q : S -> res A -> Prop) s :
  wp m P s -> (forall s' r, P s' r -> Q s' r) -> wp m Q s.
Proof. unfold wp. auto. Qed.

End wp.

Lemma wp_on_session {T A} (f : T -> A) Q (s : T * rng) : Q s (Ok (f s.1)) -> wp (on_session f) Q s.
Proof. done. Qed.
Lemma wp_assign {T} (f : T -> T) Q (s : T * rng) : Q (f s.1, s.2) (Ok tt) -> wp (assign f) Q s.
Proof. done. Qed.
Lemma wp_drawn {T A} (f : rng -> res (A * rng)) (Q : T * rng -> res A -> Prop) s :
  (forall a r, f s.2 = Ok (a, r) -> Q (s.1, r) (Ok a)) -> (forall e, f s.2 = Err e -> Q s (Err e)) ->
  (f s.2 = Panic -> Q s Panic) -> wp (drawn f) Q s.
Proof. unfold wp, drawn. destruct (f s.2) as [[a r]|e|]; cbn; auto. Qed.

(** One step of a handler. *)
Ltac wp_step :=
  lazymatch goal with
  | |- wp (mbind _ _) _ _ => apply wp_bind
  | |- wp (ret _) _ _ => apply wp_ret
  | |- wp (fail _) _ _ => apply wp_fail
  | |- wp (lift _) _ _ => apply wp_lift
  | |- wp (get _) _ _ => apply wp_get
  | |- wp (modify _) _ _ => apply wp_modify
  | |- wp (on_session _) _ _ => apply wp_on_session
  | |- wp (assign _) _ _ => apply wp_assign
  end.

(** What holds of the parts of a run that succeeds. *)
Lemma exch_bind_inv {S A B} (m : exch S A) (f : A -> exch S B) s s' b :
  (m ≫= f) s = (s', Ok b) -> exists s1 a, m s = (s1, Ok a) /\ f a s1 = (s', Ok b).
Proof. unfold mbind, exch_bind. destruct (m s) as [s1 [a|e|]]; [by eauto|done|done]. Qed.

Lemma exch_bind_Ok {S A B} (m : exch S A) (f : A -> exch S B) s s1 a :
  m s = (s1, Ok a) -> (m ≫= f) s = f a s1.
Proof. unfold mbind, exch_bind. by intros ->. Qed.

(** A step that is a result already known. *)
Ltac run H := rewrite H; erewrite exch_bind_Ok; [|reflexivity]; cbv beta iota.

(** ** What a handler keeps *)

(** Whatever its outcome, the computation relates the state before to the state after. *)
Definition within {S A} (R : S -> S -> Prop) (m : exch S A) : Prop := forall s, R s (m s).1.

Section within.
Context {S : Type} (R : S -> S -> Prop) `{!PreOrder R}.

Lemma within_bind {A B} (m : exch S A) (f : A -> exch S B) : within R m -> (forall a, within R (f a)) -> within R (m ≫= f).
Proof.
  intros Hm Hf s. specialize (Hm s). unfold mbind, exch_bind. destruct (m s) as [s' [a|e|]]; [|done..]. etrans; [exact Hm|apply Hf].
Qed.
Lemma within_ret {A} (a : A) : within R (ret a).
Proof. by intros s. Qed.
Lemma within_fail {A} e : within R (fail (A := A) e).
Proof. by intros s. Qed.
Lemma within_lift {A} (r : res A) : within R (lift r).
Proof. by intros s. Qed.
Lemma within_get {A} (f : S -> A) : within R (get f).
Proof. by intros s. Qed.
Lemma within_modify (f : S -> S) : (forall s, R s (f s)) -> within R (modify f).
Proof. intros H s. apply H. Qed.

End within.

(** The case of the handlers of a session: a function of the session keeps its value. *)
Definition same {T X} (f : T -> X) (s s' : T * rng) : Prop := f s.1 = f s'.1.
#[global] Instance same_preorder {T X} (f : T -> X) : PreOrder (same f).
Proof. split; [by intros s|]. intros s s' s'' E E'. unfold same in *. congruence. Qed.

Section same.
Context {T X : Type} (f : T -> X).

Lemma same_on_session {A} (g : T -> A) : within (same f) (on_session g).
Proof. by intros s. Qed.
Lemma same_assign g : (forall x, f x = f (g x)) -> within (same f) (assign g).
Proof. intros H s. apply H. Qed.
Lemma same_drawn {A} (g : rng -> res (A * rng)) : within (same f) (drawn g).
Proof. intros s. unfold drawn, same. by destruct (g s.2) as [[]| |]. Qed.
Lemma same_store {A} (g : T -> A -> T) z r : (forall x a, f x = f (g x a)) -> within (same f) (store g z r).
Proof. intros H s. unfold store, same. destruct r; [apply H|apply H|done]. Qed.
Lemma same_store_drawn {A} (g : T -> A -> T) z h : (forall x a, f x = f (g x a)) -> within (same f) (store_drawn g z h).
Proof. intros H s. unfold store_drawn, same. destruct (h s.2) as [[]| |]; [apply H|apply H|done]. Qed.

End same.

(** [keep] runs through a handler; [keep_step] leaves the calls of other handlers. *)
Ltac keep_step :=
  lazymatch goal with
  | |- within _ (mbind _ _) => apply within_bind; [apply _| |intro]
  | |- within _ (ret _) => apply within_ret; apply _
  | |- within _ (fail _) => apply within_fail; apply _
  | |- within _ (lift _) => apply within_lift; apply _
  | |- within _ (get _) => apply within_get; apply _
  | |- within _ (on_session _) => apply same_on_session
  | |- within _ (assign _) => apply same_assign; try reflexivity
  | |- within _ (drawn _) => apply same_drawn
  | |- within _ (store _ _ _) => apply same_store; reflexivity
  | |- within _ (store_drawn _ _ _) => apply same_store_drawn; reflexivity
  | |- within _ (let _ := _ in _) => cbv zeta
  | |- within _ (match ?x with _ => _ end) => destruct x
  end.
Ltac keep := repeat keep_step.
