(* ===== verification/L2tpLcp.v ===== *)
(** * L2tpLcp: PPP option lists and the Link Control Protocol
    ([internal/l2tp/lcp.go])

    [Options] is the loop over configuration options that LCP and IPCP share, and
    the theory of a responder that judges each option by itself; [Lcp] is
    [LCPHandler]. *)

From S2P Require Import Prelude Rand L2tpPacket.

Module Options.
Import Packet.

(** One option as the loops see it: [optType], [optLen], [optData]. *)
Record opt := mkOpt { optType : Z; optLen : Z; optData : bytes }.

(** The option at [offset], unless the loop ends or breaks there. *)
Definition option_at (options : bytes) (offset : Z) : res (option opt) :=
  if negb (offset <? len options) then Ok None
  else if offset + 2 >? len options then Ok None
  else
    t ← idx options offset;
    l ← idx options (offset + 1);
    if (l <? 2) || (offset + l >? len options) then Ok None
    else
      d ← slice options offset (offset + l);
      Ok (Some (mkOpt t l d)).

(** The options the loop visits, in order; every turn consumes two bytes or more,
    so [length options] turns are enough. *)
Fixpoint options_from (fuel : nat) (options : bytes) (offset : Z) : res (list opt) :=
  o ← option_at options offset;
  match o, fuel with
  | None, _ => Ok []
  | Some _, O => Panic
  | Some o, S fuel =>
    os ← options_from fuel options (offset + optLen o);
    Ok (o :: os)
  end.

Definition parse_options (options : bytes) : res (list opt) :=
  options_from (length options) options 0.

(** An option as a peer writes it. *)
Record opt_ok (o : opt) : Prop := {
  oo_len : optLen o = len (optData o);
  oo_bound : 2 <= optLen o <= 255;
  oo_wf : bytes_wf (optData o);
  oo_type : optData o !! 0%nat = Some (optType o);
  oo_second : optData o !! 1%nat = Some (optLen o)
}.

Lemma opt_ok_nonempty o : opt_ok o -> optData o <> [].
Proof. intros Ho E. pose proof (oo_type o Ho) as H. by rewrite E in H. Qed.

Definition opts_bytes (os : list opt) : bytes := concat (optData <$> os).

Lemma opts_bytes_cons o os : opts_bytes (o :: os) = optData o ++ opts_bytes os.
Proof. reflexivity. Qed.

Lemma opts_bytes_app os os' : opts_bytes (os ++ os') = opts_bytes os ++ opts_bytes os'.
Proof. unfold opts_bytes. by rewrite fmap_app, concat_app. Qed.

Lemma option_at_total options offset :
  bytes_wf options -> 0 <= offset ->
  option_at options offset = Ok None \/
  exists o rest, option_at options offset = Ok (Some o) /\ opt_ok o /\
    drop (Z.to_nat offset) options = optData o ++ rest /\ offset + optLen o <= len options.
Proof.
  intros Hwf H0. unfold option_at.
  destruct (offset <? len options) eqn:E1; cbn [negb]; [|by left].
  destruct (offset + 2 >? len options) eqn:E2; [by left|].
  destruct (idx_total options offset) as (t & -> & Ht); [lia|]. rewrite bind_Ok.
  destruct (idx_total options (offset + 1)) as (l & -> & Hl); [lia|]. rewrite bind_Ok.
  destruct ((l <? 2) || (offset + l >? len options)) eqn:E3; [by left|]. right.
  apply orb_false_iff in E3 as [E3 E4].
  assert (is_u8 l) as Hl8 by (eapply Forall_lookup_1; [exact Hwf|exact Hl]).
  rewrite slice_ok, bind_Ok by lia.
  exists (mkOpt t l (sub options offset (offset + l))), (drop (Z.to_nat l) (drop (Z.to_nat offset) options)).
  unfold is_u8 in Hl8. split; [done|]. split.
  - split; cbn; [rewrite len_sub; lia|lia|by apply Forall_sub| |].
    + unfold sub. rewrite lookup_take_lt, lookup_drop by lia. by rewrite Nat.add_0_r.
    + unfold sub. rewrite lookup_take_lt, lookup_drop by lia.
      by replace (_ + 1)%nat with (Z.to_nat (offset + 1)) by lia.
  - cbn. split; [|lia]. unfold sub. replace (offset + l - offset) with l by lia.
    by rewrite take_drop.
Qed.

Lemma options_from_total options fuel offset :
  bytes_wf options -> 0 <= offset -> len options - offset < 2 * Z.of_nat fuel + 2 ->
  exists os rest, options_from fuel options offset = Ok os /\ Forall opt_ok os /\
    drop (Z.to_nat offset) options = opts_bytes os ++ rest.
Proof.
  intros Hwf. revert offset. induction fuel as [|fuel IH]; intros offset H0 Hf; cbn [options_from];
    destruct (option_at_total options offset Hwf H0) as [->|(o & rest & -> & Ho & Hd & Hle)];
    rewrite bind_Ok.
  - by exists [], (drop (Z.to_nat offset) options).
  - destruct (oo_bound o Ho); lia.
  - by exists [], (drop (Z.to_nat offset) options).
  - pose proof (oo_bound o Ho) as Hb. pose proof (oo_len o Ho) as Hlen.
    destruct (IH (offset + optLen o)) as (os & rest' & -> & Hos & Hd'); [lia..|].
    exists (o :: os), rest'. split_and!; [done|by constructor|].
    rewrite Hd, opts_bytes_cons, <- app_assoc. f_equal. rewrite <- Hd'.
    replace (Z.to_nat (offset + optLen o)) with (Z.to_nat offset + length (optData o))%nat
      by (unfold len in *; lia).
    by rewrite <- drop_drop, Hd, drop_app_length.
Qed.

(** The loop always ends, and what it visits is a prefix of the bytes. *)
Lemma parse_options_total options :
  bytes_wf options ->
  exists os rest, parse_options options = Ok os /\ Forall opt_ok os /\ options = opts_bytes os ++ rest.
Proof. intros. apply (options_from_total options (length options) 0); unfold len; lia || done. Qed.

Lemma option_at_here l1 o l2 :
  opt_ok o -> option_at (l1 ++ optData o ++ l2) (len l1) = Ok (Some o).
Proof.
  intros Ho. destruct Ho as [Hl Hb Hwf Ht Hs]. destruct o as [t l d]; cbn in *.
  pose proof (len_nonneg l1). pose proof (len_nonneg l2). unfold option_at. len_norm.
  rewrite (proj2 (Z.ltb_lt (len l1) _)), (gtb_false (len l1 + 2)) by lia. cbn [negb].
  rewrite (idx_ok _ (len l1) t); [|lia|].
  2:{ rewrite lookup_app_r by (unfold len; lia). replace (_ - _)%nat with 0%nat by (unfold len; lia).
      apply lookup_app_l_Some, Ht. }
  rewrite bind_Ok, (idx_ok _ (len l1 + 1) l); [|lia|].
  2:{ rewrite lookup_app_r by (unfold len; lia). replace (_ - _)%nat with 1%nat by (unfold len; lia).
      apply lookup_app_l_Some, Hs. }
  rewrite bind_Ok, (proj2 (Z.ltb_ge l 2)), gtb_false by lia. cbn [orb].
  rewrite slice_mid by lia. rewrite bind_Ok. done.
Qed.

Lemma options_from_bytes os l1 fuel :
  Forall opt_ok os -> (length os <= fuel)%nat ->
  options_from fuel (l1 ++ opts_bytes os) (len l1) = Ok os.
Proof.
  revert l1 fuel. induction os as [|o os IH]; intros l1 fuel Hos Hf.
  - cbn. rewrite app_nil_r. assert (option_at l1 (len l1) = Ok None) as E.
    { unfold option_at. by rewrite (proj2 (Z.ltb_ge (len l1) _)) by lia. }
    destruct fuel; cbn [options_from]; by rewrite E, bind_Ok.
  - apply Forall_cons in Hos as [Ho Hos]. destruct fuel as [|fuel]; [cbn in Hf; lia|].
    cbn [options_from]. rewrite opts_bytes_cons, option_at_here, bind_Ok by done.
    rewrite app_assoc. replace (len l1 + optLen o) with (len (l1 ++ optData o)).
    2:{ rewrite len_app, (oo_len o Ho). lia. }
    rewrite IH, bind_Ok; [done|done|cbn in Hf; lia].
Qed.

Lemma parse_opts_bytes os : Forall opt_ok os -> parse_options (opts_bytes os) = Ok os.
Proof.
  intros Hos. unfold parse_options. apply (options_from_bytes os []); [done|].
  induction Hos as [|o os Ho _ IH]; [done|]. rewrite opts_bytes_cons, length_app. cbn.
  pose proof (oo_len o Ho). pose proof (oo_bound o Ho). unfold len in *. lia.
Qed.

Lemma opts_bytes_wf os : Forall opt_ok os -> bytes_wf (opts_bytes os).
Proof.
  induction 1 as [|o os Ho _ IH]; [constructor|]. rewrite opts_bytes_cons.
  apply Forall_app; split; [apply Ho|done].
Qed.

(** ** Responders that judge each option by itself *)

Inductive verdict := VAck | VNak (suggestion : bytes) | VRej.

Section Judge.
Context (judge : opt -> verdict).

Definition acked (o : opt) : bytes := match judge o with VAck => optData o | _ => [] end.
Definition naked (o : opt) : bytes := match judge o with VNak s => s | _ => [] end.
Definition rejected (o : opt) : bytes := match judge o with VRej => optData o | _ => [] end.

Definition ack_bytes (os : list opt) : bytes := concat (acked <$> os).
Definition nak_bytes (os : list opt) : bytes := concat (naked <$> os).
Definition rej_bytes (os : list opt) : bytes := concat (rejected <$> os).

Lemma verdict_bytes_cons o os :
  ack_bytes (o :: os) = acked o ++ ack_bytes os /\
  nak_bytes (o :: os) = naked o ++ nak_bytes os /\
  rej_bytes (o :: os) = rejected o ++ rej_bytes os.
Proof. done. Qed.

(** The option a peer puts into its next request when it follows the answer. *)
Definition follow (o : opt) : opt :=
  match judge o with
  | VNak s => mkOpt (optType o) (len s) s
  | _ => o
  end.

(** A responder whose suggestions are options it accepts itself. *)
Definition consistent : Prop :=
  forall o s, opt_ok o -> judge o = VNak s ->
    opt_ok (mkOpt (optType o) (len s) s) /\ judge (mkOpt (optType o) (len s) s) = VAck.

Lemma follow_accepted os :
  consistent -> Forall opt_ok os -> Forall (fun o => judge o <> VRej) os ->
  Forall opt_ok (follow <$> os) /\ Forall (fun o => judge o = VAck) (follow <$> os).
Proof.
  intros HC Hos Hrej. rewrite Forall_fmap, Forall_fmap.
  assert (forall o, o ∈ os -> opt_ok (follow o) /\ judge (follow o) = VAck) as H.
  { intros o Hin. rewrite Forall_forall in Hos, Hrej. specialize (Hos o Hin). specialize (Hrej o Hin).
    unfold follow. destruct (judge o) eqn:E; [done| |done]. by apply HC. }
  split; apply Forall_forall; intros o Hin; by apply H.
Qed.

Lemma all_acked os :
  Forall (fun o => judge o = VAck) os ->
  ack_bytes os = opts_bytes os /\ nak_bytes os = [] /\ rej_bytes os = [].
Proof.
  intros H. induction H as [|o os Ho _ (IH1 & IH2 & IH3)]; [done|].
  destruct (verdict_bytes_cons o os) as (-> & -> & ->). rewrite IH1, IH2, IH3.
  unfold acked, naked, rejected. by rewrite Ho.
Qed.

Lemma rej_bytes_nil os :
  Forall opt_ok os -> rej_bytes os = [] -> Forall (fun o => judge o <> VRej) os.
Proof.
  induction 1 as [|o os Ho _ IH]; intros Hr; constructor;
    destruct (verdict_bytes_cons o os) as (_ & _ & E); rewrite E in Hr; clear E;
    apply app_eq_nil in Hr as [Hr Hr']; [|by apply IH].
  intros E. unfold rejected in Hr. rewrite E in Hr. by apply (opt_ok_nonempty o).
Qed.

Lemma nak_bytes_nil os :
  consistent -> Forall opt_ok os -> rej_bytes os = [] -> nak_bytes os = [] ->
  Forall (fun o => judge o = VAck) os.
Proof.
  intros HC Hos Hr Hn. pose proof (rej_bytes_nil os Hos Hr) as Hrej. clear Hr.
  induction Hos as [|o os Ho _ IH]; [constructor|].
  apply Forall_cons in Hrej as [Hr Hrej]. destruct (verdict_bytes_cons o os) as (_ & E & _).
  rewrite E in Hn. clear E. apply app_eq_nil in Hn as [Hn Hn'].
  constructor; [|by apply IH]. unfold naked in Hn. destruct (judge o) eqn:E; [done| |done].
  destruct (HC o suggestion Ho E) as [Hk _]. by destruct (opt_ok_nonempty _ Hk).
Qed.

End Judge.
End Options.

Module Lcp.
Import Packet Options.

Definition LCPConfigureRequest : Z := 1.
Definition LCPConfigureAck : Z := 2.
Definition LCPConfigureNak : Z := 3.
Definition LCPConfigureReject : Z := 4.
Definition LCPTerminateRequest : Z := 5.
Definition LCPTerminateAck : Z := 6.
Definition LCPProtocolReject : Z := 8.
Definition LCPEchoRequest : Z := 9.
Definition LCPEchoReply : Z := 10.

Definition LCPOptMRU : Z := 1.
Definition LCPOptAuthProto : Z := 3.
Definition LCPOptMagicNumber : Z := 5.
Definition LCPOptPFCompress : Z := 7.
Definition LCPOptACFCompress : Z := 8.

Definition LCPStateInitial : Z := 0.
Definition LCPStateReqSent : Z := 1.
Definition LCPStateOpened : Z := 4.
Definition LCPStateClosed : Z := 5.

Definition lcpPacketHeaderLen : Z := 4.
Definition lcpOptionHeaderLen : Z := 2.
Definition defaultMRU : Z := 1500.
Definition CHAPAlgorithmMD5 : Z := 5.

Record LCPHandler := mkLCP {
  state : Z;
  localMagic : Z;
  remoteMagic : Z;
  mru : Z;
  nextID : Z;
  ourConfigAcked : bool;
  peerConfigAcked : bool
}.

Definition with_state (h : LCPHandler) (s : Z) : LCPHandler :=
  mkLCP s (localMagic h) (remoteMagic h) (mru h) (nextID h) (ourConfigAcked h) (peerConfigAcked h).
Definition with_mru (h : LCPHandler) (m : Z) : LCPHandler :=
  mkLCP (state h) (localMagic h) (remoteMagic h) m (nextID h) (ourConfigAcked h) (peerConfigAcked h).
Definition with_localMagic (h : LCPHandler) (m : Z) : LCPHandler :=
  mkLCP (state h) m (remoteMagic h) (mru h) (nextID h) (ourConfigAcked h) (peerConfigAcked h).
Definition with_remoteMagic (h : LCPHandler) (m : Z) : LCPHandler :=
  mkLCP (state h) (localMagic h) m (mru h) (nextID h) (ourConfigAcked h) (peerConfigAcked h).
Definition bump_nextID (h : LCPHandler) : LCPHandler :=
  mkLCP (state h) (localMagic h) (remoteMagic h) (mru h) (u8 (nextID h + 1))
    (ourConfigAcked h) (peerConfigAcked h).
Definition with_ourConfigAcked (h : LCPHandler) : LCPHandler :=
  mkLCP (state h) (localMagic h) (remoteMagic h) (mru h) (nextID h) true (peerConfigAcked h).
Definition with_peerConfigAcked (h : LCPHandler) : LCPHandler :=
  mkLCP (state h) (localMagic h) (remoteMagic h) (mru h) (nextID h) (ourConfigAcked h) true.

Definition NewLCPHandler (r : rng) : res (LCPHandler * rng) :=
  let '(magic, r) := rand_Read r 4 in
  m ← be32 magic;
  Ok (mkLCP LCPStateInitial m 0 defaultMRU 0 false false, r).

Definition IsOpened (h : LCPHandler) : bool := state h =? LCPStateOpened.

(** [byte(v >> 8), byte(v)] *)
Definition two_bytes (v : Z) : bytes := [u8 (Z.shiftr v 8); u8 v].

Definition BuildConfigureRequest (h : LCPHandler) : res (LCPHandler * bytes) :=
  let h := bump_nextID h in
  let id := nextID h in
  let opts := [LCPOptMRU; 4] ++ two_bytes (mru h) in
  let opts := opts ++ [LCPOptAuthProto; 5] ++
    [u8 (Z.shiftr PPPProtoCHAP 8); u8 (Z.land PPPProtoCHAP 255)] ++ [CHAPAlgorithmMD5] in
  let opts := opts ++ [LCPOptMagicNumber; 6] in
  m ← put32_at (make 4) 0 (localMagic h);
  let opts := opts ++ m in
  let pktLen := u16 (lcpPacketHeaderLen + len opts) in
  let pkt := make pktLen in
  pkt ← set_at pkt 0 LCPConfigureRequest;
  pkt ← set_at pkt 1 id;
  pkt ← put16_at pkt 2 pktLen;
  pkt ← copy_at pkt 4 opts;
  let h := if state h =? LCPStateInitial then with_state h LCPStateReqSent else h in
  Ok (h, pkt).

Definition buildResponse (code id : Z) (data : bytes) : res bytes :=
  let pktLen := u16 (lcpPacketHeaderLen + len data) in
  let pkt := make pktLen in
  pkt ← set_at pkt 0 code;
  pkt ← set_at pkt 1 id;
  pkt ← put16_at pkt 2 pktLen;
  if len data >? 0 then copy_at pkt 4 data else Ok pkt.

Definition checkOpened (h : LCPHandler) : LCPHandler :=
  if ourConfigAcked h && peerConfigAcked h then with_state h LCPStateOpened else h.

(** The three option lists a Configure-Request handler builds. *)
Record lists := mkLists { ackOpts : bytes; nakOpts : bytes; rejOpts : bytes }.

Definition add_ack (s : lists) (d : bytes) : lists := mkLists (ackOpts s ++ d) (nakOpts s) (rejOpts s).
Definition add_nak (s : lists) (d : bytes) : lists := mkLists (ackOpts s) (nakOpts s ++ d) (rejOpts s).
Definition add_rej (s : lists) (d : bytes) : lists := mkLists (ackOpts s) (nakOpts s) (rejOpts s ++ d).

(** The body of the loop of [handleConfigureRequest]. *)
Definition configure_option (o : opt) (h : LCPHandler) (s : lists) : res (LCPHandler * lists) :=
  let d := optData o in
  if optType o =? LCPOptMRU then
    if optLen o >=? 4 then
      peerMRU ← be16_at d 2;
      if (peerMRU >=? 128) && (peerMRU <=? 16384) then Ok (with_mru h peerMRU, add_ack s d)
      else Ok (h, add_nak s [LCPOptMRU; 4; u8 (Z.shiftr defaultMRU 8); u8 (Z.land defaultMRU 255)])
    else Ok (h, add_rej s d)
  else if optType o =? LCPOptAuthProto then
    if optLen o >=? 4 then
      proto ← be16_at d 2;
      if proto =? PPPProtoCHAP then Ok (h, add_ack s d)
      else Ok (h, add_nak s [LCPOptAuthProto; 5; u8 (Z.shiftr PPPProtoCHAP 8);
                             u8 (Z.land PPPProtoCHAP 255); CHAPAlgorithmMD5])
    else Ok (h, add_rej s d)
  else if optType o =? LCPOptMagicNumber then
    if optLen o >=? 6 then
      m ← be32_at d 2;
      Ok (with_remoteMagic h m, add_ack s d)
    else Ok (h, add_rej s d)
  else if optType o =? LCPOptPFCompress then Ok (h, add_ack s d)
  else if optType o =? LCPOptACFCompress then Ok (h, add_ack s d)
  else Ok (h, add_rej s d).

Fixpoint configure_options (os : list opt) (h : LCPHandler) (s : lists) : res (LCPHandler * lists) :=
  match os with
  | [] => Ok (h, s)
  | o :: os =>
    '(h, s) ← configure_option o h s;
    configure_options os h s
  end.

Definition handleConfigureRequest (h : LCPHandler) (id : Z) (options : bytes) :
    res (LCPHandler * bytes) :=
  os ← parse_options options;
  '(h, s) ← configure_options os h (mkLists [] [] []);
  if len (rejOpts s) >? 0 then
    pkt ← buildResponse LCPConfigureReject id (rejOpts s); Ok (h, pkt)
  else if len (nakOpts s) >? 0 then
    pkt ← buildResponse LCPConfigureNak id (nakOpts s); Ok (h, pkt)
  else
    let h := checkOpened (with_peerConfigAcked h) in
    pkt ← buildResponse LCPConfigureAck id (ackOpts s); Ok (h, pkt).

Definition handleConfigureAck (h : LCPHandler) (id : Z) : LCPHandler :=
  if negb (id =? nextID h) then h else checkOpened (with_ourConfigAcked h).

(** The loop of [handleConfigureNak]. *)
Fixpoint nak_options (os : list opt) (h : LCPHandler) (r : rng) : res (LCPHandler * rng) :=
  match os with
  | [] => Ok (h, r)
  | o :: os =>
    if optType o =? LCPOptMRU then
      if optLen o >=? 4 then
        m ← be16_at (optData o) 2;
        nak_options os (with_mru h m) r
      else nak_options os h r
    else if optType o =? LCPOptMagicNumber then
      let '(magic, r) := rand_Read r 4 in
      m ← be32 magic;
      nak_options os (with_localMagic h m) r
    else nak_options os h r
  end.

Definition handleConfigureNak (r : rng) (h : LCPHandler) (options : bytes) :
    res (LCPHandler * rng * bytes) :=
  os ← parse_options options;
  '(h, r) ← nak_options os h r;
  '(h, pkt) ← BuildConfigureRequest h;
  Ok (h, r, pkt).

(** The loop of [handleConfigureReject]: [true] when it stops at a rejected
    Authentication-Protocol. *)
Fixpoint reject_options (os : list opt) (h : LCPHandler) : LCPHandler * bool :=
  match os with
  | [] => (h, false)
  | o :: os =>
    if optType o =? LCPOptAuthProto then (with_state h LCPStateClosed, true)
    else if optType o =? LCPOptMagicNumber then reject_options os (with_localMagic h 0)
    else reject_options os h
  end.

Definition handleConfigureReject (h : LCPHandler) (options : bytes) : res (LCPHandler * bytes) :=
  os ← parse_options options;
  let '(h, stop) := reject_options os h in
  if stop : bool then
    pkt ← buildResponse LCPTerminateRequest (nextID h) (bytes_of_string "Authentication required");
    Ok (h, pkt)
  else BuildConfigureRequest h.

Definition handleTerminateRequest (h : LCPHandler) (id : Z) : res (LCPHandler * bytes) :=
  let h := with_state h LCPStateClosed in
  pkt ← buildResponse LCPTerminateAck id [];
  Ok (h, pkt).

Definition handleEchoRequest (h : LCPHandler) (id : Z) (payload : bytes) : res bytes :=
  magic ← put32_at (make 4) 0 (localMagic h);
  extra ← (if len payload >? 4 then slice payload 4 (len payload) else Ok []);
  buildResponse LCPEchoReply id (magic ++ extra).

(** [Handle]: the handler and the source left behind, and the response if any. *)
Definition Handle (r : rng) (h : LCPHandler) (data : bytes) :
    res (LCPHandler * rng * option bytes) :=
  if len data <? lcpPacketHeaderLen then Ok (h, r, None)
  else
    code ← idx data 0;
    id ← idx data 1;
    pktLen ← be16_at data 2;
    if pktLen >? len data then Ok (h, r, None)
    else
      payload ← slice data lcpPacketHeaderLen pktLen;
      if code =? LCPConfigureRequest then
        '(h, pkt) ← handleConfigureRequest h id payload; Ok (h, r, Some pkt)
      else if code =? LCPConfigureAck then Ok (handleConfigureAck h id, r, None)
      else if code =? LCPConfigureNak then
        '(h, r, pkt) ← handleConfigureNak r h payload; Ok (h, r, Some pkt)
      else if code =? LCPConfigureReject then
        '(h, pkt) ← handleConfigureReject h payload; Ok (h, r, Some pkt)
      else if code =? LCPTerminateRequest then
        '(h, pkt) ← handleTerminateRequest h id; Ok (h, r, Some pkt)
      else if code =? LCPEchoRequest then
        pkt ← handleEchoRequest h id payload; Ok (h, r, Some pkt)
      else Ok (h, r, None).

Definition BuildProtocolReject (h : LCPHandler) (rejectedProto : Z) (rejectedPacket : bytes) :
    res (LCPHandler * bytes) :=
  let h := bump_nextID h in
  let maxData := mru h - lcpPacketHeaderLen - 2 in
  let maxData := if maxData <? 0 then 0 else maxData in
  proto ← put16_at (make 2) 0 rejectedProto;
  part ← (if len rejectedPacket >? maxData then slice rejectedPacket 0 maxData else Ok rejectedPacket);
  pkt ← buildResponse LCPProtocolReject (nextID h) (proto ++ part);
  Ok (h, pkt).

(** ** Packets *)

Definition packet (code id : Z) (data : bytes) : bytes := [code; id] ++ put16 (4 + len data) ++ data.

Lemma buildResponse_ok code id data :
  4 + len data < 65536 -> buildResponse code id data = Ok (packet code id data).
Proof.
  intros H. pose proof (len_nonneg data). unfold buildResponse, lcpPacketHeaderLen.
  rewrite u16_id by (unfold is_u16; lia). rewrite (fill_start (4 + len data)).
  do 2 fill_step. fill_step. cbn [app]. destruct (len data >? 0) eqn:E.
  - change (code :: id :: put16 (4 + len data) ++ make (4 + len data - 1 - 1 - 2))
      with ((code :: id :: put16 (4 + len data)) ++ make (4 + len data - 1 - 1 - 2)).
    rewrite fill_copy by (len_norm; cbn; lia). rewrite make_0 by lia. by rewrite app_nil_r.
  - assert (data = []) as -> by (apply len_0_inv; lia). done.
Qed.

Lemma buildResponse_panic code id data :
  (4 + len data) mod 65536 < 4 -> buildResponse code id data = Panic.
Proof.
  intros H. unfold buildResponse, lcpPacketHeaderLen. change (u16 (4 + len data)) with ((4 + len data) mod 65536).
  pose proof (Z.mod_pos_bound (4 + len data) 65536). set (n := _ mod 65536) in *.
  assert (n = 0 \/ n = 1 \/ n = 2 \/ n = 3) as [->|[->|[->| ->]]] by lia; reflexivity.
Qed.

Lemma packet_wf code id data :
  is_u8 code -> is_u8 id -> bytes_wf data -> bytes_wf (packet code id data).
Proof.
  intros. unfold packet. apply Forall_app; split; [by do 2 (apply Forall_cons; split; [done|])|].
  apply Forall_app; split; [apply put16_wf|done].
Qed.

(** The header checks of the handlers on a packet they would build themselves. *)
Lemma packet_fields code id data :
  4 + len data < 65536 ->
  len (packet code id data) = 4 + len data /\ idx (packet code id data) 0 = Ok code /\
  idx (packet code id data) 1 = Ok id /\ be16_at (packet code id data) 2 = Ok (4 + len data) /\
  slice (packet code id data) 4 (4 + len data) = Ok data.
Proof.
  intros H. pose proof (len_nonneg data). unfold packet. split_and!.
  - len_norm; lia.
  - apply (idx_mid []). done.
  - apply (idx_mid [code]). done.
  - apply be16_at_mid; [done|unfold is_u16; lia].
  - rewrite app_assoc. apply slice_tail; len_norm; lia.
Qed.

(** The same with bytes after the stated length, and the converse: what passes the
    header checks is such a packet. *)
Lemma packet_fields_rest code id data rest :
  4 + len data < 65536 ->
  len (packet code id data ++ rest) = 4 + len data + len rest /\
  idx (packet code id data ++ rest) 0 = Ok code /\ idx (packet code id data ++ rest) 1 = Ok id /\
  be16_at (packet code id data ++ rest) 2 = Ok (4 + len data) /\
  slice (packet code id data ++ rest) 4 (4 + len data) = Ok data.
Proof.
  intros H. pose proof (len_nonneg data). unfold packet. rewrite <- !app_assoc. split_and!.
  - len_norm; lia.
  - by apply (idx_mid []).
  - by apply (idx_mid [code]).
  - apply be16_at_mid; [done|unfold is_u16; lia].
  - rewrite app_assoc. apply slice_mid; len_norm; lia.
Qed.

Lemma packet_inv data pktLen :
  bytes_wf data -> be16_at data 2 = Ok pktLen -> 4 <= pktLen <= len data ->
  exists code id payload rest, data = packet code id payload ++ rest /\
    len payload = pktLen - 4 /\ pktLen < 65536.
Proof.
  intros Hwf Hp Hle. destruct data as [|a [|b [|c [|d l]]]]; len_norm; try lia.
  pose proof (len_nonneg l). assert (pktLen = c * 256 + d) as Hv.
  { unfold be16_at in Hp. change (a :: b :: c :: d :: l) with ([a; b] ++ [c; d] ++ l) in Hp.
    rewrite slice_mid, bind_Ok in Hp by done. by injection Hp. }
  unfold bytes_wf in Hwf. rewrite !Forall_cons in Hwf. destruct Hwf as (Ha & Hb & Hc & Hd & Hl). unfold is_u8 in *.
  exists a, b, (sub l 0 (pktLen - 4)), (drop (Z.to_nat (pktLen - 4)) l).
  assert (len (sub l 0 (pktLen - 4)) = pktLen - 4) as Hs by (rewrite len_sub; lia).
  split_and!; [|done|lia]. unfold packet. rewrite Hs, <- !app_assoc. cbn [app].
  replace (4 + (pktLen - 4)) with pktLen by lia. unfold put16. cbn [app].
  do 2 f_equal. f_equal; [Z.div_mod_to_equations; lia|]. f_equal; [Z.div_mod_to_equations; lia|].
  unfold sub. rewrite Z.sub_0_r, drop_0. by rewrite take_drop.
Qed.

Lemma BuildConfigureRequest_ok h :
  exists opts, BuildConfigureRequest h =
    Ok ((if state h =? LCPStateInitial then with_state (bump_nextID h) LCPStateReqSent
         else bump_nextID h),
        packet LCPConfigureRequest (u8 (nextID h + 1)) opts) /\ len opts = 15.
Proof.
  unfold BuildConfigureRequest. set (h1 := bump_nextID h). rewrite (fill_start 4).
  rewrite fill_put32, bind_Ok by (len_norm; lia). rewrite make_0, app_nil_r by lia. cbn [app].
  match goal with |- context [copy_at _ 4 ?o] => set (opts := o) end.
  assert (len opts = 15) as Hl by reflexivity. exists opts. split; [|done].
  pose proof (buildResponse_ok LCPConfigureRequest (nextID h1) opts ltac:(rewrite Hl; lia)) as E.
  unfold buildResponse in E. rewrite Hl in E |- *. cbn [Z.gtb] in E.
  destruct (set_at _ 0 _) as [p0| |]; cbn [mbind res_bind] in E |- *; [|done..].
  destruct (set_at p0 1 _) as [p1| |]; cbn [mbind res_bind] in E |- *; [|done..].
  destruct (put16_at p1 2 _) as [p2| |]; cbn [mbind res_bind] in E |- *; [|done..].
  destruct (copy_at p2 4 opts) as [p3| |]; cbn [mbind res_bind] in E |- *; [|done..].
  by injection E as ->.
Qed.

(** ** What the server thinks of an option of the peer *)

Definition judge (o : opt) : verdict :=
  let d := optData o in
  if optType o =? LCPOptMRU then
    match (if optLen o >=? 4 then be16_at d 2 else Panic) with
    | Ok m => if (m >=? 128) && (m <=? 16384) then VAck else VNak [LCPOptMRU; 4; 5; 220]
    | _ => VRej
    end
  else if optType o =? LCPOptAuthProto then
    match (if optLen o >=? 4 then be16_at d 2 else Panic) with
    | Ok p => if p =? PPPProtoCHAP then VAck else VNak [LCPOptAuthProto; 5; 194; 35; CHAPAlgorithmMD5]
    | _ => VRej
    end
  else if optType o =? LCPOptMagicNumber then if optLen o >=? 6 then VAck else VRej
  else if (optType o =? LCPOptPFCompress) || (optType o =? LCPOptACFCompress) then VAck
  else VRej.

Definition add_verdict (v : verdict) (d : bytes) (s : lists) : lists :=
  match v with VAck => add_ack s d | VNak n => add_nak s n | VRej => add_rej s d end.

(** What a Configure-Request changes before the answer is chosen: at most the MRU
    and the peer's magic number. *)
Definition same_negotiation (h h' : LCPHandler) : Prop :=
  state h' = state h /\ localMagic h' = localMagic h /\ nextID h' = nextID h /\
  ourConfigAcked h' = ourConfigAcked h /\ peerConfigAcked h' = peerConfigAcked h.

Lemma configure_option_judge o h s :
  opt_ok o ->
  exists h', configure_option o h s = Ok (h', add_verdict (judge o) (optData o) s) /\
    same_negotiation h h'.
Proof.
  intros Ho. pose proof (oo_len o Ho) as Hl. pose proof (oo_bound o Ho) as Hb.
  unfold configure_option, judge.
  repeat match goal with
  | |- context [if (?a =? ?b) then _ else _] => destruct (a =? b) eqn:?; cbn [orb]
  | |- context [if (optLen o >=? ?b) then _ else _] => destruct (optLen o >=? b) eqn:?
  | |- context [be16_at (optData o) 2] =>
    let v := fresh "v" in destruct (be16_at_total (optData o) 2) as [v ->]; [lia|lia|];
    rewrite bind_Ok; destruct (_ && _) || destruct (_ =? PPPProtoCHAP)
  | |- context [be32_at (optData o) 2] =>
    let v := fresh "v" in destruct (be32_at_total (optData o) 2) as [v ->]; [lia|lia|];
    rewrite bind_Ok
  end; eexists; (split; [reflexivity|done]).
Qed.

Lemma configure_options_judge os h s :
  Forall opt_ok os ->
  exists h', configure_options os h s =
    Ok (h', mkLists (ackOpts s ++ ack_bytes judge os) (nakOpts s ++ nak_bytes judge os)
              (rejOpts s ++ rej_bytes judge os)) /\ same_negotiation h h'.
Proof.
  intros Hos. revert h s. induction Hos as [|o os Ho _ IH]; intros h s.
  - exists h. cbn. rewrite !app_nil_r. by destruct s.
  - destruct (configure_option_judge o h s Ho) as (h1 & E1 & Hn1). cbn [configure_options].
    rewrite E1, bind_Ok. destruct (IH h1 (add_verdict (judge o) (optData o) s)) as (h' & -> & Hn').
    exists h'. split; [|unfold same_negotiation in *; naive_solver congruence].
    destruct (verdict_bytes_cons judge o os) as (-> & -> & ->). unfold acked, naked, rejected.
    destruct (judge o); cbn; by rewrite <- ?app_assoc.
Qed.

Lemma judge_nak o s : judge o = VNak s ->
  (optType o = LCPOptMRU /\ s = [1; 4; 5; 220]) \/ (optType o = LCPOptAuthProto /\ s = [3; 5; 194; 35; 5]).
Proof.
  unfold judge.
  repeat match goal with
  | |- context [if (optType o =? ?b) then _ else _] => destruct (Z.eqb_spec (optType o) b) as [->|]
  end; repeat case_match; intros [=]; subst; auto.
Qed.

(** An Authentication-Protocol option is only accepted when it names CHAP. *)
Lemma judge_auth o :
  optType o = LCPOptAuthProto -> judge o = VAck -> be16_at (optData o) 2 = Ok PPPProtoCHAP.
Proof.
  unfold judge. intros ->. change (LCPOptAuthProto =? LCPOptMRU) with false.
  change (LCPOptAuthProto =? LCPOptAuthProto) with true. cbv iota.
  destruct (optLen o >=? 4); [|discriminate].
  destruct (be16_at (optData o) 2) as [v|e|]; [|discriminate..].
  destruct (Z.eqb_spec v PPPProtoCHAP) as [->|]; [done|discriminate].
Qed.

Lemma judge_consistent : consistent judge.
Proof.
  intros o s _ [[-> ->]|[-> ->]]%judge_nak; (split; [split; cbn; try done|done]).
  all: repeat (apply Forall_cons; split; [done|]); done.
Qed.

Lemma len_naked o : len (naked judge o) <= 5.
Proof.
  unfold naked. destruct (judge o) eqn:E; [done| |done].
  destruct (judge_nak _ _ E) as [[_ ->]|[_ ->]]; done.
Qed.

(** The answer to a Configure-Request of the options [os] (RFC 1661 5.2 to 5.4):
    the rejected options if there are any, else the suggestions for the options
    that are not accepted, else all options. *)
Definition answer (judge : opt -> verdict) (id : Z) (os : list opt) : bytes :=
  if decide (rej_bytes judge os = []) then
    if decide (nak_bytes judge os = []) then packet LCPConfigureAck id (ack_bytes judge os)
    else packet LCPConfigureNak id (nak_bytes judge os)
  else packet LCPConfigureReject id (rej_bytes judge os).

Definition accepts (judge : opt -> verdict) (os : list opt) : bool :=
  bool_decide (rej_bytes judge os = [] /\ nak_bytes judge os = []).

Lemma len_verdicts judge os :
  (forall o, opt_ok o -> 4 * len (naked judge o) <= 5 * optLen o) -> Forall opt_ok os ->
  len (ack_bytes judge os) <= len (opts_bytes os) /\ len (rej_bytes judge os) <= len (opts_bytes os) /\
  4 * len (nak_bytes judge os) <= 5 * len (opts_bytes os).
Proof.
  intros Hn Hos. induction Hos as [|o os Ho _ IH]; [done|]. rewrite opts_bytes_cons.
  destruct (verdict_bytes_cons judge o os) as (-> & -> & ->). specialize (Hn o Ho).
  pose proof (oo_len o Ho) as Hl. pose proof (oo_bound o Ho). rewrite !len_app.
  assert (len (acked judge o) <= len (optData o) /\ len (rejected judge o) <= len (optData o)).
  { unfold acked, rejected. destruct (judge o); rewrite ?len_nil; lia. }
  lia.
Qed.

Lemma len_gtb_nil {A} (l : list A) : (len l >? 0) = negb (bool_decide (l = [])).
Proof. destruct l; [done|]. rewrite len_cons. pose proof (len_nonneg l). cbn -[Z.add]. lia. Qed.

Lemma naked_size o : opt_ok o -> 4 * len (naked judge o) <= 5 * optLen o.
Proof.
  intros Ho. pose proof (oo_bound o Ho). unfold naked. destruct (judge o) eqn:E; [rewrite (@len_nil Z); lia| |rewrite (@len_nil Z); lia].
  assert (4 <= optLen o).
  { unfold judge in E. repeat case_match; try discriminate; lia. }
  destruct (judge_nak _ _ E) as [[_ ->]|[_ ->]]; rewrite !len_cons, (@len_nil Z); lia.
Qed.

(** [handleConfigureRequest] gives the answer of [judge], and records that the peer
    was acknowledged exactly when it acknowledges. *)
Lemma handleConfigureRequest_ok h id os rest options :
  parse_options options = Ok os -> Forall opt_ok os -> options = opts_bytes os ++ rest ->
  len options <= 52000 ->
  exists h1, same_negotiation h h1 /\
    handleConfigureRequest h id options =
      Ok (if accepts judge os then checkOpened (with_peerConfigAcked h1) else h1, answer judge id os).
Proof.
  intros Hp Hos -> Hlen. unfold handleConfigureRequest. rewrite Hp, bind_Ok.
  destruct (configure_options_judge os h (mkLists [] [] []) Hos) as (h1 & -> & Hs).
  exists h1. split; [done|]. rewrite bind_Ok. cbn [ackOpts nakOpts rejOpts app].
  destruct (len_verdicts judge os naked_size Hos) as (? & ? & ?). rewrite len_app in Hlen.
  pose proof (len_nonneg rest).
  rewrite !buildResponse_ok by lia. rewrite !bind_Ok, !len_gtb_nil. unfold accepts, answer.
  destruct (decide (rej_bytes judge os = [])) as [Hr|Hr], (decide (nak_bytes judge os = [])) as [Hn|Hn];
    repeat case_bool_decide; naive_solver.
Qed.

(** ** [Handle] on every packet *)

Lemma nak_options_total os h r :
  Forall opt_ok os -> exists h' r', nak_options os h r = Ok (h', r').
Proof.
  intros Hos. revert h r. induction Hos as [|o os Ho _ IH]; intros h r; cbn [nak_options]; [eauto|].
  pose proof (oo_len o Ho). destruct (_ =? LCPOptMRU).
  - destruct (optLen o >=? 4) eqn:E; [|apply IH].
    destruct (be16_at_total (optData o) 2) as [v ->]; [lia|lia|]. rewrite bind_Ok. apply IH.
  - destruct (_ =? LCPOptMagicNumber); [|apply IH]. unfold rand_Read.
    destruct (be32_ok (resize 4 0 (draw r (used r)))) as [v ->].
    { unfold len. rewrite length_resize. lia. }
    rewrite bind_Ok. apply IH.
Qed.

Lemma handleEchoRequest_ok h id payload :
  len payload < 65532 -> exists pkt, handleEchoRequest h id payload = Ok pkt.
Proof.
  intros Hl. unfold handleEchoRequest. rewrite (fill_start 4).
  rewrite fill_put32, bind_Ok by (len_norm; lia). rewrite make_0, app_nil_r by lia. cbn [app].
  destruct (len payload >? 4) eqn:E.
  - rewrite slice_ok, bind_Ok by lia. eexists. apply buildResponse_ok. len_norm.
    rewrite len_sub by lia. lia.
  - rewrite bind_Ok. eexists. apply buildResponse_ok. len_norm. lia.
Qed.

(** Everything but a packet that states a length below its header is handled. *)
Lemma Handle_ok r h data pktLen :
  bytes_wf data -> len data <= 52000 -> 4 <= len data -> be16_at data 2 = Ok pktLen -> 4 <= pktLen ->
  exists out, Handle r h data = Ok out.
Proof.
  intros Hwf Hlen H4 Hp Hp4. unfold Handle. unfold lcpPacketHeaderLen in *.
  rewrite (proj2 (Z.ltb_ge (len data) 4)) by lia.
  destruct (idx_total data 0) as (code & -> & _); [lia|]. rewrite bind_Ok.
  destruct (idx_total data 1) as (id & -> & _); [lia|]. rewrite bind_Ok, Hp, bind_Ok.
  destruct (pktLen >? len data) eqn:E; [eauto|]. rewrite slice_ok, bind_Ok by lia.
  set (payload := sub data 4 pktLen).
  assert (len payload = pktLen - 4) as Hl by (apply len_sub; lia).
  assert (bytes_wf payload) as Hpw by by apply Forall_sub.
  destruct (parse_options_total payload Hpw) as (os & rest & Hps & Hos & Heq).
  destruct (_ =? LCPConfigureRequest).
  { destruct (handleConfigureRequest_ok h id os rest payload) as (h1 & _ & ->); [done..|lia|].
    rewrite bind_Ok. eauto. }
  destruct (_ =? LCPConfigureAck); [eauto|]. destruct (_ =? LCPConfigureNak).
  { unfold handleConfigureNak. rewrite Hps, bind_Ok.
    destruct (nak_options_total os h r Hos) as (h1 & r1 & ->). rewrite bind_Ok.
    destruct (BuildConfigureRequest_ok h1) as (? & -> & _). rewrite !bind_Ok. eauto. }
  destruct (_ =? LCPConfigureReject).
  { unfold handleConfigureReject. rewrite Hps, bind_Ok. destruct (reject_options os h) as [h1 []].
    - rewrite buildResponse_ok by done. rewrite !bind_Ok. eauto.
    - destruct (BuildConfigureRequest_ok h1) as (? & -> & _). rewrite !bind_Ok. eauto. }
  destruct (_ =? LCPTerminateRequest).
  { unfold handleTerminateRequest. rewrite buildResponse_ok by done. rewrite !bind_Ok. eauto. }
  destruct (_ =? LCPEchoRequest); [|eauto].
  destruct (handleEchoRequest_ok h id payload) as [pkt ->]; [lia|]. rewrite bind_Ok. eauto.
Qed.

Lemma Handle_short_length r h data pktLen :
  4 <= len data -> be16_at data 2 = Ok pktLen -> pktLen < 4 -> Handle r h data = Panic.
Proof.
  intros H4 Hp Hlt. unfold Handle, lcpPacketHeaderLen. rewrite (proj2 (Z.ltb_ge (len data) 4)) by lia.
  destruct (idx_total data 0) as (code & -> & _); [lia|]. rewrite bind_Ok.
  destruct (idx_total data 1) as (id & -> & _); [lia|]. rewrite bind_Ok, Hp, bind_Ok.
  rewrite gtb_false by lia. by rewrite slice_panic by lia.
Qed.

(** A four-byte Authentication-Protocol option naming PAP. *)
Definition pap_option : opt := mkOpt LCPOptAuthProto 4 [3; 4; 192; 35].

Lemma pap_option_ok : opt_ok pap_option.
Proof.
  split; cbn; try done. repeat (apply Forall_cons; split; [done|]). done.
Qed.

Lemma nak_bytes_pap n : len (nak_bytes judge (replicate n pap_option)) = 5 * Z.of_nat n /\
  rej_bytes judge (replicate n pap_option) = [] /\
  len (opts_bytes (replicate n pap_option)) = 4 * Z.of_nat n.
Proof.
  induction n as [|n (IH1 & IH2 & IH3)]; [done|]. cbn [replicate]. rewrite opts_bytes_cons.
  destruct (verdict_bytes_cons judge pap_option (replicate n pap_option)) as (_ & -> & ->).
  rewrite IH2, !len_app, IH1, IH3. change (len (naked judge pap_option)) with 5.
  change (len (optData pap_option)) with 4. split_and!; [lia|done|lia].
Qed.

(** 13107 such options make the length of the answer wrap to three. *)
Lemma pap_overflow r h id n :
  Z.of_nat n = 13107 ->
  Handle r h (packet LCPConfigureRequest id (opts_bytes (replicate n pap_option))) = Panic.
Proof.
  intros Hn.
  destruct (nak_bytes_pap n) as (Hk & Hr & Ho). set (options := opts_bytes (replicate n pap_option)) in *.
  assert (Forall opt_ok (replicate n pap_option)) as Hos by apply Forall_replicate, pap_option_ok.
  unfold Handle, lcpPacketHeaderLen.
  destruct (packet_fields LCPConfigureRequest id options) as (H1 & -> & -> & -> & H2); [lia|].
  rewrite H1, (proj2 (Z.ltb_ge _ 4)) by lia. rewrite !bind_Ok, gtb_false by lia. rewrite H2, bind_Ok.
  cbn [Z.eqb LCPConfigureRequest Pos.eqb]. unfold handleConfigureRequest, options.
  rewrite parse_opts_bytes, bind_Ok by done.
  destruct (configure_options_judge _ h (mkLists [] [] []) Hos) as (h1 & -> & _).
  rewrite bind_Ok. cbn [ackOpts nakOpts rejOpts app]. rewrite Hr, Hk, (@len_nil Z).
  change (0 >? 0) with false. cbv iota. rewrite (proj2 (Z.gtb_lt (5 * Z.of_nat n) 0)) by lia.
  rewrite buildResponse_panic; [done|]. rewrite Hk, Hn. done.
Qed.

(** ** The MRU stays a 16-bit number, so a Protocol-Reject can always be built *)

Definition lcp_ok (h : LCPHandler) : Prop := is_u16 (mru h).

Lemma configure_options_mru os h s h' s' :
  Forall opt_ok os -> lcp_ok h -> configure_options os h s = Ok (h', s') -> lcp_ok h'.
Proof.
  intros Hos. revert h s. induction Hos as [|o os Ho _ IH]; intros h s Hm; cbn [configure_options].
  - by intros [= <- _].
  - intros ([h1 s1] & E & Hr)%bind_Ok_inv. eapply IH; [|exact Hr]. clear Hr IH.
    unfold configure_option in E. repeat case_match; try by injection E as <- <-.
    + apply bind_Ok_inv in E as (v & Hv & E). case_match; [|by injection E as <- <-].
      injection E as <- <-. unfold lcp_ok; cbn. eapply be16_at_u16; [apply Ho|exact Hv].
    + apply bind_Ok_inv in E as (v & Hv & E). case_match; by injection E as <- <-.
    + apply bind_Ok_inv in E as (v & Hv & E). by injection E as <- <-.
Qed.

Lemma nak_options_mru os h r h' r' :
  Forall opt_ok os -> lcp_ok h -> nak_options os h r = Ok (h', r') -> lcp_ok h'.
Proof.
  intros Hos. revert h r. induction Hos as [|o os Ho _ IH]; intros h r Hm; cbn [nak_options].
  - by intros [= <- _].
  - repeat case_match; try by apply IH.
    + intros (v & Hv & E)%bind_Ok_inv. eapply IH; [|exact E]. unfold lcp_ok; cbn.
      eapply be16_at_u16; [apply Ho|exact Hv].
    + intros (v & Hv & E)%bind_Ok_inv. by eapply IH; [|exact E].
Qed.

Lemma reject_options_mru os h : mru (reject_options os h).1 = mru h.
Proof.
  revert h. induction os as [|o os IH]; intros h; cbn; [done|]. repeat case_match; try done; by rewrite IH.
Qed.

Lemma BuildConfigureRequest_mru h h' pkt : BuildConfigureRequest h = Ok (h', pkt) -> mru h' = mru h.
Proof. destruct (BuildConfigureRequest_ok h) as (o & -> & _). intros [= <- _]. by case_match. Qed.

Lemma checkOpened_mru h : mru (checkOpened h) = mru h.
Proof. unfold checkOpened. by case_match. Qed.

Lemma Handle_lcp_ok r h data h' r' o :
  bytes_wf data -> lcp_ok h -> Handle r h data = Ok (h', r', o) -> lcp_ok h'.
Proof.
  intros Hwf Hm. unfold Handle. case_match; [by intros [= <- <- <-]|].
  intros (code & _ & E)%bind_Ok_inv. apply bind_Ok_inv in E as (id & _ & E).
  apply bind_Ok_inv in E as (pl & _ & E). case_match; [by injection E as <- <- <-|].
  apply bind_Ok_inv in E as (payload & (_ & _ & ->)%slice_inv & E). unfold lcpPacketHeaderLen in E.
  destruct (parse_options_total (sub data 4 pl)) as (os & rest & Hps & Hos & _); [by apply Forall_sub|].
  repeat case_match.
  - apply bind_Ok_inv in E as ([h1 p] & E & [= <- <- <-]). unfold handleConfigureRequest in E.
    rewrite Hps, bind_Ok in E. apply bind_Ok_inv in E as ([h2 s] & E2 & E).
    pose proof (configure_options_mru _ _ _ _ _ Hos Hm E2) as Hm2.
    repeat case_match; apply bind_Ok_inv in E as (? & _ & [= <- <-]); [done|done|].
    unfold lcp_ok. by rewrite checkOpened_mru.
  - injection E as <- <- <-. unfold handleConfigureAck, lcp_ok. case_match; [done|]. by rewrite checkOpened_mru.
  - apply bind_Ok_inv in E as ([[h1 r1] p] & E & [= <- <- <-]). unfold handleConfigureNak in E.
    rewrite Hps, bind_Ok in E. apply bind_Ok_inv in E as ([h2 r2] & E2 & E).
    apply bind_Ok_inv in E as ([h3 p3] & E3 & [= <- <- <-]). unfold lcp_ok.
    rewrite (BuildConfigureRequest_mru _ _ _ E3). by eapply nak_options_mru.
  - apply bind_Ok_inv in E as ([h1 p] & E & [= <- <- <-]). unfold handleConfigureReject in E.
    rewrite Hps, bind_Ok in E. pose proof (reject_options_mru os h) as Hrm.
    destruct (reject_options os h) as [h2 b]; cbn in Hrm. unfold lcp_ok. destruct b.
    + apply bind_Ok_inv in E as (? & _ & [= <- _]). by rewrite Hrm.
    + by rewrite (BuildConfigureRequest_mru _ _ _ E), Hrm.
  - apply bind_Ok_inv in E as ([h1 p] & E & [= <- <- <-]). unfold handleTerminateRequest in E.
    by apply bind_Ok_inv in E as (? & _ & [= <- _]).
  - by apply bind_Ok_inv in E as (? & _ & [= <- <- <-]).
  - by injection E as <- <- <-.
Qed.

Lemma BuildProtocolReject_ok h proto pkt :
  lcp_ok h -> exists out, BuildProtocolReject h proto pkt = Ok (bump_nextID h, out).
Proof.
  intros Hm. unfold lcp_ok, is_u16 in Hm. unfold BuildProtocolReject, lcpPacketHeaderLen.
  change (mru (bump_nextID h)) with (mru h). rewrite (fill_start 2).
  rewrite fill_put16, bind_Ok by (len_norm; lia). rewrite make_0, app_nil_r by lia. cbn [app].
  set (maxData := if mru h - 4 - 2 <? 0 then 0 else mru h - 4 - 2).
  assert (0 <= maxData <= 65529) as Hx by (unfold maxData; destruct (_ <? 0) eqn:E; lia).
  destruct (len pkt >? maxData) eqn:E.
  - rewrite slice_ok, bind_Ok by lia. rewrite buildResponse_ok, bind_Ok; [eauto|].
    len_norm. rewrite len_sub by lia. lia.
  - rewrite bind_Ok, buildResponse_ok, bind_Ok; [eauto|]. len_norm. lia.
Qed.

(** ** Negotiation *)

Lemma Handle_request r h id options os rest :
  parse_options options = Ok os -> Forall opt_ok os -> options = opts_bytes os ++ rest ->
  len options <= 52000 ->
  exists h1, same_negotiation h h1 /\
    Handle r h (packet LCPConfigureRequest id options) =
      Ok (if accepts judge os then checkOpened (with_peerConfigAcked h1) else h1, r,
          Some (answer judge id os)).
Proof.
  intros Hp Hos Heq Hl. destruct (handleConfigureRequest_ok h id os rest options) as (h1 & Hs & E); try done.
  exists h1. split; [done|]. unfold Handle, lcpPacketHeaderLen. pose proof (len_nonneg options).
  destruct (packet_fields LCPConfigureRequest id options) as (H1 & -> & -> & -> & H2); [lia|].
  rewrite H1, (proj2 (Z.ltb_ge (4 + len options) 4)) by lia.
  rewrite !bind_Ok, gtb_false by lia. rewrite H2, bind_Ok. cbn [Z.eqb LCPConfigureRequest Pos.eqb].
  by rewrite E, bind_Ok.
Qed.

Lemma accepts_iff judge os :
  consistent judge -> Forall opt_ok os ->
  accepts judge os = true <-> Forall (fun o => judge o = VAck) os.
Proof.
  intros HC Hos. unfold accepts. rewrite bool_decide_eq_true. split.
  - intros [Hr Hn]. by apply nak_bytes_nil.
  - intros H. by destruct (all_acked judge os H) as (_ & -> & ->).
Qed.

Lemma answer_ack judge id os :
  Forall (fun o => judge o = VAck) os -> answer judge id os = packet LCPConfigureAck id (opts_bytes os).
Proof.
  intros H. unfold answer. destruct (all_acked judge os H) as (-> & -> & ->). by rewrite !decide_True.
Qed.

Lemma len_follow judge os :
  (forall o, opt_ok o -> 4 * len (naked judge o) <= 5 * optLen o) -> Forall opt_ok os ->
  4 * len (opts_bytes (follow judge <$> os)) <= 5 * len (opts_bytes os).
Proof.
  intros Hn Hos. induction Hos as [|o os Ho _ IH]; [done|]. rewrite fmap_cons, !opts_bytes_cons, !len_app.
  specialize (Hn o Ho). pose proof (oo_len o Ho). pose proof (oo_bound o Ho).
  assert (4 * len (optData (follow judge o)) <= 5 * len (optData o)).
  { unfold naked in Hn. unfold follow. destruct (judge o); cbn [optData]; lia. }
  lia.
Qed.

(** LCP negotiation.  Whatever bytes follow a Configure-Request header, the
    server answers with the rejected options verbatim if it knows one of them not,
    else with a suggestion for each option it does not accept, else it acknowledges;
    an acknowledgement repeats exactly the options of the request, none of which
    asks for an authentication other than CHAP; nothing but an acknowledgement
    changes the negotiation state, and it opens the link exactly when the peer has
    acknowledged ours.  A peer that follows the suggestions is acknowledged in the
    next round. *)
Theorem lcp_negotiation r h id id' options :
  bytes_wf options -> len options <= 41600 ->
  exists os rest h1, options = opts_bytes os ++ rest /\ Forall opt_ok os /\
    Handle r h (packet LCPConfigureRequest id options) = Ok (h1, r, Some (answer judge id os)) /\
    (if accepts judge os then
       answer judge id os = packet LCPConfigureAck id (opts_bytes os) /\
       (forall o, o ∈ os -> optType o = LCPOptAuthProto -> be16_at (optData o) 2 = Ok PPPProtoCHAP) /\
       peerConfigAcked h1 = true /\ ourConfigAcked h1 = ourConfigAcked h /\
       state h1 = if ourConfigAcked h then LCPStateOpened else state h
     else same_negotiation h h1) /\
    (rej_bytes judge os = [] ->
     exists h2, let os' := follow judge <$> os in
       Handle r h1 (packet LCPConfigureRequest id' (opts_bytes os')) =
         Ok (h2, r, Some (packet LCPConfigureAck id' (opts_bytes os'))) /\ peerConfigAcked h2 = true).
Proof.
  intros Hwf Hl. destruct (parse_options_total options Hwf) as (os & rest & Hp & Hos & Heq).
  destruct (Handle_request r h id options os rest) as (h0 & Hs & E); [done..|lia|].
  eexists os, rest, _. split_and!; [done|done|exact E| |].
  - destruct (accepts judge os) eqn:A; [|done].
    apply accepts_iff in A; [|exact judge_consistent|done].
    split; [by apply answer_ack|]. destruct Hs as (S1 & S2 & S3 & S4 & S5). split.
    + intros o Hin Ht. rewrite Forall_forall in A. apply judge_auth; auto.
    + unfold checkOpened. cbn. rewrite S4, andb_true_r. by destruct (ourConfigAcked h).
  - intros Hr. set (h1 := if accepts judge os then _ else _). clearbody h1. cbn zeta.
    destruct (follow_accepted judge os) as [Hos' Hack]; [exact judge_consistent|done|by apply rej_bytes_nil|].
    pose proof (len_follow judge os naked_size Hos) as Hlf. subst options. rewrite len_app in Hl.
    pose proof (len_nonneg rest).
    destruct (Handle_request r h1 id' (opts_bytes (follow judge <$> os)) (follow judge <$> os) [])
      as (h2 & _ & E2); [by apply parse_opts_bytes|done|by rewrite app_nil_r|lia|].
    rewrite E2, (proj2 (accepts_iff judge _ judge_consistent Hos')), answer_ack by done.
    eexists. split; [reflexivity|]. unfold checkOpened. cbn. by destruct (ourConfigAcked h2).
Qed.

(** the LCP handler answers every packet of up to 52000 bytes, or ignores it,
    unless the length stated in the packet is below its four-byte header: then the
    slice expression of the source panics.  And a request of 13107 four-byte
    options that name PAP makes it suggest 65535 bytes of CHAP options, whose
    16-bit packet length wraps to three: the answer cannot be written and the
    handler panics as well. *)
Theorem lcp_panics r h id data :
  bytes_wf data -> len data <= 52000 ->
  (Handle r h data = Panic <->
   4 <= len data /\ exists pktLen, be16_at data 2 = Ok pktLen /\ pktLen < 4) /\
  Handle r h (packet LCPConfigureRequest id (opts_bytes (replicate (Z.to_nat 13107) pap_option))) = Panic.
Proof.
  intros Hwf Hl. split; [split|].
  - intros HP. destruct (decide (4 <= len data)) as [H4|H4].
    2:{ unfold Handle, lcpPacketHeaderLen in HP. by rewrite (proj2 (Z.ltb_lt (len data) 4)) in HP by lia. }
    split; [done|]. destruct (be16_at_total data 2) as [v Hv]; [lia|lia|]. exists v. split; [done|].
    destruct (decide (v < 4)) as [|Hv4]; [done|].
    destruct (Handle_ok r h data v) as [out Ho]; [done..|lia|]. by rewrite Ho in HP.
  - intros (H4 & v & Hv & Hlt). by eapply Handle_short_length.
  - apply pap_overflow. by rewrite Z2Nat.id.
Qed.

(** A request for an MRU of 64 and for PAP, followed by stray bytes. *)
Definition demo_options : bytes := [1; 4; 0; 64; 3; 4; 192; 35; 7; 2; 9].

Definition demo_lcp : LCPHandler := mkLCP LCPStateReqSent 305419896 0 defaultMRU 1 true false.

Example lcp_demo :
  answer judge 7 (default [] (match parse_options demo_options with Ok os => Some os | _ => None end)) =
  [3; 7; 0; 13; 1; 4; 5; 220; 3; 5; 194; 35; 5].
Proof. vm_compute. reflexivity. Qed.

Lemma lcp_negotiation_witness :
  exists os rest h1, demo_options = opts_bytes os ++ rest /\ Forall opt_ok os /\
    Handle demo_rng demo_lcp (packet LCPConfigureRequest 7 demo_options) =
      Ok (h1, demo_rng, Some (answer judge 7 os)).
Proof.
  destruct (lcp_negotiation demo_rng demo_lcp 7 8 demo_options) as (os & rest & h1 & H1 & H2 & H3 & _).
  - by apply (bool_decide_unpack _).
  - vm_compute. discriminate.
  - exists os, rest, h1. split; [exact H1|]. split; [exact H2|exact H3].
Defined.

Lemma lcp_panics_witness :
  Handle demo_rng demo_lcp [1; 7; 0; 3] = Panic /\
  Handle demo_rng demo_lcp (packet LCPConfigureRequest 7 (opts_bytes (replicate (Z.to_nat 13107) pap_option))) = Panic.
Proof.
  destruct (lcp_panics demo_rng demo_lcp 7 [1; 7; 0; 3]) as [[_ H1] H2].
  - by apply (bool_decide_unpack _).
  - vm_compute. discriminate.
  - split; [|exact H2]. apply H1. split; [vm_compute; discriminate|].
    exists 3. split; reflexivity.
Defined.

End Lcp.
