(* ===== verification/L2tpIpcp.v ===== *)
(** * L2tpIpcp: the IP Control Protocol ([internal/l2tp/ipcp.go])

    The handler that assigns the peer its address and name servers.  [judge] is
    what the server thinks of one option; [handleConfigureRequest] is the responder
    of [L2tpLcp.Options] for it. *)

From S2P Require Import Prelude Net Rand L2tpPacket L2tpLcp.

Module Ipcp.
Import Packet Options.

Definition IPCPOptIPAddress : Z := 3.
Definition IPCPOptPrimaryDNS : Z := 129.
Definition IPCPOptSecondaryDNS : Z := 131.

Definition IPCPConfigureRequest : Z := 1.
Definition IPCPConfigureAck : Z := 2.
Definition IPCPConfigureNak : Z := 3.
Definition IPCPConfigureReject : Z := 4.

Definition ipcpPacketHeaderLen : Z := 4.
Definition ipcpOptionHeaderLen : Z := 2.

Definition defaultPrimaryDNS : bytes := IPv4 1 1 1 1.
Definition defaultSecondaryDNS : bytes := IPv4 1 0 0 1.
Definition zeroIP : bytes := IPv4 0 0 0 0.

Record IPCPHandler := mkIPCP {
  assignedIP : bytes;
  gatewayIP : bytes;
  primaryDNS : bytes;
  secondaryDNS : bytes;
  nextID : Z;
  peerConfigAcked : bool;
  ourConfigAcked : bool;
  opened : bool
}.

Definition NewIPCPHandler (assignedIP gatewayIP dns1 dns2 : bytes) : IPCPHandler :=
  let dns1 := match dns1 with [] => defaultPrimaryDNS | _ => dns1 end in
  let dns2 := match dns2 with [] => defaultSecondaryDNS | _ => dns2 end in
  mkIPCP assignedIP gatewayIP dns1 dns2 0 false false false.

Definition IsOpened (h : IPCPHandler) : bool := opened h.
Definition AssignedIP (h : IPCPHandler) : bytes := assignedIP h.
Definition GatewayIP (h : IPCPHandler) : bytes := gatewayIP h.

Definition with_flags (h : IPCPHandler) (p o op : bool) : IPCPHandler :=
  mkIPCP (assignedIP h) (gatewayIP h) (primaryDNS h) (secondaryDNS h) (nextID h) p o op.
Definition bump_nextID (h : IPCPHandler) : IPCPHandler :=
  mkIPCP (assignedIP h) (gatewayIP h) (primaryDNS h) (secondaryDNS h) (u8 (nextID h + 1))
    (peerConfigAcked h) (ourConfigAcked h) (opened h).

Definition checkOpened (h : IPCPHandler) : IPCPHandler :=
  if ourConfigAcked h && peerConfigAcked h then with_flags h (peerConfigAcked h) (ourConfigAcked h) true
  else h.

(** The nil slice of [To4] on an address that is no IPv4 one. *)
Definition to4 (ip : bytes) : bytes := default [] (To4 ip).

(** [[]byte{t, 6, ip[0], ip[1], ip[2], ip[3]}] *)
Definition address_option (t : Z) (ip : bytes) : res bytes :=
  a ← idx ip 0; b ← idx ip 1; c ← idx ip 2; d ← idx ip 3;
  Ok [t; 6; a; b; c; d].

Definition BuildConfigureRequest (h : IPCPHandler) : res (IPCPHandler * bytes) :=
  let h := bump_nextID h in
  let gw := match To4 (gatewayIP h) with Some gw => gw | None => to4 (IPv4 0 0 0 0) end in
  opts ← address_option IPCPOptIPAddress gw;
  let pktLen := u16 (ipcpPacketHeaderLen + len opts) in
  let pkt := make pktLen in
  pkt ← set_at pkt 0 IPCPConfigureRequest;
  pkt ← set_at pkt 1 (nextID h);
  pkt ← put16_at pkt 2 pktLen;
  pkt ← copy_at pkt 4 opts;
  Ok (h, pkt).

Definition buildResponse (code id : Z) (data : bytes) : res bytes :=
  let pktLen := u16 (ipcpPacketHeaderLen + len data) in
  let pkt := make pktLen in
  pkt ← set_at pkt 0 code;
  pkt ← set_at pkt 1 id;
  pkt ← put16_at pkt 2 pktLen;
  if len data >? 0 then copy_at pkt 4 data else Ok pkt.

(** The cases of the loop for the three addresses: [want] is the server's own. *)
Definition configure_address (o : opt) (want : bytes) (s : Lcp.lists) : res Lcp.lists :=
  if optLen o >=? 6 then
    requested ← slice (optData o) 2 6;
    let wantTo4 := to4 want in
    if IPEqual requested zeroIP || negb (IPEqual requested want) then
      nak ← address_option (optType o) wantTo4;
      Ok (Lcp.add_nak s nak)
    else Ok (Lcp.add_ack s (optData o))
  else Ok (Lcp.add_rej s (optData o)).

(** The body of the loop of [handleConfigureRequest]. *)
Definition configure_option (h : IPCPHandler) (o : opt) (s : Lcp.lists) : res Lcp.lists :=
  if optType o =? IPCPOptIPAddress then configure_address o (assignedIP h) s
  else if optType o =? IPCPOptPrimaryDNS then configure_address o (primaryDNS h) s
  else if optType o =? IPCPOptSecondaryDNS then configure_address o (secondaryDNS h) s
  else Ok (Lcp.add_rej s (optData o)).

Fixpoint configure_options (h : IPCPHandler) (os : list opt) (s : Lcp.lists) : res Lcp.lists :=
  match os with
  | [] => Ok s
  | o :: os =>
    s ← configure_option h o s;
    configure_options h os s
  end.

Definition handleConfigureRequest (h : IPCPHandler) (id : Z) (options : bytes) :
    res (IPCPHandler * bytes) :=
  os ← parse_options options;
  s ← configure_options h os (Lcp.mkLists [] [] []);
  if len (Lcp.rejOpts s) >? 0 then
    pkt ← buildResponse IPCPConfigureReject id (Lcp.rejOpts s); Ok (h, pkt)
  else if len (Lcp.nakOpts s) >? 0 then
    pkt ← buildResponse IPCPConfigureNak id (Lcp.nakOpts s); Ok (h, pkt)
  else
    let h := checkOpened (with_flags h true (ourConfigAcked h) (opened h)) in
    pkt ← buildResponse IPCPConfigureAck id (Lcp.ackOpts s); Ok (h, pkt).

Definition handleConfigureAck (h : IPCPHandler) (id : Z) : IPCPHandler :=
  if negb (id =? nextID h) then h
  else checkOpened (with_flags h (peerConfigAcked h) true (opened h)).

(** The loop over the options of a Nak only logs. *)
Definition handleConfigureNak (h : IPCPHandler) (options : bytes) : res (IPCPHandler * bytes) :=
  _ ← parse_options options;
  BuildConfigureRequest h.

Definition Handle (h : IPCPHandler) (data : bytes) : res (IPCPHandler * option bytes) :=
  if len data <? ipcpPacketHeaderLen then Ok (h, None)
  else
    code ← idx data 0;
    id ← idx data 1;
    pktLen ← be16_at data 2;
    if pktLen >? len data then Ok (h, None)
    else
      payload ← slice data ipcpPacketHeaderLen pktLen;
      if code =? IPCPConfigureRequest then
        '(h, pkt) ← handleConfigureRequest h id payload; Ok (h, Some pkt)
      else if code =? IPCPConfigureAck then Ok (handleConfigureAck h id, None)
      else if code =? IPCPConfigureNak then
        '(h, pkt) ← handleConfigureNak h payload; Ok (h, Some pkt)
      else Ok (h, None).

(** ** The server's opinion of an option *)

Definition judge_address (want : bytes) (o : opt) : verdict :=
  if optLen o >=? 6 then
    if bool_decide (sub (optData o) 2 6 = [0; 0; 0; 0] \/ sub (optData o) 2 6 <> to4 want)
    then VNak ([optType o; 6] ++ to4 want) else VAck
  else VRej.

Definition judge (h : IPCPHandler) (o : opt) : verdict :=
  if optType o =? IPCPOptIPAddress then judge_address (assignedIP h) o
  else if optType o =? IPCPOptPrimaryDNS then judge_address (primaryDNS h) o
  else if optType o =? IPCPOptSecondaryDNS then judge_address (secondaryDNS h) o
  else VRej.

(** An address the server can hand out: an IPv4 one, and not 0.0.0.0. *)
Definition good_ip (ip : bytes) : Prop :=
  bytes_wf ip /\ exists b, To4 ip = Some b /\ b <> [0; 0; 0; 0].

Record ipcp_ok (h : IPCPHandler) : Prop := {
  io_ip : good_ip (assignedIP h);
  io_dns1 : good_ip (primaryDNS h);
  io_dns2 : good_ip (secondaryDNS h)
}.

Lemma good_ip_to4 ip : good_ip ip -> length (to4 ip) = 4%nat /\ bytes_wf (to4 ip) /\ To4 ip = Some (to4 ip).
Proof.
  intros (Hwf & b & Hb & _). unfold to4. rewrite Hb. cbn. split_and!; [by eapply To4_length|by eapply To4_wf|done].
Qed.

Lemma address_option_ok t ip :
  length ip = 4%nat -> address_option t ip = Ok ([t; 6] ++ ip).
Proof. intros H. destruct ip as [|a [|b [|c [|d [|]]]]]; by try discriminate. Qed.

Lemma configure_address_judge o want s :
  opt_ok o -> good_ip want ->
  configure_address o want s = Ok (Lcp.add_verdict (judge_address want o) (optData o) s).
Proof.
  intros Ho Hw. destruct (good_ip_to4 want Hw) as (Hl & _ & H4). pose proof (oo_len o Ho) as Hlo.
  unfold configure_address, judge_address. destruct (optLen o >=? 6) eqn:E; [|done].
  rewrite slice_ok, bind_Ok by lia.
  assert (length (sub (optData o) 2 6) = 4%nat) as Hs.
  { pose proof (len_sub (optData o) 2 6 ltac:(lia) ltac:(lia)). unfold len in *. lia. }
  rewrite (IPEqual_4 _ zeroIP [0; 0; 0; 0]), (IPEqual_4 _ want (to4 want)) by done.
  rewrite address_option_ok by done.
  repeat case_bool_decide; cbn [orb negb]; rewrite ?bind_Ok; naive_solver.
Qed.

Lemma ipcp_configure_options_judge h os s :
  ipcp_ok h -> Forall opt_ok os ->
  configure_options h os s =
    Ok (Lcp.mkLists (Lcp.ackOpts s ++ ack_bytes (judge h) os) (Lcp.nakOpts s ++ nak_bytes (judge h) os)
          (Lcp.rejOpts s ++ rej_bytes (judge h) os)).
Proof.
  intros Hh Hos. revert s. induction Hos as [|o os Ho _ IH]; intros s.
  - cbn. rewrite !app_nil_r. by destruct s.
  - cbn [configure_options].
    assert (configure_option h o s = Ok (Lcp.add_verdict (judge h o) (optData o) s)) as ->.
    { unfold configure_option, judge. repeat case_match; try done.
      all: by apply configure_address_judge; [|apply Hh]. }
    rewrite bind_Ok, IH. destruct (verdict_bytes_cons (judge h) o os) as (-> & -> & ->).
    unfold acked, naked, rejected. destruct (judge h o); cbn; by rewrite <- ?app_assoc.
Qed.

Lemma ipcp_judge_nak h o s : judge h o = VNak s ->
  exists want, want ∈ [assignedIP h; primaryDNS h; secondaryDNS h] /\ s = [optType o; 6] ++ to4 want /\
    6 <= optLen o /\ forall o', optType o' = optType o -> judge h o' = judge_address want o'.
Proof.
  unfold judge, judge_address. intros E.
  repeat match type of E with
  | context [if (optType o =? ?b) then _ else _] => destruct (Z.eqb_spec (optType o) b) as [Ht|]
  end; [exists (assignedIP h)|exists (primaryDNS h)|exists (secondaryDNS h)|done];
    (destruct (optLen o >=? 6) eqn:El; [|done]); (case_bool_decide; [|done]); injection E as <-;
    (split; [set_solver|]); (split; [done|]); (split; [lia|]); intros o' ->; by rewrite Ht.
Qed.

Lemma ipcp_judge_consistent h : ipcp_ok h -> consistent (judge h).
Proof.
  intros Hh o s Ho (want & Hin & -> & _ & Hj)%ipcp_judge_nak.
  assert (good_ip want) as Hw by (destruct Hh; set_unfold; naive_solver).
  destruct (good_ip_to4 want Hw) as (Hl & Hwf & H4). destruct Hw as (_ & b & Hb & Hz).
  rewrite H4 in Hb. injection Hb as <-.
  assert (len (to4 want) = 4) as Hlen by (unfold len; by rewrite Hl).
  pose proof (oo_type o Ho) as Ht.
  assert (is_u8 (optType o)) as H8 by (eapply Forall_lookup_1; [apply Ho|exact Ht]).
  rewrite Hj by done. split.
  - split; cbn -[len]; rewrite ?len_cons, ?Hlen; [done|lia| |done|done].
    apply Forall_cons; split; [done|]. apply Forall_cons; split; [done|done].
  - unfold judge_address. cbn [optLen optData optType]. rewrite len_app, Hlen.
    change (len [optType o; 6] + 4 >=? 6) with true. cbv iota.
    assert (sub ([optType o; 6] ++ to4 want) 2 6 = to4 want) as ->.
    { unfold sub. change (Z.to_nat 2) with 2%nat. cbn [app drop]. apply take_ge. rewrite Hl. done. }
    case_bool_decide; naive_solver.
Qed.

Lemma ipcp_naked_size h o : ipcp_ok h -> opt_ok o -> 4 * len (naked (judge h) o) <= 5 * optLen o.
Proof.
  intros Hh Ho. pose proof (oo_bound o Ho). unfold naked.
  destruct (judge h o) eqn:E; [rewrite (@len_nil Z); lia| |rewrite (@len_nil Z); lia].
  destruct (ipcp_judge_nak _ _ _ E) as (want & Hin & -> & Hl & _).
  assert (good_ip want) as Hw by (destruct Hh; set_unfold; naive_solver).
  destruct (good_ip_to4 want Hw) as (H4 & _). rewrite len_app. unfold len. rewrite H4. cbn. lia.
Qed.

Lemma ipcp_handleConfigureRequest_ok h id os rest options :
  ipcp_ok h -> parse_options options = Ok os -> Forall opt_ok os -> options = opts_bytes os ++ rest ->
  len options <= 52000 ->
  handleConfigureRequest h id options =
    Ok (if Lcp.accepts (judge h) os then checkOpened (with_flags h true (ourConfigAcked h) (opened h)) else h,
        Lcp.answer (judge h) id os).
Proof.
  intros Hh Hp Hos -> Hlen. unfold handleConfigureRequest. rewrite Hp, bind_Ok.
  rewrite ipcp_configure_options_judge, bind_Ok by done. cbn [Lcp.ackOpts Lcp.nakOpts Lcp.rejOpts app].
  destruct (Lcp.len_verdicts (judge h) os (fun o => ipcp_naked_size h o Hh) Hos) as (? & ? & ?).
  rewrite len_app in Hlen. pose proof (len_nonneg rest).
  change buildResponse with Lcp.buildResponse.
  rewrite !Lcp.buildResponse_ok by lia. rewrite !bind_Ok, !Lcp.len_gtb_nil. unfold Lcp.accepts, Lcp.answer.
  destruct (decide (rej_bytes (judge h) os = [])) as [Hr|Hr], (decide (nak_bytes (judge h) os = [])) as [Hn|Hn];
    repeat case_bool_decide; naive_solver.
Qed.

Lemma ipcp_BuildConfigureRequest_ok h : exists pkt, BuildConfigureRequest h = Ok (bump_nextID h, pkt).
Proof.
  unfold BuildConfigureRequest. change (gatewayIP (bump_nextID h)) with (gatewayIP h).
  set (gw := match To4 (gatewayIP h) with Some gw => gw | None => _ end).
  assert (length gw = 4%nat) as Hl.
  { unfold gw. destruct (To4 (gatewayIP h)) eqn:E; [by eapply To4_length|done]. }
  clearbody gw. rewrite address_option_ok, bind_Ok by done. destruct gw as [|a [|b [|c [|d [|]]]]]; try discriminate.
  cbn. eauto.
Qed.

Lemma ipcp_Handle_ok h data pktLen :
  ipcp_ok h -> bytes_wf data -> len data <= 52000 -> 4 <= len data -> be16_at data 2 = Ok pktLen ->
  4 <= pktLen -> exists out, Handle h data = Ok out.
Proof.
  intros Hh Hwf Hlen H4 Hp Hp4. unfold Handle, ipcpPacketHeaderLen.
  rewrite (proj2 (Z.ltb_ge (len data) 4)) by lia.
  destruct (idx_total data 0) as (code & -> & _); [lia|]. rewrite bind_Ok.
  destruct (idx_total data 1) as (id & -> & _); [lia|]. rewrite bind_Ok, Hp, bind_Ok.
  destruct (pktLen >? len data) eqn:E; [eauto|]. rewrite slice_ok, bind_Ok by lia.
  assert (bytes_wf (sub data 4 pktLen)) as Hpw by by apply Forall_sub.
  assert (len (sub data 4 pktLen) <= 52000) by (rewrite len_sub; lia).
  destruct (parse_options_total _ Hpw) as (os & rest & Hps & Hos & Heq).
  destruct (_ =? IPCPConfigureRequest).
  { erewrite ipcp_handleConfigureRequest_ok, bind_Ok by done. eauto. }
  destruct (_ =? IPCPConfigureAck); [eauto|]. destruct (_ =? IPCPConfigureNak); [|eauto].
  unfold handleConfigureNak. rewrite Hps, bind_Ok.
  destruct (ipcp_BuildConfigureRequest_ok h) as (? & ->). rewrite !bind_Ok. eauto.
Qed.

Lemma ipcp_Handle_short_length h data pktLen :
  4 <= len data -> be16_at data 2 = Ok pktLen -> pktLen < 4 -> Handle h data = Panic.
Proof.
  intros H4 Hp Hlt. unfold Handle, ipcpPacketHeaderLen. rewrite (proj2 (Z.ltb_ge (len data) 4)) by lia.
  destruct (idx_total data 0) as (code & -> & _); [lia|]. rewrite bind_Ok.
  destruct (idx_total data 1) as (id & -> & _); [lia|]. rewrite bind_Ok, Hp, bind_Ok.
  rewrite gtb_false by lia. by rewrite slice_panic by lia.
Qed.

Lemma ipcp_Handle_request h id options os rest :
  ipcp_ok h -> parse_options options = Ok os -> Forall opt_ok os -> options = opts_bytes os ++ rest ->
  len options <= 52000 ->
  Handle h (Lcp.packet IPCPConfigureRequest id options) =
    Ok (if Lcp.accepts (judge h) os then checkOpened (with_flags h true (ourConfigAcked h) (opened h)) else h,
        Some (Lcp.answer (judge h) id os)).
Proof.
  intros Hh Hp Hos Heq Hl. unfold Handle, ipcpPacketHeaderLen. pose proof (len_nonneg options).
  destruct (Lcp.packet_fields IPCPConfigureRequest id options) as (H1 & -> & -> & -> & H2); [lia|].
  rewrite H1, (proj2 (Z.ltb_ge (4 + len options) 4)) by lia.
  rewrite !bind_Ok, gtb_false by lia. rewrite H2, bind_Ok. cbn [Z.eqb IPCPConfigureRequest Pos.eqb].
  by erewrite ipcp_handleConfigureRequest_ok, bind_Ok by done.
Qed.

(** Neither the addresses nor what the server thinks of them ever change. *)
Definition same_addresses (h h' : IPCPHandler) : Prop :=
  assignedIP h' = assignedIP h /\ primaryDNS h' = primaryDNS h /\ secondaryDNS h' = secondaryDNS h /\
  gatewayIP h' = gatewayIP h.

Lemma same_addresses_judge h h' : same_addresses h h' -> judge h' = judge h.
Proof. unfold judge. by intros (-> & -> & -> & _). Qed.

Lemma same_addresses_ok h h' : same_addresses h h' -> ipcp_ok h -> ipcp_ok h'.
Proof. intros (E1 & E2 & E3 & _) [? ? ?]. split; congruence. Qed.

Lemma checkOpened_same h : same_addresses h (checkOpened h).
Proof. unfold checkOpened. by case_match. Qed.

Lemma Handle_same_addresses h data h' o : Handle h data = Ok (h', o) -> same_addresses h h'.
Proof.
  unfold Handle. case_match; [by intros [= <- <-]|]. intros (c & _ & E)%bind_Ok_inv.
  apply bind_Ok_inv in E as (id & _ & E). apply bind_Ok_inv in E as (pl & _ & E).
  case_match; [by injection E as <- <-|]. apply bind_Ok_inv in E as (payload & _ & E). repeat case_match.
  - apply bind_Ok_inv in E as ([h1 p] & E & [= <- <-]). unfold handleConfigureRequest in E.
    apply bind_Ok_inv in E as (os & _ & E). apply bind_Ok_inv in E as (s & _ & E).
    repeat case_match; apply bind_Ok_inv in E as (? & _ & [= <- <-]); [done|done|].
    apply (checkOpened_same (with_flags h true (ourConfigAcked h) (opened h))).
  - injection E as <- <-. unfold handleConfigureAck. case_match; [done|].
    apply (checkOpened_same (with_flags h (peerConfigAcked h) true (opened h))).
  - apply bind_Ok_inv in E as ([h1 p] & E & [= <- <-]). unfold handleConfigureNak in E.
    apply bind_Ok_inv in E as (os & _ & E). destruct (ipcp_BuildConfigureRequest_ok h) as (p' & E').
    rewrite E' in E. by injection E as <- _.
  - by injection E as <- <-.
Qed.

Lemma judge_ack h o : judge h o = VAck ->
  (optType o = IPCPOptIPAddress /\ sub (optData o) 2 6 = to4 (assignedIP h)) \/
  (optType o = IPCPOptPrimaryDNS /\ sub (optData o) 2 6 = to4 (primaryDNS h)) \/
  (optType o = IPCPOptSecondaryDNS /\ sub (optData o) 2 6 = to4 (secondaryDNS h)).
Proof.
  unfold judge, judge_address.
  repeat match goal with
  | |- context [if (optType o =? ?b) then _ else _] => destruct (Z.eqb_spec (optType o) b) as [Ht|]
  end; try discriminate; (destruct (_ >=? 6); [|discriminate]); case_bool_decide as Hd; try discriminate;
    intros _; [left|right; left|right; right]; (split; [done|]); apply dec_stable; tauto.
Qed.

(** IPCP negotiation.  Whatever options a Configure-Request carries, the server
    answers with a rejection, suggestions or an acknowledgement in this order of
    precedence; it acknowledges only requests in which every option is an address
    or name-server option with exactly the server's own value, so the peer can only
    use the address the server assigned; nothing else marks the peer as configured,
    and the link opens exactly when the peer has acknowledged the gateway.  A peer
    that follows the suggestions is acknowledged in the next round. *)
Theorem ipcp_negotiation h id id' options :
  ipcp_ok h -> bytes_wf options -> len options <= 41600 ->
  exists os rest h1, options = opts_bytes os ++ rest /\ Forall opt_ok os /\ same_addresses h h1 /\
    Handle h (Lcp.packet IPCPConfigureRequest id options) = Ok (h1, Some (Lcp.answer (judge h) id os)) /\
    (if Lcp.accepts (judge h) os then
       Lcp.answer (judge h) id os = Lcp.packet IPCPConfigureAck id (opts_bytes os) /\
       (forall o, o ∈ os -> optType o = IPCPOptIPAddress -> sub (optData o) 2 6 = to4 (assignedIP h)) /\
       (forall o, o ∈ os -> optType o ∈ [IPCPOptIPAddress; IPCPOptPrimaryDNS; IPCPOptSecondaryDNS]) /\
       peerConfigAcked h1 = true /\ opened h1 = opened h || ourConfigAcked h
     else h1 = h) /\
    (rej_bytes (judge h) os = [] ->
     exists h2, let os' := follow (judge h) <$> os in
       Handle h1 (Lcp.packet IPCPConfigureRequest id' (opts_bytes os')) =
         Ok (h2, Some (Lcp.packet IPCPConfigureAck id' (opts_bytes os'))) /\ peerConfigAcked h2 = true).
Proof.
  intros Hh Hwf Hl. destruct (parse_options_total options Hwf) as (os & rest & Hp & Hos & Heq).
  pose proof (ipcp_Handle_request h id options os rest Hh Hp Hos Heq ltac:(lia)) as E.
  pose proof (Handle_same_addresses _ _ _ _ E) as Hs.
  pose proof (ipcp_judge_consistent h Hh) as HC.
  eexists os, rest, _. split_and!; [done|done|exact Hs|exact E| |].
  - destruct (Lcp.accepts (judge h) os) eqn:A; [|done].
    apply Lcp.accepts_iff in A; [|done..]. rewrite Forall_forall in A. split_and!.
    + apply Lcp.answer_ack, Forall_forall, A.
    + intros o Hin Ht. destruct (judge_ack h o (A o Hin)) as [[_ E']|[[E' _]|[E' _]]]; [done|rewrite Ht in E'; discriminate..].
    + intros o Hin. destruct (judge_ack h o (A o Hin)) as [[-> _]|[[-> _]|[-> _]]]; set_solver.
    + unfold checkOpened. by case_match.
    + unfold checkOpened. cbn. destruct (ourConfigAcked h), (opened h); done.
  - intros Hr. revert Hs. set (h1 := if Lcp.accepts (judge h) os then _ else _). clearbody h1. intros Hs.
    cbn zeta. rewrite <- (same_addresses_judge h h1 Hs) in Hr |- *.
    apply (same_addresses_ok _ _ Hs) in Hh. clear HC. pose proof (ipcp_judge_consistent h1 Hh) as HC.
    destruct (follow_accepted (judge h1) os) as [Hos' Hack]; [done|done|by apply rej_bytes_nil|].
    pose proof (Lcp.len_follow (judge h1) os (fun o => ipcp_naked_size h1 o Hh) Hos) as Hlf.
    subst options. rewrite len_app in Hl. pose proof (len_nonneg rest).
    pose proof (ipcp_Handle_request h1 id' (opts_bytes (follow (judge h1) <$> os)) (follow (judge h1) <$> os) []) as E2.
    rewrite E2; [|done|by apply parse_opts_bytes|done|by rewrite app_nil_r|lia].
    rewrite (proj2 (Lcp.accepts_iff (judge h1) _ HC Hos')), Lcp.answer_ack by done.
    eexists. split; [reflexivity|]. unfold checkOpened. cbn. by destruct (ourConfigAcked h1).
Qed.

(** A handler for 10.0.0.7 with the default name servers, and a client that asks
    for 0.0.0.0, a name server of its own and then the secondary one. *)
Definition demo_ipcp : IPCPHandler := NewIPCPHandler [10; 0; 0; 7] [10; 0; 0; 1] [] [].
Definition demo_request : bytes := [3; 6; 0; 0; 0; 0; 129; 6; 8; 8; 8; 8; 131; 6; 1; 0; 0; 1].

Lemma demo_good_ip ip b : bytes_wf ip -> To4 ip = Some b -> b <> [0; 0; 0; 0] -> good_ip ip.
Proof. intros. split; eauto. Qed.

Lemma demo_ipcp_ok : ipcp_ok demo_ipcp.
Proof.
  split; eapply demo_good_ip; try reflexivity; try discriminate; by apply (bool_decide_unpack _).
Qed.

Example ipcp_demo :
  match parse_options demo_request with
  | Ok os => Lcp.answer (judge demo_ipcp) 9 os
  | _ => []
  end = [3; 9; 0; 16; 3; 6; 10; 0; 0; 7; 129; 6; 1; 1; 1; 1].
Proof. vm_compute. reflexivity. Qed.

(** A name server that is no IPv4 address makes the suggestion panic: the nil
    result of [To4] is indexed. *)
Example ipv6_dns_panics :
  Handle (NewIPCPHandler [10; 0; 0; 7] [10; 0; 0; 1] (replicate 16 1) [])
    (Lcp.packet IPCPConfigureRequest 1 [129; 6; 0; 0; 0; 0]) = Panic.
Proof. vm_compute. reflexivity. Qed.

Lemma ipcp_negotiation_witness :
  exists os rest h1, demo_request = opts_bytes os ++ rest /\
    Handle demo_ipcp (Lcp.packet IPCPConfigureRequest 9 demo_request) =
      Ok (h1, Some (Lcp.answer (judge demo_ipcp) 9 os)).
Proof.
  destruct (ipcp_negotiation demo_ipcp 9 10 demo_request) as (os & rest & h1 & H1 & _ & _ & H2 & _).
  - exact demo_ipcp_ok.
  - by apply (bool_decide_unpack _).
  - vm_compute. discriminate.
  - exists os, rest, h1. split; [exact H1|exact H2].
Defined.

End Ipcp.
