(* ===== verification/L2tpChap.v ===== *)
(** * L2tpChap: CHAP authentication ([internal/l2tp/chap.go])

    The user database is an interface of the source and a class here; [md5] is the
    digest of [crypto/md5].  Strings are their bytes. *)

From S2P Require Import Prelude Rand L2tpPacket L2tpLcp.

Module Chap.
Import Packet.

(** [UserDatabase]: the password of a user, if there is such a user. *)
Class UserDatabase (D : Type) := LookupUser : D -> bytes -> option bytes.

Definition CHAPChallenge : Z := 1.
Definition CHAPResponse : Z := 2.
Definition CHAPSuccess : Z := 3.
Definition CHAPFailure : Z := 4.

Definition chapPacketHeaderLen : Z := 4.

Record CHAPHandler := mkCHAP {
  challengeID : Z;
  challenge : bytes;
  serverName : bytes;
  authenticated : bool;
  username : bytes
}.

Definition NewCHAPHandler (serverName : bytes) : CHAPHandler := mkCHAP 0 [] serverName false [].

Definition IsAuthenticated (h : CHAPHandler) : bool := authenticated h.
Definition Username (h : CHAPHandler) : bytes := username h.

Definition BuildChallenge (r : rng) (h : CHAPHandler) : res (CHAPHandler * rng * bytes) :=
  let cid := u8 (challengeID h + 1) in
  let '(ch, r) := rand_Read r 16 in
  let nameBytes := serverName h in
  let valueSize := u8 (len ch) in
  let totalLen := u16 (chapPacketHeaderLen + 1 + len ch + len nameBytes) in
  let pkt := make totalLen in
  pkt ← set_at pkt 0 CHAPChallenge;
  pkt ← set_at pkt 1 cid;
  pkt ← put16_at pkt 2 totalLen;
  pkt ← set_at pkt 4 valueSize;
  _ ← slice pkt 5 (5 + len ch);
  pkt ← copy_at pkt 5 ch;
  pkt ← copy_at pkt (5 + len ch) nameBytes;
  Ok (mkCHAP cid ch (serverName h) (authenticated h) (username h), r, pkt).

(** [buildSuccess] and [buildFailure] differ in the code only. *)
Definition build (code id : Z) (message : bytes) : res bytes :=
  let totalLen := u16 (chapPacketHeaderLen + len message) in
  let pkt := make totalLen in
  pkt ← set_at pkt 0 code;
  pkt ← set_at pkt 1 id;
  pkt ← put16_at pkt 2 totalLen;
  copy_at pkt 4 message.

Definition buildSuccess (id : Z) (message : bytes) : res bytes := build CHAPSuccess id message.
Definition buildFailure (id : Z) (message : bytes) : res bytes := build CHAPFailure id message.

(** The comparison visits every byte. *)
Fixpoint compare_loop (n : nat) (i : Z) (expected responseValue : bytes) (m : bool) : res bool :=
  match n with
  | O => Ok m
  | S n =>
    a ← idx responseValue i;
    b ← idx expected i;
    compare_loop n (i + 1) expected responseValue (if negb (a =? b) then false else m)
  end.

Section WithMD5.
Context (md5 : bytes -> bytes).

Definition computeMD5Response (h : CHAPHandler) (id : Z) (secret : bytes) : bytes :=
  md5 ([id] ++ secret ++ challenge h).

Context {D : Type} {UD : UserDatabase D}.

Definition handleResponse (db : D) (h : CHAPHandler) (id : Z) (payload : bytes) :
    res (CHAPHandler * bytes) :=
  if len payload <? 1 then
    pkt ← buildFailure id (bytes_of_string "malformed response"); Ok (h, pkt)
  else
    valueSize ← idx payload 0;
    if 1 + valueSize >? len payload then
      pkt ← buildFailure id (bytes_of_string "malformed response"); Ok (h, pkt)
    else
      responseValue ← slice payload 1 (1 + valueSize);
      peerName ← slice payload (1 + valueSize) (len payload);
      match LookupUser db peerName with
      | None => pkt ← buildFailure id (bytes_of_string "authentication failed"); Ok (h, pkt)
      | Some password =>
        let expected := computeMD5Response h id password in
        if negb (len responseValue =? len expected) then
          pkt ← buildFailure id (bytes_of_string "authentication failed"); Ok (h, pkt)
        else
          ok ← compare_loop (length expected) 0 expected responseValue true;
          if negb (ok : bool) then
            pkt ← buildFailure id (bytes_of_string "authentication failed"); Ok (h, pkt)
          else
            let h := mkCHAP (challengeID h) (challenge h) (serverName h) true peerName in
            pkt ← buildSuccess id (bytes_of_string "Welcome " ++ peerName);
            Ok (h, pkt)
      end.

Definition Handle (db : D) (h : CHAPHandler) (data : bytes) : res (CHAPHandler * option bytes) :=
  if len data <? chapPacketHeaderLen then Ok (h, None)
  else
    code ← idx data 0;
    id ← idx data 1;
    pktLen ← be16_at data 2;
    if pktLen >? len data then Ok (h, None)
    else if code =? CHAPResponse then
      payload ← slice data chapPacketHeaderLen pktLen;
      '(h, pkt) ← handleResponse db h id payload;
      Ok (h, Some pkt)
    else Ok (h, None).

(** ** Packets *)

Lemma build_ok code id m : 4 + len m < 65536 -> build code id m = Ok (Lcp.packet code id m).
Proof.
  intros H. pose proof (len_nonneg m). unfold build, chapPacketHeaderLen.
  rewrite u16_id by (unfold is_u16; lia). rewrite (fill_start (4 + len m)).
  do 2 fill_step. fill_step. rewrite fill_copy by (len_norm; lia). rewrite make_0 by lia.
  by rewrite app_nil_r.
Qed.

Lemma BuildChallenge_ok r h :
  len (serverName h) < 65515 ->
  exists pkt, BuildChallenge r h =
    Ok (mkCHAP (u8 (challengeID h + 1)) (rand_Read r 16).1 (serverName h) (authenticated h) (username h),
        (rand_Read r 16).2, pkt).
Proof.
  intros Hn. pose proof (len_nonneg (serverName h)). unfold BuildChallenge.
  destruct (rand_Read r 16) as [ch r'] eqn:E. cbn [fst snd].
  assert (len ch = 16) as Hl.
  { unfold rand_Read in E. injection E as <- _. unfold len. by rewrite length_resize. }
  rewrite Hl. unfold chapPacketHeaderLen. rewrite u16_id by (unfold is_u16; lia).
  set (n := 4 + 1 + 16 + len (serverName h)). rewrite (fill_start n).
  do 2 fill_step. fill_step. fill_step. rewrite slice_ok, bind_Ok by (len_norm; lia).
  fill_step. rewrite fill_copy, bind_Ok by (len_norm; lia). eauto.
Qed.

Lemma compare_loop_spec e v l1 l2 m :
  length e = length v -> len l1 = len l2 ->
  compare_loop (length e) (len l1) (l1 ++ e) (l2 ++ v) m = Ok (m && bool_decide (v = e)).
Proof.
  revert v l1 l2 m. induction e as [|a e IH]; intros [|b v] l1 l2 m Hl Hp; try discriminate.
  - cbn. by rewrite andb_true_r.
  - cbn [length compare_loop]. rewrite (idx_mid l2 v b), bind_Ok, (idx_mid l1 e a), bind_Ok by done.
    replace (len l1 + 1) with (len (l1 ++ [a])) by (len_norm; lia).
    rewrite (cons_middle a l1 e), (cons_middle b l2 v), (app_assoc l1), (app_assoc l2).
    rewrite IH; [|by injection Hl|len_norm; lia]. f_equal.
    destruct (Z.eqb_spec b a) as [->|Hne]; cbn [negb].
    + f_equal. apply bool_decide_ext. split; [by intros ->|by intros [= ->]].
    + rewrite andb_false_l. symmetry. apply andb_false_iff. right. apply bool_decide_false. by intros [= ? _].
Qed.

(** What the source has done when it authenticates [name]. *)
Definition authenticate (h : CHAPHandler) (name : bytes) : CHAPHandler :=
  mkCHAP (challengeID h) (challenge h) (serverName h) true name.

Definition failed : bytes := bytes_of_string "authentication failed".
Definition malformed : bytes := bytes_of_string "malformed response".

(** The payload of a Response: the value with its size, and the name. *)
Definition response (value name : bytes) : bytes := len value :: value ++ name.

Lemma handleResponse_shape db h id value name :
  len name < 65524 ->
  handleResponse db h id (response value name) =
    match LookupUser db name with
    | Some password =>
      if decide (value = computeMD5Response h id password)
      then Ok (authenticate h name, Lcp.packet CHAPSuccess id (bytes_of_string "Welcome " ++ name))
      else Ok (h, Lcp.packet CHAPFailure id failed)
    | None => Ok (h, Lcp.packet CHAPFailure id failed)
    end.
Proof.
  intros Hn. unfold handleResponse, response. pose proof (len_nonneg value). pose proof (len_nonneg name).
  assert (len (len value :: value ++ name) = 1 + len value + len name) as Hl by (len_norm; lia).
  rewrite Hl, (proj2 (Z.ltb_ge (1 + len value + len name) 1)) by lia.
  rewrite idx_0, bind_Ok. rewrite gtb_false by lia.
  change (len value :: value ++ name) with ([len value] ++ value ++ name).
  rewrite (slice_mid [len value] value name 1 (1 + len value)), bind_Ok by done.
  rewrite (app_assoc [len value]), slice_tail, bind_Ok by (len_norm; lia).
  destruct (LookupUser db name) as [pw|]; [|by unfold buildFailure; rewrite build_ok, bind_Ok].
  set (e := computeMD5Response h id pw). unfold buildFailure. rewrite (build_ok CHAPFailure id), bind_Ok by done.
  destruct (Z.eqb_spec (len value) (len e)) as [He|He]; cbn [negb].
  - pose proof (compare_loop_spec e value [] [] true ltac:(unfold len in *; lia) eq_refl) as Hc.
    cbn [app] in Hc. change (len []) with 0 in Hc. rewrite Hc, bind_Ok. cbn [andb].
    destruct (decide (value = e)) as [Hv|Hv];
      [rewrite bool_decide_true by done|by rewrite bool_decide_false by done].
    cbn [negb]. unfold buildSuccess. rewrite build_ok, bind_Ok; [done|]. rewrite len_app.
    change (len (bytes_of_string "Welcome ")) with 8. lia.
  - rewrite decide_False; [done|]. by intros ->.
Qed.

Lemma handleResponse_malformed db h id payload :
  bytes_wf payload ->
  (exists value name, payload = response value name) \/
  handleResponse db h id payload = Ok (h, Lcp.packet CHAPFailure id malformed).
Proof.
  intros Hwf. unfold handleResponse. destruct payload as [|vs l].
  { right. change (len [] <? 1) with true. cbv iota. unfold buildFailure. by rewrite build_ok, bind_Ok. }
  apply Forall_cons in Hwf as [Hvs Hl]. unfold is_u8 in Hvs. pose proof (len_nonneg l).
  destruct (1 + vs >? len (vs :: l)) eqn:E.
  - right. rewrite (proj2 (Z.ltb_ge (len (vs :: l)) 1)) by (len_norm; lia).
    rewrite idx_0, bind_Ok. rewrite E. unfold buildFailure. by rewrite build_ok, bind_Ok.
  - left. len_norm. exists (take (Z.to_nat vs) l), (drop (Z.to_nat vs) l). unfold response.
    rewrite take_drop. f_equal. len_norm. lia.
Qed.

(** A datagram that answers the current challenge with the password of [name]. *)
Definition genuine (db : D) (h : CHAPHandler) (data name : bytes) : Prop :=
  exists id rest password,
    LookupUser db name = Some password /\
    data = Lcp.packet CHAPResponse id (response (md5 ([id] ++ password ++ challenge h)) name) ++ rest.

Lemma Handle_response db h id payload rest :
  4 + len payload < 65536 ->
  Handle db h (Lcp.packet CHAPResponse id payload ++ rest) =
    ('(h', pkt) ← handleResponse db h id payload; Ok (h', Some pkt)).
Proof.
  intros Hl. unfold Handle, chapPacketHeaderLen. pose proof (len_nonneg payload). pose proof (len_nonneg rest).
  destruct (Lcp.packet_fields_rest CHAPResponse id payload rest Hl) as (-> & -> & -> & -> & Hs).
  rewrite (proj2 (Z.ltb_ge _ 4)) by lia. rewrite !bind_Ok, gtb_false by lia.
  change (CHAPResponse =? CHAPResponse) with true. cbv iota. by rewrite Hs, bind_Ok.
Qed.

(** The three outcomes of [Handle]. *)
Lemma Handle_panic db h data :
  bytes_wf data -> len data <= 65500 ->
  Handle db h data = Panic <->
  4 <= len data /\ idx data 0 = Ok CHAPResponse /\ exists pktLen, be16_at data 2 = Ok pktLen /\ pktLen < 4.
Proof.
  intros Hwf Hlen. unfold Handle, chapPacketHeaderLen. destruct (Z.ltb_spec (len data) 4) as [|H4].
  { split; [done|lia]. }
  destruct (idx_total data 0) as (code & E0 & _); [lia|]. rewrite E0, bind_Ok.
  destruct (idx_total data 1) as (id & -> & _); [lia|]. rewrite bind_Ok.
  destruct (be16_at_total data 2) as (pl & Hp); [lia|lia|]. rewrite Hp, bind_Ok.
  destruct (pl >? len data) eqn:E.
  { split; [done|]. intros (_ & _ & v & [= <-] & Hv). lia. }
  destruct (Z.eqb_spec code CHAPResponse) as [->|Hc].
  2:{ split; [done|]. intros (_ & [= Hc'] & _). done. }
  destruct (decide (pl < 4)) as [Hlt|Hge].
  { rewrite slice_panic by lia. split; [|done]. intros _. eauto. }
  split; [|intros (_ & _ & v & [= <-] & Hv); lia]. intros HP. exfalso. revert HP.
  rewrite slice_ok, bind_Ok by lia.
  assert (len (sub data 4 pl) = pl - 4) as Hsl by (apply len_sub; lia).
  destruct (handleResponse_malformed db h id (sub data 4 pl)) as [(v & n & Eq)| ->];
    [by apply Forall_sub| |by rewrite bind_Ok].
  rewrite Eq, handleResponse_shape; [repeat case_match; by rewrite ?bind_Ok|].
  pose proof (len_nonneg v). rewrite Eq in Hsl. unfold response in Hsl. len_norm. lia.
Qed.

Lemma Handle_cases db h data :
  bytes_wf data -> len data <= 65500 ->
  Handle db h data = Panic \/
  (exists o, Handle db h data = Ok (h, o) /\
     (o = None \/ exists id m, o = Some (Lcp.packet CHAPFailure id m) /\ m ∈ [failed; malformed])) \/
  (exists name, genuine db h data name /\ exists o, Handle db h data = Ok (authenticate h name, o)).
Proof.
  intros Hwf Hlen. unfold Handle, chapPacketHeaderLen. destruct (Z.ltb_spec (len data) 4) as [|H4].
  { right; left. exists None. by split; [|left]. }
  destruct (idx_total data 0) as (code & E0 & _); [lia|]. rewrite E0, bind_Ok.
  destruct (idx_total data 1) as (id & E1 & _); [lia|]. rewrite E1, bind_Ok.
  destruct (be16_at_total data 2) as (pl & Hp); [lia|lia|]. rewrite Hp, bind_Ok.
  destruct (pl >? len data) eqn:E; [right; left; exists None; by split; [|left]|].
  destruct (Z.eqb_spec code CHAPResponse) as [->|Hc]; [|right; left; exists None; by split; [|left]].
  destruct (decide (pl < 4)) as [Hlt|Hge]; [left; by rewrite slice_panic by lia|].
  rewrite slice_ok, bind_Ok by lia.
  destruct (Lcp.packet_inv data pl) as (c & i & payload & rest & -> & Hpl & Hb); [done|done|lia|].
  destruct (Lcp.packet_fields_rest c i payload rest) as (_ & F0 & F1 & F2 & F3); [lia|].
  rewrite F0 in E0. rewrite F1 in E1. injection E0 as ->. injection E1 as ->.
  apply slice_inv in F3 as (_ & _ & F3). replace (4 + len payload) with pl in F3 by lia. rewrite <- F3.
  assert (bytes_wf payload) as Hpw by (rewrite F3; by apply Forall_sub).
  destruct (handleResponse_malformed db h id payload Hpw) as [(v & n & Eq)| ->].
  2:{ right; left. rewrite bind_Ok. eexists. split; [done|]. right. eexists id, malformed. split; [done|set_solver]. }
  subst payload. unfold response in Hpl. len_norm. pose proof (len_nonneg v). pose proof (len_nonneg n).
  rewrite handleResponse_shape by lia. right.
  assert (failed ∈ [failed; malformed]) by set_solver.
  destruct (LookupUser db n) as [pw|] eqn:Epw; [|left; rewrite bind_Ok; naive_solver].
  destruct (decide (v = computeMD5Response h id pw)) as [Hv|Hv]; [|left; rewrite bind_Ok; naive_solver].
  right. exists n. split; [|rewrite bind_Ok; eauto]. exists id, rest, pw. split; [done|]. by subst v.
Qed.

(** CHAP.  A packet authenticates the peer exactly when it is a Response whose
    value is the digest of its identifier, the password of the user it names and the
    challenge of this session; it is then answered with Success and the name is
    recorded.  Every other packet leaves the handler as it was and is ignored or
    answered with Failure, except that a Response whose stated length is below its
    header makes the handler panic. *)
Theorem chap_correct db h data :
  bytes_wf data -> len data <= 65500 ->
  (forall name, genuine db h data name ->
     exists id, Handle db h data =
       Ok (authenticate h name, Some (Lcp.packet CHAPSuccess id (bytes_of_string "Welcome " ++ name)))) /\
  ((forall name, ~ genuine db h data name) ->
     Handle db h data = Panic \/
     exists o, Handle db h data = Ok (h, o) /\
       (o = None \/ exists id m, o = Some (Lcp.packet CHAPFailure id m) /\ m ∈ [failed; malformed])) /\
  (Handle db h data = Panic <->
   4 <= len data /\ idx data 0 = Ok CHAPResponse /\ exists pktLen, be16_at data 2 = Ok pktLen /\ pktLen < 4).
Proof.
  intros Hwf Hlen. split_and!.
  - intros name (id & rest & pw & Hpw & ->). unfold Lcp.packet, response in Hlen.
    set (v := md5 ([id] ++ pw ++ challenge h)) in *.
    assert (len v + len name + 5 <= 65500) as Hb
      by (pose proof (len_nonneg rest); len_norm; lia).
    pose proof (len_nonneg v). pose proof (len_nonneg name). exists id.
    rewrite Handle_response by (unfold response; len_norm; lia). rewrite handleResponse_shape, Hpw by lia.
    by rewrite decide_True, bind_Ok.
  - intros Hno. destruct (Handle_cases db h data Hwf Hlen) as [HP|[(o & E & Ho)|(name & Hg & _)]].
    + by left.
    + right. exists o. by split.
    + by destruct (Hno name).
  - apply Handle_panic; done.
Qed.

End WithMD5.

(** A digest and a database of one user, for the examples. *)
Definition toy_md5 (d : bytes) : bytes := resize 16 0 (reverse d).

Inductive demo_db := DemoDB.
#[global] Instance demo_db_lookup : UserDatabase demo_db := fun _ name =>
  if decide (name = bytes_of_string "alice") then Some (bytes_of_string "secret") else None.

Definition demo_chap : CHAPHandler :=
  mkCHAP 1 [1; 2; 3; 4; 5; 6; 7; 8; 9; 10; 11; 12; 13; 14; 15; 16] (bytes_of_string "lns") false [].

Definition demo_response (id : Z) : bytes :=
  Lcp.packet CHAPResponse id
    (response (toy_md5 ([id] ++ bytes_of_string "secret" ++ challenge demo_chap)) (bytes_of_string "alice")).

(** The identifier of a Response is not compared with the one of the challenge. *)
Lemma chap_correct_witness :
  exists id, Handle toy_md5 DemoDB demo_chap (demo_response 77) =
    Ok (authenticate demo_chap (bytes_of_string "alice"),
        Some (Lcp.packet CHAPSuccess id (bytes_of_string "Welcome " ++ bytes_of_string "alice"))).
Proof.
  destruct (chap_correct toy_md5 DemoDB demo_chap (demo_response 77)) as [H _].
  - by apply (bool_decide_unpack _).
  - vm_compute. discriminate.
  - apply (H (bytes_of_string "alice")). exists 77, [], (bytes_of_string "secret"). split; reflexivity.
Defined.

End Chap.
