(* ===== verification/L2tpProfile.v ===== *)
(** * L2tpProfile: the user database ([internal/l2tp/profile.go])

    Reading a file and parsing its YAML are parameters; the database maps user names
    to passwords and implements the interface CHAP looks users up with. *)

From S2P Require Import Prelude L2tpChap.

Module Profile.

Record L2TPProfile := mkProfile { Username : bytes; Password : bytes }.

Record ProfileUserDB := mkDB { users : gmap bytes bytes }.

Definition NewProfileUserDB : ProfileUserDB := mkDB ∅.

Section Load.
Context (ReadFile : string -> res bytes) (Unmarshal : bytes -> res L2TPProfile).

(** One turn of the loop of [LoadProfiles]: files that cannot be read or parsed and
    profiles without a name are skipped. *)
Definition load_one (db : gmap bytes bytes) (path : string) : gmap bytes bytes :=
  match ReadFile path with
  | Ok data =>
    match Unmarshal data with
    | Ok profile =>
      if decide (Username profile = []) then db
      else <[Username profile := Password profile]> db
    | _ => db
    end
  | _ => db
  end.

Definition LoadProfiles (db : ProfileUserDB) (paths : list string) : ProfileUserDB :=
  mkDB (foldl load_one (users db) paths).

Definition Reload (db : ProfileUserDB) (paths : list string) : ProfileUserDB :=
  LoadProfiles (mkDB ∅) paths.

(** What a file contributes. *)
Definition entry (path : string) : option (bytes * bytes) :=
  match ReadFile path with
  | Ok data =>
    match Unmarshal data with
    | Ok profile => if decide (Username profile = []) then None else Some (Username profile, Password profile)
    | _ => None
    end
  | _ => None
  end.

Lemma load_one_entry db path :
  load_one db path = match entry path with Some (u, p) => <[u := p]> db | None => db end.
Proof. unfold load_one, entry. repeat case_match; by simplify_eq. Qed.
End Load.

#[global] Instance ProfileUserDB_lookup : Chap.UserDatabase ProfileUserDB :=
  fun db username => users db !! username.

Definition UserCount (db : ProfileUserDB) : Z := Z.of_nat (base.size (users db)).

(** loading profiles.  The last readable file that names a user decides its
    password; users no file names keep the password they had (after a reload, which
    starts from the empty database, they are gone). *)
Theorem LoadProfiles_lookup ReadFile Unmarshal db paths u :
  Chap.LookupUser (LoadProfiles ReadFile Unmarshal db paths) u =
    match last (filter (fun e => e.1 = u) (omap (entry ReadFile Unmarshal) paths)) with
    | Some (_, p) => Some p
    | None => Chap.LookupUser db u
    end.
Proof.
  unfold Chap.LookupUser, ProfileUserDB_lookup, LoadProfiles; cbn [users].
  induction paths as [|path paths IH] using rev_ind; [done|].
  rewrite foldl_app, omap_app, filter_app. cbn [foldl]. rewrite load_one_entry. cbn [omap list_omap].
  destruct (entry ReadFile Unmarshal path) as [[v p]|] eqn:E; cbn.
  - destruct (decide (v = u)) as [->|Hne].
    + by rewrite lookup_insert_eq, last_snoc.
    + rewrite lookup_insert_ne by done. by rewrite app_nil_r.
  - by rewrite app_nil_r.
Qed.

End Profile.
