(* ===== verification/L2tpSession.v ===== *)
(** * L2tpSession: a PPP stream inside a tunnel ([internal/l2tp/session.go])

    [Session] composes the LCP, CHAP and IPCP handlers into the phases of PPP.  The
    back-reference to the tunnel is the tunnel's own business: what a session asks
    its server to do (write to the TUN device, release its address) is returned. *)

From S2P Require Import Prelude Net Rand L2tpPacket L2tpLcp L2tpIpcp L2tpChap.

Module Session.
Import Packet.

Definition SessionIdle : Z := 0.
Definition SessionWaitConnect : Z := 1.
Definition SessionEstablished : Z := 2.
Definition SessionClosed : Z := 3.

Definition PPPPhaseLCP : Z := 0.
Definition PPPPhaseCHAP : Z := 1.
Definition PPPPhaseIPCP : Z := 2.
Definition PPPPhaseData : Z := 3.

Record Session := mkSession {
  state : Z;
  localSessionID : Z;
  remoteSessionID : Z;
  lcpHandler : option Lcp.LCPHandler;
  chapHandler : option Chap.CHAPHandler;
  ipcpHandler : option Ipcp.IPCPHandler;
  pppPhase : Z;
  assignedIP : bytes;
  username : bytes;
  lcpConfigSent : bool
}.

Definition newSession (localID remoteID : Z) : Session :=
  mkSession SessionWaitConnect localID remoteID None None None PPPPhaseLCP [] [] false.

Definition with_state (s : Session) (st : Z) : Session :=
  mkSession st (localSessionID s) (remoteSessionID s) (lcpHandler s) (chapHandler s) (ipcpHandler s)
    (pppPhase s) (assignedIP s) (username s) (lcpConfigSent s).
Definition with_lcp (s : Session) (h : Lcp.LCPHandler) (phase : Z) : Session :=
  mkSession (state s) (localSessionID s) (remoteSessionID s) (Some h) (chapHandler s) (ipcpHandler s)
    phase (assignedIP s) (username s) (lcpConfigSent s).
Definition with_chap (s : Session) (h : Chap.CHAPHandler) (phase : Z) (user : bytes) : Session :=
  mkSession (state s) (localSessionID s) (remoteSessionID s) (lcpHandler s) (Some h) (ipcpHandler s)
    phase (assignedIP s) user (lcpConfigSent s).
Definition with_ipcp (s : Session) (h : Ipcp.IPCPHandler) (phase : Z) : Session :=
  mkSession (state s) (localSessionID s) (remoteSessionID s) (lcpHandler s) (chapHandler s) (Some h)
    phase (assignedIP s) (username s) (lcpConfigSent s).

Definition handleICCN (s : Session) : Session * res unit :=
  if negb (state s =? SessionWaitConnect) then (s, Err "l2tp: invalid tunnel/session state")
  else (with_state s SessionEstablished, Ok tt).

Definition InitPPP (r : rng) (s : Session) (hostname ip gatewayIP dns1 dns2 : bytes) :
    res (Session * rng * bytes) :=
  '(lcp, r) ← Lcp.NewLCPHandler r;
  let chap := Chap.NewCHAPHandler hostname in
  let ipcp := Ipcp.NewIPCPHandler ip gatewayIP dns1 dns2 in
  '(lcp, lcpReq) ← Lcp.BuildConfigureRequest lcp;
  frame ← SerializePPPFrame PPPProtoLCP lcpReq;
  Ok (mkSession (state s) (localSessionID s) (remoteSessionID s) (Some lcp) (Some chap) (Some ipcp)
        PPPPhaseLCP ip (username s) true, r, frame).

Definition opt_frame (proto : Z) (resp : option bytes) : res (list bytes) :=
  match resp with
  | Some resp => f ← SerializePPPFrame proto resp; Ok [f]
  | None => Ok []
  end.

Definition handleLCP (r : rng) (s : Session) (data : bytes) : res (Session * list bytes) :=
  match lcpHandler s with
  | None => Ok (s, [])
  | Some lcp =>
    '(lcp, r, resp) ← Lcp.Handle r lcp data;
    responses ← opt_frame PPPProtoLCP resp;
    let s := with_lcp s lcp (pppPhase s) in
    if Lcp.IsOpened lcp && (pppPhase s =? PPPPhaseLCP) then
      let s := with_lcp s lcp PPPPhaseCHAP in
      match chapHandler s with
      | Some chap =>
        '(chap, r, ch) ← Chap.BuildChallenge r chap;
        f ← SerializePPPFrame PPPProtoCHAP ch;
        Ok (with_chap s chap (pppPhase s) (username s), responses ++ [f])
      | None => Ok (s, responses)
      end
    else Ok (s, responses)
  end.

(** [BuildProtocolReject] for a protocol the server does not speak. *)
Definition rejectProtocol (s : Session) (proto : Z) (payload : bytes) : res (Session * list bytes) :=
  match lcpHandler s with
  | Some lcp =>
    '(lcp, rej) ← Lcp.BuildProtocolReject lcp proto payload;
    f ← SerializePPPFrame PPPProtoLCP rej;
    Ok (with_lcp s lcp (pppPhase s), [f])
  | None => Ok (s, [])
  end.

Definition handleIPCP (s : Session) (data : bytes) : res (Session * list bytes) :=
  match ipcpHandler s with
  | Some ipcp =>
    if negb (pppPhase s =? PPPPhaseIPCP) then Ok (s, [])
    else
      '(ipcp, resp) ← Ipcp.Handle ipcp data;
      responses ← opt_frame PPPProtoIPCP resp;
      let s := with_ipcp s ipcp (pppPhase s) in
      if Ipcp.IsOpened ipcp && (pppPhase s =? PPPPhaseIPCP)
      then Ok (with_ipcp s ipcp PPPPhaseData, responses)
      else Ok (s, responses)
  | None => Ok (s, [])
  end.

(** [handleIPv4]: the packet forwarded to the TUN device, if any. *)
Definition handleIPv4 (s : Session) (data : bytes) : option bytes :=
  if negb (pppPhase s =? PPPPhaseData) then None else Some data.

(** [SendData]: the datagram for the peer, if the session is established. *)
Definition SendData (remoteTID : Z) (s : Session) (pppFrame : bytes) : res (option bytes) :=
  if negb (state s =? SessionEstablished) then Ok None
  else
    hdr ← BuildDataHeader remoteTID (remoteSessionID s);
    pkt ← copy_at (make (len hdr + len pppFrame)) 0 hdr;
    pkt ← copy_at pkt (len hdr) pppFrame;
    Ok (Some pkt).

(** [close]: the address given back to the pool ([[]] for none). *)
Definition close (s : Session) : Session * bytes :=
  if state s =? SessionClosed then (s, [])
  else (with_state s SessionClosed, assignedIP s).

Section WithUsers.
Context (md5 : bytes -> bytes) {D : Type} {UD : Chap.UserDatabase D}.

Definition handleCHAP (db : D) (s : Session) (data : bytes) : res (Session * list bytes) :=
  match chapHandler s with
  | Some chap =>
    if negb (pppPhase s =? PPPPhaseCHAP) then Ok (s, [])
    else
      '(chap, resp) ← Chap.Handle md5 db chap data;
      responses ← opt_frame PPPProtoCHAP resp;
      if Chap.IsAuthenticated chap then
        let s := with_chap s chap PPPPhaseIPCP (Chap.Username chap) in
        match ipcpHandler s with
        | Some ipcp =>
          '(ipcp, req) ← Ipcp.BuildConfigureRequest ipcp;
          f ← SerializePPPFrame PPPProtoIPCP req;
          Ok (with_ipcp s ipcp (pppPhase s), responses ++ [f])
        | None => Ok (s, responses)
        end
      else Ok (with_chap s chap (pppPhase s) (username s), responses)
  | None => Ok (s, [])
  end.

(** [HandleData]: the session left behind, the frames sent back, and the packet
    forwarded to the TUN device. *)
Definition HandleData (r : rng) (db : D) (s : Session) (payload : bytes) :
    res (Session * list bytes * option bytes) :=
  if negb (state s =? SessionEstablished) then Ok (s, [], None)
  else
    match ParsePPPFrame payload with
    | Panic => Panic
    | Err _ => Ok (s, [], None)
    | Ok pppFrame =>
      let data := Payload pppFrame in
      let proto := Protocol pppFrame in
      if proto =? PPPProtoLCP then '(s, rs) ← handleLCP r s data; Ok (s, rs, None)
      else if proto =? PPPProtoCHAP then '(s, rs) ← handleCHAP db s data; Ok (s, rs, None)
      else if proto =? PPPProtoIPCP then '(s, rs) ← handleIPCP s data; Ok (s, rs, None)
      else if proto =? PPPProtoIPv4 then Ok (s, [], handleIPv4 s data)
      else '(s, rs) ← rejectProtocol s proto data; Ok (s, rs, None)
    end.

End WithUsers.

(** ** Which packets make a handler panic *)

(** A control packet that states a length below its own header. *)
Definition short (data : bytes) : Prop :=
  4 <= len data /\ exists pktLen, be16_at data 2 = Ok pktLen /\ pktLen < 4.

Lemma not_short data :
  bytes_wf data -> short data \/ len data < 4 \/
  exists pktLen, 4 <= len data /\ be16_at data 2 = Ok pktLen /\ 4 <= pktLen.
Proof.
  intros Hwf. destruct (decide (len data < 4)); [auto|].
  destruct (be16_at_total data 2) as [v Hv]; [lia|lia|].
  destruct (decide (v < 4)); [left; split; [lia|eauto]|]. right; right. exists v. split_and!; [lia|done|lia].
Qed.

Lemma Lcp_Handle_total r h data :
  bytes_wf data -> len data <= 52000 ->
  (exists out, Lcp.Handle r h data = Ok out) \/ (Lcp.Handle r h data = Panic /\ short data).
Proof.
  intros Hwf Hl. destruct (not_short data Hwf) as [Hs|[Hs|(v & H4 & Hv & Hv4)]].
  - right. split; [|done]. destruct Hs as (? & v & Hv & ?). by eapply Lcp.Handle_short_length.
  - left. unfold Lcp.Handle, Lcp.lcpPacketHeaderLen. rewrite (proj2 (Z.ltb_lt _ 4)) by lia. eauto.
  - left. by eapply Lcp.Handle_ok.
Qed.

Lemma Ipcp_Handle_total h data :
  Ipcp.ipcp_ok h -> bytes_wf data -> len data <= 52000 ->
  (exists out, Ipcp.Handle h data = Ok out) \/ (Ipcp.Handle h data = Panic /\ short data).
Proof.
  intros Hh Hwf Hl. destruct (not_short data Hwf) as [Hs|[Hs|(v & H4 & Hv & Hv4)]].
  - right. split; [|done]. destruct Hs as (? & v & Hv & ?). by eapply Ipcp.ipcp_Handle_short_length.
  - left. unfold Ipcp.Handle, Ipcp.ipcpPacketHeaderLen. rewrite (proj2 (Z.ltb_lt _ 4)) by lia. eauto.
  - left. by eapply Ipcp.ipcp_Handle_ok.
Qed.

Lemma opt_frame_ok proto o : exists fs, opt_frame proto o = Ok fs.
Proof. destruct o; cbn; [|eauto]. rewrite SerializePPPFrame_ok, bind_Ok. eauto. Qed.

(** ** Well-formed sessions *)

(** A host name that fits a Challenge. *)
Definition good_name (name : bytes) : Prop := len name < 65515.

Record session_ok (s : Session) : Prop := {
  so_lcp : forall h, lcpHandler s = Some h -> Lcp.lcp_ok h;
  so_chap : forall c, chapHandler s = Some c -> good_name (Chap.serverName c);
  so_ipcp : forall h, ipcpHandler s = Some h -> Ipcp.ipcp_ok h /\ Ipcp.assignedIP h = assignedIP s;
  so_phase : 0 <= pppPhase s <= PPPPhaseData;
  so_unauth : forall c, chapHandler s = Some c -> pppPhase s < PPPPhaseIPCP -> Chap.authenticated c = false;
  so_login : PPPPhaseIPCP <= pppPhase s ->
    exists c, chapHandler s = Some c /\ Chap.authenticated c = true /\ Chap.username c = username s;
  so_data : pppPhase s = PPPPhaseData -> exists h, ipcpHandler s = Some h /\ Ipcp.opened h = true
}.

Lemma newSession_ok lid rid : session_ok (newSession lid rid).
Proof. split; cbn; unfold PPPPhaseLCP, PPPPhaseIPCP, PPPPhaseData; try discriminate; lia. Qed.

(** How one packet changes a session: not its identity, never back to an earlier
    phase, and past authentication only by [login]. *)
Record evolves (login : Chap.CHAPHandler -> bytes -> Prop) (s s' : Session) : Prop := {
  ev_state : state s' = state s;
  ev_local : localSessionID s' = localSessionID s;
  ev_remote : remoteSessionID s' = remoteSessionID s;
  ev_ip : assignedIP s' = assignedIP s;
  ev_phase : pppPhase s <= pppPhase s';
  ev_kept : PPPPhaseIPCP <= pppPhase s -> chapHandler s' = chapHandler s /\ username s' = username s;
  ev_login : PPPPhaseIPCP <= pppPhase s' -> PPPPhaseIPCP <= pppPhase s \/
    exists c, chapHandler s = Some c /\ pppPhase s = PPPPhaseCHAP /\ login c (username s') /\
      chapHandler s' = Some (Chap.authenticate c (username s'))
}.

Lemma evolves_refl login s : evolves login s s.
Proof. split; try done; try lia. Qed.

(** Replacing the LCP handler, with at most the step to the CHAP phase. *)
Lemma with_lcp_ok login s h :
  session_ok s -> Lcp.lcp_ok h ->
  session_ok (with_lcp s h (pppPhase s)) /\ evolves login s (with_lcp s h (pppPhase s)).
Proof.
  intros [] Hh. split; [split|split]; cbn; auto; try lia; try done. by intros ? [= <-].
Qed.

Lemma handleLCP_ok login r s data :
  session_ok s -> bytes_wf data -> len data <= 52000 ->
  match handleLCP r s data with
  | Ok (s', _) => session_ok s' /\ evolves login s s'
  | Err _ => False
  | Panic => short data
  end.
Proof.
  intros Hs Hwf Hl. unfold handleLCP. destruct (lcpHandler s) as [lcp|] eqn:El.
  2:{ split; [done|apply evolves_refl]. }
  destruct (Lcp_Handle_total r lcp data Hwf Hl) as [([[lcp1 r1] resp] & E)|[-> ?]]; [|done].
  assert (Lcp.lcp_ok lcp1) as Hok by (eapply Lcp.Handle_lcp_ok; [done|by eapply so_lcp|exact E]).
  rewrite E, bind_Ok. destruct (opt_frame_ok PPPProtoLCP resp) as [fs ->]. rewrite bind_Ok.
  destruct (with_lcp_ok login s lcp1 Hs Hok) as [H1 H2].
  destruct (Lcp.IsOpened lcp1 && _) eqn:Eo; [|done]. cbn [pppPhase with_lcp] in Eo.
  assert (pppPhase s = PPPPhaseLCP) as Hp by (apply andb_true_iff in Eo as [_ Eo]; lia). clear H1 H2.
  cbn [chapHandler with_lcp]. unfold PPPPhaseLCP in Hp. destruct (chapHandler s) as [c|] eqn:Ec.
  - destruct (Chap.BuildChallenge_ok r1 c (so_chap s Hs c Ec)) as (pkt & ->). rewrite bind_Ok.
    rewrite SerializePPPFrame_ok, bind_Ok. destruct Hs. split; split; cbn;
      unfold PPPPhaseCHAP, PPPPhaseIPCP, PPPPhaseData in *; try done; try lia; auto.
    + by intros ? [= <-].
    + intros ? [= <-]. by apply (so_chap0 c).
    + intros ? [= <-] _. cbn. apply so_unauth0; [done|lia].
  - destruct Hs. split; split; cbn;
      unfold PPPPhaseCHAP, PPPPhaseIPCP, PPPPhaseData in *; try done; try lia; auto.
    + by intros ? [= <-].
    + rewrite Ec. by intros ? [=].
Qed.

Lemma handleIPCP_ok login s data :
  session_ok s -> bytes_wf data -> len data <= 52000 ->
  match handleIPCP s data with
  | Ok (s', _) => session_ok s' /\ evolves login s s'
  | Err _ => False
  | Panic => short data
  end.
Proof.
  intros Hs Hwf Hl. unfold handleIPCP. destruct (ipcpHandler s) as [h|] eqn:Eh.
  2:{ split; [done|apply evolves_refl]. }
  destruct (Z.eqb_spec (pppPhase s) PPPPhaseIPCP) as [Hp|Hp]; cbn [negb].
  2:{ split; [done|apply evolves_refl]. }
  destruct (so_ipcp s Hs h Eh) as [Hok Hip].
  destruct (Ipcp_Handle_total h data Hok Hwf Hl) as [([h1 resp] & E)|[-> ?]]; [|done].
  pose proof (Ipcp.Handle_same_addresses _ _ _ _ E) as Hsame.
  pose proof (Ipcp.same_addresses_ok _ _ Hsame Hok) as Hok1.
  assert (Ipcp.assignedIP h1 = assignedIP s) as Hip1 by (destruct Hsame as [-> _]; done).
  rewrite E, bind_Ok. destruct (opt_frame_ok PPPProtoIPCP resp) as [fs ->]. rewrite bind_Ok.
  cbn [pppPhase with_ipcp]. destruct (Ipcp.IsOpened h1 && _) eqn:Eo; destruct Hs; split; split; cbn;
    unfold PPPPhaseCHAP, PPPPhaseIPCP, PPPPhaseData in *; try done; try lia; auto.
  all: try by intros ? [= <-].
  - intros _. apply so_login0. lia.
  - intros _. exists h1. split; [done|]. by apply andb_true_iff in Eo as [Eo _].
Qed.

Lemma rejectProtocol_ok login s proto payload :
  session_ok s ->
  exists s' fs, rejectProtocol s proto payload = Ok (s', fs) /\ session_ok s' /\ evolves login s s'.
Proof.
  intros Hs. unfold rejectProtocol. destruct (lcpHandler s) as [lcp|] eqn:El.
  - pose proof (so_lcp s Hs lcp El) as Hok.
    destruct (Lcp.BuildProtocolReject_ok lcp proto payload Hok) as (pkt & ->). rewrite bind_Ok.
    rewrite SerializePPPFrame_ok, bind_Ok. eexists _, _. split; [done|]. by apply with_lcp_ok.
  - eexists _, _. split; [done|]. split; [done|apply evolves_refl].
Qed.

Section WithUsersFacts.
Context (md5 : bytes -> bytes) {D : Type} {UD : Chap.UserDatabase D}.

Lemma handleCHAP_ok db s data :
  session_ok s -> bytes_wf data -> len data <= 52000 ->
  match handleCHAP md5 db s data with
  | Ok (s', _) => session_ok s' /\ evolves (fun c name => Chap.genuine md5 db c data name) s s'
  | Err _ => False
  | Panic => short data
  end.
Proof.
  intros Hs Hwf Hl. unfold handleCHAP. destruct (chapHandler s) as [c|] eqn:Ec.
  2:{ split; [done|apply evolves_refl]. }
  destruct (Z.eqb_spec (pppPhase s) PPPPhaseCHAP) as [Hp|Hp]; cbn [negb].
  2:{ split; [done|apply evolves_refl]. }
  destruct (Chap.Handle_cases md5 db c data Hwf ltac:(lia)) as [HP|[(o & E & _)|(name & Hg & o & E)]].
  - rewrite HP. apply Chap.Handle_panic in HP as (? & _ & ?); [by split|done|lia].
  - rewrite E, bind_Ok. destruct (opt_frame_ok PPPProtoCHAP o) as [fs ->]. rewrite bind_Ok.
    assert (Chap.authenticated c = false) as Ha.
    { apply (so_unauth s Hs c Ec). unfold PPPPhaseCHAP, PPPPhaseIPCP in *. lia. }
    unfold Chap.IsAuthenticated. rewrite Ha. destruct Hs. split; split; cbn;
      unfold PPPPhaseCHAP, PPPPhaseIPCP, PPPPhaseData in *; try done; try lia; auto.
    + intros ? [= <-]. auto.
    + by intros ? [= <-].
  - rewrite E, bind_Ok. destruct (opt_frame_ok PPPProtoCHAP o) as [fs ->]. rewrite bind_Ok.
    cbn [Chap.IsAuthenticated Chap.authenticated Chap.authenticate ipcpHandler with_chap].
    destruct (ipcpHandler s) as [ipcp|] eqn:Ei.
    + destruct (Ipcp.ipcp_BuildConfigureRequest_ok ipcp) as (pkt & ->). rewrite bind_Ok.
      rewrite SerializePPPFrame_ok, bind_Ok. destruct Hs. split; split; cbn;
        unfold PPPPhaseCHAP, PPPPhaseIPCP, PPPPhaseData in *; try done; try lia; auto.
      * intros ? [= <-]. cbn. by apply (so_chap0 c).
      * intros ? [= <-]. destruct (so_ipcp0 ipcp Ei) as [Hok Hip]. split; [|done].
        by destruct Hok; split.
      * intros _. eauto.
      * intros _. right. exists c. by rewrite Hp.
    + destruct Hs. split; split; cbn;
        unfold PPPPhaseCHAP, PPPPhaseIPCP, PPPPhaseData in *; try done; try lia; auto.
      * intros ? [= <-]. cbn. by apply (so_chap0 c).
      * intros _. eauto.
      * intros _. right. exists c. by rewrite Hp.
Qed.

Lemma ParsePPPFrame_suffix data f :
  bytes_wf data -> ParsePPPFrame data = Ok f -> bytes_wf (Payload f) /\ len (Payload f) <= len data.
Proof.
  intros Hwf. unfold ParsePPPFrame. case_match; [done|]. intros (b0 & _ & E)%bind_Ok_inv.
  apply bind_Ok_inv in E as (o & _ & E). apply bind_Ok_inv in E as (rem & _ & E).
  case_match; [done|]. apply bind_Ok_inv in E as (r0 & _ & E).
  apply bind_Ok_inv in E as ([p o'] & _ & E). apply bind_Ok_inv in E as (pl & (H1 & H2 & ->)%slice_inv & [= <-]).
  cbn. split; [by apply Forall_sub|]. rewrite len_sub by lia. lia.
Qed.

(** The datagrams that log the peer in as [name]. *)
Definition logs_in (db : D) (payload : bytes) (c : Chap.CHAPHandler) (name : bytes) : Prop :=
  exists f, ParsePPPFrame payload = Ok f /\ Protocol f = PPPProtoCHAP /\
    Chap.genuine md5 db c (Payload f) name.

(** What [HandleData] may do to a well-formed session. *)
Lemma HandleData_spec r db s payload :
  session_ok s -> bytes_wf payload -> len payload <= 52000 ->
  match HandleData md5 r db s payload with
  | Ok (s', _, tun) =>
    session_ok s' /\ evolves (logs_in db payload) s s' /\
    (forall d, tun = Some d ->
       state s = SessionEstablished /\ pppPhase s = PPPPhaseData /\
       ParsePPPFrame payload = Ok (mkPPP PPPProtoIPv4 d))
  | Err _ => False
  | Panic => state s = SessionEstablished /\
    exists f, ParsePPPFrame payload = Ok f /\ short (Payload f) /\
      Protocol f ∈ [PPPProtoLCP; PPPProtoCHAP; PPPProtoIPCP]
  end.
Proof.
  intros Hs Hwf Hl. unfold HandleData.
  destruct (Z.eqb_spec (state s) SessionEstablished) as [Hst|]; cbn [negb].
  2:{ split_and!; [done|apply evolves_refl|done]. }
  pose proof (ParsePPPFrame_not_Panic payload) as HnP.
  destruct (ParsePPPFrame payload) as [f|e|] eqn:Ef; [|split_and!; [done|apply evolves_refl|done]|done].
  destruct (ParsePPPFrame_suffix payload f Hwf Ef) as [Hwf' Hlf].
  destruct (Z.eqb_spec (Protocol f) PPPProtoLCP) as [Hp|_].
  { pose proof (handleLCP_ok (logs_in db payload) r s (Payload f) Hs Hwf' ltac:(lia)) as H.
    destruct (handleLCP r s (Payload f)) as [[s' fs]|e|]; [by rewrite bind_Ok; destruct H|done|].
    split; [done|]. exists f. split_and!; [done|done|rewrite Hp; set_solver]. }
  destruct (Z.eqb_spec (Protocol f) PPPProtoCHAP) as [Hp|_].
  { pose proof (handleCHAP_ok db s (Payload f) Hs Hwf' ltac:(lia)) as H.
    destruct (handleCHAP md5 db s (Payload f)) as [[s' fs]|e|]; [rewrite bind_Ok|done|].
    - destruct H as [H1 []]. split_and!; [done| |done]. split; try done.
      intros Hph. destruct (ev_login0 Hph) as [|(c & H2 & H3 & H4 & H5)]; [by left|].
      right. exists c. split_and!; [done|done| |done]. by exists f.
    - split; [done|]. exists f. split_and!; [done|done|rewrite Hp; set_solver]. }
  destruct (Z.eqb_spec (Protocol f) PPPProtoIPCP) as [Hp|_].
  { pose proof (handleIPCP_ok (logs_in db payload) s (Payload f) Hs Hwf' ltac:(lia)) as H.
    destruct (handleIPCP s (Payload f)) as [[s' fs]|e|]; [by rewrite bind_Ok; destruct H|done|].
    split; [done|]. exists f. split_and!; [done|done|rewrite Hp; set_solver]. }
  destruct (Z.eqb_spec (Protocol f) PPPProtoIPv4) as [Hp|_].
  - split_and!; [done|apply evolves_refl|]. unfold handleIPv4. intros d.
    destruct (Z.eqb_spec (pppPhase s) PPPPhaseData); cbn [negb]; [|done]. intros [= <-].
    split_and!; [done|done|]. destruct f; cbn in *; by subst.
  - destruct (rejectProtocol_ok (logs_in db payload) s (Protocol f) (Payload f) Hs)
      as (s' & fs & -> & H1 & H2). by rewrite bind_Ok.
Qed.

End WithUsersFacts.

(** ** The other operations *)

Lemma InitPPP_ok r s hostname ip gw dns1 dns2 :
  session_ok s -> good_name hostname -> Ipcp.good_ip ip ->
  (dns1 <> [] -> Ipcp.good_ip dns1) -> (dns2 <> [] -> Ipcp.good_ip dns2) ->
  exists s' r' f, InitPPP r s hostname ip gw dns1 dns2 = Ok (s', r', f) /\ session_ok s' /\
    state s' = state s /\ localSessionID s' = localSessionID s /\ assignedIP s' = ip /\
    pppPhase s' = PPPPhaseLCP.
Proof.
  intros Hs Hn Hip H1 H2. unfold InitPPP, Lcp.NewLCPHandler. unfold rand_Read.
  destruct (be32_ok (resize 4 0 (draw r (used r)))) as [m ->].
  { unfold len. rewrite length_resize. lia. }
  rewrite !bind_Ok. destruct (Lcp.BuildConfigureRequest_ok (Lcp.mkLCP Lcp.LCPStateInitial m 0 Lcp.defaultMRU 0 false false))
    as (opts & E & _). rewrite E, bind_Ok, SerializePPPFrame_ok, bind_Ok.
  eexists _, _, _. split; [reflexivity|]. split; [|done].
  assert (Ipcp.good_ip Ipcp.defaultPrimaryDNS /\ Ipcp.good_ip Ipcp.defaultSecondaryDNS) as [HD1 HD2].
  { split; (split; [by apply (bool_decide_unpack _)|by eexists]). }
  split; cbn; unfold PPPPhaseLCP, PPPPhaseIPCP, PPPPhaseData; try lia.
  - intros ? [= <-]. done.
  - by intros ? [= <-].
  - intros ? [= <-]. split; [|done]. split; cbn; [done| |].
    + destruct dns1; [done|by apply H1].
    + destruct dns2; [done|by apply H2].
  - by intros ? [= <-].
Qed.

(** ** A whole negotiation *)

Definition frame (proto : Z) (body : bytes) : bytes := [255; 3] ++ put16 proto ++ body.

Lemma frame_parse proto body : ppp_proto proto -> ParsePPPFrame (frame proto body) = Ok (mkPPP proto body).
Proof. intros. apply ParsePPPFrame_body; auto. Qed.

Lemma Lcp_Handle_ack r h id :
  Lcp.Handle r h (Lcp.packet Lcp.LCPConfigureAck id []) = Ok (Lcp.handleConfigureAck h id, r, None).
Proof. reflexivity. Qed.

Lemma Ipcp_Handle_ack h id :
  Ipcp.Handle h (Lcp.packet Ipcp.IPCPConfigureAck id []) = Ok (Ipcp.handleConfigureAck h id, None).
Proof. reflexivity. Qed.

(** The request for the address the server assigned. *)
Definition address_request (ip : bytes) : Options.opt :=
  Options.mkOpt Ipcp.IPCPOptIPAddress 6 ([3; 6] ++ Ipcp.to4 ip).

Lemma address_request_ok ip : Ipcp.good_ip ip -> Options.opt_ok (address_request ip).
Proof.
  intros Hip. destruct (Ipcp.good_ip_to4 ip Hip) as (Hl & Hwf & _). split; cbn -[len]; try done.
  - rewrite !len_cons. unfold len. by rewrite Hl.
  - repeat (apply Forall_cons; split; [done|]). done.
Qed.

Lemma address_request_acked ip h :
  Ipcp.ipcp_ok h -> Ipcp.assignedIP h = ip -> Ipcp.judge h (address_request ip) = Options.VAck.
Proof.
  intros Hok Hip. pose proof (Ipcp.io_ip h Hok) as Hg. rewrite Hip in Hg.
  destruct (Ipcp.good_ip_to4 ip Hg) as (Hl & _ & H4). destruct Hg as (_ & b & Hb & Hz).
  unfold Ipcp.judge, address_request. cbn [Options.optType].
  change (Ipcp.IPCPOptIPAddress =? Ipcp.IPCPOptIPAddress) with true. cbv iota.
  unfold Ipcp.judge_address. cbn [Options.optLen Options.optData]. change (6 >=? 6) with true. cbv iota.
  assert (sub ([3; 6] ++ Ipcp.to4 ip) 2 6 = Ipcp.to4 ip) as ->.
  { unfold sub. change (Z.to_nat 2) with 2%nat. cbn [app drop]. apply take_ge. by rewrite Hl. }
  rewrite Hip, bool_decide_false; [done|]. rewrite H4 in Hb. injection Hb as <-. naive_solver.
Qed.

Section Login.
Context (md5 : bytes -> bytes) {D : Type} {UD : Chap.UserDatabase D} (db : D).

Definition after (r : rng) (s : Session) (payload : bytes) : res Session :=
  '(s, _, _) ← HandleData md5 r db s payload; Ok s.

(** The frames a peer that knows the password sends, and what each does. *)
Definition lcp_ack (id : Z) : bytes := frame PPPProtoLCP (Lcp.packet Lcp.LCPConfigureAck id []).
Definition lcp_request (id : Z) (os : list Options.opt) : bytes :=
  frame PPPProtoLCP (Lcp.packet Lcp.LCPConfigureRequest id (Options.opts_bytes os)).
Definition chap_response (id : Z) (password ch user : bytes) : bytes :=
  frame PPPProtoCHAP (Lcp.packet Chap.CHAPResponse id (Chap.response (md5 ([id] ++ password ++ ch)) user)).
Definition ipcp_ack (id : Z) : bytes := frame PPPProtoIPCP (Lcp.packet Ipcp.IPCPConfigureAck id []).
Definition ipcp_request (id : Z) (ip : bytes) : bytes :=
  frame PPPProtoIPCP (Lcp.packet Ipcp.IPCPConfigureRequest id (Options.opts_bytes [address_request ip])).

Lemma after_lcp_ack r s lcp :
  state s = SessionEstablished -> lcpHandler s = Some lcp -> Lcp.state lcp = Lcp.LCPStateReqSent ->
  Lcp.peerConfigAcked lcp = false ->
  after r s (lcp_ack (Lcp.nextID lcp)) = Ok (with_lcp s (Lcp.with_ourConfigAcked lcp) (pppPhase s)).
Proof.
  intros Hst Hl Hs Hp. unfold after, HandleData, lcp_ack. rewrite Hst, frame_parse by done.
  cbn [negb Z.eqb SessionEstablished Pos.eqb Protocol Payload PPPProtoLCP].
  unfold handleLCP. rewrite Hl, Lcp_Handle_ack, !bind_Ok. unfold Lcp.handleConfigureAck.
  rewrite Z.eqb_refl. cbn [negb]. unfold Lcp.checkOpened. cbn. rewrite Hp. unfold Lcp.IsOpened. cbn.
  by rewrite Hs.
Qed.

Lemma after_lcp_request r s lcp chap id os :
  state s = SessionEstablished -> pppPhase s = PPPPhaseLCP -> lcpHandler s = Some lcp ->
  chapHandler s = Some chap -> good_name (Chap.serverName chap) -> Lcp.ourConfigAcked lcp = true ->
  Forall Options.opt_ok os -> Lcp.accepts Lcp.judge os = true -> len (Options.opts_bytes os) <= 52000 ->
  exists lcp' ch, length ch = 16%nat /\
    after r s (lcp_request id os) =
      Ok (with_chap (with_lcp s lcp' PPPPhaseCHAP)
            (Chap.mkCHAP (u8 (Chap.challengeID chap + 1)) ch (Chap.serverName chap)
               (Chap.authenticated chap) (Chap.username chap)) PPPPhaseCHAP (username s)).
Proof.
  intros Hst Hph Hl Hc Hn Ho Hos Ha Hlen. unfold after, HandleData, lcp_request. rewrite Hst, frame_parse by done.
  cbn [negb Z.eqb SessionEstablished Pos.eqb Protocol Payload PPPProtoLCP].
  unfold handleLCP. rewrite Hl.
  destruct (Lcp.Handle_request r lcp id (Options.opts_bytes os) os []) as (h1 & Hsame & ->).
  { by apply Options.parse_opts_bytes. } { done. } { by rewrite app_nil_r. } { done. }
  rewrite Ha, bind_Ok. cbn [opt_frame]. rewrite SerializePPPFrame_ok, !bind_Ok.
  destruct Hsame as (_ & _ & _ & H1 & _). unfold Lcp.checkOpened. cbn [Lcp.ourConfigAcked Lcp.peerConfigAcked Lcp.with_peerConfigAcked].
  rewrite H1, Ho. cbn [andb]. unfold Lcp.IsOpened. cbn [Lcp.state Lcp.with_state]. rewrite Z.eqb_refl.
  cbn [pppPhase with_lcp]. rewrite Hph. cbn [Z.eqb PPPPhaseLCP andb chapHandler with_lcp]. rewrite Hc.
  destruct (Chap.BuildChallenge_ok r chap Hn) as (pkt & ->). rewrite bind_Ok, SerializePPPFrame_ok, !bind_Ok.
  eexists _, _. split; [|reflexivity]. cbn. by rewrite length_resize.
Qed.

Lemma after_chap_response r s c ipcp id user password :
  state s = SessionEstablished -> pppPhase s = PPPPhaseCHAP -> chapHandler s = Some c ->
  ipcpHandler s = Some ipcp -> Chap.LookupUser db user = Some password ->
  len (md5 ([id] ++ password ++ Chap.challenge c)) + len user < 65500 ->
  after r s (chap_response id password (Chap.challenge c) user) =
    Ok (with_ipcp (with_chap s (Chap.authenticate c user) PPPPhaseIPCP user) (Ipcp.bump_nextID ipcp) PPPPhaseIPCP).
Proof.
  intros Hst Hph Hc Hi Hu Hlen. unfold after, HandleData, chap_response. rewrite Hst, frame_parse by done.
  cbn [negb Z.eqb SessionEstablished Pos.eqb Protocol Payload PPPProtoLCP PPPProtoCHAP].
  unfold handleCHAP. rewrite Hc, Hph. cbn [negb Z.eqb PPPPhaseCHAP Pos.eqb].
  set (v := md5 _) in *. pose proof (len_nonneg v).
  rewrite <- (app_nil_r (Lcp.packet _ id _)), Chap.Handle_response by (unfold Chap.response; len_norm; lia).
  rewrite Chap.handleResponse_shape, Hu by lia. rewrite decide_True, !bind_Ok by done.
  cbn [opt_frame]. rewrite SerializePPPFrame_ok, !bind_Ok.
  cbn [Chap.IsAuthenticated Chap.authenticated Chap.authenticate ipcpHandler with_chap]. rewrite Hi.
  destruct (Ipcp.ipcp_BuildConfigureRequest_ok ipcp) as (pkt & ->). by rewrite bind_Ok, SerializePPPFrame_ok, !bind_Ok.
Qed.

Lemma after_ipcp_ack r s ipcp :
  state s = SessionEstablished -> pppPhase s = PPPPhaseIPCP -> ipcpHandler s = Some ipcp ->
  Ipcp.peerConfigAcked ipcp = false -> Ipcp.opened ipcp = false ->
  after r s (ipcp_ack (Ipcp.nextID ipcp)) = Ok (with_ipcp s (Ipcp.with_flags ipcp false true false) PPPPhaseIPCP).
Proof.
  intros Hst Hph Hi Hp Ho. unfold after, HandleData, ipcp_ack. rewrite Hst, frame_parse by done.
  cbn [negb Z.eqb SessionEstablished Pos.eqb Protocol Payload PPPProtoLCP PPPProtoCHAP PPPProtoIPCP].
  unfold handleIPCP. rewrite Hi, Hph. cbn [negb Z.eqb PPPPhaseIPCP Pos.eqb].
  rewrite Ipcp_Handle_ack, !bind_Ok. unfold Ipcp.handleConfigureAck. rewrite Z.eqb_refl. cbn [negb].
  unfold Ipcp.checkOpened. cbn. rewrite Hp, Ho. done.
Qed.

Lemma after_ipcp_request r s ipcp id :
  state s = SessionEstablished -> pppPhase s = PPPPhaseIPCP -> ipcpHandler s = Some ipcp ->
  Ipcp.ipcp_ok ipcp -> Ipcp.ourConfigAcked ipcp = true ->
  exists ipcp', after r s (ipcp_request id (Ipcp.assignedIP ipcp)) = Ok (with_ipcp s ipcp' PPPPhaseData).
Proof.
  intros Hst Hph Hi Hok Ho. unfold after, HandleData, ipcp_request. rewrite Hst, frame_parse by done.
  cbn [negb Z.eqb SessionEstablished Pos.eqb Protocol Payload PPPProtoLCP PPPProtoCHAP PPPProtoIPCP].
  unfold handleIPCP. rewrite Hi, Hph. cbn [negb Z.eqb PPPPhaseIPCP Pos.eqb].
  set (o := address_request (Ipcp.assignedIP ipcp)).
  assert (Options.opt_ok o) as Hoo by apply address_request_ok, Hok.
  assert (Forall Options.opt_ok [o]) as Hos by (by apply Forall_singleton).
  rewrite (Ipcp.ipcp_Handle_request ipcp id (Options.opts_bytes [o]) [o] []), bind_Ok; [|done| |done| |].
  2:{ by apply Options.parse_opts_bytes. } 2:{ by rewrite app_nil_r. }
  2:{ rewrite Options.opts_bytes_cons, len_app, <- (Options.oo_len o Hoo). done. }
  rewrite (proj2 (Lcp.accepts_iff (Ipcp.judge ipcp) [o] (Ipcp.ipcp_judge_consistent ipcp Hok) Hos)).
  2:{ apply Forall_singleton. by apply address_request_acked. }
  cbn [opt_frame]. rewrite SerializePPPFrame_ok, !bind_Ok. unfold Ipcp.checkOpened. cbn. rewrite Ho. cbn.
  eauto.
Qed.

(** C24: authentication works for those who know the password.  A session that has
    just started PPP reaches the data phase, under the user's name, when the peer
    acknowledges our LCP request, asks for LCP options the server takes, answers the
    challenge with the user's password, acknowledges the gateway address and asks for
    the address the server assigned; from then on its IPv4 packets go to the TUN
    device unchanged. *)
Theorem session_login_completes r rs s hostname ip gw dns1 dns2 os user password :
  session_ok s -> state s = SessionEstablished -> good_name hostname -> Ipcp.good_ip ip ->
  (dns1 <> [] -> Ipcp.good_ip dns1) -> (dns2 <> [] -> Ipcp.good_ip dns2) ->
  Forall Options.opt_ok os -> Lcp.accepts Lcp.judge os = true -> len (Options.opts_bytes os) <= 52000 ->
  Chap.LookupUser db user = Some password -> len user < 65000 -> (forall d, len (md5 d) = 16) ->
  exists s1 r1 f ch, InitPPP r s hostname ip gw dns1 dns2 = Ok (s1, r1, f) /\
    length ch = 16%nat /\
    match
      s ← after rs s1 (lcp_ack 1);
      s ← after rs s (lcp_request 1 os);
      s ← after rs s (chap_response 1 password ch user);
      s ← after rs s (ipcp_ack 1);
      after rs s (ipcp_request 1 ip)
    with
    | Ok s' => pppPhase s' = PPPPhaseData /\ username s' = user /\ assignedIP s' = ip /\
        forall r d, HandleData md5 r db s' (frame PPPProtoIPv4 d) = Ok (s', [], Some d)
    | _ => False
    end.
Proof.
  intros Hs Hst Hn Hip H1 H2 Hos Ha Hlen Hu Hul Hmd.
  destruct (InitPPP_ok r s hostname ip gw dns1 dns2 Hs Hn Hip H1 H2) as (s1 & r1 & f & E & Hok & E2 & _ & E3 & E4).
  assert (exists lcp chap ipcp, lcpHandler s1 = Some lcp /\ chapHandler s1 = Some chap /\ ipcpHandler s1 = Some ipcp /\
    Lcp.state lcp = Lcp.LCPStateReqSent /\ Lcp.peerConfigAcked lcp = false /\ Lcp.nextID lcp = 1 /\
    Chap.serverName chap = hostname /\ Ipcp.nextID ipcp = 0 /\ Ipcp.peerConfigAcked ipcp = false /\
    Ipcp.opened ipcp = false) as (lcp & chap & ipcp & L & C & I & L1 & L2 & L3 & C1 & I1 & I2 & I3).
  { revert E. unfold InitPPP. intros ([lcp r2] & E & E')%bind_Ok_inv. unfold Lcp.NewLCPHandler in E.
    destruct (rand_Read r 4) as [m r3]. apply bind_Ok_inv in E as (mg & _ & [= <- <-]).
    destruct (Lcp.BuildConfigureRequest_ok (Lcp.mkLCP Lcp.LCPStateInitial mg 0 Lcp.defaultMRU 0 false false))
      as (opts & Eb & _). rewrite Eb, bind_Ok, SerializePPPFrame_ok, bind_Ok in E'. injection E' as <- _ _.
    cbn. by eexists _, _, _. }
  assert (state s1 = SessionEstablished) as Hst1 by congruence.
  rewrite <- C1 in Hn. pose proof (after_lcp_ack rs s1 lcp Hst1 L L1 L2) as A1. rewrite L3 in A1.
  set (s2 := with_lcp s1 (Lcp.with_ourConfigAcked lcp) (pppPhase s1)).
  destruct (after_lcp_request rs s2 (Lcp.with_ourConfigAcked lcp) chap 1 os) as (lcp' & ch & Hch & E5); try done.
  exists s1, r1, f, ch. split; [done|]. split; [done|].
  rewrite A1, bind_Ok. fold s2. rewrite E5, bind_Ok.
  set (c := Chap.mkCHAP _ ch _ _ _). set (s3 := with_chap _ c _ _).
  change ch with (Chap.challenge c). destruct (so_ipcp s1 Hok ipcp I) as [Hipok Hipa].
  rewrite (after_chap_response rs s3 c ipcp), bind_Ok; [|done..|rewrite Hmd; lia].
  set (s4 := with_ipcp _ _ _). pose proof (after_ipcp_ack rs s4 (Ipcp.bump_nextID ipcp) Hst1 eq_refl eq_refl I2 I3) as A4.
  replace (Ipcp.nextID (Ipcp.bump_nextID ipcp)) with 1 in A4 by (cbn; by rewrite I1). rewrite A4, bind_Ok.
  set (i5 := Ipcp.with_flags _ _ _ _). set (s5 := with_ipcp s4 i5 _).
  destruct (after_ipcp_request rs s5 i5 1) as (i6 & E6); [done..|by destruct Hipok|done|].
  replace (Ipcp.assignedIP i5) with ip in E6 by (cbn; congruence). rewrite E6.
  split_and!; [done|done|done|]. intros r0 d. unfold HandleData.
  rewrite frame_parse by done. cbn. by rewrite Hst1.
Qed.

End Login.

(** A session with the LAC's call connected. *)
Definition demo_session : Session := with_state (newSession 2 9) SessionEstablished.

Lemma demo_session_ok : session_ok demo_session.
Proof. split; cbn; unfold PPPPhaseLCP, PPPPhaseIPCP, PPPPhaseData; try discriminate; lia. Qed.

Lemma demo_ip_ok : Ipcp.good_ip [10; 0; 0; 7].
Proof. split; [by apply (bool_decide_unpack _)|by eexists]. Qed.

Lemma session_login_completes_witness :
  exists s1 r1 f ch, InitPPP demo_rng demo_session (bytes_of_string "lns") [10; 0; 0; 7] [10; 0; 0; 1] [] [] =
      Ok (s1, r1, f) /\ length ch = 16%nat /\
    match
      s ← after Chap.toy_md5 Chap.DemoDB demo_rng s1 (lcp_ack 1);
      s ← after Chap.toy_md5 Chap.DemoDB demo_rng s (lcp_request 1 [Options.mkOpt 7 2 [7; 2]]);
      s ← after Chap.toy_md5 Chap.DemoDB demo_rng s
            (chap_response Chap.toy_md5 1 (bytes_of_string "secret") ch (bytes_of_string "alice"));
      s ← after Chap.toy_md5 Chap.DemoDB demo_rng s (ipcp_ack 1);
      after Chap.toy_md5 Chap.DemoDB demo_rng s (ipcp_request 1 [10; 0; 0; 7])
    with
    | Ok s' => pppPhase s' = PPPPhaseData /\ username s' = bytes_of_string "alice"
    | _ => False
    end.
Proof.
  destruct (session_login_completes Chap.toy_md5 Chap.DemoDB demo_rng demo_rng demo_session (bytes_of_string "lns")
    [10; 0; 0; 7] [10; 0; 0; 1] [] [] [Options.mkOpt 7 2 [7; 2]] (bytes_of_string "alice")
    (bytes_of_string "secret")) as (s1 & r1 & f & ch & H1 & H2 & H3).
  - exact demo_session_ok.
  - reflexivity.
  - reflexivity.
  - exact demo_ip_ok.
  - intros H; destruct (H eq_refl).
  - intros H; destruct (H eq_refl).
  - apply Forall_singleton. split; try reflexivity; [split; discriminate|]. by apply (bool_decide_unpack _).
  - reflexivity.
  - vm_compute. discriminate.
  - reflexivity.
  - reflexivity.
  - intros d. unfold len, Chap.toy_md5. by rewrite length_resize.
  - exists s1, r1, f, ch. split; [exact H1|]. split; [exact H2|].
    destruct (_ ≫= _); [|exact H3|exact H3]. split; apply H3.
Defined.

End Session.
