(* ===== verification/L2tpTunnel.v ===== *)
(** * L2tpTunnel: the control connection with one LAC ([internal/l2tp/tunnel.go])

    A tunnel owns its reliable control channel and its sessions.  An operation
    returns the tunnel left behind and the datagrams for the peer, in order; what it
    asks of the server (addresses given back to the pool) is returned as well. *)

From S2P Require Import Prelude Net Rand L2tpPacket L2tpControl L2tpLcp L2tpIpcp L2tpChap L2tpSession.

Module Tunnel.
Import Packet Control.

Definition TunnelIdle : Z := 0.
Definition TunnelWaitCtlConn : Z := 1.
Definition TunnelEstablished : Z := 2.
Definition TunnelDead : Z := 3.

Record Tunnel := mkTunnel {
  state : Z;
  localTunnelID : Z;
  remoteTunnelID : Z;
  peerAddr : UDPAddr;
  peerHostname : bytes;
  control : ControlChannel;
  sessions : gmap Z Session.Session;
  nextSessionID : Z;
  lastActivity : Z;
  running : bool
}.

Definition with_state (t : Tunnel) (st : Z) : Tunnel :=
  mkTunnel st (localTunnelID t) (remoteTunnelID t) (peerAddr t) (peerHostname t) (control t)
    (sessions t) (nextSessionID t) (lastActivity t) (running t).
Definition with_remoteTunnelID (t : Tunnel) (id : Z) : Tunnel :=
  mkTunnel (state t) (localTunnelID t) id (peerAddr t) (peerHostname t) (control t)
    (sessions t) (nextSessionID t) (lastActivity t) (running t).
Definition with_peerHostname (t : Tunnel) (hn : bytes) : Tunnel :=
  mkTunnel (state t) (localTunnelID t) (remoteTunnelID t) (peerAddr t) hn (control t)
    (sessions t) (nextSessionID t) (lastActivity t) (running t).
Definition with_control (t : Tunnel) (cc : ControlChannel) : Tunnel :=
  mkTunnel (state t) (localTunnelID t) (remoteTunnelID t) (peerAddr t) (peerHostname t) cc
    (sessions t) (nextSessionID t) (lastActivity t) (running t).
Definition with_sessions (t : Tunnel) (m : gmap Z Session.Session) : Tunnel :=
  mkTunnel (state t) (localTunnelID t) (remoteTunnelID t) (peerAddr t) (peerHostname t) (control t)
    m (nextSessionID t) (lastActivity t) (running t).
Definition with_nextSessionID (t : Tunnel) (n : Z) : Tunnel :=
  mkTunnel (state t) (localTunnelID t) (remoteTunnelID t) (peerAddr t) (peerHostname t) (control t)
    (sessions t) n (lastActivity t) (running t).
Definition with_lastActivity (t : Tunnel) (now : Z) : Tunnel :=
  mkTunnel (state t) (localTunnelID t) (remoteTunnelID t) (peerAddr t) (peerHostname t) (control t)
    (sessions t) (nextSessionID t) now (running t).
Definition with_running (t : Tunnel) (b : bool) : Tunnel :=
  mkTunnel (state t) (localTunnelID t) (remoteTunnelID t) (peerAddr t) (peerHostname t) (control t)
    (sessions t) (nextSessionID t) (lastActivity t) b.

Definition newTunnel (now localID : Z) (peerAddr : UDPAddr) : Tunnel :=
  mkTunnel TunnelIdle localID 0 peerAddr [] NewControlChannel ∅ 1 now false.

(** [t.control.Send(SerializeAVPs(avps))]. *)
Definition send_avps (now : Z) (t : Tunnel) (avps : list AVP) : res (Tunnel * list bytes) :=
  payload ← SerializeAVPs avps;
  '(cc, msg) ← Send now (control t) payload;
  Ok (with_control t cc, [msg]).

Definition sendStopCCN (now : Z) (t : Tunnel) (resultCode errorCode : Z) (errorMsg : bytes) :
    res (Tunnel * list bytes) :=
  rc ← NewResultCodeAVP resultCode errorCode errorMsg;
  send_avps now (with_state t TunnelDead)
    [NewMessageTypeAVP MsgStopCCN; NewAssignedTunnelIDAVP (localTunnelID t); rc].

(** [HandleSCCRQ]: also whether it returns an error. *)
Definition HandleSCCRQ (now : Z) (t : Tunnel) (avps : list AVP) (hostname : bytes) :
    res (Tunnel * list bytes * res unit) :=
  if negb (state t =? TunnelIdle) then Ok (t, [], Err "l2tp: invalid tunnel/session state")
  else
    remoteTID ← GetAVPUint16 avps AVPAssignedTunnelID;
    match remoteTID with
    | None => Ok (t, [], Err "l2tp: required AVP missing")
    | Some remoteTID =>
      if remoteTID =? 0 then Ok (t, [], Err "l2tp: required AVP missing")
      else
        let t := with_remoteTunnelID t remoteTID in
        let t := with_control t (SetRemoteTunnelID (control t) remoteTID) in
        rwSize ← GetAVPUint16 avps AVPReceiveWindowSize;
        let t := match rwSize with
                 | Some rwSize => with_control t (SetPeerWindow (control t) rwSize)
                 | None => t
                 end in
        let t := match GetAVPString avps AVPHostName with
                 | Some hn => with_peerHostname t hn
                 | None => t
                 end in
        bad ← (match GetAVPBytes avps AVPProtocolVersion with
               | Some ver =>
                 if len ver >=? 2 then v0 ← idx ver 0; Ok (negb (v0 =? 1)) else Ok false
               | None => Ok false
               end);
        if bad : bool then
          '(t, out) ← sendStopCCN now t 5 0 (bytes_of_string "unsupported version");
          Ok (t, out, Err "l2tp: unsupported L2TP version")
        else
          '(t, out) ← send_avps now (with_state t TunnelWaitCtlConn)
            [NewMessageTypeAVP MsgSCCRP; NewProtocolVersionAVP; NewFramingCapAVP;
             NewHostNameAVP hostname; NewVendorNameAVP (bytes_of_string "SWAN-NG");
             NewAssignedTunnelIDAVP (localTunnelID t); NewReceiveWindowSizeAVP defaultReceiveWindow;
             NewFirmwareRevisionAVP 256; NewBearerCapAVP];
          Ok (t, out, Ok tt)
    end.

Definition HandleSCCCN (t : Tunnel) : Tunnel * res unit :=
  if negb (state t =? TunnelWaitCtlConn) then (t, Err "l2tp: invalid tunnel/session state")
  else (with_state t TunnelEstablished, Ok tt).

Definition HandleICRQ (now : Z) (t : Tunnel) (avps : list AVP) : res (Tunnel * list bytes * res unit) :=
  if negb (state t =? TunnelEstablished) then Ok (t, [], Err "l2tp: invalid tunnel/session state")
  else
    remote ← GetAVPUint16 avps AVPAssignedSessionID;
    match remote with
    | None => Ok (t, [], Err "l2tp: required AVP missing")
    | Some remoteSessionID =>
      if remoteSessionID =? 0 then Ok (t, [], Err "l2tp: required AVP missing")
      else
        let n := u32 (nextSessionID t + 1) in
        let n := if u16 n =? 0 then u32 (n + 1) else n in
        let localSessionID := u16 n in
        let t := with_nextSessionID t n in
        let sess := Session.newSession localSessionID remoteSessionID in
        let t := with_sessions t (<[localSessionID := sess]> (sessions t)) in
        '(t, out) ← send_avps now t
          [NewMessageTypeAVP MsgICRP; NewAssignedSessionIDAVP localSessionID];
        Ok (t, out, Ok tt)
    end.

Definition HandleICCN (t : Tunnel) (sessionID : Z) : Tunnel * res unit :=
  match sessions t !! sessionID with
  | None => (t, Err "l2tp: session not found")
  | Some sess =>
    let '(sess, r) := Session.handleICCN sess in
    (with_sessions t (<[sessionID := sess]> (sessions t)), r)
  end.

Definition HandleHello (now : Z) (t : Tunnel) : Tunnel := with_lastActivity t now.

(** Closing a session and deleting it; the address it gives back. *)
Definition close_session (t : Tunnel) (sessionID : Z) : Tunnel * list bytes :=
  match sessions t !! sessionID with
  | None => (t, [])
  | Some sess => (with_sessions t (delete sessionID (sessions t)), [(Session.close sess).2])
  end.

Definition HandleCDN (t : Tunnel) (avps : list AVP) : res (Tunnel * list bytes) :=
  sid ← GetAVPUint16 avps AVPAssignedSessionID;
  Ok (match sid with None => (t, []) | Some sid => close_session t sid end).

(** The loops that close every session.  Go visits a map in any order; the order
    here is the one of [map_to_list]. *)
Definition close_all (t : Tunnel) : Tunnel * list bytes :=
  (with_sessions t ∅, (fun p => (Session.close p.2).2) <$> map_to_list (sessions t)).

(** [HandleStopCCN]: the datagrams sent and the addresses given back. *)
Definition HandleStopCCN (t : Tunnel) : res (Tunnel * list bytes * list bytes) :=
  let t := with_state t TunnelDead in
  let '(t, ips) := close_all t in
  zlb ← SendZLB (control t);
  Ok (t, [zlb], ips).

Definition SendCDN (now : Z) (t : Tunnel) (sessionID resultCode : Z) :
    res (Tunnel * list bytes * list bytes) :=
  rc ← NewResultCodeAVP resultCode 0 [];
  '(t, out) ← send_avps now t [NewMessageTypeAVP MsgCDN; NewAssignedSessionIDAVP sessionID; rc];
  let '(t, ips) := close_session t sessionID in
  Ok (t, out, ips).

Definition GetSession (t : Tunnel) (sessionID : Z) : option Session.Session := sessions t !! sessionID.
Definition SessionCount (t : Tunnel) : Z := Z.of_nat (base.size (sessions t)).

Definition sendHello (now : Z) (t : Tunnel) : res (Tunnel * list bytes) :=
  send_avps now t [NewMessageTypeAVP MsgHello].

(** The two tickers of [Run].  A retransmission timeout marks the tunnel dead and
    ends the goroutine. *)
Definition retransmitTick (now : Z) (t : Tunnel) : res (Tunnel * list bytes) :=
  if negb (running t) then Ok (t, [])
  else
    let '(cc, out, timedOut, r) := CheckRetransmit now (control t) in
    let t := with_control t cc in
    let t := if timedOut then with_state t TunnelDead else t in
    alive ← r;
    Ok (with_running t alive, out).

Definition helloTick (now : Z) (t : Tunnel) : res (Tunnel * list bytes) :=
  if negb (running t) then Ok (t, [])
  else if negb (state t =? TunnelEstablished) then Ok (t, [])
  else if now - lastActivity t >=? defaultHelloInterval then sendHello now t
  else Ok (t, []).

Definition Close (now : Z) (t : Tunnel) : res (Tunnel * list bytes * list bytes) :=
  '(t, out) ← (if (state t =? TunnelEstablished) || (state t =? TunnelWaitCtlConn)
               then sendStopCCN now t 1 0 (bytes_of_string "shutdown") else Ok (t, []));
  let '(t, ips) := close_all t in
  Ok (with_running (with_state t TunnelDead) false, out, ips).

(** [computeL2TPChallengeResponse] *)
Definition computeL2TPChallengeResponse (md5 : bytes -> bytes) (msgType : Z) (sharedSecret challenge : bytes) :
    bytes := md5 ([msgType] ++ sharedSecret ++ challenge).

(** ** The control path never panics *)

Lemma Send_total now cc p : exists cc' m, Send now cc p = Ok (cc', m).
Proof.
  pose proof (len_nonneg p). unfold Send. rewrite BuildControlHeader_ok, bind_Ok.
  match goal with |- context [copy_at (make (len ?h + _)) 0 _] => set (hd := h) end.
  assert (len hd = 12) as Hh by reflexivity. rewrite (fill_start (_ + _)). fill_step. cbn [app].
  rewrite fill_copy, bind_Ok by lia. eauto.
Qed.

Lemma send_avps_ok now t avps :
  exists cc out, send_avps now t avps = Ok (with_control t cc, out).
Proof.
  unfold send_avps. rewrite SerializeAVPs_ok, bind_Ok.
  destruct (Send_total now (control t) (concat (avp_bytes <$> avps))) as (cc & m & ->).
  rewrite bind_Ok. eauto.
Qed.

Lemma NewResultCodeAVP_ok rc ec m : exists a, NewResultCodeAVP rc ec m = Ok a.
Proof.
  unfold NewResultCodeAVP. pose proof (len_nonneg m).
  set (more := negb (ec =? 0) || negb (len m =? 0)).
  assert (more = false -> len m = 0) as Hm.
  { unfold more. destruct (Z.eqb_spec (len m) 0); [done|]. by rewrite orb_true_r. }
  rewrite (fill_start (_ + len m)). destruct more.
  - do 2 fill_step. destruct (Z.eqb_spec (len m) 0); cbn [negb]; [rewrite bind_Ok; eauto|].
    rewrite fill_copy, !bind_Ok by (len_norm; lia). eauto.
  - fill_step. rewrite bind_Ok. eauto.
Qed.

Lemma sendStopCCN_ok now t rc ec m :
  exists cc out, sendStopCCN now t rc ec m = Ok (with_control (with_state t TunnelDead) cc, out).
Proof.
  unfold sendStopCCN. destruct (NewResultCodeAVP_ok rc ec m) as (a & ->). rewrite bind_Ok.
  apply (send_avps_ok now (with_state t TunnelDead)).
Qed.

(** The state machine of the control connection (RFC 2661 7.2): an SCCRQ moves an
    idle tunnel to wait-ctl-conn or to dead, touches no session and keeps the
    identifiers this side assigned. *)
Lemma HandleSCCRQ_ok now t avps hostname :
  exists t' out r, HandleSCCRQ now t avps hostname = Ok (t', out, r) /\ r <> Panic /\
    sessions t' = sessions t /\ localTunnelID t' = localTunnelID t /\ peerAddr t' = peerAddr t /\
    (r = Ok tt -> state t = TunnelIdle /\ state t' = TunnelWaitCtlConn /\
       exists tid, tid <> 0 /\ GetAVPUint16 avps AVPAssignedTunnelID = Ok (Some tid) /\ remoteTunnelID t' = tid) /\
    (r = Ok tt \/ state t' = state t \/ state t' = TunnelDead).
Proof.
  unfold HandleSCCRQ. destruct (Z.eqb_spec (state t) TunnelIdle) as [Hi|]; cbn [negb];
    [|eexists _, _, _; split_and!; by auto].
  destruct (GetAVPUint16_total avps AVPAssignedTunnelID) as ([tid|] & E); rewrite E, bind_Ok;
    [|eexists _, _, _; split_and!; by auto].
  destruct (Z.eqb_spec tid 0) as [|Htid]; [eexists _, _, _; split_and!; by auto|].
  destruct (GetAVPUint16_total avps AVPReceiveWindowSize) as (rw & ->). rewrite bind_Ok.
  set (t1 := match GetAVPString avps AVPHostName with Some hn => _ | None => _ end).
  assert (sessions t1 = sessions t /\ localTunnelID t1 = localTunnelID t /\ peerAddr t1 = peerAddr t /\
    remoteTunnelID t1 = tid) as (H1 & H2 & H3 & H4).
  { unfold t1. destruct (GetAVPString _ _), rw; done. }
  set (bad := match GetAVPBytes avps AVPProtocolVersion with Some ver => _ | None => _ end).
  assert (exists b, bad = Ok b) as [b ->].
  { unfold bad. destruct (GetAVPBytes _ _) as [ver|]; [|eauto]. destruct (len ver >=? 2) eqn:El; [|eauto].
    destruct (idx_total ver 0) as (v & -> & _); [lia|]. rewrite bind_Ok. eauto. }
  rewrite bind_Ok. destruct b.
  - destruct (sendStopCCN_ok now t1 5 0 (bytes_of_string "unsupported version")) as (cc & out & ->).
    rewrite bind_Ok. eexists _, _, _. split_and!; by auto.
  - match goal with |- context [send_avps now ?t' ?l] => destruct (send_avps_ok now t' l) as (cc & out & ->) end.
    rewrite bind_Ok. eexists _, _, _. split_and!; [done|done|done|done|done| |by left]. intros _.
    split; [done|]. split; [done|]. by exists tid.
Qed.

Lemma HandleICRQ_ok now t avps :
  exists t' out r, HandleICRQ now t avps = Ok (t', out, r) /\ r <> Panic /\
    localTunnelID t' = localTunnelID t /\ peerAddr t' = peerAddr t /\ state t' = state t /\
    (sessions t' = sessions t \/
     exists sid rid, r = Ok tt /\ state t = TunnelEstablished /\ is_u16 sid /\ sid <> 0 /\
       sessions t' = <[sid := Session.newSession sid rid]> (sessions t)).
Proof.
  unfold HandleICRQ. destruct (Z.eqb_spec (state t) TunnelEstablished) as [Hs|]; cbn [negb];
    [|eexists _, _, _; split_and!; by auto].
  destruct (GetAVPUint16_total avps AVPAssignedSessionID) as ([rid|] & ->); rewrite bind_Ok;
    [|eexists _, _, _; split_and!; by auto].
  destruct (Z.eqb_spec rid 0) as [|Hrid]; [eexists _, _, _; split_and!; by auto|].
  set (n := if u16 _ =? 0 then _ else _).
  match goal with |- context [send_avps now ?t' ?l] => destruct (send_avps_ok now t' l) as (cc & out & ->) end.
  rewrite bind_Ok. eexists _, _, _. split_and!; [done..|]. right.
  exists (u16 n), rid. split_and!; [done|done|apply u16_range| |done].
  unfold n. destruct (Z.eqb_spec (u16 (u32 (nextSessionID t + 1))) 0) as [E|E]; [|done].
  unfold u16, u32 in *. Z.div_mod_to_equations; lia.
Qed.

Lemma HandleStopCCN_ok t :
  exists zlb, HandleStopCCN t = Ok (with_sessions (with_state t TunnelDead) ∅, [zlb], (close_all t).2).
Proof. unfold HandleStopCCN. cbn. rewrite SendZLB_ok, bind_Ok. eauto. Qed.

Lemma SendCDN_ok now t sid rc :
  exists cc out, SendCDN now t sid rc =
    Ok (with_control (close_session t sid).1 cc, out, (close_session t sid).2).
Proof.
  unfold SendCDN. destruct (NewResultCodeAVP_ok rc 0 []) as (a & ->). rewrite bind_Ok.
  match goal with |- context [send_avps now t ?l] => destruct (send_avps_ok now t l) as (cc & out & ->) end.
  rewrite bind_Ok. unfold close_session. cbn [sessions with_control].
  destruct (sessions t !! sid); cbn; eauto.
Qed.

Lemma Close_ok now t :
  exists t' out, Close now t = Ok (t', out, (close_all t).2) /\ sessions t' = ∅ /\
    localTunnelID t' = localTunnelID t /\ peerAddr t' = peerAddr t /\ state t' = TunnelDead.
Proof.
  unfold Close. destruct (_ || _).
  - destruct (sendStopCCN_ok now t 1 0 (bytes_of_string "shutdown")) as (cc & out & ->).
    rewrite bind_Ok. cbn. eauto 10.
  - rewrite bind_Ok. cbn. eauto 10.
Qed.

(** ** The life of a tunnel *)

Inductive op :=
  | OpSCCRQ (avps : list AVP) (hostname : bytes)
  | OpSCCCN
  | OpICRQ (avps : list AVP)
  | OpICCN (sessionID : Z)
  | OpHello
  | OpCDN (avps : list AVP)
  | OpStopCCN
  | OpSendStopCCN (resultCode errorCode : Z) (errorMsg : bytes)
  | OpSendCDN (sessionID resultCode : Z)
  | OpRetransmit
  | OpHelloTick
  | OpClose.

Definition run (now : Z) (o : op) (t : Tunnel) : res Tunnel :=
  match o with
  | OpSCCRQ avps hostname => '(t, _, _) ← HandleSCCRQ now t avps hostname; Ok t
  | OpSCCCN => Ok (HandleSCCCN t).1
  | OpICRQ avps => '(t, _, _) ← HandleICRQ now t avps; Ok t
  | OpICCN sid => Ok (HandleICCN t sid).1
  | OpHello => Ok (HandleHello now t)
  | OpCDN avps => '(t, _) ← HandleCDN t avps; Ok t
  | OpStopCCN => '(t, _, _) ← HandleStopCCN t; Ok t
  | OpSendStopCCN rc ec m => '(t, _) ← sendStopCCN now t rc ec m; Ok t
  | OpSendCDN sid rc => '(t, _, _) ← SendCDN now t sid rc; Ok t
  | OpRetransmit => '(t, _) ← retransmitTick now t; Ok t
  | OpHelloTick => '(t, _) ← helloTick now t; Ok t
  | OpClose => '(t, _, _) ← Close now t; Ok t
  end.

(** The edges of the control connection's state machine. *)
Definition edge (o : op) (st st' : Z) : Prop :=
  st' = st \/ st' = TunnelDead \/
  (st = TunnelIdle /\ st' = TunnelWaitCtlConn /\ exists avps hn, o = OpSCCRQ avps hn) \/
  (st = TunnelWaitCtlConn /\ st' = TunnelEstablished /\ o = OpSCCCN).

(** Where the sessions of the new tunnel come from. *)
Definition session_source (o : op) (t : Tunnel) (sid : Z) (se : Session.Session) : Prop :=
  sessions t !! sid = Some se \/
  (exists avps rid, o = OpICRQ avps /\ state t = TunnelEstablished /\ sid <> 0 /\
     se = Session.newSession sid rid) \/
  (exists se0, o = OpICCN sid /\ sessions t !! sid = Some se0 /\
     Session.state se0 = Session.SessionWaitConnect /\ se = Session.with_state se0 Session.SessionEstablished).

Definition lawful (o : op) (t t' : Tunnel) : Prop :=
  edge o (state t) (state t') /\ localTunnelID t' = localTunnelID t /\ peerAddr t' = peerAddr t /\
  (forall sid se, sessions t' !! sid = Some se -> session_source o t sid se) /\
  (o = OpStopCCN \/ o = OpClose -> state t' = TunnelDead /\ sessions t' = ∅).

(** An operation that leaves the sessions, and ends nothing. *)
Lemma lawful_same o t t' :
  edge o (state t) (state t') -> localTunnelID t' = localTunnelID t -> peerAddr t' = peerAddr t ->
  sessions t' = sessions t -> o <> OpStopCCN -> o <> OpClose -> lawful o t t'.
Proof. intros ??? E ??. split_and!; [done..| |naive_solver]. intros sid se. rewrite E. by left. Qed.

Lemma lawful_closed o t t' :
  state t' = TunnelDead -> localTunnelID t' = localTunnelID t -> peerAddr t' = peerAddr t ->
  sessions t' = ∅ -> lawful o t t'.
Proof.
  intros Hs ?? E. split_and!; [by right; left|done|done| |done]. intros sid se. by rewrite E, lookup_empty.
Qed.

(** Closing one session. *)
Lemma lawful_close_session o t sid cc :
  o <> OpStopCCN -> o <> OpClose -> lawful o t (with_control (close_session t sid).1 cc).
Proof.
  intros ??. unfold close_session. destruct (sessions t !! sid); cbn [fst]; [|by apply lawful_same; [left|..]].
  split_and!; [by left|done|done| |naive_solver]. cbn [sessions with_control with_sessions].
  intros sid' se' [_ Hs]%lookup_delete_Some. by left.
Qed.

Lemma run_HandleSCCRQ now t avps hn :
  exists t', run now (OpSCCRQ avps hn) t = Ok t' /\ lawful (OpSCCRQ avps hn) t t'.
Proof.
  destruct (HandleSCCRQ_ok now t avps hn) as (t' & out & r & E & _ & H1 & H2 & H3 & H4 & H5).
  cbn [run]. rewrite E, bind_Ok. exists t'. split; [done|]. apply lawful_same; try done.
  destruct H5 as [->|[H5|H5]]; [|by left|by right; left].
  destruct (H4 eq_refl) as (A & B & _). right; right; left. eauto.
Qed.

Lemma run_HandleICRQ now t avps :
  exists t', run now (OpICRQ avps) t = Ok t' /\ lawful (OpICRQ avps) t t'.
Proof.
  destruct (HandleICRQ_ok now t avps) as (t' & out & r & E & _ & H1 & H2 & H3 & H4).
  cbn [run]. rewrite E, bind_Ok. exists t'. split; [done|].
  destruct H4 as [H4|(sid & rid & _ & Hs & _ & Hz & H4)]; [by apply lawful_same; [left|..]|].
  split_and!; [by left|done|done| |naive_solver].
  intros sid' se. rewrite H4. intros [[<- <-]|[_ ?]]%lookup_insert_Some; [|by left].
  right; left. by exists avps, rid.
Qed.

Lemma run_HandleICCN now t sid :
  exists t', run now (OpICCN sid) t = Ok t' /\ lawful (OpICCN sid) t t'.
Proof.
  eexists. split; [done|]. unfold HandleICCN, Session.handleICCN.
  destruct (sessions t !! sid) as [se0|] eqn:E; [|by apply lawful_same; [left|..]].
  destruct (Z.eqb_spec (Session.state se0) Session.SessionWaitConnect) as [Hw|]; cbn [negb fst].
  - split_and!; [by left|done|done| |naive_solver]. cbn [sessions with_sessions].
    intros sid' se [[<- <-]|[_ ?]]%lookup_insert_Some; [|by left]. right; right. by exists se0.
  - apply lawful_same; try done; [by left|]. by apply insert_id.
Qed.

(** The tickers change the control channel, and the state when a retransmission is
    given up, which ends the process ([CheckRetransmit_outcome]). *)
Lemma run_retransmitTick now t :
  (exists t', run now OpRetransmit t = Ok t' /\ lawful OpRetransmit t t') \/
  (run now OpRetransmit t = Panic /\ running t = true /\
   exists pm, pm ∈ pending (control t) /\ due now pm /\ maxRetries (control t) <= retries pm).
Proof.
  cbn [run]. unfold retransmitTick. destruct (running t); cbn [negb].
  2:{ left. eexists. split; [done|]. by apply lawful_same; [left|..]. }
  unfold CheckRetransmit.
  destruct (retransmit_loop_total now (recvNr (control t)) (maxRetries (control t)) (pending (control t)))
    as (pms & out & alive & -> & Hd).
  destruct alive; [left|right; by auto].
  eexists. split; [done|]. by apply lawful_same; [left|..].
Qed.

Lemma run_helloTick now t : exists t', run now OpHelloTick t = Ok t' /\ lawful OpHelloTick t t'.
Proof.
  cbn [run]. unfold helloTick, sendHello.
  destruct (send_avps_ok now t [NewMessageTypeAVP MsgHello]) as (cc & out & ->).
  repeat case_match; (eexists; split; [done|]); (apply lawful_same; [by left|done..]).
Qed.

Lemma run_other now o t :
  match o with OpSCCRQ _ _ | OpICRQ _ | OpICCN _ | OpRetransmit | OpHelloTick => False | _ => True end ->
  exists t', run now o t = Ok t' /\ lawful o t t'.
Proof.
  destruct o as [| | | | |avps| |rc ec m|sid rc| | |]; intros H; try done; clear H; cbn [run].
  - eexists. split; [done|]. unfold HandleSCCCN.
    destruct (Z.eqb_spec (state t) TunnelWaitCtlConn) as [E|]; cbn [negb fst];
      (apply lawful_same; [|done..]); [by right; right; right|by left].
  - eexists. split; [done|]. by apply lawful_same; [left|..].
  - unfold HandleCDN. destruct (GetAVPUint16_total avps AVPAssignedSessionID) as ([sid|] & ->); rewrite !bind_Ok.
    + pose proof (lawful_close_session (OpCDN avps) t sid (control t)) as Hl.
      assert (with_control (close_session t sid).1 (control t) = (close_session t sid).1) as Eq.
      { unfold close_session. destruct (sessions t !! sid); by destruct t. }
      rewrite Eq in Hl. destruct (close_session t sid) as [t' ips]. cbn in *. eauto.
    + eexists. split; [done|]. by apply lawful_same; [left|..].
  - destruct (HandleStopCCN_ok t) as (zlb & ->). rewrite bind_Ok. eexists. split; [done|]. by apply lawful_closed.
  - destruct (sendStopCCN_ok now t rc ec m) as (cc & out & ->). rewrite bind_Ok. eexists. split; [done|].
    by apply lawful_same; [right; left|..].
  - destruct (SendCDN_ok now t sid rc) as (cc & out & ->). rewrite bind_Ok. eexists. split; [done|].
    by apply lawful_close_session.
  - destruct (Close_ok now t) as (t' & out & -> & H1 & H2 & H3 & H4). rewrite bind_Ok. eexists. split; [done|].
    by apply lawful_closed.
Qed.

(** C25: the life of a tunnel.  Every operation, in whatever state and with whatever
    the peer sends, returns (only giving up a retransmission does not), and moves the
    control connection along its state machine alone: idle, wait-ctl-conn by an
    SCCRQ, established by an SCCCN, dead from anywhere and for good.  The tunnel
    keeps its own identifier and peer; a session appears only by an ICRQ in the
    established state, with a non-zero identifier, is connected only by its ICCN, and
    none is left after a StopCCN or after closing the tunnel. *)
Theorem tunnel_lifecycle now o t :
  (exists t', run now o t = Ok t' /\ lawful o t t' /\ (state t = TunnelDead -> state t' = TunnelDead)) \/
  (o = OpRetransmit /\ run now o t = Panic /\ running t = true /\
   exists pm, pm ∈ pending (control t) /\ due now pm /\ maxRetries (control t) <= retries pm).
Proof.
  assert (forall t', lawful o t t' -> state t = TunnelDead -> state t' = TunnelDead) as Hd.
  { intros t' [[E|[E|[(E & _)|(E & _)]]] _] Hs; try done; try congruence;
      rewrite Hs in E; discriminate E. }
  assert ((exists t', run now o t = Ok t' /\ lawful o t t') -> exists t', run now o t = Ok t' /\ lawful o t t' /\
    (state t = TunnelDead -> state t' = TunnelDead)) as Hok by (intros (t' & ? & ?); eauto).
  destruct o; try (left; by apply Hok, run_other).
  - left. apply Hok, run_HandleSCCRQ.
  - left. apply Hok, run_HandleICRQ.
  - left. apply Hok, run_HandleICCN.
  - destruct (run_retransmitTick now t) as [H|H]; [left; by apply Hok|by right].
  - left. apply Hok, run_helloTick.
Qed.

End Tunnel.
