(* ===== verification/L2tpServer.v ===== *)
(** * L2tpServer: the LNS ([internal/l2tp/server.go])

    The server keeps its tunnels in two maps; tunnels are shared objects, so they
    live in a heap ([objects], addressed by position) and the maps hold their
    addresses.  The address pool is an interface here ([AddressPool]); the one of
    [internal/ipam] implements it. *)

From S2P Require Import Prelude Net Rand Ipam L2tpPacket L2tpControl L2tpLcp L2tpIpcp L2tpChap.
From S2P Require Import L2tpProfile L2tpSession L2tpTunnel.

(** ** What the server expects of a pool *)

Module Pools.

(** Four bytes that are an address other than 0.0.0.0. *)
Definition address (ip : bytes) : Prop :=
  length ip = 4%nat /\ bytes_wf ip /\ ip <> [0; 0; 0; 0].

Class AddressPool (P : Type) := {
  ap_Allocate : P -> P * res bytes;
  ap_Release : P -> bytes -> P * res unit
}.

(** The contract: [ap_holds p held] says that [held] are the addresses given out. *)
Class AddressPoolLaws (P : Type) {AP : AddressPool P} := {
  ap_holds : P -> gset bytes -> Prop;
  ap_Allocate_ok p held : ap_holds p held ->
    match ap_Allocate p with
    | (p', Ok ip) => address ip /\ (ip ∉ held) /\ ap_holds p' ({[ip]} ∪ held)
    | (p', Err _) => ap_holds p' held
    | (_, Panic) => False
    end;
  ap_Release_ok p held ip : ap_holds p held -> ip ∈ held ->
    exists p', ap_Release p ip = (p', Ok tt) /\ ap_holds p' (held ∖ {[ip]})
}.

(** The pool of [internal/ipam] keeps it. *)
#[global] Instance ipam_pool : AddressPool Pool.Pool := {
  ap_Allocate := Pool.Allocate;
  ap_Release := Pool.Release
}.

Definition ipam_holds (p : Pool.Pool) (held : gset bytes) : Prop :=
  Pool.tracks p (set_map Pool.ipToUint32 held) /\ set_Forall address held.

Lemma ipToUint32_inj a b : address a -> address b -> Pool.ipToUint32 a = Pool.ipToUint32 b -> a = b.
Proof.
  intros (Hl & Hw & _) (Hl' & Hw' & _) E.
  by rewrite <- (Pool.uint32ToIP_ipToUint32 a), <- (Pool.uint32ToIP_ipToUint32 b), E.
Qed.

Lemma ipam_Allocate_ok p held : ipam_holds p held ->
  match Pool.Allocate p with
  | (p', Ok ip) => address ip /\ (ip ∉ held) /\ ipam_holds p' ({[ip]} ∪ held)
  | (p', Err _) => ipam_holds p' held
  | (_, Panic) => False
  end.
Proof.
  intros [Ht Ha]. destruct (Pool.run_tracks Pool.OpAllocate p _ Ht I) as (held' & Hs & Ht' & _).
  pose proof (Pool.Allocate_refines p (Pool.tr_ok _ _ Ht)) as Hr. cbn [Pool.run] in Hs, Ht'.
  destruct (Pool.Allocate p) as [p' [ip|e|]]; cbn in Hs, Ht'; [|by destruct Hs as [_ ->]|done].
  destruct Hr as (_ & _ & _ & n & -> & Hn & _). destruct Hs as (_ & Hni & ->).
  destruct (Pool.tr_ok _ _ Ht). unfold Pool.in_range in Hn.
  rewrite Pool.ipToUint32_uint32ToIP in Hni, Ht' by (unfold is_u32; lia).
  assert (address (Pool.uint32ToIP n)) as Hadd.
  { split; [done|]. split; [apply put32_wf|]. intros E. change [0; 0; 0; 0] with (put32 0) in E.
    apply put32_inj in E; unfold is_u32; lia. }
  split; [done|]. split.
  - intros Hin. apply Hni, elem_of_map. exists (Pool.uint32ToIP n). split; [|done].
    by rewrite Pool.ipToUint32_uint32ToIP by (unfold is_u32; lia).
  - split; [|by apply set_Forall_union; [apply set_Forall_singleton|]].
    rewrite set_map_union_L, set_map_singleton_L.
    by rewrite Pool.ipToUint32_uint32ToIP by (unfold is_u32; lia).
Qed.

Lemma ipam_Release_ok p held ip : ipam_holds p held -> ip ∈ held ->
  exists p', Pool.Release p ip = (p', Ok tt) /\ ipam_holds p' (held ∖ {[ip]}).
Proof.
  intros [Ht Ha] Hin. pose proof (Ha ip Hin) as (Hl & Hwf & Hz).
  destruct (Pool.run_tracks (Pool.OpRelease ip) p _ Ht Hwf) as (held' & Hs & Ht' & _).
  cbn [Pool.run] in Hs, Ht'. pose proof (Pool.Release_refines p ip (Pool.tr_ok _ _ Ht) Hwf) as Hr.
  assert (Pool.ipToUint32 ip ∈ (set_map Pool.ipToUint32 held : gset Z)) as Hin' by (apply elem_of_map; eauto).
  destruct (Pool.Release p ip) as [p' [[]|e|]]; cbn in Hs, Ht'; [| |done].
  - exists p'. split; [done|]. destruct Hs as (_ & _ & ->). split; [|set_solver].
    assert (set_map Pool.ipToUint32 (held ∖ {[ip]}) =@{gset Z} set_map Pool.ipToUint32 held ∖ {[Pool.ipToUint32 ip]}) as ->;
      [|done].
    apply set_eq. intros n. rewrite elem_of_difference, !elem_of_map, elem_of_singleton. split.
    + intros (b & -> & Hb). split; [set_solver|]. intros E. apply ipToUint32_inj in E; set_solver.
    + intros [(b & -> & Hb) Hne]. exists b. split; [done|]. set_solver.
  - exfalso. destruct Hs as [[E| ?] _]; [|done]. by rewrite To4_4 in E.
Qed.

#[global] Instance ipam_pool_laws : AddressPoolLaws Pool.Pool := {
  ap_holds := ipam_holds;
  ap_Allocate_ok := ipam_Allocate_ok;
  ap_Release_ok := ipam_Release_ok
}.

(** A pool [NewPool] has just built holds nothing. *)
Lemma ipam_fresh p :
  Pool.pool_ok p -> Pool.Available p = Pool.Size p -> (forall n, ~ Pool.in_use p n) -> ap_holds p ∅.
Proof. intros. split; [|done]. rewrite set_map_empty. by apply Pool.fresh_tracks. Qed.

End Pools.

Module Server.
Import Packet Pools.

(** [tunnelKey]: the text of the peer's address is determined by its 16-byte form
    and port. *)
Abbreviation tunnelKey := (bytes * Z * Z)%type.

Definition key_of (addr : UDPAddr) (remoteTID : Z) : tunnelKey := (To16 (IP addr), Port addr, remoteTID).

(** What the server does to the outside: [ResponseSender] and [TUNWriter]. *)
Inductive event :=
  | Sent (data : bytes) (addr : UDPAddr)
  | TunWrite (data : bytes).

Section Server.
Context {P D : Type} `{AP : AddressPool P} {UD : Chap.UserDatabase D} (md5 : bytes -> bytes).

(** [objects] is the heap of tunnels; the other fields are the source's ([sender]
    and [tunWriter]: not nil; [ctx]: started). *)
Record Server := mkServer {
  objects : list Tunnel.Tunnel;
  tunnels : gmap tunnelKey nat;
  tunnelsByLocalID : gmap Z nat;
  pool : option P;
  userDB : D;
  hostname : bytes;
  gatewayIP : bytes;
  dns1 : bytes;
  dns2 : bytes;
  sender : bool;
  tunWriter : bool;
  nextTunnelID : Z;
  ctx : bool
}.

Definition with_objects (s : Server) (o : list Tunnel.Tunnel) : Server :=
  mkServer o (tunnels s) (tunnelsByLocalID s) (pool s) (userDB s) (hostname s) (gatewayIP s) (dns1 s)
    (dns2 s) (sender s) (tunWriter s) (nextTunnelID s) (ctx s).
Definition with_maps (s : Server) (t : gmap tunnelKey nat) (b : gmap Z nat) : Server :=
  mkServer (objects s) t b (pool s) (userDB s) (hostname s) (gatewayIP s) (dns1 s)
    (dns2 s) (sender s) (tunWriter s) (nextTunnelID s) (ctx s).
Definition with_pool (s : Server) (p : option P) : Server :=
  mkServer (objects s) (tunnels s) (tunnelsByLocalID s) p (userDB s) (hostname s) (gatewayIP s) (dns1 s)
    (dns2 s) (sender s) (tunWriter s) (nextTunnelID s) (ctx s).
Definition with_userDB (s : Server) (db : D) : Server :=
  mkServer (objects s) (tunnels s) (tunnelsByLocalID s) (pool s) db (hostname s) (gatewayIP s) (dns1 s)
    (dns2 s) (sender s) (tunWriter s) (nextTunnelID s) (ctx s).
Definition with_nextTunnelID (s : Server) (n : Z) : Server :=
  mkServer (objects s) (tunnels s) (tunnelsByLocalID s) (pool s) (userDB s) (hostname s) (gatewayIP s)
    (dns1 s) (dns2 s) (sender s) (tunWriter s) n (ctx s).
Definition with_ctx (s : Server) : Server :=
  mkServer (objects s) (tunnels s) (tunnelsByLocalID s) (pool s) (userDB s) (hostname s) (gatewayIP s)
    (dns1 s) (dns2 s) (sender s) (tunWriter s) (nextTunnelID s) true.

Record ServerConfig := mkConfig {
  cfg_Hostname : bytes;
  cfg_GatewayIP : bytes;
  cfg_DNS1 : bytes;
  cfg_DNS2 : bytes;
  cfg_Pool : option P;
  cfg_UserDB : D;
  cfg_Sender : bool;
  cfg_TUNWriter : bool
}.

Definition NewServer (cfg : ServerConfig) : Server :=
  mkServer [] ∅ ∅ (cfg_Pool cfg) (cfg_UserDB cfg) (cfg_Hostname cfg) (cfg_GatewayIP cfg) (cfg_DNS1 cfg)
    (cfg_DNS2 cfg) (cfg_Sender cfg) (cfg_TUNWriter cfg) 1 false.

Definition Start (s : Server) : Server := with_ctx s.

(** The closure given to a tunnel as its [sendFunc]. *)
Definition emit (s : Server) (addr : UDPAddr) (out : list bytes) : list event :=
  if sender s then (fun d => Sent d addr) <$> out else [].

Definition set_tunnel (s : Server) (l : nat) (t : Tunnel.Tunnel) : Server :=
  with_objects s (<[l := t]> (objects s)).

Definition allocateIP (s : Server) : res (Server * bytes) :=
  match pool s with
  | None => Ok (s, [])
  | Some p =>
    match ap_Allocate p with
    | (p, Ok ip) => Ok (with_pool s (Some p), ip)
    | (p, Err _) => Ok (with_pool s (Some p), [])
    | (_, Panic) => Panic
    end
  end.

Definition releaseIP (s : Server) (ip : bytes) : res Server :=
  match pool s, ip with
  | None, _ => Ok s
  | _, [] => Ok s
  | Some p, _ =>
    match ap_Release p ip with
    | (_, Panic) => Panic
    | (p, _) => Ok (with_pool s (Some p))
    end
  end.

Fixpoint releaseAll (s : Server) (ips : list bytes) : res Server :=
  match ips with
  | [] => Ok s
  | ip :: ips => s ← releaseIP s ip; releaseAll s ips
  end.

Definition forwardToTUN (s : Server) (data : bytes) : list event :=
  if negb (tunWriter s) || (len data =? 0) then [] else [TunWrite data].

(** A tunnel is entered under one key, when it is made, so the loop that deletes the
    first entry holding it deletes every such entry. *)
Definition removeTunnel (s : Server) (l : nat) (t : Tunnel.Tunnel) : Server :=
  with_maps s (filter (fun kv => kv.2 <> l) (tunnels s))
    (delete (Tunnel.localTunnelID t) (tunnelsByLocalID s)).

Definition TunnelCount (s : Server) : Z := Z.of_nat (base.size (tunnels s)).

(** [sess.SendData(resp)] for each response. *)
Fixpoint sendResponses (t : Tunnel.Tunnel) (sess : Session.Session) (rs : list bytes) : res (list bytes) :=
  match rs with
  | [] => Ok []
  | f :: rs =>
    o ← Session.SendData (Tunnel.remoteTunnelID t) sess f;
    out ← sendResponses t sess rs;
    Ok (match o with Some pkt => pkt :: out | None => out end)
  end.

Definition handleNewTunnel (now : Z) (s : Server) (hdr : Header) (payload : bytes) (peerAddr : UDPAddr) :
    res (Server * list event) :=
  match ParseAVPs payload with
  | Panic => Panic
  | Err _ => Ok (s, [])
  | Ok avps =>
    msgType ← GetMessageType avps;
    if negb (msgType =? MsgSCCRQ) then Ok (s, [])
    else
      let n := u32 (nextTunnelID s + 1) in
      let n := if u16 n =? 0 then u32 (n + 1) else n in
      let localTID := u16 n in
      let s := with_nextTunnelID s n in
      let tunnel := Tunnel.newTunnel now localTID peerAddr in
      let '(cc, _) := Control.Receive (Tunnel.control tunnel) (Ns hdr) (Nr hdr) false in
      let tunnel := Tunnel.with_control tunnel cc in
      '(tunnel, out, r) ← Tunnel.HandleSCCRQ now tunnel avps (hostname s);
      match r with
      | Panic => Panic
      | Err _ => Ok (s, emit s peerAddr out)
      | Ok _ =>
        remoteTID ← GetAVPUint16 avps AVPAssignedTunnelID;
        let key := key_of peerAddr (default 0 remoteTID) in
        let l := length (objects s) in
        let tunnel := Tunnel.with_running tunnel (ctx s) in
        let s := with_objects s (objects s ++ [tunnel]) in
        let s := with_maps s (<[key := l]> (tunnels s)) (<[localTID := l]> (tunnelsByLocalID s)) in
        zlb ← Control.SendZLB (Tunnel.control tunnel);
        Ok (s, emit s peerAddr (out ++ [zlb]))
      end
  end.

(** The case [MsgICCN] after [HandleICCN] has succeeded. *)
Definition startPPP (now : Z) (r : rng) (s : Server) (l : nat) (t : Tunnel.Tunnel) (sid : Z) :
    res (Server * list bytes) :=
  match Tunnel.GetSession t sid with
  | None => Ok (set_tunnel s l t, [])
  | Some sess =>
    '(s, ip) ← allocateIP s;
    match ip with
    | [] =>
      '(t, out, ips) ← Tunnel.SendCDN now t (Session.localSessionID sess) 4;
      s ← releaseAll (set_tunnel s l t) ips;
      Ok (s, out)
    | _ =>
      '(sess, _, lcpReq) ← Session.InitPPP r sess (hostname s) ip (gatewayIP s) (dns1 s) (dns2 s);
      let t := Tunnel.with_sessions t (<[sid := sess]> (Tunnel.sessions t)) in
      out ← sendResponses t sess [lcpReq];
      Ok (set_tunnel s l t, out)
    end
  end.

(** [routeControlMessage]: the datagrams for the tunnel's peer are returned. *)
Definition routeControlMessage (now : Z) (r : rng) (s : Server) (l : nat) (t : Tunnel.Tunnel) (hdr : Header)
    (msgType : Z) (avps : list AVP) : res (Server * list bytes) :=
  if msgType =? MsgSCCCN then
    let '(t, _) := Tunnel.HandleSCCCN t in Ok (set_tunnel s l t, [])
  else if msgType =? MsgICRQ then
    '(t, out, e) ← Tunnel.HandleICRQ now t avps;
    match e with
    | Ok _ =>
      zlb ← Control.SendZLB (Tunnel.control t);
      Ok (set_tunnel s l t, out ++ [zlb])
    | _ => Ok (set_tunnel s l t, out)
    end
  else if msgType =? MsgICCN then
    let '(t, e) := Tunnel.HandleICCN t (SessionID hdr) in
    match e with
    | Ok _ => startPPP now r s l t (SessionID hdr)
    | _ => Ok (set_tunnel s l t, [])
    end
  else if msgType =? MsgHello then Ok (set_tunnel s l (Tunnel.HandleHello now t), [])
  else if msgType =? MsgCDN then
    '(t, ips) ← Tunnel.HandleCDN t avps;
    s ← releaseAll (set_tunnel s l t) ips;
    Ok (s, [])
  else if msgType =? MsgStopCCN then
    '(t, out, ips) ← Tunnel.HandleStopCCN t;
    s ← releaseAll (set_tunnel s l t) ips;
    Ok (removeTunnel s l t, out)
  else Ok (set_tunnel s l t, []).

Definition handleControlMessage (now : Z) (r : rng) (s : Server) (hdr : Header) (payload : bytes)
    (peerAddr : UDPAddr) : res (Server * list event) :=
  if TunnelID hdr =? 0 then handleNewTunnel now s hdr payload peerAddr
  else
    match tunnelsByLocalID s !! TunnelID hdr with
    | None => Ok (s, [])
    | Some l =>
      match objects s !! l with
      | None => Panic
      | Some t =>
        let t := Tunnel.with_lastActivity t now in
        let isZLB := len payload =? 0 in
        let '(cc, inOrder) := Control.Receive (Tunnel.control t) (Ns hdr) (Nr hdr) isZLB in
        let t := Tunnel.with_control t cc in
        zlb ← Control.SendZLB cc;
        let ack := emit s (Tunnel.peerAddr t) [zlb] in
        if negb (inOrder : bool) then Ok (set_tunnel s l t, ack)
        else
          match ParseAVPs payload with
          | Panic => Panic
          | Err _ => Ok (set_tunnel s l t, ack)
          | Ok avps =>
            msgType ← GetMessageType avps;
            '(s', out) ← routeControlMessage now r s l t hdr msgType avps;
            Ok (s', ack ++ emit s (Tunnel.peerAddr t) out)
          end
      end
    end.

Definition handleDataMessage (now : Z) (r : rng) (s : Server) (hdr : Header) (payload : bytes) :
    res (Server * list event) :=
  match tunnelsByLocalID s !! TunnelID hdr with
  | None => Ok (s, [])
  | Some l =>
    match objects s !! l with
    | None => Panic
    | Some t =>
      let t := Tunnel.with_lastActivity t now in
      match Tunnel.GetSession t (SessionID hdr) with
      | None => Ok (set_tunnel s l t, [])
      | Some sess =>
        '(sess, responses, tun) ← Session.HandleData md5 r (userDB s) sess payload;
        let t := Tunnel.with_sessions t (<[SessionID hdr := sess]> (Tunnel.sessions t)) in
        out ← sendResponses t sess responses;
        Ok (set_tunnel s l t,
            (match tun with Some d => forwardToTUN s d | None => [] end) ++
            emit s (Tunnel.peerAddr t) out)
      end
    end
  end.

Definition HandlePacket (now : Z) (r : rng) (s : Server) (data : bytes) (peerAddr : UDPAddr) :
    res (Server * list event) :=
  match ParseHeader data with
  | Panic => Panic
  | Err _ => Ok (s, [])
  | Ok (hdr, payload) =>
    if IsControl hdr then handleControlMessage now r s hdr payload peerAddr
    else handleDataMessage now r s hdr payload
  end.

(** The tickers of one tunnel's goroutine. *)
Definition tick (f : Tunnel.Tunnel -> res (Tunnel.Tunnel * list bytes)) (s : Server) (l : nat) :
    res (Server * list event) :=
  match objects s !! l with
  | None => Ok (s, [])
  | Some t =>
    '(t', out) ← f t;
    Ok (set_tunnel s l t', emit s (Tunnel.peerAddr t) out)
  end.

(** The loop of [Close] over the registered tunnels. *)
Fixpoint closeTunnels (now : Z) (s : Server) (ls : list nat) : res (Server * list event) :=
  match ls with
  | [] => Ok (s, [])
  | l :: ls =>
    match objects s !! l with
    | None => Panic
    | Some t =>
      '(t', out, ips) ← Tunnel.Close now t;
      s ← releaseAll (set_tunnel s l t') ips;
      '(s, evs) ← closeTunnels now s ls;
      Ok (s, emit s (Tunnel.peerAddr t) out ++ evs)
    end
  end.

Definition Close (now : Z) (s : Server) : res (Server * list event) :=
  '(s, evs) ← closeTunnels now s ((map_to_list (tunnels s)).*2);
  Ok (with_maps s ∅ ∅, evs).

(** ** Invariants *)

(** [se] is the session [sid] of the tunnel at [l]. *)
Definition sess_at (o : list Tunnel.Tunnel) (l : nat) (sid : Z) (se : Session.Session) : Prop :=
  exists t, o !! l = Some t /\ Tunnel.sessions t !! sid = Some se.

(** No session has the address [ip]. *)
Definition unowned (s : Server) (ip : bytes) : Prop :=
  forall l sid se, sess_at (objects s) l sid se -> Session.assignedIP se <> ip.

Definition sess_ok (se : Session.Session) : Prop :=
  Session.session_ok se /\ Session.state se <> Session.SessionClosed.

Definition pool_holds `{!AddressPoolLaws P} (p : option P) (held : gset bytes) : Prop :=
  match p with Some p => ap_holds p held | None => held = ∅ end.

Context `{APL : !AddressPoolLaws P}.

Record server_ok (s : Server) (held : gset bytes) : Prop := {
  sv_name : Session.good_name (hostname s);
  sv_dns1 : dns1 s <> [] -> Ipcp.good_ip (dns1 s);
  sv_dns2 : dns2 s <> [] -> Ipcp.good_ip (dns2 s);
  sv_ids : forall tid l, tunnelsByLocalID s !! tid = Some l -> (l < length (objects s))%nat;
  sv_keys : forall k l, tunnels s !! k = Some l -> (l < length (objects s))%nat;
  sv_pool : pool_holds (pool s) held;
  sv_sess : forall l sid se, sess_at (objects s) l sid se -> sess_ok se;
  sv_held : forall l sid se, sess_at (objects s) l sid se -> Session.assignedIP se <> [] ->
    Session.assignedIP se ∈ held;
  sv_unique : forall l sid se l' sid' se',
    sess_at (objects s) l sid se -> sess_at (objects s) l' sid' se' ->
    Session.assignedIP se = Session.assignedIP se' -> Session.assignedIP se <> [] -> l = l' /\ sid = sid'
}.

(** Where a session of an updated tunnel comes from: it is one of before, with the
    same address and past authentication only as [evolves] allows, or one whose PPP
    is at its start, without an address or with the [fresh] one. *)
Definition succeeds (login : Chap.CHAPHandler -> bytes -> Prop) (se se' : Session.Session) : Prop :=
  Session.assignedIP se' = Session.assignedIP se /\
  (Session.PPPPhaseIPCP <= Session.pppPhase se' ->
   (Session.PPPPhaseIPCP <= Session.pppPhase se /\
    Session.chapHandler se' = Session.chapHandler se /\ Session.username se' = Session.username se) \/
   exists c, login c (Session.username se') /\
     Session.chapHandler se' = Some (Chap.authenticate c (Session.username se'))).

Definition origin (login : Z -> Chap.CHAPHandler -> bytes -> Prop) (fresh : option (Z * bytes))
    (m : gmap Z Session.Session) (sid : Z) (se' : Session.Session) : Prop :=
  (exists se, m !! sid = Some se /\ succeeds (login sid) se se') \/
  (Session.pppPhase se' = Session.PPPPhaseLCP /\
   (Session.assignedIP se' = [] \/ fresh = Some (sid, Session.assignedIP se'))).

Definition no_login (_ : Z) (_ : Chap.CHAPHandler) (_ : bytes) : Prop := False.

Lemma succeeds_refl login se : succeeds login se se.
Proof. split; [done|]. auto. Qed.

Lemma evolves_succeeds login se se' :
  Session.evolves login se se' ->
  succeeds (fun c name => Session.chapHandler se = Some c /\ Session.pppPhase se = Session.PPPPhaseCHAP /\
                          login c name) se se'.
Proof.
  intros []. split; [done|]. intros Hp. destruct (ev_login Hp) as [H|(c & H1 & H2 & H3 & H4)].
  - left. destruct (ev_kept H). auto.
  - right. exists c. auto.
Qed.

Lemma sess_at_set o l t t' l' sid se :
  o !! l = Some t ->
  sess_at (<[l := t']> o) l' sid se <->
  (l' = l /\ Tunnel.sessions t' !! sid = Some se) \/ (l' <> l /\ sess_at o l' sid se).
Proof.
  intros Hl. pose proof (lookup_lt_Some _ _ _ Hl) as Hlt. unfold sess_at.
  destruct (decide (l' = l)) as [->|Hne].
  - rewrite list_lookup_insert_eq by done. naive_solver.
  - rewrite list_lookup_insert_ne by done. naive_solver.
Qed.

Lemma server_ok_update login fresh s held l t t' :
  server_ok s held -> objects s !! l = Some t ->
  (forall sid se', Tunnel.sessions t' !! sid = Some se' ->
     sess_ok se' /\ origin login fresh (Tunnel.sessions t) sid se') ->
  (forall sid ip, fresh = Some (sid, ip) -> ip ∈ held /\ unowned s ip) ->
  server_ok (set_tunnel s l t') held.
Proof.
  intros [] Hl Ht' Hfresh. split; cbn [set_tunnel with_objects hostname dns1 dns2 tunnels tunnelsByLocalID
    pool objects]; try done; try (intros; rewrite length_insert; eauto).
  - intros l' sid se. rewrite (sess_at_set _ _ t) by done.
    intros [[-> H]|[_ H]]; [by apply (Ht' sid se)|by eapply sv_sess0].
  - intros l' sid se. rewrite (sess_at_set _ _ t) by done. intros [[-> H]|[_ H]] Hne; [|by eapply sv_held0].
    destruct (Ht' sid se H) as (_ & [(se0 & H0 & E & _)|(_ & [?|E])]); [|done|by apply Hfresh in E as [? _]].
    rewrite E in Hne |- *. eapply sv_held0; [|done]. by exists t.
  - assert (forall l0 sid0 se0, sess_at (<[l := t']> (objects s)) l0 sid0 se0 -> Session.assignedIP se0 <> [] ->
      (exists se1, sess_at (objects s) l0 sid0 se1 /\ Session.assignedIP se1 = Session.assignedIP se0) \/
      (l0 = l /\ fresh = Some (sid0, Session.assignedIP se0))) as Hsrc.
    { intros l0 sid0 se0. rewrite (sess_at_set _ _ t) by done. intros [[-> H]|[_ H]] Hne; [|left; eauto].
      destruct (Ht' sid0 se0 H) as (_ & [(se1 & H1 & E & _)|(_ & [?|E])]); [|done|by right].
      left. exists se1. split; [by exists t|done]. }
    intros l1 sid1 se1 l2 sid2 se2 H1 H2 E Hne.
    destruct (Hsrc _ _ _ H1 Hne) as [(a & Ha & Ea)|[-> F1]];
      destruct (Hsrc _ _ _ H2 ltac:(congruence)) as [(b & Hb & Eb)|[-> F2]].
    + eapply sv_unique0; [exact Ha|exact Hb|congruence|congruence].
    + destruct (Hfresh _ _ F2) as [_ Hu]. destruct (Hu _ _ _ Ha). congruence.
    + destruct (Hfresh _ _ F1) as [_ Hu]. destruct (Hu _ _ _ Hb). congruence.
    + split; [done|]. congruence.
Qed.

Lemma server_ok_pool s held p held' :
  server_ok s held -> pool_holds p held' ->
  (forall l sid se, sess_at (objects s) l sid se -> Session.assignedIP se <> [] ->
     Session.assignedIP se ∈ held') ->
  server_ok (with_pool s p) held'.
Proof. intros [] Hp Hh. split; try done. Qed.

Lemma allocateIP_ok s held :
  server_ok s held ->
  exists p ip held', allocateIP s = Ok (with_pool s p, ip) /\ server_ok (with_pool s p) held' /\
    (ip = [] \/ (address ip /\ ip ∈ held' /\ unowned s ip)).
Proof.
  intros Hs. pose proof (sv_pool s held Hs) as Hp. unfold allocateIP.
  destruct (pool s) as [p|] eqn:E; cbn in Hp.
  - pose proof (ap_Allocate_ok p held Hp) as H. destruct (ap_Allocate p) as [p' [ip|e|]]; [| |done].
    + destruct H as (Ha & Hni & H'). exists (Some p'), ip, ({[ip]} ∪ held). split; [done|]. split.
      * apply (server_ok_pool s held); [done|done|]. intros l sid se H1 H2.
        apply elem_of_union_r. by eapply (sv_held s held).
      * right. split; [done|]. split; [set_solver|]. intros l sid se H1 E'. apply Hni. rewrite <- E'.
        eapply (sv_held s held); [done|exact H1|]. rewrite E'. destruct Ha as [Ha _]. by intros ->.
    + exists (Some p'), [], held. split; [done|]. split; [|by left].
      apply (server_ok_pool s held); [done|done|]. intros. by eapply (sv_held s held).
  - exists None, [], held. assert (with_pool s None = s) as -> by (destruct s; cbn in E; by subst).
    split; [done|]. split; [done|by left].
Qed.

Lemma releaseIP_ok s held ip :
  server_ok s held -> ip = [] \/ (ip ∈ held /\ unowned s ip) ->
  exists p, releaseIP s ip = Ok (with_pool s p) /\
    server_ok (with_pool s p) (if decide (ip = []) then held else held ∖ {[ip]}).
Proof.
  intros Hs Hip. pose proof (sv_pool s held Hs) as Hp.
  assert (with_pool s (pool s) = s) as Hid by by destruct s.
  unfold releaseIP. destruct (pool s) as [p|] eqn:E; cbn in Hp.
  - destruct ip as [|b ip]; [exists (Some p); rewrite Hid; by case_decide|].
    destruct Hip as [?|[Hin Hu]]; [done|]. rewrite decide_False by done.
    destruct (ap_Release_ok p held (b :: ip) Hp Hin) as (p' & -> & H'). exists (Some p'). split; [done|].
    apply (server_ok_pool s held); [done|done|]. intros l sid se H1 H2.
    apply elem_of_difference. split; [by eapply (sv_held s held)|]. rewrite elem_of_singleton. by apply (Hu l sid).
  - exists None. rewrite Hid. split; [by destruct ip|].
    destruct Hip as [->|[Hin _]]; [by rewrite decide_True|]. subst held. set_solver.
Qed.

(** Addresses given back together: held, owned by nobody and different. *)
Lemma releaseAll_ok s held ips :
  server_ok s held -> Forall (fun ip => ip = [] \/ (ip ∈ held /\ unowned s ip)) ips ->
  NoDup (filter (fun ip => ip <> []) ips) ->
  exists p held', releaseAll s ips = Ok (with_pool s p) /\ server_ok (with_pool s p) held'.
Proof.
  revert s held. induction ips as [|ip ips IH]; intros s held Hs Hf Hnd.
  - exists (pool s), held. assert (with_pool s (pool s) = s) as -> by by destruct s. by split.
  - apply Forall_cons in Hf as [Hip Hf]. cbn [releaseAll].
    destruct (releaseIP_ok s held ip Hs Hip) as (p & -> & Hs'). rewrite bind_Ok.
    destruct (IH (with_pool s p) _ Hs') as (p' & held' & E & Hs'').
    + rewrite filter_cons in Hnd. rewrite Forall_forall in Hf |- *. intros ip' Hin.
      destruct (Hf ip' Hin) as [?|[H1 H2]]; [by left|]. right. split; [|exact H2].
      case_decide; [done|]. apply elem_of_difference. split; [done|]. rewrite elem_of_singleton. intros ->.
      rewrite decide_True in Hnd by done.
      apply NoDup_cons in Hnd as [Hn _]. apply Hn, list_elem_of_filter. by split.
    + rewrite filter_cons in Hnd. destruct (decide (ip <> [])); [by apply NoDup_cons in Hnd as [_ ?]|done].
    + exists p', held'. by split.
Qed.

(** Sessions closed together: their addresses go back to the pool. *)
Lemma server_ok_close s held l t t' ips :
  server_ok s held -> objects s !! l = Some t ->
  (forall sid se, Tunnel.sessions t' !! sid = Some se -> Tunnel.sessions t !! sid = Some se) ->
  (forall ip, ip ∈ ips -> ip = [] \/ exists sid se, Tunnel.sessions t !! sid = Some se /\
     Tunnel.sessions t' !! sid = None /\ ip = Session.assignedIP se) ->
  NoDup (filter (fun ip => ip <> []) ips) ->
  exists p held', releaseAll (set_tunnel s l t') ips = Ok (with_pool (set_tunnel s l t') p) /\
    server_ok (with_pool (set_tunnel s l t') p) held'.
Proof.
  intros Hs Hl Hsub Hips Hnd.
  assert (server_ok (set_tunnel s l t') held) as Hs'.
  { apply (server_ok_update no_login None s held l t t'); [done|done| |done].
    intros sid se H. split; [eapply (sv_sess s held Hs l sid); exists t; by auto|].
    left. exists se. split; [by apply Hsub|apply succeeds_refl]. }
  apply (releaseAll_ok _ held); [done| |done].
  apply Forall_forall. intros ip Hin. destruct (decide (ip = [])) as [|Hne]; [by left|]. right.
  destruct (Hips ip Hin) as [|(sid & se & H1 & H2 & ->)]; [done|].
  assert (sess_at (objects s) l sid se) as Hat by (by exists t).
  split; [by eapply (sv_held s held)|]. intros l' sid' se' H' E.
  cbn [set_tunnel with_objects objects] in H'. rewrite (sess_at_set _ _ t) in H' by done.
  assert (sess_at (objects s) l' sid' se') as Hat'.
  { destruct H' as [[-> H']|[_ H']]; [|done]. exists t. by auto. }
  destruct (sv_unique s held Hs _ _ _ _ _ _ Hat Hat') as [<- <-]; [done|done|].
  destruct H' as [[_ H']|[? _]]; [congruence|done].
Qed.

Lemma close_ip se : sess_ok se -> (Session.close se).2 = Session.assignedIP se.
Proof.
  intros [_ H]. unfold Session.close. by destruct (Z.eqb_spec (Session.state se) Session.SessionClosed).
Qed.

Lemma server_ok_close_session s held l t0 t cc sid :
  server_ok s held -> objects s !! l = Some t0 -> Tunnel.sessions t = Tunnel.sessions t0 ->
  let t' := Tunnel.with_control (Tunnel.close_session t sid).1 cc in
  exists p held', releaseAll (set_tunnel s l t') (Tunnel.close_session t sid).2 =
      Ok (with_pool (set_tunnel s l t') p) /\ server_ok (with_pool (set_tunnel s l t') p) held'.
Proof.
  intros Hs Hl Hm t'. apply (server_ok_close s held l t0); [done|done| | |]; rewrite <- ?Hm;
    unfold t', Tunnel.close_session; destruct (Tunnel.sessions t !! sid) as [se|] eqn:E; cbn.
  - intros sid' se' [_ H]%lookup_delete_Some. done.
  - done.
  - intros ip ->%list_elem_of_singleton. right. exists sid, se. split_and!; [done|by rewrite lookup_delete_eq|].
    apply close_ip, (sv_sess s held Hs l sid). exists t0. by rewrite <- Hm.
  - by intros ip ?%elem_of_nil.
  - case_decide; [|constructor]. apply NoDup_singleton.
  - constructor.
Qed.

Lemma NoDup_ips (L : list (Z * Session.Session)) :
  NoDup L.*1 ->
  (forall p q, p ∈ L -> q ∈ L -> Session.assignedIP p.2 = Session.assignedIP q.2 ->
     Session.assignedIP p.2 <> [] -> p.1 = q.1) ->
  NoDup (filter (fun ip => ip <> []) ((fun p => Session.assignedIP p.2) <$> L)).
Proof.
  induction L as [|p L IH]; intros Hnd Hinj; [constructor|]. apply NoDup_cons in Hnd as [Hn Hnd].
  rewrite fmap_cons, filter_cons.
  assert (NoDup (filter (fun ip => ip <> []) ((fun p => Session.assignedIP p.2) <$> L))) as IH'.
  { apply IH; [done|]. intros a b Ha Hb. apply Hinj; by apply list_elem_of_further. }
  case_decide as Hne; [|done]. apply NoDup_cons. split; [|done].
  intros [_ (q & E & Hq)%list_elem_of_fmap]%list_elem_of_filter. apply Hn.
  rewrite (Hinj p q); [|set_solver|set_solver|done|done]. apply list_elem_of_fmap. by exists q.
Qed.

Lemma server_ok_close_all s held l t0 t t' :
  server_ok s held -> objects s !! l = Some t0 -> Tunnel.sessions t = Tunnel.sessions t0 ->
  Tunnel.sessions t' = ∅ ->
  exists p held', releaseAll (set_tunnel s l t') (Tunnel.close_all t).2 =
      Ok (with_pool (set_tunnel s l t') p) /\ server_ok (with_pool (set_tunnel s l t') p) held'.
Proof.
  intros Hs Hl Hm Ht'.
  assert ((Tunnel.close_all t).2 = (fun p => Session.assignedIP p.2) <$> map_to_list (Tunnel.sessions t)) as E.
  { cbn. apply list_fmap_ext. intros i [sid se] Hi. cbn. apply close_ip, (sv_sess s held Hs l sid).
    exists t0. split; [done|]. rewrite <- Hm. apply elem_of_map_to_list. by eapply list_elem_of_lookup_2. }
  apply (server_ok_close s held l t0); [done|done| | |]; rewrite <- ?Hm, ?Ht', ?E.
  - intros sid se H. by rewrite lookup_empty in H.
  - intros ip ([sid se] & -> & Hin)%list_elem_of_fmap. right. exists sid, se.
    apply elem_of_map_to_list in Hin. by rewrite lookup_empty.
  - apply NoDup_ips; [apply NoDup_fst_map_to_list|]. intros [a sa] [b sb] Ha Hb. cbn. intros Eq Hne.
    apply elem_of_map_to_list in Ha, Hb.
    rewrite Hm in Ha, Hb.
    eapply (sv_unique s held Hs l a sa l b sb); [by exists t0|by exists t0|done|done].
Qed.

(** ** Steps *)

(** A step keeps the invariant, and a session past authentication in the new state
    was there before or has just logged in. *)
Record good_step (login : nat -> Z -> Chap.CHAPHandler -> bytes -> Prop) (s s' : Server) : Prop := {
  gs_ok : exists held', server_ok s' held';
  gs_sess : forall l sid se', sess_at (objects s') l sid se' ->
    (exists se, sess_at (objects s) l sid se /\ succeeds (login l sid) se se') \/
    Session.pppPhase se' < Session.PPPPhaseIPCP
}.

Definition nobody (_ : nat) : Z -> Chap.CHAPHandler -> bytes -> Prop := no_login.

Lemma good_step_id login s held s' :
  server_ok s' held -> objects s' = objects s -> good_step login s s'.
Proof.
  intros H E. split; [eauto|]. intros l sid se. rewrite E. left. exists se. split; [done|apply succeeds_refl].
Qed.

(** Replacing one tunnel, then changing anything but the heap. *)
Lemma good_step_set login s held l t0 t' fresh s' :
  server_ok s held -> objects s !! l = Some t0 ->
  (forall sid se', Tunnel.sessions t' !! sid = Some se' ->
     sess_ok se' /\ origin (login l) fresh (Tunnel.sessions t0) sid se') ->
  objects s' = <[l := t']> (objects s) -> (exists held', server_ok s' held') ->
  good_step login s s'.
Proof.
  intros Hs Hl Ht' E Hok. split; [done|]. intros l' sid se'. rewrite E, (sess_at_set _ _ t0) by done.
  intros [[-> H]|[_ H]]; [|left; exists se'; split; [done|apply succeeds_refl]].
  destruct (Ht' sid se' H) as (_ & [(se & H1 & H2)|(H1 & _)]); [|right; by rewrite H1].
  left. exists se. split; [by exists t0|done].
Qed.

Lemma origin_same login fresh (m m' : gmap Z Session.Session) :
  (forall sid se, m' !! sid = Some se -> m !! sid = Some se /\ sess_ok se) ->
  forall sid se', m' !! sid = Some se' -> sess_ok se' /\ origin login fresh m sid se'.
Proof.
  intros Hm sid se H. destruct (Hm sid se H) as [H' ?]. split; [done|]. left. exists se.
  split; [done|apply succeeds_refl].
Qed.

Lemma sess_ok_at s held l t0 sid se :
  server_ok s held -> objects s !! l = Some t0 -> Tunnel.sessions t0 !! sid = Some se -> sess_ok se.
Proof. intros Hs Hl H. eapply (sv_sess s held Hs l sid). by exists t0. Qed.

(** A change of the tunnel that leaves its sessions. *)
Lemma good_step_same login s held l t0 t' :
  server_ok s held -> objects s !! l = Some t0 -> Tunnel.sessions t' = Tunnel.sessions t0 ->
  good_step login s (set_tunnel s l t').
Proof.
  intros Hs Hl Hm.
  assert (forall sid se', Tunnel.sessions t' !! sid = Some se' ->
    sess_ok se' /\ origin (login l) None (Tunnel.sessions t0) sid se') as H.
  { apply origin_same. rewrite Hm. intros sid se ?. split; [done|]. by eapply sess_ok_at. }
  apply (good_step_set login s held l t0 t' None); try done.
  exists held. by apply (server_ok_update (login l) None s held l t0).
Qed.

Lemma sendResponses_ok t se rs : exists out, sendResponses t se rs = Ok out.
Proof.
  induction rs as [|f rs [out IH]]; cbn [sendResponses]; [eauto|].
  assert (exists o, Session.SendData (Tunnel.remoteTunnelID t) se f = Ok o) as [o ->].
  { unfold Session.SendData. case_match; [eauto|]. rewrite BuildDataHeader_ok, bind_Ok.
    pose proof (len_nonneg f). match goal with |- context [copy_at (make (len ?h + _)) 0 _] => set (hd := h) end.
    assert (len hd = 6) as Hh by reflexivity. rewrite (fill_start (_ + _)). fill_step. cbn [app].
    rewrite fill_copy, bind_Ok by lia. eauto. }
  rewrite bind_Ok, IH, bind_Ok. eauto.
Qed.

Lemma set_tunnel_twice s l t t' : set_tunnel (set_tunnel s l t) l t' = set_tunnel s l t'.
Proof. unfold set_tunnel, with_objects. cbn. by rewrite list_insert_insert_eq. Qed.

Lemma address_good_ip ip : address ip -> Ipcp.good_ip ip.
Proof. intros (Hl & Hwf & Hz). split; [done|]. exists ip. split; [by apply To4_4|done]. Qed.

Lemma good_step_weaken login s s' : good_step nobody s s' -> good_step login s s'.
Proof.
  intros [Hok Hs]. split; [done|]. intros l sid se' H. destruct (Hs l sid se' H) as [(se & H1 & E & H2)|H1]; [|by right].
  left. exists se. split; [done|]. split; [done|]. intros Hp. destruct (H2 Hp) as [?|(c & [] & _)]. by left.
Qed.

(** The sessions of a tunnel with one of them replaced. *)
Lemma origin_insert login fresh t0 sid se m :
  m = <[sid := se]> (Tunnel.sessions t0) -> sess_ok se -> origin login fresh (Tunnel.sessions t0) sid se ->
  (forall sid' se', Tunnel.sessions t0 !! sid' = Some se' -> sess_ok se') ->
  forall sid' se', m !! sid' = Some se' -> sess_ok se' /\ origin login fresh (Tunnel.sessions t0) sid' se'.
Proof.
  intros -> Hse Ho H0 sid' se' [[<- <-]|[Hne H]]%lookup_insert_Some; [done|]. split; [by eapply H0|].
  left. exists se'. split; [done|apply succeeds_refl].
Qed.

Lemma with_state_ok se st :
  Session.session_ok se -> st <> Session.SessionClosed -> sess_ok (Session.with_state se st).
Proof. intros [] ?. split; [by split|done]. Qed.

Lemma startPPP_ok now r s held l t0 t sid se :
  server_ok s held -> objects s !! l = Some t0 -> Tunnel.sessions t0 !! sid = Some se ->
  Tunnel.sessions t = <[sid := Session.with_state se Session.SessionEstablished]> (Tunnel.sessions t0) ->
  exists s' out, startPPP now r s l t sid = Ok (s', out) /\ good_step nobody s s'.
Proof.
  intros Hs Hl Hse Ht. set (se1 := Session.with_state se _) in *.
  pose proof (sess_ok_at s held l t0 sid se Hs Hl Hse) as [Hok Hst].
  assert (sess_ok se1) as Hok1 by by apply with_state_ok.
  assert (forall sid' se', Tunnel.sessions t0 !! sid' = Some se' -> sess_ok se') as H0
    by (intros; by eapply sess_ok_at).
  assert (succeeds (nobody l sid) se se1) as Hsucc by (split; [done|by left]).
  unfold startPPP, Tunnel.GetSession. rewrite Ht, lookup_insert_eq.
  destruct (allocateIP_ok s held Hs) as (p & ip & held' & -> & Hs' & Hip). rewrite bind_Ok.
  set (s1 := with_pool s p) in *. assert (objects s1 !! l = Some t0) as Hl1 by done.
  destruct ip as [|b ip'].
  - destruct (Tunnel.SendCDN_ok now t (Session.localSessionID se1) 4) as (cc & out & ->). rewrite bind_Ok.
    assert (forall sid' se', Tunnel.sessions t !! sid' = Some se' ->
      sess_ok se' /\ origin (nobody l) None (Tunnel.sessions t0) sid' se') as Hor.
    { eapply origin_insert; [exact Ht|done| |done]. left. eauto. }
    pose proof (server_ok_update (nobody l) None s1 held' l t0 t Hs' Hl1 Hor ltac:(done)) as Hs2.
    destruct (server_ok_close_session (set_tunnel s1 l t) held' l t t cc (Session.localSessionID se1) Hs2)
      as (p' & held'' & E & Hs3); [|done|].
    { cbn. apply list_lookup_insert_eq. by eapply lookup_lt_Some. }
    cbn zeta in E, Hs3. rewrite set_tunnel_twice in E, Hs3. rewrite E, bind_Ok. eexists _, _. split; [done|].
    set (t3 := Tunnel.with_control _ cc) in *.
    apply (good_step_set nobody s held l t0 t3 None); [done|done| |done|eauto].
    intros sid' se' H. apply Hor. unfold t3, Tunnel.close_session in H.
    destruct (Tunnel.sessions t !! Session.localSessionID se1); [|done].
    cbn in H. by apply lookup_delete_Some in H as [_ H].
  - destruct Hip as [?|(Ha & Hin & Hu)]; [done|]. set (ip := b :: ip') in *.
    destruct (Session.InitPPP_ok r se1 (hostname s1) ip (gatewayIP s1) (dns1 s1) (dns2 s1))
      as (se2 & r' & f & -> & Hok2 & E1 & _ & E3 & E4);
      [apply Hok1|apply Hs'|by apply address_good_ip|apply Hs'|apply Hs'|].
    rewrite bind_Ok. set (t2 := Tunnel.with_sessions t _).
    destruct (sendResponses_ok t2 se2 [f]) as [out ->]. rewrite bind_Ok. eexists _, _. split; [done|].
    assert (forall sid' se', Tunnel.sessions t2 !! sid' = Some se' ->
      sess_ok se' /\ origin (nobody l) (Some (sid, ip)) (Tunnel.sessions t0) sid' se') as Hor.
    { eapply (origin_insert _ _ t0 sid se2); [|split; [done|by rewrite E1]| |done].
      - unfold t2. cbn [Tunnel.sessions Tunnel.with_sessions]. by rewrite insert_insert_eq.
      - right. split; [done|]. right. by rewrite E3. }
    apply (good_step_set nobody s held l t0 t2 (Some (sid, ip))); [done|done|exact Hor|done|].
    exists held'. apply (server_ok_update (nobody l) (Some (sid, ip)) s1 held' l t0); [done|done|exact Hor|].
    intros ? ? [= <- <-]. by split.
Qed.

(** The sessions of the tunnel are those it has in the server: nothing is gained. *)
Lemma good_step_tunnel s held l t0 t t' :
  server_ok s held -> objects s !! l = Some t0 -> Tunnel.sessions t = Tunnel.sessions t0 ->
  Tunnel.sessions t' = Tunnel.sessions t -> good_step nobody s (set_tunnel s l t').
Proof. intros Hs Hl Hm E. apply (good_step_same nobody s held l t0); [done|done|congruence]. Qed.

Lemma route_ICRQ_ok now s held l t0 t avps t' out e :
  server_ok s held -> objects s !! l = Some t0 -> Tunnel.sessions t = Tunnel.sessions t0 ->
  Tunnel.HandleICRQ now t avps = Ok (t', out, e) -> good_step nobody s (set_tunnel s l t') /\ e <> Panic.
Proof.
  intros Hs Hl Hm H. destruct (Tunnel.HandleICRQ_ok now t avps) as (t1 & out1 & e1 & E1 & He & _ & _ & _ & Hse).
  rewrite H in E1. injection E1 as <- <- <-. split; [|by destruct e].
  destruct Hse as [E|(sid & rid & _ & _ & _ & _ & E)]; [by eapply good_step_tunnel|].
  assert (forall sid' se', Tunnel.sessions t' !! sid' = Some se' ->
    sess_ok se' /\ origin (nobody l) None (Tunnel.sessions t0) sid' se') as Hor.
  { eapply origin_insert; [by rewrite E, Hm| |right; auto|intros; by eapply sess_ok_at].
    split; [apply Session.newSession_ok|done]. }
  apply (good_step_set nobody s held l t0 t' None); [done|done|exact Hor|done|].
  exists held. by apply (server_ok_update (nobody l) None s held l t0).
Qed.

Lemma route_CDN_ok s held l t0 t avps :
  server_ok s held -> objects s !! l = Some t0 -> Tunnel.sessions t = Tunnel.sessions t0 ->
  exists t' ips s', Tunnel.HandleCDN t avps = Ok (t', ips) /\ releaseAll (set_tunnel s l t') ips = Ok s' /\ good_step nobody s s'.
Proof.
  intros Hs Hl Hm. unfold Tunnel.HandleCDN. destruct (GetAVPUint16_total avps AVPAssignedSessionID) as ([sid|] & ->); rewrite bind_Ok.
  2:{ eexists t, [], _. split; [done|]. split; [done|]. by eapply good_step_tunnel. }
  destruct (server_ok_close_session s held l t0 t (Tunnel.control t) sid Hs Hl Hm) as (p & held' & E & Hs').
  assert (Tunnel.with_control (Tunnel.close_session t sid).1 (Tunnel.control t) = (Tunnel.close_session t sid).1) as Eq.
  { unfold Tunnel.close_session. destruct (Tunnel.sessions t !! sid); by destruct t. }
  cbn zeta in E, Hs'. rewrite Eq in E, Hs'. destruct (Tunnel.close_session t sid) as [t' ips] eqn:Ec. cbn [fst snd] in *.
  eexists _, _, _. split; [done|]. split; [exact E|].
  apply (good_step_set nobody s held l t0 t' None); [done|done| |done|eauto].
  apply origin_same. intros sid' se' H.
  assert (Tunnel.sessions t !! sid' = Some se') as H'.
  { unfold Tunnel.close_session in Ec. destruct (Tunnel.sessions t !! sid); injection Ec as <- _; [|done].
    cbn in H. by apply lookup_delete_Some in H as [_ H]. }
  rewrite Hm in H'. split; [done|]. by apply (sess_ok_at s held l t0 sid').
Qed.

Lemma route_StopCCN_ok s held l t0 t :
  server_ok s held -> objects s !! l = Some t0 -> Tunnel.sessions t = Tunnel.sessions t0 ->
  exists t' out ips s', Tunnel.HandleStopCCN t = Ok (t', out, ips) /\ releaseAll (set_tunnel s l t') ips = Ok s' /\
    good_step nobody s (removeTunnel s' l t').
Proof.
  intros Hs Hl Hm. destruct (Tunnel.HandleStopCCN_ok t) as (zlb & E0). set (t' := Tunnel.with_sessions _ ∅) in E0.
  destruct (server_ok_close_all s held l t0 t t' Hs Hl Hm eq_refl) as (p & held' & E & Hs').
  eexists _, _, _, _. split; [exact E0|]. split; [exact E|].
  apply (good_step_set nobody s held l t0 t' None); [done|done| |done|].
  - cbn. intros sid se. by rewrite lookup_empty.
  - exists held'. destruct Hs'. split; try done; cbn in *.
    + intros tid l' [_ H]%lookup_delete_Some. by eapply sv_ids0.
    + intros k l' [H _]%map_lookup_filter_Some. by eapply sv_keys0.
Qed.

Lemma route_ok now r s held l t0 t hdr mt avps :
  server_ok s held -> objects s !! l = Some t0 -> Tunnel.sessions t = Tunnel.sessions t0 ->
  exists s' out, routeControlMessage now r s l t hdr mt avps = Ok (s', out) /\ good_step nobody s s'.
Proof.
  intros Hs Hl Hm. unfold routeControlMessage.
  assert (forall t', Tunnel.sessions t' = Tunnel.sessions t -> good_step nobody s (set_tunnel s l t')) as Hsame by (intros; by eapply good_step_tunnel).
  destruct (mt =? MsgSCCCN).
  { unfold Tunnel.HandleSCCCN. destruct (negb _); eexists _, _; (split; [done|by apply Hsame]). }
  destruct (mt =? MsgICRQ).
  { destruct (Tunnel.HandleICRQ_ok now t avps) as (t' & out & e & E & _). rewrite E, bind_Ok.
    destruct (route_ICRQ_ok now s held l t0 t avps t' out e Hs Hl Hm E) as [Hg He].
    destruct e; [rewrite Control.SendZLB_ok, bind_Ok|..|done]; eauto. }
  destruct (mt =? MsgICCN).
  { unfold Tunnel.HandleICCN. destruct (Tunnel.sessions t !! SessionID hdr) as [se|] eqn:E.
    - unfold Session.handleICCN. destruct (_ =? Session.SessionWaitConnect); cbn [negb].
      + rewrite Hm in E. eapply (startPPP_ok now r s held l t0); [done|done|exact E|by rewrite Hm].
      + eexists _, _. split; [done|]. apply Hsame. cbn. by apply insert_id.
    - eexists _, _. split; [done|]. by apply Hsame. }
  destruct (mt =? MsgHello); [eexists _, _; (split; [done|by apply Hsame])|].
  destruct (mt =? MsgCDN).
  { destruct (route_CDN_ok s held l t0 t avps Hs Hl Hm) as (t' & ips & s' & -> & E & Hg). rewrite bind_Ok, E, bind_Ok. eauto. }
  destruct (mt =? MsgStopCCN); [|eexists _, _; (split; [done|by apply Hsame])].
  destruct (route_StopCCN_ok s held l t0 t Hs Hl Hm) as (t' & out & ips & s' & -> & E & Hg). rewrite bind_Ok, E, bind_Ok. eauto.
Qed.

Lemma ParseHeader_suffix data hdr payload :
  bytes_wf data -> ParseHeader data = Ok (hdr, payload) ->
  bytes_wf payload /\ len payload <= len data.
Proof.
  intros Hwf. unfold ParseHeader. case_match; [done|]. intros (f & _ & E)%bind_Ok_inv.
  case_match; [done|]. cbv zeta in E. case_match; [done|].
  apply bind_Ok_inv in E as ([ln o1] & _ & E). case_match; [done|].
  apply bind_Ok_inv in E as (? & _ & E). apply bind_Ok_inv in E as (? & _ & E).
  apply bind_Ok_inv in E as ([[? ?] ?] & _ & E). apply bind_Ok_inv in E as (? & _ & E).
  case_match; [done|]. apply bind_Ok_inv in E as (pl & (Hla & Hlb & ->)%slice_inv & [= _ <-]).
  split; [by apply Forall_sub|]. rewrite len_sub by lia. lia.
Qed.

Lemma GetMessageType_total avps : exists mt, GetMessageType avps = Ok mt.
Proof.
  pose proof (GetMessageType_not_Panic avps) as HM. destruct (GetMessageType avps) eqn:E; [eauto| |done].
  exfalso. revert E. clear HM. induction avps as [|a avps IH]; cbn; [done|]. repeat case_match; try done.
  by destruct (Value a) as [|? [|]].
Qed.

(** A new tunnel: no session yet. *)
Lemma server_ok_new s held t k tid n :
  server_ok s held -> Tunnel.sessions t = ∅ ->
  server_ok (with_maps (with_objects (with_nextTunnelID s n) (objects s ++ [t]))
    (<[k := length (objects s)]> (tunnels s)) (<[tid := length (objects s)]> (tunnelsByLocalID s))) held.
Proof.
  intros [] Ht.
  assert (forall l sid se, sess_at (objects s ++ [t]) l sid se -> sess_at (objects s) l sid se) as Hat.
  { intros l sid se (t1 & H1 & H2). exists t1. split; [|done].
    apply lookup_app_Some in H1 as [H1|[_ H1]]; [done|]. apply list_lookup_singleton_Some in H1 as [_ <-].
    rewrite Ht in H2. by rewrite lookup_empty in H2. }
  split; cbn; try done; rewrite ?length_app; cbn.
  - intros tid' l [[_ <-]|[_ H]]%lookup_insert_Some; [lia|]. specialize (sv_ids0 _ _ H). lia.
  - intros k' l [[_ <-]|[_ H]]%lookup_insert_Some; [lia|]. specialize (sv_keys0 _ _ H). lia.
  - intros l sid se H. by eapply sv_sess0, Hat.
  - intros l sid se H. by apply sv_held0 with l sid, Hat.
  - intros l sid se l' sid' se' H H'. by apply sv_unique0; apply Hat.
Qed.

Lemma handleNewTunnel_ok now s held hdr payload addr :
  server_ok s held -> bytes_wf payload ->
  exists s' evs, handleNewTunnel now s hdr payload addr = Ok (s', evs) /\ good_step nobody s s' /\
    forall d, TunWrite d ∉ evs.
Proof.
  intros Hs Hwf. unfold handleNewTunnel.
  assert (forall s' out d, TunWrite d ∉ emit s' addr out) as Hemit.
  { intros s' out d. unfold emit. destruct (sender s'); [|set_solver].
    intros (x & [=] & _)%list_elem_of_fmap. }
  assert (exists s' evs, Ok (s, []) = Ok (s', evs) /\ good_step nobody s s' /\ forall d, TunWrite d ∉ evs) as Hid.
  { eexists _, _. split; [done|]. split; [by eapply good_step_id|set_solver]. }
  pose proof (ParseAVPs_not_Panic payload Hwf) as HP. destruct (ParseAVPs payload) as [avps|e|]; [|done|done].
  destruct (GetMessageType_total avps) as [mt ->].
  rewrite bind_Ok. destruct (negb (mt =? MsgSCCRQ)); [done|].
  set (n := if u16 _ =? 0 then _ else _). set (s1 := with_nextTunnelID s n).
  destruct (Control.Receive _ _ _ _) as [cc b]. set (t1 := Tunnel.with_control _ cc).
  destruct (Tunnel.HandleSCCRQ_ok now t1 avps (hostname s1)) as (t2 & out & e & -> & He & Hse & _).
  rewrite bind_Ok. destruct e as [u|e|]; [| |done].
  - destruct (GetAVPUint16_total avps AVPAssignedTunnelID) as (tid & ->). rewrite bind_Ok.
    rewrite Control.SendZLB_ok, bind_Ok. eexists _, _. split; [done|]. split; [|apply Hemit].
    pose proof (server_ok_new s held (Tunnel.with_running t2 (ctx s1)) (key_of addr (default 0 tid)) (u16 n) n Hs Hse) as Hs'.
    split; [by exists held|]. intros l sid se' (t' & H1 & H2). left. exists se'.
    split; [|apply succeeds_refl]. cbn in H1. apply lookup_app_Some in H1 as [H1|[_ H1]]; [by exists t'|].
    apply list_lookup_singleton_Some in H1 as [_ <-]. cbn in H2. rewrite Hse in H2. cbn in H2.
    by rewrite lookup_empty in H2.
  - eexists _, _. split; [done|]. split; [|apply Hemit].
    apply (good_step_id nobody s held); [|done]. destruct Hs. by split.
Qed.

(** ** One datagram *)

(** The datagram [data] is a data message for the session [se], number [sid] of the
    tunnel at [l]; [payload] is its PPP frame. *)
Definition addressed (s : Server) (data : bytes) (l : nat) (sid : Z) (se : Session.Session) (payload : bytes) :
    Prop :=
  exists hdr, ParseHeader data = Ok (hdr, payload) /\ IsControl hdr = false /\
    tunnelsByLocalID s !! TunnelID hdr = Some l /\ SessionID hdr = sid /\ sess_at (objects s) l sid se.

(** It answers the challenge of that session with the password of [name]. *)
Definition logs_in (s : Server) (data : bytes) (l : nat) (sid : Z) (c : Chap.CHAPHandler) (name : bytes) : Prop :=
  exists se payload, addressed s data l sid se payload /\ Session.chapHandler se = Some c /\
    Session.pppPhase se = Session.PPPPhaseCHAP /\ Session.logs_in md5 (userDB s) payload c name.

(** It is a PPP control packet, for an established session, that states a length
    below its own header. *)
Definition crashes (s : Server) (data : bytes) : Prop :=
  exists l sid se payload f, addressed s data l sid se payload /\
    Session.state se = Session.SessionEstablished /\ ParsePPPFrame payload = Ok f /\
    Session.short (Payload f) /\ Protocol f ∈ [PPPProtoLCP; PPPProtoCHAP; PPPProtoIPCP].

(** It carries the IPv4 packet [d] on a session in the data phase. *)
Definition carries (s : Server) (data : bytes) (l : nat) (sid : Z) (se : Session.Session) (d : bytes) : Prop :=
  exists payload, addressed s data l sid se payload /\
    Session.state se = Session.SessionEstablished /\ Session.pppPhase se = Session.PPPPhaseData /\
    ParsePPPFrame payload = Ok (mkPPP PPPProtoIPv4 d).

Lemma emit_no_tun s addr out d : TunWrite d ∉ emit s addr out.
Proof.
  unfold emit. destruct (sender s); [|set_solver]. by intros (x & [=] & _)%list_elem_of_fmap.
Qed.

Lemma handleControlMessage_ok now r s held hdr payload addr :
  server_ok s held -> bytes_wf payload ->
  exists s' evs, handleControlMessage now r s hdr payload addr = Ok (s', evs) /\ good_step nobody s s' /\
    forall d, TunWrite d ∉ evs.
Proof.
  intros Hs Hwf. unfold handleControlMessage.
  destruct (TunnelID hdr =? 0); [by eapply handleNewTunnel_ok|].
  destruct (tunnelsByLocalID s !! TunnelID hdr) as [l|] eqn:El.
  2:{ eexists _, _. split; [done|]. split; [by eapply good_step_id|set_solver]. }
  destruct (lookup_lt_is_Some_2 (objects s) l (sv_ids s held Hs _ _ El)) as [t0 Hl]. rewrite Hl.
  cbv zeta. destruct (Control.Receive _ _ _ _) as [cc b]. set (t := Tunnel.with_control _ cc).
  rewrite Control.SendZLB_ok, bind_Ok.
  assert (good_step nobody s (set_tunnel s l t)) as Hg by by apply (good_step_same nobody s held l t0).
  destruct (negb b); [eexists _, _; split_and!; [done|done|intros; apply emit_no_tun]|].
  pose proof (ParseAVPs_not_Panic payload Hwf) as HP.
  destruct (ParseAVPs payload) as [avps|e|]; [|eexists _, _; split_and!; [done|done|intros; apply emit_no_tun]|done].
  assert (exists mt, GetMessageType avps = Ok mt) as [mt ->] by apply GetMessageType_total.
  rewrite bind_Ok. destruct (route_ok now r s held l t0 t hdr mt avps) as (s' & out & -> & Hg'); [done..|].
  rewrite bind_Ok. eexists _, _. split_and!; [done|done|].
  intros d [?|?]%elem_of_app; by eapply emit_no_tun.
Qed.

Lemma handleDataMessage_spec now r s held hdr payload data :
  server_ok s held -> ParseHeader data = Ok (hdr, payload) -> IsControl hdr = false ->
  bytes_wf payload -> len payload <= 52000 ->
  match handleDataMessage now r s hdr payload with
  | Ok (s', evs) => good_step (logs_in s data) s s' /\
      forall d, TunWrite d ∈ evs -> exists l sid se, carries s data l sid se d
  | Err _ => False
  | Panic => crashes s data
  end.
Proof.
  intros Hs Hh Hc Hwf Hl. unfold handleDataMessage.
  destruct (tunnelsByLocalID s !! TunnelID hdr) as [l|] eqn:El.
  2:{ split; [by eapply good_step_id|set_solver]. }
  destruct (lookup_lt_is_Some_2 (objects s) l (sv_ids s held Hs _ _ El)) as [t0 Ht]. rewrite Ht.
  unfold Tunnel.GetSession. cbn [Tunnel.sessions Tunnel.with_lastActivity].
  destruct (Tunnel.sessions t0 !! SessionID hdr) as [se|] eqn:Ese.
  2:{ split; [by apply (good_step_same _ s held l t0)|set_solver]. }
  assert (sess_at (objects s) l (SessionID hdr) se) as Hat by by exists t0.
  assert (addressed s data l (SessionID hdr) se payload) as Ha by by exists hdr.
  destruct (sv_sess s held Hs _ _ _ Hat) as [Hok Hst].
  pose proof (Session.HandleData_spec md5 r (userDB s) se payload Hok Hwf Hl) as H.
  destruct (Session.HandleData md5 r (userDB s) se payload) as [[[se' rs] tun]|e|]; [|done|].
  2:{ destruct H as (H1 & f & H2 & H3 & H4). by exists l, (SessionID hdr), se, payload, f. }
  destruct H as (Hok' & Hev & Htun). rewrite bind_Ok. set (t := Tunnel.with_sessions _ _).
  destruct (sendResponses_ok t se' rs) as [out ->]. rewrite bind_Ok. split.
  - assert (forall sid' x, Tunnel.sessions t !! sid' = Some x ->
      sess_ok x /\ origin (logs_in s data l) None (Tunnel.sessions t0) sid' x) as Hor.
    { eapply origin_insert; [reflexivity| | |intros; by apply (sess_ok_at s held l t0 sid')].
      - split; [done|]. by rewrite (Session.ev_state _ _ _ Hev).
      - left. exists se. split; [done|]. destruct (evolves_succeeds _ _ _ Hev) as [E Hlog]. split; [done|].
        intros Hp. destruct (Hlog Hp) as [?|(c & (H1 & H2 & H3) & H4)]; [by left|]. right. exists c.
        split; [|done]. by exists se, payload. }
    apply (good_step_set _ s held l t0 t None); [done|done|exact Hor|done|].
    exists held. by apply (server_ok_update (logs_in s data l) None s held l t0).
  - intros d [Hin|Hin]%elem_of_app; [|by destruct (emit_no_tun s (Tunnel.peerAddr t) out d)].
    destruct tun as [d'|]; [|set_solver]. unfold forwardToTUN in Hin.
    destruct (negb (tunWriter s) || _); [set_solver|]. apply list_elem_of_singleton in Hin as [= ->].
    destruct (Htun d' eq_refl) as (H1 & H2 & H3). exists l, (SessionID hdr), se, payload. done.
Qed.

Lemma HandlePacket_spec now r s held data addr :
  server_ok s held -> bytes_wf data -> len data <= 52000 ->
  match HandlePacket now r s data addr with
  | Ok (s', evs) => good_step (logs_in s data) s s' /\
      forall d, TunWrite d ∈ evs -> exists l sid se, carries s data l sid se d
  | Err _ => False
  | Panic => crashes s data
  end.
Proof.
  intros Hs Hwf Hl. unfold HandlePacket. pose proof (ParseHeader_not_Panic data Hwf) as HP.
  destruct (ParseHeader data) as [[hdr payload]|e|] eqn:E; [|split; [by eapply good_step_id|set_solver]|done].
  destruct (ParseHeader_suffix data hdr payload Hwf E) as [Hwf' Hl'].
  destruct (IsControl hdr) eqn:Ec.
  - destruct (handleControlMessage_ok now r s held hdr payload addr Hs Hwf') as (s' & evs & -> & Hg & Ht).
    split; [by apply good_step_weaken|]. intros d Hd. by destruct (Ht d).
  - apply (handleDataMessage_spec now r s held hdr payload data); [done..|lia].
Qed.

(** ** The other transitions *)

Lemma tick_ok f s held l s' evs :
  server_ok s held ->
  (forall t t' out, f t = Ok (t', out) -> Tunnel.sessions t' = Tunnel.sessions t) ->
  tick f s l = Ok (s', evs) -> good_step nobody s s'.
Proof.
  intros Hs Hf. unfold tick. destruct (objects s !! l) as [t|] eqn:E.
  - intros ([t' out] & Ht & [= <- _])%bind_Ok_inv. apply (good_step_same _ s held l t); [done..|by eapply Hf].
  - intros [= <- _]. by eapply good_step_id.
Qed.

Lemma retransmitTick_sessions now t t' out :
  Tunnel.retransmitTick now t = Ok (t', out) -> Tunnel.sessions t' = Tunnel.sessions t.
Proof.
  unfold Tunnel.retransmitTick. case_match; [by intros [= <- _]|].
  destruct (Control.CheckRetransmit _ _) as [[[cc o] b] rr]. intros (a & _ & [= <- _])%bind_Ok_inv. by destruct b.
Qed.

Lemma helloTick_sessions now t t' out :
  Tunnel.helloTick now t = Ok (t', out) -> Tunnel.sessions t' = Tunnel.sessions t.
Proof.
  unfold Tunnel.helloTick, Tunnel.sendHello.
  destruct (Tunnel.send_avps_ok now t [NewMessageTypeAVP MsgHello]) as (cc & o & E). rewrite E.
  destruct (negb (Tunnel.running t)), (negb (Tunnel.state t =? Tunnel.TunnelEstablished)), (now - Tunnel.lastActivity t >=? Control.defaultHelloInterval); by intros [= <- _].
Qed.

Lemma good_step_trans s1 s2 s3 : good_step nobody s1 s2 -> good_step nobody s2 s3 -> good_step nobody s1 s3.
Proof.
  intros [H1 G1] [H2 G2]. split; [done|]. intros l sid se H.
  destruct (G2 l sid se H) as [(se2 & Hat & E & Hp)|?]; [|by right].
  destruct (G1 l sid se2 Hat) as [(se1 & Hat1 & E1 & Hp1)|Hph].
  - left. exists se1. split; [done|]. split; [congruence|]. intros Hge.
    destruct (Hp Hge) as [(A & B & C)|(? & [] & _)]. destruct (Hp1 A) as [(A1 & B1 & C1)|(? & [] & _)].
    left. split_and!; [done|congruence|congruence].
  - right. destruct (decide (Session.pppPhase se < Session.PPPPhaseIPCP)) as [|Hge]; [done|].
    destruct (Hp ltac:(lia)) as [(A & _)|(? & [] & _)]. lia.
Qed.

Lemma closeTunnels_ok now s held ls :
  server_ok s held -> Forall (fun l => (l < length (objects s))%nat) ls ->
  exists s' evs, closeTunnels now s ls = Ok (s', evs) /\ good_step nobody s s'.
Proof.
  revert s held. induction ls as [|l ls IH]; intros s held Hs Hls; cbn [closeTunnels].
  { eexists _, _. split; [done|]. by eapply good_step_id. }
  apply Forall_cons in Hls as [Hlt Hls]. destruct (lookup_lt_is_Some_2 _ _ Hlt) as [t Ht]. rewrite Ht.
  destruct (Tunnel.Close_ok now t) as (t' & out & -> & Hm & _). rewrite bind_Ok.
  destruct (server_ok_close_all s held l t t t' Hs Ht eq_refl Hm) as (p & held' & E & Hs').
  rewrite E, bind_Ok. destruct (IH _ held' Hs') as (s' & evs & -> & Hg).
  { cbn. by rewrite length_insert. }
  rewrite bind_Ok. eexists _, _. split; [done|]. eapply good_step_trans; [|exact Hg].
  apply (good_step_set _ s held l t t' None); [done|done| |done|eauto].
  rewrite Hm. intros sid se. by rewrite lookup_empty.
Qed.

Lemma Close_good now s held :
  server_ok s held -> exists s' evs, Close now s = Ok (s', evs) /\ good_step nobody s s'.
Proof.
  intros Hs. unfold Close. destruct (closeTunnels_ok now s held ((map_to_list (tunnels s)).*2) Hs) as (s' & evs & -> & [Hok Hg]).
  { apply Forall_forall. intros l ([k l'] & -> & Hin)%list_elem_of_fmap. apply elem_of_map_to_list in Hin.
    by apply (sv_keys s held Hs k). }
  rewrite bind_Ok. eexists _, _. split; [done|]. destruct Hok as [held' Hs']. split; [|exact Hg].
  exists held'. destruct Hs'. by split.
Qed.

(** ** Runs of a server

    A state is the server and the log of the logins it has seen: the session, the
    challenge that was answered and the user's name. *)
Abbreviation login_log := (nat * Z * bytes * bytes -> Prop).

Definition no_logins : login_log := fun _ => False.

Definition record (s : Server) (data : bytes) (log : login_log) : login_log := fun e =>
  log e \/ exists l sid c name, e = (l, sid, Chap.challenge c, name) /\ logs_in s data l sid c name.

Inductive server_step : Server * login_log -> Server * login_log -> Prop :=
  | step_packet now r s log data addr s' evs :
      bytes_wf data -> len data <= 52000 -> HandlePacket now r s data addr = Ok (s', evs) ->
      server_step (s, log) (s', record s data log)
  | step_retransmit now s log l s' evs :
      tick (Tunnel.retransmitTick now) s l = Ok (s', evs) -> server_step (s, log) (s', log)
  | step_hello now s log l s' evs :
      tick (Tunnel.helloTick now) s l = Ok (s', evs) -> server_step (s, log) (s', log)
  | step_close now s log s' evs : Close now s = Ok (s', evs) -> server_step (s, log) (s', log)
  | step_start s log : server_step (s, log) (Start s, log)
  | step_users s log db : server_step (s, log) (with_userDB s db, log).

Record good_config (cfg : ServerConfig) : Prop := {
  gc_name : Session.good_name (cfg_Hostname cfg);
  gc_dns1 : cfg_DNS1 cfg <> [] -> Ipcp.good_ip (cfg_DNS1 cfg);
  gc_dns2 : cfg_DNS2 cfg <> [] -> Ipcp.good_ip (cfg_DNS2 cfg);
  gc_pool : pool_holds (cfg_Pool cfg) ∅
}.

Record state_ok (sl : Server * login_log) : Prop := {
  st_ok : exists held, server_ok sl.1 held;
  st_login : forall l sid se, sess_at (objects sl.1) l sid se -> Session.PPPPhaseIPCP <= Session.pppPhase se ->
    exists c, Session.chapHandler se = Some c /\ sl.2 (l, sid, Chap.challenge c, Session.username se)
}.

Lemma state_ok_step s s' log data :
  good_step (logs_in s data) s s' -> state_ok (s, log) -> state_ok (s', record s data log).
Proof.
  intros [Hok Hg] [_ Hl]. split; [done|]. cbn [fst snd] in *. intros l sid se Hat Hp.
  destruct (Hg l sid se Hat) as [(se0 & H0 & _ & Hs)|?]; [|lia].
  destruct (Hs Hp) as [(H1 & H2 & H3)|(c & H1 & H2)].
  - destruct (Hl l sid se0 H0 H1) as (c & H4 & H5). exists c. rewrite H2, H3. split; [done|]. by left.
  - exists (Chap.authenticate c (Session.username se)). split; [done|]. right.
    by exists l, sid, c, (Session.username se).
Qed.

Lemma state_ok_nobody s s' log : good_step nobody s s' -> state_ok (s, log) -> state_ok (s', log).
Proof.
  intros Hg Hst. destruct (state_ok_step s s' log [] (good_step_weaken _ _ _ Hg) Hst) as [H1 H2].
  split; [done|]. cbn in *. intros l sid se Hat Hp. destruct (H2 l sid se Hat Hp) as (c & Hc & [Hl|Hl]); [eauto|].
  destruct Hl as (? & ? & ? & ? & _ & ? & ? & (hdr & Hh & _) & _). done.
Qed.

Lemma server_step_ok x y : state_ok x -> server_step x y -> state_ok y.
Proof.
  intros Hx Hstep. destruct (st_ok x Hx) as [held Hs].
  destruct Hstep as [now r s log data addr s' evs Hwf Hl E|now s log l s' evs E|now s log l s' evs E
    |now s log s' evs E|s log|s log db]; cbn in Hs.
  - pose proof (HandlePacket_spec now r s held data addr Hs Hwf Hl) as H. rewrite E in H. destruct H as [Hg _].
    by eapply state_ok_step.
  - eapply state_ok_nobody; [|done]. eapply tick_ok; [done| |exact E]. apply retransmitTick_sessions.
  - eapply state_ok_nobody; [|done]. eapply tick_ok; [done| |exact E]. apply helloTick_sessions.
  - eapply state_ok_nobody; [|done]. destruct (Close_good now s held Hs) as (s1 & e1 & E1 & Hg).
    rewrite E in E1. by injection E1 as <- _.
  - eapply state_ok_nobody; [|done]. apply (good_step_id nobody s held); [destruct Hs; by split|done].
  - eapply state_ok_nobody; [|done]. apply (good_step_id nobody s held); [destruct Hs; by split|done].
Qed.

Lemma NewServer_ok cfg : good_config cfg -> state_ok (NewServer cfg, no_logins).
Proof.
  intros []. assert (forall l sid se, sess_at (objects (NewServer cfg)) l sid se -> False) as Hno.
  { intros l sid se (t & H & _). destruct l; discriminate H. }
  split; cbn [fst snd].
  - exists ∅. split; try done.
    + intros ??? H. by destruct (Hno _ _ _ H).
    + intros ??? H. by destruct (Hno _ _ _ H).
    + intros ?????? H. by destruct (Hno _ _ _ H).
  - intros ??? H. by destruct (Hno _ _ _ H).
Qed.

Lemma reached_ok cfg sl :
  good_config cfg -> star server_step (NewServer cfg, no_logins) sl -> state_ok sl.
Proof. intros Hc. apply (star_invariant server_step state_ok server_step_ok), NewServer_ok, Hc. Qed.

(** C2: nobody reaches the network behind the server without a password.  In every
    run of the server (datagrams of any content from any address, in any order, with
    the tickers, user reloads and restarts in between), whatever is written to the
    TUN device is an IPv4 packet received on a session whose peer has answered this
    session's own challenge, earlier in the run, with the digest of the password its
    user had then. *)
Theorem tun_requires_login cfg s log now r data addr s' evs d :
  good_config cfg -> star server_step (NewServer cfg, no_logins) (s, log) ->
  bytes_wf data -> len data <= 52000 ->
  HandlePacket now r s data addr = Ok (s', evs) -> TunWrite d ∈ evs ->
  exists l sid se c, carries s data l sid se d /\ Session.chapHandler se = Some c /\
    log (l, sid, Chap.challenge c, Session.username se).
Proof.
  intros Hc Hr Hwf Hl E Hin. pose proof (reached_ok cfg _ Hc Hr) as [[held Hs] Hlog]. cbn in *.
  pose proof (HandlePacket_spec now r s held data addr Hs Hwf Hl) as H. rewrite E in H. destruct H as [_ Ht].
  destruct (Ht d Hin) as (l & sid & se & H). pose proof H as (payload & (hdr & _ & _ & _ & _ & Hat) & _ & Hp & _).
  destruct (Hlog l sid se Hat) as (c & H1 & H2).
  { rewrite Hp. done. }
  by exists l, sid, se, c.
Qed.

(** C13: in every run of the server, two sessions never have the same address, and
    every address a session has is one the pool has given out and not got back. *)
Theorem sessions_distinct_addresses cfg s log :
  good_config cfg -> star server_step (NewServer cfg, no_logins) (s, log) ->
  (forall l sid se l' sid' se', sess_at (objects s) l sid se -> sess_at (objects s) l' sid' se' ->
     Session.assignedIP se = Session.assignedIP se' -> Session.assignedIP se <> [] -> l = l' /\ sid = sid') /\
  exists held, pool_holds (pool s) held /\
    forall l sid se, sess_at (objects s) l sid se -> Session.assignedIP se <> [] -> Session.assignedIP se ∈ held.
Proof.
  intros Hc Hr. pose proof (reached_ok cfg _ Hc Hr) as [[held Hs] _]. cbn in *. split.
  - apply (sv_unique s held Hs).
  - exists held. split; [apply Hs|apply Hs].
Qed.


End Server.

(** ** A run: one user logs in and sends a packet *)

Definition demo_lac : UDPAddr := mkUDPAddr [203; 0; 113; 7] 1701.

Definition demo_config : ServerConfig (P := Pool.Pool) (D := Chap.demo_db) :=
  mkConfig (bytes_of_string "lns") [10; 0; 0; 1] [] [] (Some (Pool.demo_pool (replicate 4 false) 0))
    Chap.DemoDB true true.

Lemma demo_config_ok : good_config demo_config.
Proof.
  split; [reflexivity|intros H; by destruct H|intros H; by destruct H|].
  apply ipam_fresh; [by apply Pool.demo_pool_ok|reflexivity|].
  intros n [_ Hn]. by apply lookup_replicate in Hn as [? _].
Qed.

Definition demo_control (tid sid ns nr : Z) (avps : list AVP) : bytes :=
  match (p ← SerializeAVPs avps; h ← BuildControlHeader tid sid ns nr (len p); Ok (h ++ p)) with
  | Ok d => d
  | _ => []
  end.

Definition demo_data (frame : bytes) : bytes :=
  match BuildDataHeader 2 2 with Ok h => h ++ frame | _ => [] end.

Definition demo_ip_packet : bytes := [69; 0; 0; 20; 1; 2; 3; 4].

(** The LAC's messages up to the connected call, then the PPP frames of the user. *)
Definition demo_connect : list bytes :=
  [demo_control 0 0 0 0 [NewMessageTypeAVP MsgSCCRQ; NewAssignedTunnelIDAVP 7];
   demo_control 2 0 1 1 [NewMessageTypeAVP MsgSCCCN];
   demo_control 2 0 2 1 [NewMessageTypeAVP MsgICRQ; NewAssignedSessionIDAVP 9];
   demo_control 2 2 3 2 [NewMessageTypeAVP MsgICCN]].

Definition demo_login : list bytes :=
  demo_data <$>
  [Session.lcp_ack 1; Session.lcp_request 1 [Options.mkOpt 7 2 [7; 2]];
   Session.chap_response Chap.toy_md5 1 (bytes_of_string "secret") (replicate 16 5) (bytes_of_string "alice");
   Session.ipcp_ack 1; Session.ipcp_request 1 [10; 0; 0; 10]].

Definition demo_packet (s : Server (P := Pool.Pool) (D := Chap.demo_db)) (d : bytes) :=
  HandlePacket Chap.toy_md5 1000 demo_rng s d demo_lac.

Definition state_of (s : Server (P := Pool.Pool) (D := Chap.demo_db))
    (x : res (Server (P := Pool.Pool) (D := Chap.demo_db) * list event)) :=
  match x with Ok (s', _) => s' | _ => s end.

Fixpoint feed (s : Server (P := Pool.Pool) (D := Chap.demo_db)) (ds : list bytes) :=
  match ds with
  | [] => s
  | d :: ds => feed (state_of s (demo_packet s d)) ds
  end.

Lemma feed_run s0 ds : forall s log,
  star (server_step Chap.toy_md5) s0 (s, log) ->
  Forall (fun d => bytes_wf d /\ len d <= 52000) ds ->
  exists log', star (server_step Chap.toy_md5) s0 (feed s ds, log').
Proof.
  induction ds as [|d ds IH]; intros s log Hs Hds; [by exists log|].
  apply Forall_cons in Hds as [[Hwf Hl] Hds]. cbn [feed].
  destruct (demo_packet s d) as [[s' evs]|e|] eqn:E; cbn [state_of]; [|by eapply IH..].
  eapply IH; [|done]. eapply star_snoc; [exact Hs|]. by eapply step_packet.
Qed.

Lemma demo_run ds :
  forallb (fun d => bool_decide (bytes_wf d) && (len d <=? 52000)) ds = true ->
  exists log, star (server_step Chap.toy_md5) (NewServer demo_config, no_logins)
    (feed (NewServer demo_config) ds, log).
Proof.
  intros H. apply (feed_run _ ds _ no_logins); [apply star_refl|]. apply Forall_forall. intros d Hd.
  rewrite forallb_forall in H. specialize (H d). rewrite <- list_elem_of_In in H. specialize (H Hd).
  apply andb_prop in H as [H1 H2]. split; [by apply bool_decide_eq_true in H1|lia].
Qed.

Definition demo_ip_data : bytes := demo_data (Session.frame PPPProtoIPv4 demo_ip_packet).

Lemma demo_bytes_ok :
  forallb (fun d => bool_decide (bytes_wf d) && (len d <=? 52000)) (demo_connect ++ demo_login) = true.
Proof. vm_compute. reflexivity. Qed.

Lemma demo_ip_wf : bytes_wf demo_ip_data.
Proof. apply (bool_decide_unpack _). vm_compute. exact I. Qed.

Lemma demo_ip_len : len demo_ip_data <= 52000.
Proof. vm_compute. discriminate. Qed.

Definition events_of (x : res (Server (P := Pool.Pool) (D := Chap.demo_db) * list event)) : list event :=
  match x with Ok (_, evs) => evs | _ => [] end.

Lemma demo_events :
  events_of (demo_packet (feed (NewServer demo_config) (demo_connect ++ demo_login)) demo_ip_data) =
  [TunWrite demo_ip_packet].
Proof. vm_compute. reflexivity. Qed.

Lemma demo_forwards : exists s',
  demo_packet (feed (NewServer demo_config) (demo_connect ++ demo_login)) demo_ip_data =
  Ok (s', [TunWrite demo_ip_packet]).
Proof.
  pose proof demo_events as H. destruct (demo_packet _ _) as [[s' evs]|e|]; [|done..].
  exists s'. cbn in H. by subst evs.
Qed.

(** The state the login leads to. *)
Lemma demo_logged_in : exists s log s2,
  star (server_step Chap.toy_md5) (NewServer demo_config, no_logins) (s, log) /\
  HandlePacket Chap.toy_md5 1000 demo_rng s demo_ip_data demo_lac = Ok (s2, [TunWrite demo_ip_packet]).
Proof.
  destruct (demo_run _ demo_bytes_ok) as [log Hr]. destruct demo_forwards as [s' E].
  revert Hr E. generalize (feed (NewServer demo_config) (demo_connect ++ demo_login)). intros s Hr E.
  exists s, log, s'. split; [exact Hr|exact E].
Qed.

Lemma tun_requires_login_witness :
  exists s log l sid se c,
    star (server_step Chap.toy_md5) (NewServer demo_config, no_logins) (s, log) /\
    carries s demo_ip_data l sid se demo_ip_packet /\
    Session.chapHandler se = Some c /\ log (l, sid, Chap.challenge c, Session.username se).
Proof.
  destruct demo_logged_in as (s & log & s' & Hr & E).
  destruct (tun_requires_login Chap.toy_md5 demo_config s log 1000 demo_rng demo_ip_data demo_lac s'
    [TunWrite demo_ip_packet] demo_ip_packet demo_config_ok Hr demo_ip_wf demo_ip_len E)
    as (l & sid & se & c & H).
  - apply list_elem_of_singleton. reflexivity.
  - exists s, log, l, sid, se, c. split; [exact Hr|exact H].
Defined.

(** A second call on the same tunnel. *)
Definition demo_second : list bytes :=
  [demo_control 2 0 4 2 [NewMessageTypeAVP MsgICRQ; NewAssignedSessionIDAVP 10];
   demo_control 2 3 5 3 [NewMessageTypeAVP MsgICCN]].

Lemma demo_second_ok :
  forallb (fun d => bool_decide (bytes_wf d) && (len d <=? 52000))
    (demo_connect ++ demo_login ++ demo_second) = true.
Proof. vm_compute. reflexivity. Qed.

(** The sessions of a server's tunnels and their addresses. *)
Definition addresses (s : Server (P := Pool.Pool) (D := Chap.demo_db)) : list (Z * bytes) :=
  t ← objects s; (fun p => (p.1, Session.assignedIP p.2)) <$> map_to_list (Tunnel.sessions t).

Lemma demo_addresses :
  addresses (feed (NewServer demo_config) (demo_connect ++ demo_login ++ demo_second)) =
  [(3, [10; 0; 0; 11]); (2, [10; 0; 0; 10])].
Proof. vm_compute. reflexivity. Qed.

Lemma sessions_distinct_addresses_witness :
  exists s log, star (server_step Chap.toy_md5) (NewServer demo_config, no_logins) (s, log) /\
    addresses s = [(3, [10; 0; 0; 11]); (2, [10; 0; 0; 10])] /\
    (forall l sid se l' sid' se', sess_at (objects s) l sid se -> sess_at (objects s) l' sid' se' ->
       Session.assignedIP se = Session.assignedIP se' -> Session.assignedIP se <> [] -> l = l' /\ sid = sid').
Proof.
  destruct (demo_run _ demo_second_ok) as [log Hr]. pose proof demo_addresses as Ha.
  revert Hr Ha. generalize (feed (NewServer demo_config) (demo_connect ++ demo_login ++ demo_second)).
  intros s Hr Ha. exists s, log. split; [exact Hr|]. split; [exact Ha|].
  apply (sessions_distinct_addresses Chap.toy_md5 demo_config s log demo_config_ok Hr).
Defined.

(** A Configure-Request that states a length of two, on the established session. *)
Definition demo_short : bytes := demo_data (Session.frame PPPProtoLCP [1; 1; 0; 2]).

Definition is_Panic {A} (x : res A) : bool := match x with Panic => true | _ => false end.

Lemma demo_short_panics :
  is_Panic (demo_packet (feed (NewServer demo_config) (demo_connect ++ demo_login)) demo_short) = true.
Proof. vm_compute. reflexivity. Qed.

Lemma demo_short_wf : bytes_wf demo_short.
Proof. apply (bool_decide_unpack _). vm_compute. exact I. Qed.


(** A LAC that sends an SCCRQ and then stays silent: the retransmission of the SCCRP
    is given up after five tries, and giving it up ends the process. *)
Fixpoint ticks (s : Server (P := Pool.Pool) (D := Chap.demo_db)) (times : list Z) :
    res (Server (P := Pool.Pool) (D := Chap.demo_db)) :=
  match times with
  | [] => Ok s
  | now :: times => '(s, _) ← tick (Tunnel.retransmitTick now) s 0; ticks s times
  end.

Definition demo_sccrq : Server :=
  state_of (Start (NewServer demo_config))
    (demo_packet (Start (NewServer demo_config)) (demo_control 0 0 0 0
      [NewMessageTypeAVP MsgSCCRQ; NewAssignedTunnelIDAVP 7])).

Example silent_peer_kills_server :
  is_Panic (ticks demo_sccrq ((fun k => k * 10 * Control.Second) <$> [1; 2; 3; 4; 5])) = false /\
  is_Panic (ticks demo_sccrq ((fun k => k * 10 * Control.Second) <$> [1; 2; 3; 4; 5; 6])) = true.
Proof. vm_compute. split; reflexivity. Qed.

End Server.
