(* ===== verification/IkeHeader.v ===== *)
(** * IkeHeader: the IKE header ([internal/ike/header.go])

    The 28 bytes both versions of IKE start with.  The arrays [[8]byte] are byte
    lists of length eight ([header_ok]). *)

From stdpp Require Import pretty.
From S2P Require Import Prelude Wire.

Module Hdr.

Definition HeaderLen : Z := 28.

Definition IKEv1Major : Z := 1.
Definition IKEv1Minor : Z := 0.
Definition IKEv2Major : Z := 2.
Definition IKEv2Minor : Z := 0.

Definition ExchangeBase : Z := 0.
Definition ExchangeIdentityProtect : Z := 2.
Definition ExchangeAuthOnly : Z := 3.
Definition ExchangeAggressive : Z := 4.
Definition ExchangeInformationalV1 : Z := 5.
Definition ExchangeTransaction : Z := 6.
Definition ExchangeQuickMode : Z := 32.
Definition ExchangeNewGroupMode : Z := 33.
Definition ExchangeIKESAInit : Z := 34.
Definition ExchangeIKEAuth : Z := 35.
Definition ExchangeCreateChildSA : Z := 36.
Definition ExchangeInformational : Z := 37.

(** The default case of the [String] methods: [fmt.Sprintf("Unknown(%d)", x)]. *)
Definition unknown (x : Z) : string := String.append "Unknown(" (String.append (pretty x) ")").

Definition ExchangeType_String (et : Z) : string :=
  if et =? ExchangeBase then "Base"
  else if et =? ExchangeIdentityProtect then "Main Mode"
  else if et =? ExchangeAuthOnly then "Auth Only"
  else if et =? ExchangeAggressive then "Aggressive Mode"
  else if et =? ExchangeInformationalV1 then "Informational (v1)"
  else if et =? ExchangeTransaction then "Transaction"
  else if et =? ExchangeQuickMode then "Quick Mode"
  else if et =? ExchangeNewGroupMode then "New Group Mode"
  else if et =? ExchangeIKESAInit then "IKE_SA_INIT"
  else if et =? ExchangeIKEAuth then "IKE_AUTH"
  else if et =? ExchangeCreateChildSA then "CREATE_CHILD_SA"
  else if et =? ExchangeInformational then "INFORMATIONAL"
  else unknown et.

Definition FlagInitiator : Z := 8.
Definition FlagVersion : Z := 16.
Definition FlagResponse : Z := 32.
Definition FlagV1Encryption : Z := 1.
Definition FlagV1Commit : Z := 2.
Definition FlagV1AuthOnly : Z := 4.

Record Header := mkHeader {
  InitiatorSPI : bytes;
  ResponderSPI : bytes;
  NextPayload : Z;
  MajorVersion : Z;
  MinorVersion : Z;
  ExchangeType : Z;
  Flags : Z;
  MessageID : Z;
  Length : Z
}.

Definition with_version (h : Header) (major minor : Z) : Header :=
  mkHeader (InitiatorSPI h) (ResponderSPI h) (NextPayload h) major minor (ExchangeType h) (Flags h)
    (MessageID h) (Length h).
Definition with_Flags (h : Header) (f : Z) : Header :=
  mkHeader (InitiatorSPI h) (ResponderSPI h) (NextPayload h) (MajorVersion h) (MinorVersion h)
    (ExchangeType h) f (MessageID h) (Length h).
Definition with_NextPayload (h : Header) (pt : Z) : Header :=
  mkHeader (InitiatorSPI h) (ResponderSPI h) pt (MajorVersion h) (MinorVersion h)
    (ExchangeType h) (Flags h) (MessageID h) (Length h).
Definition with_Length (h : Header) (l : Z) : Header :=
  mkHeader (InitiatorSPI h) (ResponderSPI h) (NextPayload h) (MajorVersion h) (MinorVersion h)
    (ExchangeType h) (Flags h) (MessageID h) l.

(** The array copies [copy(h.InitiatorSPI[:], buf[0:8])] keep the eight bytes. *)
Definition ParseHeader (buf : bytes) : res Header :=
  if len buf <? HeaderLen then Err "buffer too short for IKE header"
  else
    ispi ← slice buf 0 8;
    rspi ← slice buf 8 16;
    np ← idx buf 16;
    v ← idx buf 17;
    et ← idx buf 18;
    fl ← idx buf 19;
    mid ← be32_at buf 20;
    ln ← be32_at buf 24;
    Ok (mkHeader ispi rspi np (Z.shiftr v 4) (Z.land v 15) et fl mid ln).

Definition Marshal (h : Header) (buf : bytes) : res bytes :=
  if len buf <? HeaderLen then Err "buffer too short for IKE header marshal"
  else
    buf ← copy_at buf 0 (take 8 (InitiatorSPI h));
    buf ← copy_at buf 8 (take 8 (ResponderSPI h));
    buf ← set_at buf 16 (NextPayload h);
    buf ← set_at buf 17 (Z.lor (u8 (Z.shiftl (MajorVersion h) 4)) (Z.land (MinorVersion h) 15));
    buf ← set_at buf 18 (ExchangeType h);
    buf ← set_at buf 19 (Flags h);
    buf ← put32_at buf 20 (MessageID h);
    put32_at buf 24 (Length h).

(** [_ = h.Marshal(buf)]: an error is ignored. *)
Definition MarshalBinary (h : Header) : res bytes :=
  match Marshal h (make HeaderLen) with
  | Ok buf => Ok buf
  | Err _ => Ok (make HeaderLen)
  | Panic => Panic
  end.

Definition IsIKEv2 (h : Header) : bool := MajorVersion h =? IKEv2Major.
Definition IsIKEv1 (h : Header) : bool := MajorVersion h =? IKEv1Major.
Definition IsResponse (h : Header) : bool := negb (Z.land (Flags h) FlagResponse =? 0).
Definition IsInitiator (h : Header) : bool := negb (Z.land (Flags h) FlagInitiator =? 0).
Definition IsEncrypted (h : Header) : bool := negb (Z.land (Flags h) FlagV1Encryption =? 0).

Definition SPIPair (h : Header) : bytes := InitiatorSPI h ++ ResponderSPI h.

(** A version above 2 is logged and let through. *)
Definition Validate (h : Header) : res unit :=
  if MajorVersion h =? 0 then Err "invalid IKE major version 0"
  else if Length h <? HeaderLen then Err "IKE message length is less than header size"
  else if (MajorVersion h =? IKEv2Major) && bool_decide (InitiatorSPI h = make 8)
  then Err "IKEv2 initiator SPI must not be zero"
  else Ok tt.

Definition SetIKEv1 (h : Header) : Header := with_version h IKEv1Major IKEv1Minor.
Definition SetIKEv2 (h : Header) : Header := with_version h IKEv2Major IKEv2Minor.
Definition SetResponseFlags (h : Header) (initiator : bool) : Header :=
  with_Flags h (if initiator then Z.lor FlagResponse FlagInitiator else FlagResponse).
Definition SetRequestFlags (h : Header) (initiator : bool) : Header :=
  with_Flags h (if initiator then Z.lor 0 FlagInitiator else 0).

(** ** The wire format *)

(** What the Go types say of a header, and that each version field fits its nibble. *)
Record header_ok (h : Header) : Prop := {
  ho_ispi : length (InitiatorSPI h) = 8%nat;
  ho_rspi : length (ResponderSPI h) = 8%nat;
  ho_ispi_wf : bytes_wf (InitiatorSPI h);
  ho_rspi_wf : bytes_wf (ResponderSPI h);
  ho_next : is_u8 (NextPayload h);
  ho_major : 0 <= MajorVersion h < 16;
  ho_minor : 0 <= MinorVersion h < 16;
  ho_exch : is_u8 (ExchangeType h);
  ho_flags : is_u8 (Flags h);
  ho_id : is_u32 (MessageID h);
  ho_len : is_u32 (Length h)
}.

Definition header_bytes (h : Header) : bytes :=
  InitiatorSPI h ++ ResponderSPI h ++
  [NextPayload h; MajorVersion h * 16 + MinorVersion h; ExchangeType h; Flags h] ++
  put32 (MessageID h) ++ put32 (Length h).

Lemma len_header_bytes h : header_ok h -> len (header_bytes h) = HeaderLen.
Proof. intros []. unfold header_bytes, len. rewrite !length_app, ho_ispi0, ho_rspi0. reflexivity. Qed.

Lemma header_bytes_wf h : header_ok h -> bytes_wf (header_bytes h).
Proof.
  intros []. unfold header_bytes. repeat apply Forall_app_2; try done; try apply put32_wf.
  repeat (apply Forall_cons; split; [first [done|unfold is_u8; lia]|]). constructor.
Qed.

Lemma nibbles a b : 0 <= a < 16 -> 0 <= b < 16 -> Z.lor (u8 (Z.shiftl a 4)) (Z.land b 15) = a * 16 + b.
Proof.
  intros Ha Hb. rewrite Z.shiftl_mul_pow2 by lia. change 15 with (Z.ones 4).
  rewrite Z.land_ones by lia. rewrite (Z.mod_small b) by lia. rewrite u8_id by (unfold is_u8; lia).
  rewrite <- Z.lxor_lor, <- Z.add_nocarry_lxor; [lia|..];
    (apply Z.bits_inj'; intros j Hj; rewrite Z.land_spec, Z.bits_0; destruct (Z.ltb_spec j 4));
    try (by rewrite Z.mul_pow2_bits_low by lia);
    (destruct (decide (b = 0)) as [->|]; [by rewrite Z.bits_0, andb_false_r|]);
    (rewrite (Z.bits_above_log2 b); [by rewrite andb_false_r|lia|]; apply Z.log2_lt_pow2; [lia|];
      apply Z.lt_le_trans with (2 ^ 4); [lia|apply Z.pow_le_mono_r; lia]).
Qed.

Lemma split_nibbles v : is_u8 v ->
  0 <= Z.shiftr v 4 < 16 /\ 0 <= Z.land v 15 < 16 /\ Z.shiftr v 4 * 16 + Z.land v 15 = v.
Proof.
  intros Hv. rewrite Z.shiftr_div_pow2 by lia. change 15 with (Z.ones 4). rewrite Z.land_ones by lia.
  change (2 ^ 4) with 16. unfold is_u8 in Hv. Z.div_mod_to_equations; lia.
Qed.

Lemma nibbles_div a b : 0 <= b < 16 -> Z.shiftr (a * 16 + b) 4 = a.
Proof.
  intros. rewrite Z.shiftr_div_pow2 by lia. change (2 ^ 4) with 16. Z.div_mod_to_equations; lia.
Qed.
Lemma nibbles_mod a b : 0 <= b < 16 -> Z.land (a * 16 + b) 15 = b.
Proof.
  intros. change 15 with (Z.ones 4). rewrite Z.land_ones by lia. change (2 ^ 4) with 16.
  Z.div_mod_to_equations; lia.
Qed.

Lemma ParseHeader_bytes h rest : header_ok h -> ParseHeader (header_bytes h ++ rest) = Ok h.
Proof.
  intros Hok. pose proof (len_nonneg rest). pose proof (len_header_bytes h Hok) as Hl.
  unfold ParseHeader. rewrite len_app, Hl. unfold HeaderLen in *.
  rewrite (proj2 (Z.ltb_ge _ 28)) by lia. destruct Hok.
  assert (len (InitiatorSPI h) = 8) as L1 by (unfold len; lia).
  assert (len (ResponderSPI h) = 8) as L2 by (unfold len; lia).
  unfold header_bytes. rewrite <- !app_assoc. cbn [app].
  rewrite (slice_head (InitiatorSPI h)), bind_Ok by lia.
  rewrite (slice_mid (InitiatorSPI h)), bind_Ok by lia.
  rd. rewrite nibbles_div, nibbles_mod by done. by destruct h.
Qed.

Lemma take_8 (l : bytes) : length l = 8%nat -> take 8 l = l.
Proof. intros H. apply take_ge. lia. Qed.

Lemma Marshal_make h n :
  header_ok h -> HeaderLen <= n -> Marshal h (make n) = Ok (header_bytes h ++ make (n - HeaderLen)).
Proof.
  intros [] Hn. unfold HeaderLen in *. unfold Marshal, HeaderLen. rewrite len_make.
  rewrite (proj2 (Z.ltb_ge _ 28)) by lia. rewrite !take_8 by done. rewrite nibbles by done.
  assert (len (InitiatorSPI h) = 8) as L1 by (unfold len; lia).
  assert (len (ResponderSPI h) = 8) as L2 by (unfold len; lia).
  rewrite (fill_start n). do 7 (fill_step; rewrite ?L1, ?L2).
  rewrite fill_put32 by (len_norm; lia). unfold header_bytes. rewrite ?L1, ?L2, ?len_put32, <- !app_assoc. cbn [app].
  by replace (n - 8 - 8 - 1 - 1 - 1 - 1 - 4 - 4) with (n - 28) by lia.
Qed.

Lemma MarshalBinary_ok h : header_ok h -> MarshalBinary h = Ok (header_bytes h).
Proof.
  intros Hok. unfold MarshalBinary. rewrite Marshal_make by done. by rewrite make_0, app_nil_r by (unfold HeaderLen; lia).
Qed.

(** Every twenty-eight bytes are the bytes of a header. *)
Lemma header_surj b : bytes_wf b -> length b = 28%nat -> exists h, header_ok h /\ b = header_bytes h.
Proof.
  intros Hwf Hb. do 28 (destruct b as [|? b]; [discriminate Hb|]). destruct b; [|discriminate Hb].
  repeat (apply Forall_cons in Hwf as [? Hwf]).
  match goal with |- context [?a0 :: ?a1 :: ?a2 :: ?a3 :: ?a4 :: ?a5 :: ?a6 :: ?a7 ::
      ?b0 :: ?b1 :: ?b2 :: ?b3 :: ?b4 :: ?b5 :: ?b6 :: ?b7 :: ?np :: ?v :: ?et :: ?fl ::
      ?c0 :: ?c1 :: ?c2 :: ?c3 :: ?d0 :: ?d1 :: ?d2 :: ?d3 :: []] =>
    destruct (split_nibbles v) as (? & ? & Hv); [done|];
    exists (mkHeader [a0; a1; a2; a3; a4; a5; a6; a7] [b0; b1; b2; b3; b4; b5; b6; b7] np
      (Z.shiftr v 4) (Z.land v 15) et fl (((c0 * 256 + c1) * 256 + c2) * 256 + c3)
      (((d0 * 256 + d1) * 256 + d2) * 256 + d3)) end.
  split.
  - constructor; cbn; try done;
      try (repeat (apply Forall_cons; split; [done|]); by constructor); unfold is_u32, is_u8 in *; lia.
  - unfold header_bytes. cbn [InitiatorSPI ResponderSPI NextPayload MajorVersion MinorVersion
      ExchangeType Flags MessageID Length]. by rewrite Hv, !put32_of by done.
Qed.

(** What parses is the wire form of what it parses to. *)
Lemma ParseHeader_inv buf h :
  bytes_wf buf -> ParseHeader buf = Ok h ->
  header_ok h /\ buf = header_bytes h ++ drop 28 buf.
Proof.
  intros Hwf. destruct (Z.ltb_spec (len buf) 28) as [Hl|Hl].
  { unfold ParseHeader, HeaderLen. by rewrite (proj2 (Z.ltb_lt _ _)) by lia. }
  destruct (header_surj (take 28 buf)) as (h' & Hok & Hb).
  { by apply Forall_take. } { rewrite length_take_le; [done|]. unfold len in Hl. lia. }
  rewrite <- (take_drop 28 buf) at 1. rewrite Hb, ParseHeader_bytes by done. intros [= <-].
  split; [done|]. rewrite <- Hb. by rewrite take_drop.
Qed.

Lemma ParseHeader_short buf : len buf < HeaderLen -> ParseHeader buf = Err "buffer too short for IKE header".
Proof. intros. unfold ParseHeader. by rewrite (proj2 (Z.ltb_lt _ _)) by lia. Qed.

Lemma IkeParseHeader_total buf : HeaderLen <= len buf -> exists h, ParseHeader buf = Ok h.
Proof.
  unfold HeaderLen. intros Hl. unfold ParseHeader, HeaderLen. rewrite (proj2 (Z.ltb_ge _ 28)) by lia.
  rewrite !slice_ok by lia. rewrite !bind_Ok.
  destruct (idx_total buf 16) as (? & -> & _); [lia|]. destruct (idx_total buf 17) as (? & -> & _); [lia|].
  destruct (idx_total buf 18) as (? & -> & _); [lia|]. destruct (idx_total buf 19) as (? & -> & _); [lia|].
  destruct (be32_at_total buf 20) as [? ->]; [lia..|]. destruct (be32_at_total buf 24) as [? ->]; [lia..|].
  eexists. reflexivity.
Qed.

Lemma ParseHeader_not_panic buf : ParseHeader buf <> Panic.
Proof.
  destruct (Z.lt_ge_cases (len buf) HeaderLen) as [|H]; [by rewrite ParseHeader_short|].
  by destruct (IkeParseHeader_total buf H) as [h ->].
Qed.

End Hdr.
