(* ===== verification/IkePayload.v ===== *)
(** * IkePayload: payload headers and attributes ([payload.go], [payload_v1.go])

    The payload types, the generic payload header every payload starts with, the
    raw payload, and the ISAKMP data attributes both versions use.  A payload type
    is its number, as in the code. *)

From stdpp Require Import pretty.
From S2P Require Import Prelude Wire IkeHeader.

Module Pl.

Definition PayloadNoneV1 : Z := 0.
Definition PayloadSAV1 : Z := 1.
Definition PayloadProposalV1 : Z := 2.
Definition PayloadTransformV1 : Z := 3.
Definition PayloadKEV1 : Z := 4.
Definition PayloadIDV1 : Z := 5.
Definition PayloadCERTV1 : Z := 6.
Definition PayloadCERTREQV1 : Z := 7.
Definition PayloadHashV1 : Z := 8.
Definition PayloadSIGV1 : Z := 9.
Definition PayloadNonceV1 : Z := 10.
Definition PayloadNotifyV1 : Z := 11.
Definition PayloadDeleteV1 : Z := 12.
Definition PayloadVendorIDV1 : Z := 13.
Definition PayloadNATDV1 : Z := 20.
Definition PayloadNATOAV1 : Z := 21.
Definition PayloadNone : Z := 0.
Definition PayloadSA : Z := 33.
Definition PayloadKE : Z := 34.
Definition PayloadIDi : Z := 35.
Definition PayloadIDr : Z := 36.
Definition PayloadCERT : Z := 37.
Definition PayloadCERTREQ : Z := 38.
Definition PayloadAUTH : Z := 39.
Definition PayloadNonce : Z := 40.
Definition PayloadNotify : Z := 41.
Definition PayloadDelete : Z := 42.
Definition PayloadVendorID : Z := 43.
Definition PayloadTSi : Z := 44.
Definition PayloadTSr : Z := 45.
Definition PayloadSK : Z := 46.
Definition PayloadCP : Z := 47.
Definition PayloadEAP : Z := 48.
Definition PayloadSKF : Z := 53.

Definition PayloadType_String (pt : Z) : string :=
  if pt =? PayloadNone then "None"
  else if pt =? PayloadSAV1 then "SA (v1)"
  else if pt =? PayloadProposalV1 then "Proposal (v1)"
  else if pt =? PayloadTransformV1 then "Transform (v1)"
  else if pt =? PayloadKEV1 then "KE (v1)"
  else if pt =? PayloadIDV1 then "ID (v1)"
  else if pt =? PayloadCERTV1 then "CERT (v1)"
  else if pt =? PayloadCERTREQV1 then "CERTREQ (v1)"
  else if pt =? PayloadHashV1 then "Hash (v1)"
  else if pt =? PayloadSIGV1 then "SIG (v1)"
  else if pt =? PayloadNonceV1 then "Nonce (v1)"
  else if pt =? PayloadNotifyV1 then "Notify (v1)"
  else if pt =? PayloadDeleteV1 then "Delete (v1)"
  else if pt =? PayloadVendorIDV1 then "VendorID (v1)"
  else if pt =? PayloadNATDV1 then "NAT-D (v1)"
  else if pt =? PayloadNATOAV1 then "NAT-OA (v1)"
  else if pt =? PayloadSA then "SA"
  else if pt =? PayloadKE then "KE"
  else if pt =? PayloadIDi then "IDi"
  else if pt =? PayloadIDr then "IDr"
  else if pt =? PayloadCERT then "CERT"
  else if pt =? PayloadCERTREQ then "CERTREQ"
  else if pt =? PayloadAUTH then "AUTH"
  else if pt =? PayloadNonce then "Nonce"
  else if pt =? PayloadNotify then "Notify"
  else if pt =? PayloadDelete then "Delete"
  else if pt =? PayloadVendorID then "VendorID"
  else if pt =? PayloadTSi then "TSi"
  else if pt =? PayloadTSr then "TSr"
  else if pt =? PayloadSK then "SK"
  else if pt =? PayloadCP then "CP"
  else if pt =? PayloadEAP then "EAP"
  else if pt =? PayloadSKF then "SKF"
  else Hdr.unknown pt.

(** ** The generic payload header *)

Definition PayloadHeaderLen : Z := 4.

Record GenericPayloadHeader := mkGPH {
  gph_NextPayload : Z;
  gph_Critical : bool;
  gph_Length : Z
}.

#[global] Instance gph_eq_dec : EqDecision GenericPayloadHeader.
Proof. solve_decision. Defined.

Definition ParseGenericPayloadHeader (buf : bytes) : res GenericPayloadHeader :=
  if len buf <? PayloadHeaderLen then Err "buffer too short for payload header"
  else
    np ← idx buf 0;
    b1 ← idx buf 1;
    ln ← be16_at buf 2;
    Ok (mkGPH np (negb (Z.land b1 128 =? 0)) ln).

Definition GenericPayloadHeader_Marshal (g : GenericPayloadHeader) (buf : bytes) : res bytes :=
  if len buf <? PayloadHeaderLen then Err "buffer too short for payload header marshal"
  else
    buf ← set_at buf 0 (gph_NextPayload g);
    buf ← set_at buf 1 0;
    buf ← (if gph_Critical g then set_at buf 1 128 else Ok buf);
    put16_at buf 2 (gph_Length g).

(** A copy of a slice is the same list of bytes. *)
Definition cloneBytes (b : bytes) : bytes := b.

(** The payload type argument is ignored ([MarshalPayloadChain] writes the next type). *)
Definition marshalWithHeader (_ : Z) (body : bytes) : res bytes :=
  let totalLen := PayloadHeaderLen + len body in
  let buf := make totalLen in
  buf ← set_at buf 0 PayloadNone;
  buf ← put16_at buf 2 (u16 totalLen);
  copy_at buf PayloadHeaderLen body.

(** ** Raw payloads *)

Record RawPayload := mkRaw { raw_PayloadType : Z; raw_Data : bytes }.

Definition RawPayload_Marshal (r : RawPayload) : res bytes :=
  let totalLen := PayloadHeaderLen + len (raw_Data r) in
  let buf := make totalLen in
  buf ← GenericPayloadHeader_Marshal (mkGPH PayloadNone false (u16 totalLen)) buf;
  copy_at buf PayloadHeaderLen (raw_Data r).

(** ** The wire form of a payload *)

(** A payload with the next type [np], not critical. *)
Definition payload_bytes (np : Z) (body : bytes) : bytes :=
  np :: 0 :: put16 (PayloadHeaderLen + len body) ++ body.

Lemma len_payload_bytes np body : len (payload_bytes np body) = 4 + len body.
Proof. unfold payload_bytes. len_norm. lia. Qed.

Lemma payload_bytes_wf np body : is_u8 np -> bytes_wf body -> bytes_wf (payload_bytes np body).
Proof.
  intros. unfold payload_bytes. apply Forall_cons; split; [done|]. apply Forall_cons; split; [by unfold is_u8|].
  apply Forall_app_2; [apply put16_wf|done].
Qed.

Lemma put16_u16 v : put16 (u16 v) = put16 v.
Proof.
  unfold put16, u16. assert (forall x y z w : Z, x = y -> z = w -> [x; z] = [y; w]) as E by (by intros ???? -> ->).
  apply E; Z.div_mod_to_equations; lia.
Qed.

Lemma make_cons n : 0 < n -> make n = 0 :: make (n - 1).
Proof. intros. unfold make. by replace (Z.to_nat n) with (S (Z.to_nat (n - 1))) by lia. Qed.

(** A byte the code leaves at zero. *)
Lemma fill_skip l n : 0 < n -> l ++ make n = (l ++ [0]) ++ make (n - 1).
Proof. intros. rewrite make_cons by done. by rewrite <- app_assoc. Qed.

Lemma marshalWithHeader_ok pt body : marshalWithHeader pt body = Ok (payload_bytes 0 body).
Proof.
  pose proof (len_nonneg body). unfold marshalWithHeader, PayloadHeaderLen, PayloadNone.
  rewrite (fill_start (4 + _)). fill_step. rewrite fill_skip by lia. fill_step.
  rewrite fill_copy by (len_norm; lia). rewrite make_0, app_nil_r, put16_u16 by (len_norm; lia). done.
Qed.

(** A generic header and a body written into a fresh buffer. *)
Lemma wrap_ok np body :
  (buf ← GenericPayloadHeader_Marshal (mkGPH np false (u16 (4 + len body))) (make (4 + len body));
   copy_at buf 4 body) = Ok (payload_bytes np body).
Proof.
  pose proof (len_nonneg body).
  unfold GenericPayloadHeader_Marshal, PayloadHeaderLen.
  cbn [gph_NextPayload gph_Critical gph_Length].
  rewrite (proj2 (Z.ltb_ge _ 4)) by (len_norm; lia). rewrite (fill_start (4 + _)).
  rewrite bind_assoc. fill_step. rewrite bind_assoc. fill_step. rewrite bind_assoc, bind_Ok. fill_step.
  rewrite fill_copy by (len_norm; lia). rewrite make_0, app_nil_r, put16_u16 by (len_norm; lia). done.
Qed.

Lemma RawPayload_Marshal_ok r : RawPayload_Marshal r = Ok (payload_bytes 0 (raw_Data r)).
Proof. apply wrap_ok. Qed.

(** [marshal_body] evaluates the left-to-right construction of a body; what is
    skipped stays zero. *)
Ltac fill_body := repeat first [ fill_step | rewrite fill_skip by (len_norm; lia) ].
Ltac marshal_body :=
  match goal with |- context [make ?n] => rewrite (fill_start n) end; fill_body;
  rewrite make_0, app_nil_r by (len_norm; lia);
  rewrite marshalWithHeader_ok, <- ?app_assoc; try reflexivity.

(** The header of a payload that ends with its body, and the body. *)
Lemma ParseGenericPayloadHeader_ok np body rest :
  4 + len body < 65536 ->
  ParseGenericPayloadHeader (payload_bytes np body ++ rest) = Ok (mkGPH np false (4 + len body)).
Proof.
  intros Hl. pose proof (len_nonneg body). pose proof (len_nonneg rest).
  unfold ParseGenericPayloadHeader, payload_bytes, PayloadHeaderLen in *. cbn [app]. rewrite <- app_assoc.
  rewrite (proj2 (Z.ltb_ge _ 4)) by (len_norm; lia).
  assert (is_u16 (4 + len body)) by (unfold is_u16; lia). rd. done.
Qed.

Lemma ParseGenericPayloadHeader_total buf :
  4 <= len buf -> exists g, ParseGenericPayloadHeader buf = Ok g.
Proof.
  intros Hl. unfold ParseGenericPayloadHeader, PayloadHeaderLen. rewrite (proj2 (Z.ltb_ge _ 4)) by lia.
  destruct (idx_total buf 0) as (? & -> & _); [lia|]. destruct (idx_total buf 1) as (? & -> & _); [lia|].
  destruct (be16_at_total buf 2) as [? ->]; [lia..|]. eexists. reflexivity.
Qed.

Lemma ParseGenericPayloadHeader_u16 buf g :
  bytes_wf buf -> ParseGenericPayloadHeader buf = Ok g ->
  is_u8 (gph_NextPayload g) /\ is_u16 (gph_Length g).
Proof.
  intros Hwf. unfold ParseGenericPayloadHeader. case_match; [done|].
  intros (np & Hnp & (b & _ & (ln & Hln & [= <-])%bind_Ok_inv)%bind_Ok_inv)%bind_Ok_inv. cbn. split.
  - by eapply idx_u8.
  - by eapply be16_at_u16.
Qed.

End Pl.

Module Attr.
Import Pl.

(** ** ISAKMP data attributes *)

(** Type/Value (two bytes) when [at_IsTV], Type/Length/Value otherwise. *)
Record ISAKMPAttribute := mkAttr { at_Type : Z; at_IsTV : bool; at_Value : bytes }.

#[global] Instance attr_eq_dec : EqDecision ISAKMPAttribute.
Proof. solve_decision. Defined.

Definition ISAKMPAttribute_Marshal (a : ISAKMPAttribute) : res bytes :=
  if at_IsTV a then
    let buf := make 4 in
    buf ← put16_at buf 0 (Z.lor (at_Type a) 32768);
    if 2 <=? len (at_Value a) then
      v ← slice (at_Value a) 0 2;
      copy_at buf 2 v
    else Ok buf
  else
    let buf := make (4 + len (at_Value a)) in
    buf ← put16_at buf 0 (Z.land (at_Type a) 32767);
    buf ← put16_at buf 2 (u16 (len (at_Value a)));
    copy_at buf 4 (at_Value a).

(** The loop of [ParseISAKMPAttributes]; an iteration consumes at least four bytes,
    so the length of the buffer is fuel enough ([ParseISAKMPAttributes_total]). *)
Fixpoint parse_attrs (fuel : nat) (buf : bytes) (offset : Z) : res (list ISAKMPAttribute) :=
  if offset + 4 <=? len buf then
    match fuel with
    | O => Panic
    | S fuel =>
      typeField ← be16_at buf offset;
      let isTV := negb (Z.land typeField 32768 =? 0) in
      let attrType := Z.land typeField 32767 in
      if isTV then
        v ← slice buf (offset + 2) (offset + 4);
        l ← parse_attrs fuel buf (offset + 4);
        Ok (mkAttr attrType true (cloneBytes v) :: l)
      else
        attrLen ← be16_at buf (offset + 2);
        if offset + 4 + attrLen >? len buf then Ok []
        else
          v ← slice buf (offset + 4) (offset + 4 + attrLen);
          l ← parse_attrs fuel buf (offset + (4 + attrLen));
          Ok (mkAttr attrType false (cloneBytes v) :: l)
    end
  else Ok [].

Definition ParseISAKMPAttributes (buf : bytes) : res (list ISAKMPAttribute) :=
  parse_attrs (length buf) buf 0.

(** The loop [for _, attr := range attrs { b = append(b, attr.Marshal()...) }]. *)
Fixpoint marshal_attrs (l : list ISAKMPAttribute) : res bytes :=
  match l with
  | [] => Ok []
  | a :: l =>
    d ← ISAKMPAttribute_Marshal a;
    r ← marshal_attrs l;
    Ok (d ++ r)
  end.

(** What the wire can carry: fifteen bits of type, a value of the announced length. *)
Definition attr_ok (a : ISAKMPAttribute) : Prop :=
  0 <= at_Type a < 32768 /\ bytes_wf (at_Value a) /\
  if at_IsTV a then length (at_Value a) = 2%nat else len (at_Value a) < 65536.

Definition attr_bytes (a : ISAKMPAttribute) : bytes :=
  if at_IsTV a then put16 (at_Type a + 32768) ++ at_Value a
  else put16 (at_Type a) ++ put16 (len (at_Value a)) ++ at_Value a.

Definition attrs_bytes (l : list ISAKMPAttribute) : bytes := concat (attr_bytes <$> l).

#[global] Instance attr_ok_dec a : Decision (attr_ok a).
Proof. unfold attr_ok. destruct (at_IsTV a); apply _. Defined.

Lemma attr_bytes_wf a : attr_ok a -> bytes_wf (attr_bytes a).
Proof.
  intros (_ & Hv & _). unfold attr_bytes. destruct (at_IsTV a);
    repeat (apply Forall_app_2; [apply put16_wf|]); done.
Qed.

Lemma attrs_bytes_wf l : Forall attr_ok l -> bytes_wf (attrs_bytes l).
Proof. intros H. apply Forall_concat_map. eapply Forall_impl; [exact H|]. apply attr_bytes_wf. Qed.

Lemma attr_bytes_len a : attr_ok a -> 4 <= len (attr_bytes a).
Proof.
  intros (_ & _ & Hv). unfold attr_bytes. pose proof (len_nonneg (at_Value a)).
  destruct (at_IsTV a); len_norm; [unfold len; lia|lia].
Qed.

Lemma attrs_bytes_length l : Forall attr_ok l -> (length l <= length (attrs_bytes l))%nat.
Proof.
  induction 1 as [|a l Ha _ IH]; [done|]. cbn. rewrite length_app.
  apply attr_bytes_len in Ha. unfold len, attrs_bytes in *. lia.
Qed.

Lemma Marshal_bytes a : attr_ok a -> ISAKMPAttribute_Marshal a = Ok (attr_bytes a).
Proof.
  intros (Ht & _ & Hv). unfold ISAKMPAttribute_Marshal, attr_bytes. pose proof (len_nonneg (at_Value a)) as Hn.
  destruct (at_IsTV a).
  - rewrite lor_high by done. assert (len (at_Value a) = 2) as L by (unfold len; lia).
    rewrite (fill_start 4). fill_step. rewrite (proj2 (Z.leb_le 2 _)) by lia.
    rewrite slice_whole, bind_Ok by lia. rewrite fill_copy by (len_norm; lia). rewrite L.
    by rewrite make_0, app_nil_r by lia.
  - rewrite land_low, Z.mod_small by (unfold is_u16; lia). rewrite (fill_start (4 + _)).
    do 2 fill_step. rewrite fill_copy by (len_norm; lia).
    rewrite make_0, app_nil_r, put16_u16, <- !app_assoc by (len_norm; lia). done.
Qed.

Lemma marshal_attrs_bytes l : Forall attr_ok l -> marshal_attrs l = Ok (attrs_bytes l).
Proof.
  induction 1 as [|a l Ha _ IH]; [done|]. cbn. by rewrite Marshal_bytes, bind_Ok, IH, bind_Ok by done.
Qed.

Lemma parse_attrs_end fuel buf offset : len buf < offset + 4 -> parse_attrs fuel buf offset = Ok [].
Proof. intros. destruct fuel; cbn [parse_attrs]; by rewrite (proj2 (Z.leb_gt _ _)) by lia. Qed.

Lemma parse_attr_step fuel pre a rest :
  attr_ok a ->
  parse_attrs (S fuel) (pre ++ attr_bytes a ++ rest) (len pre) =
  (l ← parse_attrs fuel (pre ++ attr_bytes a ++ rest) (len (pre ++ attr_bytes a)); Ok (a :: l)).
Proof.
  intros Hok. pose proof (attr_bytes_len a Hok). destruct Hok as (Ht & _ & Hv). destruct a as [t tv v].
  cbn [at_Type at_IsTV at_Value] in *. pose proof (len_nonneg pre). pose proof (len_nonneg v).
  pose proof (len_nonneg rest).
  cbn [parse_attrs]. rewrite (proj2 (Z.leb_le _ _)) by (len_norm; lia).
  unfold attr_bytes in *. cbn [at_Type at_IsTV at_Value] in *. destruct tv.
  - assert (is_u16 (t + 32768)) by (unfold is_u16; lia). assert (len v = 2) as Lv by (unfold len; lia).
    rewrite <- !app_assoc. get. rewrite land_high, (proj2 (Z.leb_le 32768 _)) by (done || lia).
    cbn [Z.eqb negb]. cut. rewrite land_low by done.
    replace ((t + 32768) mod 32768) with t by (Z.div_mod_to_equations; lia).
    by replace (len (pre ++ put16 (t + 32768) ++ v)) with (len pre + 4) by (len_norm; lia).
  - assert (is_u16 t) by (unfold is_u16; lia). assert (is_u16 (len v)) by (unfold is_u16; lia).
    rewrite <- !app_assoc. get. rewrite land_high, (proj2 (Z.leb_gt 32768 _)) by (done || lia).
    cbn [Z.eqb negb]. get. rewrite gtb_false by (len_norm; lia). cut.
    rewrite land_low, Z.mod_small by (done || lia).
    by replace (len (pre ++ put16 t ++ put16 (len v) ++ v)) with (len pre + (4 + len v)) by (len_norm; lia).
Qed.

Lemma parse_attrs_bytes l : Forall attr_ok l -> forall fuel pre,
  (length l <= fuel)%nat -> parse_attrs fuel (pre ++ attrs_bytes l) (len pre) = Ok l.
Proof.
  induction 1 as [|a l Ha _ IH]; intros fuel pre Hf.
  - apply parse_attrs_end. unfold attrs_bytes. cbn. rewrite app_nil_r. lia.
  - destruct fuel as [|fuel]; [cbn in Hf; lia|]. unfold attrs_bytes. cbn [fmap list_fmap concat].
    rewrite parse_attr_step by done. rewrite app_assoc. unfold attrs_bytes in IH.
    rewrite IH by (cbn in Hf; lia). done.
Qed.

Lemma ParseISAKMPAttributes_bytes l : Forall attr_ok l -> ParseISAKMPAttributes (attrs_bytes l) = Ok l.
Proof.
  intros H. unfold ParseISAKMPAttributes. by apply (parse_attrs_bytes l H _ []), attrs_bytes_length.
Qed.

(** Parsing never fails: the fuel is enough, every slice is in range. *)
Lemma parse_attrs_total buf : bytes_wf buf -> forall fuel offset,
  0 <= offset -> len buf - offset < 4 * (Z.of_nat fuel + 1) -> exists l, parse_attrs fuel buf offset = Ok l.
Proof.
  intros Hwf. induction fuel as [|fuel IH]; intros offset Ho Hf.
  { rewrite parse_attrs_end by lia. by eexists. }
  cbn [parse_attrs]. destruct (Z.leb_spec (offset + 4) (len buf)) as [Hb|]; [|by eexists].
  destruct (be16_at_total buf offset) as [t ->]; [lia..|]. rewrite bind_Ok. case_match.
  - rewrite slice_ok, bind_Ok by lia. destruct (IH (offset + 4)) as [l ->]; [lia..|]. by eexists.
  - destruct (be16_at_total buf (offset + 2)) as [n Hn]; [lia..|]. rewrite Hn, bind_Ok.
    apply be16_at_u16 in Hn; [|done]. unfold is_u16 in Hn.
    destruct (Z.gtb_spec (offset + 4 + n) (len buf)); [by eexists|].
    rewrite slice_ok, bind_Ok by lia. destruct (IH (offset + (4 + n))) as [l ->]; [lia..|]. by eexists.
Qed.

Lemma ParseISAKMPAttributes_total buf : bytes_wf buf -> exists l, ParseISAKMPAttributes buf = Ok l.
Proof. intros. apply parse_attrs_total; [done|lia|]. unfold len. lia. Qed.

End Attr.
