(* ===== verification/IkeSA.v ===== *)
(** * IkeSA: the IKEv2 security association payload ([payload_sa.go])

    Proposals and transforms: the nested structures of the SA payload, their
    marshalling, and the two loops that parse them. *)

From S2P Require Import Prelude Wire IkePayload.

Module SA.
Import Pl Attr.

(** ** Registry values the code names *)

Definition V1AttrEncryptionAlg : Z := 1.
Definition V1AttrHashAlg : Z := 2.
Definition V1AttrAuthMethod : Z := 3.
Definition V1AttrGroupDesc : Z := 4.
Definition V1AttrLifeType : Z := 11.
Definition V1AttrLifeDuration : Z := 12.
Definition V1AttrKeyLength : Z := 14.
Definition V1AuthPreSharedKey : Z := 1.
Definition V1AuthRSA_Sig : Z := 3.
Definition V1AuthXAUTH_InitPSK : Z := 65001.
Definition V1AuthXAUTH_RespPSK : Z := 65005.
Definition V1Encr3DES_CBC : Z := 5.
Definition V1EncrAES_CBC : Z := 7.
Definition V1HashMD5 : Z := 1.
Definition V1HashSHA1 : Z := 2.
Definition V1HashSHA256 : Z := 4.
Definition V1HashSHA384 : Z := 5.
Definition V1HashSHA512 : Z := 6.

Definition TransformTypeENCR : Z := 1.
Definition TransformTypePRF : Z := 2.
Definition TransformTypeINTG : Z := 3.
Definition TransformTypeDH : Z := 4.
Definition TransformTypeESN : Z := 5.

Definition Encr3DES : Z := 3.
Definition EncrAES_CBC : Z := 12.
Definition EncrAES_GCM_16 : Z := 20.
Definition EncrCHACHA20 : Z := 28.
Definition PRFHMAC_MD5 : Z := 1.
Definition PRFHMAC_SHA1 : Z := 2.
Definition PRFHMAC_SHA256 : Z := 5.
Definition PRFHMAC_SHA384 : Z := 6.
Definition PRFHMAC_SHA512 : Z := 7.
Definition AuthNone : Z := 0.
Definition AuthHMAC_MD5_96 : Z := 1.
Definition AuthHMAC_SHA1_96 : Z := 2.
Definition AuthHMAC_SHA256_128 : Z := 12.
Definition AuthHMAC_SHA384_192 : Z := 13.
Definition AuthHMAC_SHA512_256 : Z := 14.
Definition DHNone : Z := 0.
Definition DHGroup2 : Z := 2.
Definition DHGroup5 : Z := 5.
Definition DHGroup14 : Z := 14.
Definition DHGroup15 : Z := 15.
Definition DHGroup16 : Z := 16.
Definition DHGroup19 : Z := 19.
Definition DHGroup20 : Z := 20.
Definition DHGroup21 : Z := 21.
Definition ESNNone : Z := 0.
Definition ESNYes : Z := 1.
Definition AttrKeyLength : Z := 14.

Definition ProtocolIKE : Z := 1.
Definition ProtocolAH : Z := 2.
Definition ProtocolESP : Z := 3.

(** ** Data *)

Record Transform := mkTransform {
  tr_Type : Z;
  tr_ID : Z;
  tr_KeyLength : Z;
  tr_IsLast : bool
}.

Record Proposal := mkProposal {
  pr_Number : Z;
  pr_ProtocolID : Z;
  pr_SPI : bytes;
  pr_Transforms : list Transform;
  pr_IsLast : bool
}.

Record SAPayload := mkSA { sa_Proposals : list Proposal }.

#[global] Instance transform_eq_dec : EqDecision Transform.
Proof. solve_decision. Defined.
#[global] Instance proposal_eq_dec : EqDecision Proposal.
Proof. solve_decision. Defined.

(** ** Marshalling *)

Definition marshalV2Transform (xf : Transform) (isLast : bool) : res bytes :=
  attrBytes ← (if tr_KeyLength xf >? 0 then
    let attr := make 4 in
    attr ← put16_at attr 0 (Z.lor AttrKeyLength 32768);
    put16_at attr 2 (tr_KeyLength xf)
  else Ok []);
  let xfLen := 8 + len attrBytes in
  let buf := make xfLen in
  buf ← set_at buf 0 (if isLast then 0 else 3);
  buf ← put16_at buf 2 (u16 xfLen);
  buf ← set_at buf 4 (tr_Type xf);
  buf ← put16_at buf 6 (tr_ID xf);
  copy_at buf 8 attrBytes.

(** The loop of [marshalV2Proposal] over its transforms; [n] is their number. *)
Fixpoint marshal_transforms (n i : Z) (l : list Transform) : res bytes :=
  match l with
  | [] => Ok []
  | xf :: l =>
    d ← marshalV2Transform xf (i =? n - 1);
    r ← marshal_transforms n (i + 1) l;
    Ok (d ++ r)
  end.

Definition marshalV2Proposal (prop : Proposal) (isLast : bool) : res bytes :=
  xformBytes ← marshal_transforms (len (pr_Transforms prop)) 0 (pr_Transforms prop);
  let spiSize := len (pr_SPI prop) in
  let propLen := 8 + spiSize + len xformBytes in
  let buf := make propLen in
  buf ← set_at buf 0 (if isLast then 0 else 2);
  buf ← put16_at buf 2 (u16 propLen);
  buf ← set_at buf 4 (pr_Number prop);
  buf ← set_at buf 5 (pr_ProtocolID prop);
  buf ← set_at buf 6 (u8 spiSize);
  buf ← set_at buf 7 (u8 (len (pr_Transforms prop)));
  buf ← copy_at buf 8 (pr_SPI prop);
  copy_at buf (8 + spiSize) xformBytes.

Fixpoint marshal_proposals (n i : Z) (l : list Proposal) : res bytes :=
  match l with
  | [] => Ok []
  | prop :: l =>
    d ← marshalV2Proposal prop (i =? n - 1);
    r ← marshal_proposals n (i + 1) l;
    Ok (d ++ r)
  end.

Definition SAPayload_Marshal (p : SAPayload) : res bytes :=
  proposalBytes ← marshal_proposals (len (sa_Proposals p)) 0 (sa_Proposals p);
  marshalWithHeader PayloadSA proposalBytes.

(** ** Parsing *)

(** The key length of a transform: the last such attribute wins. *)
Fixpoint key_length (attrs : list ISAKMPAttribute) (keyLength : Z) : res Z :=
  match attrs with
  | [] => Ok keyLength
  | attr :: attrs =>
    if (at_Type attr =? AttrKeyLength) && at_IsTV attr && (2 <=? len (at_Value attr)) then
      v ← be16 (at_Value attr);
      key_length attrs v
    else key_length attrs keyLength
  end.

Fixpoint parse_transforms (count : nat) (buf : bytes) (offset : Z) : res (list Transform) :=
  match count with
  | O => Ok []
  | S count =>
    if offset <? len buf then
      if offset + 8 >? len buf then Ok []
      else
        lastOrMore ← idx buf offset;
        xfLen ← be16_at buf (offset + 2);
        xfType ← idx buf (offset + 4);
        xfID ← be16_at buf (offset + 6);
        if (xfLen <? 8) || (offset + xfLen >? len buf) then Ok []
        else
          keyLength ← (if xfLen >? 8 then
            s ← slice buf (offset + 8) (offset + xfLen);
            attrs ← ParseISAKMPAttributes s;
            key_length attrs 0
          else Ok 0);
          let t := mkTransform xfType xfID keyLength (lastOrMore =? 0) in
          if lastOrMore =? 0 then Ok [t]
          else
            l ← parse_transforms count buf (offset + xfLen);
            Ok (t :: l)
    else Ok []
  end.

Definition parseV2Transforms (buf : bytes) (count : Z) : res (list Transform) :=
  parse_transforms (Z.to_nat count) buf 0.

(** The loop of [parseV2SA]; an iteration consumes at least eight bytes. *)
Fixpoint parse_proposals (fuel : nat) (body : bytes) (offset : Z) : res (list Proposal) :=
  if offset <? len body then
    match fuel with
    | O => Panic
    | S fuel =>
      if offset + 8 >? len body then Err "SA proposal header truncated"
      else
        lastOrMore ← idx body offset;
        propLen ← be16_at body (offset + 2);
        propNum ← idx body (offset + 4);
        protocolID ← idx body (offset + 5);
        spiSize ← idx body (offset + 6);
        numTransforms ← idx body (offset + 7);
        if (propLen <? 8) || (offset + propLen >? len body) then Err "SA proposal length invalid"
        else
          spi ← (if spiSize >? 0 then
            if offset + 8 + spiSize >? offset + propLen then Err "SA proposal SPI truncated"
            else s ← slice body (offset + 8) (offset + 8 + spiSize); Ok (cloneBytes s)
          else Ok []);
          tb ← slice body (offset + 8 + spiSize) (offset + propLen);
          transforms ← parseV2Transforms tb numTransforms;
          let p := mkProposal propNum protocolID spi transforms (lastOrMore =? 0) in
          if lastOrMore =? 0 then Ok [p]
          else
            l ← parse_proposals fuel body (offset + propLen);
            Ok (p :: l)
    end
  else Ok [].

Definition parseV2SA (body : bytes) : res SAPayload :=
  l ← parse_proposals (length body) body 0;
  Ok (mkSA l).

(** ** The wire format *)

(** [IsLast] marks the last element of a list and no other. *)
Fixpoint last_marked {A} (f : A -> bool) (l : list A) : Prop :=
  match l with
  | [] => True
  | x :: l => f x = bool_decide (l = []) /\ last_marked f l
  end.

Definition transform_ok (t : Transform) : Prop :=
  is_u8 (tr_Type t) /\ is_u16 (tr_ID t) /\ is_u16 (tr_KeyLength t).

(** A proposal whose counts fit their byte. *)
Record proposal_ok (p : Proposal) : Prop := {
  po_number : is_u8 (pr_Number p);
  po_proto : is_u8 (pr_ProtocolID p);
  po_spi : bytes_wf (pr_SPI p);
  po_spi_len : len (pr_SPI p) < 256;
  po_tr : Forall transform_ok (pr_Transforms p);
  po_tr_len : len (pr_Transforms p) < 256;
  po_tr_last : last_marked tr_IsLast (pr_Transforms p)
}.

Definition sa_ok (p : SAPayload) : Prop :=
  Forall proposal_ok (sa_Proposals p) /\ last_marked pr_IsLast (sa_Proposals p).

Definition key_attr_bytes (t : Transform) : bytes :=
  if 0 <? tr_KeyLength t then put16 32782 ++ put16 (tr_KeyLength t) else [].

Definition transform_bytes (t : Transform) : bytes :=
  (if tr_IsLast t then 0 else 3) :: 0 :: put16 (8 + len (key_attr_bytes t)) ++
  tr_Type t :: 0 :: put16 (tr_ID t) ++ key_attr_bytes t.

Definition transforms_bytes (l : list Transform) : bytes := concat (transform_bytes <$> l).

Definition proposal_bytes (p : Proposal) : bytes :=
  let xf := transforms_bytes (pr_Transforms p) in
  (if pr_IsLast p then 0 else 2) :: 0 :: put16 (8 + len (pr_SPI p) + len xf) ++
  pr_Number p :: pr_ProtocolID p :: len (pr_SPI p) :: len (pr_Transforms p) :: pr_SPI p ++ xf.

Definition sa_bytes (p : SAPayload) : bytes := concat (proposal_bytes <$> sa_Proposals p).

(** ** Transforms *)

Lemma len_key_attr t : len (key_attr_bytes t) = if 0 <? tr_KeyLength t then 4 else 0.
Proof. unfold key_attr_bytes. by case_match. Qed.

Lemma key_attr_range t : 0 <= len (key_attr_bytes t) <= 4.
Proof. rewrite len_key_attr. case_match; lia. Qed.

Lemma len_transform_bytes t : len (transform_bytes t) = 8 + len (key_attr_bytes t).
Proof. unfold transform_bytes. len_norm. lia. Qed.

Lemma transform_bytes_wf t : transform_ok t -> bytes_wf (transform_bytes t).
Proof. intros (Ht & _ & _). unfold transform_bytes, key_attr_bytes. wf_bytes. Qed.

Lemma marshalV2Transform_bytes t :
  transform_ok t -> marshalV2Transform t (tr_IsLast t) = Ok (transform_bytes t).
Proof.
  intros (Ht & Hid & Hk). unfold marshalV2Transform.
  assert ((if tr_KeyLength t >? 0 then
    attr ← put16_at (make 4) 0 (Z.lor AttrKeyLength 32768); put16_at attr 2 (tr_KeyLength t)
    else Ok []) = Ok (key_attr_bytes t)) as ->.
  { unfold key_attr_bytes. rewrite Z.gtb_ltb. case_match; [|done]. rewrite (fill_start 4). fill_step.
    rewrite fill_put16 by (len_norm; lia). by rewrite make_0, app_nil_r. }
  pose proof (key_attr_range t). rewrite bind_Ok, (fill_start (8 + _)). do 2 first [fill_step | rewrite fill_skip by lia; fill_step].
  fill_step. rewrite fill_skip by lia. fill_step. rewrite fill_copy by (len_norm; lia).
  rewrite make_0, app_nil_r, put16_u16, <- !app_assoc by (len_norm; lia). done.
Qed.

Lemma marshal_transforms_bytes n l : Forall transform_ok l -> last_marked tr_IsLast l -> forall i,
  i + len l = n -> marshal_transforms n i l = Ok (transforms_bytes l).
Proof.
  induction 1 as [|t l Ht _ IH]; intros Hl i Hi; [done|]. destruct Hl as [Hlast Hl]. cbn [marshal_transforms].
  assert ((i =? n - 1) = tr_IsLast t) as ->.
  { rewrite Hlast. rewrite len_cons in Hi. pose proof (len_nonneg l).
    case_bool_decide as E; [subst l; rewrite (@len_nil Transform) in Hi; lia|].
    assert (len l <> 0) by (intros ?%len_0_inv; done). lia. }
  rewrite marshalV2Transform_bytes, bind_Ok by done. rewrite IH, bind_Ok; [done..|]. rewrite len_cons in Hi. lia.
Qed.

Lemma key_length_parse t :
  transform_ok t -> 0 < tr_KeyLength t ->
  (attrs ← ParseISAKMPAttributes (key_attr_bytes t); key_length attrs 0) = Ok (tr_KeyLength t).
Proof.
  intros (_ & _ & Hk) Hpos. unfold key_attr_bytes. rewrite (proj2 (Z.ltb_lt 0 _)) by done.
  assert (attr_ok (mkAttr 14 true (put16 (tr_KeyLength t)))) as Hok by (split_and!; [done..|apply put16_wf|done]).
  assert (put16 32782 ++ put16 (tr_KeyLength t) = attrs_bytes [mkAttr 14 true (put16 (tr_KeyLength t))]) as ->
    by done.
  rewrite ParseISAKMPAttributes_bytes by (by apply Forall_singleton). rewrite bind_Ok. cbn [key_length at_Type at_IsTV at_Value].
  rewrite len_put16. cbn [Z.eqb Z.leb andb]. by rewrite be16_put16_nil, bind_Ok.
Qed.

Lemma parse_transform_step c pre t rest :
  transform_ok t ->
  parse_transforms (S c) (pre ++ transform_bytes t ++ rest) (len pre) =
  if tr_IsLast t then Ok [t]
  else (l ← parse_transforms c (pre ++ transform_bytes t ++ rest) (len (pre ++ transform_bytes t)); Ok (t :: l)).
Proof.
  intros Hok. pose proof (key_attr_range t) as Hk. pose proof (key_length_parse t Hok) as Hp.
  pose proof (len_nonneg pre). pose proof (len_nonneg rest).
  cbn [parse_transforms]. rewrite len_app, len_app, len_transform_bytes.
  rewrite (proj2 (Z.ltb_lt _ _)), gtb_false by lia.
  unfold transform_bytes. set (lb := if tr_IsLast t then 0 else 3). cbn [app]. rewrite <- !app_assoc. cbn [app].
  rewrite <- !app_assoc. destruct Hok as (Ht & Hid & Hkl).
  assert (is_u16 (8 + len (key_attr_bytes t))) by (unfold is_u16; lia).
  do 4 get. rewrite (proj2 (Z.ltb_ge _ 8)), gtb_false by lia. cbn [orb].
  eapply bind_step with (a := tr_KeyLength t).
  { rewrite len_key_attr. destruct (Z.ltb_spec 0 (tr_KeyLength t)) as [Hpos|Hz].
    - rewrite <- (Hp Hpos). cbn [Z.gtb Z.add Z.compare Pos.compare Pos.compare_cont].
      assert (len (key_attr_bytes t) = 4) by (rewrite len_key_attr, (proj2 (Z.ltb_lt _ _)) by done; done).
      cut. done.
    - unfold is_u16 in Hkl. cbn. f_equal. lia. }
  cbv beta. rewrite len_key_attr. rewrite <- len_key_attr.
  assert ((lb =? 0) = tr_IsLast t) as -> by (unfold lb; by case_match).
  assert (mkTransform (tr_Type t) (tr_ID t) (tr_KeyLength t) (tr_IsLast t) = t) as -> by (by destruct t).
  case_match; [done|]. do 2 f_equal. len_norm. lia.
Qed.

Lemma parse_transforms_bytes l : Forall transform_ok l -> last_marked tr_IsLast l -> forall c pre,
  (length l <= c)%nat -> parse_transforms c (pre ++ transforms_bytes l) (len pre) = Ok l.
Proof.
  induction 1 as [|t l Ht _ IH]; intros Hl c pre Hc.
  - destruct c; cbn [parse_transforms]; [done|]. unfold transforms_bytes. cbn. rewrite app_nil_r.
    by rewrite Z.ltb_irrefl.
  - destruct c as [|c]; [cbn in Hc; lia|]. destruct Hl as [Hlast Hl]. unfold transforms_bytes in *.
    cbn [fmap list_fmap concat]. rewrite parse_transform_step by done. rewrite Hlast.
    case_bool_decide; [by subst l|]. rewrite app_assoc, IH by (done || cbn in Hc; lia). done.
Qed.

Lemma parseV2Transforms_bytes l n :
  Forall transform_ok l -> last_marked tr_IsLast l -> n = len l -> parseV2Transforms (transforms_bytes l) n = Ok l.
Proof.
  intros ?? ->. unfold parseV2Transforms. apply (parse_transforms_bytes l) with (pre := []); [done..|]. unfold len. lia.
Qed.

Lemma transforms_len l : len (transforms_bytes l) <= 12 * len l.
Proof.
  unfold transforms_bytes. induction l as [|t l IH]; [done|]. cbn [fmap list_fmap concat].
  rewrite len_app, len_cons, len_transform_bytes. pose proof (key_attr_range t). lia.
Qed.

Lemma transforms_bytes_wf l : Forall transform_ok l -> bytes_wf (transforms_bytes l).
Proof. intros H. apply Forall_concat_map. eapply Forall_impl; [exact H|]. apply transform_bytes_wf. Qed.

(** ** Proposals *)

Lemma len_proposal_bytes p :
  len (proposal_bytes p) = 8 + len (pr_SPI p) + len (transforms_bytes (pr_Transforms p)).
Proof. unfold proposal_bytes. len_norm. lia. Qed.

Lemma proposal_range p :
  proposal_ok p -> 0 <= len (pr_SPI p) + len (transforms_bytes (pr_Transforms p)) < 4000.
Proof.
  intros []. pose proof (transforms_len (pr_Transforms p)). pose proof (len_nonneg (pr_SPI p)).
  pose proof (len_nonneg (transforms_bytes (pr_Transforms p))). lia.
Qed.

Lemma proposal_bytes_wf p : proposal_ok p -> bytes_wf (proposal_bytes p).
Proof.
  intros []. pose proof (transforms_bytes_wf _ po_tr0). pose proof (len_nonneg (pr_SPI p)).
  pose proof (len_nonneg (pr_Transforms p)). unfold proposal_bytes. wf_bytes.
Qed.

Lemma marshalV2Proposal_bytes p :
  proposal_ok p -> marshalV2Proposal p (pr_IsLast p) = Ok (proposal_bytes p).
Proof.
  intros Hok. pose proof (proposal_range p Hok). destruct Hok. unfold marshalV2Proposal.
  rewrite marshal_transforms_bytes, bind_Ok by (done || lia). set (xf := transforms_bytes _) in *.
  pose proof (len_nonneg (pr_SPI p)). pose proof (len_nonneg xf). pose proof (len_nonneg (pr_Transforms p)).
  rewrite !u8_id by (unfold is_u8; lia).
  rewrite (fill_start (8 + _ + _)). fill_step. rewrite fill_skip by lia. do 6 fill_step.
  rewrite fill_copy by (len_norm; lia). rewrite make_0, app_nil_r, put16_u16, <- !app_assoc by (len_norm; lia). done.
Qed.

Lemma marshal_proposals_bytes n l : Forall proposal_ok l -> last_marked pr_IsLast l -> forall i,
  i + len l = n -> marshal_proposals n i l = Ok (concat (proposal_bytes <$> l)).
Proof.
  induction 1 as [|t l Ht _ IH]; intros Hl i Hi; [done|]. destruct Hl as [Hlast Hl]. cbn [marshal_proposals].
  assert ((i =? n - 1) = pr_IsLast t) as ->.
  { rewrite Hlast. rewrite len_cons in Hi. pose proof (len_nonneg l).
    case_bool_decide as E; [subst l; rewrite (@len_nil Proposal) in Hi; lia|].
    assert (len l <> 0) by (intros ?%len_0_inv; done). lia. }
  rewrite marshalV2Proposal_bytes, bind_Ok by done. rewrite IH, bind_Ok; [done..|]. rewrite len_cons in Hi. lia.
Qed.

Lemma SAPayload_Marshal_bytes p : sa_ok p -> SAPayload_Marshal p = Ok (payload_bytes 0 (sa_bytes p)).
Proof.
  intros [Hok Hl]. unfold SAPayload_Marshal. rewrite marshal_proposals_bytes, bind_Ok by done.
  apply marshalWithHeader_ok.
Qed.

Lemma sa_bytes_wf p : sa_ok p -> bytes_wf (sa_bytes p).
Proof. intros [H _]. apply Forall_concat_map. eapply Forall_impl; [exact H|]. apply proposal_bytes_wf. Qed.

Lemma parse_proposal_step fuel pre p rest :
  proposal_ok p ->
  parse_proposals (S fuel) (pre ++ proposal_bytes p ++ rest) (len pre) =
  if pr_IsLast p then Ok [p]
  else (l ← parse_proposals fuel (pre ++ proposal_bytes p ++ rest) (len (pre ++ proposal_bytes p)); Ok (p :: l)).
Proof.
  intros Hok. pose proof (proposal_range p Hok) as Hr. pose proof (len_proposal_bytes p) as Hlp. destruct Hok.
  pose proof (len_nonneg (pr_SPI p)). pose proof (len_nonneg (pr_Transforms p)).
  pose proof (len_nonneg (transforms_bytes (pr_Transforms p))).
  pose proof (parseV2Transforms_bytes _ _ po_tr0 po_tr_last0 eq_refl) as Hp.
  pose proof (len_nonneg pre). pose proof (len_nonneg rest).
  cbn [parse_proposals]. rewrite !len_app, Hlp.
  rewrite (proj2 (Z.ltb_lt _ _)), gtb_false by lia.
  revert Hlp. unfold proposal_bytes. set (lb := if pr_IsLast p then 0 else 2).
  set (xf := transforms_bytes (pr_Transforms p)) in *. cbn [app]. rewrite <- !app_assoc. cbn [app].
  rewrite <- !app_assoc. intros Hlp. assert (is_u16 (8 + len (pr_SPI p) + len xf)) by (unfold is_u16; lia).
  do 6 get. rewrite (proj2 (Z.ltb_ge _ 8)), gtb_false by lia. cbn [orb].
  eapply bind_step with (a := pr_SPI p).
  { destruct (Z.gtb_spec (len (pr_SPI p)) 0).
    - rewrite gtb_false by lia. cut. done.
    - by rewrite (len_0_inv (pr_SPI p)) by lia. }
  cbv beta. cut. rewrite Hp, bind_Ok.
  assert ((lb =? 0) = pr_IsLast p) as -> by (unfold lb; by case_match).
  assert (mkProposal (pr_Number p) (pr_ProtocolID p) (pr_SPI p) (pr_Transforms p) (pr_IsLast p) = p) as ->
    by (by destruct p).
  case_match; [done|]. do 2 f_equal; len_norm; lia.
Qed.

Lemma parse_proposals_bytes l : Forall proposal_ok l -> last_marked pr_IsLast l -> forall fuel pre,
  (length l <= fuel)%nat -> parse_proposals fuel (pre ++ concat (proposal_bytes <$> l)) (len pre) = Ok l.
Proof.
  induction 1 as [|t l Ht _ IH]; intros Hl c pre Hc.
  - destruct c; cbn; rewrite app_nil_r; by rewrite Z.ltb_irrefl.
  - destruct c as [|c]; [cbn in Hc; lia|]. destruct Hl as [Hlast Hl].
    cbn [fmap list_fmap concat]. rewrite parse_proposal_step by done. rewrite Hlast.
    case_bool_decide; [by subst l|]. rewrite app_assoc. unfold fmap in IH. rewrite IH by (done || cbn in Hc; lia). done.
Qed.

Lemma parseV2SA_bytes p : sa_ok p -> parseV2SA (sa_bytes p) = Ok p.
Proof.
  intros [Hok Hl]. unfold parseV2SA, sa_bytes.
  rewrite (parse_proposals_bytes _ Hok Hl _ []); [by destruct p|].
  clear Hl. induction Hok as [|q l Hq _ IH]; [done|]. cbn [fmap list_fmap concat length].
  rewrite length_app. pose proof (len_proposal_bytes q). pose proof (proposal_range q Hq). unfold len in *. lia.
Qed.

(** ** Totality: no body makes the parser panic *)

Lemma key_length_total attrs k : exists v, key_length attrs k = Ok v.
Proof.
  revert k. induction attrs as [|a l IH]; intros k; cbn; [by eexists|]. case_match eqn:E; [|apply IH].
  rewrite !andb_true_iff, Z.leb_le in E. destruct (be16_ok (at_Value a)) as [v ->]; [lia|]. apply IH.
Qed.

Lemma parse_transforms_total buf : bytes_wf buf -> forall c offset,
  0 <= offset -> exists l, parse_transforms c buf offset = Ok l.
Proof.
  intros Hwf. induction c as [|c IH]; intros offset Ho; cbn [parse_transforms]; [by eexists|].
  case_match; [|by eexists]. destruct (Z.gtb_spec (offset + 8) (len buf)); [by eexists|].
  destruct (idx_total buf offset) as (lm & -> & _); [lia|]. destruct (idx_total buf (offset + 4)) as (? & -> & _); [lia|].
  destruct (be16_at_total buf (offset + 2)) as [n ->]; [lia..|].
  destruct (be16_at_total buf (offset + 6)) as [? ->]; [lia..|]. rewrite !bind_Ok.
  destruct (Z.ltb_spec n 8); [by eexists|]. destruct (Z.gtb_spec (offset + n) (len buf)); [by eexists|]. cbn [orb].
  assert (exists k, (if n >? 8 then s ← slice buf (offset + 8) (offset + n);
    attrs ← ParseISAKMPAttributes s; key_length attrs 0 else Ok 0) = Ok k) as [k ->].
  { case_match; [|by eexists]. rewrite slice_ok, bind_Ok by lia.
    destruct (ParseISAKMPAttributes_total (sub buf (offset + 8) (offset + n))) as [attrs ->]; [by apply Forall_sub|].
    apply key_length_total. }
  rewrite bind_Ok. case_match; [by eexists|]. destruct (IH (offset + n)) as [l ->]; [lia|]. by eexists.
Qed.

Lemma parse_proposals_not_panic body : bytes_wf body -> forall fuel offset,
  0 <= offset -> len body - offset <= Z.of_nat fuel -> parse_proposals fuel body offset <> Panic.
Proof.
  intros Hwf. induction fuel as [|fuel IH]; intros offset Ho Hf; cbn [parse_proposals];
    destruct (Z.ltb_spec offset (len body)); try done; [lia|].
  destruct (Z.gtb_spec (offset + 8) (len body)); [done|].
  destruct (idx_total body offset) as (lm & -> & _); [lia|].
  destruct (be16_at_total body (offset + 2)) as [n ->]; [lia..|].
  destruct (idx_total body (offset + 4)) as (? & -> & _); [lia|].
  destruct (idx_total body (offset + 5)) as (? & -> & _); [lia|].
  destruct (idx_total body (offset + 6)) as (k & Hk & _); [lia|].
  destruct (idx_total body (offset + 7)) as (? & -> & _); [lia|]. rewrite Hk, !bind_Ok.
  apply idx_u8 in Hk; [|done]. unfold is_u8 in Hk.
  destruct (Z.ltb_spec n 8); [done|]. destruct (Z.gtb_spec (offset + n) (len body)); [done|]. cbn [orb].
  destruct (Z.gtb_spec k 0).
  - destruct (Z.gtb_spec (offset + 8 + k) (offset + n)); [done|].
    rewrite !slice_ok, !bind_Ok by lia. unfold parseV2Transforms.
    destruct (parse_transforms_total (sub body (offset + 8 + k) (offset + n)) ltac:(by apply Forall_sub)
      (Z.to_nat x1) 0) as [l ->]; [lia|]. rewrite bind_Ok. case_match; [done|].
    apply bind_not_Panic; [apply IH; lia|done].
  - rewrite bind_Ok, slice_ok, bind_Ok by lia. unfold parseV2Transforms.
    destruct (parse_transforms_total (sub body (offset + 8 + k) (offset + n)) ltac:(by apply Forall_sub)
      (Z.to_nat x1) 0) as [l ->]; [lia|]. rewrite bind_Ok. case_match; [done|].
    apply bind_not_Panic; [apply IH; lia|done].
Qed.

Lemma parseV2SA_not_panic body : bytes_wf body -> parseV2SA body <> Panic.
Proof.
  intros. unfold parseV2SA. apply bind_not_Panic; [|done]. apply parse_proposals_not_panic; [done|lia|].
  unfold len. lia.
Qed.

End SA.
