(* ===== verification/IkeV2.v ===== *)
(** * IkeV2: the IKEv2 payloads ([payload_v2.go], [SKFPayload] of [fragment.go])

    One record per payload, its [Marshal] and its parser.  The parsers of the
    Notify and Traffic Selector payloads can panic; when exactly is proved. *)

From S2P Require Import Prelude Wire IkePayload.

Module V2.
Import Pl.

(** ** Registry values *)

Definition NotifyUnsupportedCriticalPayload : Z := 1.
Definition NotifyInvalidIKESPI : Z := 4.
Definition NotifyInvalidMajorVersion : Z := 5.
Definition NotifyInvalidSyntax : Z := 7.
Definition NotifyInvalidMessageID : Z := 9.
Definition NotifyInvalidSPI : Z := 11.
Definition NotifyNoProposalChosen : Z := 14.
Definition NotifyInvalidKEPayload : Z := 17.
Definition NotifyAuthenticationFailed : Z := 24.
Definition NotifySinglePairRequired : Z := 34.
Definition NotifyNoAdditionalSAS : Z := 35.
Definition NotifyInternalAddressFailure : Z := 36.
Definition NotifyFailedCPRequired : Z := 37.
Definition NotifyTSUnacceptable : Z := 38.
Definition NotifyInvalidSelectors : Z := 39.
Definition NotifyTemporaryFailure : Z := 43.
Definition NotifyChildSANotFound : Z := 44.
Definition NotifyInitialContact : Z := 16384.
Definition NotifySetWindowSize : Z := 16385.
Definition NotifyAdditionalTSPossible : Z := 16386.
Definition NotifyIPCOMPSupported : Z := 16387.
Definition NotifyNATDetectionSourceIP : Z := 16388.
Definition NotifyNATDetectionDestIP : Z := 16389.
Definition NotifyCookie : Z := 16390.
Definition NotifyUseTransportMode : Z := 16391.
Definition NotifyHTTPCertLookupSupported : Z := 16392.
Definition NotifyRekeyingSA : Z := 16393.
Definition NotifyESPTFCPaddingNotSupported : Z := 16394.
Definition NotifyNonFirstFragmentsAlso : Z := 16395.
Definition NotifyMOBIKESupported : Z := 16396.
Definition NotifyAdditionalIP4Address : Z := 16397.
Definition NotifyAdditionalIP6Address : Z := 16398.
Definition NotifyNoAdditionalAddresses : Z := 16399.
Definition NotifyUpdateSAAddresses : Z := 16400.
Definition NotifyCookie2 : Z := 16401.
Definition NotifyNoNATSFound : Z := 16402.
Definition NotifyIKEv2FragmentationSupported : Z := 16430.
Definition NotifySignatureHashAlgorithms : Z := 16431.

Definition IDIPv4Addr : Z := 1.
Definition IDFQDN : Z := 2.
Definition IDRfc822Addr : Z := 3.
Definition IDIPv6Addr : Z := 5.
Definition IDDerASN1DN : Z := 9.
Definition IDDerASN1GN : Z := 10.
Definition IDKeyID : Z := 11.

Definition AuthRSASig : Z := 1.
Definition AuthSharedKey : Z := 2.
Definition AuthDSSSig : Z := 3.
Definition AuthECDSASHA256 : Z := 9.
Definition AuthECDSASHA384 : Z := 10.
Definition AuthECDSASHA512 : Z := 11.
Definition AuthDigitalSig : Z := 14.

Definition CertPKCS7Wrapped : Z := 1.
Definition CertPGP : Z := 2.
Definition CertDNSSigned : Z := 3.
Definition CertX509Sig : Z := 4.
Definition CertKerberosToken : Z := 6.
Definition CertCRL : Z := 7.
Definition CertARL : Z := 8.
Definition CertSPKI : Z := 9.
Definition CertX509Attr : Z := 10.
Definition CertRawRSA : Z := 11.
Definition CertHashAndURLX509 : Z := 12.
Definition CertHashAndURLBundle : Z := 13.

Definition CPRequest : Z := 1.
Definition CPReply : Z := 2.
Definition CPSet : Z := 3.
Definition CPAck : Z := 4.

Definition ConfigInternalIP4Address : Z := 1.
Definition ConfigInternalIP4Netmask : Z := 2.
Definition ConfigInternalIP4DNS : Z := 3.
Definition ConfigInternalIP4NBNS : Z := 4.
Definition ConfigInternalIP4DHCP : Z := 6.
Definition ConfigApplicationVersion : Z := 7.
Definition ConfigInternalIP6Address : Z := 8.
Definition ConfigInternalIP6DNS : Z := 10.
Definition ConfigInternalIP4Subnet : Z := 13.
Definition ConfigSupportedAttributes : Z := 14.
Definition ConfigInternalIP6Subnet : Z := 15.

Definition TSIPv4AddrRange : Z := 7.
Definition TSIPv6AddrRange : Z := 8.

(** ** Data *)

Record KEPayload := mkKE { ke_DHGroup : Z; ke_Data : bytes }.
Record NoncePayload := mkNonce { nonce_NonceData : bytes }.
Record IDPayload := mkID { id_IsInitiator : bool; id_IDType : Z; id_Data : bytes }.
Record CERTPayload := mkCERT { cert_Encoding : Z; cert_Data : bytes }.
Record CERTREQPayload := mkCERTREQ { certreq_Encoding : Z; certreq_Data : bytes }.
Record AUTHPayload := mkAUTH { auth_Method : Z; auth_Data : bytes }.
Record NotifyPayload := mkNotify {
  nt_ProtocolID : Z;
  nt_SPISize : Z;
  nt_NotifyMsgType : Z;
  nt_SPI : bytes;
  nt_NotifyData : bytes
}.
Record DeletePayload := mkDelete { del_ProtocolID : Z; del_SPISize : Z; del_SPIs : list bytes }.
Record VendorIDPayload := mkVendorID { vid_VendorData : bytes }.
Record TrafficSelector := mkTrafficSelector {
  ts_TSType : Z;
  ts_IPProtoID : Z;
  ts_StartPort : Z;
  ts_EndPort : Z;
  ts_StartAddr : bytes;
  ts_EndAddr : bytes
}.
Record TSPayload := mkTS { tsp_IsInitiator : bool; tsp_Selectors : list TrafficSelector }.
Record SKPayload := mkSK { sk_EncryptedData : bytes }.
Record ConfigAttribute := mkConfigAttribute { ca_Type : Z; ca_Value : bytes }.
Record CPPayload := mkCP { cp_ConfigType : Z; cp_Attributes : list ConfigAttribute }.
Record EAPPayload := mkEAP { eap_Data : bytes }.
Record SKFPayload := mkSKF { skf_FragmentNumber : Z; skf_TotalFragments : Z; skf_EncryptedData : bytes }.

Definition IDPayload_Type (p : IDPayload) : Z := if id_IsInitiator p then PayloadIDi else PayloadIDr.
Definition TSPayload_Type (p : TSPayload) : Z := if tsp_IsInitiator p then PayloadTSi else PayloadTSr.

(** ** Marshalling *)

Definition KEPayload_Marshal (p : KEPayload) : res bytes :=
  let body := make (4 + len (ke_Data p)) in
  body ← put16_at body 0 (ke_DHGroup p);
  body ← copy_at body 4 (ke_Data p);
  marshalWithHeader PayloadKE body.

Definition NoncePayload_Marshal (p : NoncePayload) : res bytes :=
  marshalWithHeader PayloadNonce (nonce_NonceData p).

Definition IDPayload_Marshal (p : IDPayload) : res bytes :=
  let body := make (4 + len (id_Data p)) in
  body ← set_at body 0 (id_IDType p);
  body ← copy_at body 4 (id_Data p);
  marshalWithHeader (IDPayload_Type p) body.

Definition CERTPayload_Marshal (p : CERTPayload) : res bytes :=
  let body := make (1 + len (cert_Data p)) in
  body ← set_at body 0 (cert_Encoding p);
  body ← copy_at body 1 (cert_Data p);
  marshalWithHeader PayloadCERT body.

Definition CERTREQPayload_Marshal (p : CERTREQPayload) : res bytes :=
  let body := make (1 + len (certreq_Data p)) in
  body ← set_at body 0 (certreq_Encoding p);
  body ← copy_at body 1 (certreq_Data p);
  marshalWithHeader PayloadCERTREQ body.

Definition AUTHPayload_Marshal (p : AUTHPayload) : res bytes :=
  let body := make (4 + len (auth_Data p)) in
  body ← set_at body 0 (auth_Method p);
  body ← copy_at body 4 (auth_Data p);
  marshalWithHeader PayloadAUTH body.

Definition NotifyPayload_Marshal (p : NotifyPayload) : res bytes :=
  let body := make (4 + len (nt_SPI p) + len (nt_NotifyData p)) in
  body ← set_at body 0 (nt_ProtocolID p);
  body ← set_at body 1 (u8 (len (nt_SPI p)));
  body ← put16_at body 2 (nt_NotifyMsgType p);
  body ← copy_at body 4 (nt_SPI p);
  body ← copy_at body (4 + len (nt_SPI p)) (nt_NotifyData p);
  marshalWithHeader PayloadNotify body.

(** The loop that copies the SPIs of a Delete payload, [size] bytes apart. *)
Fixpoint copy_spis (size : Z) (l : list bytes) (body : bytes) (offset : Z) : res bytes :=
  match l with
  | [] => Ok body
  | spi :: l =>
    body ← copy_at body offset spi;
    copy_spis size l body (offset + size)
  end.

Definition DeletePayload_Marshal (p : DeletePayload) : res bytes :=
  let body := make (4 + len (del_SPIs p) * del_SPISize p) in
  body ← set_at body 0 (del_ProtocolID p);
  body ← set_at body 1 (del_SPISize p);
  body ← put16_at body 2 (u16 (len (del_SPIs p)));
  body ← copy_spis (del_SPISize p) (del_SPIs p) body 4;
  marshalWithHeader PayloadDelete body.

Definition VendorIDPayload_Marshal (p : VendorIDPayload) : res bytes :=
  marshalWithHeader PayloadVendorID (vid_VendorData p).

Fixpoint marshal_selectors (l : list TrafficSelector) : res bytes :=
  match l with
  | [] => Ok []
  | ts :: l =>
    let addrLen := len (ts_StartAddr ts) in
    let tsLen := 8 + addrLen * 2 in
    let tsBuf := make tsLen in
    tsBuf ← set_at tsBuf 0 (ts_TSType ts);
    tsBuf ← set_at tsBuf 1 (ts_IPProtoID ts);
    tsBuf ← put16_at tsBuf 2 (u16 tsLen);
    tsBuf ← put16_at tsBuf 4 (ts_StartPort ts);
    tsBuf ← put16_at tsBuf 6 (ts_EndPort ts);
    tsBuf ← copy_at tsBuf 8 (ts_StartAddr ts);
    tsBuf ← copy_at tsBuf (8 + addrLen) (ts_EndAddr ts);
    r ← marshal_selectors l;
    Ok (tsBuf ++ r)
  end.

Definition TSPayload_Marshal (p : TSPayload) : res bytes :=
  selectorBytes ← marshal_selectors (tsp_Selectors p);
  let body := make (4 + len selectorBytes) in
  body ← set_at body 0 (u8 (len (tsp_Selectors p)));
  body ← copy_at body 4 selectorBytes;
  marshalWithHeader (TSPayload_Type p) body.

Definition SKPayload_Marshal (p : SKPayload) : res bytes :=
  marshalWithHeader PayloadSK (sk_EncryptedData p).

Fixpoint marshal_config (l : list ConfigAttribute) : res bytes :=
  match l with
  | [] => Ok []
  | attr :: l =>
    let attrBuf := make (4 + len (ca_Value attr)) in
    attrBuf ← put16_at attrBuf 0 (ca_Type attr);
    attrBuf ← put16_at attrBuf 2 (u16 (len (ca_Value attr)));
    attrBuf ← copy_at attrBuf 4 (ca_Value attr);
    r ← marshal_config l;
    Ok (attrBuf ++ r)
  end.

Definition CPPayload_Marshal (p : CPPayload) : res bytes :=
  attrBytes ← marshal_config (cp_Attributes p);
  let body := make (4 + len attrBytes) in
  body ← set_at body 0 (cp_ConfigType p);
  body ← copy_at body 4 attrBytes;
  marshalWithHeader PayloadCP body.

Definition EAPPayload_Marshal (p : EAPPayload) : res bytes :=
  marshalWithHeader PayloadEAP (eap_Data p).

Definition SKFPayload_Marshal (p : SKFPayload) : res bytes :=
  let body := make (4 + len (skf_EncryptedData p)) in
  body ← put16_at body 0 (skf_FragmentNumber p);
  body ← put16_at body 2 (skf_TotalFragments p);
  body ← copy_at body 4 (skf_EncryptedData p);
  marshalWithHeader PayloadSKF body.

(** ** Parsing *)

(** [body[a:]]. *)
Definition from (body : bytes) (a : Z) : res bytes := s ← slice body a (len body); Ok (cloneBytes s).

Definition parseV2KE (body : bytes) : res KEPayload :=
  if len body <? 4 then Err "KE payload too short"
  else
    g ← be16_at body 0;
    d ← from body 4;
    Ok (mkKE g d).

Definition parseV2Nonce (body : bytes) : res NoncePayload := Ok (mkNonce (cloneBytes body)).

Definition parseV2ID (body : bytes) (isInitiator : bool) : res IDPayload :=
  if len body <? 4 then Err "ID payload too short"
  else
    t ← idx body 0;
    d ← from body 4;
    Ok (mkID isInitiator t d).

Definition parseV2Cert (body : bytes) : res CERTPayload :=
  if len body <? 1 then Err "CERT payload too short"
  else
    e ← idx body 0;
    d ← from body 1;
    Ok (mkCERT e d).

Definition parseV2CertReq (body : bytes) : res CERTREQPayload :=
  if len body <? 1 then Err "CERTREQ payload too short"
  else
    e ← idx body 0;
    d ← from body 1;
    Ok (mkCERTREQ e d).

Definition parseV2Auth (body : bytes) : res AUTHPayload :=
  if len body <? 4 then Err "AUTH payload too short"
  else
    m ← idx body 0;
    d ← from body 4;
    Ok (mkAUTH m d).

(** [4 + spiSize] is computed in [uint8]. *)
Definition parseV2Notify (body : bytes) : res NotifyPayload :=
  if len body <? 4 then Err "Notify payload too short"
  else
    protocolID ← idx body 0;
    spiSize ← idx body 1;
    msgType ← be16_at body 2;
    let e := u8 (4 + spiSize) in
    if e >? len body then Err "Notify SPI extends beyond payload"
    else
      spi ← (if spiSize >? 0 then s ← slice body 4 e; Ok (cloneBytes s) else Ok []);
      notifyData ← (if e <? len body then from body e else Ok []);
      Ok (mkNotify protocolID spiSize msgType spi notifyData).

Fixpoint parse_spis (n : nat) (size : Z) (body : bytes) (offset : Z) : res (list bytes) :=
  match n with
  | O => Ok []
  | S n =>
    s ← slice body offset (offset + size);
    l ← parse_spis n size body (offset + size);
    Ok (cloneBytes s :: l)
  end.

Definition parseV2Delete (body : bytes) : res DeletePayload :=
  if len body <? 4 then Err "Delete payload too short"
  else
    protocolID ← idx body 0;
    spiSize ← idx body 1;
    numSPIs ← be16_at body 2;
    let expectedLen := 4 + numSPIs * spiSize in
    if len body <? expectedLen then Err "Delete payload truncated"
    else
      spis ← parse_spis (Z.to_nat numSPIs) spiSize body 4;
      Ok (mkDelete protocolID spiSize spis).

(** Go's integer division truncates: [(7 - 8) / 2 = 0], [(6 - 8) / 2 = -1]. *)
Fixpoint parse_selectors (n : nat) (body : bytes) (offset : Z) : res (list TrafficSelector) :=
  match n with
  | O => Ok []
  | S n =>
    if offset + 8 >? len body then Err "TS selector header truncated"
    else
      tsType ← idx body offset;
      ipProto ← idx body (offset + 1);
      selectorLen ← be16_at body (offset + 2);
      startPort ← be16_at body (offset + 4);
      endPort ← be16_at body (offset + 6);
      if offset + selectorLen >? len body then Err "TS selector extends beyond payload"
      else
        let addrLen := Z.quot (selectorLen - 8) 2 in
        startAddr ← slice body (offset + 8) (offset + 8 + addrLen);
        endAddr ← slice body (offset + 8 + addrLen) (offset + 8 + addrLen * 2);
        l ← parse_selectors n body (offset + selectorLen);
        Ok (mkTrafficSelector tsType ipProto startPort endPort (cloneBytes startAddr) (cloneBytes endAddr) :: l)
  end.

Definition parseV2TS (body : bytes) (isInitiator : bool) : res TSPayload :=
  if len body <? 4 then Err "TS payload too short"
  else
    numTS ← idx body 0;
    selectors ← parse_selectors (Z.to_nat numTS) body 4;
    Ok (mkTS isInitiator selectors).

(** The loop of [parseV2CP]; an iteration consumes at least four bytes. *)
Fixpoint parse_config (fuel : nat) (body : bytes) (offset : Z) : res (list ConfigAttribute) :=
  if offset + 4 <=? len body then
    match fuel with
    | O => Panic
    | S fuel =>
      attrType ← be16_at body offset;
      attrLen ← be16_at body (offset + 2);
      if offset + 4 + attrLen >? len body then Ok []
      else
        v ← slice body (offset + 4) (offset + 4 + attrLen);
        l ← parse_config fuel body (offset + (4 + attrLen));
        Ok (mkConfigAttribute attrType (cloneBytes v) :: l)
    end
  else Ok [].

Definition parseV2CP (body : bytes) : res CPPayload :=
  if len body <? 4 then Err "CP payload too short"
  else
    cpType ← idx body 0;
    attrs ← parse_config (length body) body 4;
    Ok (mkCP cpType attrs).

Definition parseV2SKF (body : bytes) : res SKFPayload :=
  if len body <? 4 then Err "SKF payload too short"
  else
    n ← be16_at body 0;
    t ← be16_at body 2;
    d ← from body 4;
    Ok (mkSKF n t d).

(** ** The wire format: payloads with fixed fields and a rest *)

(** A field of the wire is a number of its width; the rest is bytes. *)
Definition ke_ok (p : KEPayload) : Prop := is_u16 (ke_DHGroup p) /\ bytes_wf (ke_Data p).
Definition id_ok (p : IDPayload) : Prop := is_u8 (id_IDType p) /\ bytes_wf (id_Data p).
Definition cert_ok (p : CERTPayload) : Prop := is_u8 (cert_Encoding p) /\ bytes_wf (cert_Data p).
Definition certreq_ok (p : CERTREQPayload) : Prop := is_u8 (certreq_Encoding p) /\ bytes_wf (certreq_Data p).
Definition auth_ok (p : AUTHPayload) : Prop := is_u8 (auth_Method p) /\ bytes_wf (auth_Data p).
Definition skf_ok (p : SKFPayload) : Prop :=
  is_u16 (skf_FragmentNumber p) /\ is_u16 (skf_TotalFragments p) /\ bytes_wf (skf_EncryptedData p).

Definition ke_body (p : KEPayload) : bytes := put16 (ke_DHGroup p) ++ 0 :: 0 :: ke_Data p.
Definition id_body (p : IDPayload) : bytes := id_IDType p :: 0 :: 0 :: 0 :: id_Data p.
Definition cert_body (p : CERTPayload) : bytes := cert_Encoding p :: cert_Data p.
Definition certreq_body (p : CERTREQPayload) : bytes := certreq_Encoding p :: certreq_Data p.
Definition auth_body (p : AUTHPayload) : bytes := auth_Method p :: 0 :: 0 :: 0 :: auth_Data p.
Definition skf_body (p : SKFPayload) : bytes :=
  put16 (skf_FragmentNumber p) ++ put16 (skf_TotalFragments p) ++ skf_EncryptedData p.

Lemma KEPayload_Marshal_body p : KEPayload_Marshal p = Ok (payload_bytes 0 (ke_body p)).
Proof. unfold KEPayload_Marshal. pose proof (len_nonneg (ke_Data p)). marshal_body. Qed.
Lemma IDPayload_Marshal_body p : IDPayload_Marshal p = Ok (payload_bytes 0 (id_body p)).
Proof. unfold IDPayload_Marshal. pose proof (len_nonneg (id_Data p)). marshal_body. Qed.
Lemma CERTPayload_Marshal_body p : CERTPayload_Marshal p = Ok (payload_bytes 0 (cert_body p)).
Proof. unfold CERTPayload_Marshal. pose proof (len_nonneg (cert_Data p)). marshal_body. Qed.
Lemma CERTREQPayload_Marshal_body p : CERTREQPayload_Marshal p = Ok (payload_bytes 0 (certreq_body p)).
Proof. unfold CERTREQPayload_Marshal. pose proof (len_nonneg (certreq_Data p)). marshal_body. Qed.
Lemma AUTHPayload_Marshal_body p : AUTHPayload_Marshal p = Ok (payload_bytes 0 (auth_body p)).
Proof. unfold AUTHPayload_Marshal. pose proof (len_nonneg (auth_Data p)). marshal_body. Qed.
Lemma SKFPayload_Marshal_body p : SKFPayload_Marshal p = Ok (payload_bytes 0 (skf_body p)).
Proof. unfold SKFPayload_Marshal. pose proof (len_nonneg (skf_EncryptedData p)). marshal_body. Qed.

Lemma from_app l l1 l2 a : l = l1 ++ l2 -> a = len l1 -> from l a = Ok l2.
Proof.
  intros -> ->. unfold from, cloneBytes. rewrite slice_skip, slice_whole, bind_Ok by (len_norm; lia). done.
Qed.
Lemma from_total l a : 0 <= a -> a <= len l -> exists s, from l a = Ok s.
Proof. intros. unfold from. rewrite slice_ok, bind_Ok by lia. by eexists. Qed.
Lemma from_panic l a : len l < a -> from l a = Panic.
Proof. intros. unfold from. by rewrite slice_panic. Qed.

(** [parse_fixed] evaluates a parser of fixed fields on their wire form. *)
Ltac parse_fixed d :=
  pose proof (len_nonneg d);
  rewrite (proj2 (Z.ltb_ge _ _)) by (len_norm; lia); rd.

Lemma parseV2KE_body p : ke_ok p -> parseV2KE (ke_body p) = Ok p.
Proof.
  intros [Hg _]. unfold parseV2KE, ke_body. parse_fixed (ke_Data p).
  rewrite (from_app _ (put16 (ke_DHGroup p) ++ [0; 0]) (ke_Data p)) by done. by destruct p.
Qed.
Lemma parseV2ID_body p : parseV2ID (id_body p) (id_IsInitiator p) = Ok p.
Proof.
  unfold parseV2ID, id_body. parse_fixed (id_Data p).
  rewrite (from_app _ [id_IDType p; 0; 0; 0] (id_Data p)) by done. by destruct p.
Qed.
Lemma parseV2Cert_body p : parseV2Cert (cert_body p) = Ok p.
Proof.
  unfold parseV2Cert, cert_body. parse_fixed (cert_Data p).
  rewrite (from_app _ [cert_Encoding p] (cert_Data p)) by done. by destruct p.
Qed.
Lemma parseV2CertReq_body p : parseV2CertReq (certreq_body p) = Ok p.
Proof.
  unfold parseV2CertReq, certreq_body. parse_fixed (certreq_Data p).
  rewrite (from_app _ [certreq_Encoding p] (certreq_Data p)) by done. by destruct p.
Qed.
Lemma parseV2Auth_body p : parseV2Auth (auth_body p) = Ok p.
Proof.
  unfold parseV2Auth, auth_body. parse_fixed (auth_Data p).
  rewrite (from_app _ [auth_Method p; 0; 0; 0] (auth_Data p)) by done. by destruct p.
Qed.
Lemma parseV2SKF_body p : skf_ok p -> parseV2SKF (skf_body p) = Ok p.
Proof.
  intros (Hn & Ht & _). unfold parseV2SKF, skf_body. parse_fixed (skf_EncryptedData p).
  rewrite (from_app _ (put16 (skf_FragmentNumber p) ++ put16 (skf_TotalFragments p)) (skf_EncryptedData p)) by done. by destruct p.
Qed.

(** The parsers of fixed fields never panic. *)
Ltac total_fixed :=
  match goal with |- (if ?a <? ?b then _ else _) <> Panic => destruct (Z.ltb_spec a b); [done|] end;
  repeat match goal with
  | |- context [be16_at ?l ?a] => destruct (be16_at_total l a) as [? ->]; [lia..|]; rewrite bind_Ok
  | |- context [idx ?l ?a] => destruct (idx_total l a) as (? & -> & _); [lia|]; rewrite bind_Ok
  | |- context [from ?l ?a] => destruct (from_total l a) as [? ->]; [lia..|]; rewrite bind_Ok
  end; done.

Lemma parseV2KE_np body : parseV2KE body <> Panic.
Proof. unfold parseV2KE. total_fixed. Qed.
Lemma parseV2ID_np body i : parseV2ID body i <> Panic.
Proof. unfold parseV2ID. total_fixed. Qed.
Lemma parseV2Cert_np body : parseV2Cert body <> Panic.
Proof. unfold parseV2Cert. total_fixed. Qed.
Lemma parseV2CertReq_np body : parseV2CertReq body <> Panic.
Proof. unfold parseV2CertReq. total_fixed. Qed.
Lemma parseV2Auth_np body : parseV2Auth body <> Panic.
Proof. unfold parseV2Auth. total_fixed. Qed.
Lemma parseV2SKF_np body : parseV2SKF body <> Panic.
Proof. unfold parseV2SKF. total_fixed. Qed.

(** ** Notify *)

(** At most 251 bytes of SPI: beyond, the length arithmetic of the parser wraps. *)
Record notify_ok (p : NotifyPayload) : Prop := {
  no_proto : is_u8 (nt_ProtocolID p);
  no_size : nt_SPISize p = len (nt_SPI p);
  no_max : len (nt_SPI p) <= 251;
  no_type : is_u16 (nt_NotifyMsgType p);
  no_spi : bytes_wf (nt_SPI p);
  no_data : bytes_wf (nt_NotifyData p)
}.

Definition notify_body (p : NotifyPayload) : bytes :=
  nt_ProtocolID p :: len (nt_SPI p) :: put16 (nt_NotifyMsgType p) ++ nt_SPI p ++ nt_NotifyData p.

Lemma NotifyPayload_Marshal_body p : notify_ok p -> NotifyPayload_Marshal p = Ok (payload_bytes 0 (notify_body p)).
Proof.
  intros []. unfold NotifyPayload_Marshal. pose proof (len_nonneg (nt_SPI p)). pose proof (len_nonneg (nt_NotifyData p)).
  rewrite u8_id by (unfold is_u8; lia). marshal_body.
Qed.

Lemma parseV2Notify_body p : notify_ok p -> parseV2Notify (notify_body p) = Ok p.
Proof.
  intros []. unfold parseV2Notify, notify_body. pose proof (len_nonneg (nt_SPI p)).
  pose proof (len_nonneg (nt_NotifyData p)). rewrite (proj2 (Z.ltb_ge _ _)) by (len_norm; lia).
  do 3 get. rewrite u8_id by (unfold is_u8; lia). rewrite gtb_false by (len_norm; lia).
  eapply bind_step with (a := nt_SPI p).
  { destruct (Z.gtb_spec (len (nt_SPI p)) 0).
    - cut. done.
    - by rewrite (len_0_inv (nt_SPI p)) by lia. }
  cbv beta. eapply bind_step with (a := nt_NotifyData p).
  { case_match eqn:E.
    - apply (from_app _ (nt_ProtocolID p :: len (nt_SPI p) :: put16 (nt_NotifyMsgType p) ++ nt_SPI p)).
      + done.
      + len_norm. lia.
    - rewrite (len_0_inv (nt_NotifyData p)); [done|]. apply Z.ltb_ge in E. len_norm. lia. }
  destruct p. cbn in *. by subst.
Qed.

(** The uint8 addition wraps for an SPI size of 252 and more, and then only. *)
Definition notify_crashes (body : bytes) : bool :=
  match body with _ :: spiSize :: _ :: _ :: _ => 252 <=? spiSize | _ => false end.

Lemma parseV2Notify_panic body : bytes_wf body -> parseV2Notify body = Panic <-> notify_crashes body = true.
Proof.
  intros Hwf. unfold parseV2Notify. destruct (Z.ltb_spec (len body) 4) as [Hl|Hl].
  { destruct body as [|? [|? [|? [|? ?]]]]; try done. exfalso. revert Hl. len_norm. match goal with |- context [len ?b] => pose proof (len_nonneg b) end. lia. }
  destruct body as [|a [|n [|c [|d body]]]]; try (exfalso; revert Hl; len_norm; lia).
  cbn [notify_crashes]. repeat (apply Forall_cons in Hwf as [? Hwf]).
  assert (is_u8 n) as Hn by done. unfold is_u8 in Hn. pose proof (len_nonneg body).
  change (idx (a :: n :: c :: d :: body) 0) with (Ok a). change (idx (a :: n :: c :: d :: body) 1) with (Ok n).
  rewrite !bind_Ok.
  destruct (be16_at_total (a :: n :: c :: d :: body) 2) as [v ->]; [lia..|]. rewrite bind_Ok, Z.leb_le. split.
  - intros HP. destruct (Z.lt_ge_cases n 252); [exfalso|lia]. revert HP.
    rewrite u8_id by (unfold is_u8; lia). destruct (Z.gtb_spec (4 + n) (len (a :: n :: c :: d :: body))); [done|].
    destruct (from_total (a :: n :: c :: d :: body) (4 + n)) as [x Hx]; [lia..|]. rewrite Hx.
    destruct (Z.gtb_spec n 0); [rewrite slice_ok, !bind_Ok by lia|rewrite bind_Ok]; by case_match.
  - intros Hn'. assert (u8 (4 + n) = n - 252) as -> by solve_word. rewrite gtb_false by (len_norm; lia).
    rewrite (proj2 (Z.gtb_lt n 0)), slice_panic by lia. done.
Qed.

(** ** Delete *)

Record delete_ok (p : DeletePayload) : Prop := {
  do_proto : is_u8 (del_ProtocolID p);
  do_size : is_u8 (del_SPISize p);
  do_spis : Forall (fun s => bytes_wf s /\ len s = del_SPISize p) (del_SPIs p);
  do_count : len (del_SPIs p) < 65536
}.

Definition delete_body (p : DeletePayload) : bytes :=
  del_ProtocolID p :: del_SPISize p :: put16 (len (del_SPIs p)) ++ concat (del_SPIs p).

Lemma len_concat_const {A} (l : list (list A)) n : Forall (fun s => len s = n) l -> len (concat l) = len l * n.
Proof. induction 1 as [|s l Hs _ IH]; [done|]. cbn. rewrite len_app, len_cons, IH. lia. Qed.

Lemma copy_spis_fill size l : Forall (fun s => len s = size) l -> forall done n off,
  off = len done -> n = len l * size ->
  copy_spis size l (done ++ make n) off = Ok (done ++ concat l).
Proof.
  induction 1 as [|s l Hs Hl IH]; intros pre n off -> ->; cbn [copy_spis concat].
  { by rewrite make_0. }
  pose proof (len_nonneg s). pose proof (len_nonneg l).
  rewrite fill_copy, bind_Ok by (rewrite ?len_cons; nia). rewrite app_assoc. apply IH; len_norm; nia.
Qed.

Lemma DeletePayload_Marshal_body p : delete_ok p -> DeletePayload_Marshal p = Ok (payload_bytes 0 (delete_body p)).
Proof.
  intros []. unfold DeletePayload_Marshal. pose proof (len_nonneg (del_SPIs p)). unfold is_u8 in *.
  assert (Forall (fun s => len s = del_SPISize p) (del_SPIs p)) as Hs by (eapply Forall_impl; [exact do_spis0|naive_solver]).
  assert (0 <= len (del_SPIs p) * del_SPISize p) by nia.
  rewrite u16_id by (unfold is_u16; lia). rewrite (fill_start (4 + _)). fill_body.
  rewrite copy_spis_fill, bind_Ok by (done || len_norm; lia). rewrite marshalWithHeader_ok, <- !app_assoc. done.
Qed.

Lemma parse_spis_concat size l : Forall (fun s => len s = size) l -> forall pre off,
  off = len pre -> parse_spis (length l) size (pre ++ concat l) off = Ok l.
Proof.
  induction 1 as [|s l Hs _ IH]; intros pre off ->; [done|]. cbn [parse_spis length concat].
  rewrite (slice_mid pre s), bind_Ok by lia. rewrite app_assoc, IH by (len_norm; lia). done.
Qed.

Lemma parseV2Delete_body p : delete_ok p -> parseV2Delete (delete_body p) = Ok p.
Proof.
  intros []. unfold parseV2Delete, delete_body. pose proof (len_nonneg (del_SPIs p)).
  assert (Forall (fun s => len s = del_SPISize p) (del_SPIs p)) as Hs by (eapply Forall_impl; [exact do_spis0|naive_solver]).
  pose proof (len_concat_const _ _ Hs) as Hc. unfold is_u8 in *.
  assert (0 <= len (del_SPIs p) * del_SPISize p) by nia. assert (is_u16 (len (del_SPIs p))) by (unfold is_u16; lia).
  rewrite (proj2 (Z.ltb_ge _ _)) by (len_norm; lia). do 3 get.
  rewrite (proj2 (Z.ltb_ge _ _)) by (len_norm; lia). unfold len at 1. rewrite Nat2Z.id.
  rewrite (parse_spis_concat _ _ Hs (del_ProtocolID p :: del_SPISize p :: put16 (len (del_SPIs p)))) by done.
  by destruct p.
Qed.

Lemma parse_spis_total size body : 0 <= size -> forall n off,
  0 <= off -> off + Z.of_nat n * size <= len body -> exists l, parse_spis n size body off = Ok l.
Proof.
  intros Hs. induction n as [|n IH]; intros off Ho Hn; cbn [parse_spis]; [by eexists|].
  rewrite slice_ok, bind_Ok by nia. destruct (IH (off + size)) as [l ->]; [nia..|]. by eexists.
Qed.

Lemma parseV2Delete_np body : bytes_wf body -> parseV2Delete body <> Panic.
Proof.
  intros Hwf. unfold parseV2Delete. destruct (Z.ltb_spec (len body) 4); [done|].
  destruct (idx_total body 0) as (? & -> & _); [lia|]. destruct (idx_total body 1) as (k & Hk & _); [lia|].
  destruct (be16_at_total body 2) as [n Hn]; [lia..|]. rewrite Hk, Hn, !bind_Ok.
  apply idx_u8 in Hk; [|done]. apply be16_at_u16 in Hn; [|done]. unfold is_u8, is_u16 in *.
  destruct (Z.ltb_spec (len body) (4 + n * k)); [done|].
  destruct (parse_spis_total k body ltac:(lia) (Z.to_nat n) 4) as [l ->]; [lia..|]. done.
Qed.

(** ** Traffic selectors *)

Record selector_ok (t : TrafficSelector) : Prop := {
  so_type : is_u8 (ts_TSType t);
  so_proto : is_u8 (ts_IPProtoID t);
  so_start_port : is_u16 (ts_StartPort t);
  so_end_port : is_u16 (ts_EndPort t);
  so_start : bytes_wf (ts_StartAddr t);
  so_end : bytes_wf (ts_EndAddr t);
  so_len : len (ts_StartAddr t) < 32000;
  so_same : len (ts_EndAddr t) = len (ts_StartAddr t)
}.

Definition ts_ok (p : TSPayload) : Prop :=
  Forall selector_ok (tsp_Selectors p) /\ len (tsp_Selectors p) < 256.

Definition selector_bytes (t : TrafficSelector) : bytes :=
  ts_TSType t :: ts_IPProtoID t :: put16 (8 + len (ts_StartAddr t) * 2) ++
  put16 (ts_StartPort t) ++ put16 (ts_EndPort t) ++ ts_StartAddr t ++ ts_EndAddr t.

Definition ts_body (p : TSPayload) : bytes :=
  len (tsp_Selectors p) :: 0 :: 0 :: 0 :: concat (selector_bytes <$> tsp_Selectors p).

Lemma len_selector_bytes t : selector_ok t -> len (selector_bytes t) = 8 + len (ts_StartAddr t) * 2.
Proof. intros []. unfold selector_bytes. len_norm. lia. Qed.

Lemma selector_bytes_wf t : selector_ok t -> bytes_wf (selector_bytes t).
Proof. intros []. unfold selector_bytes. wf_bytes. Qed.

Lemma marshal_selectors_bytes l :
  Forall selector_ok l -> marshal_selectors l = Ok (concat (selector_bytes <$> l)).
Proof.
  induction 1 as [|t l [] _ IH]; [done|]. cbn [marshal_selectors fmap list_fmap concat].
  pose proof (len_nonneg (ts_StartAddr t)). rewrite (fill_start (8 + _)). fill_body.
  unfold fmap in IH. rewrite IH, bind_Ok, make_0, app_nil_r, put16_u16 by (len_norm; lia).
  unfold selector_bytes. cbn [app]. rewrite <- !app_assoc. done.
Qed.

Lemma TSPayload_Marshal_body p : ts_ok p -> TSPayload_Marshal p = Ok (payload_bytes 0 (ts_body p)).
Proof.
  intros [H Hc]. unfold TSPayload_Marshal. rewrite marshal_selectors_bytes, bind_Ok by done.
  pose proof (len_nonneg (tsp_Selectors p)). rewrite u8_id by (unfold is_u8; lia).
  set (b := concat _). pose proof (len_nonneg b). marshal_body.
Qed.

Lemma parse_selector_step n pre t rest :
  selector_ok t ->
  parse_selectors (S n) (pre ++ selector_bytes t ++ rest) (len pre) =
  (l ← parse_selectors n (pre ++ selector_bytes t ++ rest) (len (pre ++ selector_bytes t)); Ok (t :: l)).
Proof.
  intros Hok. pose proof (len_selector_bytes t Hok) as Hl. destruct Hok.
  pose proof (len_nonneg pre). pose proof (len_nonneg rest). pose proof (len_nonneg (ts_StartAddr t)).
  cbn [parse_selectors]. rewrite !len_app, Hl, gtb_false by lia. revert Hl. unfold selector_bytes. cbn [app].
  rewrite <- !app_assoc. intros Hl. assert (is_u16 (8 + len (ts_StartAddr t) * 2)) by (unfold is_u16; lia).
  do 5 get. rewrite gtb_false by lia.
  assert (Z.quot (8 + len (ts_StartAddr t) * 2 - 8) 2 = len (ts_StartAddr t)) as ->.
  { replace (8 + len (ts_StartAddr t) * 2 - 8) with (len (ts_StartAddr t) * 2) by lia. by apply Z.quot_mul. }
  do 2 cut. unfold cloneBytes.
  by assert (mkTrafficSelector (ts_TSType t) (ts_IPProtoID t) (ts_StartPort t) (ts_EndPort t) (ts_StartAddr t)
    (ts_EndAddr t) = t) as -> by (by destruct t).
Qed.

Lemma parse_selectors_bytes l : Forall selector_ok l -> forall pre off,
  off = len pre -> parse_selectors (length l) (pre ++ concat (selector_bytes <$> l)) off = Ok l.
Proof.
  induction 1 as [|t l Ht _ IH]; intros pre off ->; [done|]. cbn [fmap list_fmap concat length].
  rewrite parse_selector_step by done. rewrite app_assoc. unfold fmap in IH. by rewrite IH.
Qed.

Lemma parseV2TS_body p : ts_ok p -> parseV2TS (ts_body p) (tsp_IsInitiator p) = Ok p.
Proof.
  intros [H Hc]. unfold parseV2TS, ts_body. set (b := concat _). pose proof (len_nonneg b).
  rewrite (proj2 (Z.ltb_ge _ _)) by (len_norm; lia). get. unfold len at 1. rewrite Nat2Z.id.
  unfold b. rewrite (parse_selectors_bytes _ H [len (tsp_Selectors p); 0; 0; 0]) by done. by destruct p.
Qed.

(** The walk over the selectors reaches one whose length is at most six. *)
Fixpoint selectors_crash (n : nat) (body : bytes) (offset : Z) : bool :=
  match n with
  | O => false
  | S n =>
    if offset + 8 >? len body then false
    else match be16_at body (offset + 2) with
    | Ok l =>
      if offset + l >? len body then false
      else (l <=? 6) || selectors_crash n body (offset + l)
    | _ => false
    end
  end.

Definition ts_crashes (body : bytes) : bool :=
  match body with n :: _ :: _ :: _ :: _ => selectors_crash (Z.to_nat n) body 4 | _ => false end.

Lemma parse_selectors_panic body : bytes_wf body -> forall n offset,
  0 <= offset -> parse_selectors n body offset = Panic <-> selectors_crash n body offset = true.
Proof.
  intros Hwf. induction n as [|n IH]; intros off Ho; [done|]. cbn [parse_selectors selectors_crash].
  destruct (Z.gtb_spec (off + 8) (len body)); [done|].
  destruct (idx_total body off) as (? & -> & _); [lia|]. destruct (idx_total body (off + 1)) as (? & -> & _); [lia|].
  destruct (be16_at_total body (off + 2)) as [l Hl]; [lia..|].
  destruct (be16_at_total body (off + 4)) as [? ->]; [lia..|].
  destruct (be16_at_total body (off + 6)) as [? ->]; [lia..|]. rewrite Hl, !bind_Ok.
  apply be16_at_u16 in Hl; [|done]. unfold is_u16 in Hl.
  destruct (Z.gtb_spec (off + l) (len body)); [done|]. destruct (Z.leb_spec l 6).
  - cbn [orb]. rewrite (slice_panic _ (off + 8) (off + 8 + (l - 8) `quot` 2)); [by split|]. Z.quot_rem_to_equations. lia.
  - cbn [orb]. rewrite (slice_ok _ (off + 8) (off + 8 + (l - 8) `quot` 2)), bind_Ok by (Z.quot_rem_to_equations; lia).
    rewrite slice_ok, bind_Ok by (Z.quot_rem_to_equations; lia). rewrite <- IH by lia.
    by destruct (parse_selectors n body (off + l)).
Qed.

Lemma parseV2TS_panic body i : bytes_wf body -> parseV2TS body i = Panic <-> ts_crashes body = true.
Proof.
  intros Hwf. unfold parseV2TS, ts_crashes.
  destruct body as [|a [|b [|c [|d body]]]]; try done. pose proof (len_nonneg body).
  rewrite (proj2 (Z.ltb_ge _ _)) by (len_norm; lia). rewrite idx_0, bind_Ok.
  rewrite <- (parse_selectors_panic (a :: b :: c :: d :: body)) by (done || lia).
  by destruct (parse_selectors _ _ _).
Qed.

(** ** Configuration *)

Definition config_ok (a : ConfigAttribute) : Prop :=
  is_u16 (ca_Type a) /\ bytes_wf (ca_Value a) /\ len (ca_Value a) < 65536.

Definition cp_ok (p : CPPayload) : Prop := is_u8 (cp_ConfigType p) /\ Forall config_ok (cp_Attributes p).

Definition config_bytes (a : ConfigAttribute) : bytes :=
  put16 (ca_Type a) ++ put16 (len (ca_Value a)) ++ ca_Value a.

Definition cp_body (p : CPPayload) : bytes :=
  cp_ConfigType p :: 0 :: 0 :: 0 :: concat (config_bytes <$> cp_Attributes p).

Lemma config_bytes_wf a : config_ok a -> bytes_wf (config_bytes a).
Proof. intros (? & ? & ?). unfold config_bytes. wf_bytes. Qed.

Lemma marshal_config_bytes l : Forall config_ok l -> marshal_config l = Ok (concat (config_bytes <$> l)).
Proof.
  induction 1 as [|a l (? & ? & ?) _ IH]; [done|]. cbn [marshal_config fmap list_fmap concat].
  pose proof (len_nonneg (ca_Value a)). rewrite (fill_start (4 + _)). fill_body.
  unfold fmap in IH. rewrite IH, bind_Ok, make_0, app_nil_r, put16_u16 by (len_norm; lia).
  unfold config_bytes. rewrite <- !app_assoc. done.
Qed.

Lemma CPPayload_Marshal_body p : cp_ok p -> CPPayload_Marshal p = Ok (payload_bytes 0 (cp_body p)).
Proof.
  intros [_ H]. unfold CPPayload_Marshal. rewrite marshal_config_bytes, bind_Ok by done.
  set (b := concat _). pose proof (len_nonneg b). marshal_body.
Qed.

Lemma parse_config_end fuel buf offset : len buf < offset + 4 -> parse_config fuel buf offset = Ok [].
Proof. intros. destruct fuel; cbn [parse_config]; by rewrite (proj2 (Z.leb_gt _ _)) by lia. Qed.

Lemma parse_config_bytes l : Forall config_ok l -> forall fuel pre off,
  off = len pre -> (length l <= fuel)%nat ->
  parse_config fuel (pre ++ concat (config_bytes <$> l)) off = Ok l.
Proof.
  induction 1 as [|a l (Ht & Hv & Hl) _ IH]; intros fuel pre off -> Hf.
  { apply parse_config_end. cbn. rewrite app_nil_r. lia. }
  destruct fuel as [|fuel]; [cbn in Hf; lia|]. cbn [parse_config fmap list_fmap concat].
  set (rest := concat _). pose proof (len_nonneg pre). pose proof (len_nonneg rest). pose proof (len_nonneg (ca_Value a)).
  assert (is_u16 (len (ca_Value a))) by (unfold is_u16; lia).
  rewrite (proj2 (Z.leb_le _ _)) by (unfold config_bytes; len_norm; lia).
  eapply bind_step; [unfold config_bytes; rewrite <- !app_assoc; rd; done|cbv beta].
  eapply bind_step; [unfold config_bytes; rewrite <- !app_assoc; rd; done|cbv beta].
  rewrite gtb_false by (unfold config_bytes; len_norm; lia).
  eapply bind_step; [unfold config_bytes; rewrite <- !app_assoc; rd_slice; done|cbv beta].
  rewrite app_assoc. unfold rest. unfold fmap in IH. rewrite IH; [|unfold config_bytes; len_norm; lia|cbn in Hf; lia].
  by destruct a.
Qed.

Lemma parseV2CP_body p : cp_ok p -> parseV2CP (cp_body p) = Ok p.
Proof.
  intros [_ H]. unfold parseV2CP, cp_body. set (b := concat _). pose proof (len_nonneg b).
  rewrite (proj2 (Z.ltb_ge _ _)) by (len_norm; lia). get.
  unfold b. rewrite (parse_config_bytes _ H _ [cp_ConfigType p; 0; 0; 0]); [by destruct p|done|].
  cbn [length]. clear. induction (cp_Attributes p) as [|a l IH]; cbn; [lia|]. rewrite length_app. cbn. lia.
Qed.

Lemma parse_config_total buf : bytes_wf buf -> forall fuel offset,
  0 <= offset -> len buf - offset < 4 * (Z.of_nat fuel + 1) -> exists l, parse_config fuel buf offset = Ok l.
Proof.
  intros Hwf. induction fuel as [|fuel IH]; intros offset Ho Hf.
  { rewrite parse_config_end by lia. by eexists. }
  cbn [parse_config]. destruct (Z.leb_spec (offset + 4) (len buf)) as [Hb|]; [|by eexists].
  destruct (be16_at_total buf offset) as [t ->]; [lia..|].
  destruct (be16_at_total buf (offset + 2)) as [n Hn]; [lia..|]. rewrite Hn, !bind_Ok.
  apply be16_at_u16 in Hn; [|done]. unfold is_u16 in Hn.
  destruct (Z.gtb_spec (offset + 4 + n) (len buf)); [by eexists|].
  rewrite slice_ok, bind_Ok by lia. destruct (IH (offset + (4 + n))) as [l ->]; [lia..|]. by eexists.
Qed.

Lemma parseV2CP_np body : bytes_wf body -> parseV2CP body <> Panic.
Proof.
  intros Hwf. unfold parseV2CP. destruct (Z.ltb_spec (len body) 4); [done|].
  destruct (idx_total body 0) as (? & -> & _); [lia|]. rewrite bind_Ok.
  destruct (parse_config_total body Hwf (length body) 4) as [l ->]; [lia|unfold len; lia|]. done.
Qed.

End V2.
