(* ===== verification/IkeV1.v ===== *)
(** * IkeV1: the IKEv1 payloads ([payload_v1.go], [ModeConfigPayload] of [ikev1_aggr.go])

    The security association payload is a chain of proposals, each a chain of
    transforms with attributes.  The certificate, certificate request and vendor
    payloads are those of IKEv2, as in the code. *)

From S2P Require Import Prelude Wire IkePayload IkeV2.

Module V1.
Import Pl Attr.

Definition DOIIPsec : Z := 1.
Definition SituationIdentityOnly : Z := 1.

(** ** Data *)

Record TransformV1Payload := mkTransformV1 {
  t1_Number : Z;
  t1_TransformID : Z;
  t1_Attributes : list ISAKMPAttribute
}.
Record ProposalV1Payload := mkProposalV1 {
  p1_Number : Z;
  p1_ProtocolID : Z;
  p1_SPI : bytes;
  p1_Transforms : list TransformV1Payload
}.
Record SAv1Payload := mkSAv1 { sa1_DOI : Z; sa1_Situation : Z; sa1_Proposals : list ProposalV1Payload }.
Record HashV1Payload := mkHashV1 { hash1_HashData : bytes }.
Record SIGv1Payload := mkSIGv1 { sig1_SigData : bytes }.
Record KEv1Payload := mkKEv1 { ke1_Data : bytes }.
Record NonceV1Payload := mkNonceV1 { nonce1_NonceData : bytes }.
Record IDv1Payload := mkIDv1 { id1_IDType : Z; id1_ProtoDOI : Z; id1_Port : Z; id1_Data : bytes }.
Record NotifyV1Payload := mkNotifyV1 {
  nt1_DOI : Z;
  nt1_ProtocolID : Z;
  nt1_SPISize : Z;
  nt1_NotifyMsgType : Z;
  nt1_SPI : bytes;
  nt1_NotifyData : bytes
}.
Record DeleteV1Payload := mkDeleteV1 {
  del1_DOI : Z;
  del1_ProtocolID : Z;
  del1_SPISize : Z;
  del1_SPIs : list bytes
}.
Record NATDv1Payload := mkNATDv1 { natd1_HashData : bytes }.
Record ModeConfigPayload := mkModeConfig {
  mc_ConfigType : Z;
  mc_Identifier : Z;
  mc_Attributes : list ISAKMPAttribute
}.

#[global] Instance transformv1_eq_dec : EqDecision TransformV1Payload.
Proof. solve_decision. Defined.
#[global] Instance proposalv1_eq_dec : EqDecision ProposalV1Payload.
Proof. solve_decision. Defined.

(** ** Marshalling *)

Definition TransformV1Payload_marshalBody (p : TransformV1Payload) : res bytes :=
  attrBytes ← marshal_attrs (t1_Attributes p);
  let body := make (4 + len attrBytes) in
  body ← set_at body 0 (t1_Number p);
  body ← set_at body 1 (t1_TransformID p);
  copy_at body 4 attrBytes.

(** The sub-payload of the [i]-th of [n] transforms, then the others. *)
Fixpoint marshal_v1_transforms (n i : Z) (l : list TransformV1Payload) : res bytes :=
  match l with
  | [] => Ok []
  | xf :: l =>
    xfData ← TransformV1Payload_marshalBody xf;
    let xfBuf := make (PayloadHeaderLen + len xfData) in
    let nextPL := if i <? n - 1 then PayloadTransformV1 else PayloadNoneV1 in
    xfBuf ← GenericPayloadHeader_Marshal (mkGPH nextPL false (u16 (PayloadHeaderLen + len xfData))) xfBuf;
    xfBuf ← copy_at xfBuf PayloadHeaderLen xfData;
    r ← marshal_v1_transforms n (i + 1) l;
    Ok (xfBuf ++ r)
  end.

Definition ProposalV1Payload_marshalBody (p : ProposalV1Payload) : res bytes :=
  xformBytes ← marshal_v1_transforms (len (p1_Transforms p)) 0 (p1_Transforms p);
  let body := make (4 + len (p1_SPI p) + len xformBytes) in
  body ← set_at body 0 (p1_Number p);
  body ← set_at body 1 (p1_ProtocolID p);
  body ← set_at body 2 (u8 (len (p1_SPI p)));
  body ← set_at body 3 (u8 (len (p1_Transforms p)));
  body ← copy_at body 4 (p1_SPI p);
  copy_at body (4 + len (p1_SPI p)) xformBytes.

Fixpoint marshal_v1_proposals (n i : Z) (l : list ProposalV1Payload) : res bytes :=
  match l with
  | [] => Ok []
  | prop :: l =>
    propData ← ProposalV1Payload_marshalBody prop;
    let propBuf := make (PayloadHeaderLen + len propData) in
    let nextPL := if i <? n - 1 then PayloadProposalV1 else PayloadNoneV1 in
    propBuf ← GenericPayloadHeader_Marshal (mkGPH nextPL false (u16 (PayloadHeaderLen + len propData))) propBuf;
    propBuf ← copy_at propBuf PayloadHeaderLen propData;
    r ← marshal_v1_proposals n (i + 1) l;
    Ok (propBuf ++ r)
  end.

Definition SAv1Payload_Marshal (p : SAv1Payload) : res bytes :=
  propBytes ← marshal_v1_proposals (len (sa1_Proposals p)) 0 (sa1_Proposals p);
  let body := make (8 + len propBytes) in
  body ← put32_at body 0 (sa1_DOI p);
  body ← put32_at body 4 (sa1_Situation p);
  body ← copy_at body 8 propBytes;
  marshalWithHeader PayloadSAV1 body.

Definition HashV1Payload_Marshal (p : HashV1Payload) : res bytes := marshalWithHeader PayloadHashV1 (hash1_HashData p).
Definition SIGv1Payload_Marshal (p : SIGv1Payload) : res bytes := marshalWithHeader PayloadSIGV1 (sig1_SigData p).
Definition KEv1Payload_Marshal (p : KEv1Payload) : res bytes := marshalWithHeader PayloadKEV1 (ke1_Data p).
Definition NonceV1Payload_Marshal (p : NonceV1Payload) : res bytes := marshalWithHeader PayloadNonceV1 (nonce1_NonceData p).
Definition NATDv1Payload_Marshal (p : NATDv1Payload) : res bytes := marshalWithHeader PayloadNATDV1 (natd1_HashData p).

Definition IDv1Payload_Marshal (p : IDv1Payload) : res bytes :=
  let body := make (4 + len (id1_Data p)) in
  body ← set_at body 0 (id1_IDType p);
  body ← set_at body 1 (id1_ProtoDOI p);
  body ← put16_at body 2 (id1_Port p);
  body ← copy_at body 4 (id1_Data p);
  marshalWithHeader PayloadIDV1 body.

Definition NotifyV1Payload_Marshal (p : NotifyV1Payload) : res bytes :=
  let body := make (8 + len (nt1_SPI p) + len (nt1_NotifyData p)) in
  body ← put32_at body 0 (nt1_DOI p);
  body ← set_at body 4 (nt1_ProtocolID p);
  body ← set_at body 5 (u8 (len (nt1_SPI p)));
  body ← put16_at body 6 (nt1_NotifyMsgType p);
  body ← copy_at body 8 (nt1_SPI p);
  body ← copy_at body (8 + len (nt1_SPI p)) (nt1_NotifyData p);
  marshalWithHeader PayloadNotifyV1 body.

Definition DeleteV1Payload_Marshal (p : DeleteV1Payload) : res bytes :=
  let body := make (8 + len (del1_SPIs p) * del1_SPISize p) in
  body ← put32_at body 0 (del1_DOI p);
  body ← set_at body 4 (del1_ProtocolID p);
  body ← set_at body 5 (del1_SPISize p);
  body ← put16_at body 6 (u16 (len (del1_SPIs p)));
  body ← V2.copy_spis (del1_SPISize p) (del1_SPIs p) body 8;
  marshalWithHeader PayloadDeleteV1 body.

(** ISAKMP_CFG; the parser does not know this type. *)
Definition ModeConfigPayload_Type : Z := 14.

Definition ModeConfigPayload_Marshal (p : ModeConfigPayload) : res bytes :=
  attrBytes ← marshal_attrs (mc_Attributes p);
  let body := make (4 + len attrBytes) in
  body ← set_at body 0 (mc_ConfigType p);
  body ← set_at body 2 (u8 (Z.shiftr (mc_Identifier p) 8));
  body ← set_at body 3 (u8 (mc_Identifier p));
  body ← copy_at body 4 attrBytes;
  marshalWithHeader ModeConfigPayload_Type body.

(** ** Parsing *)

Definition parseV1Transform (body : bytes) : res TransformV1Payload :=
  if len body <? 4 then Ok (mkTransformV1 0 0 [])
  else
    n ← idx body 0;
    t ← idx body 1;
    s ← slice body 4 (len body);
    attrs ← ParseISAKMPAttributes s;
    Ok (mkTransformV1 n t attrs).

Fixpoint parse_v1_transforms (n : nat) (xformBuf : bytes) (offset : Z) : res (list TransformV1Payload) :=
  match n with
  | O => Ok []
  | S n =>
    if offset <? len xformBuf then
      if offset + PayloadHeaderLen >? len xformBuf then Ok []
      else
        s ← slice xformBuf offset (len xformBuf);
        match ParseGenericPayloadHeader s with
        | Panic => Panic
        | Err _ => Ok []
        | Ok gph =>
          if (gph_Length gph <? PayloadHeaderLen) || (offset + gph_Length gph >? len xformBuf) then Ok []
          else
            xfBody ← slice xformBuf (offset + PayloadHeaderLen) (offset + gph_Length gph);
            xf ← parseV1Transform xfBody;
            l ← parse_v1_transforms n xformBuf (offset + gph_Length gph);
            Ok (xf :: l)
        end
    else Ok []
  end.

Definition parseV1Proposal (body : bytes) : res ProposalV1Payload :=
  if len body <? 4 then Err "proposal payload too short"
  else
    num ← idx body 0;
    proto ← idx body 1;
    spiSize ← idx body 2;
    numTransforms ← idx body 3;
    if len body <? 4 + spiSize then Err "proposal SPI truncated"
    else
      spi ← (if spiSize >? 0 then s ← slice body 4 (4 + spiSize); Ok (cloneBytes s) else Ok []);
      xformBuf ← slice body (4 + spiSize) (len body);
      l ← parse_v1_transforms (Z.to_nat numTransforms) xformBuf 0;
      Ok (mkProposalV1 num proto spi l).

(** The loop of [parseV1SA]; an iteration consumes at least four bytes. *)
Fixpoint parse_v1_proposals (fuel : nat) (propBuf : bytes) (nextPL offset : Z) : res (list ProposalV1Payload) :=
  if (nextPL =? PayloadProposalV1) && (offset <? len propBuf) then
    match fuel with
    | O => Panic
    | S fuel =>
      if offset + PayloadHeaderLen >? len propBuf then Ok []
      else
        s ← slice propBuf offset (len propBuf);
        gph ← ParseGenericPayloadHeader s;
        if (gph_Length gph <? PayloadHeaderLen) || (offset + gph_Length gph >? len propBuf) then Ok []
        else
          propBody ← slice propBuf (offset + PayloadHeaderLen) (offset + gph_Length gph);
          prop ← parseV1Proposal propBody;
          l ← parse_v1_proposals fuel propBuf (gph_NextPayload gph) (offset + gph_Length gph);
          Ok (prop :: l)
    end
  else Ok [].

Definition parseV1SA (body : bytes) : res SAv1Payload :=
  if len body <? 8 then Err "SAv1 payload too short"
  else
    doi ← be32_at body 0;
    sit ← be32_at body 4;
    propBuf ← slice body 8 (len body);
    l ← parse_v1_proposals (length propBuf) propBuf PayloadProposalV1 0;
    Ok (mkSAv1 doi sit l).

Definition parseV1ID (body : bytes) : res IDv1Payload :=
  if len body <? 4 then Err "IDv1 payload too short"
  else
    t ← idx body 0;
    d ← idx body 1;
    p ← be16_at body 2;
    r ← V2.from body 4;
    Ok (mkIDv1 t d p r).

Definition parseV1Cert (body : bytes) : res V2.CERTPayload :=
  if len body <? 1 then Err "CERTv1 payload too short"
  else
    e ← idx body 0;
    d ← V2.from body 1;
    Ok (V2.mkCERT e d).

Definition parseV1CertReq (body : bytes) : res V2.CERTREQPayload :=
  if len body <? 1 then Err "CERTREQv1 payload too short"
  else
    e ← idx body 0;
    d ← V2.from body 1;
    Ok (V2.mkCERTREQ e d).

(** [8 + spiSize] is computed in [uint8]. *)
Definition parseV1Notify (body : bytes) : res NotifyV1Payload :=
  if len body <? 8 then Err "NotifyV1 payload too short"
  else
    doi ← be32_at body 0;
    protocolID ← idx body 4;
    spiSize ← idx body 5;
    msgType ← be16_at body 6;
    let e := u8 (8 + spiSize) in
    if e >? len body then Err "NotifyV1 SPI extends beyond payload"
    else
      spi ← (if spiSize >? 0 then s ← slice body 8 e; Ok (cloneBytes s) else Ok []);
      notifyData ← (if e <? len body then V2.from body e else Ok []);
      Ok (mkNotifyV1 doi protocolID spiSize msgType spi notifyData).

Definition parseV1Delete (body : bytes) : res DeleteV1Payload :=
  if len body <? 8 then Err "DeleteV1 payload too short"
  else
    doi ← be32_at body 0;
    protocolID ← idx body 4;
    spiSize ← idx body 5;
    numSPIs ← be16_at body 6;
    let expectedLen := 8 + numSPIs * spiSize in
    if len body <? expectedLen then Err "DeleteV1 payload truncated"
    else
      spis ← V2.parse_spis (Z.to_nat numSPIs) spiSize body 8;
      Ok (mkDeleteV1 doi protocolID spiSize spis).

(** ** The wire format: fixed fields *)

Definition id1_ok (p : IDv1Payload) : Prop :=
  is_u8 (id1_IDType p) /\ is_u8 (id1_ProtoDOI p) /\ is_u16 (id1_Port p) /\ bytes_wf (id1_Data p).

Definition id1_body (p : IDv1Payload) : bytes :=
  id1_IDType p :: id1_ProtoDOI p :: put16 (id1_Port p) ++ id1_Data p.

Lemma IDv1Payload_Marshal_body p : IDv1Payload_Marshal p = Ok (payload_bytes 0 (id1_body p)).
Proof. unfold IDv1Payload_Marshal. pose proof (len_nonneg (id1_Data p)). marshal_body. Qed.

Lemma parseV1ID_body p : id1_ok p -> parseV1ID (id1_body p) = Ok p.
Proof.
  intros (_ & _ & Hp & _). unfold parseV1ID, id1_body. V2.parse_fixed (id1_Data p).
  rewrite (V2.from_app _ (id1_IDType p :: id1_ProtoDOI p :: put16 (id1_Port p)) (id1_Data p)) by done. by destruct p.
Qed.

Lemma parseV1ID_np body : parseV1ID body <> Panic.
Proof. unfold parseV1ID. V2.total_fixed. Qed.
Lemma parseV1Cert_np body : parseV1Cert body <> Panic.
Proof. unfold parseV1Cert. V2.total_fixed. Qed.
Lemma parseV1CertReq_np body : parseV1CertReq body <> Panic.
Proof. unfold parseV1CertReq. V2.total_fixed. Qed.

(** ** Notify and Delete *)

Record notify1_ok (p : NotifyV1Payload) : Prop := {
  no1_doi : is_u32 (nt1_DOI p);
  no1_proto : is_u8 (nt1_ProtocolID p);
  no1_size : nt1_SPISize p = len (nt1_SPI p);
  no1_max : len (nt1_SPI p) <= 247;
  no1_type : is_u16 (nt1_NotifyMsgType p);
  no1_spi : bytes_wf (nt1_SPI p);
  no1_data : bytes_wf (nt1_NotifyData p)
}.

Definition notify1_body (p : NotifyV1Payload) : bytes :=
  put32 (nt1_DOI p) ++ nt1_ProtocolID p :: len (nt1_SPI p) :: put16 (nt1_NotifyMsgType p) ++
  nt1_SPI p ++ nt1_NotifyData p.

Lemma NotifyV1Payload_Marshal_body p : notify1_ok p -> NotifyV1Payload_Marshal p = Ok (payload_bytes 0 (notify1_body p)).
Proof.
  intros []. unfold NotifyV1Payload_Marshal. pose proof (len_nonneg (nt1_SPI p)). pose proof (len_nonneg (nt1_NotifyData p)).
  rewrite u8_id by (unfold is_u8; lia). marshal_body.
Qed.

Lemma parseV1Notify_body p : notify1_ok p -> parseV1Notify (notify1_body p) = Ok p.
Proof.
  intros []. unfold parseV1Notify, notify1_body. pose proof (len_nonneg (nt1_SPI p)).
  pose proof (len_nonneg (nt1_NotifyData p)). rewrite (proj2 (Z.ltb_ge _ _)) by (len_norm; lia).
  do 4 get. rewrite u8_id by (unfold is_u8; lia). rewrite gtb_false by (len_norm; lia).
  eapply bind_step with (a := nt1_SPI p).
  { destruct (Z.gtb_spec (len (nt1_SPI p)) 0).
    - cut. done.
    - by rewrite (len_0_inv (nt1_SPI p)) by lia. }
  cbv beta. eapply bind_step with (a := nt1_NotifyData p).
  { case_match eqn:E.
    - apply (V2.from_app _ (put32 (nt1_DOI p) ++ nt1_ProtocolID p :: len (nt1_SPI p) :: put16 (nt1_NotifyMsgType p) ++ nt1_SPI p)).
      + done.
      + len_norm. lia.
    - rewrite (len_0_inv (nt1_NotifyData p)); [done|]. apply Z.ltb_ge in E. len_norm. lia. }
  destruct p. cbn in *. by subst.
Qed.

(** The uint8 addition wraps for an SPI size of 248 and more, and then only. *)
Definition notify1_crashes (body : bytes) : bool :=
  match body with _ :: _ :: _ :: _ :: _ :: spiSize :: _ :: _ :: _ => 248 <=? spiSize | _ => false end.

Lemma parseV1Notify_panic body : bytes_wf body -> parseV1Notify body = Panic <-> notify1_crashes body = true.
Proof.
  intros Hwf. unfold parseV1Notify. destruct (Z.ltb_spec (len body) 8) as [Hl|Hl].
  { destruct body as [|? [|? [|? [|? [|? [|? [|? [|? ?]]]]]]]]; try done. exfalso. revert Hl. len_norm.
    match goal with |- context [len ?b] => pose proof (len_nonneg b) end. lia. }
  destruct body as [|a [|b [|c [|d [|e [|n [|f [|g body]]]]]]]]; try (exfalso; revert Hl; len_norm; lia).
  cbn [notify1_crashes]. do 6 (apply Forall_cons in Hwf as [? Hwf]).
  assert (is_u8 n) as Hn by done. unfold is_u8 in Hn. pose proof (len_nonneg body).
  set (l := a :: b :: c :: d :: e :: n :: f :: g :: body) in *.
  change (idx l 4) with (Ok e). change (idx l 5) with (Ok n).
  destruct (be16_at_total l 6) as [v ->]; [lia..|]. destruct (be32_at_total l 0) as [w ->]; [lia..|].
  rewrite !bind_Ok, Z.leb_le. split.
  - intros HP. destruct (Z.lt_ge_cases n 248); [exfalso|lia]. revert HP.
    rewrite u8_id by (unfold is_u8; lia). destruct (Z.gtb_spec (8 + n) (len l)); [done|].
    destruct (V2.from_total l (8 + n)) as [x Hx]; [lia..|]. rewrite Hx.
    destruct (Z.gtb_spec n 0); [rewrite slice_ok, !bind_Ok by lia|rewrite bind_Ok]; by case_match.
  - intros Hn'. assert (u8 (8 + n) = n - 248) as -> by solve_word. rewrite gtb_false by lia.
    rewrite (proj2 (Z.gtb_lt n 0)), slice_panic by lia. done.
Qed.

Record delete1_ok (p : DeleteV1Payload) : Prop := {
  do1_doi : is_u32 (del1_DOI p);
  do1_proto : is_u8 (del1_ProtocolID p);
  do1_size : is_u8 (del1_SPISize p);
  do1_spis : Forall (fun s => bytes_wf s /\ len s = del1_SPISize p) (del1_SPIs p);
  do1_count : len (del1_SPIs p) < 65536
}.

Definition delete1_body (p : DeleteV1Payload) : bytes :=
  put32 (del1_DOI p) ++ del1_ProtocolID p :: del1_SPISize p :: put16 (len (del1_SPIs p)) ++ concat (del1_SPIs p).

Lemma DeleteV1Payload_Marshal_body p : delete1_ok p -> DeleteV1Payload_Marshal p = Ok (payload_bytes 0 (delete1_body p)).
Proof.
  intros []. unfold DeleteV1Payload_Marshal. pose proof (len_nonneg (del1_SPIs p)). unfold is_u8 in *.
  assert (Forall (fun s => len s = del1_SPISize p) (del1_SPIs p)) as Hs by (eapply Forall_impl; [exact do1_spis0|naive_solver]).
  assert (0 <= len (del1_SPIs p) * del1_SPISize p) by nia.
  rewrite u16_id by (unfold is_u16; lia). rewrite (fill_start (8 + _)). fill_body.
  rewrite V2.copy_spis_fill, bind_Ok by (done || len_norm; lia). rewrite marshalWithHeader_ok, <- !app_assoc. done.
Qed.

Lemma parseV1Delete_body p : delete1_ok p -> parseV1Delete (delete1_body p) = Ok p.
Proof.
  intros []. unfold parseV1Delete, delete1_body. pose proof (len_nonneg (del1_SPIs p)).
  assert (Forall (fun s => len s = del1_SPISize p) (del1_SPIs p)) as Hs by (eapply Forall_impl; [exact do1_spis0|naive_solver]).
  pose proof (V2.len_concat_const _ _ Hs) as Hc. unfold is_u8 in *.
  assert (0 <= len (del1_SPIs p) * del1_SPISize p) by nia. assert (is_u16 (len (del1_SPIs p))) by (unfold is_u16; lia).
  rewrite (proj2 (Z.ltb_ge _ _)) by (len_norm; lia). do 4 get.
  rewrite (proj2 (Z.ltb_ge _ _)) by (len_norm; lia).
  replace (Z.to_nat (len (del1_SPIs p))) with (length (del1_SPIs p)) by (unfold len; lia).
  assert (forall a b c, put32 a ++ b :: c :: put16 (len (del1_SPIs p)) ++ concat (del1_SPIs p) =
    (put32 a ++ b :: c :: put16 (len (del1_SPIs p))) ++ concat (del1_SPIs p)) as -> by done.
  rewrite (V2.parse_spis_concat _ _ Hs) by done. by destruct p.
Qed.

Lemma parseV1Delete_np body : bytes_wf body -> parseV1Delete body <> Panic.
Proof.
  intros Hwf. unfold parseV1Delete. destruct (Z.ltb_spec (len body) 8); [done|].
  destruct (be32_at_total body 0) as [? ->]; [lia..|].
  destruct (idx_total body 4) as (? & -> & _); [lia|]. destruct (idx_total body 5) as (k & Hk & _); [lia|].
  destruct (be16_at_total body 6) as [n Hn]; [lia..|]. rewrite Hk, Hn, !bind_Ok.
  apply idx_u8 in Hk; [|done]. apply be16_at_u16 in Hn; [|done]. unfold is_u8, is_u16 in *.
  destruct (Z.ltb_spec (len body) (8 + n * k)); [done|].
  destruct (V2.parse_spis_total k body ltac:(lia) (Z.to_nat n) 8) as [l ->]; [lia..|]. done.
Qed.

(** ** Proposals and transforms: chains of sub-payloads *)

Fixpoint sub_bytes (np : Z) (l : list bytes) : bytes :=
  match l with
  | [] => []
  | b :: l => payload_bytes (if l is [] then 0 else np) b ++ sub_bytes np l
  end.

Definition t1_body (t : TransformV1Payload) : bytes :=
  t1_Number t :: t1_TransformID t :: 0 :: 0 :: attrs_bytes (t1_Attributes t).

Definition p1_body (p : ProposalV1Payload) : bytes :=
  p1_Number p :: p1_ProtocolID p :: len (p1_SPI p) :: len (p1_Transforms p) :: p1_SPI p ++
  sub_bytes PayloadTransformV1 (t1_body <$> p1_Transforms p).

Definition sa1_body (p : SAv1Payload) : bytes :=
  put32 (sa1_DOI p) ++ put32 (sa1_Situation p) ++ sub_bytes PayloadProposalV1 (p1_body <$> sa1_Proposals p).

(** Every sub-payload fits its length field, every count its byte. *)
Definition transform1_ok (t : TransformV1Payload) : Prop :=
  is_u8 (t1_Number t) /\ is_u8 (t1_TransformID t) /\ Forall attr_ok (t1_Attributes t) /\
  4 + len (t1_body t) < 65536.

Record proposal1_ok (p : ProposalV1Payload) : Prop := {
  po1_number : is_u8 (p1_Number p);
  po1_proto : is_u8 (p1_ProtocolID p);
  po1_spi : bytes_wf (p1_SPI p);
  po1_spi_len : len (p1_SPI p) < 256;
  po1_tr : Forall transform1_ok (p1_Transforms p);
  po1_tr_len : len (p1_Transforms p) < 256;
  po1_len : 4 + len (p1_body p) < 65536
}.

Record sa1_ok (p : SAv1Payload) : Prop := {
  so1_doi : is_u32 (sa1_DOI p);
  so1_sit : is_u32 (sa1_Situation p);
  so1_props : Forall proposal1_ok (sa1_Proposals p)
}.

Definition mc_body (p : ModeConfigPayload) : bytes :=
  mc_ConfigType p :: 0 :: put16 (mc_Identifier p) ++ attrs_bytes (mc_Attributes p).

Lemma sub_bytes_wf np l : is_u8 np -> Forall bytes_wf l -> bytes_wf (sub_bytes np l).
Proof.
  intros Hnp. induction 1 as [|b l Hb _ IH]; [constructor|]. cbn [sub_bytes]. apply Forall_app_2; [|done].
  apply payload_bytes_wf; [|done]. case_match; [by unfold is_u8|done].
Qed.

Lemma t1_body_wf t : transform1_ok t -> bytes_wf (t1_body t).
Proof. intros (? & ? & H & _). pose proof (attrs_bytes_wf _ H). unfold t1_body. wf_bytes. Qed.

Lemma Forall_fmap_wf {A} (P : A -> Prop) (f : A -> bytes) l :
  (forall x, P x -> bytes_wf (f x)) -> Forall P l -> Forall bytes_wf (f <$> l).
Proof. intros Hf H. apply Forall_fmap. eapply Forall_impl; [exact H|]. exact Hf. Qed.

Lemma p1_body_wf p : proposal1_ok p -> bytes_wf (p1_body p).
Proof.
  intros []. pose proof (len_nonneg (p1_SPI p)). pose proof (len_nonneg (p1_Transforms p)).
  assert (bytes_wf (sub_bytes PayloadTransformV1 (t1_body <$> p1_Transforms p))).
  { apply sub_bytes_wf; [by unfold is_u8|]. eapply Forall_fmap_wf; [apply t1_body_wf|done]. }
  unfold p1_body. wf_bytes.
Qed.

Lemma sa1_body_wf p : sa1_ok p -> bytes_wf (sa1_body p).
Proof.
  intros []. unfold sa1_body. repeat apply Forall_app_2; try apply put32_wf.
  apply sub_bytes_wf; [by unfold is_u8|]. eapply Forall_fmap_wf; [apply p1_body_wf|done].
Qed.

Lemma t1_marshal t : transform1_ok t -> TransformV1Payload_marshalBody t = Ok (t1_body t).
Proof.
  intros (_ & _ & H & _). unfold TransformV1Payload_marshalBody. rewrite marshal_attrs_bytes, bind_Ok by done.
  pose proof (len_nonneg (attrs_bytes (t1_Attributes t))). rewrite (fill_start (4 + _)). do 2 fill_step.
  do 2 rewrite fill_skip by lia. rewrite fill_copy by (len_norm; lia).
  rewrite make_0, app_nil_r by (len_norm; lia). done.
Qed.

(** The index comparison of the marshalling loops recognises the last element. *)
Lemma not_last {A} (l : list A) i n : i + len l + 1 = n -> (i <? n - 1) = if l is [] then false else true.
Proof. intros H. destruct l; len_norm; [lia|]. pose proof (len_nonneg l). lia. Qed.

Lemma marshal_v1_transforms_bytes n l : Forall transform1_ok l -> forall i,
  i + len l = n -> marshal_v1_transforms n i l = Ok (sub_bytes PayloadTransformV1 (t1_body <$> l)).
Proof.
  induction 1 as [|t l Ht _ IH]; intros i Hi; [done|]. cbn [marshal_v1_transforms fmap list_fmap sub_bytes].
  rewrite t1_marshal, bind_Ok by done. rewrite <- bind_assoc. unfold PayloadHeaderLen. rewrite wrap_ok, bind_Ok.
  rewrite IH, bind_Ok by (rewrite len_cons in Hi; lia). rewrite (not_last l) by (rewrite len_cons in Hi; lia).
  by destruct l.
Qed.

Lemma p1_marshal p : proposal1_ok p -> ProposalV1Payload_marshalBody p = Ok (p1_body p).
Proof.
  intros []. unfold ProposalV1Payload_marshalBody. rewrite marshal_v1_transforms_bytes, bind_Ok by (done || lia).
  set (b := sub_bytes _ _). pose proof (len_nonneg b). pose proof (len_nonneg (p1_SPI p)).
  pose proof (len_nonneg (p1_Transforms p)). rewrite !u8_id by (unfold is_u8; lia).
  rewrite (fill_start (4 + _ + _)). do 5 fill_step. rewrite fill_copy by (len_norm; lia).
  rewrite make_0, app_nil_r, <- !app_assoc by (len_norm; lia). done.
Qed.

Lemma marshal_v1_proposals_bytes n l : Forall proposal1_ok l -> forall i,
  i + len l = n -> marshal_v1_proposals n i l = Ok (sub_bytes PayloadProposalV1 (p1_body <$> l)).
Proof.
  induction 1 as [|t l Ht _ IH]; intros i Hi; [done|]. cbn [marshal_v1_proposals fmap list_fmap sub_bytes].
  rewrite p1_marshal, bind_Ok by done. rewrite <- bind_assoc. unfold PayloadHeaderLen. rewrite wrap_ok, bind_Ok.
  rewrite IH, bind_Ok by (rewrite len_cons in Hi; lia). rewrite (not_last l) by (rewrite len_cons in Hi; lia).
  by destruct l.
Qed.

Lemma SAv1Payload_Marshal_body p : sa1_ok p -> SAv1Payload_Marshal p = Ok (payload_bytes 0 (sa1_body p)).
Proof.
  intros []. unfold SAv1Payload_Marshal. rewrite marshal_v1_proposals_bytes, bind_Ok by (done || lia).
  unfold sa1_body. set (b := sub_bytes _ _). pose proof (len_nonneg b). marshal_body.
Qed.

Lemma put16_bytes v : is_u16 v -> [u8 (Z.shiftr v 8); u8 v] = put16 v.
Proof.
  intros Hv. unfold put16, u8. rewrite Z.shiftr_div_pow2 by lia. done.
Qed.

Lemma ModeConfigPayload_Marshal_body p :
  Forall attr_ok (mc_Attributes p) -> is_u16 (mc_Identifier p) ->
  ModeConfigPayload_Marshal p = Ok (payload_bytes 0 (mc_body p)).
Proof.
  intros H Hi. unfold ModeConfigPayload_Marshal. rewrite marshal_attrs_bytes, bind_Ok by done.
  unfold mc_body. set (b := attrs_bytes _). pose proof (len_nonneg b). rewrite <- put16_bytes by done. marshal_body.
Qed.

Lemma parseV1Transform_body t : transform1_ok t -> parseV1Transform (t1_body t) = Ok t.
Proof.
  intros (_ & _ & H & _). unfold parseV1Transform, t1_body. set (b := attrs_bytes _). pose proof (len_nonneg b).
  rewrite (proj2 (Z.ltb_ge _ _)) by (len_norm; lia). do 2 get. cut. unfold b.
  rewrite ParseISAKMPAttributes_bytes, bind_Ok by done. by destruct t.
Qed.

(** The head of a chain, seen from a prefix of the buffer. *)
Lemma sub_step np b rest pre :
  4 + len b < 65536 ->
  slice (pre ++ payload_bytes np b ++ rest) (len pre) (len (pre ++ payload_bytes np b ++ rest)) =
    Ok (payload_bytes np b ++ rest) /\
  slice (pre ++ payload_bytes np b ++ rest) (len pre + 4) (len pre + (4 + len b)) = Ok b.
Proof.
  intros Hl. pose proof (len_nonneg b). pose proof (len_nonneg pre). split.
  - by rewrite slice_skip, slice_whole by (len_norm; lia).
  - unfold payload_bytes. rewrite slice_skip by lia. cbn [app]. rewrite <- app_assoc. rd_slice. done.
Qed.

Lemma parse_v1_transforms_bytes l : Forall transform1_ok l -> forall n pre off,
  off = len pre -> (length l <= n)%nat ->
  parse_v1_transforms n (pre ++ sub_bytes PayloadTransformV1 (t1_body <$> l)) off = Ok l.
Proof.
  induction 1 as [|t l Ht _ IH]; intros n pre off -> Hn.
  { destruct n; cbn; [done|]. by rewrite app_nil_r, Z.ltb_irrefl. }
  destruct n as [|n]; [cbn in Hn; lia|]. cbn [parse_v1_transforms fmap list_fmap sub_bytes].
  set (np := if _ is [] then _ else _). set (rest := sub_bytes _ _).
  assert (4 + len (t1_body t) < 65536) as Hl by apply Ht. pose proof (len_payload_bytes np (t1_body t)) as Hp.
  destruct (sub_step np (t1_body t) rest pre Hl) as [H1 H2]. pose proof (len_nonneg rest). pose proof (len_nonneg (t1_body t)).
  rewrite (proj2 (Z.ltb_lt _ _)) by (len_norm; lia). unfold PayloadHeaderLen. rewrite gtb_false by (len_norm; lia).
  rewrite H1, bind_Ok, ParseGenericPayloadHeader_ok by done. cbn [gph_Length gph_NextPayload].
  rewrite (proj2 (Z.ltb_ge _ 4)), gtb_false by (len_norm; lia). cbn [orb].
  rewrite H2, bind_Ok, parseV1Transform_body, bind_Ok by done. rewrite app_assoc. unfold rest. unfold fmap in IH.
  rewrite IH by (len_norm; lia || (cbn in Hn; lia)). done.
Qed.

Lemma parseV1Proposal_body p : proposal1_ok p -> parseV1Proposal (p1_body p) = Ok p.
Proof.
  intros []. unfold parseV1Proposal, p1_body. set (b := sub_bytes _ _). pose proof (len_nonneg b).
  pose proof (len_nonneg (p1_SPI p)). pose proof (len_nonneg (p1_Transforms p)).
  rewrite (proj2 (Z.ltb_ge _ _)) by (len_norm; lia). do 4 get. rewrite (proj2 (Z.ltb_ge _ _)) by (len_norm; lia).
  eapply bind_step with (a := p1_SPI p).
  { destruct (Z.gtb_spec (len (p1_SPI p)) 0).
    - cut. done.
    - by rewrite (len_0_inv (p1_SPI p)) by lia. }
  cbv beta. cut. replace (Z.to_nat (len (p1_Transforms p))) with (length (p1_Transforms p)) by (unfold len; lia).
  unfold b. rewrite (parse_v1_transforms_bytes _ po1_tr0 _ [] 0), bind_Ok by done. by destruct p.
Qed.

Lemma parse_v1_proposals_bytes l : Forall proposal1_ok l -> forall n pre off,
  off = len pre -> (length l <= n)%nat ->
  parse_v1_proposals n (pre ++ sub_bytes PayloadProposalV1 (p1_body <$> l))
    (if l is [] then 0 else PayloadProposalV1) off = Ok l.
Proof.
  induction 1 as [|t l Ht _ IH]; intros n pre off -> Hn; [by destruct n|].
  destruct n as [|n]; [cbn in Hn; lia|]. cbn [parse_v1_proposals fmap list_fmap sub_bytes].
  assert ((if p1_body <$> l is [] then 0 else PayloadProposalV1) = if l is [] then 0 else PayloadProposalV1) as E
    by (by destruct l).
  rewrite E. set (np := if l is [] then _ else _) in *. set (rest := sub_bytes _ _).
  pose proof (po1_len _ Ht) as Hl. pose proof (len_payload_bytes np (p1_body t)) as Hp.
  destruct (sub_step np (p1_body t) rest pre Hl) as [H1 H2]. pose proof (len_nonneg rest). pose proof (len_nonneg (p1_body t)).
  rewrite (proj2 (Z.ltb_lt _ _)) by (len_norm; lia). unfold PayloadHeaderLen. cbn [Z.eqb andb]. rewrite gtb_false by (len_norm; lia).
  rewrite H1, bind_Ok, ParseGenericPayloadHeader_ok, bind_Ok by done. cbn [gph_Length gph_NextPayload].
  rewrite (proj2 (Z.ltb_ge _ 4)), gtb_false by (len_norm; lia). cbn [orb].
  rewrite H2, bind_Ok, parseV1Proposal_body, bind_Ok by done. rewrite app_assoc. unfold rest. unfold fmap in IH.
  unfold np. rewrite IH; [done|rewrite len_app, len_payload_bytes; lia|cbn in Hn; lia].
Qed.

Lemma sub_bytes_length np l : (length l <= length (sub_bytes np l))%nat.
Proof.
  induction l as [|b l IH]; [done|]. cbn [sub_bytes length]. rewrite length_app.
  match goal with |- context [payload_bytes ?n b] => pose proof (len_payload_bytes n b) end.
  pose proof (len_nonneg b). unfold len in *. lia.
Qed.

Lemma parseV1SA_body p : sa1_ok p -> parseV1SA (sa1_body p) = Ok p.
Proof.
  intros []. unfold parseV1SA, sa1_body. set (b := sub_bytes _ _). pose proof (len_nonneg b).
  rewrite (proj2 (Z.ltb_ge _ _)) by (len_norm; lia). do 2 get. cut.
  assert (parse_v1_proposals (length b) b PayloadProposalV1 0 = Ok (sa1_Proposals p)) as ->.
  { pose proof (parse_v1_proposals_bytes _ so1_props0 (length b) [] 0 eq_refl) as H1. unfold b.
    destruct (sa1_Proposals p); [done|]. apply H1. unfold b. etransitivity; [|apply sub_bytes_length].
    by rewrite length_fmap. }
  by destruct p.
Qed.

(** ** Totality *)

Lemma parseV1Transform_total body : bytes_wf body -> exists t, parseV1Transform body = Ok t.
Proof.
  intros Hwf. unfold parseV1Transform. destruct (Z.ltb_spec (len body) 4); [by eexists|].
  destruct (idx_total body 0) as (? & -> & _); [lia|]. destruct (idx_total body 1) as (? & -> & _); [lia|].
  rewrite slice_ok, !bind_Ok by lia.
  destruct (ParseISAKMPAttributes_total (sub body 4 (len body))) as [l ->]; [by apply Forall_sub|]. by eexists.
Qed.

(** The header at an offset with four bytes left. *)
Lemma header_at buf offset :
  bytes_wf buf -> 0 <= offset -> offset + 4 <= len buf ->
  exists g, ParseGenericPayloadHeader (sub buf offset (len buf)) = Ok g /\
    is_u8 (gph_NextPayload g) /\ is_u16 (gph_Length g).
Proof.
  intros Hwf Ho Hl. destruct (ParseGenericPayloadHeader_total (sub buf offset (len buf))) as [g Hg].
  { rewrite len_sub; lia. }
  exists g. split; [done|]. eapply ParseGenericPayloadHeader_u16; [|exact Hg]. by apply Forall_sub.
Qed.

Lemma parse_v1_transforms_total buf : bytes_wf buf -> forall n offset,
  0 <= offset -> exists l, parse_v1_transforms n buf offset = Ok l.
Proof.
  intros Hwf. induction n as [|n IH]; intros off Ho; cbn [parse_v1_transforms]; [by eexists|].
  destruct (Z.ltb_spec off (len buf)); [|by eexists]. unfold PayloadHeaderLen.
  destruct (Z.gtb_spec (off + 4) (len buf)); [by eexists|]. rewrite slice_ok, bind_Ok by lia.
  destruct (header_at buf off Hwf) as (g & -> & _ & Hg); [lia..|]. unfold is_u16 in Hg.
  destruct (Z.ltb_spec (gph_Length g) 4); [by eexists|].
  destruct (Z.gtb_spec (off + gph_Length g) (len buf)); [by eexists|]. cbn [orb]. rewrite slice_ok, bind_Ok by lia.
  destruct (parseV1Transform_total (sub buf (off + 4) (off + gph_Length g))) as [t ->]; [by apply Forall_sub|].
  destruct (IH (off + gph_Length g)) as [l ->]; [lia|]. by eexists.
Qed.

Lemma parseV1Proposal_np body : bytes_wf body -> parseV1Proposal body <> Panic.
Proof.
  intros Hwf. unfold parseV1Proposal. destruct (Z.ltb_spec (len body) 4); [done|].
  destruct (idx_total body 0) as (? & -> & _); [lia|]. destruct (idx_total body 1) as (? & -> & _); [lia|].
  destruct (idx_total body 2) as (k & Hk & _); [lia|]. destruct (idx_total body 3) as (n & -> & _); [lia|].
  rewrite Hk, !bind_Ok. apply idx_u8 in Hk; [|done]. unfold is_u8 in Hk.
  destruct (Z.ltb_spec (len body) (4 + k)); [done|].
  destruct (parse_v1_transforms_total (sub body (4 + k) (len body)) ltac:(by apply Forall_sub) (Z.to_nat n) 0)
    as [l Hl]; [lia|].
  assert (exists s, (if k >? 0 then s ← slice body 4 (4 + k); Ok (cloneBytes s) else Ok []) = Ok s) as [s ->].
  { case_match; [rewrite slice_ok, bind_Ok by lia|]; by eexists. }
  by rewrite bind_Ok, slice_ok, bind_Ok, Hl by lia.
Qed.

Lemma parse_v1_proposals_np buf : bytes_wf buf -> forall n np offset,
  0 <= offset -> len buf - offset <= Z.of_nat n -> parse_v1_proposals n buf np offset <> Panic.
Proof.
  intros Hwf. induction n as [|n IH]; intros np off Ho Hn; cbn [parse_v1_proposals];
    destruct (Z.ltb_spec off (len buf)); rewrite ?andb_false_r, ?andb_true_r; try done; [lia|].
  case_match; [|done]. unfold PayloadHeaderLen.
  destruct (Z.gtb_spec (off + 4) (len buf)); [done|]. rewrite slice_ok, bind_Ok by lia.
  destruct (header_at buf off Hwf) as (g & -> & _ & Hg); [lia..|]. unfold is_u16 in Hg. rewrite bind_Ok.
  destruct (Z.ltb_spec (gph_Length g) 4); [done|].
  destruct (Z.gtb_spec (off + gph_Length g) (len buf)); [done|]. cbn [orb]. rewrite slice_ok, bind_Ok by lia.
  apply bind_not_Panic; [by apply parseV1Proposal_np, Forall_sub|]. intros t _.
  apply bind_not_Panic; [apply IH; lia|done].
Qed.

Lemma parseV1SA_np body : bytes_wf body -> parseV1SA body <> Panic.
Proof.
  intros Hwf. unfold parseV1SA. destruct (Z.ltb_spec (len body) 8); [done|].
  destruct (be32_at_total body 0) as [? ->]; [lia..|]. destruct (be32_at_total body 4) as [? ->]; [lia..|].
  rewrite slice_ok, !bind_Ok by lia. apply bind_not_Panic; [|done].
  apply parse_v1_proposals_np; [by apply Forall_sub|lia|]. unfold len. lia.
Qed.

End V1.
