(* ===== verification/IkeMessage.v ===== *)
(** * IkeMessage: payload chains and messages ([internal/ike/payload.go])

    The payload interface as a sum, the dispatch of the parsers on the payload
    type, the walk over a chain, and whole messages. *)

From S2P Require Import Prelude Wire IkeHeader IkePayload IkeSA IkeV2 IkeV1.

Module Msg.
Import Pl Hdr.

(** ** The [Payload] interface *)

Inductive Payload : Type :=
  | PRaw (p : RawPayload)
  | PSA (p : SA.SAPayload)
  | PKE (p : V2.KEPayload)
  | PNonce (p : V2.NoncePayload)
  | PID (p : V2.IDPayload)
  | PCERT (p : V2.CERTPayload)
  | PCERTREQ (p : V2.CERTREQPayload)
  | PAUTH (p : V2.AUTHPayload)
  | PNotify (p : V2.NotifyPayload)
  | PDelete (p : V2.DeletePayload)
  | PVendorID (p : V2.VendorIDPayload)
  | PTS (p : V2.TSPayload)
  | PSK (p : V2.SKPayload)
  | PCP (p : V2.CPPayload)
  | PEAP (p : V2.EAPPayload)
  | PSKF (p : V2.SKFPayload)
  | PSAv1 (p : V1.SAv1Payload)
  | PHashV1 (p : V1.HashV1Payload)
  | PSIGv1 (p : V1.SIGv1Payload)
  | PKEv1 (p : V1.KEv1Payload)
  | PNonceV1 (p : V1.NonceV1Payload)
  | PIDv1 (p : V1.IDv1Payload)
  | PNotifyV1 (p : V1.NotifyV1Payload)
  | PDeleteV1 (p : V1.DeleteV1Payload)
  | PNATDv1 (p : V1.NATDv1Payload)
  | PModeConfig (p : V1.ModeConfigPayload).

Definition Payload_Type (p : Payload) : Z :=
  match p with
  | PRaw p => raw_PayloadType p
  | PSA _ => PayloadSA
  | PKE _ => PayloadKE
  | PNonce _ => PayloadNonce
  | PID p => V2.IDPayload_Type p
  | PCERT _ => PayloadCERT
  | PCERTREQ _ => PayloadCERTREQ
  | PAUTH _ => PayloadAUTH
  | PNotify _ => PayloadNotify
  | PDelete _ => PayloadDelete
  | PVendorID _ => PayloadVendorID
  | PTS p => V2.TSPayload_Type p
  | PSK _ => PayloadSK
  | PCP _ => PayloadCP
  | PEAP _ => PayloadEAP
  | PSKF _ => PayloadSKF
  | PSAv1 _ => PayloadSAV1
  | PHashV1 _ => PayloadHashV1
  | PSIGv1 _ => PayloadSIGV1
  | PKEv1 _ => PayloadKEV1
  | PNonceV1 _ => PayloadNonceV1
  | PIDv1 _ => PayloadIDV1
  | PNotifyV1 _ => PayloadNotifyV1
  | PDeleteV1 _ => PayloadDeleteV1
  | PNATDv1 _ => PayloadNATDV1
  | PModeConfig _ => V1.ModeConfigPayload_Type
  end.

Definition Payload_Marshal (p : Payload) : res bytes :=
  match p with
  | PRaw p => RawPayload_Marshal p
  | PSA p => SA.SAPayload_Marshal p
  | PKE p => V2.KEPayload_Marshal p
  | PNonce p => V2.NoncePayload_Marshal p
  | PID p => V2.IDPayload_Marshal p
  | PCERT p => V2.CERTPayload_Marshal p
  | PCERTREQ p => V2.CERTREQPayload_Marshal p
  | PAUTH p => V2.AUTHPayload_Marshal p
  | PNotify p => V2.NotifyPayload_Marshal p
  | PDelete p => V2.DeletePayload_Marshal p
  | PVendorID p => V2.VendorIDPayload_Marshal p
  | PTS p => V2.TSPayload_Marshal p
  | PSK p => V2.SKPayload_Marshal p
  | PCP p => V2.CPPayload_Marshal p
  | PEAP p => V2.EAPPayload_Marshal p
  | PSKF p => V2.SKFPayload_Marshal p
  | PSAv1 p => V1.SAv1Payload_Marshal p
  | PHashV1 p => V1.HashV1Payload_Marshal p
  | PSIGv1 p => V1.SIGv1Payload_Marshal p
  | PKEv1 p => V1.KEv1Payload_Marshal p
  | PNonceV1 p => V1.NonceV1Payload_Marshal p
  | PIDv1 p => V1.IDv1Payload_Marshal p
  | PNotifyV1 p => V1.NotifyV1Payload_Marshal p
  | PDeleteV1 p => V1.DeleteV1Payload_Marshal p
  | PNATDv1 p => V1.NATDv1Payload_Marshal p
  | PModeConfig p => V1.ModeConfigPayload_Marshal p
  end.

Definition is_raw (p : Payload) : bool := if p is PRaw _ then true else false.

(** ** Dispatch *)

Definition parseV2Payload (pt : Z) (body : bytes) : res Payload :=
  if pt =? PayloadKE then PKE <$> V2.parseV2KE body
  else if pt =? PayloadNonce then PNonce <$> V2.parseV2Nonce body
  else if (pt =? PayloadIDi) || (pt =? PayloadIDr) then PID <$> V2.parseV2ID body (pt =? PayloadIDi)
  else if pt =? PayloadCERT then PCERT <$> V2.parseV2Cert body
  else if pt =? PayloadCERTREQ then PCERTREQ <$> V2.parseV2CertReq body
  else if pt =? PayloadAUTH then PAUTH <$> V2.parseV2Auth body
  else if pt =? PayloadNotify then PNotify <$> V2.parseV2Notify body
  else if pt =? PayloadDelete then PDelete <$> V2.parseV2Delete body
  else if pt =? PayloadVendorID then Ok (PVendorID (V2.mkVendorID (cloneBytes body)))
  else if (pt =? PayloadTSi) || (pt =? PayloadTSr) then PTS <$> V2.parseV2TS body (pt =? PayloadTSi)
  else if pt =? PayloadSK then Ok (PSK (V2.mkSK (cloneBytes body)))
  else if pt =? PayloadCP then PCP <$> V2.parseV2CP body
  else if pt =? PayloadEAP then Ok (PEAP (V2.mkEAP (cloneBytes body)))
  else if pt =? PayloadSA then PSA <$> SA.parseV2SA body
  else if pt =? PayloadSKF then PSKF <$> V2.parseV2SKF body
  else Ok (PRaw (mkRaw pt (cloneBytes body))).

Definition parseV1Payload (pt : Z) (body : bytes) : res Payload :=
  if pt =? PayloadSAV1 then PSAv1 <$> V1.parseV1SA body
  else if pt =? PayloadKEV1 then Ok (PKEv1 (V1.mkKEv1 (cloneBytes body)))
  else if pt =? PayloadNonceV1 then Ok (PNonceV1 (V1.mkNonceV1 (cloneBytes body)))
  else if pt =? PayloadIDV1 then PIDv1 <$> V1.parseV1ID body
  else if pt =? PayloadHashV1 then Ok (PHashV1 (V1.mkHashV1 (cloneBytes body)))
  else if pt =? PayloadSIGV1 then Ok (PSIGv1 (V1.mkSIGv1 (cloneBytes body)))
  else if pt =? PayloadCERTV1 then PCERT <$> V1.parseV1Cert body
  else if pt =? PayloadCERTREQV1 then PCERTREQ <$> V1.parseV1CertReq body
  else if pt =? PayloadNotifyV1 then PNotifyV1 <$> V1.parseV1Notify body
  else if pt =? PayloadDeleteV1 then PDeleteV1 <$> V1.parseV1Delete body
  else if pt =? PayloadVendorIDV1 then Ok (PVendorID (V2.mkVendorID (cloneBytes body)))
  else if pt =? PayloadNATDV1 then Ok (PNATDv1 (V1.mkNATDv1 (cloneBytes body)))
  else Ok (PRaw (mkRaw pt (cloneBytes body))).

(** A parse error leaves the payload raw. *)
Definition parseTypedPayload (pt : Z) (body : bytes) (isV2 : bool) : res Payload :=
  match (if isV2 then parseV2Payload pt body else parseV1Payload pt body) with
  | Ok p => Ok p
  | Err _ => Ok (PRaw (mkRaw pt (cloneBytes body)))
  | Panic => Panic
  end.

(** ** Chains *)

Record ParsedPayload := mkParsed { pp_Header : GenericPayloadHeader; pp_Payload : Payload }.

Abbreviation PayloadChain := (list ParsedPayload).

(** The first payload of a type, [None] for [nil]. *)
Fixpoint FindFirst (pc : PayloadChain) (pt : Z) : option Payload :=
  match pc with
  | [] => None
  | pp :: pc => if Payload_Type (pp_Payload pp) =? pt then Some (pp_Payload pp) else FindFirst pc pt
  end.

Fixpoint FindAll (pc : PayloadChain) (pt : Z) : list Payload :=
  match pc with
  | [] => []
  | pp :: pc =>
    if Payload_Type (pp_Payload pp) =? pt then pp_Payload pp :: FindAll pc pt else FindAll pc pt
  end.

(** The loop of [ParsePayloadChain]; an iteration consumes at least four bytes or ends
    with an error, so one more than the length of the buffer is fuel enough. *)
Fixpoint parse_chain (fuel : nat) (buf : bytes) (nextType offset : Z) (isV2 : bool) : res PayloadChain :=
  if nextType =? PayloadNone then Ok []
  else
    match fuel with
    | O => Panic
    | S fuel =>
      if offset + PayloadHeaderLen >? len buf then Err "payload chain truncated"
      else
        s ← slice buf offset (len buf);
        gph ← ParseGenericPayloadHeader s;
        if gph_Length gph <? PayloadHeaderLen then Err "invalid payload length"
        else
          let endOffset := offset + gph_Length gph in
          if endOffset >? len buf then Err "payload extends beyond buffer"
          else
            body ← slice buf (offset + PayloadHeaderLen) endOffset;
            payload ← parseTypedPayload nextType body isV2;
            if is_raw payload && gph_Critical gph then Err "unsupported critical payload type"
            else
              l ← parse_chain fuel buf (gph_NextPayload gph) endOffset isV2;
              Ok (mkParsed gph payload :: l)
    end.

Definition ParsePayloadChain (buf : bytes) (firstPayload : Z) (isV2 : bool) : res PayloadChain :=
  parse_chain (S (length buf)) buf firstPayload 0 isV2.

Fixpoint marshal_each (payloads : list Payload) : res (list bytes) :=
  match payloads with
  | [] => Ok []
  | p :: l =>
    data ← Payload_Marshal p;
    r ← marshal_each l;
    Ok (data :: r)
  end.

Fixpoint total_size (marshaled : list bytes) : Z :=
  match marshaled with [] => 0 | m :: l => len m + total_size l end.

(** The second loop of [MarshalPayloadChain]: [i] counts the payloads done. *)
Fixpoint assemble (payloads : list Payload) (i : Z) (marshaled : list bytes) (result : bytes) (offset : Z) : res bytes :=
  match marshaled with
  | [] => Ok result
  | m :: l =>
    result ← copy_at result offset m;
    result ← (if i <? len payloads - 1 then
      p ← idx payloads (i + 1);
      set_at result offset (Payload_Type p)
    else set_at result offset PayloadNone);
    assemble payloads (i + 1) l result (offset + len m)
  end.

Definition MarshalPayloadChain (payloads : list Payload) : res (bytes * Z) :=
  match payloads with
  | [] => Ok ([], PayloadNone)
  | first :: _ =>
    marshaled ← marshal_each payloads;
    result ← assemble payloads 0 marshaled (make (total_size marshaled)) 0;
    Ok (result, Payload_Type first)
  end.

(** ** Messages *)

Record Message := mkMessage {
  msg_Header : Header;
  msg_Payloads : PayloadChain;
  msg_RawMessage : bytes
}.

Definition ParseMessage (buf : bytes) : res Message :=
  if len buf <? HeaderLen then Err "buffer too short for IKE message"
  else
    hdr ← ParseHeader buf;
    _ ← Validate hdr;
    let msgLen := Length hdr in
    if msgLen >? len buf then Err "IKE message length exceeds buffer size"
    else
      let isV2 := IsIKEv2 hdr in
      payloadBuf ← slice buf HeaderLen msgLen;
      chain ← ParsePayloadChain payloadBuf (NextPayload hdr) isV2;
      Ok (mkMessage hdr chain []).

(** The header of the message is updated in place. *)
Definition Message_Marshal (m : Message) : res (Message * bytes) :=
  if len (msg_RawMessage m) >? 0 then Ok (m, msg_RawMessage m)
  else
    '(payloadBytes, firstPayload) ← MarshalPayloadChain (pp_Payload <$> msg_Payloads m);
    let h := with_Length (with_NextPayload (msg_Header m) firstPayload) (u32 (HeaderLen + len payloadBytes)) in
    buf ← Marshal h (make (Length h));
    buf ← copy_at buf HeaderLen payloadBytes;
    Ok (mkMessage h (msg_Payloads m) (msg_RawMessage m), buf).

(** ** Round trips *)

(** The body of a payload on the wire. *)
Definition payload_body (p : Payload) : bytes :=
  match p with
  | PRaw p => raw_Data p
  | PSA p => SA.sa_bytes p
  | PKE p => V2.ke_body p
  | PNonce p => V2.nonce_NonceData p
  | PID p => V2.id_body p
  | PCERT p => V2.cert_body p
  | PCERTREQ p => V2.certreq_body p
  | PAUTH p => V2.auth_body p
  | PNotify p => V2.notify_body p
  | PDelete p => V2.delete_body p
  | PVendorID p => V2.vid_VendorData p
  | PTS p => V2.ts_body p
  | PSK p => V2.sk_EncryptedData p
  | PCP p => V2.cp_body p
  | PEAP p => V2.eap_Data p
  | PSKF p => V2.skf_body p
  | PSAv1 p => V1.sa1_body p
  | PHashV1 p => V1.hash1_HashData p
  | PSIGv1 p => V1.sig1_SigData p
  | PKEv1 p => V1.ke1_Data p
  | PNonceV1 p => V1.nonce1_NonceData p
  | PIDv1 p => V1.id1_body p
  | PNotifyV1 p => V1.notify1_body p
  | PDeleteV1 p => V1.delete1_body p
  | PNATDv1 p => V1.natd1_HashData p
  | PModeConfig p => V1.mc_body p
  end.

(** The types [parseV2Payload] and [parseV1Payload] know. *)
Definition known_v2 (pt : Z) : bool := ((33 <=? pt) && (pt <=? 48)) || (pt =? 53).
Definition known_v1 (pt : Z) : bool :=
  (pt =? 1) || ((4 <=? pt) && (pt <=? 13)) || (pt =? 20).

(** The payloads each version can carry, with the fields in the range of the wire. *)
Definition content_ok (isV2 : bool) (p : Payload) : Prop :=
  match p with
  | PRaw r => is_u8 (raw_PayloadType r) /\ raw_PayloadType r <> 0 /\
      (if isV2 then known_v2 (raw_PayloadType r) else known_v1 (raw_PayloadType r)) = false /\ bytes_wf (raw_Data r)
  | PSA p => isV2 = true /\ SA.sa_ok p
  | PKE p => isV2 = true /\ V2.ke_ok p
  | PNonce p => isV2 = true /\ bytes_wf (V2.nonce_NonceData p)
  | PID p => isV2 = true /\ V2.id_ok p
  | PCERT p => isV2 = true /\ V2.cert_ok p
  | PCERTREQ p => isV2 = true /\ V2.certreq_ok p
  | PAUTH p => isV2 = true /\ V2.auth_ok p
  | PNotify p => isV2 = true /\ V2.notify_ok p
  | PDelete p => isV2 = true /\ V2.delete_ok p
  | PVendorID p => isV2 = true /\ bytes_wf (V2.vid_VendorData p)
  | PTS p => isV2 = true /\ V2.ts_ok p
  | PSK p => isV2 = true /\ bytes_wf (V2.sk_EncryptedData p)
  | PCP p => isV2 = true /\ V2.cp_ok p
  | PEAP p => isV2 = true /\ bytes_wf (V2.eap_Data p)
  | PSKF p => isV2 = true /\ V2.skf_ok p
  | PSAv1 p => isV2 = false /\ V1.sa1_ok p
  | PHashV1 p => isV2 = false /\ bytes_wf (V1.hash1_HashData p)
  | PSIGv1 p => isV2 = false /\ bytes_wf (V1.sig1_SigData p)
  | PKEv1 p => isV2 = false /\ bytes_wf (V1.ke1_Data p)
  | PNonceV1 p => isV2 = false /\ bytes_wf (V1.nonce1_NonceData p)
  | PIDv1 p => isV2 = false /\ V1.id1_ok p
  | PNotifyV1 p => isV2 = false /\ V1.notify1_ok p
  | PDeleteV1 p => isV2 = false /\ V1.delete1_ok p
  | PNATDv1 p => isV2 = false /\ bytes_wf (V1.natd1_HashData p)
  | PModeConfig _ => False
  end.

Definition payload_ok (isV2 : bool) (p : Payload) : Prop :=
  content_ok isV2 p /\ 4 + len (payload_body p) < 65536.

Lemma Payload_Marshal_body v p :
  content_ok v p -> Payload_Marshal p = Ok (payload_bytes 0 (payload_body p)).
Proof.
  destruct p; cbn [content_ok Payload_Marshal payload_body]; intros H; try (destruct H as [_ H]);
    first [ by apply marshalWithHeader_ok | by apply RawPayload_Marshal_ok
          | by apply SA.SAPayload_Marshal_bytes | by apply V2.KEPayload_Marshal_body
          | by apply V2.IDPayload_Marshal_body | by apply V2.CERTPayload_Marshal_body
          | by apply V2.CERTREQPayload_Marshal_body | by apply V2.AUTHPayload_Marshal_body
          | by apply V2.NotifyPayload_Marshal_body | by apply V2.DeletePayload_Marshal_body
          | by apply V2.TSPayload_Marshal_body | by apply V2.CPPayload_Marshal_body
          | by apply V2.SKFPayload_Marshal_body | by apply V1.SAv1Payload_Marshal_body
          | by apply V1.IDv1Payload_Marshal_body | by apply V1.NotifyV1Payload_Marshal_body
          | by apply V1.DeleteV1Payload_Marshal_body | done ].
Qed.

Lemma Payload_Type_ok v p : content_ok v p -> is_u8 (Payload_Type p) /\ Payload_Type p <> 0.
Proof.
  destruct p as [| | | |[[] ? ?]| | | | | | |[[] ?]| | | | | | | | | | | | | |]; cbn; intros H;
    (split; [unfold is_u8; try lia; by destruct H|try lia; naive_solver]).
Qed.

(** The dispatch on a type no parser knows. *)
Lemma parseV2Payload_unknown pt body : known_v2 pt = false -> parseV2Payload pt body = Ok (PRaw (mkRaw pt body)).
Proof.
  unfold known_v2. intros H. unfold parseV2Payload.
  repeat match goal with |- context [pt =? ?c] => rewrite (proj2 (Z.eqb_neq pt c)) by (unfold c; lia) end. done.
Qed.

Lemma parseV1Payload_unknown pt body : known_v1 pt = false -> parseV1Payload pt body = Ok (PRaw (mkRaw pt body)).
Proof.
  unfold known_v1. intros H. unfold parseV1Payload.
  repeat match goal with |- context [pt =? ?c] => rewrite (proj2 (Z.eqb_neq pt c)) by (unfold c; lia) end. done.
Qed.

(** [dispatch] selects the parser of a concrete type. *)
Ltac dispatch :=
  unfold parseV2Payload, parseV1Payload;
  repeat match goal with
  | |- context [?a =? ?b] => let c := eval vm_compute in (a =? b) in change (a =? b) with c
  end; cbv beta iota delta [orb].

(** The parser of the type of a payload undoes its marshalling. *)
Lemma parseTypedPayload_body v p :
  content_ok v p -> parseTypedPayload (Payload_Type p) (payload_body p) v = Ok p.
Proof.
  unfold parseTypedPayload.
  destruct p as [r| | | |[[] ? ?]| | | | | | |[[] ?]| | | | | | | | | | | | | |];
    cbn [content_ok Payload_Type payload_body]; intros H; try (destruct H as [-> H]);
    try (dispatch; rewrite ?SA.parseV2SA_bytes, ?V2.parseV2KE_body, ?V2.parseV2Cert_body, ?V2.parseV2CertReq_body,
      ?V2.parseV2Auth_body, ?V2.parseV2Notify_body, ?V2.parseV2Delete_body, ?V2.parseV2CP_body, ?V2.parseV2SKF_body,
      ?V1.parseV1SA_body, ?V1.parseV1ID_body, ?V1.parseV1Notify_body, ?V1.parseV1Delete_body by done;
      by destruct p).
  - destruct H as (_ & _ & Hk & _). destruct v; [rewrite parseV2Payload_unknown by done|rewrite parseV1Payload_unknown by done];
      by destruct r.
  - dispatch. pose proof (V2.parseV2ID_body (V2.mkID true id_IDType id_Data)) as E. cbn [V2.id_IsInitiator] in E. by rewrite E.
  - dispatch. pose proof (V2.parseV2ID_body (V2.mkID false id_IDType id_Data)) as E. cbn [V2.id_IsInitiator] in E. by rewrite E.
  - dispatch. pose proof (V2.parseV2TS_body (V2.mkTS true tsp_Selectors) H) as E. cbn [V2.tsp_IsInitiator] in E. by rewrite E.
  - dispatch. pose proof (V2.parseV2TS_body (V2.mkTS false tsp_Selectors) H) as E. cbn [V2.tsp_IsInitiator] in E. by rewrite E.
Qed.

(** ** Chains *)

Fixpoint chain_bytes (l : list Payload) : bytes :=
  match l with
  | [] => []
  | p :: l => payload_bytes (if l is q :: _ then Payload_Type q else PayloadNone) (payload_body p) ++ chain_bytes l
  end.

Definition first_type (l : list Payload) : Z := if l is p :: _ then Payload_Type p else PayloadNone.

(** The chain as the parser returns it, each payload with its generic header. *)
Fixpoint parsed_chain (l : list Payload) : PayloadChain :=
  match l with
  | [] => []
  | p :: l => mkParsed (mkGPH (first_type l) false (4 + len (payload_body p))) p :: parsed_chain l
  end.

Lemma parsed_chain_payloads l : pp_Payload <$> parsed_chain l = l.
Proof. induction l as [|p l IH]; [done|]. cbn. by f_equal. Qed.

Lemma marshal_each_bytes v l :
  Forall (content_ok v) l -> marshal_each l = Ok ((fun p => payload_bytes 0 (payload_body p)) <$> l).
Proof.
  induction 1 as [|p l Hp _ IH]; [done|]. cbn [marshal_each]. by rewrite (Payload_Marshal_body v), bind_Ok, IH.
Qed.

Lemma len_chain_bytes l : len (chain_bytes l) = total_size ((fun p => payload_bytes 0 (payload_body p)) <$> l).
Proof.
  induction l as [|p l IH]; [done|]. cbn [chain_bytes fmap list_fmap total_size].
  rewrite len_app, !len_payload_bytes. unfold fmap in IH. by rewrite IH.
Qed.

Lemma set_next pre b rest np :
  set_at (pre ++ payload_bytes 0 b ++ rest) (len pre) np = Ok (pre ++ payload_bytes np b ++ rest).
Proof. unfold payload_bytes. cbn [app]. by apply set_mid. Qed.

Lemma assemble_bytes all l : forall pre_ps pre i,
  all = pre_ps ++ l -> i = len pre_ps ->
  assemble all i ((fun p => payload_bytes 0 (payload_body p)) <$> l)
    (pre ++ make (len (chain_bytes l))) (len pre) = Ok (pre ++ chain_bytes l).
Proof.
  induction l as [|p l IH]; intros pp pre i -> ->; [done|]. cbn [fmap list_fmap assemble].
  pose proof (len_nonneg (chain_bytes l)). pose proof (len_nonneg (payload_body p)). pose proof (len_nonneg pp).
  pose proof (len_nonneg l). set (np := first_type l).
  assert (chain_bytes (p :: l) = payload_bytes np (payload_body p) ++ chain_bytes l) as -> by done.
  rewrite fill_copy, bind_Ok by (rewrite ?len_app, ?len_payload_bytes; lia).
  replace (len (payload_bytes np (payload_body p) ++ chain_bytes l) - len (payload_bytes 0 (payload_body p)))
    with (len (chain_bytes l)) by (rewrite len_app, !len_payload_bytes; lia).
  eapply bind_step with (a := (pre ++ payload_bytes np (payload_body p)) ++ make (len (chain_bytes l))).
  - rewrite <- !app_assoc, !set_next. assert (np = first_type l) as Hnp by done. destruct l as [|q l].
    + by rewrite (proj2 (Z.ltb_ge _ _)) by (len_norm; lia).
    + rewrite (proj2 (Z.ltb_lt _ _)) by (len_norm; pose proof (len_nonneg l); lia).
      assert (pp ++ p :: q :: l = (pp ++ [p]) ++ q :: l) as -> by (by rewrite <- app_assoc).
      rewrite idx_mid, bind_Ok by (len_norm; lia). by rewrite set_next.
  - cbv beta. rewrite app_assoc. 
    replace (len pre + len (payload_bytes 0 (payload_body p))) with
      (len (pre ++ payload_bytes np (payload_body p))) by (rewrite len_app, !len_payload_bytes; lia).
    unfold fmap in IH. apply (IH (pp ++ [p])); [by rewrite <- app_assoc|len_norm; lia].
Qed.

Lemma MarshalPayloadChain_bytes v l :
  Forall (content_ok v) l -> MarshalPayloadChain l = Ok (chain_bytes l, first_type l).
Proof.
  intros H. destruct l as [|p l]; [done|]. unfold MarshalPayloadChain. rewrite (marshal_each_bytes v), bind_Ok by done.
  rewrite <- len_chain_bytes. 
  pose proof (assemble_bytes (p :: l) (p :: l) [] [] 0 eq_refl eq_refl) as E.
  rewrite !app_nil_l, (@len_nil Z) in E. by rewrite E, bind_Ok.
Qed.

Lemma chain_bytes_length l : (length l <= length (chain_bytes l))%nat.
Proof.
  induction l as [|p l IH]; [done|]. cbn [chain_bytes length]. rewrite length_app.
  match goal with |- context [payload_bytes ?n ?b] => pose proof (len_payload_bytes n b) end.
  pose proof (len_nonneg (payload_body p)). unfold len in *. lia.
Qed.

Lemma parse_chain_bytes v l : Forall (payload_ok v) l -> forall fuel pre off,
  off = len pre -> (length l <= fuel)%nat ->
  parse_chain fuel (pre ++ chain_bytes l) (first_type l) off v = Ok (parsed_chain l).
Proof.
  induction 1 as [|p l [Hc Hl] _ IH]; intros fuel pre off -> Hf; [by destruct fuel|].
  destruct fuel as [|fuel]; [cbn in Hf; lia|]. cbn [parse_chain first_type].
  destruct (Payload_Type_ok v p Hc) as [Hty Hnz]. rewrite (proj2 (Z.eqb_neq _ _)) by done.
  assert (chain_bytes (p :: l) = payload_bytes (first_type l) (payload_body p) ++ chain_bytes l) as -> by done.
  pose proof (len_payload_bytes (first_type l) (payload_body p)) as Hp.
  destruct (V1.sub_step (first_type l) (payload_body p) (chain_bytes l) pre Hl) as [H1 H2].
  pose proof (len_nonneg (chain_bytes l)). pose proof (len_nonneg (payload_body p)).
  unfold PayloadHeaderLen. rewrite gtb_false by (len_norm; lia).
  rewrite H1, bind_Ok, ParseGenericPayloadHeader_ok, bind_Ok by done. cbn [gph_Length gph_NextPayload gph_Critical].
  rewrite (proj2 (Z.ltb_ge _ 4)), gtb_false by (len_norm; lia).
  rewrite H2, bind_Ok, parseTypedPayload_body, bind_Ok, andb_false_r by done.
  rewrite app_assoc, IH; [done|rewrite len_app; lia|cbn in Hf; lia].
Qed.

(** ** Messages *)

(** What [Validate] checks, apart from the length. *)
Definition version_ok (h : Header) : Prop :=
  MajorVersion h <> 0 /\ (MajorVersion h = 2 -> InitiatorSPI h <> make 8).

(** The header as [Message.Marshal] leaves it. *)
Definition sent_header (h : Header) (l : list Payload) : Header :=
  with_Length (with_NextPayload h (first_type l)) (HeaderLen + len (chain_bytes l)).

Lemma sent_header_ok h l v :
  header_ok h -> Forall (content_ok v) l -> HeaderLen + len (chain_bytes l) < 4294967296 ->
  header_ok (sent_header h l).
Proof.
  intros [] Hc Hl. pose proof (len_nonneg (chain_bytes l)). constructor; cbn; try done.
  - destruct Hc as [|p l Hp _]; [by unfold is_u8|]. by apply (Payload_Type_ok v p).
  - unfold is_u32, HeaderLen in *. lia.
Qed.

Lemma Message_Marshal_bytes v h l :
  header_ok h -> Forall (content_ok v) (pp_Payload <$> l) ->
  HeaderLen + len (chain_bytes (pp_Payload <$> l)) < 4294967296 ->
  Message_Marshal (mkMessage h l []) =
    Ok (mkMessage (sent_header h (pp_Payload <$> l)) l [],
        header_bytes (sent_header h (pp_Payload <$> l)) ++ chain_bytes (pp_Payload <$> l)).
Proof.
  intros Hh Hc Hl. pose proof (sent_header_ok h _ v Hh Hc Hl) as Hok. unfold Message_Marshal.
  cbn [msg_RawMessage msg_Payloads msg_Header len length Z.gtb]. change (Z.of_nat 0 >? 0) with false. cbv iota.
  rewrite (MarshalPayloadChain_bytes v), bind_Ok by done. cbv beta iota.
  pose proof (len_nonneg (chain_bytes (pp_Payload <$> l))).
  rewrite u32_id by (unfold is_u32, HeaderLen in *; lia). fold (sent_header h (pp_Payload <$> l)).
  cbn [Length sent_header with_Length]. change (with_Length (with_NextPayload h (first_type (pp_Payload <$> l)))
    (HeaderLen + len (chain_bytes (pp_Payload <$> l)))) with (sent_header h (pp_Payload <$> l)).
  rewrite Marshal_make, bind_Ok by (done || unfold HeaderLen in *; lia).
  replace (HeaderLen + len (chain_bytes (pp_Payload <$> l)) - HeaderLen) with (len (chain_bytes (pp_Payload <$> l))) by lia.
  rewrite fill_copy, bind_Ok by (rewrite ?len_header_bytes; done || lia).
  by rewrite make_0, app_nil_r by lia.
Qed.

Lemma ParseMessage_bytes h l rest :
  header_ok h -> version_ok h -> Forall (payload_ok (IsIKEv2 h)) l ->
  HeaderLen + len (chain_bytes l) < 4294967296 ->
  ParseMessage (header_bytes (sent_header h l) ++ chain_bytes l ++ rest) =
    Ok (mkMessage (sent_header h l) (parsed_chain l) []).
Proof.
  intros Hh [Hmaj Hspi] Hp Hl. pose proof (len_nonneg (chain_bytes l)). pose proof (len_nonneg rest).
  assert (Forall (content_ok (IsIKEv2 h)) l) as Hc by (eapply Forall_impl; [exact Hp|by intros ? []]).
  pose proof (sent_header_ok h l _ Hh Hc Hl) as Hok. pose proof (len_header_bytes _ Hok) as Hlen.
  unfold ParseMessage. rewrite (proj2 (Z.ltb_ge _ _)) by (rewrite !len_app, Hlen; lia).
  rewrite ParseHeader_bytes, bind_Ok by done.
  assert (Validate (sent_header h l) = Ok tt) as ->.
  { unfold Validate. cbn [sent_header with_Length with_NextPayload MajorVersion Length InitiatorSPI].
    rewrite (proj2 (Z.eqb_neq _ _)), (proj2 (Z.ltb_ge _ _)) by (done || lia).
    destruct (Z.eqb_spec (MajorVersion h) IKEv2Major) as [E|]; [|done]. by rewrite bool_decide_eq_false_2 by auto. }
  rewrite bind_Ok. change (Length (sent_header h l)) with (HeaderLen + len (chain_bytes l)).
  rewrite gtb_false by (rewrite !len_app, Hlen; lia). rewrite slice_skip by (rewrite Hlen; lia).
  rewrite slice_prefix, bind_Ok by lia. unfold ParsePayloadChain.
  change (NextPayload (sent_header h l)) with (first_type l). change (IsIKEv2 (sent_header h l)) with (IsIKEv2 h).
  rewrite (parse_chain_bytes (IsIKEv2 h) l Hp _ [] 0), bind_Ok; [done|done|].
  pose proof (chain_bytes_length l). cbn [app]. lia.
Qed.

(** What IKEv2 sends is made of bytes. *)
Lemma payload_body_wf p : content_ok true p -> bytes_wf (payload_body p).
Proof.
  destruct p; cbn [content_ok payload_body]; intros H; try done; destruct H as [E H]; try done; clear E.
  - tauto.
  - by apply SA.sa_bytes_wf.
  - destruct H. unfold V2.ke_body. wf_bytes.
  - destruct H. unfold V2.id_body. wf_bytes.
  - destruct H. unfold V2.cert_body. wf_bytes.
  - destruct H. unfold V2.certreq_body. wf_bytes.
  - destruct H. unfold V2.auth_body. wf_bytes.
  - destruct H. unfold V2.notify_body. pose proof (len_nonneg (V2.nt_SPI p)). wf_bytes.
  - destruct H as [? ? Hs ?]. unfold V2.delete_body. wf_bytes. apply Forall_concat. eapply Forall_impl; [exact Hs|]. by intros ? [].
  - destruct H as [Hs ?]. unfold V2.ts_body. pose proof (len_nonneg (V2.tsp_Selectors p)). wf_bytes.
    apply Forall_concat_map. eapply Forall_impl; [exact Hs|]. apply V2.selector_bytes_wf.
  - destruct H as [? Hs]. unfold V2.cp_body. wf_bytes. apply Forall_concat_map. eapply Forall_impl; [exact Hs|]. apply V2.config_bytes_wf.
  - destruct H as (? & ? & ?). unfold V2.skf_body. wf_bytes.
Qed.

Lemma chain_bytes_wf l : Forall (content_ok true) l -> bytes_wf (chain_bytes l).
Proof.
  induction 1 as [|p l Hp Hl IH]; [constructor|]. cbn [chain_bytes]. apply Forall_app_2; [|done].
  unfold payload_bytes. pose proof (payload_body_wf p Hp).
  assert (is_u8 (if l is q :: _ then Payload_Type q else PayloadNone)).
  { destruct l as [|q l']; [by unfold is_u8|]. apply Forall_cons in Hl as [Hq _]. by apply (Payload_Type_ok true q). }
  wf_bytes; done.
Qed.

(** C4: The wire carries a message: what is sent is parsed back, payload by payload, whatever
    follows the message in the buffer. *)
Theorem message_roundtrip h pc rest :
  header_ok h -> version_ok h -> Forall (payload_ok (IsIKEv2 h)) (pp_Payload <$> pc) ->
  HeaderLen + len (chain_bytes (pp_Payload <$> pc)) < 4294967296 ->
  exists m b, Message_Marshal (mkMessage h pc []) = Ok (m, b) /\
    len b = Length (msg_Header m) /\
    exists m', ParseMessage (b ++ rest) = Ok m' /\
      msg_Header m' = msg_Header m /\
      pp_Payload <$> msg_Payloads m' = pp_Payload <$> pc.
Proof.
  intros Hh Hv Hp Hl.
  assert (Forall (content_ok (IsIKEv2 h)) (pp_Payload <$> pc)) as Hc by (eapply Forall_impl; [exact Hp|by intros ? []]).
  eexists _, _. split; [by eapply Message_Marshal_bytes|]. split.
  { rewrite len_app, len_header_bytes; [done|]. by eapply sent_header_ok. }
  rewrite <- app_assoc. eexists. split; [by apply ParseMessage_bytes|]. split; [done|]. apply parsed_chain_payloads.
Qed.

(** ** Panics *)

(** The bodies on which a payload parser panics. *)
Definition body_crashes (isV2 : bool) (pt : Z) (body : bytes) : bool :=
  if isV2 then (pt =? PayloadNotify) && V2.notify_crashes body ||
    ((pt =? PayloadTSi) || (pt =? PayloadTSr)) && V2.ts_crashes body
  else (pt =? PayloadNotifyV1) && V1.notify1_crashes body.

Lemma parseV2Payload_np pt body :
  bytes_wf body -> pt <> PayloadNotify -> pt <> PayloadTSi -> pt <> PayloadTSr -> parseV2Payload pt body <> Panic.
Proof.
  intros Hwf Hn Hi Hr. unfold parseV2Payload.
  rewrite (proj2 (Z.eqb_neq _ _) Hn), (proj2 (Z.eqb_neq _ _) Hi), (proj2 (Z.eqb_neq _ _) Hr). cbn [orb].
  repeat (case_match; [first [done | rewrite fmap_Panic; first
    [ apply V2.parseV2KE_np | apply V2.parseV2ID_np | apply V2.parseV2Cert_np | apply V2.parseV2CertReq_np
    | apply V2.parseV2Auth_np | by apply V2.parseV2Delete_np | by apply V2.parseV2CP_np
    | apply V2.parseV2SKF_np | by apply SA.parseV2SA_not_panic ] ]|]). done.
Qed.

Lemma parseV1Payload_np pt body : bytes_wf body -> pt <> PayloadNotifyV1 -> parseV1Payload pt body <> Panic.
Proof.
  intros Hwf Hn. unfold parseV1Payload. rewrite (proj2 (Z.eqb_neq _ _) Hn).
  repeat (case_match; [first [done | rewrite fmap_Panic; first
    [ by apply V1.parseV1SA_np | apply V1.parseV1ID_np | apply V1.parseV1Cert_np | apply V1.parseV1CertReq_np
    | by apply V1.parseV1Delete_np ] ]|]). done.
Qed.

Lemma parseTypedPayload_panic v pt body :
  bytes_wf body -> parseTypedPayload pt body v = Panic <-> body_crashes v pt body = true.
Proof.
  intros Hwf. assert (forall m : res Payload, match m with Ok p => Ok p
    | Err _ => Ok (PRaw (mkRaw pt (cloneBytes body))) | Panic => Panic end = Panic <-> m = Panic) as E by (by intros []).
  unfold parseTypedPayload, body_crashes. rewrite E. clear E. destruct v.
  - destruct (Z.eqb_spec pt PayloadNotify) as [->|Hn].
    { dispatch. rewrite fmap_Panic, V2.parseV2Notify_panic by done. by destruct (V2.notify_crashes body). }
    destruct (Z.eqb_spec pt PayloadTSi) as [->|Hi].
    { dispatch. by rewrite fmap_Panic, V2.parseV2TS_panic by done. }
    destruct (Z.eqb_spec pt PayloadTSr) as [->|Hr].
    { dispatch. by rewrite fmap_Panic, V2.parseV2TS_panic by done. }
    split; [|done]. by intros ?%parseV2Payload_np.
  - destruct (Z.eqb_spec pt PayloadNotifyV1) as [->|Hn].
    { dispatch. by rewrite fmap_Panic, V1.parseV1Notify_panic by done. }
    split; [|done]. by intros ?%parseV1Payload_np.
Qed.

(** The payloads a chain walk visits, whatever their bodies parse to: type, critical
    flag and body, up to the first malformed header. *)
Fixpoint walk (fuel : nat) (buf : bytes) (nextType offset : Z) : list (Z * bool * bytes) :=
  match fuel with
  | O => []
  | S fuel =>
    if nextType =? PayloadNone then []
    else if offset + 4 >? len buf then []
    else match ParseGenericPayloadHeader (sub buf offset (len buf)) with
    | Ok g =>
      if (gph_Length g <? 4) || (offset + gph_Length g >? len buf) then []
      else (nextType, gph_Critical g, sub buf (offset + 4) (offset + gph_Length g)) ::
        walk fuel buf (gph_NextPayload g) (offset + gph_Length g)
    | _ => []
    end
  end.

Definition visited (buf : bytes) (firstPayload : Z) : list (Z * bool * bytes) :=
  walk (S (length buf)) buf firstPayload 0.

(** The parser goes past a payload unless it is critical and not understood. *)
Definition passed (isV2 : bool) (x : Z * bool * bytes) : Prop :=
  let '(pt, critical, body) := x in
  critical = true -> exists p, parseTypedPayload pt body isV2 = Ok p /\ is_raw p = false.

Definition crash_in (isV2 : bool) (l : list (Z * bool * bytes)) : Prop :=
  exists l1 pt critical body l2, l = l1 ++ (pt, critical, body) :: l2 /\
    Forall (passed isV2) l1 /\ body_crashes isV2 pt body = true.

Lemma crash_in_nil v : ~ crash_in v [].
Proof. by intros ([] & ? & ? & ? & ? & ? & _). Qed.

Lemma crash_in_cons v pt c b l :
  crash_in v ((pt, c, b) :: l) <-> body_crashes v pt b = true \/ (passed v (pt, c, b) /\ crash_in v l).
Proof.
  split.
  - intros ([|x l1] & pt' & c' & b' & l2 & E & Hp & Hb); cbn in E; injection E; intros; subst; [by left|].
    apply Forall_cons in Hp as [Hp Hps]. right. split; [done|]. by exists l1, pt', c', b', l2.
  - intros [Hb|[Hp (l1 & pt' & c' & b' & l2 & -> & Hps & Hb)]].
    + exists [], pt, c, b, l. split_and!; [done|constructor|done].
    + exists ((pt, c, b) :: l1), pt', c', b', l2. split_and!; [done|by constructor|done].
Qed.

Lemma parse_chain_panic buf v : bytes_wf buf -> forall fuel nt offset,
  0 <= offset <= len buf -> len buf - offset < Z.of_nat fuel ->
  parse_chain fuel buf nt offset v = Panic <-> crash_in v (walk fuel buf nt offset).
Proof.
  intros Hwf. induction fuel as [|fuel IH]; intros nt off Ho Hf; [lia|]. cbn [parse_chain walk].
  destruct (nt =? PayloadNone); [split; [done|by intros ?%crash_in_nil]|]. unfold PayloadHeaderLen.
  destruct (Z.gtb_spec (off + 4) (len buf)); [split; [done|by intros ?%crash_in_nil]|].
  rewrite slice_ok, bind_Ok by lia. destruct (V1.header_at buf off Hwf) as (g & -> & _ & Hg); [lia..|].
  unfold is_u16 in Hg. rewrite bind_Ok.
  destruct (Z.ltb_spec (gph_Length g) 4); [split; [done|by intros ?%crash_in_nil]|].
  destruct (Z.gtb_spec (off + gph_Length g) (len buf)); [split; [done|by intros ?%crash_in_nil]|]. cbn [orb].
  rewrite slice_ok, bind_Ok by lia. set (body := sub buf _ _).
  assert (bytes_wf body) as Hb by (by apply Forall_sub). rewrite crash_in_cons, <- parseTypedPayload_panic by done.
  rewrite <- IH by lia. destruct (parseTypedPayload nt body v) as [p|e|] eqn:E.
  - rewrite bind_Ok. unfold passed. destruct (is_raw p && gph_Critical g) eqn:Ec.
    + rewrite andb_true_iff in Ec. destruct Ec as [Hr Hc]. rewrite Hc. split; [done|].
      intros [?|[Hp _]]; [done|]. destruct Hp as (p' & Ep & Hp'); [done|]. rewrite E in Ep.
      injection Ep as ->. by rewrite Hr in Hp'.
    + assert (gph_Critical g = true -> exists p', parseTypedPayload nt body v = Ok p' /\ is_raw p' = false) as Hp.
      { intros Hc. exists p. split; [done|]. by rewrite Hc, andb_true_r in Ec. }
      rewrite E in Hp. destruct (parse_chain _ _ _ _ _); naive_solver.
  - exfalso. unfold parseTypedPayload in E. match type of E with match ?m with _ => _ end = _ => by destruct m end.
  - split; [by left|done].
Qed.

Lemma ParsePayloadChain_panic buf nt v :
  bytes_wf buf -> ParsePayloadChain buf nt v = Panic <-> crash_in v (visited buf nt).
Proof. intros. apply parse_chain_panic; [done|..]; unfold len; lia. Qed.

(** C34: The parser of a datagram panics in one way only: its walk over the payloads reaches a
    Notify payload whose SPI size wraps an 8-bit sum, or (IKEv2) a traffic selector
    shorter than its own header. *)
Theorem ParseMessage_panics buf :
  bytes_wf buf ->
  ParseMessage buf = Panic <->
  exists h, ParseHeader buf = Ok h /\ Validate h = Ok tt /\ Length h <= len buf /\
    crash_in (IsIKEv2 h) (visited (sub buf HeaderLen (Length h)) (NextPayload h)).
Proof.
  intros Hwf. unfold ParseMessage. destruct (Z.ltb_spec (len buf) HeaderLen) as [Hl|Hl].
  { split; [done|]. intros (h & Hh & _). by rewrite ParseHeader_short in Hh. }
  destruct (IkeParseHeader_total buf Hl) as [h ->]. rewrite bind_Ok.
  assert (Validate h = Ok tt -> HeaderLen <= Length h) as Hv.
  { unfold Validate. case_match; [done|]. case_match eqn:E; [done|]. intros _. by apply Z.ltb_ge in E. }
  split.
  - intros H. exists h. split; [done|]. destruct (Validate h) as [[]|e|] eqn:Ev; [|done|].
    + rewrite bind_Ok in H. split; [done|]. destruct (Z.gtb_spec (Length h) (len buf)); [done|]. split; [done|].
      specialize (Hv eq_refl). unfold HeaderLen in *. rewrite slice_ok, bind_Ok in H by lia.
      apply ParsePayloadChain_panic; [by apply Forall_sub|]. by destruct (ParsePayloadChain _ _ _).
    + unfold Validate in Ev. repeat case_match; done.
  - intros (h' & [= <-] & Ev & Hle & Hc). rewrite Ev, bind_Ok, (gtb_false (Length h)) by lia. specialize (Hv Ev).
    unfold HeaderLen in *. rewrite slice_ok, bind_Ok by lia. apply ParsePayloadChain_panic in Hc; [|by apply Forall_sub].
    by rewrite Hc.
Qed.

(** ** Concrete messages *)

(** An IKE_SA_INIT request. *)
Definition ex_header : Header := mkHeader [1;2;3;4;5;6;7;8] (make 8) 0 2 0 ExchangeIKESAInit FlagInitiator 0 0.

Definition ex_init : list Payload :=
  [ PSA (SA.mkSA [SA.mkProposal 1 SA.ProtocolIKE [] [SA.mkTransform 1 12 256 false; SA.mkTransform 4 14 0 true] true]);
    PKE (V2.mkKE 14 [9; 9; 9; 9]);
    PNonce (V2.mkNonce [1; 2; 3]);
    PNotify (V2.mkNotify 0 0 V2.NotifyNATDetectionSourceIP [] [7; 7]);
    PRaw (mkRaw 200 [5]) ].

Ltac field_ok := repeat first [ apply Forall_cons; split | apply Forall_nil_2 | constructor | done | unfold is_u8, is_u16; lia ].

Lemma ex_header_ok : header_ok ex_header.
Proof. by apply Build_header_ok; try done; apply (bool_decide_unpack _). Defined.

Lemma ex_init_ok : Forall (payload_ok true) ex_init.
Proof.
  repeat (apply Forall_cons; split); [..|by constructor]; (split; [|done]); cbn [content_ok].
  - split; [done|]. split; [|done]. apply Forall_singleton. constructor; try done; try (by constructor).
    repeat (apply Forall_cons; split); by constructor.
  - split; [done|]. by split; [|apply (bool_decide_unpack _)].
  - split; [done|]. by apply (bool_decide_unpack _).
  - split; [done|]. constructor; try done; by apply (bool_decide_unpack _).
  - split_and!; try done. by apply (bool_decide_unpack _).
Defined.

Lemma message_roundtrip_witness :
  exists m b, Message_Marshal (mkMessage ex_header (parsed_chain ex_init) []) = Ok (m, b) /\
    len b = Length (msg_Header m) /\
    exists m', ParseMessage (b ++ [0; 0]) = Ok m' /\
      msg_Header m' = msg_Header m /\
      pp_Payload <$> msg_Payloads m' = pp_Payload <$> parsed_chain ex_init.
Proof.
  apply message_roundtrip; [exact ex_header_ok|by split|exact ex_init_ok|reflexivity].
Defined.

(** Forty bytes that crash the parser: a Notify payload with SPI size 252. *)
Definition crash_datagram : bytes :=
  [1;2;3;4;5;6;7;8] ++ make 8 ++ [PayloadNotify; 32; ExchangeIKESAInit; FlagInitiator] ++ put32 0 ++ put32 36 ++
  [0; 0; 0; 8; 1; 252; 64; 4].

Lemma ParseMessage_panics_witness : ParseMessage crash_datagram = Panic.
Proof.
  apply ParseMessage_panics; [by apply (bool_decide_unpack _)|].
  eexists. split; [vm_compute; reflexivity|]. split; [reflexivity|]. split; [vm_compute; discriminate|].
  exists [], PayloadNotify, false, [1; 252; 64; 4], []. split; [vm_compute; reflexivity|]. split; [constructor|reflexivity].
Defined.

(** ** Encrypted messages *)

(** In an encrypted message the header of the SK payload, which is the last, names the first
    payload inside it (RFC 7296, 3.14).  The chain walk takes it for the type of a
    payload that follows, and rejects the message. *)
Theorem encrypted_message_rejected h np body rest :
  header_ok h -> version_ok h -> MajorVersion h = IKEv2Major -> NextPayload h = PayloadSK ->
  np <> PayloadNone -> 4 + len body < 65536 -> Length h = HeaderLen + (4 + len body) ->
  ParseMessage (header_bytes h ++ payload_bytes np body ++ rest) = Err "payload chain truncated".
Proof.
  intros Hh [Hmaj Hspi] Hv2 Hsk Hnp Hl Hlen. pose proof (len_header_bytes _ Hh) as Hlh.
  pose proof (len_nonneg body). pose proof (len_nonneg rest). pose proof (len_payload_bytes np body) as Hlp.
  unfold ParseMessage. rewrite (proj2 (Z.ltb_ge _ _)) by (rewrite !len_app, Hlh; lia).
  rewrite ParseHeader_bytes, bind_Ok by done.
  assert (Validate h = Ok tt) as ->.
  { unfold Validate. rewrite (proj2 (Z.eqb_neq _ _)), (proj2 (Z.ltb_ge _ _)) by (done || lia).
    rewrite Hv2. by rewrite bool_decide_eq_false_2 by auto. }
  rewrite bind_Ok, gtb_false by (rewrite !len_app, Hlh; lia). rewrite slice_skip by (rewrite Hlh; lia).
  rewrite slice_prefix, bind_Ok by lia. unfold ParsePayloadChain, IsIKEv2. rewrite Hv2, Hsk. change (IKEv2Major =? IKEv2Major) with true.
  destruct (V1.sub_step np body [] [] Hl) as [H1 H2]. rewrite !app_nil_l, !app_nil_r in H1, H2. change (len (@nil Z)) with 0 in *.
  assert (exists n, length (payload_bytes np body) = S n) as [n ->] by (eexists; reflexivity).
  cbn [parse_chain]. change (PayloadSK =? PayloadNone) with false. cbv iota. unfold PayloadHeaderLen.
  rewrite gtb_false by lia. rewrite H1, bind_Ok, <- (app_nil_r (payload_bytes np body)), ParseGenericPayloadHeader_ok, bind_Ok by done.
  cbn [gph_Length gph_NextPayload gph_Critical]. rewrite app_nil_r.
  rewrite (proj2 (Z.ltb_ge _ 4)), gtb_false by lia. rewrite H2, bind_Ok.
  change (parseTypedPayload PayloadSK body true) with (Ok (PSK (V2.mkSK body)) : res Payload). rewrite bind_Ok. cbn [is_raw andb].
  rewrite (proj2 (Z.eqb_neq _ _)) by done. rewrite (proj2 (Z.gtb_lt _ _)) by lia. done.
Qed.

Lemma encrypted_message_rejected_witness :
  ParseMessage (header_bytes (mkHeader [1;2;3;4;5;6;7;8] [1;2;3;4;5;6;7;8] PayloadSK 2 0 ExchangeIKEAuth 8 1 35) ++
    payload_bytes PayloadIDi [1; 2; 3] ++ []) = Err "payload chain truncated".
Proof.
  apply encrypted_message_rejected; try done.
  by apply Build_header_ok; try done; apply (bool_decide_unpack _).
Defined.

(** Vendor and certificate payloads carry their IKEv2 numbers in IKEv1 messages too, where
    the parser does not know them. *)
Example vendor_id_v1 :
  (b ← MarshalPayloadChain [PVendorID (V2.mkVendorID [1; 2])];
   ParsePayloadChain b.1 b.2 false) = Ok [mkParsed (mkGPH 0 false 6) (PRaw (mkRaw 43 [1; 2]))].
Proof. vm_compute. reflexivity. Qed.

End Msg.
