(* ===== verification/IkeTotal.v ===== *)
(** * IkeTotal: serialising a message always succeeds

    No payload makes the marshalling code of [internal/ike/payload*.go] panic or fail,
    whatever the lengths of its parts; only the size of a Delete payload's SPIs must not
    be negative, which its Go type (uint8) says.  The handlers rely on it for every
    answer they build and every request they serialise again. *)

From S2P Require Import Prelude Wire IkeHeader IkePayload IkeSA IkeV2 IkeV1.
From S2P Require Import IkeMessage.
Import Hdr Pl Attr SA V2 V1 Msg.

(** [m] yields a buffer of [n] bytes. *)
Definition fills (n : Z) (m : res bytes) : Prop := exists b, m = Ok b /\ len b = n.

(** [m] yields a buffer of at least [n] bytes. *)
Definition yields (n : Z) (m : res bytes) : Prop := exists b, m = Ok b /\ n <= len b.

Lemma fills_Ok b n : len b = n -> fills n (Ok b).
Proof. by exists b. Qed.

Lemma fills_bind n k m f : fills n m -> (forall b, len b = n -> fills k (f b)) -> fills k (m ≫= f).
Proof. intros (b & -> & Hb) Hf. by apply Hf. Qed.

Lemma yields_bind n k m f : fills n m -> (forall b, len b = n -> yields k (f b)) -> yields k (m ≫= f).
Proof. intros (b & -> & Hb) Hf. by apply Hf. Qed.

Lemma yields_fills n k m : fills n m -> k <= n -> yields k m.
Proof. intros (b & -> & Hb) Hk. exists b. split; [done|lia]. Qed.

Lemma fills_set l i v n : len l = n -> 0 <= i < n -> fills n (set_at l i v).
Proof. intros Hl Hi. destruct (set_at_total l i v) as (b & Hb & E); [lia|]. exists b. split; [done|lia]. Qed.

Lemma fills_copy l a s n : len l = n -> 0 <= a <= n -> fills n (copy_at l a s).
Proof.
  intros Hl Ha. destruct (copy_at l a s) as [b| |] eqn:E.
  - exists b. split; [done|]. by rewrite (len_copy_at _ _ _ _ E).
  - unfold copy_at in E. by destruct (_ && _).
  - unfold copy_at in E. rewrite (proj2 (Z.leb_le 0 a)), (proj2 (Z.leb_le a _)) in E by lia. done.
Qed.

Lemma fills_put16 l a v n : len l = n -> 0 <= a -> a + 2 <= n -> fills n (put16_at l a v).
Proof.
  intros Hl Ha Hn. unfold put16_at. rewrite (proj2 (Z.leb_le 0 a)), (proj2 (Z.leb_le (a + 2) _)) by lia.
  apply fills_copy; lia.
Qed.

Lemma fills_put32 l a v n : len l = n -> 0 <= a -> a + 4 <= n -> fills n (put32_at l a v).
Proof.
  intros Hl Ha Hn. unfold put32_at. rewrite (proj2 (Z.leb_le 0 a)), (proj2 (Z.leb_le (a + 4) _)) by lia.
  apply fills_copy; lia.
Qed.

(** The lengths that occur are not negative. *)
Ltac known_len :=
  repeat match goal with
  | |- context [len ?x] => lazymatch goal with H : 0 <= len x |- _ => fail | _ => pose proof (len_nonneg x) end
  | _ : context [len ?x] |- _ => lazymatch goal with H : 0 <= len x |- _ => fail | _ => pose proof (len_nonneg x) end
  end.

Lemma len_make_nonneg n : 0 <= n -> len (make n) = n.
Proof. rewrite len_make. lia. Qed.

(** A buffer filled field by field. *)
Ltac fill_len := rewrite ?len_make; known_len; lia.
Ltac fill_total :=
  repeat lazymatch goal with
  | |- fills _ (mbind _ (set_at _ _ _)) => eapply fills_bind; [apply fills_set; [first [eassumption|apply len_make_nonneg; fill_len]|fill_len]|intros ? ?]
  | |- fills _ (mbind _ (copy_at _ _ _)) => eapply fills_bind; [apply fills_copy; [first [eassumption|apply len_make_nonneg; fill_len]|fill_len]|intros ? ?]
  | |- fills _ (mbind _ (put16_at _ _ _)) => eapply fills_bind; [apply fills_put16; [first [eassumption|apply len_make_nonneg; fill_len]|fill_len..]|intros ? ?]
  | |- fills _ (mbind _ (put32_at _ _ _)) => eapply fills_bind; [apply fills_put32; [first [eassumption|apply len_make_nonneg; fill_len]|fill_len..]|intros ? ?]
  | |- fills _ (set_at _ _ _) => apply fills_set; [first [eassumption|apply len_make_nonneg; fill_len]|fill_len]
  | |- fills _ (copy_at _ _ _) => apply fills_copy; [first [eassumption|apply len_make_nonneg; fill_len]|fill_len]
  | |- fills _ (put16_at _ _ _) => apply fills_put16; [first [eassumption|apply len_make_nonneg; fill_len]|fill_len..]
  | |- fills _ (put32_at _ _ _) => apply fills_put32; [first [eassumption|apply len_make_nonneg; fill_len]|fill_len..]
  end.

Lemma marshalWithHeader_total t body : fills (4 + len body) (marshalWithHeader t body).
Proof. unfold marshalWithHeader, PayloadHeaderLen. cbn zeta. fill_total. Qed.

Lemma yields_header t b : yields 4 (marshalWithHeader t b).
Proof. eapply yields_fills; [apply marshalWithHeader_total|]. pose proof (len_nonneg b). lia. Qed.

(** ** The payloads of IKEv2 *)

Lemma GenericPayloadHeader_total g buf n : len buf = n -> 4 <= n -> fills n (GenericPayloadHeader_Marshal g buf).
Proof.
  intros Hl Hn. unfold GenericPayloadHeader_Marshal, PayloadHeaderLen. rewrite (proj2 (Z.ltb_ge _ _)) by lia.
  fill_total. eapply fills_bind; [|intros ? ?; fill_total]. destruct (gph_Critical g); [fill_total|by apply fills_Ok].
Qed.

Lemma Attribute_total a : exists b, ISAKMPAttribute_Marshal a = Ok b.
Proof.
  unfold ISAKMPAttribute_Marshal. destruct (at_IsTV a).
  - enough (fills 4 (buf ← put16_at (make 4) 0 (Z.lor (at_Type a) 32768);
      if 2 <=? len (at_Value a) then v ← slice (at_Value a) 0 2; copy_at buf 2 v else Ok buf)) as (b & Hb & _) by (by exists b).
    fill_total. destruct (Z.leb_spec 2 (len (at_Value a))); [|by apply fills_Ok].
    rewrite slice_ok, bind_Ok by lia. fill_total.
  - cbn zeta. enough (fills (4 + len (at_Value a)) (buf ← put16_at (make (4 + len (at_Value a))) 0 (Z.land (at_Type a) 32767);
      buf ← put16_at buf 2 (u16 (len (at_Value a))); copy_at buf 4 (at_Value a))) as (b & Hb & _) by (by exists b). fill_total.
Qed.

Lemma marshal_attrs_total l : exists b, marshal_attrs l = Ok b.
Proof.
  induction l as [|a l [b IH]]; cbn [marshal_attrs]; [by eexists|]. destruct (Attribute_total a) as [d ->].
  rewrite bind_Ok, IH. by eexists.
Qed.

Lemma Transform_total xf last : exists b, marshalV2Transform xf last = Ok b.
Proof.
  unfold marshalV2Transform. set (m := if tr_KeyLength xf >? 0 then _ else _).
  assert (exists a, m = Ok a) as [a ->].
  { unfold m. destruct (_ >? _); [|by eexists].
    enough (fills 4 (attr ← put16_at (make 4) 0 (Z.lor AttrKeyLength 32768); put16_at attr 2 (tr_KeyLength xf))) as (b & Hb & _) by (by exists b).
    fill_total. }
  rewrite bind_Ok. cbn zeta.
  match goal with |- exists b, ?m = Ok b => enough (fills (8 + len a) m) as (b & Hb & _) by (by exists b) end. fill_total.
Qed.

Lemma marshal_transforms_total l n i : exists b, marshal_transforms n i l = Ok b.
Proof.
  revert i. induction l as [|x l IH]; intros i; cbn [marshal_transforms]; [by eexists|].
  destruct (Transform_total x (i =? n - 1)) as [d ->], (IH (i + 1)) as [r Hr]. rewrite bind_Ok, Hr. by eexists.
Qed.

Lemma Proposal_total p last : exists b, marshalV2Proposal p last = Ok b.
Proof.
  unfold marshalV2Proposal. destruct (marshal_transforms_total (pr_Transforms p) (len (pr_Transforms p)) 0) as [x ->].
  rewrite bind_Ok. cbn zeta.
  match goal with |- exists b, ?m = Ok b => enough (fills (8 + len (pr_SPI p) + len x) m) as (b & Hb & _) by (by exists b) end.
  fill_total.
Qed.

Lemma marshal_proposals_total l n i : exists b, marshal_proposals n i l = Ok b.
Proof.
  revert i. induction l as [|x l IH]; intros i; cbn [marshal_proposals]; [by eexists|].
  destruct (Proposal_total x (i =? n - 1)) as [d ->], (IH (i + 1)) as [r Hr]. rewrite bind_Ok, Hr. by eexists.
Qed.

(** The same after any number of fields. *)
Ltac yield_total :=
  repeat lazymatch goal with
  | |- yields _ (mbind _ (set_at _ _ _)) => eapply yields_bind; [apply fills_set; [first [eassumption|apply len_make_nonneg; fill_len]|fill_len]|intros ? ?]
  | |- yields _ (mbind _ (copy_at _ _ _)) => eapply yields_bind; [apply fills_copy; [first [eassumption|apply len_make_nonneg; fill_len]|fill_len]|intros ? ?]
  | |- yields _ (mbind _ (put16_at _ _ _)) => eapply yields_bind; [apply fills_put16; [first [eassumption|apply len_make_nonneg; fill_len]|fill_len..]|intros ? ?]
  | |- yields _ (mbind _ (put32_at _ _ _)) => eapply yields_bind; [apply fills_put32; [first [eassumption|apply len_make_nonneg; fill_len]|fill_len..]|intros ? ?]
  | |- yields 4 (marshalWithHeader _ _) => apply yields_header
  end.

Lemma copy_spis_total size l body off n :
  0 <= size -> 0 <= off -> len body = n -> off + len l * size <= n -> fills n (copy_spis size l body off).
Proof.
  revert body off. induction l as [|x l IH]; intros body off Hs Ho Hb Hn; cbn [copy_spis]; [by apply fills_Ok|].
  rewrite len_cons in Hn. pose proof (len_nonneg l). eapply fills_bind; [apply (fills_copy _ _ _ n); [done|nia]|].
  intros b Eb. apply IH; [lia|lia|done|nia].
Qed.

Lemma marshal_selectors_total l : exists b, marshal_selectors l = Ok b.
Proof.
  induction l as [|ts l [r IH]]; cbn [marshal_selectors]; [by eexists|]. cbn zeta.
  match goal with |- exists b, ?m = Ok b => enough (fills (8 + len (ts_StartAddr ts) * 2 + len r) m) as (b & Hb & _) by (by exists b) end.
  fill_total. rewrite IH, bind_Ok. apply fills_Ok. rewrite len_app. lia.
Qed.

Lemma marshal_config_total l : exists b, marshal_config l = Ok b.
Proof.
  induction l as [|a l [r IH]]; cbn [marshal_config]; [by eexists|]. cbn zeta.
  match goal with |- exists b, ?m = Ok b => enough (fills (4 + len (ca_Value a) + len r) m) as (b & Hb & _) by (by exists b) end.
  fill_total. rewrite IH, bind_Ok. apply fills_Ok. rewrite len_app. lia.
Qed.

(** ** The payloads of IKEv1 *)

Lemma TransformV1_total xf : exists b, TransformV1Payload_marshalBody xf = Ok b.
Proof.
  unfold TransformV1Payload_marshalBody. destruct (marshal_attrs_total (t1_Attributes xf)) as [a ->]. rewrite bind_Ok. cbn zeta.
  match goal with |- exists b, ?m = Ok b => enough (fills (4 + len a) m) as (b & Hb & _) by (by exists b) end. fill_total.
Qed.

(** One sub-payload: its header, its body, the rest. *)
Lemma sub_payload_total np d rest : (exists r, rest = Ok r) ->
  exists b, (xfBuf ← GenericPayloadHeader_Marshal (mkGPH np false (u16 (PayloadHeaderLen + len d))) (make (PayloadHeaderLen + len d));
    xfBuf ← copy_at xfBuf PayloadHeaderLen d; r ← rest; Ok (xfBuf ++ r)) = Ok b.
Proof.
  intros [r ->]. unfold PayloadHeaderLen. known_len.
  match goal with |- exists b, ?m = Ok b => enough (fills (4 + len d + len r) m) as (b & Hb & _) by (by exists b) end.
  eapply fills_bind; [apply (GenericPayloadHeader_total _ _ (4 + len d)); [apply len_make_nonneg; lia|lia]|]. intros b Hb.
  fill_total. cbn. apply fills_Ok. rewrite len_app. lia.
Qed.

Lemma marshal_v1_transforms_total l n i : exists b, marshal_v1_transforms n i l = Ok b.
Proof.
  revert i. induction l as [|x l IH]; intros i; cbn [marshal_v1_transforms]; [by eexists|].
  destruct (TransformV1_total x) as [d ->]. rewrite bind_Ok. apply sub_payload_total, IH.
Qed.

Lemma ProposalV1_total p : exists b, ProposalV1Payload_marshalBody p = Ok b.
Proof.
  unfold ProposalV1Payload_marshalBody.
  destruct (marshal_v1_transforms_total (p1_Transforms p) (len (p1_Transforms p)) 0) as [x ->]. rewrite bind_Ok. cbn zeta.
  match goal with |- exists b, ?m = Ok b => enough (fills (4 + len (p1_SPI p) + len x) m) as (b & Hb & _) by (by exists b) end.
  fill_total.
Qed.

Lemma marshal_v1_proposals_total l n i : exists b, marshal_v1_proposals n i l = Ok b.
Proof.
  revert i. induction l as [|x l IH]; intros i; cbn [marshal_v1_proposals]; [by eexists|].
  destruct (ProposalV1_total x) as [d ->]. rewrite bind_Ok. apply sub_payload_total, IH.
Qed.

(** ** Payloads, chains, messages *)

(** What the Go type of an SPI size says; the only field of which anything is needed. *)
Definition sized (p : Payload) : Prop :=
  match p with PDelete d => 0 <= del_SPISize d | PDeleteV1 d => 0 <= del1_SPISize d | _ => True end.

Lemma Payload_Marshal_total p : sized p -> yields 4 (Payload_Marshal p).
Proof.
  intros Hp. destruct p as [p|p|p|p|p|p|p|p|p|p|p|p|p|p|p|p|p|p|p|p|p|p|p|p|p|p]; cbn [Payload_Marshal sized] in *.
  - unfold RawPayload_Marshal, PayloadHeaderLen. cbn zeta. known_len.
    apply (yields_fills (4 + len (raw_Data p))); [|lia].
    eapply fills_bind; [apply (GenericPayloadHeader_total _ _ (4 + len (raw_Data p))); [apply len_make_nonneg; lia|lia]|].
    intros b Hb. fill_total.
  - unfold SAPayload_Marshal. destruct (marshal_proposals_total (sa_Proposals p) (len (sa_Proposals p)) 0) as [x ->]. apply yields_header.
  - unfold KEPayload_Marshal. cbn zeta. yield_total.
  - apply yields_header.
  - unfold IDPayload_Marshal. cbn zeta. yield_total.
  - unfold CERTPayload_Marshal. cbn zeta. yield_total.
  - unfold CERTREQPayload_Marshal. cbn zeta. yield_total.
  - unfold AUTHPayload_Marshal. cbn zeta. yield_total.
  - unfold NotifyPayload_Marshal. cbn zeta. yield_total.
  - unfold DeletePayload_Marshal. cbn zeta. known_len. assert (0 <= len (del_SPIs p) * del_SPISize p) by nia. yield_total.
    eapply yields_bind; [apply copy_spis_total; [lia|lia|eassumption|lia]|]. intros. apply yields_header.
  - apply yields_header.
  - unfold TSPayload_Marshal. destruct (marshal_selectors_total (tsp_Selectors p)) as [x ->]. cbn zeta. rewrite bind_Ok. yield_total.
  - apply yields_header.
  - unfold CPPayload_Marshal. destruct (marshal_config_total (cp_Attributes p)) as [x ->]. cbn zeta. rewrite bind_Ok. yield_total.
  - apply yields_header.
  - unfold SKFPayload_Marshal. cbn zeta. yield_total.
  - unfold SAv1Payload_Marshal. destruct (marshal_v1_proposals_total (sa1_Proposals p) (len (sa1_Proposals p)) 0) as [x ->].
    cbn zeta. rewrite bind_Ok. yield_total.
  - apply yields_header.
  - apply yields_header.
  - apply yields_header.
  - apply yields_header.
  - unfold IDv1Payload_Marshal. cbn zeta. yield_total.
  - unfold NotifyV1Payload_Marshal. cbn zeta. yield_total.
  - unfold DeleteV1Payload_Marshal. cbn zeta. known_len. assert (0 <= len (del1_SPIs p) * del1_SPISize p) by nia. yield_total.
    eapply yields_bind; [apply copy_spis_total; [lia|lia|eassumption|lia]|]. intros. apply yields_header.
  - apply yields_header.
  - unfold ModeConfigPayload_Marshal. destruct (marshal_attrs_total (mc_Attributes p)) as [x ->]. cbn zeta. rewrite bind_Ok. yield_total.
Qed.

(** The size of a payload on the wire, and of a chain. *)
Definition payload_size (p : Payload) : Z := match Payload_Marshal p with Ok b => len b | _ => 0 end.
Fixpoint chain_size (l : list Payload) : Z := match l with [] => 0 | p :: l => payload_size p + chain_size l end.

Lemma marshal_each_total l : Forall sized l ->
  exists ms, marshal_each l = Ok ms /\ len ms = len l /\ Forall (fun m => 4 <= len m) ms /\ total_size ms = chain_size l.
Proof.
  induction 1 as [|p l Hp Hl (ms & IH & E & F & S)]; cbn [marshal_each chain_size]; [by exists []|].
  destruct (Payload_Marshal_total p Hp) as (b & Eb & Hb). unfold payload_size. rewrite Eb, bind_Ok, IH.
  exists (b :: ms). rewrite !len_cons, E. cbn [total_size]. rewrite S. by repeat constructor.
Qed.

Lemma total_size_nonneg ms : 0 <= total_size ms.
Proof. induction ms as [|m ms IH]; cbn [total_size]; [lia|]. pose proof (len_nonneg m). lia. Qed.

Lemma assemble_total payloads ms i result off n :
  0 <= i -> i + len ms = len payloads -> Forall (fun m => 4 <= len m) ms -> 0 <= off -> len result = n ->
  off + total_size ms <= n -> fills n (assemble payloads i ms result off).
Proof.
  intros Hi El F. revert i result off Hi El. induction F as [|m ms Hm F IH]; intros i result off Hi El Ho Hr Hn;
    cbn [assemble total_size] in *; [by apply fills_Ok|]. rewrite len_cons in El. pose proof (len_nonneg ms).
  pose proof (total_size_nonneg ms).
  eapply fills_bind; [apply (fills_copy _ _ _ n); [done|lia]|]. intros b Hb.
  eapply (fills_bind n).
  - destruct (Z.ltb_spec i (len payloads - 1)) as [Hlt|_]; [|apply fills_set; [done|lia]].
    destruct (lookup_lt_is_Some_2 payloads (Z.to_nat (i + 1))) as [p Hp]; [unfold len in *; lia|].
    unfold idx. rewrite (proj2 (Z.leb_le 0 _)), Hp, bind_Ok by lia. apply fills_set; [done|lia].
  - intros c Hc. apply IH; lia.
Qed.

Lemma MarshalPayloadChain_total l : Forall sized l ->
  exists b, MarshalPayloadChain l = Ok (b, match l with [] => PayloadNone | p :: _ => Payload_Type p end) /\ len b = chain_size l.
Proof.
  intros Hl. unfold MarshalPayloadChain. destruct l as [|p l]; [by exists []|].
  destruct (marshal_each_total _ Hl) as (ms & -> & E & F & S). rewrite bind_Ok. pose proof (total_size_nonneg ms).
  destruct (assemble_total (p :: l) ms 0 (make (total_size ms)) 0 (total_size ms)) as (b & -> & Hb);
    [lia|lia|done|lia|apply len_make_nonneg; lia|lia|]. exists b. split; [done|congruence].
Qed.

Lemma Header_Marshal_total h buf n : len buf = n -> 28 <= n -> fills n (Hdr.Marshal h buf).
Proof. intros Hl Hn. unfold Hdr.Marshal, HeaderLen. rewrite (proj2 (Z.ltb_ge _ _)) by lia. fill_total. Qed.

Lemma MarshalBinary_total h : fills 28 (MarshalBinary h).
Proof.
  unfold MarshalBinary, HeaderLen. destruct (Header_Marshal_total h (make 28) 28) as (b & -> & Hb);
    [apply len_make_nonneg; lia|lia|]. by apply fills_Ok.
Qed.

(** The size of a message on the wire. *)
Definition wire_size (m : Message) : Z := HeaderLen + chain_size (pp_Payload <$> msg_Payloads m).

(** Serialising sets two fields of the header, and yields at least the header. *)
Lemma Message_Marshal_total m :
  Forall sized (pp_Payload <$> msg_Payloads m) -> msg_RawMessage m = [] -> wire_size m < 4294967296 ->
  exists b, Message_Marshal m =
      Ok (mkMessage (with_Length (with_NextPayload (msg_Header m)
        (match msg_Payloads m with [] => PayloadNone | pp :: _ => Payload_Type (pp_Payload pp) end)) (wire_size m))
        (msg_Payloads m) [], b) /\ len b = wire_size m /\ 28 <= wire_size m.
Proof.
  intros Hs Hr Hw. unfold Message_Marshal, wire_size, HeaderLen in *. rewrite Hr. cbn [len length Z.of_nat Z.gtb Z.compare].
  destruct (MarshalPayloadChain_total _ Hs) as (b & -> & Eb). rewrite bind_Ok. rewrite Eb. pose proof (len_nonneg b).
  rewrite u32_id by (unfold is_u32; lia). cbn zeta. set (n := 28 + chain_size _) in *.
  set (h := with_Length _ n). assert (Length h = n) as -> by (unfold h; by destruct (msg_Header m)).
  destruct (Header_Marshal_total h (make n) n) as (c & -> & Hc); [apply len_make_nonneg; lia|lia|]. rewrite bind_Ok.
  destruct (fills_copy c 28 b n) as (d & -> & Hd); [done|lia|]. rewrite bind_Ok. exists d.
  split_and!; [|done|lia]. unfold h. do 5 f_equal. by destruct (msg_Payloads m).
Qed.

(** ** Sizes of payloads *)

Lemma payload_size_fills p n : fills n (Payload_Marshal p) -> payload_size p = n.
Proof. intros (b & E & Hb). unfold payload_size. by rewrite E. Qed.

Lemma KE_size k : payload_size (PKE k) = 8 + len (ke_Data k).
Proof.
  apply payload_size_fills. cbn [Payload_Marshal]. unfold KEPayload_Marshal. cbn zeta. fill_total.
  match goal with H : len ?b = 4 + _ |- fills _ (marshalWithHeader _ ?b) => replace (8 + len (ke_Data k)) with (4 + len b) by lia end.
  apply marshalWithHeader_total.
Qed.

Lemma Nonce_size n : payload_size (PNonce n) = 4 + len (nonce_NonceData n).
Proof. apply payload_size_fills, marshalWithHeader_total. Qed.

Lemma Notify_size n : payload_size (PNotify n) = 8 + len (nt_SPI n) + len (nt_NotifyData n).
Proof.
  apply payload_size_fills. cbn [Payload_Marshal]. unfold NotifyPayload_Marshal. cbn zeta. fill_total.
  match goal with H : len ?b = 4 + len (nt_SPI n) + _ |- fills _ (marshalWithHeader _ ?b) => replace (8 + len (nt_SPI n) + len (nt_NotifyData n)) with (4 + len b) by lia end.
  apply marshalWithHeader_total.
Qed.

Lemma Transform_size xf last b : marshalV2Transform xf last = Ok b -> len b <= 12.
Proof.
  unfold marshalV2Transform. set (m := if tr_KeyLength xf >? 0 then _ else _).
  assert (exists a, m = Ok a /\ len a <= 4) as (a & -> & Ha).
  { unfold m. destruct (_ >? _); [|by exists []].
    enough (fills 4 (attr ← put16_at (make 4) 0 (Z.lor AttrKeyLength 32768); put16_at attr 2 (tr_KeyLength xf))) as (b' & Hb & E)
      by (exists b'; split; [done|lia]). fill_total. }
  rewrite bind_Ok. cbn zeta.
  match goal with |- ?m = Ok b -> _ => assert (fills (8 + len a) m) as (b' & -> & Hb) by fill_total end.
  intros [= <-]. lia.
Qed.

Lemma marshal_transforms_size l n i b : marshal_transforms n i l = Ok b -> len b <= 12 * len l.
Proof.
  revert i b. induction l as [|x l IH]; intros i b; cbn [marshal_transforms]; [by intros [= <-]|].
  intros (d & Hd & (r & Hr & [= <-])%bind_Ok_inv)%bind_Ok_inv. apply Transform_size in Hd. apply IH in Hr.
  rewrite len_app, len_cons. lia.
Qed.

(** One proposal. *)
Lemma SA_size p : payload_size (PSA (mkSA [p])) <= 12 + len (pr_SPI p) + 12 * len (pr_Transforms p).
Proof.
  unfold payload_size. cbn [Payload_Marshal]. unfold SAPayload_Marshal. cbn [sa_Proposals marshal_proposals].
  destruct (Proposal_total p (0 =? len [p] - 1)) as [d Ed]. rewrite Ed, !bind_Ok, app_nil_r.
  destruct (marshalWithHeader_total PayloadSA d) as (b & -> & ->). unfold marshalV2Proposal in Ed.
  apply bind_Ok_inv in Ed as (x & Hx%marshal_transforms_size & Ed). cbn zeta in Ed.
  match type of Ed with ?m = Ok d => assert (fills (8 + len (pr_SPI p) + len x) m) as (d' & E & Hd) by fill_total end.
  rewrite E in Ed. injection Ed as ->. lia.
Qed.
