(* ===== verification/IkeProposal.v ===== *)
(** * IkeProposal: proposals and their negotiation ([internal/ike/proposal.go])

    The default proposals, the choice of a proposal for both versions of IKE, and the
    configuration strings [ike=] and [esp=].

    Go iterates over a map in an unspecified order that differs from one loop to the
    next.  A range over a map is a parameter: [rng i j k m] lists the entries of [m]
    in the [k]-th loop for the [i]-th local and the [j]-th offered proposal, and
    [is_range] says that it is a permutation of the entries. *)

From S2P Require Import Prelude Wire IkePayload IkeSA IkeV1.

(** ** Strings ([strings] of the standard library) *)

Module Str.

(** [strings.Split(s, sep)] for a separator of one byte. *)
Fixpoint Split (s : string) (sep : Ascii.ascii) : list string :=
  match s with
  | EmptyString => [EmptyString]
  | String c s =>
    if Ascii.eqb c sep then EmptyString :: Split s sep
    else match Split s sep with
      | [] => [String c EmptyString]
      | x :: l => String c x :: l
      end
  end.

(** The ASCII part of [strings.ToLower].  The only other characters with an ASCII
    lower case are the Kelvin and dotted I signs, whose images ([k], [i] and a combining
    dot) occur in no token of the configuration language. *)
Definition lower (c : Ascii.ascii) : Ascii.ascii :=
  let n := Ascii.nat_of_ascii c in
  if (65 <=? Z.of_nat n) && (Z.of_nat n <=? 90) then Ascii.ascii_of_nat (n + 32) else c.
Fixpoint ToLower (s : string) : string :=
  match s with EmptyString => EmptyString | String c s => String (lower c) (ToLower s) end.

(** The characters [unicode.IsSpace] accepts, in UTF-8. *)
Definition spaces : list bytes :=
  [[9]; [10]; [11]; [12]; [13]; [32]; [194; 133]; [194; 160]; [225; 154; 128]; [226; 128; 168]; [226; 128; 169];
   [226; 128; 175]; [226; 129; 159]; [227; 128; 128]] ++ ((fun i => [226; 128; 128 + Z.of_nat i]) <$> seq 0 11).

Fixpoint strip (p l : bytes) : option bytes :=
  match p, l with
  | [], _ => Some l
  | a :: p, b :: l => if a =? b then strip p l else None
  | _, [] => None
  end.

Definition strip_one (sp : list bytes) (l : bytes) : option bytes := head (omap (fun p => strip p l) sp).

Fixpoint trim_left (fuel : nat) (sp : list bytes) (l : bytes) : bytes :=
  match fuel with
  | O => l
  | S fuel => match strip_one sp l with Some l' => trim_left fuel sp l' | None => l end
  end.

Definition string_of_bytes (l : bytes) : string :=
  String.string_of_list_ascii ((fun b => Ascii.ascii_of_nat (Z.to_nat b)) <$> l).

Definition TrimSpace (s : string) : string :=
  let l := trim_left (String.length s) spaces (bytes_of_string s) in
  string_of_bytes (reverse (trim_left (length l) (reverse <$> spaces) (reverse l))).

End Str.

Module Nego.
Import SA.

(** ** Defaults *)

Definition xf (ty id kl : Z) : Transform := mkTransform ty id kl false.
Definition prop (n p : Z) (l : list Transform) : Proposal := mkProposal n p [] l false.

Definition DefaultIKEProposals : SAPayload := mkSA
  [ prop 1 ProtocolIKE [xf TransformTypeENCR EncrAES_GCM_16 256; xf TransformTypePRF PRFHMAC_SHA256 0;
      xf TransformTypeDH DHGroup20 0; xf TransformTypeESN ESNNone 0];
    prop 2 ProtocolIKE [xf TransformTypeENCR EncrAES_GCM_16 128; xf TransformTypePRF PRFHMAC_SHA256 0;
      xf TransformTypeDH DHGroup14 0; xf TransformTypeESN ESNNone 0];
    prop 3 ProtocolIKE [xf TransformTypeENCR EncrAES_CBC 256; xf TransformTypePRF PRFHMAC_SHA256 0;
      xf TransformTypeINTG AuthHMAC_SHA256_128 0; xf TransformTypeDH DHGroup14 0; xf TransformTypeESN ESNNone 0];
    prop 4 ProtocolIKE [xf TransformTypeENCR EncrAES_CBC 128; xf TransformTypePRF PRFHMAC_SHA1 0;
      xf TransformTypeINTG AuthHMAC_SHA1_96 0; xf TransformTypeDH DHGroup14 0; xf TransformTypeESN ESNNone 0] ].

Definition DefaultESPProposals : SAPayload := mkSA
  [ prop 1 ProtocolESP [xf TransformTypeENCR EncrAES_GCM_16 256; xf TransformTypeESN ESNNone 0];
    prop 2 ProtocolESP [xf TransformTypeENCR EncrAES_GCM_16 128; xf TransformTypeESN ESNNone 0];
    prop 3 ProtocolESP [xf TransformTypeENCR EncrAES_CBC 256; xf TransformTypeINTG AuthHMAC_SHA256_128 0;
      xf TransformTypeESN ESNNone 0];
    prop 4 ProtocolESP [xf TransformTypeENCR EncrAES_CBC 128; xf TransformTypeINTG AuthHMAC_SHA1_96 0;
      xf TransformTypeESN ESNNone 0] ].

(** ** IKEv2 negotiation *)

Record SelectedProposal := mkSelected {
  sel_ProposalNum : Z;
  sel_ProtocolID : Z;
  sel_SPI : bytes;
  sel_EncrID : Z;
  sel_EncrKeyLen : Z;
  sel_PRFID : Z;
  sel_IntegID : Z;
  sel_DHID : Z;
  sel_ESN : Z
}.

Abbreviation transform_map := (gmap Z (list Transform)).
Abbreviation range := (transform_map -> list (Z * list Transform)).

Definition is_range (rng : range) : Prop := forall m, rng m ≡ₚ map_to_list m.

Fixpoint group_loop (xfs : list Transform) (grouped : transform_map) : transform_map :=
  match xfs with
  | [] => grouped
  | xf :: xfs => group_loop xfs (<[tr_Type xf := default [] (grouped !! tr_Type xf) ++ [xf]]> grouped)
  end.
Definition groupTransforms (xfs : list Transform) : transform_map := group_loop xfs ∅.

Definition transformMatch (ours theirs : Transform) : bool :=
  if negb (tr_Type ours =? tr_Type theirs) then false
  else if negb (tr_ID ours =? tr_ID theirs) then false
  else if negb (tr_KeyLength ours =? 0) && negb (tr_KeyLength theirs =? 0) &&
    negb (tr_KeyLength ours =? tr_KeyLength theirs) then false
  else true.

Definition hasMatchingTransform (ours theirs : list Transform) : bool :=
  existsb (fun o => existsb (transformMatch o) theirs) ours.

(** The loop of [proposalMatch] over our transform types. *)
Fixpoint match_types (l : list (Z * list Transform)) (theirByType : transform_map) : bool :=
  match l with
  | [] => true
  | (xfType, ourXfs) :: l =>
    match theirByType !! xfType with
    | None => if xfType =? TransformTypeINTG then match_types l theirByType else false
    | Some theirXfs =>
      if negb (hasMatchingTransform ourXfs theirXfs) then false else match_types l theirByType
    end
  end.

Definition proposalMatch (rng : range) (ours theirs : Proposal) : bool :=
  let ourByType := groupTransforms (pr_Transforms ours) in
  let theirByType := groupTransforms (pr_Transforms theirs) in
  match_types (rng ourByType) theirByType.

Definition set_selected (sel : SelectedProposal) (xfType : Z) (o t : Transform) : SelectedProposal :=
  let '(mkSelected n p spi encr kl prf integ dh esn) := sel in
  if xfType =? TransformTypeENCR then
    mkSelected n p spi (tr_ID o) (if tr_KeyLength o =? 0 then tr_KeyLength t else tr_KeyLength o) prf integ dh esn
  else if xfType =? TransformTypePRF then mkSelected n p spi encr kl (tr_ID o) integ dh esn
  else if xfType =? TransformTypeINTG then mkSelected n p spi encr kl prf (tr_ID o) dh esn
  else if xfType =? TransformTypeDH then mkSelected n p spi encr kl prf integ (tr_ID o) esn
  else if xfType =? TransformTypeESN then mkSelected n p spi encr kl prf integ dh (tr_ID o)
  else sel.

(** The innermost loop: [break] leaves it at the first match, and only it. *)
Fixpoint extract_inner (sel : SelectedProposal) (xfType : Z) (o : Transform) (theirXfs : list Transform) : SelectedProposal :=
  match theirXfs with
  | [] => sel
  | t :: l => if transformMatch o t then set_selected sel xfType o t else extract_inner sel xfType o l
  end.
Fixpoint extract_type (sel : SelectedProposal) (xfType : Z) (ourXfs theirXfs : list Transform) : SelectedProposal :=
  match ourXfs with
  | [] => sel
  | o :: l => extract_type (extract_inner sel xfType o theirXfs) xfType l theirXfs
  end.
Fixpoint extract_loop (sel : SelectedProposal) (l : list (Z * list Transform)) (theirByType : transform_map) : SelectedProposal :=
  match l with
  | [] => sel
  | (xfType, ourXfs) :: l =>
    extract_loop (extract_type sel xfType ourXfs (default [] (theirByType !! xfType))) l theirByType
  end.

Definition extractSelected (rng : range) (ours theirs : Proposal) : SelectedProposal :=
  let sel := mkSelected (pr_Number theirs) (pr_ProtocolID theirs) (pr_SPI theirs) 0 0 0 0 0 0 in
  let ourByType := groupTransforms (pr_Transforms ours) in
  let theirByType := groupTransforms (pr_Transforms theirs) in
  extract_loop sel (rng ourByType) theirByType.

(** The transform chosen for a type: the first of ours with a match, the first match of theirs. *)
Fixpoint first_inner (xfType : Z) (o : Transform) (theirXfs : list Transform) : option Transform :=
  match theirXfs with
  | [] => None
  | t :: l =>
    if transformMatch o t then
      Some (mkTransform xfType (tr_ID o) (if tr_KeyLength o =? 0 then tr_KeyLength t else tr_KeyLength o) false)
    else first_inner xfType o l
  end.
Fixpoint first_type (xfType : Z) (ourXfs theirXfs : list Transform) : option Transform :=
  match ourXfs with
  | [] => None
  | o :: l => match first_inner xfType o theirXfs with Some x => Some x | None => first_type xfType l theirXfs end
  end.

Definition chosen (theirByType : transform_map) (x : Z * list Transform) : option Transform :=
  first_type x.1 x.2 (default [] (theirByType !! x.1)).

Definition buildSelectedProposal (rng : range) (theirProp ourProp : Proposal) : Proposal :=
  let ourByType := groupTransforms (pr_Transforms ourProp) in
  let theirByType := groupTransforms (pr_Transforms theirProp) in
  mkProposal (pr_Number theirProp) (pr_ProtocolID theirProp) (pr_SPI theirProp)
    (omap (chosen theirByType) (rng ourByType)) true.

Section select.
Context (rng : nat -> nat -> nat -> range).

Fixpoint select_inner (i j : nat) (ourProp : Proposal) (theirs : list Proposal) : option (SelectedProposal * Proposal) :=
  match theirs with
  | [] => None
  | theirProp :: l =>
    if negb (pr_ProtocolID ourProp =? pr_ProtocolID theirProp) then select_inner i (S j) ourProp l
    else if proposalMatch (rng i j 0) ourProp theirProp then
      Some (extractSelected (rng i j 1) ourProp theirProp, buildSelectedProposal (rng i j 2) theirProp ourProp)
    else select_inner i (S j) ourProp l
  end.

Fixpoint select_loop (i : nat) (ours theirs : list Proposal) : option (SelectedProposal * Proposal) :=
  match ours with
  | [] => None
  | ourProp :: l =>
    match select_inner i 0 ourProp theirs with
    | Some r => Some r
    | None => select_loop (S i) l theirs
    end
  end.

(** [None] is a nil pointer. *)
Definition SelectProposal (ours theirs : option SAPayload) : res (SelectedProposal * Proposal) :=
  match theirs with
  | None | Some (mkSA []) => Err "no proposals offered by peer"
  | Some (mkSA theirs) =>
    match ours with
    | None | Some (mkSA []) => Err "no local proposals configured"
    | Some (mkSA ours) =>
      match select_loop 0 ours theirs with
      | Some r => Ok r
      | None => Err "no proposal chosen: no matching proposal found"
      end
    end
  end.

End select.

(** ** IKEv1 negotiation *)

Record V1Phase1Config := mkV1Config {
  v1_EncAlg : Z;
  v1_HashAlg : Z;
  v1_AuthMethod : Z;
  v1_DHGroup : Z;
  v1_KeyLength : Z;
  v1_LifeType : Z;
  v1_LifeDur : Z
}.

#[global] Instance v1config_eq_dec : EqDecision V1Phase1Config.
Proof. solve_decision. Defined.

Definition cfg (e h a g k : Z) : V1Phase1Config := mkV1Config e h a g k 0 0.

Definition DefaultV1Phase1Configs : list V1Phase1Config :=
  [ cfg V1EncrAES_CBC V1HashSHA256 V1AuthXAUTH_InitPSK DHGroup14 256;
    cfg V1EncrAES_CBC V1HashSHA256 V1AuthXAUTH_InitPSK DHGroup14 128;
    cfg V1EncrAES_CBC V1HashSHA1 V1AuthXAUTH_InitPSK DHGroup14 256;
    cfg V1EncrAES_CBC V1HashSHA1 V1AuthXAUTH_InitPSK DHGroup14 128;
    cfg V1Encr3DES_CBC V1HashSHA1 V1AuthXAUTH_InitPSK DHGroup2 0;
    cfg V1EncrAES_CBC V1HashSHA256 V1AuthPreSharedKey DHGroup14 256;
    cfg V1EncrAES_CBC V1HashSHA256 V1AuthPreSharedKey DHGroup14 128;
    cfg V1EncrAES_CBC V1HashSHA1 V1AuthPreSharedKey DHGroup14 256;
    cfg V1EncrAES_CBC V1HashSHA1 V1AuthPreSharedKey DHGroup14 128;
    cfg V1EncrAES_CBC V1HashSHA1 V1AuthPreSharedKey DHGroup2 128;
    cfg V1Encr3DES_CBC V1HashSHA1 V1AuthPreSharedKey DHGroup2 0;
    cfg V1Encr3DES_CBC V1HashSHA1 V1AuthPreSharedKey DHGroup14 0 ].

Definition attrToUint16 (attr : Attr.ISAKMPAttribute) : Z :=
  match Attr.at_Value attr with
  | a :: b :: _ => Z.lor (u16 (Z.shiftl a 8)) b
  | [a] => a
  | [] => 0
  end.

Definition parse_attr (c : V1Phase1Config) (attr : Attr.ISAKMPAttribute) : V1Phase1Config :=
  let val := attrToUint16 attr in
  let ty := Attr.at_Type attr in
  let '(mkV1Config e h a g k lt ld) := c in
  if ty =? V1AttrEncryptionAlg then mkV1Config val h a g k lt ld
  else if ty =? V1AttrHashAlg then mkV1Config e val a g k lt ld
  else if ty =? V1AttrAuthMethod then mkV1Config e h val g k lt ld
  else if ty =? V1AttrGroupDesc then mkV1Config e h a val k lt ld
  else if ty =? V1AttrKeyLength then mkV1Config e h a g val lt ld
  else if ty =? V1AttrLifeType then mkV1Config e h a g k val ld
  else if ty =? V1AttrLifeDuration then
    if Attr.at_IsTV attr then mkV1Config e h a g k lt val
    else match Attr.at_Value attr with
      | [b0; b1; b2; b3] =>
        mkV1Config e h a g k lt (Z.lor (Z.lor (Z.lor (u32 (Z.shiftl b0 24)) (u32 (Z.shiftl b1 16))) (u32 (Z.shiftl b2 8))) b3)
      | _ => c
      end
  else c.

Definition parseV1TransformAttrs (attrs : list Attr.ISAKMPAttribute) : V1Phase1Config :=
  foldl parse_attr (mkV1Config 0 0 0 0 0 0 0) attrs.

Definition v1ConfigMatch (sup parsed : V1Phase1Config) : bool :=
  if negb (v1_EncAlg sup =? v1_EncAlg parsed) then false
  else if negb (v1_HashAlg sup =? v1_HashAlg parsed) then false
  else if negb (v1_AuthMethod sup =? v1_AuthMethod parsed) then false
  else if negb (v1_DHGroup sup =? v1_DHGroup parsed) then false
  else if negb (v1_KeyLength sup =? 0) && negb (v1_KeyLength parsed =? 0) &&
    negb (v1_KeyLength sup =? v1_KeyLength parsed) then false
  else true.

(** [parsed.EncAlg = uint16(xf.TransformID)]: the attribute is overwritten. *)
Definition parsed_transform (xf : V1.TransformV1Payload) : V1Phase1Config :=
  let '(mkV1Config _ h a g k lt ld) := parseV1TransformAttrs (V1.t1_Attributes xf) in
  mkV1Config (V1.t1_TransformID xf) h a g k lt ld.

Fixpoint select_v1_config (supported : list V1Phase1Config) (parsed : V1Phase1Config) : option V1Phase1Config :=
  match supported with
  | [] => None
  | sup :: l => if v1ConfigMatch sup parsed then Some sup else select_v1_config l parsed
  end.
Fixpoint select_v1_transform (supported : list V1Phase1Config) (xfs : list V1.TransformV1Payload) :
  option (V1Phase1Config * V1.TransformV1Payload) :=
  match xfs with
  | [] => None
  | xf :: l =>
    match select_v1_config supported (parsed_transform xf) with
    | Some m => Some (m, xf)
    | None => select_v1_transform supported l
    end
  end.
Fixpoint select_v1_proposal (supported : list V1Phase1Config) (props : list V1.ProposalV1Payload) :
  option (V1Phase1Config * V1.ProposalV1Payload * V1.TransformV1Payload) :=
  match props with
  | [] => None
  | prop :: l =>
    match select_v1_transform supported (V1.p1_Transforms prop) with
    | Some (m, xf) => Some (m, prop, xf)
    | None => select_v1_proposal supported l
    end
  end.

Definition SelectV1Proposal (sa : option V1.SAv1Payload) (supported : list V1Phase1Config) :
  res (V1Phase1Config * V1.ProposalV1Payload * V1.TransformV1Payload) :=
  match sa with
  | None => Err "no IKEv1 proposals offered"
  | Some sa =>
    if len (V1.sa1_Proposals sa) =? 0 then Err "no IKEv1 proposals offered"
    else match select_v1_proposal supported (V1.sa1_Proposals sa) with
      | Some r => Ok r
      | None => Err "no IKEv1 proposal chosen: no matching transform"
      end
  end.

(** ** Configuration strings *)

Definition isAEADCipher (id : Z) : bool := (id =? 18) || (id =? 19) || (id =? EncrAES_GCM_16) || (id =? EncrCHACHA20).

Definition parseEncrToken (s : string) : res (Z * Z) :=
  let s := Str.ToLower s in
  if String.eqb s "aes256gcm16" || String.eqb s "aes_gcm_16_256" then Ok (EncrAES_GCM_16, 256)
  else if String.eqb s "aes128gcm16" || String.eqb s "aes_gcm_16_128" then Ok (EncrAES_GCM_16, 128)
  else if String.eqb s "aes256" || String.eqb s "aes_cbc_256" then Ok (EncrAES_CBC, 256)
  else if String.eqb s "aes128" || String.eqb s "aes_cbc_128" || String.eqb s "aes" then Ok (EncrAES_CBC, 128)
  else if String.eqb s "3des" then Ok (Encr3DES, 0)
  else if String.eqb s "chacha20poly1305" then Ok (EncrCHACHA20, 256)
  else Err "unknown encryption algorithm".

Definition parseHashToken (s : string) : res (Z * Z) :=
  let s := Str.ToLower s in
  if String.eqb s "sha1" then Ok (PRFHMAC_SHA1, AuthHMAC_SHA1_96)
  else if String.eqb s "sha256" || String.eqb s "sha2_256" then Ok (PRFHMAC_SHA256, AuthHMAC_SHA256_128)
  else if String.eqb s "sha384" || String.eqb s "sha2_384" then Ok (PRFHMAC_SHA384, AuthHMAC_SHA384_192)
  else if String.eqb s "sha512" || String.eqb s "sha2_512" then Ok (PRFHMAC_SHA512, AuthHMAC_SHA512_256)
  else Err "unknown hash algorithm".

Definition parseDHToken (s : string) : res Z :=
  let s := Str.ToLower s in
  if String.eqb s "modp1024" || String.eqb s "group2" then Ok DHGroup2
  else if String.eqb s "modp1536" || String.eqb s "group5" then Ok DHGroup5
  else if String.eqb s "modp2048" || String.eqb s "group14" then Ok DHGroup14
  else if String.eqb s "ecp256" || String.eqb s "group19" then Ok DHGroup19
  else if String.eqb s "ecp384" || String.eqb s "group20" then Ok DHGroup20
  else if String.eqb s "ecp521" || String.eqb s "group21" then Ok DHGroup21
  else Err "unknown DH group".

Definition dash : Ascii.ascii := Ascii.ascii_of_nat 45.
Definition comma : Ascii.ascii := Ascii.ascii_of_nat 44.

(** One pass of the loop of [ParseIKEString]. *)
Definition parse_ike_part (i : Z) (part : string) : res Proposal :=
  let tokens := Str.Split (Str.TrimSpace part) dash in
  if len tokens <? 2 then Err "invalid IKE spec: need at least encr-hash"
  else
    t0 ← idx tokens 0;
    '(encrID, keyLen) ← parseEncrToken t0;
    let l := [xf TransformTypeENCR encrID keyLen] in
    t1 ← idx tokens 1;
    '(prfID, integID) ← parseHashToken t1;
    let l := l ++ [xf TransformTypePRF prfID 0] in
    let l := if negb (integID =? 0) && negb (isAEADCipher encrID) then l ++ [xf TransformTypeINTG integID 0] else l in
    l ← (if 3 <=? len tokens then
      t2 ← idx tokens 2;
      dhID ← parseDHToken t2;
      Ok (l ++ [xf TransformTypeDH dhID 0])
    else Ok l);
    let l := l ++ [xf TransformTypeESN ESNNone 0] in
    Ok (prop (u8 (i + 1)) ProtocolIKE l).

(** One pass of the loop of [ParseESPString]. *)
Definition parse_esp_part (i : Z) (part : string) : res Proposal :=
  let tokens := Str.Split (Str.TrimSpace part) dash in
  t0 ← idx tokens 0;
  '(encrID, keyLen) ← parseEncrToken t0;
  let l := [xf TransformTypeENCR encrID keyLen] in
  l ← (if (2 <=? len tokens) && negb (isAEADCipher encrID) then
    t1 ← idx tokens 1;
    '(_, integID) ← parseHashToken t1;
    if negb (integID =? 0) then Ok (l ++ [xf TransformTypeINTG integID 0]) else Ok l
  else Ok l);
  let l := l ++ [xf TransformTypeESN ESNNone 0] in
  Ok (prop (u8 (i + 1)) ProtocolESP l).

Fixpoint parse_parts (f : Z -> string -> res Proposal) (i : Z) (parts : list string) : res (list Proposal) :=
  match parts with
  | [] => Ok []
  | part :: l =>
    p ← f i part;
    r ← parse_parts f (i + 1) l;
    Ok (p :: r)
  end.

Definition ParseIKEString (ikeStr : string) : res SAPayload :=
  if String.eqb ikeStr "" then Ok DefaultIKEProposals
  else l ← parse_parts parse_ike_part 0 (Str.Split ikeStr comma); Ok (mkSA l).

Definition ParseESPString (espStr : string) : res SAPayload :=
  if String.eqb espStr "" then Ok DefaultESPProposals
  else l ← parse_parts parse_esp_part 0 (Str.Split espStr comma); Ok (mkSA l).

(** The unit tests of [proposal_test.go] and the configuration examples. *)
Example parse_ike_example :
  ParseIKEString "aes256-sha256-modp2048, AES128GCM16-sha1-ecp384 " = Ok (mkSA
    [ prop 1 ProtocolIKE [xf 1 12 256; xf 2 5 0; xf 3 12 0; xf 4 14 0; xf 5 0 0];
      prop 2 ProtocolIKE [xf 1 20 128; xf 2 2 0; xf 4 20 0; xf 5 0 0] ]).
Proof. vm_compute. reflexivity. Qed.

(** ** Grouping by type *)

Definition of_type (ty : Z) (xfs : list Transform) : list Transform := filter (fun x => tr_Type x = ty) xfs.

Lemma elem_of_type ty x xfs : x ∈ of_type ty xfs <-> tr_Type x = ty /\ x ∈ xfs.
Proof. unfold of_type. by rewrite list_elem_of_filter. Qed.

Lemma group_loop_lookup xfs : forall g ty,
  default [] (group_loop xfs g !! ty) = default [] (g !! ty) ++ of_type ty xfs /\
  (group_loop xfs g !! ty = None <-> g !! ty = None /\ of_type ty xfs = []).
Proof.
  induction xfs as [|x l IH]; intros g ty; cbn [group_loop].
  { split; [by rewrite app_nil_r|]. naive_solver. }
  destruct (IH (<[tr_Type x := default [] (g !! tr_Type x) ++ [x]]> g) ty) as [H1 H2]. rewrite H1, H2.
  unfold of_type. destruct (decide (tr_Type x = ty)) as [<-|Hne].
  - rewrite lookup_insert_eq. rewrite (filter_cons_True _ x) by done. cbn. rewrite <- app_assoc. split; [done|]. naive_solver.
  - rewrite lookup_insert_ne by done. by rewrite (filter_cons_False _ x).
Qed.

Lemma groupTransforms_lookup xfs ty :
  groupTransforms xfs !! ty = if of_type ty xfs is [] then None else Some (of_type ty xfs).
Proof.
  unfold groupTransforms. destruct (group_loop_lookup xfs ∅ ty) as [H1 H2]. rewrite lookup_empty in *. cbn in H1.
  destruct (of_type ty xfs) as [|x l] eqn:E.
  - by apply H2.
  - destruct (group_loop xfs ∅ !! ty); cbn in H1; by subst.
Qed.

Lemma groupTransforms_Some xfs ty l :
  groupTransforms xfs !! ty = Some l <-> l = of_type ty xfs /\ l <> [].
Proof. rewrite groupTransforms_lookup. destruct (of_type ty xfs); naive_solver. Qed.

Lemma group_default xfs ty : default [] (groupTransforms xfs !! ty) = of_type ty xfs.
Proof. rewrite groupTransforms_lookup. by destruct (of_type ty xfs). Qed.

(** A range over the groups: one entry per type present, with its transforms. *)
Lemma range_groups rng xfs x :
  is_range rng -> x ∈ rng (groupTransforms xfs) <-> x.2 = of_type x.1 xfs /\ x.2 <> [].
Proof.
  intros Hr. rewrite (Hr (groupTransforms xfs)). destruct x as [ty l]. cbn.
  by rewrite elem_of_map_to_list, groupTransforms_Some.
Qed.

Lemma range_NoDup (rng : range) m : is_range rng -> NoDup (rng m).*1.
Proof. intros Hr. rewrite (Hr m). apply NoDup_fst_map_to_list. Qed.

(** ** When proposals match *)

(** The condition of RFC 7296 as the code applies it: for every transform type of ours a
    pair that matches, except that integrity may be missing on the other side. *)
Definition type_agrees (ours theirs : Proposal) (ty : Z) : Prop :=
  (exists o t, o ∈ pr_Transforms ours /\ t ∈ pr_Transforms theirs /\ tr_Type o = ty /\ transformMatch o t = true) \/
  (ty = TransformTypeINTG /\ forall t, t ∈ pr_Transforms theirs -> tr_Type t <> TransformTypeINTG).

Definition compatible (ours theirs : Proposal) : Prop :=
  pr_ProtocolID ours = pr_ProtocolID theirs /\
  forall o, o ∈ pr_Transforms ours -> type_agrees ours theirs (tr_Type o).

Lemma transformMatch_type o t : transformMatch o t = true -> tr_Type o = tr_Type t /\ tr_ID o = tr_ID t.
Proof. unfold transformMatch. repeat case_match; intros; try done. rewrite !negb_false_iff in *. lia. Qed.

Lemma hasMatchingTransform_iff ours theirs :
  hasMatchingTransform ours theirs = true <-> exists o t, o ∈ ours /\ t ∈ theirs /\ transformMatch o t = true.
Proof.
  unfold hasMatchingTransform. rewrite existsb_exists. setoid_rewrite existsb_exists.
  setoid_rewrite <- list_elem_of_In. naive_solver.
Qed.

Lemma match_types_iff l m :
  match_types l m = true <-> forall x, x ∈ l ->
    match m !! x.1 with None => x.1 = TransformTypeINTG | Some ts => hasMatchingTransform x.2 ts = true end.
Proof.
  induction l as [|[ty xs] l IH]; cbn [match_types].
  { split; [|done]. intros _ x Hx. by apply not_elem_of_nil in Hx. }
  assert (forall Q : Z * list Transform -> Prop, (forall x, x ∈ (ty, xs) :: l -> Q x) <-> Q (ty, xs) /\ forall x, x ∈ l -> Q x) as Hall.
  { intros Q. split; [intros H; split; intros; apply H; by constructor|].
    intros [H1 H2] x [->|Hx]%elem_of_cons; auto. }
  rewrite Hall, <- IH. cbn [fst snd]. clear IH Hall. destruct (m !! ty) as [ts|].
  - destruct (hasMatchingTransform xs ts); cbn [negb]; naive_solver.
  - destruct (Z.eqb_spec ty TransformTypeINTG); naive_solver.
Qed.

(** Whatever the order of the range, the same proposals match. *)
Lemma proposalMatch_iff rng ours theirs :
  is_range rng ->
  proposalMatch rng ours theirs = true <-> forall o, o ∈ pr_Transforms ours -> type_agrees ours theirs (tr_Type o).
Proof.
  intros Hr. unfold proposalMatch. rewrite match_types_iff. split.
  - intros H o Ho. specialize (H (tr_Type o, of_type (tr_Type o) (pr_Transforms ours))). cbn in H.
    assert (o ∈ of_type (tr_Type o) (pr_Transforms ours)) as Ho' by (by apply elem_of_type).
    rewrite range_groups in H by done. specialize (H ltac:(split; [done|]; cbn; intros E; rewrite E in Ho'; by apply not_elem_of_nil in Ho')).
    rewrite groupTransforms_lookup in H. destruct (of_type (tr_Type o) (pr_Transforms theirs)) as [|t0 ts] eqn:E.
    + right. split; [done|]. intros t Ht Hty. assert (t ∈ @nil Transform) as Hn by (rewrite <- E; apply elem_of_type; by rewrite H).
      by apply not_elem_of_nil in Hn.
    + rewrite <- E in H. apply hasMatchingTransform_iff in H as (o' & t & [Hoty Hoin]%elem_of_type & [_ Htin]%elem_of_type & Hm).
      left. by exists o', t.
  - intros H [ty xs] Hx. apply range_groups in Hx as [Hx Hne]; [|done]. cbn in *. subst xs.
    destruct (of_type ty (pr_Transforms ours)) as [|o os] eqn:Eo; [done|].
    assert (o ∈ of_type ty (pr_Transforms ours)) as [Hty Hin]%elem_of_type by (rewrite Eo; by constructor).
    rewrite <- Eo, groupTransforms_lookup. specialize (H o Hin). rewrite Hty in H.
    destruct H as [(o' & t & Ho' & Ht & Hty' & Hm)|[-> H]].
    + assert (t ∈ of_type ty (pr_Transforms theirs)) as Htt.
      { apply elem_of_type. split; [|done]. apply transformMatch_type in Hm. destruct Hm as [Hm _]. congruence. }
      destruct (of_type ty (pr_Transforms theirs)) as [|t0 ts] eqn:Et; [by apply not_elem_of_nil in Htt|].
      apply hasMatchingTransform_iff. exists o', t. split; [by apply elem_of_type|]. done.
    + destruct (of_type TransformTypeINTG (pr_Transforms theirs)) as [|t0 ts] eqn:Et; [done|].
      assert (t0 ∈ of_type TransformTypeINTG (pr_Transforms theirs)) as [Ht1 Ht2]%elem_of_type by (rewrite Et; by constructor).
      by apply H in Ht2.
Qed.

(** ** What is selected *)

Fixpoint last_pick (os ts : list Transform) : option (Transform * Transform) :=
  match os with
  | [] => None
  | o :: l =>
    match last_pick l ts with
    | Some r => Some r
    | None => pair o <$> List.find (transformMatch o) ts
    end
  end.

Lemma last_pick_Some os ts o t :
  last_pick os ts = Some (o, t) -> o ∈ os /\ t ∈ ts /\ transformMatch o t = true.
Proof.
  induction os as [|o' os IH]; [done|]. cbn [last_pick]. destruct (last_pick os ts) as [[? ?]|].
  - intros [= -> ->]. destruct IH as (? & ? & ?); [done|]. split; [by constructor|done].
  - destruct (List.find _ ts) as [t'|] eqn:E; [|done]. intros [= -> ->]. apply List.find_some in E as [Hin Hm].
    split; [by constructor|]. split; [by apply list_elem_of_In|done].
Qed.

Lemma last_pick_None os ts :
  last_pick os ts = None -> forall o t, o ∈ os -> t ∈ ts -> transformMatch o t = false.
Proof.
  induction os as [|o' os IH]; cbn [last_pick]; [intros _ o t Ho; by apply not_elem_of_nil in Ho|].
  destruct (last_pick os ts) as [[? ?]|]; [done|]. destruct (List.find _ ts) as [t'|] eqn:E; [done|].
  intros _ o t [->|Ho]%elem_of_cons Ht; [|by apply IH].
  eapply List.find_none; [exact E|]. by apply list_elem_of_In.
Qed.

Definition select_step (m : transform_map) (sel : SelectedProposal) (x : Z * list Transform) : SelectedProposal :=
  match last_pick x.2 (default [] (m !! x.1)) with
  | Some (o, t) => set_selected sel x.1 o t
  | None => sel
  end.

(** [set_selected] writes the fields of one type: the last write wins, writes for
    different types commute. *)
Lemma set_selected_twice sel ty o t o' t' :
  set_selected (set_selected sel ty o t) ty o' t' = set_selected sel ty o' t'.
Proof.
  destruct sel. unfold set_selected.
  do 5 (match goal with |- context [ty =? ?c] => destruct (ty =? c); [done|] end). done.
Qed.

Lemma set_selected_comm sel ty o t ty' o' t' :
  ty <> ty' -> set_selected (set_selected sel ty o t) ty' o' t' = set_selected (set_selected sel ty' o' t') ty o t.
Proof.
  intros Hne. destruct sel. unfold set_selected.
  repeat match goal with |- context [?a =? ?b] => is_var a; destruct (Z.eqb_spec a b); [subst a|] end; try done;
    exfalso; unfold TransformTypeENCR, TransformTypePRF, TransformTypeINTG, TransformTypeDH, TransformTypeESN in *; lia.
Qed.

Lemma extract_inner_find sel ty o ts :
  extract_inner sel ty o ts = match List.find (transformMatch o) ts with Some t => set_selected sel ty o t | None => sel end.
Proof. induction ts as [|t l IH]; [done|]. cbn [extract_inner List.find]. by destruct (transformMatch o t). Qed.

Lemma extract_type_pick sel ty os ts :
  extract_type sel ty os ts = match last_pick os ts with Some (o, t) => set_selected sel ty o t | None => sel end.
Proof.
  revert sel. induction os as [|o os IH]; intros sel; [done|]. cbn [extract_type last_pick].
  rewrite IH, extract_inner_find. destruct (last_pick os ts) as [[o' t']|]; destruct (List.find _ ts); try done.
  apply set_selected_twice.
Qed.

Lemma extract_loop_step sel x l m : extract_loop sel (x :: l) m = extract_loop (select_step m sel x) l m.
Proof. destruct x as [ty os]. cbn [extract_loop]. by rewrite extract_type_pick. Qed.

Lemma select_step_comm m sel x y :
  x.1 <> y.1 -> select_step m (select_step m sel x) y = select_step m (select_step m sel y) x.
Proof. intros H. unfold select_step. repeat case_match; try done. by apply set_selected_comm. Qed.

(** The fields that are not algorithms stay. *)
Lemma extract_loop_frame m l : forall sel,
  sel_ProposalNum (extract_loop sel l m) = sel_ProposalNum sel /\
  sel_ProtocolID (extract_loop sel l m) = sel_ProtocolID sel /\
  sel_SPI (extract_loop sel l m) = sel_SPI sel.
Proof.
  induction l as [|x l IH]; intros sel; [done|]. rewrite extract_loop_step.
  destruct (IH (select_step m sel x)) as (-> & -> & ->). unfold select_step. case_match; [|done]. case_match.
  destruct sel. unfold set_selected.
  do 5 (match goal with |- context [x.1 =? ?c] => destruct (x.1 =? c); [done|] end). done.
Qed.

(** The order of the range does not matter. *)
Lemma extract_loop_perm m l1 l2 : l1 ≡ₚ l2 -> NoDup l1.*1 -> forall sel,
  extract_loop sel l1 m = extract_loop sel l2 m.
Proof.
  induction 1 as [|x l1 l2 Hp IH|x y l|l1 l2 l3 Hp1 IH1 Hp2 IH2]; intros Hnd sel; [done|..].
  - rewrite !extract_loop_step. apply IH. cbn in Hnd. by apply NoDup_cons in Hnd as [_ ?].
  - rewrite !extract_loop_step, select_step_comm; [done|]. cbn in Hnd. intros E.
    apply NoDup_cons in Hnd as [Hnd _]. apply Hnd. rewrite E. by constructor.
  - rewrite IH1 by done. apply IH2. by rewrite <- Hp1.
Qed.

Lemma extractSelected_order rng1 rng2 ours theirs :
  is_range rng1 -> is_range rng2 -> extractSelected rng1 ours theirs = extractSelected rng2 ours theirs.
Proof.
  intros H1 H2. unfold extractSelected. apply extract_loop_perm; [by rewrite (H1 _), (H2 _)|by apply range_NoDup].
Qed.

Lemma buildSelectedProposal_order rng1 rng2 ours theirs :
  is_range rng1 -> is_range rng2 ->
  pr_Transforms (buildSelectedProposal rng1 theirs ours) ≡ₚ pr_Transforms (buildSelectedProposal rng2 theirs ours).
Proof. intros H1 H2. unfold buildSelectedProposal. cbn. apply omap_Permutation. by rewrite (H1 _), (H2 _). Qed.

(** The field of a transform type. *)
Definition selected_id (sel : SelectedProposal) (ty : Z) : Z :=
  if ty =? TransformTypeENCR then sel_EncrID sel else if ty =? TransformTypePRF then sel_PRFID sel
  else if ty =? TransformTypeINTG then sel_IntegID sel else if ty =? TransformTypeDH then sel_DHID sel
  else sel_ESN sel.

Definition known_type (ty : Z) : Prop := 1 <= ty <= 5.

Lemma selected_id_set sel ty ty' o t :
  known_type ty -> selected_id (set_selected sel ty' o t) ty = if ty' =? ty then tr_ID o else selected_id sel ty.
Proof.
  unfold known_type. intros Hk. destruct sel. unfold set_selected, selected_id.
  repeat match goal with |- context [?a =? ?b] => destruct (Z.eqb_spec a b) end; subst; try done; try lia;
    exfalso; unfold TransformTypeENCR, TransformTypePRF, TransformTypeINTG, TransformTypeDH, TransformTypeESN in *; lia.
Qed.

(** A part [f] of the selection that is written for one type only. *)
Section field.
Context {X : Type} (f : SelectedProposal -> X) (ty : Z) (g : Transform -> Transform -> X).
Context (Hf : forall sel ty' o t, f (set_selected sel ty' o t) = if ty' =? ty then g o t else f sel).

Lemma field_loop m l : NoDup l.*1 -> forall sel,
  (forall os, (ty, os) ∈ l -> f (extract_loop sel l m) =
    match last_pick os (default [] (m !! ty)) with Some (o, t) => g o t | None => f sel end) /\
  (ty ∉ l.*1 -> f (extract_loop sel l m) = f sel).
Proof using Hf.
  induction l as [|[ty' os'] l IH]; intros Hnd sel.
  { split; [|done]. intros os H. by apply not_elem_of_nil in H. }
  cbn in Hnd. apply NoDup_cons in Hnd as [Hni Hnd]. destruct (IH Hnd (select_step m sel (ty', os'))) as [IH1 IH2].
  rewrite extract_loop_step. clear IH. unfold select_step in *. cbn [fst snd] in *. split.
  - intros os [[= <- <-]|Hin]%elem_of_cons.
    + rewrite IH2 by done. destruct (last_pick os _) as [[o t]|]; [|done]. rewrite Hf. by rewrite Z.eqb_refl.
    + rewrite (IH1 os Hin). assert (ty' <> ty) as Hne by (intros ->; apply Hni, list_elem_of_fmap; by exists (ty, os)).
      repeat case_match; try done. rewrite Hf. by rewrite (proj2 (Z.eqb_neq _ _)).
  - cbn. rewrite not_elem_of_cons. intros [Hne Hn]. rewrite IH2 by done. case_match; [|done]. case_match.
    rewrite Hf. by rewrite (proj2 (Z.eqb_neq _ _)) by done.
Qed.

(** It comes from a pair of transforms both sides offer, if there is one. *)
Lemma field_extract rng ours theirs x0 :
  is_range rng -> f (mkSelected (pr_Number theirs) (pr_ProtocolID theirs) (pr_SPI theirs) 0 0 0 0 0 0) = x0 ->
  (exists o t, o ∈ pr_Transforms ours /\ t ∈ pr_Transforms theirs /\ tr_Type o = ty /\ transformMatch o t = true /\
     f (extractSelected rng ours theirs) = g o t) \/
  (f (extractSelected rng ours theirs) = x0 /\
   forall o t, o ∈ pr_Transforms ours -> t ∈ pr_Transforms theirs -> tr_Type o = ty -> transformMatch o t = false).
Proof using Hf.
  intros Hr H0. unfold extractSelected. set (sel0 := mkSelected _ _ _ _ _ _ _ _ _) in *.
  set (m := groupTransforms (pr_Transforms theirs)). set (l := rng _).
  destruct (field_loop m l (range_NoDup _ _ Hr) sel0) as [H1 H2]. rewrite H0 in *.
  destruct (of_type ty (pr_Transforms ours)) as [|o0 os] eqn:E.
  - right. split.
    + apply H2. intros ([ty' xs] & [= ->] & Hin)%list_elem_of_fmap. apply range_groups in Hin as [Hx Hne]; [|done].
      cbn in *. by rewrite E in Hx.
    + intros o t Ho _ Hty. assert (o ∈ @nil Transform) as Hn by (rewrite <- E; by apply elem_of_type).
      by apply not_elem_of_nil in Hn.
  - assert ((ty, of_type ty (pr_Transforms ours)) ∈ l) as Hin.
    { apply range_groups; [done|]. cbn. split; [done|]. by rewrite E. }
    rewrite (H1 _ Hin). unfold m. rewrite group_default. destruct (last_pick _ _) as [[o t]|] eqn:Ep.
    + left. apply last_pick_Some in Ep as ([? ?]%elem_of_type & [? ?]%elem_of_type & ?). by exists o, t.
    + right. split; [done|]. intros o t Ho Ht Hty. destruct (transformMatch o t) eqn:Em; [|done].
      pose proof (last_pick_None _ _ Ep o t) as Hn. rewrite Em in Hn. destruct (transformMatch_type _ _ Em) as [Em' _].
      by apply Hn; apply elem_of_type; split; try congruence.
Qed.

End field.

Lemma extractSelected_id rng ours theirs ty :
  is_range rng -> known_type ty ->
  (exists o t, o ∈ pr_Transforms ours /\ t ∈ pr_Transforms theirs /\ tr_Type o = ty /\ transformMatch o t = true /\
     selected_id (extractSelected rng ours theirs) ty = tr_ID o) \/
  (selected_id (extractSelected rng ours theirs) ty = 0 /\
   forall o t, o ∈ pr_Transforms ours -> t ∈ pr_Transforms theirs -> tr_Type o = ty -> transformMatch o t = false).
Proof.
  intros Hr Hk. apply (field_extract (fun sel => selected_id sel ty) ty (fun o _ => tr_ID o)); [|done|].
  - intros. by apply selected_id_set.
  - unfold selected_id. by repeat case_match.
Qed.

(** The cipher comes with the key length of the pair. *)
Lemma extractSelected_encr rng ours theirs :
  is_range rng ->
  (exists o t, o ∈ pr_Transforms ours /\ t ∈ pr_Transforms theirs /\ tr_Type o = TransformTypeENCR /\ transformMatch o t = true /\
     (sel_EncrID (extractSelected rng ours theirs), sel_EncrKeyLen (extractSelected rng ours theirs)) =
       (tr_ID o, if tr_KeyLength o =? 0 then tr_KeyLength t else tr_KeyLength o)) \/
  ((sel_EncrID (extractSelected rng ours theirs), sel_EncrKeyLen (extractSelected rng ours theirs)) = (0, 0) /\
   forall o t, o ∈ pr_Transforms ours -> t ∈ pr_Transforms theirs -> tr_Type o = TransformTypeENCR -> transformMatch o t = false).
Proof.
  intros Hr. apply (field_extract (fun sel => (sel_EncrID sel, sel_EncrKeyLen sel)) TransformTypeENCR
    (fun o t => (tr_ID o, if tr_KeyLength o =? 0 then tr_KeyLength t else tr_KeyLength o))); [|done|done].
  intros sel ty o t. destruct sel. unfold set_selected.
  repeat match goal with |- context [ty =? ?c] => destruct (Z.eqb_spec ty c) as [->|]; [done|] end. done.
Qed.

(** The transform [x] is a transform of both sides, with a key length both accept. *)
Definition agreed (ours theirs : Proposal) (x : Transform) : Prop :=
  exists o t, o ∈ pr_Transforms ours /\ t ∈ pr_Transforms theirs /\ transformMatch o t = true /\
    tr_Type x = tr_Type o /\ tr_ID x = tr_ID o /\
    tr_KeyLength x = if tr_KeyLength o =? 0 then tr_KeyLength t else tr_KeyLength o.

Lemma first_type_Some ty os ts x :
  first_type ty os ts = Some x -> exists o t, o ∈ os /\ t ∈ ts /\ transformMatch o t = true /\
    x = mkTransform ty (tr_ID o) (if tr_KeyLength o =? 0 then tr_KeyLength t else tr_KeyLength o) false.
Proof.
  induction os as [|o os IH]; [done|]. cbn [first_type]. destruct (first_inner ty o ts) as [y|] eqn:E.
  - intros [= ->]. clear IH. induction ts as [|t ts IH]; [done|]. cbn [first_inner] in E.
    destruct (transformMatch o t) eqn:Em.
    + injection E as <-. exists o, t. split_and!; [by constructor..|done|done].
    + destruct (IH E) as (o' & t' & ? & ? & ? & ?). exists o', t'. split_and!; [done|by constructor|done..].
  - intros H. destruct (IH H) as (o' & t' & ? & ? & ? & ?). exists o', t'. split_and!; [by constructor|done..].
Qed.

Lemma first_type_None ty os ts :
  first_type ty os ts = None -> forall o t, o ∈ os -> t ∈ ts -> transformMatch o t = false.
Proof.
  induction os as [|o os IH]; cbn [first_type]; [intros _ o t Ho; by apply not_elem_of_nil in Ho|].
  destruct (first_inner ty o ts) as [y|] eqn:E; [done|]. intros H o' t [->|Ho]%elem_of_cons Ht; [|by apply IH].
  clear IH H. induction ts as [|t' ts IH]; [by apply not_elem_of_nil in Ht|]. cbn [first_inner] in E.
  destruct (transformMatch o t') eqn:Em; [done|]. apply elem_of_cons in Ht as [->|Ht]; [done|auto].
Qed.

Lemma built_agreed rng ours theirs x :
  is_range rng -> x ∈ pr_Transforms (buildSelectedProposal rng theirs ours) -> agreed ours theirs x.
Proof.
  intros Hr. unfold buildSelectedProposal. cbn [pr_Transforms].
  rewrite list_elem_of_omap. intros ([ty os] & [Hx _]%range_groups & Hc); [|done].
  cbn in Hx. subst os. unfold chosen in Hc. cbn in Hc. rewrite group_default in Hc.
  apply first_type_Some in Hc as (o & t & [Hty Ho]%elem_of_type & [_ Ht]%elem_of_type & Hm & ->). by exists o, t.
Qed.

(** The built proposal has a transform of a type exactly if a pair of that type matches. *)
Lemma built_types rng ours theirs ty :
  is_range rng ->
  (exists x, x ∈ pr_Transforms (buildSelectedProposal rng theirs ours) /\ tr_Type x = ty) <->
  exists o t, o ∈ pr_Transforms ours /\ t ∈ pr_Transforms theirs /\ tr_Type o = ty /\ transformMatch o t = true.
Proof.
  intros Hr. split.
  - intros (x & (o & t & Ho & Ht & Hm & Hty & _)%built_agreed & <-); [|done]. exists o, t. by rewrite Hty.
  - intros (o & t & Ho & Ht & Hty & Hm).
    assert (o ∈ of_type ty (pr_Transforms ours)) as Ho' by (by apply elem_of_type).
    assert (t ∈ of_type ty (pr_Transforms theirs)) as Ht'.
    { apply elem_of_type. split; [|done]. destruct (transformMatch_type _ _ Hm). congruence. }
    destruct (first_type ty (of_type ty (pr_Transforms ours)) (of_type ty (pr_Transforms theirs))) as [x|] eqn:E.
    + exists x. split.
      * unfold buildSelectedProposal. cbn [pr_Transforms]. apply list_elem_of_omap.
        exists (ty, of_type ty (pr_Transforms ours)). split.
        { apply range_groups; [done|]. cbn. split; [done|]. intros En. rewrite En in Ho'. by apply not_elem_of_nil in Ho'. }
        unfold chosen. cbn. by rewrite group_default.
      * apply first_type_Some in E as (? & ? & _ & _ & _ & ->). done.
    + pose proof (first_type_None _ _ _ E _ _ Ho' Ht'). congruence.
Qed.

Lemma NoDup_types l m : NoDup l.*1 -> NoDup (tr_Type <$> omap (chosen m) l).
Proof.
  induction l as [|[ty os] l IH]; intros Hnd; [constructor|]. cbn in Hnd. apply NoDup_cons in Hnd as [Hni Hnd].
  cbn [omap list_omap]. destruct (chosen m (ty, os)) as [x|] eqn:E; [|by apply IH]. cbn. apply NoDup_cons.
  split; [|by apply IH]. unfold chosen in E. cbn in E. apply first_type_Some in E as (? & ? & _ & _ & _ & ->). cbn.
  intros (y & Hy & ([ty' os'] & Hin & Hc)%list_elem_of_omap)%list_elem_of_fmap. unfold chosen in Hc. cbn in Hc.
  apply first_type_Some in Hc as (? & ? & _ & _ & _ & ->). cbn in Hy. subst ty'. apply Hni, list_elem_of_fmap.
  by exists (ty, os').
Qed.

(** ** The negotiation *)

Section spec.
Context (rng : nat -> nat -> nat -> range) (Hrng : forall i j k, is_range (rng i j k)).

Lemma select_inner_spec i o theirs : forall j0,
  match select_inner rng i j0 o theirs with
  | Some (sel, p) => exists j t, theirs !! j = Some t /\ compatible o t /\
      (forall j' t', theirs !! j' = Some t' -> compatible o t' -> (j <= j')%nat) /\
      sel = extractSelected (rng i (j0 + j) 1) o t /\ p = buildSelectedProposal (rng i (j0 + j) 2) t o
  | None => forall t, t ∈ theirs -> ~ compatible o t
  end.
Proof.
  induction theirs as [|t l IH]; intros j0; cbn [select_inner].
  { intros t Ht. by apply not_elem_of_nil in Ht. }
  assert (~ compatible o t -> match select_inner rng i (S j0) o l with
    | Some (sel, p) => exists j t', (t :: l) !! j = Some t' /\ compatible o t' /\
      (forall j' t'', (t :: l) !! j' = Some t'' -> compatible o t'' -> (j <= j')%nat) /\
      sel = extractSelected (rng i (j0 + j) 1) o t' /\ p = buildSelectedProposal (rng i (j0 + j) 2) t' o
    | None => forall t', t' ∈ t :: l -> ~ compatible o t' end) as Hskip.
  { intros Hn. specialize (IH (S j0)). destruct (select_inner rng i (S j0) o l) as [[sel p]|].
    - destruct IH as (j & t' & Hj & Hc & Hmin & -> & ->). exists (S j), t'. split_and!; try done.
      + intros [|j'] t'' Ht'' Hc'; cbn in Ht''; [by injection Ht'' as ->|]. apply le_n_S. by eapply Hmin.
      + by replace (S j0 + j)%nat with (j0 + S j)%nat by lia.
      + by replace (S j0 + j)%nat with (j0 + S j)%nat by lia.
    - intros t' [->|Ht']%elem_of_cons; [done|by apply IH]. }
  destruct (Z.eqb_spec (pr_ProtocolID o) (pr_ProtocolID t)) as [Hp|Hp]; cbn [negb].
  - destruct (proposalMatch (rng i j0 0) o t) eqn:Em.
    + pose proof (proj1 (proposalMatch_iff _ _ _ (Hrng _ _ _)) Em) as Hc. exists 0%nat, t. rewrite Nat.add_0_r. split_and!; try done. intros. lia.
    + apply Hskip. intros [_ Hc]. pose proof (proj2 (proposalMatch_iff _ _ _ (Hrng i j0 0%nat)) Hc). congruence.
  - apply Hskip. by intros [? _].
Qed.

(** Priority order: ours first, then theirs. *)
Definition first_pair (ours theirs : list Proposal) (i j : nat) (o t : Proposal) : Prop :=
  ours !! i = Some o /\ theirs !! j = Some t /\ compatible o t /\
  forall i' j' o' t', ours !! i' = Some o' -> theirs !! j' = Some t' -> compatible o' t' ->
    (i < i')%nat \/ i = i' /\ (j <= j')%nat.

Lemma select_loop_spec ours theirs : forall i0,
  match select_loop rng i0 ours theirs with
  | Some (sel, p) => exists i j o t, first_pair ours theirs i j o t /\
      sel = extractSelected (rng (i0 + i) j 1) o t /\ p = buildSelectedProposal (rng (i0 + i) j 2) t o
  | None => forall o t, o ∈ ours -> t ∈ theirs -> ~ compatible o t
  end.
Proof.
  induction ours as [|o l IH]; intros i0; cbn [select_loop].
  { intros o t Ho. by apply not_elem_of_nil in Ho. }
  pose proof (select_inner_spec i0 o theirs 0) as Hi. destruct (select_inner rng i0 0 o theirs) as [[sel p]|].
  - destruct Hi as (j & t & Hj & Hc & Hmin & -> & ->). exists 0%nat, j, o, t. rewrite Nat.add_0_r. split; [|done].
    split_and!; try done. intros [|i'] j' o' t' Ho' Ht' Hc'; cbn in Ho'; [injection Ho' as ->; right|left; lia].
    split; [done|]. by eapply Hmin.
  - specialize (IH (S i0)). destruct (select_loop rng (S i0) l theirs) as [[sel p]|].
    + destruct IH as (i & j & o' & t & (Ho & Ht & Hc & Hmin) & -> & ->). exists (S i), j, o', t.
      replace (S i0 + i)%nat with (i0 + S i)%nat by lia. split; [|done]. split_and!; try done.
      intros [|i'] j' o'' t'' Ho'' Ht'' Hc''; cbn in Ho''.
      * injection Ho'' as ->. exfalso. eapply Hi; [|exact Hc'']. by eapply list_elem_of_lookup_2.
      * destruct (Hmin i' j' o'' t'' Ho'' Ht'' Hc''); [left; lia|right; lia].
    + intros o' t [->|Ho]%elem_of_cons Ht; [by apply Hi|by apply IH].
Qed.


End spec.

(** ** Independence of the map order *)

Lemma proposalMatch_order rng1 rng2 ours theirs :
  is_range rng1 -> is_range rng2 -> proposalMatch rng1 ours theirs = proposalMatch rng2 ours theirs.
Proof. intros H1 H2. apply eq_true_iff_eq. by rewrite !proposalMatch_iff. Qed.

(** The same answer, up to the order of the transforms in the proposal sent back. *)
Definition same_answer (a b : option (SelectedProposal * Proposal)) : Prop :=
  match a, b with
  | Some (s1, p1), Some (s2, p2) => s1 = s2 /\ pr_Number p1 = pr_Number p2 /\ pr_ProtocolID p1 = pr_ProtocolID p2 /\
      pr_SPI p1 = pr_SPI p2 /\ pr_IsLast p1 = pr_IsLast p2 /\ pr_Transforms p1 ≡ₚ pr_Transforms p2
  | None, None => True
  | _, _ => False
  end.

Definition same_result (a b : res (SelectedProposal * Proposal)) : Prop :=
  match a, b with
  | Ok x, Ok y => same_answer (Some x) (Some y)
  | Err e, Err e' => e = e'
  | _, _ => False
  end.

Section order.
Context (rng1 rng2 : nat -> nat -> nat -> range).
Context (H1 : forall i j k, is_range (rng1 i j k)) (H2 : forall i j k, is_range (rng2 i j k)).

Lemma select_inner_order i j o theirs : same_answer (select_inner rng1 i j o theirs) (select_inner rng2 i j o theirs).
Proof.
  revert j. induction theirs as [|t l IH]; intros j; [done|]. cbn [select_inner].
  destruct (pr_ProtocolID o =? pr_ProtocolID t); cbn [negb]; [|apply IH].
  rewrite (proposalMatch_order (rng1 i j 0%nat) (rng2 i j 0%nat)) by done. case_match; [|apply IH].
  split_and!; try done; first [by apply extractSelected_order|by apply buildSelectedProposal_order].
Qed.

Lemma select_loop_order i ours theirs : same_answer (select_loop rng1 i ours theirs) (select_loop rng2 i ours theirs).
Proof.
  revert i. induction ours as [|o l IH]; intros i; [done|]. cbn [select_loop].
  pose proof (select_inner_order i 0 o theirs) as H. destruct (select_inner rng1 i 0 o theirs) as [[? ?]|],
    (select_inner rng2 i 0 o theirs) as [[? ?]|]; done.
Qed.

(** Go's map order has no influence on the negotiation. *)
Theorem SelectProposal_order_irrelevant ours theirs :
  same_result (SelectProposal rng1 ours theirs) (SelectProposal rng2 ours theirs).
Proof.
  unfold SelectProposal. destruct theirs as [[[|t ts]]|]; try done. destruct ours as [[[|o os]]|]; try done.
  pose proof (select_loop_order 0 (o :: os) (t :: ts)) as H. destruct (select_loop rng1 0 _ _) as [[? ?]|],
    (select_loop rng2 0 _ _) as [[? ?]|]; done.
Qed.

End order.

(** Two ranges that differ. *)
Definition map_range : range := fun m => map_to_list m.
Definition rev_range : range := fun m => reverse (map_to_list m).
Lemma map_range_ok : is_range map_range.
Proof. intros m. reflexivity. Qed.
Lemma rev_range_ok : is_range rev_range.
Proof. intros m. apply reverse_Permutation. Qed.

(** A client that offers AES-GCM with three groups, and CBC without integrity. *)
Definition ex_offer : list Proposal :=
  [ prop 1 ProtocolIKE [xf TransformTypeENCR EncrAES_CBC 256; xf TransformTypePRF PRFHMAC_SHA256 0;
      xf TransformTypeDH DHGroup14 0; xf TransformTypeESN ESNNone 0];
    prop 2 ProtocolIKE [xf TransformTypeENCR EncrAES_GCM_16 128; xf TransformTypePRF PRFHMAC_SHA256 0;
      xf TransformTypeDH DHGroup20 0; xf TransformTypeDH DHGroup14 0; xf TransformTypeESN ESNNone 0] ].

Definition ex_selected : res (SelectedProposal * Proposal) :=
  SelectProposal (fun _ _ _ => map_range) (Some DefaultIKEProposals) (Some (mkSA ex_offer)).


Lemma SelectProposal_order_irrelevant_witness :
  same_result (SelectProposal (fun _ _ _ => map_range) (Some DefaultIKEProposals) (Some (mkSA ex_offer)))
    (SelectProposal (fun _ _ _ => rev_range) (Some DefaultIKEProposals) (Some (mkSA ex_offer))).
Proof. apply SelectProposal_order_irrelevant; intros; [apply map_range_ok|apply rev_range_ok]. Defined.

(** Integrity may be missing for a cipher that needs it: our third proposal accepts
    AES-CBC without any integrity algorithm. *)
Example cbc_without_integrity :
  match SelectProposal (fun _ _ _ => map_range) (Some DefaultIKEProposals)
    (Some (mkSA [prop 1 ProtocolIKE [xf TransformTypeENCR EncrAES_CBC 256; xf TransformTypePRF PRFHMAC_SHA256 0;
      xf TransformTypeDH DHGroup14 0; xf TransformTypeESN ESNNone 0]])) with
  | Ok (sel, _) => sel_EncrID sel = EncrAES_CBC /\ sel_IntegID sel = AuthNone
  | _ => False
  end.
Proof. vm_compute. split; reflexivity. Qed.

(** ** IKEv1 *)

Definition v1_compatible (sup : V1Phase1Config) (xf : V1.TransformV1Payload) : Prop :=
  v1ConfigMatch sup (parsed_transform xf) = true.

Lemma select_v1_config_spec supported parsed :
  match select_v1_config supported parsed with
  | Some c => exists i, supported !! i = Some c /\ v1ConfigMatch c parsed = true /\
      forall i' c', supported !! i' = Some c' -> v1ConfigMatch c' parsed = true -> (i <= i')%nat
  | None => forall c, c ∈ supported -> v1ConfigMatch c parsed = false
  end.
Proof.
  induction supported as [|c l IH]; cbn [select_v1_config]; [intros c Hc; by apply not_elem_of_nil in Hc|].
  destruct (v1ConfigMatch c parsed) eqn:E; [exists 0%nat; split_and!; try done; intros; lia|].
  destruct (select_v1_config l parsed) as [c'|].
  - destruct IH as (i & Hi & Hm & Hmin). exists (S i). split_and!; try done.
    intros [|i'] c'' Hc Hm'; cbn in Hc; [congruence|]. apply le_n_S. by eapply Hmin.
  - intros c' [->|Hc]%elem_of_cons; [done|by apply IH].
Qed.

Lemma select_v1_transform_spec supported xfs :
  match select_v1_transform supported xfs with
  | Some (c, xf) => exists j i, xfs !! j = Some xf /\ supported !! i = Some c /\ v1_compatible c xf /\
      forall j' i' xf' c', xfs !! j' = Some xf' -> supported !! i' = Some c' -> v1_compatible c' xf' ->
        (j < j')%nat \/ j = j' /\ (i <= i')%nat
  | None => forall xf c, xf ∈ xfs -> c ∈ supported -> ~ v1_compatible c xf
  end.
Proof.
  induction xfs as [|xf l IH]; cbn [select_v1_transform]; [intros x c Hx; by apply not_elem_of_nil in Hx|].
  pose proof (select_v1_config_spec supported (parsed_transform xf)) as Hc.
  destruct (select_v1_config supported (parsed_transform xf)) as [c|].
  - destruct Hc as (i & Hi & Hm & Hmin). exists 0%nat, i. split_and!; try done.
    intros [|j'] i' xf' c' Hx Hs Hc'; cbn in Hx; [injection Hx as ->; right; split; [done|by eapply Hmin]|left; lia].
  - destruct (select_v1_transform supported l) as [[c xf0]|].
    + destruct IH as (j & i & Hj & Hi & Hm & Hmin). exists (S j), i. split_and!; try done.
      intros [|j'] i' xf' c' Hx Hs Hc'; cbn in Hx.
      * injection Hx as ->. unfold v1_compatible in Hc'. rewrite Hc in Hc'; [done|]. by eapply list_elem_of_lookup_2.
      * destruct (Hmin j' i' xf' c' Hx Hs Hc'); [left; lia|right; lia].
    + intros x c [->|Hx]%elem_of_cons Hs; [|by apply IH]. unfold v1_compatible. by rewrite Hc.
Qed.

Lemma select_v1_proposal_spec supported props :
  match select_v1_proposal supported props with
  | Some (c, p, xf) => exists k j i, props !! k = Some p /\ V1.p1_Transforms p !! j = Some xf /\
      supported !! i = Some c /\ v1_compatible c xf /\
      forall k' j' i' p' xf' c', props !! k' = Some p' -> V1.p1_Transforms p' !! j' = Some xf' ->
        supported !! i' = Some c' -> v1_compatible c' xf' ->
        (k < k')%nat \/ k = k' /\ ((j < j')%nat \/ j = j' /\ (i <= i')%nat)
  | None => forall p xf c, p ∈ props -> xf ∈ V1.p1_Transforms p -> c ∈ supported -> ~ v1_compatible c xf
  end.
Proof.
  induction props as [|p l IH]; cbn [select_v1_proposal]; [intros p x c Hx; by apply not_elem_of_nil in Hx|].
  pose proof (select_v1_transform_spec supported (V1.p1_Transforms p)) as Hc.
  destruct (select_v1_transform supported (V1.p1_Transforms p)) as [[c xf]|].
  - destruct Hc as (j & i & Hj & Hi & Hm & Hmin). exists 0%nat, j, i. split_and!; try done.
    intros [|k'] j' i' p' xf' c' Hp Hx Hs Hc'; cbn in Hp; [injection Hp as ->; right; split; [done|by eapply Hmin]|left; lia].
  - destruct (select_v1_proposal supported l) as [[[c p0] xf0]|].
    + destruct IH as (k & j & i & Hk & Hj & Hi & Hm & Hmin). exists (S k), j, i. split_and!; try done.
      intros [|k'] j' i' p' xf' c' Hp Hx Hs Hc'; cbn in Hp.
      * injection Hp as ->. exfalso. eapply Hc; [..|exact Hc']; by eapply list_elem_of_lookup_2.
      * destruct (Hmin k' j' i' p' xf' c' Hp Hx Hs Hc') as [|[-> ?]]; [left; lia|by right].
    + intros x xf c [->|Hx]%elem_of_cons; [by apply Hc|by apply IH].
Qed.

(** An IKEv1 offer: the first transform, in the client's order, that fits a supported
    configuration, with our first configuration it fits; an error if there is none. *)
Theorem SelectV1Proposal_correct sa supported :
  match SelectV1Proposal (Some sa) supported with
  | Ok (c, p, xf) =>
    exists k j i, V1.sa1_Proposals sa !! k = Some p /\ V1.p1_Transforms p !! j = Some xf /\
      supported !! i = Some c /\ v1_compatible c xf /\
      forall k' j' i' p' xf' c', V1.sa1_Proposals sa !! k' = Some p' -> V1.p1_Transforms p' !! j' = Some xf' ->
        supported !! i' = Some c' -> v1_compatible c' xf' ->
        (k < k')%nat \/ k = k' /\ ((j < j')%nat \/ j = j' /\ (i <= i')%nat)
  | Err _ => forall p xf c, p ∈ V1.sa1_Proposals sa -> xf ∈ V1.p1_Transforms p -> c ∈ supported -> ~ v1_compatible c xf
  | Panic => False
  end.
Proof.
  unfold SelectV1Proposal. destruct (Z.eqb_spec (len (V1.sa1_Proposals sa)) 0) as [Hl|Hl].
  { apply len_0_inv in Hl. rewrite Hl. intros p xf c Hp. by apply not_elem_of_nil in Hp. }
  pose proof (select_v1_proposal_spec supported (V1.sa1_Proposals sa)) as H.
  by destruct (select_v1_proposal _ _) as [[[c p] xf]|].
Qed.

(** In phase 1 the transform identifier is KEY_IKE (RFC 2407, 4.4.2) and the cipher is an
    attribute.  The code takes the identifier for the cipher, so such an offer never
    matches a default configuration. *)
Theorem key_ike_rejected sa :
  Forall (fun p => Forall (fun xf => V1.t1_TransformID xf = 1) (V1.p1_Transforms p)) (V1.sa1_Proposals sa) ->
  exists e, SelectV1Proposal (Some sa) DefaultV1Phase1Configs = Err e.
Proof.
  intros H. unfold SelectV1Proposal. case_match; [by eexists|].
  pose proof (select_v1_proposal_spec DefaultV1Phase1Configs (V1.sa1_Proposals sa)) as Hs.
  destruct (select_v1_proposal _ _) as [[[c p] xf]|]; [exfalso|by eexists].
  destruct Hs as (k & j & i & Hp & Hx & Hc & Hm & _). rewrite Forall_lookup in H. specialize (H k p Hp). cbn in H.
  rewrite Forall_lookup in H. specialize (H j xf Hx). cbn in H.
  assert (v1_EncAlg c <> 1) as Hne.
  { assert (Forall (fun c => v1_EncAlg c <> 1) DefaultV1Phase1Configs) as Hd by (by apply (bool_decide_unpack _)).
    rewrite Forall_lookup in Hd. by eapply Hd. }
  unfold v1_compatible, v1ConfigMatch, parsed_transform in Hm. destruct (parseV1TransformAttrs _). cbn in Hm. rewrite H in Hm.
  by rewrite (proj2 (Z.eqb_neq _ _) Hne) in Hm.
Qed.

Definition ex_v1_offer : V1.SAv1Payload := V1.mkSAv1 1 1
  [V1.mkProposalV1 1 1 [] [V1.mkTransformV1 1 1
    [Attr.mkAttr 1 true [0; 7]; Attr.mkAttr 14 true [1; 0]; Attr.mkAttr 2 true [0; 2]; Attr.mkAttr 3 true [0; 1];
     Attr.mkAttr 4 true [0; 14]]]].

Lemma key_ike_rejected_witness : exists e, SelectV1Proposal (Some ex_v1_offer) DefaultV1Phase1Configs = Err e.
Proof. apply key_ike_rejected. by apply (bool_decide_unpack _). Defined.

(** ** Configuration strings *)

(** A well-formed proposal of the configuration: a cipher, integrity if the cipher needs
    it and only then. *)
Definition encr_of (p : Proposal) : Z := if pr_Transforms p is t :: _ then tr_ID t else 0.
Definition has_type (ty : Z) (p : Proposal) : bool := existsb (fun t => tr_Type t =? ty) (pr_Transforms p).

Lemma parseHashToken_integ s a b : parseHashToken s = Ok (a, b) -> b <> 0.
Proof. unfold parseHashToken. by repeat (case_match; [by intros [= <- <-]|]). Qed.

Lemma parse_ike_part_ok i part p :
  parse_ike_part i part = Ok p ->
  pr_Number p = u8 (i + 1) /\ pr_ProtocolID p = ProtocolIKE /\ has_type TransformTypePRF p = true /\
  has_type TransformTypeINTG p = negb (isAEADCipher (encr_of p)).
Proof.
  unfold parse_ike_part. case_match; [done|].
  intros (t0 & _ & ([encr kl] & _ & (t1 & _ & ([prf integ] & Hh%parseHashToken_integ & (l & Hl & [= <-])%bind_Ok_inv)%bind_Ok_inv)%bind_Ok_inv)%bind_Ok_inv)%bind_Ok_inv.
  rewrite (proj2 (Z.eqb_neq integ 0) Hh) in Hl. cbn [negb andb] in Hl.
  assert (exists r, l = (if negb (isAEADCipher encr) then [xf TransformTypeENCR encr kl; xf TransformTypePRF prf 0; xf TransformTypeINTG integ 0]
    else [xf TransformTypeENCR encr kl; xf TransformTypePRF prf 0]) ++ r /\ existsb (fun t => tr_Type t =? TransformTypeINTG) r = false)
    as (r & -> & Hr).
  { destruct (3 <=? len _).
    - apply bind_Ok_inv in Hl as (t2 & _ & (dh & _ & [= <-])%bind_Ok_inv). exists [xf TransformTypeDH dh 0]. by split; [destruct (isAEADCipher encr)|].
    - injection Hl as <-. exists []. by split; [destruct (isAEADCipher encr)|]. }
  split; [done|]. split; [done|]. unfold has_type, encr_of, prop. cbn [pr_Transforms].
  rewrite !existsb_app, Hr. by destruct (isAEADCipher encr) eqn:E; cbn [negb app existsb]; cbn; rewrite E.
Qed.

Lemma parse_parts_lookup f i parts l :
  parse_parts f i parts = Ok l ->
  length l = length parts /\ forall k p, l !! k = Some p -> exists part, parts !! k = Some part /\ f (i + Z.of_nat k) part = Ok p.
Proof.
  revert i l. induction parts as [|part parts IH]; intros i l; cbn [parse_parts].
  { intros [= <-]. split; [done|]. intros k p Hk. by rewrite lookup_nil in Hk. }
  intros (p & Hp & (r & Hr & [= <-])%bind_Ok_inv)%bind_Ok_inv. destruct (IH _ _ Hr) as [Hlen Hk]. split; [cbn; by rewrite Hlen|].
  intros [|k] p' H; cbn in H.
  - injection H as ->. exists part. split; [done|]. by rewrite Z.add_0_r.
  - destruct (Hk k p' H) as (part' & ? & Hf). exists part'. split; [done|]. by replace (i + Z.of_nat (S k)) with (i + 1 + Z.of_nat k) by lia.
Qed.

(** Every [ike=] proposal is numbered by its place and protects integrity: by its cipher, or
    else by an algorithm of its own. *)
Theorem ParseIKEString_sound s sa :
  s <> "" -> ParseIKEString s = Ok sa ->
  length (sa_Proposals sa) = length (Str.Split s comma) /\
  forall k p, sa_Proposals sa !! k = Some p ->
    pr_Number p = u8 (Z.of_nat k + 1) /\ pr_ProtocolID p = ProtocolIKE /\ has_type TransformTypePRF p = true /\
    has_type TransformTypeINTG p = negb (isAEADCipher (encr_of p)).
Proof.
  intros Hs. unfold ParseIKEString. rewrite (proj2 (String.eqb_neq _ _) Hs).
  intros (l & Hl & [= <-])%bind_Ok_inv. apply parse_parts_lookup in Hl as [Hlen Hk]. split; [done|].
  intros k p Hp. destruct (Hk k p Hp) as (part & _ & Hf). by apply parse_ike_part_ok in Hf.
Qed.

Lemma ParseIKEString_sound_witness :
  exists sa, ParseIKEString "aes256-sha256-modp2048,aes128gcm16-sha1" = Ok sa /\
  length (sa_Proposals sa) = length (Str.Split "aes256-sha256-modp2048,aes128gcm16-sha1" comma) /\
  forall k p, sa_Proposals sa !! k = Some p ->
    pr_Number p = u8 (Z.of_nat k + 1) /\ pr_ProtocolID p = ProtocolIKE /\ has_type TransformTypePRF p = true /\
    has_type TransformTypeINTG p = negb (isAEADCipher (encr_of p)).
Proof.
  eexists. split; [vm_compute; reflexivity|].
  apply (ParseIKEString_sound "aes256-sha256-modp2048,aes128gcm16-sha1"); [discriminate|vm_compute; reflexivity].
Defined.

(** An [esp=] string may leave integrity out: the proposal then is AES-CBC alone. *)
Example esp_cbc_alone :
  ParseESPString "aes256" = Ok (mkSA [prop 1 ProtocolESP [xf TransformTypeENCR EncrAES_CBC 256; xf TransformTypeESN ESNNone 0]]).
Proof. vm_compute. reflexivity. Qed.

End Nego.
