(* ===== verification/IkeCrypto.v ===== *)
(** * IkeCrypto: the algorithms of IKE ([internal/ike/crypto.go])

    Diffie-Hellman groups, pseudo-random functions, integrity algorithms and the
    encryptors of the encrypted payload.  AES, AES-GCM and HMAC are those of
    [EspCipher.Cipher.Crypto]; the elliptic curves of [crypto/ecdh] are the class
    [ECDH].  A Go interface with its implementations is an inductive type. *)

From Stdlib Require Import Zpow_facts.
From S2P Require Import Prelude Wire EspCipher Rand IkeSA.

Module Crypto.
Import Cipher SA.

(** ** Big integers ([math/big]) *)

Definition BitLen (x : Z) : Z := if x =? 0 then 0 else Z.log2 x + 1.

(** The [n] low bytes of [x], most significant first. *)
Fixpoint be_bytes (n : nat) (x : Z) : bytes :=
  match n with O => [] | S n => be_bytes n (x / 256) ++ [x mod 256] end.

(** [x.Bytes()] of a non-negative integer: no leading zero. *)
Definition Bytes (x : Z) : bytes := be_bytes (Z.to_nat ((BitLen x + 7) / 8)) x.

Definition SetBytes (l : bytes) : Z := foldl (fun acc b => acc * 256 + b) 0 l.

(** [Exp(x, y, m)]. *)
Definition Exp (x y m : Z) : Z := Zpow_mod x y m.

(** [padToLen] *)
Definition padToLen (b : bytes) (n : Z) : res bytes :=
  if len b >=? n then Ok b
  else copy_at (make n) (n - len b) b.

(** ** Diffie-Hellman groups *)

Definition modpGenerator2 : Z := 2.
Definition modpPrime1024 : Z := 0xFFFFFFFFFFFFFFFFC90FDAA22168C234C4C6628B80DC1CD129024E088A67CC74020BBEA63B139B22514A08798E3404DDEF9519B3CD3A431B302B0A6DF25F14374FE1356D6D51C245E485B576625E7EC6F44C42E9A637ED6B0BFF5CB6F406B7EDEE386BFB5A899FA5AE9F24117C4B1FE649286651ECE65381FFFFFFFFFFFFFFFF.
Definition modpPrime1536 : Z := 0xFFFFFFFFFFFFFFFFC90FDAA22168C234C4C6628B80DC1CD129024E088A67CC74020BBEA63B139B22514A08798E3404DDEF9519B3CD3A431B302B0A6DF25F14374FE1356D6D51C245E485B576625E7EC6F44C42E9A637ED6B0BFF5CB6F406B7EDEE386BFB5A899FA5AE9F24117C4B1FE649286651ECE45B3DC2007CB8A163BF0598DA48361C55D39A69163FA8FD24CF5F83655D23DCA3AD961C62F356208552BB9ED529077096966D670C354E4ABC9804F1746C08CA237327FFFFFFFFFFFFFFFF.
Definition modpPrime2048 : Z := 0xFFFFFFFFFFFFFFFFC90FDAA22168C234C4C6628B80DC1CD129024E088A67CC74020BBEA63B139B22514A08798E3404DDEF9519B3CD3A431B302B0A6DF25F14374FE1356D6D51C245E485B576625E7EC6F44C42E9A637ED6B0BFF5CB6F406B7EDEE386BFB5A899FA5AE9F24117C4B1FE649286651ECE45B3DC2007CB8A163BF0598DA48361C55D39A69163FA8FD24CF5F83655D23DCA3AD961C62F356208552BB9ED529077096966D670C354E4ABC9804F1746C08CA18217C32905E462E36CE3BE39E772C180E86039B2783A2EC07A28FB5C55DF06F4C52C9DE2BCBF6955817183995497CEA956AE515D2261898FA051015728E5A8AACAA68FFFFFFFFFFFFFFFF.

Inductive DHGroup : Type :=
  | modpGroup (id prime generator : Z)
  | ecpGroup (id curve : Z).

(** The curves by their size: P-256, P-384, P-521. *)
Definition NewDHGroup (id : Z) : res DHGroup :=
  if id =? DHGroup2 then Ok (modpGroup DHGroup2 modpPrime1024 modpGenerator2)
  else if id =? DHGroup5 then Ok (modpGroup DHGroup5 modpPrime1536 modpGenerator2)
  else if id =? DHGroup14 then Ok (modpGroup DHGroup14 modpPrime2048 modpGenerator2)
  else if id =? DHGroup19 then Ok (ecpGroup DHGroup19 256)
  else if id =? DHGroup20 then Ok (ecpGroup DHGroup20 384)
  else if id =? DHGroup21 then Ok (ecpGroup DHGroup21 521)
  else Err "unsupported DH group".

Definition modp_PublicKeySize (prime : Z) : Z := (BitLen prime + 7) / 8.

Definition ecp_PublicKeySize (id : Z) : Z :=
  if id =? DHGroup19 then 64 else if id =? DHGroup20 then 96 else if id =? DHGroup21 then 132 else 0.

Definition PublicKeySize (g : DHGroup) : Z :=
  match g with
  | modpGroup _ prime _ => modp_PublicKeySize prime
  | ecpGroup id _ => ecp_PublicKeySize id
  end.

(** The operations of [crypto/ecdh] on a curve. *)
Class ECDH := {
  ec_NewPrivateKey : Z -> bytes -> option bytes;
  ec_PublicKey : Z -> bytes -> bytes;                  (* uncompressed point of a private key *)
  ec_NewPublicKey : Z -> bytes -> option bytes;
  ec_ECDH : Z -> bytes -> bytes -> option bytes        (* curve, private key, public key *)
}.

(** The contract: a public key is an uncompressed point (at most 133 bytes, for P-521),
    accepted as such, and the shared secret is the same on both sides and not empty. *)
Class ECDHLaws (E : ECDH) := {
  ec_uncompressed c a k : ec_NewPrivateKey c a = Some k -> exists xy, ec_PublicKey c k = 4 :: xy;
  ec_accepts c a k : ec_NewPrivateKey c a = Some k -> ec_NewPublicKey c (ec_PublicKey c k) = Some (ec_PublicKey c k);
  ec_size c a k : ec_NewPrivateKey c a = Some k -> len (ec_PublicKey c k) <= 133;
  ec_agree c a b ka kb : ec_NewPrivateKey c a = Some ka -> ec_NewPrivateKey c b = Some kb ->
    exists s, ec_ECDH c ka (ec_PublicKey c kb) = Some s /\ ec_ECDH c kb (ec_PublicKey c ka) = Some s /\ s <> []
}.

Section DH.
Context {E : ECDH}.

(** [x] is what the random source yields: for a MODP group the integer of
    [rand.Int(rand.Reader, p-2)], for a curve the private key of [GenerateKey]. *)
Inductive secret : Type := RandInt (x : Z) | PrivKey (k : bytes).

Definition modp_GenerateKeypair (prime generator privInt : Z) : res (bytes * bytes) :=
  let privInt := privInt + 2 in
  let pubInt := Exp generator privInt prime in
  privBytes ← padToLen (Bytes privInt) (modp_PublicKeySize prime);
  pubBytes ← padToLen (Bytes pubInt) (modp_PublicKeySize prime);
  Ok (privBytes, pubBytes).

Definition ecp_GenerateKeypair (curve : Z) (privKey : bytes) : res (bytes * bytes) :=
  let ecdhPub := ec_PublicKey curve privKey in
  let ecdhPub := match ecdhPub with b :: l => if b =? 4 then l else ecdhPub | [] => ecdhPub end in
  Ok (privKey, ecdhPub).

Definition GenerateKeypair (g : DHGroup) (x : secret) : res (bytes * bytes) :=
  match g, x with
  | modpGroup _ prime generator, RandInt privInt => modp_GenerateKeypair prime generator privInt
  | ecpGroup _ curve, PrivKey privKey => ecp_GenerateKeypair curve privKey
  | _, _ => Err "generating key"
  end.

Definition modp_ComputeSharedSecret (prime : Z) (privateKey peerPublic : bytes) : res bytes :=
  let privInt := SetBytes privateKey in
  let peerInt := SetBytes peerPublic in
  if peerInt <? 2 then Err "DH group: peer public key too small"
  else
    let pMinus2 := prime - 2 in
    if peerInt >? pMinus2 then Err "DH group: peer public key too large"
    else
      let shared := Exp peerInt privInt prime in
      padToLen (Bytes shared) (modp_PublicKeySize prime).

Definition ecp_ComputeSharedSecret (curve : Z) (privateKey peerPublic : bytes) : res bytes :=
  match ec_NewPrivateKey curve privateKey with
  | None => Err "parsing ECDH private key"
  | Some privKey =>
    let uncompressed := make (1 + len peerPublic) in
    uncompressed ← set_at uncompressed 0 4;
    uncompressed ← copy_at uncompressed 1 peerPublic;
    match ec_NewPublicKey curve uncompressed with
    | None => Err "parsing ECDH peer public key"
    | Some peerKey =>
      match ec_ECDH curve privKey peerKey with
      | None => Err "ECDH shared secret"
      | Some shared => Ok shared
      end
    end
  end.

Definition ComputeSharedSecret (g : DHGroup) (privateKey peerPublic : bytes) : res bytes :=
  match g with
  | modpGroup _ prime _ => modp_ComputeSharedSecret prime privateKey peerPublic
  | ecpGroup _ curve => ecp_ComputeSharedSecret curve privateKey peerPublic
  end.

End DH.

(** ** Pseudo-random functions *)

Record hmacPRF := mkPRF { prf_ID : Z; prf_hashFunc : Hash; prf_KeySize : Z; prf_OutputSize : Z }.

Definition NewPRF (id : Z) : res hmacPRF :=
  if id =? PRFHMAC_SHA1 then Ok (mkPRF PRFHMAC_SHA1 SHA1 20 20)
  else if id =? PRFHMAC_SHA256 then Ok (mkPRF PRFHMAC_SHA256 SHA256 32 32)
  else if id =? PRFHMAC_SHA384 then Ok (mkPRF PRFHMAC_SHA384 SHA384 48 48)
  else if id =? PRFHMAC_SHA512 then Ok (mkPRF PRFHMAC_SHA512 SHA512 64 64)
  else Err "unsupported PRF algorithm".

(** ** Integrity *)

Record hmacIntegrity := mkIkeInteg { in_ID : Z; in_hashFunc : Hash; in_KeySize : Z; in_OutputSize : Z }.

Definition NewIntegrity (id : Z) : res hmacIntegrity :=
  if id =? AuthHMAC_SHA1_96 then Ok (mkIkeInteg AuthHMAC_SHA1_96 SHA1 20 12)
  else if id =? AuthHMAC_SHA256_128 then Ok (mkIkeInteg AuthHMAC_SHA256_128 SHA256 32 16)
  else if id =? AuthHMAC_SHA384_192 then Ok (mkIkeInteg AuthHMAC_SHA384_192 SHA384 48 24)
  else if id =? AuthHMAC_SHA512_256 then Ok (mkIkeInteg AuthHMAC_SHA512_256 SHA512 64 32)
  else Err "unsupported integrity algorithm".

(** ** Encryption *)

Inductive IKEEncryptor : Type :=
  | aesCBCEncryptor (encID keySize : Z)
  | aesGCMEncryptor (encID keySize : Z).

Definition NewIKEEncryptor (id keyLen : Z) : res IKEEncryptor :=
  if id =? EncrAES_CBC then
    let ks := keyLen / 8 in
    Ok (aesCBCEncryptor id (if ks =? 0 then 16 else ks))
  else if id =? EncrAES_GCM_16 then
    let ks := keyLen / 8 in
    Ok (aesGCMEncryptor id (if ks =? 0 then 32 else ks))
  else if id =? Encr3DES then Ok (aesCBCEncryptor id 24)
  else Err "unsupported IKE encryption algorithm".

Definition enc_ID (e : IKEEncryptor) : Z := match e with aesCBCEncryptor i _ | aesGCMEncryptor i _ => i end.
Definition enc_KeySize (e : IKEEncryptor) : Z := match e with aesCBCEncryptor _ k | aesGCMEncryptor _ k => k end.
Definition enc_IVSize (e : IKEEncryptor) : Z := match e with aesCBCEncryptor _ _ => aes_BlockSize | aesGCMEncryptor _ _ => 8 end.
Definition enc_BlockSize (e : IKEEncryptor) : Z := match e with aesCBCEncryptor _ _ => aes_BlockSize | aesGCMEncryptor _ _ => 1 end.
Definition enc_IsAEAD (e : IKEEncryptor) : bool := match e with aesCBCEncryptor _ _ => false | aesGCMEncryptor _ _ => true end.

(** The loop [for i := a; i < len(buf); i++ { buf[i] = b }]; [n] passes. *)
Fixpoint fill_bytes (n : nat) (buf : bytes) (i b : Z) : res bytes :=
  match n with
  | O => Ok buf
  | S n =>
    buf ← set_at buf i b;
    fill_bytes n buf (i + 1) b
  end.

(** The loop that compares the padding bytes; [n] passes. *)
Fixpoint verify_padding (n : nat) (plaintext : bytes) (i padLen : Z) : res unit :=
  match n with
  | O => Ok tt
  | S n =>
    b ← idx plaintext i;
    if negb (b =? u8 padLen) then Err "AES-CBC padding verification failed"
    else verify_padding n plaintext (i + 1) padLen
  end.

Section crypto.
Context {C : Crypto}.

Definition PRF_Compute (p : hmacPRF) (key data : bytes) : bytes := hmac (prf_hashFunc p) key data.

Definition Integ_Compute (i : hmacIntegrity) (key data : bytes) : res bytes :=
  slice (hmac (in_hashFunc i) key data) 0 (in_OutputSize i).

Definition Integ_Verify (i : hmacIntegrity) (key data expected : bytes) : res bool :=
  computed ← Integ_Compute i key data;
  Ok (bool_decide (computed = expected)).

Definition cbc_Encrypt (key iv plaintext : bytes) : res bytes :=
  match aes_NewCipher key with
  | Ok block =>
    let padLen := aes_BlockSize - len plaintext mod aes_BlockSize in
    let padded := make (len plaintext + padLen) in
    padded ← copy_at padded 0 plaintext;
    padded ← fill_bytes (Z.to_nat padLen) padded (len plaintext) (u8 padLen);
    CBCEncrypt block iv padded
  | _ => Err "AES-CBC encrypt"
  end.

Definition cbc_Decrypt (key iv ciphertext : bytes) : res bytes :=
  match aes_NewCipher key with
  | Ok block =>
    if negb (len ciphertext mod aes_BlockSize =? 0) then Err "AES-CBC ciphertext not block-aligned"
    else
      plaintext ← CBCDecrypt block iv ciphertext;
      if len plaintext =? 0 then Ok plaintext
      else
        padLen ← idx plaintext (len plaintext - 1);
        if (padLen <? 1) || (padLen >? aes_BlockSize) || (padLen >? len plaintext) then Err "AES-CBC invalid padding"
        else
          _ ← verify_padding (Z.to_nat padLen) plaintext (len plaintext - padLen) padLen;
          slice plaintext 0 (len plaintext - padLen)
  | _ => Err "AES-CBC decrypt"
  end.

(** [cipher.NewGCM]: the object is its key. *)
Definition NewGCM (block : bytes) : AEADObj := mkAEAD AES256GCM block.

Definition gcm_nonce (salt iv : bytes) : res bytes :=
  let nonce := make 12 in
  nonce ← copy_at nonce 0 (take 4 salt);
  copy_at nonce 4 iv.

Definition gcm_Encrypt (keySize : Z) (key iv plaintext aad : bytes) : res bytes :=
  if len key <? keySize + 4 then Err "AES-GCM key too short"
  else
    aesKey ← slice key 0 keySize;
    salt ← slice key keySize (keySize + 4);
    match aes_NewCipher aesKey with
    | Ok block =>
      nonce ← gcm_nonce salt iv;
      Ok (Seal (NewGCM block) nonce plaintext aad)
    | _ => Err "AES-GCM encrypt"
    end.

Definition gcm_Decrypt (keySize : Z) (key iv ciphertext aad : bytes) : res bytes :=
  if len key <? keySize + 4 then Err "AES-GCM key too short"
  else
    aesKey ← slice key 0 keySize;
    salt ← slice key keySize (keySize + 4);
    match aes_NewCipher aesKey with
    | Ok block =>
      nonce ← gcm_nonce salt iv;
      match Open (NewGCM block) nonce ciphertext aad with
      | Some plaintext => Ok plaintext
      | None => Err "AES-GCM auth failed"
      end
    | _ => Err "AES-GCM decrypt"
    end.

Definition Encrypt (e : IKEEncryptor) (key iv plaintext aad : bytes) : res bytes :=
  match e with
  | aesCBCEncryptor _ _ => cbc_Encrypt key iv plaintext
  | aesGCMEncryptor _ keySize => gcm_Encrypt keySize key iv plaintext aad
  end.

Definition Decrypt (e : IKEEncryptor) (key iv ciphertext aad : bytes) : res bytes :=
  match e with
  | aesCBCEncryptor _ _ => cbc_Decrypt key iv ciphertext
  | aesGCMEncryptor _ keySize => gcm_Decrypt keySize key iv ciphertext aad
  end.

Definition EncryptIKEv1Payload (encryptor : IKEEncryptor) (key iv plaintext : bytes) : res bytes :=
  Encrypt encryptor key iv plaintext [].
Definition DecryptIKEv1Payload (encryptor : IKEEncryptor) (key iv ciphertext : bytes) : res bytes :=
  Decrypt encryptor key iv ciphertext [].

End crypto.

(** ** Random values *)

Definition GenerateNonce (length : Z) (r : rng) : res (bytes * rng) :=
  if (length <? 16) || (length >? 256) then Err "nonce length out of range [16, 256]"
  else Ok (rand_Read r (Z.to_nat length)).

(** The loop repeats while the eight bytes are zero. *)
Fixpoint GenerateIKESPI_loop (fuel : nat) (r : rng) : option (bytes * rng) :=
  match fuel with
  | O => None
  | S fuel =>
    let '(spi, r) := rand_Read r 8 in
    if existsb (fun b => negb (b =? 0)) spi then Some (spi, r) else GenerateIKESPI_loop fuel r
  end.

(** ** Integers as bytes *)

Lemma length_be_bytes n x : length (be_bytes n x) = n.
Proof. revert x; induction n as [|n IH]; intros x; [done|]. cbn. rewrite length_app, IH. cbn. lia. Qed.

Lemma be_bytes_wf n x : bytes_wf (be_bytes n x).
Proof.
  revert x; induction n as [|n IH]; intros x; [constructor|]. cbn. apply Forall_app_2; [apply IH|].
  apply Forall_singleton. apply u8_range.
Qed.

Lemma SetBytes_app l k : SetBytes (l ++ k) = foldl (fun acc b => acc * 256 + b) (SetBytes l) k.
Proof. apply foldl_app. Qed.

Lemma SetBytes_be_bytes n x : SetBytes (be_bytes n x) = x mod 256 ^ Z.of_nat n.
Proof.
  revert x; induction n as [|n IH]; intros x; [by rewrite Z.mod_1_r|].
  cbn [be_bytes]. rewrite SetBytes_app, IH. cbn [foldl].
  replace (Z.of_nat (S n)) with (Z.of_nat n + 1) by lia. rewrite Z.pow_add_r, Z.pow_1_r by lia.
  rewrite (Z.mul_comm (256 ^ _)), Z.rem_mul_r by lia. lia.
Qed.

(** Leading zeros do not change the value, so only the length remains to be fixed. *)
Lemma be_bytes_grow k n x : 0 <= x < 256 ^ Z.of_nat n -> be_bytes (k + n) x = make (Z.of_nat k) ++ be_bytes n x.
Proof.
  revert x; induction n as [|n IH]; intros x Hx.
  - assert (x = 0) as -> by (cbn in Hx; lia). cbn [be_bytes]. rewrite app_nil_r, Nat.add_0_r. clear.
    induction k as [|k IH]; [done|]. cbn [be_bytes]. change (0 / 256) with 0. rewrite IH. change (0 mod 256) with 0.
    unfold make. rewrite !Nat2Z.id. by rewrite replicate_S_end.
  - replace (k + S n)%nat with (S (k + n)) by lia. cbn [be_bytes]. rewrite IH, app_assoc; [done|].
    replace (Z.of_nat (S n)) with (Z.of_nat n + 1) in Hx by lia. rewrite Z.pow_add_r, Z.pow_1_r in Hx by lia.
    split; [apply Z.div_pos; lia|]. apply Z.div_lt_upper_bound; lia.
Qed.

Lemma BitLen_bound x : 0 <= x -> x < 2 ^ BitLen x.
Proof.
  intros Hx. unfold BitLen. destruct (Z.eqb_spec x 0) as [->|]; [done|]. pose proof (Z.log2_spec x). lia.
Qed.

Lemma BitLen_nonneg x : 0 <= BitLen x.
Proof. unfold BitLen. case_match; [lia|]. pose proof (Z.log2_nonneg x). lia. Qed.

Lemma BitLen_pos x : x <> 0 -> 0 < BitLen x.
Proof. intros H. unfold BitLen. rewrite (proj2 (Z.eqb_neq x 0) H). pose proof (Z.log2_nonneg x). lia. Qed.

Lemma BitLen_le x y : 0 <= x <= y -> BitLen x <= BitLen y.
Proof.
  intros H. unfold BitLen. destruct (Z.eqb_spec x 0), (Z.eqb_spec y 0); try lia.
  - pose proof (Z.log2_nonneg y). lia.
  - pose proof (Z.log2_le_mono x y). lia.
Qed.

Lemma Bytes_size x : 0 <= x -> x < 256 ^ ((BitLen x + 7) / 8).
Proof.
  intros Hx. eapply Z.lt_le_trans; [by apply BitLen_bound|]. pose proof (BitLen_nonneg x).
  change 256 with (2 ^ 8). rewrite <- Z.pow_mul_r by (try apply Z.div_pos; lia).
  apply Z.pow_le_mono_r; [lia|]. Z.div_mod_to_equations. lia.
Qed.

Lemma padToLen_Bytes x n :
  0 <= x -> (BitLen x + 7) / 8 <= n -> padToLen (Bytes x) n = Ok (be_bytes (Z.to_nat n) x).
Proof.
  intros Hx Hn. set (k := Z.to_nat ((BitLen x + 7) / 8)). pose proof (BitLen_nonneg x).
  assert (0 <= (BitLen x + 7) / 8) by (apply Z.div_pos; lia).
  assert (len (Bytes x) = Z.of_nat k) as Hl by (unfold len, Bytes; by rewrite length_be_bytes).
  assert (be_bytes (Z.to_nat n) x = make (n - Z.of_nat k) ++ Bytes x) as ->.
  { replace (Z.to_nat n) with (Z.to_nat (n - Z.of_nat k) + k)%nat by lia. rewrite be_bytes_grow.
    - f_equal. f_equal. lia.
    - split; [done|]. unfold k. rewrite Z2Nat.id by done. by apply Bytes_size. }
  unfold padToLen. rewrite Hl. rewrite Z.geb_leb. destruct (Z.leb_spec n (Z.of_nat k)).
  - by rewrite make_0 by lia.
  - replace n with ((n - Z.of_nat k) + Z.of_nat k) at 1 by lia. rewrite make_app by lia.
    rewrite fill_copy by (len_norm; lia). rewrite Hl, Z.sub_diag, (make_0 0), app_nil_r by lia. done.
Qed.

(** ** Diffie-Hellman *)

Lemma Exp_correct x y m : m <> 0 -> Exp x y m = x ^ y mod m.
Proof. apply Zpow_mod_correct. Qed.

Lemma Exp_range x y m : 0 < m -> 0 <= Exp x y m < m.
Proof. intros. rewrite Exp_correct by lia. by apply Z.mod_pos_bound. Qed.

Lemma Exp_Exp x y z m : 0 < m -> 0 <= y -> 0 <= z -> Exp (Exp x y m) z m = x ^ (y * z) mod m.
Proof. intros. rewrite !Exp_correct by lia. by rewrite <- Zpower_mod, <- Z.pow_mul_r by lia. Qed.

(** A value below the prime, written at the width of the group, reads back. *)
Lemma group_bytes x p :
  0 <= x < p -> padToLen (Bytes x) ((BitLen p + 7) / 8) = Ok (be_bytes (Z.to_nat ((BitLen p + 7) / 8)) x) /\
  SetBytes (be_bytes (Z.to_nat ((BitLen p + 7) / 8)) x) = x.
Proof.
  intros Hx. pose proof (BitLen_nonneg p). assert (0 <= (BitLen p + 7) / 8) by (apply Z.div_pos; lia). split.
  - apply padToLen_Bytes; [lia|]. apply Z.div_le_mono; [lia|]. pose proof (BitLen_le x p). lia.
  - rewrite SetBytes_be_bytes, Z2Nat.id by done. apply Z.mod_small. split; [lia|]. pose proof (Bytes_size p). lia.
Qed.

(** A peer value in range: neither trivial nor of order two. *)
Definition in_group (p : Z) (pub : bytes) : Prop := 2 <= SetBytes pub <= p - 2.

Section agreement.
Context {E : ECDH} {EL : ECDHLaws E}.

Lemma modp_keypair id p g x a A :
  3 < p -> 0 <= x < p - 2 -> GenerateKeypair (modpGroup id p g) (RandInt x) = Ok (a, A) ->
  SetBytes a = x + 2 /\ SetBytes A = g ^ (x + 2) mod p /\ len A = PublicKeySize (modpGroup id p g).
Proof.
  intros Hp Hx. cbn [GenerateKeypair PublicKeySize]. unfold modp_GenerateKeypair, modp_PublicKeySize. pose proof (Exp_range g (x + 2) p ltac:(lia)) as Hr.
  destruct (group_bytes (x + 2) p ltac:(lia)) as [-> E1]. destruct (group_bytes (Exp g (x + 2) p) p Hr) as [-> E2].
  rewrite !bind_Ok. intros [= <- <-]. rewrite E1, E2, Exp_correct by lia. split_and!; try done.
  unfold len. rewrite length_be_bytes. pose proof (BitLen_nonneg p).
  assert (0 <= (BitLen p + 7) / 8) by (apply Z.div_pos; lia). lia.
Qed.

Lemma modp_secret id p g priv pub :
  3 < p -> in_group p pub ->
  ComputeSharedSecret (modpGroup id p g) priv pub =
    Ok (be_bytes (Z.to_nat ((BitLen p + 7) / 8)) (Exp (SetBytes pub) (SetBytes priv) p)).
Proof.
  intros Hp [H1 H2]. unfold ComputeSharedSecret, modp_ComputeSharedSecret, modp_PublicKeySize. rewrite (proj2 (Z.ltb_ge _ 2)), gtb_false by lia.
  apply group_bytes, Exp_range. lia.
Qed.

(** The secrets of a key exchange the code can draw for a group. *)
Definition drawable (g : DHGroup) (x : secret) : Prop :=
  match g, x with
  | modpGroup _ p _, RandInt x => 3 < p /\ 0 <= x < p - 2
  | ecpGroup _ c, PrivKey k => ec_NewPrivateKey c k = Some k
  | _, _ => False
  end.

Definition valid_public (g : DHGroup) (pub : bytes) : Prop :=
  match g with modpGroup _ p _ => in_group p pub | ecpGroup _ _ => True end.

Lemma drawable_keypair g x : drawable g x -> exists aA, GenerateKeypair g x = Ok aA.
Proof.
  destruct g as [id p g|id c], x as [x|x]; try done; cbn [drawable GenerateKeypair].
  - intros [Hp Hx]. unfold modp_GenerateKeypair, modp_PublicKeySize.
    destruct (group_bytes (x + 2) p ltac:(lia)) as [-> _]. destruct (group_bytes (Exp g (x + 2) p) p) as [-> _]; [apply Exp_range; lia|].
    rewrite !bind_Ok. by eexists.
  - intros _. by eexists.
Qed.

(** Both sides of a Diffie-Hellman exchange compute the same secret. *)
Theorem DH_agreement g xa xb a A b B :
  drawable g xa -> drawable g xb ->
  GenerateKeypair g xa = Ok (a, A) -> GenerateKeypair g xb = Ok (b, B) ->
  valid_public g A -> valid_public g B ->
  exists s, ComputeSharedSecret g a B = Ok s /\ ComputeSharedSecret g b A = Ok s /\ s <> [].
Proof.
  intros Ha Hb HA HB VA VB. destruct g as [id p g|id c], xa as [xa|xa], xb as [xb|xb]; try done; cbn [drawable] in *.
  - destruct Ha as [Hp Ha], Hb as [_ Hb]. apply modp_keypair in HA as (Sa & SA & _); [|done..].
    apply modp_keypair in HB as (Sb & SB & _); [|done..]. rewrite !modp_secret by done. eexists. split; [done|].
    split; [|intros E0%(f_equal length); rewrite length_be_bytes in E0; pose proof (BitLen_pos p);
      assert (1 <= (BitLen p + 7) / 8) by (apply Z.div_le_lower_bound; lia); cbn in E0; lia].
    do 2 f_equal. rewrite Sa, SA, Sb, SB, !Exp_correct by lia. rewrite <- !Zpower_mod, <- !Z.pow_mul_r by lia.
    do 2 f_equal. lia.
  - cbn [GenerateKeypair] in HA, HB. unfold ecp_GenerateKeypair in HA, HB. destruct (ec_uncompressed c _ _ Ha) as [pa Ea], (ec_uncompressed c _ _ Hb) as [pb Eb].
    rewrite Ea in HA. rewrite Eb in HB. injection HA as <- <-. injection HB as <- <-.
    destruct (ec_agree c _ _ _ _ Ha Hb) as (s & H1 & H2 & Hne). exists s.
    assert (forall l, (uncompressed ← set_at (make (1 + len l)) 0 4; copy_at uncompressed 1 l) = Ok (4 :: l)) as Hu.
    { intros l. pose proof (len_nonneg l). rewrite (fill_start (1 + len l)). fill_step.
      rewrite fill_copy by (len_norm; lia). by rewrite make_0, app_nil_r by lia. }
    unfold ComputeSharedSecret, ecp_ComputeSharedSecret. rewrite Ha, Hb, <- !bind_assoc, !Hu, !bind_Ok, <- Ea, <- Eb.
    by rewrite (ec_accepts c _ _ Ha), (ec_accepts c _ _ Hb), H1, H2.
Qed.

(** A public value outside the group is refused. *)
Lemma DH_rejects id p g priv pub :
  ~ in_group p pub -> exists e, ComputeSharedSecret (modpGroup id p g) priv pub = Err e.
Proof.
  unfold in_group. intros H. unfold ComputeSharedSecret, modp_ComputeSharedSecret. destruct (Z.ltb_spec (SetBytes pub) 2); [by eexists|].
  destruct (Z.gtb_spec (SetBytes pub) (p - 2)); [by eexists|lia].
Qed.

End agreement.

(** A curve whose secrets are sums. *)
#[export] Instance toy_ecdh : ECDH := {
  ec_NewPrivateKey _ a := if len a <=? 132 then Some a else None;
  ec_PublicKey _ k := 4 :: k;
  ec_NewPublicKey _ p := Some p;
  ec_ECDH _ k p := Some [u8 (foldr Z.add 0 k + foldr Z.add 0 (tail p))]
}.
#[export] Instance toy_ecdh_laws : ECDHLaws toy_ecdh.
Proof.
  constructor; [by eexists|done|..]; cbn.
  - intros c a k. destruct (Z.leb_spec (len a) 132); [|done]. intros [= <-]. rewrite len_cons. lia.
  - intros c a b ka kb _ _. eexists. split; [done|]. by rewrite Z.add_comm.
Qed.

Lemma DH_agreement_witness :
  let g := modpGroup DHGroup2 23 5 in
  exists a A b B s, GenerateKeypair g (RandInt 4) = Ok (a, A) /\ GenerateKeypair g (RandInt 13) = Ok (b, B) /\
    ComputeSharedSecret g a B = Ok s /\ ComputeSharedSecret g b A = Ok s.
Proof.
  destruct (DH_agreement (modpGroup DHGroup2 23 5) (RandInt 4) (RandInt 13) [6] [8] [15] [19]) as (s & H1 & H2 & _);
    [cbn; lia|cbn; lia|reflexivity|reflexivity|vm_compute; split; discriminate|vm_compute; split; discriminate|].
  exists [6], [8], [15], [19], s. split_and!; [reflexivity..|exact H1|exact H2].
Defined.

(** ** Encryption and decryption *)

Definition aes_key_len (n : Z) : Prop := n = 16 \/ n = 24 \/ n = 32.

Definition enc_key_ok (e : IKEEncryptor) (key : bytes) : Prop :=
  match e with
  | aesCBCEncryptor _ _ => aes_key_len (len key)
  | aesGCMEncryptor _ ks => aes_key_len ks /\ ks + 4 <= len key
  end.

Lemma aes_NewCipher_ok key : aes_key_len (len key) -> aes_NewCipher key = Ok key.
Proof. unfold aes_NewCipher. by intros [->|[->| ->]]. Qed.

Lemma fill_bytes_ok n l m i b :
  i = len l -> m = Z.of_nat n -> fill_bytes n (l ++ make m) i b = Ok (l ++ replicate n b).
Proof.
  intros -> ->. revert l. induction n as [|n IH]; intros l; [done|]. cbn [fill_bytes].
  rewrite fill_set, bind_Ok by lia. replace (Z.of_nat (S n) - 1) with (Z.of_nat n) by lia.
  replace (len l + 1) with (len (l ++ [b])) by (len_norm; lia). rewrite IH. by rewrite <- app_assoc.
Qed.

Lemma verify_padding_ok n l r i k :
  i = len l -> verify_padding n (l ++ replicate n (u8 k) ++ r) i k = Ok tt.
Proof.
  intros ->. revert l. induction n as [|n IH]; intros l; [done|]. cbn [verify_padding replicate app].
  rewrite idx_mid, bind_Ok, Z.eqb_refl by done. cbn [negb].
  replace (l ++ u8 k :: replicate n (u8 k) ++ r) with ((l ++ [u8 k]) ++ replicate n (u8 k) ++ r) by (by rewrite <- app_assoc).
  replace (len l + 1) with (len (l ++ [u8 k])) by (len_norm; lia). apply IH.
Qed.

Section roundtrip.
Context {C : Crypto} {CL : CryptoLaws C}.

(** The padding [Encrypt] adds: one to sixteen bytes. *)
Definition pkcs7 (p : bytes) : bytes :=
  p ++ replicate (Z.to_nat (16 - len p mod 16)) (16 - len p mod 16).

Lemma len_pkcs7 p : len (pkcs7 p) mod 16 = 0 /\ len p < len (pkcs7 p) <= len p + 16.
Proof.
  unfold pkcs7. len_norm. pose proof (Z.mod_pos_bound (len p) 16 ltac:(lia)). rewrite Z2Nat.id by lia.
  split; [|lia]. Z.div_mod_to_equations. lia.
Qed.

Lemma pkcs7_wf p : bytes_wf p -> bytes_wf (pkcs7 p).
Proof.
  intros. apply Forall_app_2; [done|]. apply Forall_replicate.
  pose proof (Z.mod_pos_bound (len p) 16 ltac:(lia)). unfold is_u8. lia.
Qed.

Lemma cbc_Encrypt_ok key iv p :
  aes_key_len (len key) -> len iv = 16 ->
  cbc_Encrypt key iv p = Ok (cbc_encrypt (Z.to_nat (len (pkcs7 p) / 16)) key iv (pkcs7 p)).
Proof.
  intros Hk Hiv. pose proof (Z.mod_pos_bound (len p) 16 ltac:(lia)) as Hm. pose proof (len_nonneg p).
  unfold cbc_Encrypt. rewrite aes_NewCipher_ok by done. unfold aes_BlockSize.
  rewrite (fill_start (len p + _)). rewrite fill_copy, bind_Ok by (len_norm; lia). rewrite app_nil_l.
  rewrite fill_bytes_ok, bind_Ok by lia. rewrite u8_id by (unfold is_u8; lia). fold (pkcs7 p).
  unfold CBCEncrypt, aes_BlockSize. rewrite Hiv. destruct (len_pkcs7 p) as [-> _]. done.
Qed.

Lemma length_nat_blocks (l : bytes) : len l mod 16 = 0 -> length l = (16 * Z.to_nat (len l / 16))%nat.
Proof. intros H. pose proof (len_nonneg l). unfold len in *. Z.div_mod_to_equations. lia. Qed.

Lemma cbc_roundtrip key iv p :
  aes_key_len (len key) -> len iv = 16 -> bytes_wf iv -> bytes_wf p ->
  exists c, cbc_Encrypt key iv p = Ok c /\ cbc_Decrypt key iv c = Ok p /\ len c = len (pkcs7 p).
Proof.
  intros Hk Hiv Hwi Hwp. rewrite cbc_Encrypt_ok by done. eexists. split; [done|].
  destruct (len_pkcs7 p) as [Hm Hl]. pose proof (length_nat_blocks _ Hm) as Hn.
  set (n := Z.to_nat (len (pkcs7 p) / 16)) in *. assert (length iv = 16%nat) by (unfold len in Hiv; lia).
  assert (len (cbc_encrypt n key iv (pkcs7 p)) = len (pkcs7 p)) as Hlc.
  { unfold len. rewrite length_cbc_encrypt by done. lia. }
  split; [|done]. unfold cbc_Decrypt. rewrite aes_NewCipher_ok by done. unfold aes_BlockSize.
  rewrite Hlc, Hm. cbn [Z.eqb negb]. unfold CBCDecrypt, aes_BlockSize. rewrite Hiv, Hlc, Hm. cbn [Z.eqb Pos.eqb negb orb].
  fold n. rewrite bind_Ok, cbc_decrypt_encrypt by (done || by apply pkcs7_wf).
  pose proof (len_nonneg p). rewrite (proj2 (Z.eqb_neq _ 0)) by lia.
  pose proof (Z.mod_pos_bound (len p) 16 ltac:(lia)). set (k := 16 - len p mod 16) in *.
  assert (pkcs7 p = (p ++ replicate (Z.to_nat k - 1) k) ++ [k]) as E.
  { unfold pkcs7. fold k. rewrite <- app_assoc. f_equal. rewrite <- replicate_S_end. f_equal. lia. }
  rewrite E at 1. rewrite idx_mid, bind_Ok by (rewrite E; len_norm; lia).
  assert (len (pkcs7 p) = len p + k) as Hlk by (unfold pkcs7; fold k; len_norm; lia).
  rewrite (proj2 (Z.ltb_ge k 1)), !gtb_false by lia. cbn [orb]. rewrite Hlk.
  replace (len p + k - k) with (len p) by lia. unfold pkcs7. fold k.
  pose proof (verify_padding_ok (Z.to_nat k) p [] (len p) k eq_refl) as Hv. rewrite app_nil_r, u8_id in Hv by (unfold is_u8; lia).
  rewrite Hv, bind_Ok. by apply slice_head.
Qed.

Lemma gcm_nonce_length salt iv : exists n, gcm_nonce salt iv = Ok n /\ length n = 12%nat.
Proof.
  unfold gcm_nonce. assert (len (take 4 salt) <= 4) by (len_norm; lia).
  rewrite (fill_start 12). rewrite fill_copy, bind_Ok by (len_norm; lia).
  set (b := ([] ++ take 4 salt) ++ make (12 - len (take 4 salt))).
  assert (len b = 12) as Hb by (unfold b; pose proof (len_nonneg (take 4 salt)); rewrite !len_app, len_make, (@len_nil Z); lia).
  destruct (copy_at b 4 iv) as [n|e|] eqn:E.
  - exists n. split; [done|]. apply len_copy_at in E. unfold len in *. lia.
  - unfold copy_at in E. by case_match.
  - unfold copy_at in E. by rewrite Hb in E.
Qed.

Lemma gcm_roundtrip ks key iv p aad :
  aes_key_len ks -> ks + 4 <= len key -> bytes_wf p ->
  exists c, gcm_Encrypt ks key iv p aad = Ok c /\ gcm_Decrypt ks key iv c aad = Ok p /\
    len c = len p + Overhead (NewGCM (sub key 0 ks)).
Proof.
  intros Hks Hk Hp. assert (0 <= ks) by (unfold aes_key_len in Hks; lia).
  assert (aes_key_len (len (sub key 0 ks))) as Hl by (rewrite len_sub by lia; by replace (ks - 0) with ks by lia).
  destruct (gcm_nonce_length (sub key ks (ks + 4)) iv) as (n & Hn & Hln).
  unfold gcm_Encrypt, gcm_Decrypt. rewrite (proj2 (Z.ltb_ge _ _)) by lia. rewrite !slice_ok, !bind_Ok by lia.
  rewrite (aes_NewCipher_ok _ Hl), Hn, !bind_Ok. eexists. split; [done|].
  rewrite !bind_Ok, (aes_NewCipher_ok _ Hl), Hn, bind_Ok, Open_Seal by done. split; [done|]. apply len_Seal.
Qed.

(** What is encrypted decrypts to itself, for every cipher of IKE. *)
Theorem Encrypt_Decrypt e key iv p aad :
  enc_key_ok e key -> len iv = enc_IVSize e -> bytes_wf iv -> bytes_wf p ->
  exists c, Encrypt e key iv p aad = Ok c /\ Decrypt e key iv c aad = Ok p.
Proof.
  intros Hk Hiv Hwi Hwp. destruct e as [i k|i k]; cbn [Encrypt Decrypt enc_key_ok enc_IVSize] in *.
  - destruct (cbc_roundtrip key iv p) as (c & ? & ? & _); [done..|]. by exists c.
  - destruct Hk as [Hks Hk]. destruct (gcm_roundtrip k key iv p aad) as (c & ? & ? & _); [done..|]. by exists c.
Qed.

(** Truncating the digest never fails, and gives the declared size. *)
Definition integ_ok (i : hmacIntegrity) : Prop := 0 < in_OutputSize i <= hash_size (in_hashFunc i).

Lemma NewIntegrity_ok id i : NewIntegrity id = Ok i -> integ_ok i /\ in_ID i = id.
Proof.
  unfold NewIntegrity, integ_ok.
  repeat match goal with |- context [id =? ?c] => destruct (Z.eqb_spec id c) as [->|]; [intros [= <-]; cbn; lia|] end. done.
Qed.

Lemma Integ_Compute_ok i key d :
  integ_ok i -> exists icv, Integ_Compute i key d = Ok icv /\ len icv = in_OutputSize i.
Proof.
  intros Hi. unfold integ_ok in Hi. unfold Integ_Compute. rewrite slice_ok by (rewrite ?len_hmac; lia).
  eexists. split; [done|]. rewrite len_sub by (rewrite ?len_hmac; lia). lia.
Qed.

End roundtrip.

Import Toy.

Lemma Encrypt_Decrypt_witness :
  exists c, Encrypt (aesGCMEncryptor EncrAES_GCM_16 16) (make 20) (make 8) [1; 2; 3] [9] = Ok c /\
    Decrypt (aesGCMEncryptor EncrAES_GCM_16 16) (make 20) (make 8) c [9] = Ok [1; 2; 3].
Proof.
  apply (Encrypt_Decrypt (aesGCMEncryptor EncrAES_GCM_16 16) (make 20) (make 8) [1; 2; 3] [9]);
    [split; [by left|vm_compute; discriminate]|reflexivity|apply make_wf|].
  apply (bool_decide_unpack _). vm_compute. exact I.
Defined.

(** ** The loop of [GenerateIKESPI] *)

(** It ends as soon as the source yields eight bytes that are not all zero. *)
Lemma GenerateIKESPI_ends n : forall r fuel,
  existsb (fun b => negb (b =? 0)) (resize 8 0 (draw r (used r + n))) = true ->
  (n < fuel)%nat -> exists spi r', GenerateIKESPI_loop fuel r = Some (spi, r').
Proof.
  induction n as [|n IH]; intros r fuel Hn Hf; (destruct fuel as [|fuel]; [lia|]); cbn [GenerateIKESPI_loop rand_Read].
  - rewrite Nat.add_0_r in Hn. rewrite Hn. by eexists _, _.
  - case_match; [by eexists _, _|]. apply IH; [|lia]. cbn [used draw]. by rewrite Nat.add_succ_l, <- Nat.add_succ_r.
Qed.

Lemma GenerateIKESPI_ok fuel r spi r' :
  rng_ok r -> GenerateIKESPI_loop fuel r = Some (spi, r') ->
  length spi = 8%nat /\ bytes_wf spi /\ spi <> make 8 /\ rng_ok r'.
Proof.
  revert r. induction fuel as [|fuel IH]; intros r Hr; cbn [GenerateIKESPI_loop]; [done|].
  destruct (rand_Read r 8) as [b r0] eqn:E. destruct (rand_Read_ok _ _ _ _ Hr E) as (Hl & Hw & Hr0).
  destruct (existsb _ b) eqn:Ex; [|by apply IH]. intros [= <- <-]. split_and!; try done. by intros ->.
Qed.

End Crypto.
