(* ===== verification/IkeKeys.v ===== *)
(** * IkeKeys: key derivation and authentication data

    [internal/ike/keyderiv.go], and the computations of [ikev2_session.go] that are
    functions of their inputs: NAT detection, AUTH data, cookies.  The plain hashes
    [sha1.New], [sha256.New] are the class [Digests]. *)

From S2P Require Import Prelude Wire EspCipher Net IkePayload.
From S2P Require Import IkeSA IkeCrypto IkeV2 IkeMessage.

Module Keys.
Import Cipher Crypto SA.

(** [hashEqual] of [ikev1_main.go]: the comparison does not stop at the first difference. *)
Fixpoint hash_diff (diff : Z) (a b : bytes) : Z :=
  match a, b with
  | x :: a, y :: b => hash_diff (Z.lor diff (Z.lxor x y)) a b
  | _, _ => diff
  end.

Definition hashEqual (a b : bytes) : bool :=
  if negb (len a =? len b) then false else hash_diff 0 a b =? 0.

(** [h := sha1.New(); h.Write(x); h.Sum(nil)] *)
Class Digests := { digest : Hash -> bytes -> bytes }.
Class DigestLaws (D : Digests) := {
  len_digest h d : len (digest h d) = hash_size h;
  digest_wf h d : bytes_wf (digest h d)
}.

Record IKEv2KeyMaterial := mkKeys2 {
  SK_d : bytes;
  SK_ai : bytes;
  SK_ar : bytes;
  SK_ei : bytes;
  SK_er : bytes;
  SK_pi : bytes;
  SK_pr : bytes
}.

Record IKEv1KeyMaterial := mkKeys1 {
  SKEYID : bytes;
  SKEYID_d : bytes;
  SKEYID_a : bytes;
  SKEYID_e : bytes
}.

Definition cloneSlice (b : bytes) : bytes := b.

(** [make] of the total length and one [copy] after the other. *)
Definition concat2 (a b : bytes) : res bytes :=
  buf ← copy_at (make (len a + len b)) 0 a;
  copy_at buf (len a) b.
Definition concat3 (a b c : bytes) : res bytes :=
  buf ← copy_at (make (len a + len b + len c)) 0 a;
  buf ← copy_at buf (len a) b;
  copy_at buf (len a + len b) c.

Section keys.
Context {C : Crypto} {D : Digests}.

(** The loop of [PRFPlus].  The counter is a byte, so the loop ends after 255 passes. *)
Fixpoint prf_plus_loop (fuel : nat) (prf : hmacPRF) (key seed : bytes) (needed : Z)
    (result prev : bytes) (counter : Z) : res bytes :=
  if len result <? needed then
    match fuel with
    | O => Panic
    | S fuel =>
      let input := make (len prev + len seed + 1) in
      input ← copy_at input 0 prev;
      input ← copy_at input (len prev) seed;
      input ← set_at input (len input - 1) counter;
      let prev := PRF_Compute prf key input in
      let result := result ++ prev in
      let counter := u8 (counter + 1) in
      if counter =? 0 then Ok result
      else prf_plus_loop fuel prf key seed needed result prev counter
    end
  else Ok result.

Definition PRFPlus (prf : hmacPRF) (key seed : bytes) (needed : Z) : res bytes :=
  result ← prf_plus_loop 255 prf key seed needed [] [] 1;
  slice result 0 needed.

(** The seven keys, cut one after the other. *)
Definition cut_keys (keymat : bytes) (encKeyLen intKeyLen prfKeyLen : Z) : res IKEv2KeyMaterial :=
  let offset := 0 in
  d ← slice keymat offset (offset + prfKeyLen);
  let offset := offset + prfKeyLen in
  ai ← slice keymat offset (offset + intKeyLen);
  let offset := offset + intKeyLen in
  ar ← slice keymat offset (offset + intKeyLen);
  let offset := offset + intKeyLen in
  ei ← slice keymat offset (offset + encKeyLen);
  let offset := offset + encKeyLen in
  er ← slice keymat offset (offset + encKeyLen);
  let offset := offset + encKeyLen in
  pi ← slice keymat offset (offset + prfKeyLen);
  let offset := offset + prfKeyLen in
  pr ← slice keymat offset (offset + prfKeyLen);
  Ok (mkKeys2 (cloneSlice d) (cloneSlice ai) (cloneSlice ar) (cloneSlice ei) (cloneSlice er) (cloneSlice pi) (cloneSlice pr)).

(** The seed of the expansion, and the keys cut from it. *)
Definition expand_keys (prf : hmacPRF) (skeyseed ni nr spiI spiR : bytes) (encKeyLen intKeyLen prfKeyLen : Z) : res IKEv2KeyMaterial :=
  let seed := make (len ni + len nr + 16) in
  seed ← copy_at seed 0 ni;
  seed ← copy_at seed (len ni) nr;
  seed ← copy_at seed (len ni + len nr) spiI;
  seed ← copy_at seed (len ni + len nr + 8) spiR;
  let totalNeeded := prfKeyLen + intKeyLen * 2 + encKeyLen * 2 + prfKeyLen * 2 in
  keymat ← PRFPlus prf skeyseed seed totalNeeded;
  cut_keys keymat encKeyLen intKeyLen prfKeyLen.

Definition DeriveIKEv2Keys (prf : hmacPRF) (sharedSecret ni nr spiI spiR : bytes)
    (encKeyLen intKeyLen prfKeyLen : Z) : res IKEv2KeyMaterial :=
  if len sharedSecret =? 0 then Err "DH shared secret is empty"
  else
    nonceConcat ← concat2 ni nr;
    let skeyseed := PRF_Compute prf nonceConcat sharedSecret in
    expand_keys prf skeyseed ni nr spiI spiR encKeyLen intKeyLen prfKeyLen.

Definition DeriveIKEv2RekeyKeys (prf : hmacPRF) (oldSKd newSharedSecret ni nr spiI spiR : bytes)
    (encKeyLen intKeyLen prfKeyLen : Z) : res IKEv2KeyMaterial :=
  prfInput ← concat3 newSharedSecret ni nr;
  let skeyseed := PRF_Compute prf oldSKd prfInput in
  expand_keys prf skeyseed ni nr spiI spiR encKeyLen intKeyLen prfKeyLen.

Definition DeriveIKEv1Keys (prf : hmacPRF) (psk sharedSecret ni nr cookieI cookieR : bytes) : res IKEv1KeyMaterial :=
  if len sharedSecret =? 0 then Err "DH shared secret is empty"
  else
    nonceConcat ← concat2 ni nr;
    let skeyid := PRF_Compute prf psk nonceConcat in
    let suffix := make (len sharedSecret + 16) in
    suffix ← copy_at suffix 0 sharedSecret;
    suffix ← copy_at suffix (len sharedSecret) cookieI;
    suffix ← copy_at suffix (len sharedSecret + 8) cookieR;
    let inputD := suffix ++ [0] in
    let skeyidD := PRF_Compute prf skeyid inputD in
    let inputA := make (len skeyidD + len suffix + 1) in
    inputA ← copy_at inputA 0 skeyidD;
    inputA ← copy_at inputA (len skeyidD) suffix;
    inputA ← set_at inputA (len inputA - 1) 1;
    let skeyidA := PRF_Compute prf skeyid inputA in
    let inputE := make (len skeyidA + len suffix + 1) in
    inputE ← copy_at inputE 0 skeyidA;
    inputE ← copy_at inputE (len skeyidA) suffix;
    inputE ← set_at inputE (len inputE - 1) 2;
    let skeyidE := PRF_Compute prf skeyid inputE in
    Ok (mkKeys1 skeyid skeyidD skeyidA skeyidE).

(** The loop of [DeriveIKEv1QuickModeKeys]: every pass adds a digest. *)
Fixpoint quick_loop (fuel : nat) (prf : hmacPRF) (skeyidD seed : bytes) (needed : Z) (result prev : bytes) : res bytes :=
  if len result <? needed then
    match fuel with
    | O => Panic
    | S fuel =>
      let prev := PRF_Compute prf skeyidD (prev ++ seed) in
      quick_loop fuel prf skeyidD seed needed (result ++ prev) prev
    end
  else Ok result.

Definition DeriveIKEv1QuickModeKeys (prf : hmacPRF) (skeyidD : bytes) (protocol : Z) (spi ni nr dhShared : bytes)
    (neededBytes : Z) : res bytes :=
  let seed := (if len dhShared >? 0 then dhShared else []) ++ [protocol] ++ spi ++ ni ++ nr in
  result ← quick_loop (Z.to_nat neededBytes) prf skeyidD seed neededBytes [] [];
  slice result 0 neededBytes.

Definition DeriveChildSAKeys (prf : hmacPRF) (skD ni nr dhShared : bytes) (neededBytes : Z) : res bytes :=
  let seed := (if len dhShared >? 0 then dhShared else []) ++ ni ++ nr in
  PRFPlus prf skD seed neededBytes.

(** ** NAT detection, AUTH data, cookies *)

Definition ComputeNATDetection (spiI spiR addr : bytes) (port : Z) : bytes :=
  digest SHA1 (spiI ++ spiR ++ default [] (To4 addr) ++ put16 port).

Definition CheckNATDetection (expected spiI spiR addr : bytes) (port : Z) : bool :=
  hashEqual (ComputeNATDetection spiI spiR addr port) expected.

(** The body of an ID payload: its marshalled form without the generic header. *)
Definition id_body_of (idPayload : Msg.Payload) : res bytes :=
  idBytes ← Msg.Payload_Marshal idPayload;
  if len idBytes >? Pl.PayloadHeaderLen then slice idBytes Pl.PayloadHeaderLen (len idBytes) else Ok idBytes.

Definition keyPad : bytes := bytes_of_string "Key Pad for IKEv2".

Definition ComputeIKEv2AuthCert (prf : hmacPRF) (initBytes peerNonce skP : bytes) (idPayload : Msg.Payload) : res bytes :=
  idBody ← id_body_of idPayload;
  let prfID := PRF_Compute prf skP idBody in
  concat3 initBytes peerNonce prfID.

Definition ComputeIKEv2AuthPSK (prf : hmacPRF) (psk initBytes peerNonce skP : bytes) (idPayload : Msg.Payload) : res bytes :=
  idBody ← id_body_of idPayload;
  let prfID := PRF_Compute prf skP idBody in
  signedOctets ← concat3 initBytes peerNonce prfID;
  let authKey := PRF_Compute prf psk keyPad in
  Ok (PRF_Compute prf authKey signedOctets).

Definition GenerateSAInitCookie (prf : hmacPRF) (secretKey : bytes) (peerAddr : option UDPAddr) (spiI ni : bytes) : bytes :=
  let hashFunc := if prf_ID prf =? PRFHMAC_SHA256 then SHA256 else SHA1 in
  let ip := match peerAddr with Some a => default [] (To4 (IP a)) | None => [] end in
  digest hashFunc (secretKey ++ ip ++ spiI ++ ni).

Definition VerifySAInitCookie (prf : hmacPRF) (secretKey : bytes) (peerAddr : option UDPAddr) (spiI ni cookie : bytes) : bool :=
  hashEqual (GenerateSAInitCookie prf secretKey peerAddr spiI ni) cookie.

End keys.

(** ** Lemmas *)

Lemma lor_0_iff a b : Z.lor a b = 0 <-> a = 0 /\ b = 0.
Proof. apply Z.lor_eq_0_iff. Qed.

Lemma hash_diff_0 a b d : length a = length b -> hash_diff d a b = 0 <-> d = 0 /\ a = b.
Proof.
  revert b d. induction a as [|x a IH]; intros [|y b] d Hl; cbn in Hl; try lia; cbn [hash_diff].
  - naive_solver.
  - rewrite IH by lia. rewrite lor_0_iff, Z.lxor_eq_0_iff. naive_solver.
Qed.

(** The constant-time comparison is equality. *)
Lemma hashEqual_eq a b : hashEqual a b = bool_decide (a = b).
Proof.
  unfold hashEqual. destruct (Z.eqb_spec (len a) (len b)) as [E|E]; cbn [negb].
  - apply eq_true_iff_eq. rewrite Z.eqb_eq, bool_decide_eq_true, hash_diff_0 by (unfold len in E; lia). tauto.
  - symmetry. apply bool_decide_eq_false. by intros ->.
Qed.

Lemma concat2_ok a b : concat2 a b = Ok (a ++ b).
Proof.
  unfold concat2. pose proof (len_nonneg a). pose proof (len_nonneg b). rewrite (fill_start (len a + len b)). fill_step.
  rewrite fill_copy by (len_norm; lia). by rewrite make_0, app_nil_r by (len_norm; lia).
Qed.

Lemma concat3_ok a b c : concat3 a b c = Ok (a ++ b ++ c).
Proof.
  unfold concat3. pose proof (len_nonneg a). pose proof (len_nonneg b). pose proof (len_nonneg c).
  rewrite (fill_start (len a + len b + len c)). do 2 fill_step. rewrite fill_copy by (len_norm; lia).
  rewrite make_0, app_nil_r by (len_norm; lia). by rewrite <- app_assoc.
Qed.

Section laws.
Context {C : Crypto} {CL : CryptoLaws C} {D : Digests}.

(** RFC 7296, 2.13: T1, T2, ... *)
Fixpoint T (prf : hmacPRF) (key seed : bytes) (n : nat) : bytes :=
  match n with
  | O => []
  | S n => PRF_Compute prf key (T prf key seed n ++ seed ++ [Z.of_nat (S n)])
  end.

(** The first [n] blocks of the stream. *)
Definition stream (prf : hmacPRF) (key seed : bytes) (n : nat) : bytes :=
  concat ((fun i => T prf key seed (S i)) <$> seq 0 n).

Definition prf_ok (prf : hmacPRF) : Prop := prf_OutputSize prf = hash_size (prf_hashFunc prf).

Lemma NewPRF_ok id p : NewPRF id = Ok p -> prf_ok p.
Proof.
  unfold NewPRF, prf_ok.
  repeat match goal with |- context [id =? ?c] => destruct (Z.eqb_spec id c) as [->|]; [by intros [= <-]|] end. done.
Qed.

Lemma hash_size_pos h : 0 < hash_size h.
Proof. by destruct h. Qed.

Lemma stream_S prf key seed n : stream prf key seed (S n) = stream prf key seed n ++ T prf key seed (S n).
Proof. unfold stream. rewrite seq_S, fmap_app, concat_app. cbn [fmap list_fmap concat]. by rewrite app_nil_r. Qed.

Lemma len_stream prf key seed n : len (stream prf key seed n) = Z.of_nat n * hash_size (prf_hashFunc prf).
Proof.
  induction n as [|n IH]; [done|]. rewrite stream_S, len_app, IH. cbn [T]. unfold PRF_Compute. rewrite len_hmac. lia.
Qed.

Lemma prf_plus_loop_ok prf key seed needed : needed <= 255 * hash_size (prf_hashFunc prf) -> forall fuel n,
  (n + fuel = 255)%nat ->
  exists m, prf_plus_loop fuel prf key seed needed (stream prf key seed n) (T prf key seed n) (Z.of_nat (S n)) =
    Ok (stream prf key seed m) /\ needed <= len (stream prf key seed m).
Proof.
  intros Hb. induction fuel as [|fuel IH]; intros n Hn; cbn [prf_plus_loop].
  - destruct (Z.ltb_spec (len (stream prf key seed n)) needed) as [Hl|Hl]; [|by exists n].
    exfalso. rewrite len_stream in Hl. replace n with 255%nat in Hl by lia. lia.
  - destruct (Z.ltb_spec (len (stream prf key seed n)) needed) as [Hl|Hl]; [|by exists n].
    set (prev := T prf key seed n). pose proof (len_nonneg prev). pose proof (len_nonneg seed).
    rewrite (fill_start (len prev + len seed + 1)). do 2 fill_step.
    rewrite fill_set, bind_Ok by (len_norm; lia). rewrite make_0, app_nil_r by (len_norm; lia).
    assert (PRF_Compute prf key ((([] ++ prev) ++ seed) ++ [Z.of_nat (S n)]) = T prf key seed (S n)) as ->.
    { cbn [T app]. by rewrite <- app_assoc. }
    rewrite <- stream_S. destruct (Z.eqb_spec (u8 (Z.of_nat (S n) + 1)) 0) as [E|E].
    + exists (S n). split; [done|]. rewrite len_stream.
      assert (S n = 255%nat) as ->; [|lia]. unfold u8 in E. Z.div_mod_to_equations. lia.
    + rewrite u8_id by (unfold is_u8; assert (S n <> 255%nat) by (intros En; rewrite En in E; done); lia).
      replace (Z.of_nat (S n) + 1) with (Z.of_nat (S (S n))) by lia. apply IH. lia.
Qed.

Lemma stream_prefix prf key seed n m : (n <= m)%nat -> stream prf key seed n `prefix_of` stream prf key seed m.
Proof.
  induction 1 as [|m _ IH]; [done|]. rewrite stream_S. by apply prefix_app_r.
Qed.

(** [PRFPlus] yields the first bytes of the stream T1 | T2 | ... of the RFC. *)
Theorem PRFPlus_correct prf key seed needed n :
  0 <= needed <= Z.of_nat n * hash_size (prf_hashFunc prf) -> (n <= 255)%nat ->
  PRFPlus prf key seed needed = Ok (take (Z.to_nat needed) (stream prf key seed n)).
Proof.
  intros Hb Hn. unfold PRFPlus. pose proof (hash_size_pos (prf_hashFunc prf)).
  destruct (prf_plus_loop_ok prf key seed needed ltac:(nia) 255 0 eq_refl) as (m & Hm & Hle).
  change (Z.of_nat 1) with 1 in Hm. cbn [T] in Hm. change (stream prf key seed 0) with (@nil Z) in Hm.
  rewrite Hm, bind_Ok, slice_ok by lia. unfold sub. rewrite Z.sub_0_r. f_equal.
  change (drop (Z.to_nat 0) (stream prf key seed m)) with (stream prf key seed m).
  assert (forall a b, (a <= b)%nat -> needed <= len (stream prf key seed a) ->
    take (Z.to_nat needed) (stream prf key seed a) = take (Z.to_nat needed) (stream prf key seed b)) as Ht.
  { intros a b Hab Hl. destruct (stream_prefix prf key seed a b Hab) as [k ->]. rewrite take_app_le; [done|].
    unfold len in Hl. lia. }
  destruct (decide (n <= m)%nat); [symmetry; apply Ht; [done|]; rewrite len_stream; lia|apply Ht; [lia|done]].
Qed.

(** ** The derived keys *)

Definition concat_keys (k : IKEv2KeyMaterial) : bytes :=
  SK_d k ++ SK_ai k ++ SK_ar k ++ SK_ei k ++ SK_er k ++ SK_pi k ++ SK_pr k.

Definition key_lengths (k : IKEv2KeyMaterial) (e i p : Z) : Prop :=
  len (SK_d k) = p /\ len (SK_ai k) = i /\ len (SK_ar k) = i /\ len (SK_ei k) = e /\ len (SK_er k) = e /\
  len (SK_pi k) = p /\ len (SK_pr k) = p.

Lemma sub_sub {A} (l : list A) a b c : 0 <= a <= b -> b <= c -> sub l a b ++ sub l b c = sub l a c.
Proof.
  intros. unfold sub. assert (drop (Z.to_nat b) l = drop (Z.to_nat (b - a)) (drop (Z.to_nat a) l)) as ->.
  { rewrite drop_drop. f_equal. lia. }
  rewrite <- (take_drop (Z.to_nat (b - a)) (take (Z.to_nat (c - a)) (drop (Z.to_nat a) l))).
  rewrite take_take, skipn_firstn_comm. f_equal; f_equal; lia.
Qed.

Lemma cut_keys_ok keymat e i p :
  0 <= e -> 0 <= i -> 0 <= p -> len keymat = p + i * 2 + e * 2 + p * 2 ->
  exists k, cut_keys keymat e i p = Ok k /\ key_lengths k e i p /\ concat_keys k = keymat.
Proof.
  intros He Hi Hp Hl. unfold cut_keys. rewrite !slice_ok by lia. rewrite !bind_Ok. eexists. split; [done|]. split.
  - unfold key_lengths. cbn [SK_d SK_ai SK_ar SK_ei SK_er SK_pi SK_pr cloneSlice].
    unfold cloneSlice. rewrite !len_sub by lia. lia.
  - unfold concat_keys, cloneSlice. cbn [SK_d SK_ai SK_ar SK_ei SK_er SK_pi SK_pr]. rewrite !sub_sub by lia.
    unfold sub. rewrite take_ge; [done|]. rewrite length_drop. unfold len in Hl. lia.
Qed.

Lemma seed_ok ni nr spiI spiR :
  len spiI = 8 -> len spiR = 8 ->
  (seed ← copy_at (make (len ni + len nr + 16)) 0 ni;
   seed ← copy_at seed (len ni) nr;
   seed ← copy_at seed (len ni + len nr) spiI;
   copy_at seed (len ni + len nr + 8) spiR) = Ok (ni ++ nr ++ spiI ++ spiR).
Proof.
  intros H1 H2. pose proof (len_nonneg ni). pose proof (len_nonneg nr). rewrite (fill_start (len ni + _ + _)).
  do 3 fill_step. rewrite fill_copy by (len_norm; lia). rewrite make_0, app_nil_r by (len_norm; lia).
  by rewrite <- !app_assoc.
Qed.

(** For the first derivation and for a rekey. *)
Lemma expand_keys_correct prf skeyseed ni nr spiI spiR e i p n :
  len spiI = 8 -> len spiR = 8 -> 0 <= e -> 0 <= i -> 0 <= p ->
  p + i * 2 + e * 2 + p * 2 <= Z.of_nat n * hash_size (prf_hashFunc prf) -> (n <= 255)%nat ->
  exists k, expand_keys prf skeyseed ni nr spiI spiR e i p = Ok k /\ key_lengths k e i p /\
    concat_keys k = take (Z.to_nat (p + i * 2 + e * 2 + p * 2)) (stream prf skeyseed (ni ++ nr ++ spiI ++ spiR) n).
Proof.
  intros H1 H2 He Hi Hp Hb Hn. unfold expand_keys.
  pose proof (seed_ok ni nr spiI spiR H1 H2) as Hs.
  destruct (copy_at (make (len ni + len nr + 16)) 0 ni) as [s1|?|]; [|done|done]. rewrite !bind_Ok in *.
  destruct (copy_at s1 (len ni) nr) as [s2|?|]; [|done|done]. rewrite !bind_Ok in *.
  destruct (copy_at s2 (len ni + len nr) spiI) as [s3|?|]; [|done|done]. rewrite !bind_Ok in *. rewrite Hs, bind_Ok.
  rewrite (PRFPlus_correct prf skeyseed _ _ n), bind_Ok by lia. apply cut_keys_ok; [done..|].
  rewrite len_take, len_stream. lia.
Qed.

(** The keys of a new IKE SA are the stream of the RFC from SKEYSEED and the seed
    Ni | Nr | SPIi | SPIr, cut in its order into SK_d, SK_ai, SK_ar, SK_ei, SK_er, SK_pi
    and SK_pr, each of its length. *)
Theorem DeriveIKEv2Keys_correct prf shared ni nr spiI spiR e i p n :
  shared <> [] -> len spiI = 8 -> len spiR = 8 -> 0 <= e -> 0 <= i -> 0 <= p ->
  p + i * 2 + e * 2 + p * 2 <= Z.of_nat n * hash_size (prf_hashFunc prf) -> (n <= 255)%nat ->
  exists k, DeriveIKEv2Keys prf shared ni nr spiI spiR e i p = Ok k /\ key_lengths k e i p /\
    concat_keys k = take (Z.to_nat (p + i * 2 + e * 2 + p * 2))
      (stream prf (PRF_Compute prf (ni ++ nr) shared) (ni ++ nr ++ spiI ++ spiR) n).
Proof.
  intros Hs. intros. unfold DeriveIKEv2Keys. rewrite (proj2 (Z.eqb_neq _ 0)) by (intros ?%len_0_inv; done).
  rewrite concat2_ok, bind_Ok. by apply expand_keys_correct.
Qed.

(** Keys of up to 48 bytes are always derived. *)
Lemma DeriveIKEv2Keys_ok prf shared ni nr spiI spiR e i p :
  shared <> [] -> len spiI = 8 -> len spiR = 8 -> 0 <= e <= 48 -> 0 <= i <= 48 -> 0 <= p <= 48 ->
  exists k, DeriveIKEv2Keys prf shared ni nr spiI spiR e i p = Ok k.
Proof.
  intros Hs H1 H2 He Hi Hp. unfold DeriveIKEv2Keys. rewrite (proj2 (Z.eqb_neq _ 0)) by (intros ?%len_0_inv; done).
  rewrite concat2_ok, bind_Ok. destruct (expand_keys_correct prf (PRF_Compute prf (ni ++ nr) shared) ni nr spiI spiR e i p 17)
    as (k & -> & _); try done; try lia; [|by exists k]. destruct (prf_hashFunc prf); cbn [hash_size]; lia.
Qed.

(** A buffer filled with a key, the fixed suffix and a tag byte. *)
Lemma chained_ok {A} (x suffix : bytes) (t : Z) (K : bytes -> res A) :
  (buf ← copy_at (make (len x + len suffix + 1)) 0 x;
   buf ← copy_at buf (len x) suffix;
   buf ← set_at buf (len buf - 1) t; K buf) = K (x ++ suffix ++ [t]).
Proof.
  pose proof (len_nonneg x). pose proof (len_nonneg suffix). rewrite (fill_start (len x + _ + 1)).
  do 2 fill_step. rewrite fill_set by (len_norm; lia). rewrite make_0, app_nil_r by (len_norm; lia).
  by rewrite app_nil_l, <- app_assoc, bind_Ok.
Qed.

(** IKEv1: SKEYID and the three keys chained from it. *)
Theorem DeriveIKEv1Keys_correct prf psk shared ni nr ckyI ckyR :
  shared <> [] -> len ckyI = 8 -> len ckyR = 8 ->
  let skeyid := PRF_Compute prf psk (ni ++ nr) in
  let suffix := shared ++ ckyI ++ ckyR in
  let d := PRF_Compute prf skeyid (suffix ++ [0]) in
  let a := PRF_Compute prf skeyid (d ++ suffix ++ [1]) in
  let e := PRF_Compute prf skeyid (a ++ suffix ++ [2]) in
  DeriveIKEv1Keys prf psk shared ni nr ckyI ckyR = Ok (mkKeys1 skeyid d a e).
Proof.
  intros Hs H1 H2. cbv zeta. unfold DeriveIKEv1Keys.
  rewrite (proj2 (Z.eqb_neq _ 0)) by (intros ?%len_0_inv; done). rewrite concat2_ok, bind_Ok.
  pose proof (len_nonneg shared). rewrite (fill_start (len shared + 16)). do 3 fill_step.
  rewrite make_0, app_nil_r by (len_norm; lia). rewrite app_nil_l, <- (app_assoc shared).
  cbv zeta. by rewrite !chained_ok.
Qed.

(** Phase 2 keys: as many bytes as asked for, in as many passes. *)
Lemma quick_loop_ok prf k seed needed fuel result prev :
  needed <= len result + Z.of_nat fuel ->
  exists r, quick_loop fuel prf k seed needed result prev = Ok r /\ needed <= len r.
Proof.
  revert result prev. induction fuel as [|fuel IH]; intros result prev Hb; cbn [quick_loop].
  - rewrite (proj2 (Z.ltb_ge _ _)) by lia. exists result. split; [done|lia].
  - destruct (Z.ltb_spec (len result) needed); [|by exists result]. apply IH. rewrite len_app.
    unfold PRF_Compute. rewrite len_hmac. pose proof (hash_size_pos (prf_hashFunc prf)). lia.
Qed.

Lemma DeriveIKEv1QuickModeKeys_len prf k proto spi ni nr dh needed :
  0 <= needed -> exists keymat, DeriveIKEv1QuickModeKeys prf k proto spi ni nr dh needed = Ok keymat /\ len keymat = needed.
Proof.
  intros Hn. unfold DeriveIKEv1QuickModeKeys. match goal with |- context [quick_loop ?f ?a ?b ?c ?d ?e ?g] =>
    destruct (quick_loop_ok a b c d f e g) as (r & -> & Hr); [rewrite (@len_nil Z); lia|] end.
  rewrite bind_Ok, slice_ok by lia. eexists. split; [done|]. rewrite len_sub by lia. lia.
Qed.

Lemma DeriveChildSAKeys_len prf k ni nr dh needed :
  0 <= needed <= 255 * hash_size (prf_hashFunc prf) ->
  exists keymat, DeriveChildSAKeys prf k ni nr dh needed = Ok keymat /\ len keymat = needed.
Proof.
  intros Hn. unfold DeriveChildSAKeys. rewrite (PRFPlus_correct _ _ _ _ 255) by lia. eexists. split; [done|].
  rewrite len_take, len_stream. lia.
Qed.

(** A cookie verifies exactly if it is the one generated for the same exchange. *)
Lemma VerifySAInitCookie_iff prf k a spi ni cookie :
  VerifySAInitCookie prf k a spi ni cookie = true <-> cookie = GenerateSAInitCookie prf k a spi ni.
Proof. unfold VerifySAInitCookie. rewrite hashEqual_eq, bool_decide_eq_true. naive_solver. Qed.

(** The AUTH value of the RFC: prf(prf(PSK, "Key Pad for IKEv2"), octets), where the octets
    are the message, the peer's nonce and prf(SK_p, body of the ID payload). *)
Lemma ComputeIKEv2AuthPSK_correct prf psk msg nonce skP id v :
  Msg.content_ok v id ->
  ComputeIKEv2AuthPSK prf psk msg nonce skP id =
    Ok (PRF_Compute prf (PRF_Compute prf psk keyPad)
      (msg ++ nonce ++ PRF_Compute prf skP (Msg.payload_body id))) \/ Msg.payload_body id = [].
Proof.
  intros Hid. unfold ComputeIKEv2AuthPSK, id_body_of. rewrite (Msg.Payload_Marshal_body v), bind_Ok by done.
  pose proof (len_nonneg (Msg.payload_body id)). rewrite Pl.len_payload_bytes. unfold Pl.PayloadHeaderLen.
  destruct (decide (Msg.payload_body id = [])) as [|Hne]; [by right|left].
  assert (len (Msg.payload_body id) <> 0) by (intros ?%len_0_inv; done).
  rewrite (proj2 (Z.gtb_lt _ _)) by lia. unfold Pl.payload_bytes.
  rewrite !slice_cons, slice_skip, slice_whole, bind_Ok by (len_norm; lia). by rewrite concat3_ok, bind_Ok.
Qed.

(** The AUTH value of RFC 7296, 2.15, for an identity: the body of an ID payload is its type,
    three zeros and the identity. *)
Definition rfc_AUTH (prf : hmacPRF) (psk msg nonce skP : bytes) (idType : Z) (idData : bytes) : bytes :=
  PRF_Compute prf (PRF_Compute prf psk (bytes_of_string "Key Pad for IKEv2"))
    (msg ++ nonce ++ PRF_Compute prf skP ([idType; 0; 0; 0] ++ idData)).

Lemma ComputeIKEv2AuthPSK_ID prf psk msg nonce skP id :
  ComputeIKEv2AuthPSK prf psk msg nonce skP (Msg.PID id) = Ok (rfc_AUTH prf psk msg nonce skP (V2.id_IDType id) (V2.id_Data id)).
Proof.
  unfold ComputeIKEv2AuthPSK, id_body_of. cbn [Msg.Payload_Marshal]. rewrite V2.IDPayload_Marshal_body, bind_Ok.
  pose proof (len_nonneg (V2.id_Data id)). rewrite Pl.len_payload_bytes. unfold Pl.PayloadHeaderLen.
  assert (len (V2.id_body id) = 4 + len (V2.id_Data id)) as Hl by (unfold V2.id_body; len_norm; lia).
  rewrite (proj2 (Z.gtb_lt _ _)) by lia. unfold Pl.payload_bytes.
  rewrite !slice_cons, slice_skip, slice_whole, bind_Ok by (len_norm; lia). by rewrite concat3_ok, bind_Ok.
Qed.

End laws.

(** ** Concrete hashes *)

Import Toy.

#[export] Instance toy_digests : Digests := {
  digest h d := checksum [d] ++ replicate (Z.to_nat (hash_size h - 4)) 0 }.

#[export] Instance toy_digest_laws : DigestLaws toy_digests.
Proof.
  constructor; intros h d; [by destruct h|].
  apply (Forall_app_2 _ (checksum [d])); [apply put32_wf|]. apply Forall_replicate. by unfold is_u8.
Qed.

Definition demo_prf : hmacPRF := mkPRF PRFHMAC_SHA256 SHA256 32 32.

Lemma DeriveIKEv2Keys_correct_witness :
  exists k, DeriveIKEv2Keys demo_prf [1; 2] [3; 4] [5; 6] (replicate 8 7) (replicate 8 8) 32 32 32 = Ok k /\ key_lengths k 32 32 32 /\
    concat_keys k = take 224 (stream demo_prf (PRF_Compute demo_prf ([3; 4] ++ [5; 6]) [1; 2])
      ([3; 4] ++ [5; 6] ++ replicate 8 7 ++ replicate 8 8) 7).
Proof. apply (DeriveIKEv2Keys_correct demo_prf [1; 2] [3; 4] [5; 6] (replicate 8 7) (replicate 8 8) 32 32 32 7); done || lia. Defined.

Lemma DeriveIKEv1Keys_correct_witness :
  exists d a e, DeriveIKEv1Keys demo_prf [9] [1; 2] [3; 4] [5; 6] (replicate 8 7) (replicate 8 8) =
    Ok (mkKeys1 (PRF_Compute demo_prf [9] ([3; 4] ++ [5; 6])) d a e).
Proof. do 3 eexists. apply (DeriveIKEv1Keys_correct demo_prf [9] [1; 2] [3; 4] [5; 6] (replicate 8 7) (replicate 8 8)); done. Defined.

End Keys.
