(* ===== verification/IkeSession.v ===== *)
(** * IkeSession: the state of an IKE session
      ([internal/ike/ikev2_session.go], [internal/ike/ikev1_session.go])

    The sessions of both versions, their child SAs and negotiation states.  A nil
    pointer or interface is [None], a nil slice the empty one.  The mutex and the
    creation time, which nothing reads, are left out; of the EAP states the code can
    store, only the one of MS-CHAPv2 has a writer. *)

From S2P Require Import Prelude Net IkeSA IkeV2 IkeCrypto IkeKeys.
Open Scope string_scope.
Open Scope list_scope.
Open Scope Z_scope.

Module Sess.
Import Crypto Keys.

(** ** Negotiation states *)

Inductive IKEv2State : Type :=
  | StateV2Idle | StateV2InitRecv | StateV2EAPInProgress | StateV2EAPDone
  | StateV2Established | StateV2Rekeying | StateV2Deleting.

Definition IKEv2State_String (s : IKEv2State) : string :=
  match s with
  | StateV2Idle => "Idle" | StateV2InitRecv => "InitRecv" | StateV2EAPInProgress => "EAPInProgress"
  | StateV2EAPDone => "EAPDone" | StateV2Established => "Established" | StateV2Rekeying => "Rekeying"
  | StateV2Deleting => "Deleting"
  end.

Inductive IKEv1State : Type :=
  | StateV1Idle | StateV1MainSARecv | StateV1MainKERecv | StateV1MainIDRecv | StateV1AggrRecv | StateV1AggrDone
  | StateV1Established | StateV1XAUTHSent | StateV1XAUTHDone | StateV1Deleting.

Definition IKEv1State_String (s : IKEv1State) : string :=
  match s with
  | StateV1Idle => "Idle" | StateV1MainSARecv => "MainSARecv" | StateV1MainKERecv => "MainKERecv"
  | StateV1MainIDRecv => "MainIDRecv" | StateV1AggrRecv => "AggrRecv" | StateV1AggrDone => "AggrDone"
  | StateV1Established => "Established" | StateV1XAUTHSent => "XAUTHSent" | StateV1XAUTHDone => "XAUTHDone"
  | StateV1Deleting => "Deleting"
  end.

#[global] Instance IKEv2State_eq_dec : EqDecision IKEv2State.
Proof. solve_decision. Defined.
#[global] Instance IKEv1State_eq_dec : EqDecision IKEv1State.
Proof. solve_decision. Defined.

Inductive CookieMode : Type := CookieModeAuto | CookieModeBusy | CookieModeUnlimited.

Definition ParseCookieMode (s : string) : CookieMode :=
  if (s =? "busy")%string then CookieModeBusy
  else if (s =? "unlimited")%string then CookieModeUnlimited
  else CookieModeAuto.

(** ** Child SAs *)

Record IKEv2ChildSA := mkChild2 {
  c2_InSPI : bytes;
  c2_OutSPI : bytes;
  c2_EncrKey : bytes;
  c2_IntegKey : bytes;
  c2_PeerEncrKey : bytes;
  c2_PeerIntegKey : bytes;
  c2_EncrID : Z;
  c2_IntegID : Z;
  c2_KeyLength : Z
}.

Record IKEv1ChildSA := mkChild1 {
  c1_MsgID : Z;
  c1_InSPI : bytes;
  c1_OutSPI : bytes;
  c1_EncrKey : bytes;
  c1_IntegKey : bytes;
  c1_PeerEncrKey : bytes;
  c1_PeerIntegKey : bytes;
  c1_EncrID : Z;
  c1_IntegID : Z;
  c1_KeyLength : Z
}.

(** The state of an EAP-MSCHAPv2 exchange ([eap_mschapv2.go]); strings are their bytes. *)
Record MSCHAPv2State := mkMSCHAP {
  ms_ServerChallenge : bytes;
  ms_ServerName : bytes;
  ms_PeerChallenge : bytes;
  ms_NTResponse : bytes;
  ms_Username : bytes;
  ms_AuthResp : bytes
}.

(** ** Sessions *)

Record IKEv2Session := mkSess2 {
  s2_InitiatorSPI : bytes;
  s2_ResponderSPI : bytes;
  s2_IsInitiator : bool;
  s2_PeerAddr : option UDPAddr;
  s2_State : IKEv2State;
  s2_EncAlg : Z;
  s2_PrfAlg : Z;
  s2_IntegAlg : Z;
  s2_DHGroupID : Z;
  s2_KeyLength : Z;
  s2_NonceI : bytes;
  s2_NonceR : bytes;
  s2_DHPrivKey : bytes;
  s2_DHPubKey : bytes;
  s2_PeerDHPubKey : bytes;
  s2_SharedSecret : bytes;
  s2_Keys : option IKEv2KeyMaterial;
  s2_PRF : option hmacPRF;
  s2_Encryptor : option IKEEncryptor;
  s2_Integrity : option hmacIntegrity;
  s2_InitReqBytes : bytes;
  s2_InitRespBytes : bytes;
  s2_PeerIDType : Z;
  s2_PeerID : bytes;
  s2_LocalID : bytes;
  s2_LocalIDType : Z;
  s2_ConnName : bytes;
  s2_PSK : bytes;
  s2_BehindNATLocal : bool;
  s2_BehindNATRemote : bool;
  s2_PeerSupportsFragmentation : bool;
  s2_NextMsgID : Z;
  s2_ChildSAs : list IKEv2ChildSA;
  s2_EAPState : option MSCHAPv2State;
  s2_EAPIdentifier : Z;
  s2_EAPMethod : Z;
  s2_EAPMSK : bytes;
  s2_pendingAuthSA : option SA.SAPayload;
  s2_pendingAuthTSi : option V2.TSPayload;
  s2_pendingAuthTSr : option V2.TSPayload;
  s2_pendingAuthCP : option V2.CPPayload
}.

Record IKEv1Session := mkSess1 {
  s1_CookieI : bytes;
  s1_CookieR : bytes;
  s1_State : IKEv1State;
  s1_EncAlg : Z;
  s1_HashAlg : Z;
  s1_AuthMethod : Z;
  s1_DHGroupID : Z;
  s1_KeyLength : Z;
  s1_DHPrivKey : bytes;
  s1_DHPubKey : bytes;
  s1_PeerDHPubKey : bytes;
  s1_SharedSecret : bytes;
  s1_NonceI : bytes;
  s1_NonceR : bytes;
  s1_Keys : option IKEv1KeyMaterial;
  s1_PRF : option hmacPRF;
  s1_Encryptor : option IKEEncryptor;
  s1_CurrentIV : bytes;
  s1_PeerAddr : option UDPAddr;
  s1_PeerID : bytes;
  s1_LocalID : bytes;
  s1_PSK : bytes;
  s1_ConnName : bytes;
  s1_XAUTHEnabled : bool;
  s1_XAUTHUser : bytes;
  s1_NextMsgID : Z;
  s1_ChildSAs : list IKEv1ChildSA
}.

(** Assignments to the fields of a session. *)

Definition set_s2_State (s : IKEv2Session) (x : IKEv2State) : IKEv2Session :=
  mkSess2 (s2_InitiatorSPI s) (s2_ResponderSPI s) (s2_IsInitiator s) (s2_PeerAddr s) x (s2_EncAlg s) (s2_PrfAlg s)
    (s2_IntegAlg s) (s2_DHGroupID s) (s2_KeyLength s) (s2_NonceI s) (s2_NonceR s) (s2_DHPrivKey s) (s2_DHPubKey s)
    (s2_PeerDHPubKey s) (s2_SharedSecret s) (s2_Keys s) (s2_PRF s) (s2_Encryptor s) (s2_Integrity s)
    (s2_InitReqBytes s) (s2_InitRespBytes s) (s2_PeerIDType s) (s2_PeerID s) (s2_LocalID s) (s2_LocalIDType s)
    (s2_ConnName s) (s2_PSK s) (s2_BehindNATLocal s) (s2_BehindNATRemote s) (s2_PeerSupportsFragmentation s)
    (s2_NextMsgID s) (s2_ChildSAs s) (s2_EAPState s) (s2_EAPIdentifier s) (s2_EAPMethod s) (s2_EAPMSK s)
    (s2_pendingAuthSA s) (s2_pendingAuthTSi s) (s2_pendingAuthTSr s) (s2_pendingAuthCP s).
Definition set_s2_InitReqBytes (s : IKEv2Session) (x : bytes) : IKEv2Session :=
  mkSess2 (s2_InitiatorSPI s) (s2_ResponderSPI s) (s2_IsInitiator s) (s2_PeerAddr s) (s2_State s) (s2_EncAlg s)
    (s2_PrfAlg s) (s2_IntegAlg s) (s2_DHGroupID s) (s2_KeyLength s) (s2_NonceI s) (s2_NonceR s) (s2_DHPrivKey s)
    (s2_DHPubKey s) (s2_PeerDHPubKey s) (s2_SharedSecret s) (s2_Keys s) (s2_PRF s) (s2_Encryptor s) (s2_Integrity s) x
    (s2_InitRespBytes s) (s2_PeerIDType s) (s2_PeerID s) (s2_LocalID s) (s2_LocalIDType s) (s2_ConnName s) (s2_PSK s)
    (s2_BehindNATLocal s) (s2_BehindNATRemote s) (s2_PeerSupportsFragmentation s) (s2_NextMsgID s) (s2_ChildSAs s)
    (s2_EAPState s) (s2_EAPIdentifier s) (s2_EAPMethod s) (s2_EAPMSK s) (s2_pendingAuthSA s) (s2_pendingAuthTSi s)
    (s2_pendingAuthTSr s) (s2_pendingAuthCP s).
Definition set_s2_InitRespBytes (s : IKEv2Session) (x : bytes) : IKEv2Session :=
  mkSess2 (s2_InitiatorSPI s) (s2_ResponderSPI s) (s2_IsInitiator s) (s2_PeerAddr s) (s2_State s) (s2_EncAlg s)
    (s2_PrfAlg s) (s2_IntegAlg s) (s2_DHGroupID s) (s2_KeyLength s) (s2_NonceI s) (s2_NonceR s) (s2_DHPrivKey s)
    (s2_DHPubKey s) (s2_PeerDHPubKey s) (s2_SharedSecret s) (s2_Keys s) (s2_PRF s) (s2_Encryptor s) (s2_Integrity s)
    (s2_InitReqBytes s) x (s2_PeerIDType s) (s2_PeerID s) (s2_LocalID s) (s2_LocalIDType s) (s2_ConnName s) (s2_PSK s)
    (s2_BehindNATLocal s) (s2_BehindNATRemote s) (s2_PeerSupportsFragmentation s) (s2_NextMsgID s) (s2_ChildSAs s)
    (s2_EAPState s) (s2_EAPIdentifier s) (s2_EAPMethod s) (s2_EAPMSK s) (s2_pendingAuthSA s) (s2_pendingAuthTSi s)
    (s2_pendingAuthTSr s) (s2_pendingAuthCP s).
Definition set_s2_PeerIDType (s : IKEv2Session) (x : Z) : IKEv2Session :=
  mkSess2 (s2_InitiatorSPI s) (s2_ResponderSPI s) (s2_IsInitiator s) (s2_PeerAddr s) (s2_State s) (s2_EncAlg s)
    (s2_PrfAlg s) (s2_IntegAlg s) (s2_DHGroupID s) (s2_KeyLength s) (s2_NonceI s) (s2_NonceR s) (s2_DHPrivKey s)
    (s2_DHPubKey s) (s2_PeerDHPubKey s) (s2_SharedSecret s) (s2_Keys s) (s2_PRF s) (s2_Encryptor s) (s2_Integrity s)
    (s2_InitReqBytes s) (s2_InitRespBytes s) x (s2_PeerID s) (s2_LocalID s) (s2_LocalIDType s) (s2_ConnName s)
    (s2_PSK s) (s2_BehindNATLocal s) (s2_BehindNATRemote s) (s2_PeerSupportsFragmentation s) (s2_NextMsgID s)
    (s2_ChildSAs s) (s2_EAPState s) (s2_EAPIdentifier s) (s2_EAPMethod s) (s2_EAPMSK s) (s2_pendingAuthSA s)
    (s2_pendingAuthTSi s) (s2_pendingAuthTSr s) (s2_pendingAuthCP s).
Definition set_s2_PeerID (s : IKEv2Session) (x : bytes) : IKEv2Session :=
  mkSess2 (s2_InitiatorSPI s) (s2_ResponderSPI s) (s2_IsInitiator s) (s2_PeerAddr s) (s2_State s) (s2_EncAlg s)
    (s2_PrfAlg s) (s2_IntegAlg s) (s2_DHGroupID s) (s2_KeyLength s) (s2_NonceI s) (s2_NonceR s) (s2_DHPrivKey s)
    (s2_DHPubKey s) (s2_PeerDHPubKey s) (s2_SharedSecret s) (s2_Keys s) (s2_PRF s) (s2_Encryptor s) (s2_Integrity s)
    (s2_InitReqBytes s) (s2_InitRespBytes s) (s2_PeerIDType s) x (s2_LocalID s) (s2_LocalIDType s) (s2_ConnName s)
    (s2_PSK s) (s2_BehindNATLocal s) (s2_BehindNATRemote s) (s2_PeerSupportsFragmentation s) (s2_NextMsgID s)
    (s2_ChildSAs s) (s2_EAPState s) (s2_EAPIdentifier s) (s2_EAPMethod s) (s2_EAPMSK s) (s2_pendingAuthSA s)
    (s2_pendingAuthTSi s) (s2_pendingAuthTSr s) (s2_pendingAuthCP s).
Definition set_s2_ConnName (s : IKEv2Session) (x : bytes) : IKEv2Session :=
  mkSess2 (s2_InitiatorSPI s) (s2_ResponderSPI s) (s2_IsInitiator s) (s2_PeerAddr s) (s2_State s) (s2_EncAlg s)
    (s2_PrfAlg s) (s2_IntegAlg s) (s2_DHGroupID s) (s2_KeyLength s) (s2_NonceI s) (s2_NonceR s) (s2_DHPrivKey s)
    (s2_DHPubKey s) (s2_PeerDHPubKey s) (s2_SharedSecret s) (s2_Keys s) (s2_PRF s) (s2_Encryptor s) (s2_Integrity s)
    (s2_InitReqBytes s) (s2_InitRespBytes s) (s2_PeerIDType s) (s2_PeerID s) (s2_LocalID s) (s2_LocalIDType s) x
    (s2_PSK s) (s2_BehindNATLocal s) (s2_BehindNATRemote s) (s2_PeerSupportsFragmentation s) (s2_NextMsgID s)
    (s2_ChildSAs s) (s2_EAPState s) (s2_EAPIdentifier s) (s2_EAPMethod s) (s2_EAPMSK s) (s2_pendingAuthSA s)
    (s2_pendingAuthTSi s) (s2_pendingAuthTSr s) (s2_pendingAuthCP s).
Definition set_s2_PSK (s : IKEv2Session) (x : bytes) : IKEv2Session :=
  mkSess2 (s2_InitiatorSPI s) (s2_ResponderSPI s) (s2_IsInitiator s) (s2_PeerAddr s) (s2_State s) (s2_EncAlg s)
    (s2_PrfAlg s) (s2_IntegAlg s) (s2_DHGroupID s) (s2_KeyLength s) (s2_NonceI s) (s2_NonceR s) (s2_DHPrivKey s)
    (s2_DHPubKey s) (s2_PeerDHPubKey s) (s2_SharedSecret s) (s2_Keys s) (s2_PRF s) (s2_Encryptor s) (s2_Integrity s)
    (s2_InitReqBytes s) (s2_InitRespBytes s) (s2_PeerIDType s) (s2_PeerID s) (s2_LocalID s) (s2_LocalIDType s)
    (s2_ConnName s) x (s2_BehindNATLocal s) (s2_BehindNATRemote s) (s2_PeerSupportsFragmentation s) (s2_NextMsgID s)
    (s2_ChildSAs s) (s2_EAPState s) (s2_EAPIdentifier s) (s2_EAPMethod s) (s2_EAPMSK s) (s2_pendingAuthSA s)
    (s2_pendingAuthTSi s) (s2_pendingAuthTSr s) (s2_pendingAuthCP s).
Definition set_s2_BehindNATRemote (s : IKEv2Session) (x : bool) : IKEv2Session :=
  mkSess2 (s2_InitiatorSPI s) (s2_ResponderSPI s) (s2_IsInitiator s) (s2_PeerAddr s) (s2_State s) (s2_EncAlg s)
    (s2_PrfAlg s) (s2_IntegAlg s) (s2_DHGroupID s) (s2_KeyLength s) (s2_NonceI s) (s2_NonceR s) (s2_DHPrivKey s)
    (s2_DHPubKey s) (s2_PeerDHPubKey s) (s2_SharedSecret s) (s2_Keys s) (s2_PRF s) (s2_Encryptor s) (s2_Integrity s)
    (s2_InitReqBytes s) (s2_InitRespBytes s) (s2_PeerIDType s) (s2_PeerID s) (s2_LocalID s) (s2_LocalIDType s)
    (s2_ConnName s) (s2_PSK s) (s2_BehindNATLocal s) x (s2_PeerSupportsFragmentation s) (s2_NextMsgID s)
    (s2_ChildSAs s) (s2_EAPState s) (s2_EAPIdentifier s) (s2_EAPMethod s) (s2_EAPMSK s) (s2_pendingAuthSA s)
    (s2_pendingAuthTSi s) (s2_pendingAuthTSr s) (s2_pendingAuthCP s).
Definition set_s2_PeerSupportsFragmentation (s : IKEv2Session) (x : bool) : IKEv2Session :=
  mkSess2 (s2_InitiatorSPI s) (s2_ResponderSPI s) (s2_IsInitiator s) (s2_PeerAddr s) (s2_State s) (s2_EncAlg s)
    (s2_PrfAlg s) (s2_IntegAlg s) (s2_DHGroupID s) (s2_KeyLength s) (s2_NonceI s) (s2_NonceR s) (s2_DHPrivKey s)
    (s2_DHPubKey s) (s2_PeerDHPubKey s) (s2_SharedSecret s) (s2_Keys s) (s2_PRF s) (s2_Encryptor s) (s2_Integrity s)
    (s2_InitReqBytes s) (s2_InitRespBytes s) (s2_PeerIDType s) (s2_PeerID s) (s2_LocalID s) (s2_LocalIDType s)
    (s2_ConnName s) (s2_PSK s) (s2_BehindNATLocal s) (s2_BehindNATRemote s) x (s2_NextMsgID s) (s2_ChildSAs s)
    (s2_EAPState s) (s2_EAPIdentifier s) (s2_EAPMethod s) (s2_EAPMSK s) (s2_pendingAuthSA s) (s2_pendingAuthTSi s)
    (s2_pendingAuthTSr s) (s2_pendingAuthCP s).
Definition set_s2_ChildSAs (s : IKEv2Session) (x : list IKEv2ChildSA) : IKEv2Session :=
  mkSess2 (s2_InitiatorSPI s) (s2_ResponderSPI s) (s2_IsInitiator s) (s2_PeerAddr s) (s2_State s) (s2_EncAlg s)
    (s2_PrfAlg s) (s2_IntegAlg s) (s2_DHGroupID s) (s2_KeyLength s) (s2_NonceI s) (s2_NonceR s) (s2_DHPrivKey s)
    (s2_DHPubKey s) (s2_PeerDHPubKey s) (s2_SharedSecret s) (s2_Keys s) (s2_PRF s) (s2_Encryptor s) (s2_Integrity s)
    (s2_InitReqBytes s) (s2_InitRespBytes s) (s2_PeerIDType s) (s2_PeerID s) (s2_LocalID s) (s2_LocalIDType s)
    (s2_ConnName s) (s2_PSK s) (s2_BehindNATLocal s) (s2_BehindNATRemote s) (s2_PeerSupportsFragmentation s)
    (s2_NextMsgID s) x (s2_EAPState s) (s2_EAPIdentifier s) (s2_EAPMethod s) (s2_EAPMSK s) (s2_pendingAuthSA s)
    (s2_pendingAuthTSi s) (s2_pendingAuthTSr s) (s2_pendingAuthCP s).
Definition set_s2_EAPState (s : IKEv2Session) (x : option MSCHAPv2State) : IKEv2Session :=
  mkSess2 (s2_InitiatorSPI s) (s2_ResponderSPI s) (s2_IsInitiator s) (s2_PeerAddr s) (s2_State s) (s2_EncAlg s)
    (s2_PrfAlg s) (s2_IntegAlg s) (s2_DHGroupID s) (s2_KeyLength s) (s2_NonceI s) (s2_NonceR s) (s2_DHPrivKey s)
    (s2_DHPubKey s) (s2_PeerDHPubKey s) (s2_SharedSecret s) (s2_Keys s) (s2_PRF s) (s2_Encryptor s) (s2_Integrity s)
    (s2_InitReqBytes s) (s2_InitRespBytes s) (s2_PeerIDType s) (s2_PeerID s) (s2_LocalID s) (s2_LocalIDType s)
    (s2_ConnName s) (s2_PSK s) (s2_BehindNATLocal s) (s2_BehindNATRemote s) (s2_PeerSupportsFragmentation s)
    (s2_NextMsgID s) (s2_ChildSAs s) x (s2_EAPIdentifier s) (s2_EAPMethod s) (s2_EAPMSK s) (s2_pendingAuthSA s)
    (s2_pendingAuthTSi s) (s2_pendingAuthTSr s) (s2_pendingAuthCP s).
Definition set_s2_EAPIdentifier (s : IKEv2Session) (x : Z) : IKEv2Session :=
  mkSess2 (s2_InitiatorSPI s) (s2_ResponderSPI s) (s2_IsInitiator s) (s2_PeerAddr s) (s2_State s) (s2_EncAlg s)
    (s2_PrfAlg s) (s2_IntegAlg s) (s2_DHGroupID s) (s2_KeyLength s) (s2_NonceI s) (s2_NonceR s) (s2_DHPrivKey s)
    (s2_DHPubKey s) (s2_PeerDHPubKey s) (s2_SharedSecret s) (s2_Keys s) (s2_PRF s) (s2_Encryptor s) (s2_Integrity s)
    (s2_InitReqBytes s) (s2_InitRespBytes s) (s2_PeerIDType s) (s2_PeerID s) (s2_LocalID s) (s2_LocalIDType s)
    (s2_ConnName s) (s2_PSK s) (s2_BehindNATLocal s) (s2_BehindNATRemote s) (s2_PeerSupportsFragmentation s)
    (s2_NextMsgID s) (s2_ChildSAs s) (s2_EAPState s) x (s2_EAPMethod s) (s2_EAPMSK s) (s2_pendingAuthSA s)
    (s2_pendingAuthTSi s) (s2_pendingAuthTSr s) (s2_pendingAuthCP s).
Definition set_s2_EAPMethod (s : IKEv2Session) (x : Z) : IKEv2Session :=
  mkSess2 (s2_InitiatorSPI s) (s2_ResponderSPI s) (s2_IsInitiator s) (s2_PeerAddr s) (s2_State s) (s2_EncAlg s)
    (s2_PrfAlg s) (s2_IntegAlg s) (s2_DHGroupID s) (s2_KeyLength s) (s2_NonceI s) (s2_NonceR s) (s2_DHPrivKey s)
    (s2_DHPubKey s) (s2_PeerDHPubKey s) (s2_SharedSecret s) (s2_Keys s) (s2_PRF s) (s2_Encryptor s) (s2_Integrity s)
    (s2_InitReqBytes s) (s2_InitRespBytes s) (s2_PeerIDType s) (s2_PeerID s) (s2_LocalID s) (s2_LocalIDType s)
    (s2_ConnName s) (s2_PSK s) (s2_BehindNATLocal s) (s2_BehindNATRemote s) (s2_PeerSupportsFragmentation s)
    (s2_NextMsgID s) (s2_ChildSAs s) (s2_EAPState s) (s2_EAPIdentifier s) x (s2_EAPMSK s) (s2_pendingAuthSA s)
    (s2_pendingAuthTSi s) (s2_pendingAuthTSr s) (s2_pendingAuthCP s).
Definition set_s2_EAPMSK (s : IKEv2Session) (x : bytes) : IKEv2Session :=
  mkSess2 (s2_InitiatorSPI s) (s2_ResponderSPI s) (s2_IsInitiator s) (s2_PeerAddr s) (s2_State s) (s2_EncAlg s)
    (s2_PrfAlg s) (s2_IntegAlg s) (s2_DHGroupID s) (s2_KeyLength s) (s2_NonceI s) (s2_NonceR s) (s2_DHPrivKey s)
    (s2_DHPubKey s) (s2_PeerDHPubKey s) (s2_SharedSecret s) (s2_Keys s) (s2_PRF s) (s2_Encryptor s) (s2_Integrity s)
    (s2_InitReqBytes s) (s2_InitRespBytes s) (s2_PeerIDType s) (s2_PeerID s) (s2_LocalID s) (s2_LocalIDType s)
    (s2_ConnName s) (s2_PSK s) (s2_BehindNATLocal s) (s2_BehindNATRemote s) (s2_PeerSupportsFragmentation s)
    (s2_NextMsgID s) (s2_ChildSAs s) (s2_EAPState s) (s2_EAPIdentifier s) (s2_EAPMethod s) x (s2_pendingAuthSA s)
    (s2_pendingAuthTSi s) (s2_pendingAuthTSr s) (s2_pendingAuthCP s).
Definition set_s2_pendingAuthSA (s : IKEv2Session) (x : option SA.SAPayload) : IKEv2Session :=
  mkSess2 (s2_InitiatorSPI s) (s2_ResponderSPI s) (s2_IsInitiator s) (s2_PeerAddr s) (s2_State s) (s2_EncAlg s)
    (s2_PrfAlg s) (s2_IntegAlg s) (s2_DHGroupID s) (s2_KeyLength s) (s2_NonceI s) (s2_NonceR s) (s2_DHPrivKey s)
    (s2_DHPubKey s) (s2_PeerDHPubKey s) (s2_SharedSecret s) (s2_Keys s) (s2_PRF s) (s2_Encryptor s) (s2_Integrity s)
    (s2_InitReqBytes s) (s2_InitRespBytes s) (s2_PeerIDType s) (s2_PeerID s) (s2_LocalID s) (s2_LocalIDType s)
    (s2_ConnName s) (s2_PSK s) (s2_BehindNATLocal s) (s2_BehindNATRemote s) (s2_PeerSupportsFragmentation s)
    (s2_NextMsgID s) (s2_ChildSAs s) (s2_EAPState s) (s2_EAPIdentifier s) (s2_EAPMethod s) (s2_EAPMSK s) x
    (s2_pendingAuthTSi s) (s2_pendingAuthTSr s) (s2_pendingAuthCP s).
Definition set_s2_pendingAuthTSi (s : IKEv2Session) (x : option V2.TSPayload) : IKEv2Session :=
  mkSess2 (s2_InitiatorSPI s) (s2_ResponderSPI s) (s2_IsInitiator s) (s2_PeerAddr s) (s2_State s) (s2_EncAlg s)
    (s2_PrfAlg s) (s2_IntegAlg s) (s2_DHGroupID s) (s2_KeyLength s) (s2_NonceI s) (s2_NonceR s) (s2_DHPrivKey s)
    (s2_DHPubKey s) (s2_PeerDHPubKey s) (s2_SharedSecret s) (s2_Keys s) (s2_PRF s) (s2_Encryptor s) (s2_Integrity s)
    (s2_InitReqBytes s) (s2_InitRespBytes s) (s2_PeerIDType s) (s2_PeerID s) (s2_LocalID s) (s2_LocalIDType s)
    (s2_ConnName s) (s2_PSK s) (s2_BehindNATLocal s) (s2_BehindNATRemote s) (s2_PeerSupportsFragmentation s)
    (s2_NextMsgID s) (s2_ChildSAs s) (s2_EAPState s) (s2_EAPIdentifier s) (s2_EAPMethod s) (s2_EAPMSK s)
    (s2_pendingAuthSA s) x (s2_pendingAuthTSr s) (s2_pendingAuthCP s).
Definition set_s2_pendingAuthTSr (s : IKEv2Session) (x : option V2.TSPayload) : IKEv2Session :=
  mkSess2 (s2_InitiatorSPI s) (s2_ResponderSPI s) (s2_IsInitiator s) (s2_PeerAddr s) (s2_State s) (s2_EncAlg s)
    (s2_PrfAlg s) (s2_IntegAlg s) (s2_DHGroupID s) (s2_KeyLength s) (s2_NonceI s) (s2_NonceR s) (s2_DHPrivKey s)
    (s2_DHPubKey s) (s2_PeerDHPubKey s) (s2_SharedSecret s) (s2_Keys s) (s2_PRF s) (s2_Encryptor s) (s2_Integrity s)
    (s2_InitReqBytes s) (s2_InitRespBytes s) (s2_PeerIDType s) (s2_PeerID s) (s2_LocalID s) (s2_LocalIDType s)
    (s2_ConnName s) (s2_PSK s) (s2_BehindNATLocal s) (s2_BehindNATRemote s) (s2_PeerSupportsFragmentation s)
    (s2_NextMsgID s) (s2_ChildSAs s) (s2_EAPState s) (s2_EAPIdentifier s) (s2_EAPMethod s) (s2_EAPMSK s)
    (s2_pendingAuthSA s) (s2_pendingAuthTSi s) x (s2_pendingAuthCP s).
Definition set_s2_pendingAuthCP (s : IKEv2Session) (x : option V2.CPPayload) : IKEv2Session :=
  mkSess2 (s2_InitiatorSPI s) (s2_ResponderSPI s) (s2_IsInitiator s) (s2_PeerAddr s) (s2_State s) (s2_EncAlg s)
    (s2_PrfAlg s) (s2_IntegAlg s) (s2_DHGroupID s) (s2_KeyLength s) (s2_NonceI s) (s2_NonceR s) (s2_DHPrivKey s)
    (s2_DHPubKey s) (s2_PeerDHPubKey s) (s2_SharedSecret s) (s2_Keys s) (s2_PRF s) (s2_Encryptor s) (s2_Integrity s)
    (s2_InitReqBytes s) (s2_InitRespBytes s) (s2_PeerIDType s) (s2_PeerID s) (s2_LocalID s) (s2_LocalIDType s)
    (s2_ConnName s) (s2_PSK s) (s2_BehindNATLocal s) (s2_BehindNATRemote s) (s2_PeerSupportsFragmentation s)
    (s2_NextMsgID s) (s2_ChildSAs s) (s2_EAPState s) (s2_EAPIdentifier s) (s2_EAPMethod s) (s2_EAPMSK s)
    (s2_pendingAuthSA s) (s2_pendingAuthTSi s) (s2_pendingAuthTSr s) x.

Definition set_s1_State (s : IKEv1Session) (x : IKEv1State) : IKEv1Session :=
  mkSess1 (s1_CookieI s) (s1_CookieR s) x (s1_EncAlg s) (s1_HashAlg s) (s1_AuthMethod s) (s1_DHGroupID s)
    (s1_KeyLength s) (s1_DHPrivKey s) (s1_DHPubKey s) (s1_PeerDHPubKey s) (s1_SharedSecret s) (s1_NonceI s)
    (s1_NonceR s) (s1_Keys s) (s1_PRF s) (s1_Encryptor s) (s1_CurrentIV s) (s1_PeerAddr s) (s1_PeerID s)
    (s1_LocalID s) (s1_PSK s) (s1_ConnName s) (s1_XAUTHEnabled s) (s1_XAUTHUser s) (s1_NextMsgID s) (s1_ChildSAs s).
Definition set_s1_DHPrivKey (s : IKEv1Session) (x : bytes) : IKEv1Session :=
  mkSess1 (s1_CookieI s) (s1_CookieR s) (s1_State s) (s1_EncAlg s) (s1_HashAlg s) (s1_AuthMethod s) (s1_DHGroupID s)
    (s1_KeyLength s) x (s1_DHPubKey s) (s1_PeerDHPubKey s) (s1_SharedSecret s) (s1_NonceI s) (s1_NonceR s) (s1_Keys s)
    (s1_PRF s) (s1_Encryptor s) (s1_CurrentIV s) (s1_PeerAddr s) (s1_PeerID s) (s1_LocalID s) (s1_PSK s)
    (s1_ConnName s) (s1_XAUTHEnabled s) (s1_XAUTHUser s) (s1_NextMsgID s) (s1_ChildSAs s).
Definition set_s1_DHPubKey (s : IKEv1Session) (x : bytes) : IKEv1Session :=
  mkSess1 (s1_CookieI s) (s1_CookieR s) (s1_State s) (s1_EncAlg s) (s1_HashAlg s) (s1_AuthMethod s) (s1_DHGroupID s)
    (s1_KeyLength s) (s1_DHPrivKey s) x (s1_PeerDHPubKey s) (s1_SharedSecret s) (s1_NonceI s) (s1_NonceR s)
    (s1_Keys s) (s1_PRF s) (s1_Encryptor s) (s1_CurrentIV s) (s1_PeerAddr s) (s1_PeerID s) (s1_LocalID s) (s1_PSK s)
    (s1_ConnName s) (s1_XAUTHEnabled s) (s1_XAUTHUser s) (s1_NextMsgID s) (s1_ChildSAs s).
Definition set_s1_PeerDHPubKey (s : IKEv1Session) (x : bytes) : IKEv1Session :=
  mkSess1 (s1_CookieI s) (s1_CookieR s) (s1_State s) (s1_EncAlg s) (s1_HashAlg s) (s1_AuthMethod s) (s1_DHGroupID s)
    (s1_KeyLength s) (s1_DHPrivKey s) (s1_DHPubKey s) x (s1_SharedSecret s) (s1_NonceI s) (s1_NonceR s) (s1_Keys s)
    (s1_PRF s) (s1_Encryptor s) (s1_CurrentIV s) (s1_PeerAddr s) (s1_PeerID s) (s1_LocalID s) (s1_PSK s)
    (s1_ConnName s) (s1_XAUTHEnabled s) (s1_XAUTHUser s) (s1_NextMsgID s) (s1_ChildSAs s).
Definition set_s1_SharedSecret (s : IKEv1Session) (x : bytes) : IKEv1Session :=
  mkSess1 (s1_CookieI s) (s1_CookieR s) (s1_State s) (s1_EncAlg s) (s1_HashAlg s) (s1_AuthMethod s) (s1_DHGroupID s)
    (s1_KeyLength s) (s1_DHPrivKey s) (s1_DHPubKey s) (s1_PeerDHPubKey s) x (s1_NonceI s) (s1_NonceR s) (s1_Keys s)
    (s1_PRF s) (s1_Encryptor s) (s1_CurrentIV s) (s1_PeerAddr s) (s1_PeerID s) (s1_LocalID s) (s1_PSK s)
    (s1_ConnName s) (s1_XAUTHEnabled s) (s1_XAUTHUser s) (s1_NextMsgID s) (s1_ChildSAs s).
Definition set_s1_NonceI (s : IKEv1Session) (x : bytes) : IKEv1Session :=
  mkSess1 (s1_CookieI s) (s1_CookieR s) (s1_State s) (s1_EncAlg s) (s1_HashAlg s) (s1_AuthMethod s) (s1_DHGroupID s)
    (s1_KeyLength s) (s1_DHPrivKey s) (s1_DHPubKey s) (s1_PeerDHPubKey s) (s1_SharedSecret s) x (s1_NonceR s)
    (s1_Keys s) (s1_PRF s) (s1_Encryptor s) (s1_CurrentIV s) (s1_PeerAddr s) (s1_PeerID s) (s1_LocalID s) (s1_PSK s)
    (s1_ConnName s) (s1_XAUTHEnabled s) (s1_XAUTHUser s) (s1_NextMsgID s) (s1_ChildSAs s).
Definition set_s1_NonceR (s : IKEv1Session) (x : bytes) : IKEv1Session :=
  mkSess1 (s1_CookieI s) (s1_CookieR s) (s1_State s) (s1_EncAlg s) (s1_HashAlg s) (s1_AuthMethod s) (s1_DHGroupID s)
    (s1_KeyLength s) (s1_DHPrivKey s) (s1_DHPubKey s) (s1_PeerDHPubKey s) (s1_SharedSecret s) (s1_NonceI s) x
    (s1_Keys s) (s1_PRF s) (s1_Encryptor s) (s1_CurrentIV s) (s1_PeerAddr s) (s1_PeerID s) (s1_LocalID s) (s1_PSK s)
    (s1_ConnName s) (s1_XAUTHEnabled s) (s1_XAUTHUser s) (s1_NextMsgID s) (s1_ChildSAs s).
Definition set_s1_Keys (s : IKEv1Session) (x : option IKEv1KeyMaterial) : IKEv1Session :=
  mkSess1 (s1_CookieI s) (s1_CookieR s) (s1_State s) (s1_EncAlg s) (s1_HashAlg s) (s1_AuthMethod s) (s1_DHGroupID s)
    (s1_KeyLength s) (s1_DHPrivKey s) (s1_DHPubKey s) (s1_PeerDHPubKey s) (s1_SharedSecret s) (s1_NonceI s)
    (s1_NonceR s) x (s1_PRF s) (s1_Encryptor s) (s1_CurrentIV s) (s1_PeerAddr s) (s1_PeerID s) (s1_LocalID s)
    (s1_PSK s) (s1_ConnName s) (s1_XAUTHEnabled s) (s1_XAUTHUser s) (s1_NextMsgID s) (s1_ChildSAs s).
Definition set_s1_Encryptor (s : IKEv1Session) (x : option IKEEncryptor) : IKEv1Session :=
  mkSess1 (s1_CookieI s) (s1_CookieR s) (s1_State s) (s1_EncAlg s) (s1_HashAlg s) (s1_AuthMethod s) (s1_DHGroupID s)
    (s1_KeyLength s) (s1_DHPrivKey s) (s1_DHPubKey s) (s1_PeerDHPubKey s) (s1_SharedSecret s) (s1_NonceI s)
    (s1_NonceR s) (s1_Keys s) (s1_PRF s) x (s1_CurrentIV s) (s1_PeerAddr s) (s1_PeerID s) (s1_LocalID s) (s1_PSK s)
    (s1_ConnName s) (s1_XAUTHEnabled s) (s1_XAUTHUser s) (s1_NextMsgID s) (s1_ChildSAs s).
Definition set_s1_CurrentIV (s : IKEv1Session) (x : bytes) : IKEv1Session :=
  mkSess1 (s1_CookieI s) (s1_CookieR s) (s1_State s) (s1_EncAlg s) (s1_HashAlg s) (s1_AuthMethod s) (s1_DHGroupID s)
    (s1_KeyLength s) (s1_DHPrivKey s) (s1_DHPubKey s) (s1_PeerDHPubKey s) (s1_SharedSecret s) (s1_NonceI s)
    (s1_NonceR s) (s1_Keys s) (s1_PRF s) (s1_Encryptor s) x (s1_PeerAddr s) (s1_PeerID s) (s1_LocalID s) (s1_PSK s)
    (s1_ConnName s) (s1_XAUTHEnabled s) (s1_XAUTHUser s) (s1_NextMsgID s) (s1_ChildSAs s).
Definition set_s1_PeerID (s : IKEv1Session) (x : bytes) : IKEv1Session :=
  mkSess1 (s1_CookieI s) (s1_CookieR s) (s1_State s) (s1_EncAlg s) (s1_HashAlg s) (s1_AuthMethod s) (s1_DHGroupID s)
    (s1_KeyLength s) (s1_DHPrivKey s) (s1_DHPubKey s) (s1_PeerDHPubKey s) (s1_SharedSecret s) (s1_NonceI s)
    (s1_NonceR s) (s1_Keys s) (s1_PRF s) (s1_Encryptor s) (s1_CurrentIV s) (s1_PeerAddr s) x (s1_LocalID s) (s1_PSK s)
    (s1_ConnName s) (s1_XAUTHEnabled s) (s1_XAUTHUser s) (s1_NextMsgID s) (s1_ChildSAs s).
Definition set_s1_XAUTHUser (s : IKEv1Session) (x : bytes) : IKEv1Session :=
  mkSess1 (s1_CookieI s) (s1_CookieR s) (s1_State s) (s1_EncAlg s) (s1_HashAlg s) (s1_AuthMethod s) (s1_DHGroupID s)
    (s1_KeyLength s) (s1_DHPrivKey s) (s1_DHPubKey s) (s1_PeerDHPubKey s) (s1_SharedSecret s) (s1_NonceI s)
    (s1_NonceR s) (s1_Keys s) (s1_PRF s) (s1_Encryptor s) (s1_CurrentIV s) (s1_PeerAddr s) (s1_PeerID s)
    (s1_LocalID s) (s1_PSK s) (s1_ConnName s) (s1_XAUTHEnabled s) x (s1_NextMsgID s) (s1_ChildSAs s).
Definition set_s1_NextMsgID (s : IKEv1Session) (x : Z) : IKEv1Session :=
  mkSess1 (s1_CookieI s) (s1_CookieR s) (s1_State s) (s1_EncAlg s) (s1_HashAlg s) (s1_AuthMethod s) (s1_DHGroupID s)
    (s1_KeyLength s) (s1_DHPrivKey s) (s1_DHPubKey s) (s1_PeerDHPubKey s) (s1_SharedSecret s) (s1_NonceI s)
    (s1_NonceR s) (s1_Keys s) (s1_PRF s) (s1_Encryptor s) (s1_CurrentIV s) (s1_PeerAddr s) (s1_PeerID s)
    (s1_LocalID s) (s1_PSK s) (s1_ConnName s) (s1_XAUTHEnabled s) (s1_XAUTHUser s) x (s1_ChildSAs s).
Definition set_s1_ChildSAs (s : IKEv1Session) (x : list IKEv1ChildSA) : IKEv1Session :=
  mkSess1 (s1_CookieI s) (s1_CookieR s) (s1_State s) (s1_EncAlg s) (s1_HashAlg s) (s1_AuthMethod s) (s1_DHGroupID s)
    (s1_KeyLength s) (s1_DHPrivKey s) (s1_DHPubKey s) (s1_PeerDHPubKey s) (s1_SharedSecret s) (s1_NonceI s)
    (s1_NonceR s) (s1_Keys s) (s1_PRF s) (s1_Encryptor s) (s1_CurrentIV s) (s1_PeerAddr s) (s1_PeerID s)
    (s1_LocalID s) (s1_PSK s) (s1_ConnName s) (s1_XAUTHEnabled s) (s1_XAUTHUser s) (s1_NextMsgID s) x.

(** [SPIPair] of both: the two arrays of eight bytes, one after the other. *)
Definition SPIPair2 (s : IKEv2Session) : bytes := s2_InitiatorSPI s ++ s2_ResponderSPI s.
Definition SPIPair1 (s : IKEv1Session) : bytes := s1_CookieI s ++ s1_CookieR s.

(** A responder session with given algorithms and keys, for the examples. *)
Definition demo_session (enc : IKEEncryptor) (integ : option hmacIntegrity) (keys : IKEv2KeyMaterial) : IKEv2Session :=
  mkSess2 [1;2;3;4;5;6;7;8] [8;7;6;5;4;3;2;1] false (Some (mkUDPAddr [192; 0; 2; 1] 500)) StateV2InitRecv 0 0 0 0 0
    [1; 1] [2; 2] [] [] [] [] (Some keys) (Some (mkPRF 5 EspCipher.Cipher.SHA256 32 32)) (Some enc) integ [3; 3] [4; 4] 0 [] [9] 1 [] []
    false false false 0 [] None 0 0 [] None None None None.

End Sess.
