(* ===== verification/IkeSK.v ===== *)
(** * IkeSK: the encrypted payload
      ([EncryptSKPayload], [DecryptSKPayload] of [internal/ike/ikev2_session.go],
       [decryptSKBody] of [internal/ike/fragment.go])

    The body of an SK or SKF payload is IV || ciphertext || ICV; the header of the
    message is the associated data.  A nil interface is [None], and calling a method
    on it panics ([deref]). *)

From S2P Require Import Prelude Wire EspCipher Rand IkePayload.
From S2P Require Import IkeV2 IkeCrypto IkeMessage IkeKeys.

Module SK.
Import Cipher Crypto Keys Msg.

(** The receiver of a method call. *)
Definition deref {A} (o : option A) : res A := match o with Some a => Ok a | None => Panic end.

Section sk.
Context {C : Crypto}.

(** How many zeros come before the pad length byte, for a cipher of blocks. *)
Definition pad_length (blockSize totalLen : Z) : Z :=
  if negb (totalLen mod blockSize =? 0) then blockSize - totalLen mod blockSize else 0.

Definition EncryptSKPayload (enc : option IKEEncryptor) (integ : option hmacIntegrity) (encKey integKey ikeMsgHeader : bytes)
    (payloads : list Payload) (r : rng) : res (Z * bytes * rng) :=
  '(plaintext, firstPT) ← MarshalPayloadChain payloads;
  enc ← deref enc;
  let '(iv, r) := rand_Read r (Z.to_nat (enc_IVSize enc)) in
  if enc_IsAEAD enc then
    let padLen := 0 in
    let padded := make (len plaintext + 1 + padLen) in
    padded ← copy_at padded 0 plaintext;
    padded ← set_at padded (len padded - 1) (u8 padLen);
    ciphertext ← Encrypt enc encKey iv padded ikeMsgHeader;
    skBody ← concat2 iv ciphertext;
    Ok (firstPT, skBody, r)
  else
    let blockSize := enc_BlockSize enc in
    let totalLen := len plaintext + 1 in
    let padLen := pad_length blockSize totalLen in
    let padded := make (len plaintext + padLen + 1) in
    padded ← copy_at padded 0 plaintext;
    padded ← set_at padded (len padded - 1) (u8 padLen);
    ciphertext ← Encrypt enc encKey iv padded [];
    match integ with
    | None => Err "non-AEAD cipher requires integrity algorithm"
    | Some integ =>
      macInput ← concat3 ikeMsgHeader iv ciphertext;
      icv ← Integ_Compute integ integKey macInput;
      skBody ← concat3 iv ciphertext icv;
      Ok (firstPT, skBody, r)
    end.

(** The last byte is the pad length. *)
Definition strip_padding (plaintext : bytes) : res bytes :=
  if len plaintext <? 1 then Err "decrypted SK payload empty"
  else
    padLen ← idx plaintext (len plaintext - 1);
    let payloadEnd := len plaintext - 1 - padLen in
    if payloadEnd <? 0 then Err "invalid SK padding"
    else slice plaintext 0 payloadEnd.

Definition DecryptSKPayload (enc : option IKEEncryptor) (integ : option hmacIntegrity) (encKey integKey ikeMsgHeader skBody : bytes)
    (firstInnerPayload : Z) : res PayloadChain :=
  enc ← deref enc;
  let ivSize := enc_IVSize enc in
  if len skBody <? ivSize + 1 then Err "SK payload too short"
  else
    iv ← slice skBody 0 ivSize;
    if enc_IsAEAD enc then
      ciphertext ← slice skBody ivSize (len skBody);
      plaintext ← Decrypt enc encKey iv ciphertext ikeMsgHeader;
      content ← strip_padding plaintext;
      ParsePayloadChain content firstInnerPayload true
    else
      match integ with
      | None => Err "non-AEAD cipher requires integrity algorithm"
      | Some integ =>
        let icvLen := in_OutputSize integ in
        if len skBody <? ivSize + icvLen + 1 then Err "SK payload too short for ICV"
        else
          ciphertext ← slice skBody ivSize (len skBody - icvLen);
          receivedICV ← slice skBody (len skBody - icvLen) (len skBody);
          macInput ← concat3 ikeMsgHeader iv ciphertext;
          ok ← Integ_Verify integ integKey macInput receivedICV;
          if negb ok then Err "SK integrity check failed"
          else
            plaintext ← Decrypt enc encKey iv ciphertext [];
            content ← strip_padding plaintext;
            ParsePayloadChain content firstInnerPayload true
      end.

(** [for i := range receivedICV]: every byte compared, the first difference an error. *)
Fixpoint icv_loop (receivedICV expectedICV : bytes) (i : Z) : res unit :=
  match receivedICV with
  | [] => Ok tt
  | b :: l =>
    e ← idx expectedICV i;
    if negb (b =? e) then Err "ICV verification failed" else icv_loop l expectedICV (i + 1)
  end.

Definition decryptSKBody (enc : option IKEEncryptor) (integ : option hmacIntegrity) (encKey integKey aad skBody : bytes) : res bytes :=
  enc ← deref enc;
  let ivSize := enc_IVSize enc in
  if len skBody <? ivSize + 1 then Err "SK body too short"
  else
    iv ← slice skBody 0 ivSize;
    encrypted ← slice skBody ivSize (len skBody);
    if enc_IsAEAD enc then
      plaintext ← Decrypt enc encKey iv encrypted aad;
      strip_padding plaintext
    else
      match integ with
      | None => Err "non-AEAD requires integrity algorithm"
      | Some integ =>
        let icvLen := in_OutputSize integ in
        if len encrypted <? icvLen + 1 then Err "ciphertext too short for ICV"
        else
          ciphertext ← slice encrypted 0 (len encrypted - icvLen);
          receivedICV ← slice encrypted (len encrypted - icvLen) (len encrypted);
          macInput ← concat3 aad iv ciphertext;
          expectedICV ← Integ_Compute integ integKey macInput;
          if negb (len receivedICV =? len expectedICV) then Err "ICV length mismatch"
          else
            _ ← icv_loop receivedICV expectedICV 0;
            plaintext ← Decrypt enc encKey iv ciphertext [];
            strip_padding plaintext
      end.

End sk.

(** ** The same result, whatever the words of the error *)

Definition same_outcome {A} (x y : res A) : Prop :=
  match x, y with
  | Ok a, Ok b => a = b
  | Err _, Err _ => True
  | Panic, Panic => True
  | _, _ => False
  end.

#[global] Instance same_outcome_equiv {A} : Equivalence (@same_outcome A).
Proof.
  split; [by intros []|by intros [] []|].
  intros [a| |] [b| |] [c| |]; cbn; by try (intros -> ->).
Qed.

#[global] Instance bind_same_outcome {A B} :
  Proper (pointwise_relation A same_outcome ==> same_outcome ==> same_outcome) (@mbind res _ A B).
Proof. intros f g Hfg [a|e|] [b|e'|]; cbn; try done. intros ->. apply Hfg. Qed.

Lemma icv_loop_eq l e pre :
  len l = len e -> icv_loop l (pre ++ e) (len pre) = if bool_decide (l = e) then Ok tt else Err "ICV verification failed".
Proof.
  revert e pre. induction l as [|b l IH]; intros [|x e] pre Hl; try (unfold len in Hl; cbn in Hl; lia).
  - by rewrite bool_decide_eq_true_2.
  - cbn [icv_loop]. rewrite idx_mid, bind_Ok by done. destruct (Z.eqb_spec b x) as [->|Hne]; cbn [negb].
    + replace (pre ++ x :: e) with ((pre ++ [x]) ++ e) by (by rewrite <- app_assoc).
      replace (len pre + 1) with (len (pre ++ [x])) by (len_norm; lia). rewrite !len_cons in Hl. rewrite IH by lia.
      apply f_equal2 with (f := fun (b : bool) (z : res unit) => if b then Ok tt else z); [|done].
      apply bool_decide_ext. naive_solver.
    + by rewrite bool_decide_eq_false_2 by naive_solver.
Qed.

Section laws.
Context {C : Crypto} {CL : CryptoLaws C}.

(** ** Both functions open the same bodies *)

Lemma enc_IVSize_nonneg e : 0 <= enc_IVSize e.
Proof. by destruct e. Qed.

Lemma sub_tail {A} (l : list A) a : sub l a (len l) = drop (Z.to_nat a) l.
Proof. unfold sub. apply take_ge. rewrite length_drop. unfold len. lia. Qed.

Lemma slice_slice {A} (l : list A) a b c :
  0 <= a -> 0 <= b <= c -> a + c <= len l -> slice (sub l a (len l)) b c = slice l (a + b) (a + c).
Proof.
  intros. rewrite !slice_ok by (rewrite ?len_sub; lia). rewrite sub_tail. unfold sub. rewrite drop_drop. f_equal.
  f_equal; [lia|]. f_equal. lia.
Qed.

Lemma Integ_Verify_ok i key d icv :
  integ_ok i -> exists x, Integ_Compute i key d = Ok x /\ len x = in_OutputSize i /\
    Integ_Verify i key d icv = Ok (bool_decide (x = icv)).
Proof.
  intros Hi. destruct (Integ_Compute_ok i key d Hi) as (x & E & Hl). exists x. split_and!; try done.
  unfold Integ_Verify. by rewrite E, bind_Ok.
Qed.

Lemma DecryptSKPayload_sound enc integ encKey integKey h body first :
  (forall e, enc = Some e -> enc_IsAEAD e = true \/ forall i, integ = Some i -> integ_ok i) ->
  same_outcome (DecryptSKPayload enc integ encKey integKey h body first)
    (content ← decryptSKBody enc integ encKey integKey h body; ParsePayloadChain content first true).
Proof.
  intros Hi. unfold DecryptSKPayload, decryptSKBody. destruct enc as [enc|]; [|done]. cbn [deref]. rewrite !bind_Ok.
  pose proof (enc_IVSize_nonneg enc) as Hv. destruct (Z.ltb_spec (len body) (enc_IVSize enc + 1)); [done|].
  rewrite !(slice_ok body) by lia. rewrite !bind_Ok. specialize (Hi enc eq_refl).
  destruct (enc_IsAEAD enc); [by rewrite !bind_assoc|].
  destruct integ as [i|]; [|done]. destruct Hi as [?|Hi]; [done|]. specialize (Hi i eq_refl) as Hio. unfold integ_ok in Hio.
  rewrite len_sub by lia. destruct (Z.ltb_spec (len body) (enc_IVSize enc + in_OutputSize i + 1)) as [Hl|Hl].
  { rewrite (proj2 (Z.ltb_lt _ _)) by lia. done. }
  rewrite (proj2 (Z.ltb_ge _ _)) by lia. rewrite !slice_slice by lia. rewrite Z.add_0_r.
  replace (enc_IVSize enc + (len body - enc_IVSize enc - in_OutputSize i)) with (len body - in_OutputSize i) by lia.
  replace (enc_IVSize enc + (len body - enc_IVSize enc)) with (len body) by lia.
  rewrite !slice_ok by lia. rewrite !bind_Ok, !concat3_ok, !bind_Ok.
  set (icv := sub body (len body - in_OutputSize i) (len body)).
  assert (len icv = in_OutputSize i) as Hlen by (unfold icv; rewrite len_sub by lia; lia).
  match goal with |- context [Integ_Verify i integKey ?d icv] => destruct (Integ_Verify_ok i integKey d icv Hio) as (x & E & Hx & ->) end.
  rewrite E, !bind_Ok, Hlen, Hx, Z.eqb_refl. cbn [negb]. pose proof (icv_loop_eq icv x [] ltac:(lia)) as Hloop.
  cbn [app] in Hloop. rewrite (@len_nil Z) in Hloop. rewrite Hloop. clear Hloop.
  destruct (decide (icv = x)) as [->|Hne].
  - rewrite !bool_decide_eq_true_2 by done. cbn [negb]. by rewrite bind_Ok, !bind_assoc.
  - rewrite !bool_decide_eq_false_2 by congruence. done.
Qed.

(** C39: [DecryptSKPayload] is [decryptSKBody] and the parser of chains, up to the wording of
    the errors: the two copies of the code accept the same bodies. *)
Theorem DecryptSKPayload_decryptSKBody enc integ encKey integKey h body first :
  (forall i, integ = Some i -> integ_ok i) ->
  same_outcome (DecryptSKPayload enc integ encKey integKey h body first)
    (content ← decryptSKBody enc integ encKey integKey h body; ParsePayloadChain content first true).
Proof. intros Hi. apply DecryptSKPayload_sound. by right. Qed.

(** ** What is sealed opens *)

Definition sk_keys_ok (enc : IKEEncryptor) (integ : option hmacIntegrity) (encKey : bytes) : Prop :=
  enc_key_ok enc encKey /\ (enc_IsAEAD enc = false -> exists i, integ = Some i /\ integ_ok i).

(** The body that carries the content [p] under header [h]. *)
Definition sealed (enc : IKEEncryptor) (integ : option hmacIntegrity) (encKey integKey h p body : bytes) : Prop :=
  exists iv n c, len iv = enc_IVSize enc /\ bytes_wf iv /\ 0 <= n <= 255 /\
    Encrypt enc encKey iv (p ++ make n ++ [n]) (if enc_IsAEAD enc then h else []) = Ok c /\
    if enc_IsAEAD enc then body = iv ++ c
    else exists i icv, integ = Some i /\ Integ_Compute i integKey (h ++ iv ++ c) = Ok icv /\ body = iv ++ c ++ icv.

Lemma strip_padding_ok p n : 0 <= n -> strip_padding (p ++ make n ++ [n]) = Ok p.
Proof.
  intros Hn. pose proof (len_nonneg p). unfold strip_padding. rewrite (proj2 (Z.ltb_ge _ 1)) by (len_norm; lia).
  rewrite app_assoc, idx_mid, bind_Ok by (len_norm; lia). rewrite (proj2 (Z.ltb_ge _ 0)) by (len_norm; lia).
  rewrite <- app_assoc. apply slice_prefix; [done|len_norm; lia].
Qed.

Lemma Encrypt_ok enc key iv p aad :
  enc_key_ok enc key -> len iv = enc_IVSize enc -> bytes_wf iv -> bytes_wf p ->
  exists c, Encrypt enc key iv p aad = Ok c /\ Decrypt enc key iv c aad = Ok p /\ len p <= len c.
Proof.
  intros Hk Hiv Hwi Hwp. destruct enc as [i k|i k]; cbn [Encrypt Decrypt enc_key_ok enc_IVSize] in *.
  - destruct (cbc_roundtrip key iv p) as (c & ? & ? & Hl); [done..|]. exists c. pose proof (len_pkcs7 p). split_and!; [done..|lia].
  - destruct Hk as [Hks Hk]. destruct (gcm_roundtrip k key iv p aad) as (c & ? & ? & Hl); [done..|]. exists c.
    pose proof (Overhead_nonneg (NewGCM (sub key 0 k))). split_and!; [done..|lia].
Qed.

Lemma padded_wf p n : bytes_wf p -> 0 <= n <= 255 -> bytes_wf (p ++ make n ++ [n]).
Proof. intros. apply Forall_app_2; [done|]. apply Forall_app_2; [apply make_wf|]. apply Forall_singleton. unfold is_u8. lia. Qed.

Lemma open_sealed enc integ encKey integKey h p body :
  sk_keys_ok enc integ encKey -> bytes_wf p -> sealed enc integ encKey integKey h p body ->
  decryptSKBody (Some enc) integ encKey integKey h body = Ok p.
Proof.
  intros [Hk Hint] Hp (iv & n & c & Hiv & Hwi & Hn & He & Hb). pose proof (padded_wf p n Hp Hn) as Hwf.
  destruct (Encrypt_ok enc encKey iv _ (if enc_IsAEAD enc then h else []) Hk Hiv Hwi Hwf) as (c' & E & Hd & Hl).
  rewrite He in E. injection E as <-. pose proof (len_nonneg p). pose proof (enc_IVSize_nonneg enc).
  assert (len p + n + 1 <= len c) as Hc by (len_norm; lia). clear Hl.
  unfold decryptSKBody. cbn [deref]. rewrite bind_Ok. destruct (enc_IsAEAD enc).
  - subst body. rewrite (proj2 (Z.ltb_ge _ _)) by (len_norm; lia). cut. cut. rewrite Hd, bind_Ok. apply strip_padding_ok. lia.
  - destruct Hb as (i & icv & -> & Hicv & ->). destruct (Hint eq_refl) as (i' & [= <-] & Hi).
    destruct (Integ_Compute_ok i integKey (h ++ iv ++ c) Hi) as (x & E & Hlen). rewrite Hicv in E. injection E as <-.
    pose proof (len_nonneg icv). rewrite (proj2 (Z.ltb_ge _ _)) by (len_norm; lia).
    cut. cut. rewrite (proj2 (Z.ltb_ge _ _)) by (len_norm; lia). cut. cut. rewrite concat3_ok, bind_Ok, Hicv, bind_Ok, Z.eqb_refl.
    cbn [negb]. pose proof (icv_loop_eq icv icv [] eq_refl) as Hloop. cbn [app] in Hloop. rewrite (@len_nil Z) in Hloop.
    rewrite Hloop, bool_decide_eq_true_2, bind_Ok, Hd, bind_Ok by done. apply strip_padding_ok. lia.
Qed.

Lemma pad_length_range b t : 0 < b <= 256 -> 0 <= pad_length b t <= 255.
Proof. intros. unfold pad_length. pose proof (Z.mod_pos_bound t b). case_match; lia. Qed.

Lemma enc_BlockSize_range e : 0 < enc_BlockSize e <= 256.
Proof. by destruct e. Qed.

(** The buffer of the padded plaintext. *)
Lemma pad_ok {A} (p : bytes) m n (K : bytes -> res A) :
  0 <= n <= 255 -> m = len p + n + 1 ->
  (padded ← copy_at (make m) 0 p; padded ← set_at padded (len padded - 1) (u8 n); K padded) = K (p ++ make n ++ [n]).
Proof.
  intros Hn ->. pose proof (len_nonneg p). rewrite (fill_start (len p + n + 1)). fill_step.
  replace (len p + n + 1 - len p) with (n + 1) by lia. rewrite make_app, app_assoc by lia.
  eapply bind_step; [apply set_mid; len_norm; lia|]. rewrite u8_id by (unfold is_u8; lia). by rewrite app_nil_l, <- app_assoc.
Qed.

(** The encrypted payload carries the chain it is built from. *)
Lemma EncryptSKPayload_sealed enc integ encKey integKey h l r :
  sk_keys_ok enc integ encKey -> rng_ok r -> Forall (content_ok true) l ->
  exists body r', EncryptSKPayload (Some enc) integ encKey integKey h l r = Ok (first_type l, body, r') /\
    rng_ok r' /\ sealed enc integ encKey integKey h (chain_bytes l) body.
Proof.
  intros [Hk Hint] Hr Hl. pose proof (chain_bytes_wf l Hl) as Hw. unfold EncryptSKPayload. rewrite (MarshalPayloadChain_bytes true), bind_Ok by done. cbv beta iota.
  cbn [deref]. rewrite bind_Ok. destruct (rand_Read r (Z.to_nat (enc_IVSize enc))) as [iv r'] eqn:Er.
  destruct (rand_Read_ok _ _ _ _ Hr Er) as (Hiv & Hwi & Hr'). pose proof (enc_IVSize_nonneg enc).
  assert (len iv = enc_IVSize enc) as Hlv by (unfold len; lia). cbv zeta.
  destruct (enc_IsAEAD enc) eqn:Ea.
  - rewrite pad_ok by lia. destruct (Encrypt_ok enc encKey iv (chain_bytes l ++ make 0 ++ [0]) h) as (c & E & _); [done..|by apply padded_wf|].
    rewrite E, bind_Ok, concat2_ok, bind_Ok. eexists _, _. split; [done|]. split; [done|]. exists iv, 0, c. by rewrite Ea.
  - pose proof (pad_length_range (enc_BlockSize enc) (len (chain_bytes l) + 1) (enc_BlockSize_range enc)) as Hn.
    set (n := pad_length _ _) in *. rewrite pad_ok by lia.
    destruct (Encrypt_ok enc encKey iv (chain_bytes l ++ make n ++ [n]) []) as (c & E & _); [done..|by apply padded_wf|].
    destruct (Hint eq_refl) as (i & -> & Hi). rewrite E, bind_Ok, concat3_ok, bind_Ok.
    destruct (Integ_Compute_ok i integKey (h ++ iv ++ c) Hi) as (icv & Ei & _). rewrite Ei, bind_Ok, concat3_ok, bind_Ok.
    eexists _, _. split; [done|]. split; [done|]. exists iv, n, c. rewrite Ea. split_and!; try done; try lia. by exists i, icv.
Qed.

(** What is sealed is parsed, whatever type the first payload is said to have. *)
Lemma open_chain enc integ encKey integKey h p body first chain :
  sk_keys_ok enc integ encKey -> bytes_wf p -> sealed enc integ encKey integKey h p body ->
  ParsePayloadChain p first true = Ok chain -> DecryptSKPayload (Some enc) integ encKey integKey h body first = Ok chain.
Proof.
  intros Hk Hp Hs Hc. pose proof (open_sealed enc integ encKey integKey h p body Hk Hp Hs) as Ho.
  assert (enc_IsAEAD enc = true \/ forall i, integ = Some i -> integ_ok i) as Hi.
  { destruct (enc_IsAEAD enc) eqn:Ea; [by left|right]. destruct (proj2 Hk Ea) as (i & -> & Hi). by intros ? [= <-]. }
  assert (same_outcome (DecryptSKPayload (Some enc) integ encKey integKey h body first) (Ok chain)) as Hd.
  { transitivity (content ← decryptSKBody (Some enc) integ encKey integKey h body; ParsePayloadChain content first true).
    - apply DecryptSKPayload_sound. by intros ? [= <-].
    - by rewrite Ho, bind_Ok, Hc. }
  destruct (DecryptSKPayload _ _ _ _ _ _ _); [by cbn in Hd; subst|done|done].
Qed.

Lemma ParsePayloadChain_bytes l : Forall (payload_ok true) l -> ParsePayloadChain (chain_bytes l) (first_type l) true = Ok (parsed_chain l).
Proof.
  intros Hl. unfold ParsePayloadChain. pose proof (chain_bytes_length l).
  rewrite <- (app_nil_l (chain_bytes l)) at 2. apply (parse_chain_bytes true l Hl); [done|lia].
Qed.

Lemma payloads_content l : Forall (payload_ok true) l -> Forall (content_ok true) l.
Proof. intros H. eapply Forall_impl; [exact H|by intros ? []]. Qed.

(** C10: The encrypted payload delivers the chain: what one side encrypts under a header, the
    other decrypts and parses to the same payloads, for every cipher of IKE. *)
Theorem SK_roundtrip enc integ encKey integKey h l r :
  sk_keys_ok enc integ encKey -> rng_ok r -> Forall (payload_ok true) l ->
  exists body r', EncryptSKPayload (Some enc) integ encKey integKey h l r = Ok (first_type l, body, r') /\
    exists chain, DecryptSKPayload (Some enc) integ encKey integKey h body (first_type l) = Ok chain /\
      pp_Payload <$> chain = l.
Proof.
  intros Hk Hr Hl. pose proof (payloads_content l Hl) as Hc.
  destruct (EncryptSKPayload_sealed enc integ encKey integKey h l r Hk Hr Hc) as (body & r' & E & _ & Hs).
  exists body, r'. split; [done|]. exists (parsed_chain l). split; [|apply parsed_chain_payloads].
  by eapply open_chain; [|apply chain_bytes_wf| |apply ParsePayloadChain_bytes].
Qed.

(** The check value: the first bytes of the HMAC of the header, the IV and the ciphertext. *)
Definition icv_of (i : hmacIntegrity) (integKey h iv c : bytes) : bytes :=
  take (Z.to_nat (in_OutputSize i)) (hmac (in_hashFunc i) integKey (h ++ iv ++ c)).

Lemma Integ_Compute_icv i integKey h iv c : integ_ok i ->
  Integ_Compute i integKey (h ++ iv ++ c) = Ok (icv_of i integKey h iv c) /\ len (icv_of i integKey h iv c) = in_OutputSize i.
Proof.
  intros Hi. destruct (Integ_Compute_ok i integKey (h ++ iv ++ c) Hi) as (x & E & Hx). rewrite E. revert E. unfold Integ_Compute, icv_of.
  intros (_ & _ & Ex)%slice_inv. unfold sub in Ex. rewrite Z.sub_0_r in Ex. change (drop (Z.to_nat 0) ?l) with l in Ex. by rewrite <- Ex.
Qed.

(** C36: The ciphers that are not AEAD are opened after the check, not before.  A body with an IV, a
    ciphertext and a check value of the right sizes is decrypted, and its padding looked at,
    exactly when the check value is the first bytes of the HMAC of the header, the IV and the
    ciphertext; with any other check value the result is one and the same error, whatever
    the ciphertext is and whatever it would decrypt to, and a body that is too short for the
    three is an error by its length alone.  That holds of both copies of the code.  Of the
    AEAD ciphers, whose check is inside the cipher, nothing is said here. *)
Theorem SK_authentic enc i encKey integKey h first :
  enc_IsAEAD enc = false -> integ_ok i ->
  (forall iv c icv, len iv = enc_IVSize enc -> c <> [] -> len icv = in_OutputSize i ->
    let opened := decryptSKBody (Some enc) (Some i) encKey integKey h (iv ++ c ++ icv) in
    let parsed := DecryptSKPayload (Some enc) (Some i) encKey integKey h (iv ++ c ++ icv) first in
    (icv = icv_of i integKey h iv c ->
      opened = (plaintext ← Decrypt enc encKey iv c []; strip_padding plaintext) /\
      parsed = (plaintext ← Decrypt enc encKey iv c []; content ← strip_padding plaintext; ParsePayloadChain content first true)) /\
    (icv <> icv_of i integKey h iv c -> opened = Err "ICV verification failed" /\ parsed = Err "SK integrity check failed")) /\
  (forall body, len body <= enc_IVSize enc + in_OutputSize i ->
    let none := len body <=? enc_IVSize enc in
    decryptSKBody (Some enc) (Some i) encKey integKey h body = Err (if none then "SK body too short" else "ciphertext too short for ICV") /\
    DecryptSKPayload (Some enc) (Some i) encKey integKey h body first = Err (if none then "SK payload too short" else "SK payload too short for ICV")).
Proof.
  intros Ha Hi. assert (0 < in_OutputSize i) as Ho by apply Hi. pose proof (enc_IVSize_nonneg enc) as Hv. split.
  - intros iv c icv Hiv Hc Hl. cbv zeta. destruct (Integ_Compute_icv i integKey h iv c Hi) as [Ei Li]. set (x := icv_of i integKey h iv c) in *.
    assert (0 < len c) as Lc by (destruct c; [done|len_norm; pose proof (len_nonneg c); lia]). unfold decryptSKBody, DecryptSKPayload, Integ_Verify.
    cbn [deref]. rewrite !bind_Ok, Ha. rewrite !len_app, <- Hiv, <- Hl. rewrite !(proj2 (Z.ltb_ge _ _)) by lia.
    rewrite (slice_head iv (c ++ icv)), (slice_tail iv (c ++ icv)), !bind_Ok by (rewrite ?len_app; lia).
    rewrite (slice_mid iv c icv (len iv)), (app_assoc iv c icv), (slice_tail (iv ++ c) icv), !bind_Ok by (rewrite ?len_app; lia).
    rewrite len_app, !(proj2 (Z.ltb_ge _ _)) by lia. rewrite (slice_head c icv), (slice_tail c icv), !bind_Ok by (rewrite ?len_app; lia).
    rewrite !concat3_ok, !bind_Ok, Ei, !bind_Ok. rewrite (proj2 (Z.eqb_eq _ _)) by lia. cbn [negb].
    pose proof (icv_loop_eq icv x [] ltac:(lia)) as Hloop. cbn [app] in Hloop. rewrite (@len_nil Z) in Hloop. rewrite Hloop. clear Hloop. split.
    + intros ->. by rewrite !bool_decide_eq_true_2.
    + intros Hne. by rewrite !bool_decide_eq_false_2 by congruence.
  - intros body Hl. cbv zeta. unfold decryptSKBody, DecryptSKPayload. cbn [deref]. rewrite !bind_Ok, Ha.
    destruct (Z.leb_spec (len body) (enc_IVSize enc)); [by rewrite (proj2 (Z.ltb_lt _ _)) by lia|].
    pose proof (len_nonneg body). rewrite (proj2 (Z.ltb_ge _ _)), !(slice_ok body), !bind_Ok by lia. rewrite len_sub by lia. by rewrite !(proj2 (Z.ltb_lt _ _)) by lia.
Qed.

End laws.

(** ** Concrete keys *)

Import Toy.

Definition ex_enc : IKEEncryptor := aesCBCEncryptor 12 32.
Definition ex_integ : hmacIntegrity := mkIkeInteg 12 SHA256 32 16.
Definition ex_key : bytes := replicate 32 7.

Lemma SK_roundtrip_witness :
  exists body r', EncryptSKPayload (Some ex_enc) (Some ex_integ) ex_key ex_key [1; 2] ex_init demo_rng = Ok (33, body, r') /\
    exists chain, DecryptSKPayload (Some ex_enc) (Some ex_integ) ex_key ex_key [1; 2] body 33 = Ok chain /\
      pp_Payload <$> chain = ex_init.
Proof.
  apply (SK_roundtrip ex_enc (Some ex_integ) ex_key ex_key [1; 2] ex_init demo_rng).
  - split; [by right; right|]. intros _. by exists ex_integ.
  - exact demo_rng_ok.
  - exact ex_init_ok.
Defined.

(** An encrypted nonce payload. *)
Definition ex_body : bytes :=
  match EncryptSKPayload (Some ex_enc) (Some ex_integ) ex_key ex_key [1; 2] [PNonce (V2.mkNonce [4; 5])] demo_rng with
  | Ok (_, b, _) => b | _ => []
  end.

(** The equivalence, on a body that both copies open, and on one that both refuse. *)
Lemma DecryptSKPayload_decryptSKBody_witness :
  (exists chain, DecryptSKPayload (Some ex_enc) (Some ex_integ) ex_key ex_key [1; 2] ex_body 40 = Ok chain /\ pp_Payload <$> chain = [PNonce (V2.mkNonce [4; 5])]) /\
  same_outcome (DecryptSKPayload (Some ex_enc) (Some ex_integ) ex_key ex_key [1; 2] (make 64) 40)
    (content ← decryptSKBody (Some ex_enc) (Some ex_integ) ex_key ex_key [1; 2] (make 64); ParsePayloadChain content 40 true).
Proof.
  assert (forall i, Some ex_integ = Some i -> integ_ok i) as Hi by (intros ? [= <-]; split; [reflexivity|discriminate]).
  split; [|exact (DecryptSKPayload_decryptSKBody _ _ _ _ _ (make 64) _ Hi)].
  pose proof (DecryptSKPayload_decryptSKBody (Some ex_enc) (Some ex_integ) ex_key ex_key [1; 2] ex_body 40 Hi) as H. revert H.
  assert (exists chain, (content ← decryptSKBody (Some ex_enc) (Some ex_integ) ex_key ex_key [1; 2] ex_body; ParsePayloadChain content 40 true) = Ok chain /\
    pp_Payload <$> chain = [PNonce (V2.mkNonce [4; 5])]) as (chain & -> & Hc) by (eexists; split; vm_compute; reflexivity).
  destruct (DecryptSKPayload _ _ _ _ _ _ _) as [x| |]; [|done..]. cbn. intros ->. by exists chain.
Defined.

(** The body of the example with its last byte changed is refused; as it is, it is opened. *)
Lemma SK_authentic_witness :
  let n := (length ex_body - 16)%nat in
  decryptSKBody (Some ex_enc) (Some ex_integ) ex_key ex_key [1; 2] ex_body = Ok [0; 0; 0; 6; 4; 5] /\
  decryptSKBody (Some ex_enc) (Some ex_integ) ex_key ex_key [1; 2] (take 16 ex_body ++ drop 16 (take n ex_body) ++ replicate 16 0) = Err "ICV verification failed" /\
  decryptSKBody (Some ex_enc) (Some ex_integ) ex_key ex_key [1; 2] (make 20) = Err "ciphertext too short for ICV".
Proof.
  cbv zeta. destruct (SK_authentic ex_enc ex_integ ex_key ex_key [1; 2] 33 eq_refl ltac:(split; [reflexivity|discriminate])) as [H1 H2].
  split; [|split].
  - destruct (H1 (take 16 ex_body) (drop 16 (take (length ex_body - 16) ex_body)) (drop (length ex_body - 16) ex_body)) as [H _];
      [vm_compute; reflexivity|vm_compute; discriminate|vm_compute; reflexivity|].
    destruct H as [H _]; [vm_compute; reflexivity|]. etransitivity; [|etransitivity; [exact H|vm_compute; reflexivity]]. vm_compute. reflexivity.
  - destruct (H1 (take 16 ex_body) (drop 16 (take (length ex_body - 16) ex_body)) (replicate 16 0)) as [_ H];
      [vm_compute; reflexivity|vm_compute; discriminate|reflexivity|].
    apply H. vm_compute. discriminate.
  - apply H2. vm_compute. discriminate.
Defined.

End SK.
