(* ===== verification/IkeFragment.v ===== *)
(** * IkeFragment: fragmentation of IKEv2 messages ([internal/ike/fragment.go])

    The fragments of a message are decrypted one by one and collected in a cache per
    SPI pair and message ID ([FragmentManager]); a long answer is cut into fragments
    that are encrypted on their own ([FragmentSKPayload]).  A cache, which the manager
    holds by pointer, is the value under its key. *)

From stdpp Require Import gmap.
From S2P Require Import Prelude Wire EspCipher Rand IkeHeader IkePayload IkeV2.
From S2P Require Import IkeCrypto IkeMessage IkeKeys IkeSession IkeSK.

Module Frag.
Import Cipher Crypto Keys Sess SK Msg Hdr Pl.

(** ** The cache of one message *)

Record FragmentCache := mkCache { fc_msgID : Z; fc_total : Z; fc_fragments : gmap Z bytes }.

Definition NewFragmentCache (msgID : Z) : FragmentCache := mkCache msgID 0 ∅.

(** [uint16(len(fc.fragments)) == fc.total] *)
Definition is_complete (fc : FragmentCache) : bool := u16 (Z.of_nat (size (fc_fragments fc))) =? fc_total fc.

Definition AddFragment (fc : FragmentCache) (fragNum totalFrags : Z) (plaintext : bytes) : res (FragmentCache * bool) :=
  if (fragNum =? 0) || (totalFrags =? 0) then Err "invalid fragment numbers"
  else if fragNum >? totalFrags then Err "fragment number exceeds total"
  else if negb (fc_total fc =? 0) && negb (fc_total fc =? totalFrags) then Err "total fragments changed"
  else
    let fc := mkCache (fc_msgID fc) totalFrags (<[fragNum := plaintext]> (fc_fragments fc)) in
    Ok (fc, is_complete fc).

(** The two loops [for i := uint16(1); i <= fc.total; i++]; the counter wraps, so at most
    [total + 1] passes are made before the lookup of fragment 0 fails. *)
Fixpoint measure_loop (fuel : nat) (fragments : gmap Z bytes) (total i totalLen : Z) : res Z :=
  if i <=? total then
    match fuel with
    | O => Panic
    | S fuel =>
      match fragments !! i with
      | None => Err "missing fragment"
      | Some chunk => measure_loop fuel fragments total (u16 (i + 1)) (totalLen + len chunk)
      end
    end
  else Ok totalLen.

Fixpoint append_loop (fuel : nat) (fragments : gmap Z bytes) (total i : Z) (result : bytes) : res bytes :=
  if i <=? total then
    match fuel with
    | O => Panic
    | S fuel => append_loop fuel fragments total (u16 (i + 1)) (result ++ default [] (fragments !! i))
    end
  else Ok result.

(** [totalLen] is only the capacity of the result. *)
Definition Reassemble (fc : FragmentCache) : res bytes :=
  if (fc_total fc =? 0) || negb (is_complete fc) then Err "incomplete"
  else
    let fuel := S (Z.to_nat (fc_total fc)) in
    _ ← measure_loop fuel (fc_fragments fc) (fc_total fc) 1 0;
    append_loop fuel (fc_fragments fc) (fc_total fc) 1 [].

(** ** The manager *)

(** [fragmentKey] is the pair of the SPI pair and the message ID. *)
Abbreviation FragmentManager := (gmap (bytes * Z) FragmentCache).

Definition NewFragmentManager : FragmentManager := ∅.

Definition GetOrCreate (fm : FragmentManager) (spiPair : bytes) (msgID : Z) : FragmentManager * FragmentCache :=
  match fm !! (spiPair, msgID) with
  | Some cache => (fm, cache)
  | None => let cache := NewFragmentCache msgID in (<[(spiPair, msgID) := cache]> fm, cache)
  end.

Definition Remove (fm : FragmentManager) (spiPair : bytes) (msgID : Z) : FragmentManager := delete (spiPair, msgID) fm.

(** ** Outbound fragments *)

Definition DefaultFragmentMTU : Z := 1200.

(** The loop that cuts the plaintext. *)
Fixpoint split_chunks (fuel : nat) (plaintext : bytes) (maxPlainPerFrag offset : Z) : res (list bytes) :=
  if offset <? len plaintext then
    match fuel with
    | O => Panic
    | S fuel =>
      let e := offset + maxPlainPerFrag in
      let e := if e >? len plaintext then len plaintext else e in
      c ← slice plaintext offset e;
      l ← split_chunks fuel plaintext maxPlainPerFrag (offset + maxPlainPerFrag);
      Ok (c :: l)
    end
  else Ok [].

Section fragments.
Context {C : Crypto}.

(** The header under which a fragment is encrypted. *)
Definition temp_header (sess : IKEv2Session) (exchangeType flags msgID : Z) : Header :=
  mkHeader (s2_InitiatorSPI sess) (s2_ResponderSPI sess) PayloadSKF IKEv2Major 0 exchangeType flags msgID 0.

(** The body of the loop over the chunks. *)
Definition fragment_chunk (sess : IKEv2Session) (encKey integKey : bytes) (exchangeType : Z) (isResponse : bool) (msgID firstPT totalFrags i : Z)
    (chunk : bytes) (r : rng) : res (Message * rng) :=
  let fragNum := u16 (i + 1) in
  enc ← deref (s2_Encryptor sess);
  let '(iv, r) := rand_Read r (Z.to_nat (enc_IVSize enc)) in
  let padLen := if negb (enc_IsAEAD enc) then pad_length (enc_BlockSize enc) (len chunk + 1) else 0 in
  let padded := make (len chunk + padLen + 1) in
  padded ← copy_at padded 0 chunk;
  padded ← set_at padded (len padded - 1) (u8 padLen);
  let flags := if negb isResponse then FlagInitiator else FlagResponse in
  hdrBuf ← Marshal (temp_header sess exchangeType flags msgID) (make HeaderLen);
  encryptedBody ← (if enc_IsAEAD enc then
      ciphertext ← Encrypt enc encKey iv padded hdrBuf;
      concat2 iv ciphertext
    else
      ciphertext ← Encrypt enc encKey iv padded [];
      macInput ← concat3 hdrBuf iv ciphertext;
      integ ← deref (s2_Integrity sess);
      icv ← Integ_Compute integ integKey macInput;
      concat3 iv ciphertext icv);
  let skf := V2.mkSKF fragNum totalFrags encryptedBody in
  let nextPT := if fragNum =? 1 then firstPT else PayloadNone in
  Ok (mkMessage
        (mkHeader (s2_InitiatorSPI sess) (s2_ResponderSPI sess) nextPT IKEv2Major 0 exchangeType flags msgID 0)
        [mkParsed (mkGPH PayloadNone false 0) (PSKF skf)] [], r).

Fixpoint fragment_loop (sess : IKEv2Session) (encKey integKey : bytes) (exchangeType : Z) (isResponse : bool) (msgID firstPT totalFrags i : Z)
    (chunks : list bytes) (r : rng) : res (list Message * rng) :=
  match chunks with
  | [] => Ok ([], r)
  | chunk :: chunks =>
    '(m, r) ← fragment_chunk sess encKey integKey exchangeType isResponse msgID firstPT totalFrags i chunk r;
    '(l, r) ← fragment_loop sess encKey integKey exchangeType isResponse msgID firstPT totalFrags (i + 1) chunks r;
    Ok (m :: l, r)
  end.

Definition FragmentSKPayload (sess : IKEv2Session) (exchangeType : Z) (isResponse : bool) (msgID : Z) (innerPayloads : list Payload)
    (maxFragSize : Z) (r : rng) : res (list Message * rng) :=
  let maxFragSize := if maxFragSize <=? 0 then DefaultFragmentMTU else maxFragSize in
  '(plaintext, firstPT) ← MarshalPayloadChain innerPayloads;
  enc ← deref (s2_Encryptor sess);
  let ivSize := enc_IVSize enc in
  let icvSize := if enc_IsAEAD enc then 16 else match s2_Integrity sess with Some i => in_OutputSize i | None => 0 end in
  let maxPlainPerFrag := maxFragSize - ivSize - icvSize - 1 in
  if maxPlainPerFrag <=? 0 then Err "fragment MTU too small"
  else
    chunks ← split_chunks (length plaintext) plaintext maxPlainPerFrag 0;
    let totalFrags := u16 (len chunks) in
    if len chunks >? 65535 then Err "too many fragments"
    else
      keys ← deref (s2_Keys sess);
      fragment_loop sess (SK_er keys) (SK_ar keys) exchangeType isResponse msgID firstPT totalFrags 0 chunks r.

(** ** Inbound fragments *)

(** The outcome of a call: the manager is updated on errors too. *)
Definition ReassembleFragment (fm : FragmentManager) (sess : IKEv2Session) (msg : Message) (skf : V2.SKFPayload)
    : res (FragmentManager * res (bytes * Z * bool)) :=
  let spiPair := SPIPair2 sess in
  let msgID := MessageID (msg_Header msg) in
  keys ← deref (s2_Keys sess);
  hdrBuf ← MarshalBinary (msg_Header msg);
  match decryptSKBody (s2_Encryptor sess) (s2_Integrity sess) (SK_ei keys) (SK_ai keys) hdrBuf (V2.skf_EncryptedData skf) with
  | Panic => Panic
  | Err _ => Ok (fm, Err "decrypting fragment")
  | Ok plainChunk =>
    let '(fm, cache) := GetOrCreate fm spiPair msgID in
    match AddFragment cache (V2.skf_FragmentNumber skf) (V2.skf_TotalFragments skf) plainChunk with
    | Panic => Panic
    | Err _ => Ok (fm, Err "adding fragment")
    | Ok (cache, complete) =>
      let fm := <[(spiPair, msgID) := cache]> fm in
      if negb complete then Ok (fm, Ok ([], 0, false))
      else
        match Reassemble cache with
        | Panic => Panic
        | Err _ => Ok (Remove fm spiPair msgID, Err "reassembly failed")
        | Ok reassembled =>
          let fm := Remove fm spiPair msgID in
          let firstPT := NextPayload (msg_Header msg) in
          let firstPT := if negb (V2.skf_FragmentNumber skf =? 1) then PayloadNone else firstPT in
          Ok (fm, Ok (reassembled, firstPT, true))
        end
    end
  end.

End fragments.

(** ** Reassembly in any order *)

(** The fragments numbered by [ks], with contents [f]. *)
Definition collected (f : Z -> bytes) (ks : list Z) : gmap Z bytes := list_to_map ((fun k => (k, f k)) <$> ks).

Lemma collected_cons f k ks : collected f (k :: ks) = <[k := f k]> (collected f ks).
Proof. reflexivity. Qed.

Lemma collected_lookup f ks k : collected f ks !! k = if decide (k ∈ ks) then Some (f k) else None.
Proof.
  induction ks as [|x ks IH]; [by rewrite decide_False by set_solver|]. rewrite collected_cons. destruct (decide (k = x)) as [->|Hne].
  - by rewrite lookup_insert_eq, decide_True by set_solver.
  - rewrite lookup_insert_ne, IH by done. repeat case_decide; set_solver.
Qed.

Lemma dom_collected f ks : dom (collected f ks) = (list_to_set ks : gset Z).
Proof. induction ks as [|x ks IH]; [done|]. rewrite collected_cons, dom_insert_L, IH. done. Qed.

(** Every number from 1 to [n]. *)
Definition covers (n : Z) (ks : list Z) : Prop := Forall (fun i => i ∈ ks) (seqZ 1 n).

#[global] Instance covers_dec n ks : Decision (covers n ks) := _.

Lemma covers_elem n ks i : covers n ks -> 1 <= i <= n -> i ∈ ks.
Proof. intros H Hi. unfold covers in H. rewrite Forall_forall in H. apply H, elem_of_seqZ. lia. Qed.

Lemma size_collected f ks n :
  0 <= n -> Forall (fun k => 1 <= k <= n) ks ->
  Z.of_nat (size (collected f ks)) <= n /\ (Z.of_nat (size (collected f ks)) = n <-> covers n ks).
Proof.
  intros Hn Hks. rewrite <- size_dom, dom_collected.
  assert (size (list_to_set (seqZ 1 n) : gset Z) = Z.to_nat n) as HR.
  { rewrite size_list_to_set by apply NoDup_seqZ. by rewrite length_seqZ. }
  assert ((list_to_set ks : gset Z) ⊆ list_to_set (seqZ 1 n)) as Hsub.
  { intros k Hk. rewrite elem_of_list_to_set in Hk. rewrite Forall_forall in Hks. specialize (Hks k Hk).
    apply elem_of_list_to_set, elem_of_seqZ. lia. }
  pose proof (subseteq_size _ _ Hsub). split; [lia|]. unfold covers. rewrite Forall_forall. split.
  - intros Hs i Hi. assert ((list_to_set ks : gset Z) ≡ list_to_set (seqZ 1 n)) as E by (apply set_subseteq_size_equiv; [done|lia]).
    apply (elem_of_list_to_set (C := gset Z)). rewrite E. by apply elem_of_list_to_set.
  - intros Hc. assert ((list_to_set (seqZ 1 n) : gset Z) ⊆ list_to_set ks) as Hsup.
    { intros i Hi. rewrite elem_of_list_to_set in Hi. apply elem_of_list_to_set. by apply Hc. }
    pose proof (subseteq_size _ _ Hsup). lia.
Qed.

(** The cache after the fragments [ks] of a message of [n]. *)
Definition cache_of (msgID n : Z) (f : Z -> bytes) (ks : list Z) : FragmentCache :=
  mkCache msgID (if ks is [] then 0 else n) (collected f ks).

Lemma is_complete_iff msgID n f ks :
  1 <= n < 65536 -> ks <> [] -> Forall (fun k => 1 <= k <= n) ks ->
  is_complete (cache_of msgID n f ks) = bool_decide (covers n ks).
Proof.
  intros Hn Hne Hks. unfold is_complete, cache_of. cbn [fc_fragments fc_total].
  destruct (size_collected f ks n ltac:(lia) Hks) as [Hle Hiff]. destruct ks as [|k ks]; [done|].
  rewrite u16_id by (unfold is_u16; lia). apply eq_true_iff_eq. by rewrite Z.eqb_eq, bool_decide_eq_true.
Qed.

Lemma AddFragment_ok msgID n f ks k :
  1 <= n < 65536 -> Forall (fun k => 1 <= k <= n) (k :: ks) ->
  AddFragment (cache_of msgID n f ks) k n (f k) = Ok (cache_of msgID n f (k :: ks), bool_decide (covers n (k :: ks))).
Proof.
  intros Hn Hks. pose proof (proj1 (proj1 (Forall_cons _ _ _) Hks)) as Hk. unfold AddFragment.
  rewrite (proj2 (Z.eqb_neq k 0)), (proj2 (Z.eqb_neq n 0)), gtb_false by lia. cbn [orb].
  assert (negb (fc_total (cache_of msgID n f ks) =? 0) && negb (fc_total (cache_of msgID n f ks) =? n) = false) as ->.
  { unfold cache_of. cbn [fc_total]. destruct ks; [done|]. by rewrite Z.eqb_refl, andb_false_r. }
  rewrite <- (is_complete_iff msgID n f (k :: ks)) by done. reflexivity.
Qed.

Lemma append_loop_ok n f fr : n < 65535 -> (forall i, 1 <= i <= n -> fr !! i = Some (f i)) ->
  forall fuel i acc, 1 <= i <= n + 1 -> n + 1 - i <= Z.of_nat fuel ->
  append_loop fuel fr n i acc = Ok (acc ++ concat (f <$> seqZ i (n + 1 - i))).
Proof.
  intros Hn Hf. induction fuel as [|fuel IH]; intros i acc Hi Hfu; cbn [append_loop].
  - rewrite (proj2 (Z.leb_gt _ _)) by lia. replace (n + 1 - i) with 0 by lia. by rewrite app_nil_r.
  - destruct (Z.leb_spec i n) as [Hle|Hgt].
    + rewrite Hf, u16_id, IH by (unfold is_u16; lia). rewrite (seqZ_cons i) by lia. cbn [fmap list_fmap concat].
      rewrite <- app_assoc. replace (Z.succ i) with (i + 1) by lia. replace (Z.pred (n + 1 - i)) with (n + 1 - (i + 1)) by lia. done.
    + replace (n + 1 - i) with 0 by lia. by rewrite app_nil_r.
Qed.

Lemma measure_loop_ok n f fr : n < 65535 -> (forall i, 1 <= i <= n -> fr !! i = Some (f i)) ->
  forall fuel i t, 1 <= i <= n + 1 -> n + 1 - i <= Z.of_nat fuel -> exists t', measure_loop fuel fr n i t = Ok t'.
Proof.
  intros Hn Hf. induction fuel as [|fuel IH]; intros i t Hi Hfu; cbn [measure_loop].
  - rewrite (proj2 (Z.leb_gt _ _)) by lia. by eexists.
  - destruct (Z.leb_spec i n) as [Hle|Hgt]; [|by eexists]. rewrite Hf, u16_id by (unfold is_u16; lia). apply IH; lia.
Qed.

Lemma Reassemble_ok msgID n f ks :
  1 <= n < 65535 -> Forall (fun k => 1 <= k <= n) ks -> covers n ks ->
  Reassemble (cache_of msgID n f ks) = Ok (concat (f <$> seqZ 1 n)).
Proof.
  intros Hn Hks Hc. assert (1 ∈ ks) as H1 by (eapply covers_elem; [done|lia]).
  assert (ks <> []) as Hne by (intros ->; set_solver). unfold Reassemble. rewrite is_complete_iff, bool_decide_eq_true_2 by (done || lia).
  assert (fc_total (cache_of msgID n f ks) = n) as -> by (by destruct ks). rewrite (proj2 (Z.eqb_neq n 0)) by lia. cbn [orb negb].
  assert (forall i, 1 <= i <= n -> fc_fragments (cache_of msgID n f ks) !! i = Some (f i)) as Hf.
  { intros i Hi. unfold cache_of. cbn [fc_fragments]. rewrite collected_lookup, decide_True; [done|]. by eapply covers_elem. }
  destruct (measure_loop_ok n f _ ltac:(lia) Hf (S (Z.to_nat n)) 1 0) as [t ->]; [lia..|]. rewrite bind_Ok.
  rewrite (append_loop_ok n f _ ltac:(lia) Hf) by lia. by replace (n + 1 - 1) with n by lia.
Qed.

(** A message of 65535 fragments is never reassembled: the counter wraps to 0. *)
Lemma measure_loop_wraps f fr : (forall i, 1 <= i <= 65535 -> fr !! i = Some (f i)) -> fr !! 0 = None ->
  forall fuel i t, 1 <= i <= 65535 -> 65536 - i < Z.of_nat fuel -> measure_loop fuel fr 65535 i t = Err "missing fragment".
Proof.
  intros Hf H0. induction fuel as [|fuel IH]; intros i t Hi Hfu; [lia|]. cbn [measure_loop].
  rewrite (proj2 (Z.leb_le _ _)), Hf by lia. destruct (decide (i = 65535)) as [->|].
  - destruct fuel as [|fuel]; [lia|]. cbn [measure_loop]. change (u16 (65535 + 1)) with 0. by rewrite H0.
  - rewrite u16_id by (unfold is_u16; lia). apply IH; lia.
Qed.

Section receive.
Context {C : Crypto}.

(** The fragments of a message as they arrive, each with its answer. *)
Fixpoint receive_all (fm : FragmentManager) (sess : IKEv2Session) (l : list (Message * V2.SKFPayload))
    : res (FragmentManager * list (res (bytes * Z * bool))) :=
  match l with
  | [] => Ok (fm, [])
  | (msg, skf) :: l =>
    '(fm, a) ← ReassembleFragment fm sess msg skf;
    '(fm, r) ← receive_all fm sess l;
    Ok (fm, a :: r)
  end.

(** A fragment of the message [id] of [n] fragments whose contents are [f]. *)
Record incoming (sess : IKEv2Session) (id n : Z) (f : Z -> bytes) (x : Message * V2.SKFPayload) : Prop := {
  in_id : MessageID (msg_Header x.1) = id;
  in_total : V2.skf_TotalFragments x.2 = n;
  in_number : 1 <= V2.skf_FragmentNumber x.2 <= n;
  in_opens : exists keys h, s2_Keys sess = Some keys /\ MarshalBinary (msg_Header x.1) = Ok h /\
    decryptSKBody (s2_Encryptor sess) (s2_Integrity sess) (SK_ei keys) (SK_ai keys) h (V2.skf_EncryptedData x.2) =
      Ok (f (V2.skf_FragmentNumber x.2))
}.

Definition number (x : Message * V2.SKFPayload) : Z := V2.skf_FragmentNumber x.2.

(** The manager once the fragments [ks] have come in. *)
Definition waiting (fm : FragmentManager) (key : bytes * Z) (n : Z) (f : Z -> bytes) (ks : list Z) : FragmentManager :=
  if ks is [] then fm else <[key := cache_of key.2 n f ks]> fm.

Lemma receive_one fm sess id n f ks x :
  1 <= n < 65535 -> incoming sess id n f x -> fm !! (SPIPair2 sess, id) = None -> Forall (fun k => 1 <= k <= n) ks ->
  ReassembleFragment (waiting fm (SPIPair2 sess, id) n f ks) sess x.1 x.2 =
    if decide (covers n (number x :: ks))
    then Ok (fm, Ok (concat (f <$> seqZ 1 n), if number x =? 1 then NextPayload (msg_Header x.1) else PayloadNone, true))
    else Ok (waiting fm (SPIPair2 sess, id) n f (number x :: ks), Ok ([], 0, false)).
Proof.
  intros Hn [Hid Htot Hnum (keys & h & Hk & Hh & Hd)] Hfm Hks. unfold ReassembleFragment. rewrite Hk, Hh. cbn [deref].
  rewrite !bind_Ok, Hd, Hid, Htot. fold (number x) in *. set (key := (SPIPair2 sess, id)) in *.
  assert (exists fm', GetOrCreate (waiting fm key n f ks) (SPIPair2 sess) id = (fm', cache_of id n f ks) /\
    forall c, <[key := c]> fm' = <[key := c]> fm) as (fm' & -> & Hins).
  { unfold GetOrCreate, waiting. destruct ks as [|k ks].
    - fold key. rewrite Hfm. eexists. split; [reflexivity|]. intros c. by rewrite insert_insert_eq.
    - fold key. rewrite lookup_insert_eq. eexists. split; [reflexivity|]. intros c. by rewrite insert_insert_eq. }
  rewrite AddFragment_ok by (lia || by constructor). rewrite Hins. fold key.
  destruct (decide (covers n (number x :: ks))) as [Hc|Hc].
  - rewrite bool_decide_eq_true_2 by done. cbn [negb]. rewrite Reassemble_ok by (done || by constructor).
    unfold Remove. fold key. rewrite delete_insert_id by done. by destruct (number x =? 1).
  - by rewrite bool_decide_eq_false_2 by done.
Qed.

Lemma covers_mono n ks ks' : (forall k, k ∈ ks -> k ∈ ks') -> covers n ks -> covers n ks'.
Proof. intros H Hc. eapply Forall_impl; [exact Hc|]. cbn. auto. Qed.

Lemma receive_waiting fm sess id n f l : 1 <= n < 65535 -> fm !! (SPIPair2 sess, id) = None ->
  Forall (incoming sess id n f) l -> forall ks, Forall (fun k => 1 <= k <= n) ks -> ~ covers n (rev (number <$> l) ++ ks) ->
  receive_all (waiting fm (SPIPair2 sess, id) n f ks) sess l =
    Ok (waiting fm (SPIPair2 sess, id) n f (rev (number <$> l) ++ ks), replicate (length l) (Ok ([], 0, false))).
Proof.
  intros Hn Hfm. induction 1 as [|x l Hx Hl IH]; intros ks Hks Hc; [done|]. cbn [fmap list_fmap rev] in Hc |- *.
  rewrite <- app_assoc in Hc |- *. destruct x as [m skf]. cbn [receive_all].
  pose proof (receive_one fm sess id n f ks (m, skf) Hn Hx Hfm Hks) as E. cbn [fst snd] in E.
  rewrite E, decide_False, bind_Ok; cycle 1.
  { intros Hcov. apply Hc. eapply covers_mono; [|exact Hcov]. intros k Hk. apply elem_of_app. by right. }
  cbv beta iota. rewrite IH, bind_Ok; [done| |done]. constructor; [|done]. by destruct Hx.
Qed.

Lemma receive_all_app fm sess l1 l2 fm' r :
  receive_all fm sess l1 = Ok (fm', r) ->
  receive_all fm sess (l1 ++ l2) = ('(fm2, r2) ← receive_all fm' sess l2; Ok (fm2, r ++ r2)).
Proof.
  revert fm r. induction l1 as [|[m skf] l1 IH]; intros fm r; cbn [receive_all app].
  - intros [= <- <-]. by destruct (receive_all fm sess l2) as [[]| |].
  - destruct (ReassembleFragment fm sess m skf) as [[fm1 a]| |]; [|done|done]. rewrite !bind_Ok. cbv beta iota.
    intros ([fm2 r2] & E & [= -> <-])%bind_Ok_inv. rewrite (IH _ _ E). destruct (receive_all fm' sess l2) as [[]| |]; done.
Qed.

(** C29: Fragments are put together in whatever order they arrive, and however often: nothing is
    delivered before the last missing one, which delivers the contents in the order of the
    fragment numbers and frees the cache. *)
Theorem reassembly_any_order fm sess id n f l last :
  1 <= n < 65535 -> fm !! (SPIPair2 sess, id) = None -> Forall (incoming sess id n f) (l ++ [last]) ->
  ~ covers n (number <$> l) -> covers n (number <$> (l ++ [last])) ->
  receive_all fm sess (l ++ [last]) =
    Ok (fm, replicate (length l) (Ok ([], 0, false)) ++
      [Ok (concat (f <$> seqZ 1 n), if number last =? 1 then NextPayload (msg_Header last.1) else PayloadNone, true)]).
Proof.
  intros Hn Hfm Hl Hnc Hc. apply Forall_app in Hl as [Hl Hlast]. rewrite Forall_singleton in Hlast.
  assert (forall k, k ∈ rev (number <$> l) <-> k ∈ number <$> l) as Hrev by (intros k; rewrite rev_alt; apply elem_of_reverse).
  assert (Forall (fun k => 1 <= k <= n) (rev (number <$> l))) as Hks.
  { apply Forall_rev, Forall_fmap. eapply Forall_impl; [exact Hl|]. by intros x []. }
  pose proof (receive_waiting fm sess id n f l Hn Hfm Hl [] ltac:(constructor)) as E. rewrite app_nil_r in E.
  erewrite receive_all_app; [|apply E; intros H; apply Hnc; eapply covers_mono; [|exact H]; intros k; by apply Hrev].
  destruct last as [m skf]. cbn [receive_all fst]. pose proof (receive_one fm sess id n f _ (m, skf) Hn Hlast Hfm Hks) as E1.
  cbn [fst snd] in E1. rewrite E1, decide_True, bind_Ok; [done|]. eapply covers_mono; [|exact Hc].
  intros k. rewrite fmap_app, elem_of_app, elem_of_cons, Hrev. cbn [fmap list_fmap]. rewrite list_elem_of_singleton. tauto.
Qed.

End receive.

(** ** Outbound fragments *)

Lemma split_chunks_ok p max : 0 < max -> forall fuel off, 0 <= off -> len p - off <= Z.of_nat fuel ->
  exists l, split_chunks fuel p max off = Ok l /\ concat l = drop (Z.to_nat off) p /\ Forall (fun c => 0 < len c <= max) l /\
    len l * max < Z.max 0 (len p - off) + max.
Proof.
  intros Hm. induction fuel as [|fuel IH]; intros off Ho Hf; cbn [split_chunks].
  - rewrite (proj2 (Z.ltb_ge _ _)) by lia. exists []. split; [done|]. split; [|split; [constructor|rewrite (@len_nil bytes); lia]].
    rewrite drop_ge; [done|]. unfold len in Hf. lia.
  - destruct (Z.ltb_spec off (len p)); cycle 1.
    { exists []. split; [done|]. split; [|split; [constructor|rewrite (@len_nil bytes); lia]].
      rewrite drop_ge; [done|]. unfold len in *. lia. }
    set (e := if off + max >? len p then len p else off + max).
    assert (off < e <= len p /\ e <= off + max) as He by (unfold e; destruct (Z.gtb_spec (off + max) (len p)); lia).
    rewrite slice_ok, bind_Ok by lia. destruct (IH (off + max)) as (l & -> & Hc & Hl & Hn); [lia..|].
    exists (sub p off e :: l). split; [done|]. split; [|split; [constructor; [rewrite len_sub by lia; lia|done]|]].
    2: { rewrite len_cons, Z.mul_add_distr_r. pose proof (len_nonneg l). destruct (Z.le_gt_cases (off + max) (len p)); [lia|].
      assert (len l = 0) as -> by nia. lia. }
    cbn [concat]. rewrite Hc. unfold e, sub. destruct (Z.gtb_spec (off + max) (len p)).
    + rewrite (drop_ge p (Z.to_nat (off + max))) by (unfold len in *; lia). rewrite app_nil_r, take_ge; [done|].
      rewrite length_drop. unfold len in *. lia.
    + replace (off + max - off) with max by lia.
      replace (drop (Z.to_nat (off + max)) p) with (drop (Z.to_nat max) (drop (Z.to_nat off) p)) by (rewrite drop_drop; f_equal; lia).
      apply take_drop.
Qed.

Section outbound.
Context {C : Crypto} {CL : CryptoLaws C}.

(** The message that carries fragment [i] of [n]: the chunk [c], sealed under the temporary header. *)
Definition carries (sess : IKEv2Session) (enc : IKEEncryptor) (keys : IKEv2KeyMaterial) (h : Header) (firstPT i n : Z) (c : bytes) (m : Message) : Prop :=
  exists body, sealed enc (s2_Integrity sess) (SK_er keys) (SK_ar keys) (header_bytes h) c body /\
    m = mkMessage (with_NextPayload h (if i =? 1 then firstPT else PayloadNone))
      [mkParsed (mkGPH PayloadNone false 0) (PSKF (V2.mkSKF i n body))] [].

Lemma fragment_chunk_ok sess enc keys et (isResp : bool) id firstPT n i c r :
  s2_Encryptor sess = Some enc -> sk_keys_ok enc (s2_Integrity sess) (SK_er keys) -> rng_ok r -> bytes_wf c -> 0 <= i < 65535 ->
  let h := temp_header sess et (if isResp then FlagResponse else FlagInitiator) id in
  header_ok h ->
  exists m r', fragment_chunk sess (SK_er keys) (SK_ar keys) et isResp id firstPT n i c r = Ok (m, r') /\ rng_ok r' /\
    carries sess enc keys h firstPT (i + 1) n c m.
Proof.
  intros He [Hk Hint] Hr Hc Hi h Hh. unfold fragment_chunk. rewrite He. cbn [deref]. rewrite bind_Ok.
  rewrite u16_id by (unfold is_u16; lia). destruct (rand_Read r (Z.to_nat (enc_IVSize enc))) as [iv r'] eqn:Er.
  destruct (rand_Read_ok _ _ _ _ Hr Er) as (Hiv & Hwi & Hr'). pose proof (enc_IVSize_nonneg enc).
  assert (len iv = enc_IVSize enc) as Hlv by (unfold len; lia). cbv zeta.
  assert ((if negb isResp then FlagInitiator else FlagResponse) = (if isResp then FlagResponse else FlagInitiator)) as -> by (by destruct isResp).
  fold h. set (pad := if negb (enc_IsAEAD enc) then _ else 0).
  assert (0 <= pad <= 255) as Hp by (unfold pad; destruct (negb (enc_IsAEAD enc)); [apply pad_length_range, enc_BlockSize_range|lia]).
  rewrite pad_ok by lia. rewrite Marshal_make, bind_Ok by (done || lia). rewrite (make_0 (HeaderLen - HeaderLen)), app_nil_r by lia.
  pose proof (padded_wf c pad Hc Hp) as Hw. unfold carries. destruct (enc_IsAEAD enc) eqn:Ea.
  - destruct (Encrypt_ok enc (SK_er keys) iv _ (header_bytes h) Hk Hlv Hwi Hw) as (ct & E & _).
    rewrite E, bind_Ok, concat2_ok, bind_Ok. eexists _, _. split; [done|]. split; [done|]. eexists. split; [|done].
    exists iv, pad, ct. by rewrite Ea.
  - destruct (Encrypt_ok enc (SK_er keys) iv _ [] Hk Hlv Hwi Hw) as (ct & E & _). destruct (Hint eq_refl) as (j & Hj & Hjo).
    rewrite E, bind_Ok, concat3_ok, bind_Ok, Hj. cbn [deref]. rewrite bind_Ok.
    destruct (Integ_Compute_ok j (SK_ar keys) (header_bytes h ++ iv ++ ct) Hjo) as (icv & Ei & _). rewrite Ei, bind_Ok, concat3_ok, bind_Ok.
    eexists _, _. split; [done|]. split; [done|]. eexists. split; [|done]. exists iv, pad, ct. rewrite Ea. split_and!; try done; try lia.
    by exists j, icv.
Qed.

(** The messages of the chunks, numbered from [i + 1]. *)
Fixpoint carry_all sess enc keys h firstPT n (i : Z) (cs : list bytes) (ms : list Message) : Prop :=
  match cs, ms with
  | [], [] => True
  | c :: cs, m :: ms => carries sess enc keys h firstPT (i + 1) n c m /\ carry_all sess enc keys h firstPT n (i + 1) cs ms
  | _, _ => False
  end.

Lemma fragment_loop_ok sess enc keys et (isResp : bool) id firstPT n cs :
  s2_Encryptor sess = Some enc -> sk_keys_ok enc (s2_Integrity sess) (SK_er keys) ->
  let h := temp_header sess et (if isResp then FlagResponse else FlagInitiator) id in
  header_ok h -> forall i r, rng_ok r -> Forall bytes_wf cs -> 0 <= i -> i + len cs <= 65535 ->
  exists ms r', fragment_loop sess (SK_er keys) (SK_ar keys) et isResp id firstPT n i cs r = Ok (ms, r') /\
    rng_ok r' /\ carry_all sess enc keys h firstPT n i cs ms.
Proof.
  intros He Hk h Hh. induction cs as [|c cs IH]; intros i r Hr Hcs Hi Hl; cbn [fragment_loop]; [by eexists [], r|].
  apply Forall_cons in Hcs as [Hc Hcs]. rewrite len_cons in Hl. pose proof (len_nonneg cs).
  destruct (fragment_chunk_ok sess enc keys et isResp id firstPT n i c r) as (m & r1 & -> & Hr1 & Hm); [done..|lia|done|].
  rewrite bind_Ok. cbv beta iota. destruct (IH (i + 1) r1) as (ms & r2 & -> & Hr2 & Hms); [done..|lia|lia|].
  rewrite bind_Ok. by eexists (m :: ms), r2.
Qed.

(** The plaintext room of a fragment. *)
Definition room (enc : IKEEncryptor) (integ : option hmacIntegrity) (max : Z) : Z :=
  (if max <=? 0 then DefaultFragmentMTU else max) - enc_IVSize enc -
  (if enc_IsAEAD enc then 16 else match integ with Some i => in_OutputSize i | None => 0 end) - 1.

(** A long answer is cut into fragments that carry, in order, all of its payload chain, each
    sealed on its own, numbered 1 to n, the first one naming the first payload. *)
Theorem FragmentSKPayload_correct sess enc keys et (isResp : bool) id l max r :
  s2_Encryptor sess = Some enc -> s2_Keys sess = Some keys -> sk_keys_ok enc (s2_Integrity sess) (SK_er keys) ->
  rng_ok r -> Forall (content_ok true) l ->
  let h := temp_header sess et (if isResp then FlagResponse else FlagInitiator) id in
  header_ok h -> 0 < room enc (s2_Integrity sess) max -> len (chain_bytes l) <= 65535 * room enc (s2_Integrity sess) max ->
  exists cs ms r', FragmentSKPayload sess et isResp id l max r = Ok (ms, r') /\
    concat cs = chain_bytes l /\ Forall (fun c => 0 < len c <= room enc (s2_Integrity sess) max) cs /\
    carry_all sess enc keys h (first_type l) (len cs) 0 cs ms.
Proof.
  intros He Hkeys Hk Hr Hl h Hh Hroom Hb. pose proof (chain_bytes_wf l Hl) as Hw. pose proof (len_nonneg (chain_bytes l)).
  destruct (split_chunks_ok (chain_bytes l) _ Hroom (length (chain_bytes l)) 0) as (cs & Hs & Hc & Hcs & Hn); [lia|unfold len; lia|].
  pose proof (len_nonneg cs). assert (len cs <= 65535) as Hlen by nia.
  change (drop (Z.to_nat 0) (chain_bytes l)) with (chain_bytes l) in Hc. rewrite <- Hc in Hw.
  assert (Forall bytes_wf cs) as Hwf.
  { clear -Hw. induction cs as [|c cs IH]; [constructor|]. cbn [concat] in Hw. apply Forall_app in Hw as [? ?]. constructor; auto. }
  destruct (fragment_loop_ok sess enc keys et isResp id (first_type l) (len cs) cs He Hk Hh 0 r Hr Hwf) as (ms & r' & E & _ & Hms); [lia..|].
  exists cs, ms, r'. split; [|done]. unfold FragmentSKPayload.
  rewrite (MarshalPayloadChain_bytes true), bind_Ok by done. cbv beta iota. rewrite He. cbn [deref]. rewrite bind_Ok. cbv zeta.
  fold (room enc (s2_Integrity sess) max). rewrite (proj2 (Z.leb_gt _ 0)) by lia. rewrite Hs, bind_Ok.
  rewrite gtb_false by lia. rewrite Hkeys. cbn [deref]. rewrite bind_Ok, u16_id by (unfold is_u16; lia). exact E.
Qed.

Lemma MarshalPayloadChain_skf skf :
  MarshalPayloadChain [PSKF skf] = Ok (chain_bytes [PSKF skf], PayloadSKF).
Proof.
  unfold MarshalPayloadChain. cbn [marshal_each Payload_Marshal]. rewrite V2.SKFPayload_Marshal_body, !bind_Ok.
  pose proof (assemble_bytes [PSKF skf] [PSKF skf] [] [] 0 eq_refl eq_refl) as E. rewrite !app_nil_l, (@len_nil Z) in E.
  rewrite len_chain_bytes in E. cbn [fmap list_fmap payload_body] in E. by rewrite E, bind_Ok.
Qed.

(** No fragment is sent with the header it is sealed under: the associated data has length 0,
    the header on the wire the length of the message.  A receiver that authenticates the
    header it receives, as [ReassembleFragment] does, computes another ICV. *)
Theorem fragment_header_mismatch sess enc keys et flags id firstPT i n c m m' wire :
  let h := temp_header sess et flags id in
  header_ok h -> carries sess enc keys h firstPT i n c m -> len (chain_bytes (pp_Payload <$> msg_Payloads m)) < 65536 ->
  Message_Marshal m = Ok (m', wire) -> take 28 wire <> header_bytes h.
Proof.
  intros h Hh (body & _ & ->) Hl. set (skf := PSKF _) in *. cbn [pp_Payload msg_Payloads fmap list_fmap] in Hl.
  unfold Message_Marshal. cbn [msg_RawMessage msg_Payloads msg_Header]. change (len (@nil Z) >? 0) with false. cbv iota.
  cbn [fmap list_fmap pp_Payload]. pose proof (MarshalPayloadChain_skf (V2.mkSKF i n body)) as Em.
  fold skf in Em. rewrite Em, bind_Ok. cbv beta iota zeta. clear Em.
  pose proof (len_nonneg (chain_bytes [skf])). rewrite u32_id by (unfold is_u32, HeaderLen; lia).
  set (h1 := with_Length _ _). assert (header_ok h1) as Hh1.
  { destruct Hh. constructor; try done. change (is_u32 (HeaderLen + len (chain_bytes [skf]))). unfold is_u32, HeaderLen. lia. }
  change (Length h1) with (HeaderLen + len (chain_bytes [skf])). rewrite Marshal_make, bind_Ok by (done || lia).
  replace (HeaderLen + len (chain_bytes [skf]) - HeaderLen) with (len (chain_bytes [skf])) by lia.
  rewrite fill_copy, bind_Ok by (rewrite ?len_header_bytes; done || lia). intros [= _ <-]. pose proof (len_header_bytes _ Hh1) as Hlen.
  rewrite <- app_assoc, take_app_length' by (unfold len, HeaderLen in Hlen; lia). intros E.
  pose proof (ParseHeader_bytes h1 [] Hh1) as E1. rewrite E, ParseHeader_bytes in E1 by done.
  assert (Length h = Length h1) as El by congruence. change (0 = HeaderLen + len (chain_bytes [skf])) in El. unfold HeaderLen in El. lia.
Qed.

End outbound.

(** ** A message in two fragments *)

Import Toy.

Definition gcm32 : IKEEncryptor := aesGCMEncryptor 20 32.
Definition demo_keys : IKEv2KeyMaterial :=
  mkKeys2 (replicate 32 1) [] [] (replicate 36 2) (replicate 36 3) (replicate 32 4) (replicate 32 5).
Definition gcm_session : IKEv2Session := demo_session gcm32 None demo_keys.

Definition part (i : Z) : bytes := if i =? 1 then [1; 2; 3] else [4; 5].

(** Fragment [i] as an initiator sends it. *)
Definition demo_fragment (i : Z) : Message * V2.SKFPayload :=
  let h := mkHeader [1;2;3;4;5;6;7;8] [8;7;6;5;4;3;2;1] 53 2 0 35 8 1 100 in
  let iv := replicate 8 (u8 (17 * i)) in
  let body := match Encrypt gcm32 (SK_ei demo_keys) iv (part i ++ [0]) (header_bytes h) with Ok c => iv ++ c | _ => [] end in
  let skf := V2.mkSKF i 2 body in
  (mkMessage h [mkParsed (mkGPH 0 false 0) (PSKF skf)] [], skf).

(** Fragment 2 comes first, twice. *)
Lemma reassembly_any_order_witness :
  receive_all ∅ gcm_session ([demo_fragment 2; demo_fragment 2] ++ [demo_fragment 1]) =
    Ok (∅, replicate 2 (Ok ([], 0, false)) ++ [Ok (concat (part <$> seqZ 1 2), 53, true)]).
Proof.
  apply (reassembly_any_order ∅ gcm_session 1 2 part [demo_fragment 2; demo_fragment 2] (demo_fragment 1)).
  - lia.
  - reflexivity.
  - assert (forall i, i = 1 \/ i = 2 -> incoming gcm_session 1 2 part (demo_fragment i)) as Hi.
    { intros i [->| ->]; (constructor; [reflexivity|reflexivity|cbn; lia|]); eexists demo_keys, _;
        (split; [reflexivity|]); (split; [vm_compute; reflexivity|]); vm_compute; reflexivity. }
    repeat (apply Forall_cons; split; [apply Hi; auto|]). constructor.
  - apply (bool_decide_unpack _). vm_compute. reflexivity.
  - apply (bool_decide_unpack _). vm_compute. reflexivity.
Defined.

Lemma FragmentSKPayload_correct_witness :
  exists cs ms r', FragmentSKPayload gcm_session 35 true 1 ex_init 60 demo_rng = Ok (ms, r') /\
    concat cs = chain_bytes ex_init /\ Forall (fun c => 0 < len c <= 35) cs /\
    carry_all gcm_session gcm32 demo_keys (temp_header gcm_session 35 FlagResponse 1) 33 (len cs) 0 cs ms.
Proof.
  apply (FragmentSKPayload_correct gcm_session gcm32 demo_keys 35 true 1 ex_init 60 demo_rng); try reflexivity.
  - split; [split; [by right; right|vm_compute; discriminate]|done].
  - exact demo_rng_ok.
  - eapply Forall_impl; [exact ex_init_ok|]. by intros ? [].
  - by apply Build_header_ok; try done; apply (bool_decide_unpack _).
  - vm_compute. discriminate.
Defined.

End Frag.
