(* ===== verification/IkeManager.v ===== *)
(** * IkeManager: the session manager ([internal/ike/session.go])

    The sessions of both versions by SPI pair, the rule of one connection per identity,
    and the bridge to the ESP engine: a negotiated child SA becomes an inbound and an
    outbound SA of [EspEngine].  Sessions are shared by pointer, so they live in two
    stores and the maps hold their locations.  The mutex makes each method atomic. *)

From stdpp Require Import gmap.
From S2P Require Import Prelude Wire Net Replay EspCipher EspPacket EspSA EspEngine.
From S2P Require Import IkeCrypto IkeKeys IkeSession.

Module Manager.
Import Cipher Esp SADB Engine Sess.

(** ** Addresses as map keys *)

(** [IP.String()] is injective up to the IPv4-mapped form, and [ParseIP] undoes it for the
    slices that are addresses: the key is the 16-byte form, or the slice if it is none. *)
Definition ip_key (ip : bytes) : bytes + bytes := if decide (To16 ip = []) then inr ip else inl (To16 ip).
Definition ParseIP (k : bytes + bytes) : option bytes := match k with inl ip => Some ip | inr _ => None end.

(** The order in which a loop over a map visits it is any order. *)
Class MapOrder := {
  range_order : gmap (bytes + bytes) bytes -> list ((bytes + bytes) * bytes);
  range_order_perm m : range_order m ≡ₚ map_to_list m
}.

(** ** The state *)

Record SessionManager := mkManager {
  v1Sessions : gmap bytes nat;
  v2Sessions : gmap bytes nat;
  identityMap : gmap bytes bytes;
  assignedIPs : gmap (bytes + bytes) bytes;
  espEngine : bool                              (* whether there is an engine *)
}.

Definition NewSessionManager (espEngine : bool) : SessionManager := mkManager ∅ ∅ ∅ ∅ espEngine.

(** The manager with the sessions and the data plane it points to. *)
Record state := mkState {
  heap1 : gmap nat IKEv1Session;
  heap2 : gmap nat IKEv2Session;
  manager : SessionManager;
  esp : world
}.

Definition with_manager (s : state) (m : SessionManager) : state := mkState (heap1 s) (heap2 s) m (esp s).
Definition with_esp (s : state) (w : world) : state := mkState (heap1 s) (heap2 s) (manager s) w.
Definition set_session2 (s : state) (l : nat) (x : IKEv2Session) : state :=
  mkState (heap1 s) (<[l := x]> (heap2 s)) (manager s) (esp s).
Definition set_session1 (s : state) (l : nat) (x : IKEv1Session) : state :=
  mkState (<[l := x]> (heap1 s)) (heap2 s) (manager s) (esp s).

Definition with_v1 (m : SessionManager) (x : gmap bytes nat) : SessionManager :=
  mkManager x (v2Sessions m) (identityMap m) (assignedIPs m) (espEngine m).
Definition with_v2 (m : SessionManager) (x : gmap bytes nat) : SessionManager :=
  mkManager (v1Sessions m) x (identityMap m) (assignedIPs m) (espEngine m).
Definition with_identity (m : SessionManager) (x : gmap bytes bytes) : SessionManager :=
  mkManager (v1Sessions m) (v2Sessions m) x (assignedIPs m) (espEngine m).
Definition with_assigned (m : SessionManager) (x : gmap (bytes + bytes) bytes) : SessionManager :=
  mkManager (v1Sessions m) (v2Sessions m) (identityMap m) x (espEngine m).

(** ** Eviction *)

(** Every caller passes a nil address. *)
Definition removeESPChildSA (s : state) (inSPI : bytes) : res state :=
  if espEngine (manager s) then
    spi ← be32 inSPI;
    Ok (with_esp s (RemoveInboundSA (esp s) spi))
  else Ok s.

Fixpoint remove_children (s : state) (spis : list bytes) : res state :=
  match spis with
  | [] => Ok s
  | spi :: spis =>
    s ← removeESPChildSA s spi;
    remove_children s spis
  end.

Definition evict_v2 (s : state) (spiPair : bytes) (peerIDStr : bytes) : res (state * bytes) :=
  match v2Sessions (manager s) !! spiPair with
  | None => Ok (s, peerIDStr)
  | Some l =>
    match heap2 s !! l with
    | None => Panic
    | Some sess =>
      let s := set_session2 s l (set_s2_State sess StateV2Deleting) in
      s ← remove_children s (c2_InSPI <$> s2_ChildSAs sess);
      Ok (with_manager s (with_v2 (manager s) (delete spiPair (v2Sessions (manager s)))), s2_PeerID sess)
    end
  end.

Definition evict_v1 (s : state) (spiPair : bytes) (peerIDStr : bytes) : res (state * bytes) :=
  match v1Sessions (manager s) !! spiPair with
  | None => Ok (s, peerIDStr)
  | Some l =>
    match heap1 s !! l with
    | None => Panic
    | Some sess =>
      let s := set_session1 s l (set_s1_State sess StateV1Deleting) in
      s ← remove_children s (c1_InSPI <$> s1_ChildSAs sess);
      Ok (with_manager s (with_v1 (manager s) (delete spiPair (v1Sessions (manager s)))), s1_PeerID sess)
    end
  end.

Definition clean_identity (m : SessionManager) (peerIDStr spiPair : bytes) : SessionManager :=
  if bool_decide (peerIDStr = []) then m
  else if bool_decide (identityMap m !! peerIDStr = Some spiPair)
  then with_identity m (delete peerIDStr (identityMap m)) else m.

(** The loop over [assignedIPs] stops at the first address of the session. *)
Fixpoint find_assigned (l : list ((bytes + bytes) * bytes)) (spiPair : bytes) : option (bytes + bytes) :=
  match l with
  | [] => None
  | (ip, p) :: l => if bool_decide (p = spiPair) then Some ip else find_assigned l spiPair
  end.

Section manager.
Context {O : MapOrder}.

Definition evictSessionLocked (s : state) (spiPair : bytes) : res state :=
  '(s, peerIDStr) ← evict_v2 s spiPair [];
  '(s, peerIDStr) ← evict_v1 s spiPair peerIDStr;
  let s := with_manager s (clean_identity (manager s) peerIDStr spiPair) in
  match find_assigned (range_order (assignedIPs (manager s))) spiPair with
  | None => Ok s
  | Some ip =>
    let s := with_manager s (with_assigned (manager s) (delete ip (assignedIPs (manager s)))) in
    match ParseIP ip with
    | None => Ok s
    | Some assignedIP =>
      if espEngine (manager s)
      then Ok (with_esp s (mkWorld (st (esp s)) (RemoveOutboundSA (eng (esp s)) assignedIP)))
      else Panic
    end
  end.

(** ** Sessions *)

(** A session is registered by its pointer; the error is always nil. *)
Definition RegisterV2Session (s : state) (l : nat) : res state :=
  match heap2 s !! l with
  | None => Panic
  | Some sess =>
    let spiPair := SPIPair2 sess in
    let peerIDStr := s2_PeerID sess in
    s ← match identityMap (manager s) !! peerIDStr with
        | Some existingSPI => evictSessionLocked s existingSPI
        | None => Ok s
        end;
    let m := with_v2 (manager s) (<[spiPair := l]> (v2Sessions (manager s))) in
    let m := if len peerIDStr >? 0 then with_identity m (<[peerIDStr := spiPair]> (identityMap m)) else m in
    Ok (with_manager s m)
  end.

Definition GetV2Session (s : state) (spiPair : bytes) : option nat := v2Sessions (manager s) !! spiPair.

Definition DeleteV2Session (s : state) (spiPair : bytes) : res state := evictSessionLocked s spiPair.

Definition RegisterV1Session (s : state) (l : nat) : res state :=
  match heap1 s !! l with
  | None => Panic
  | Some sess =>
    let spiPair := SPIPair1 sess in
    let peerIDStr := s1_PeerID sess in
    s ← (if len peerIDStr >? 0 then
        s ← match identityMap (manager s) !! peerIDStr with
            | Some existingSPI => evictSessionLocked s existingSPI
            | None => Ok s
            end;
        Ok (with_manager s (with_identity (manager s) (<[peerIDStr := spiPair]> (identityMap (manager s)))))
      else Ok s);
    Ok (with_manager s (with_v1 (manager s) (<[spiPair := l]> (v1Sessions (manager s)))))
  end.

Definition GetV1Session (s : state) (spiPair : bytes) : option nat := v1Sessions (manager s) !! spiPair.

Definition DeleteV1Session (s : state) (spiPair : bytes) : res state := evictSessionLocked s spiPair.

End manager.

(** ** The bridge to ESP *)

(** The suite of an IKE transform, which the length of the key decides. *)
Definition espSuite (encrID : Z) (encrKey : bytes) : res CipherSuite :=
  if encrID =? 20 then
    if len encrKey =? 20 then Ok AES128GCM
    else if len encrKey =? 36 then Ok AES256GCM
    else Err "invalid AES_GCM key length"
  else if encrID =? 28 then
    if len encrKey =? 36 then Ok CHACHA20POLY1305 else Err "invalid CHACHA20_POLY1305 key length"
  else Err "unsupported ESP encryption algorithm (AEAD required)".

Definition buildESPSA (spi encrID : Z) (encrKey : bytes) (peerAddr : option UDPAddr) (now : Z) : res SecurityAssociation :=
  espEncr ← espSuite encrID encrKey;
  let saltLen := AEADSaltSize espEncr in
  let keyLen := len encrKey - saltLen in
  if keyLen <=? 0 then Err "encryption key too short for salt"
  else
    key ← slice encrKey 0 keyLen;
    salt ← slice encrKey keyLen (len encrKey);
    NewSecurityAssociation spi espEncr key salt peerAddr true now.

(** A new SA in the store. *)
Definition alloc_sa (w : world) (sa : SecurityAssociation) : world * loc :=
  let l := fresh (dom (st w)) in (set_sa w l sa, l).

(** The common body of [InstallV2ChildSA] and [InstallV1ChildSA]: which key is inbound and
    which outbound is all that tells them apart. *)
Definition install_child (s : state) (spiPair : bytes) (peerAddr : option UDPAddr) (inSPI outSPI : bytes) (encrID : Z) (inKey outKey : bytes)
    (assignedIP : option bytes) (now : Z) : res (state * res unit) :=
  if negb (espEngine (manager s)) then Ok (s, Err "ESP engine not configured")
  else
    inboundSPI ← be32 inSPI;
    outboundSPI ← be32 outSPI;
    match buildESPSA inboundSPI encrID inKey peerAddr now with
    | Panic => Panic
    | Err _ => Ok (s, Err "building inbound SA")
    | Ok inSA =>
      let '(w, l) := alloc_sa (esp s) inSA in
      let '(w, r) := AddInboundSA w (Some l) in
      _ ← r;
      match buildESPSA outboundSPI encrID outKey peerAddr now with
      | Panic => Panic
      | Err _ => Ok (with_esp s (RemoveInboundSA w inboundSPI), Err "building outbound SA")
      | Ok outSA =>
        let '(w, k) := alloc_sa w outSA in
        match assignedIP with
        | None => Ok (with_esp s w, Ok tt)
        | Some ip =>
          let '(e, r) := AddOutboundSA (eng w) ip (Some k) in
          _ ← r;
          let s := with_esp s (mkWorld (st w) e) in
          Ok (with_manager s (with_assigned (manager s) (<[ip_key ip := spiPair]> (assignedIPs (manager s)))), Ok tt)
        end
      end
    end.

Definition InstallV2ChildSA (s : state) (sess : IKEv2Session) (child : IKEv2ChildSA) (assignedIP : option bytes) (now : Z) :=
  install_child s (SPIPair2 sess) (s2_PeerAddr sess) (c2_InSPI child) (c2_OutSPI child) (c2_EncrID child)
    (c2_PeerEncrKey child) (c2_EncrKey child) assignedIP now.

Definition InstallV1ChildSA (s : state) (sess : IKEv1Session) (child : IKEv1ChildSA) (assignedIP : option bytes) (now : Z) :=
  install_child s (SPIPair1 sess) (s1_PeerAddr sess) (c1_InSPI child) (c1_OutSPI child) (c1_EncrID child)
    (c1_EncrKey child) (c1_PeerEncrKey child) assignedIP now.

(** ** Eviction, as a function *)

(** The number an SPI field stands for. *)
Definition spi_of (b : bytes) : Z := match be32 b with Ok v => v | _ => 0 end.

Lemma spi_of_ok b : length b = 4%nat -> be32 b = Ok (spi_of b).
Proof.
  intros H. destruct (be32_ok b) as [v E]; [unfold len; lia|]. unfold spi_of. by rewrite E.
Qed.

(** The data plane without the inbound SAs of [spis]. *)
Definition drop_inbound (on : bool) (w : world) (spis : list bytes) : world :=
  if on then foldl (fun w b => RemoveInboundSA w (spi_of b)) w spis else w.

Lemma remove_children_ok spis : Forall (fun b => length b = 4%nat) spis -> forall s,
  remove_children s spis = Ok (with_esp s (drop_inbound (espEngine (manager s)) (esp s) spis)).
Proof.
  induction 1 as [|b spis Hb _ IH]; intros s; cbn [remove_children].
  - unfold drop_inbound. by destruct s, (espEngine _).
  - unfold removeESPChildSA. destruct (espEngine (manager s)) eqn:E.
    + rewrite spi_of_ok, !bind_Ok, IH by done. cbn [manager with_esp]. by rewrite E.
    + rewrite bind_Ok, IH, E. done.
Qed.

Lemma drop_inbound_lookup on w spis spi :
  LookupBySPI (saDB (eng (drop_inbound on w spis))) spi =
    if on && bool_decide (spi ∈ spi_of <$> spis) then None else LookupBySPI (saDB (eng w)) spi.
Proof.
  destruct on; [|done]. cbn [andb drop_inbound]. unfold drop_inbound. revert w. induction spis as [|b spis IH]; intros w.
  - cbn [fmap list_fmap]. by rewrite bool_decide_eq_false_2 by apply not_elem_of_nil.
  - cbn [foldl]. rewrite IH. cbn [fmap list_fmap].
    assert (LookupBySPI (saDB (eng (RemoveInboundSA w (spi_of b)))) spi =
      if decide (spi = spi_of b) then None else LookupBySPI (saDB (eng w)) spi) as E.
    { unfold LookupBySPI, RemoveInboundSA, RemoveInbound. cbn. destruct (bySPI (saDB (eng w)) !! spi_of b) eqn:El; cbn;
        destruct (decide (spi = spi_of b)) as [->|]; try done.
      - by rewrite lookup_delete_eq.
      - by rewrite lookup_delete_ne. }
    rewrite E. destruct (decide (spi = spi_of b)) as [->|]; repeat case_bool_decide; try done; set_solver.
Qed.

Lemma drop_inbound_rest on w spis :
  st (drop_inbound on w spis) = st w /\ spd (eng (drop_inbound on w spis)) = spd (eng w).
Proof. destruct on; [|done]. unfold drop_inbound. revert w. induction spis as [|b spis IH]; intros w; [done|]. cbn [foldl]. by rewrite !(proj1 (IH _)), !(proj2 (IH _)). Qed.

(** What the code relies on: the maps point to live sessions filed under their SPI pair,
    SPI fields have four bytes, and addresses are assigned only with an engine. *)
Record manager_ok (s : state) : Prop := {
  mo_v2 k l : v2Sessions (manager s) !! k = Some l -> exists sess, heap2 s !! l = Some sess /\ SPIPair2 sess = k;
  mo_v1 k l : v1Sessions (manager s) !! k = Some l -> exists sess, heap1 s !! l = Some sess /\ SPIPair1 sess = k;
  mo_id2 k l sess : v2Sessions (manager s) !! k = Some l -> heap2 s !! l = Some sess -> s2_PeerID sess <> [] ->
    identityMap (manager s) !! s2_PeerID sess = Some k;
  mo_id1 k l sess : v1Sessions (manager s) !! k = Some l -> heap1 s !! l = Some sess -> s1_PeerID sess <> [] ->
    identityMap (manager s) !! s1_PeerID sess = Some k;
  mo_spi2 l sess : heap2 s !! l = Some sess -> Forall (fun c => length (c2_InSPI c) = 4%nat) (s2_ChildSAs sess);
  mo_spi1 l sess : heap1 s !! l = Some sess -> Forall (fun c => length (c1_InSPI c) = 4%nat) (s1_ChildSAs sess);
  mo_engine : espEngine (manager s) = true \/ assignedIPs (manager s) = ∅
}.

(** The sessions of a pair, and the inbound SPIs they own. *)
Definition session2 (s : state) (k : bytes) : option IKEv2Session := v2Sessions (manager s) !! k ≫= fun l => heap2 s !! l.
Definition session1 (s : state) (k : bytes) : option IKEv1Session := v1Sessions (manager s) !! k ≫= fun l => heap1 s !! l.

Definition owned (s : state) (k : bytes) : list bytes :=
  match session2 s k with Some x => c2_InSPI <$> s2_ChildSAs x | None => [] end ++
  match session1 s k with Some x => c1_InSPI <$> s1_ChildSAs x | None => [] end.

(** The heap once the session at [o] is marked as deleted. *)
Definition mark {X} (f : X -> X) (h : gmap nat X) (o : option nat) : gmap nat X :=
  match o with Some l => alter f l h | None => h end.

Lemma drop_inbound_app on w a b : drop_inbound on w (a ++ b) = drop_inbound on (drop_inbound on w a) b.
Proof. destruct on; [|done]. unfold drop_inbound. by rewrite foldl_app. Qed.

Lemma alter_some {X} (f : X -> X) (h : gmap nat X) l x : h !! l = Some x -> alter f l h = <[l := f x]> h.
Proof.
  intros H. apply map_eq. intros j. destruct (decide (j = l)) as [->|].
  - by rewrite lookup_alter_eq, lookup_insert_eq, H.
  - by rewrite lookup_alter_ne, lookup_insert_ne.
Qed.

Lemma evict_v2_ok s k p :
  manager_ok s -> evict_v2 s k p =
    Ok (mkState (heap1 s) (mark (fun x => set_s2_State x StateV2Deleting) (heap2 s) (v2Sessions (manager s) !! k))
          (with_v2 (manager s) (delete k (v2Sessions (manager s))))
          (drop_inbound (espEngine (manager s)) (esp s) (match session2 s k with Some x => c2_InSPI <$> s2_ChildSAs x | None => [] end)),
        match session2 s k with Some x => s2_PeerID x | None => p end).
Proof.
  intros Hok. unfold evict_v2, session2. destruct (v2Sessions (manager s) !! k) as [l|] eqn:E; cbn [mbind option_bind].
  - destruct (mo_v2 _ Hok k l E) as (sess & Hs & _). rewrite Hs. cbn [mark]. rewrite (alter_some _ _ _ _ Hs).
    by rewrite remove_children_ok, bind_Ok by (apply Forall_fmap; by eapply mo_spi2).
  - unfold drop_inbound. rewrite delete_id by done. destruct s as [h1 h2 m w]; cbn in *. destruct m; cbn. by destruct espEngine0.
Qed.

Lemma evict_v1_ok s k p :
  (forall l, v1Sessions (manager s) !! k = Some l -> exists sess, heap1 s !! l = Some sess) ->
  (forall l sess, heap1 s !! l = Some sess -> Forall (fun c => length (c1_InSPI c) = 4%nat) (s1_ChildSAs sess)) ->
  evict_v1 s k p =
    Ok (mkState (mark (fun x => set_s1_State x StateV1Deleting) (heap1 s) (v1Sessions (manager s) !! k)) (heap2 s)
          (with_v1 (manager s) (delete k (v1Sessions (manager s))))
          (drop_inbound (espEngine (manager s)) (esp s) (match session1 s k with Some x => c1_InSPI <$> s1_ChildSAs x | None => [] end)),
        match session1 s k with Some x => s1_PeerID x | None => p end).
Proof.
  intros Hv Hspi. unfold evict_v1, session1. destruct (v1Sessions (manager s) !! k) as [l|] eqn:E; cbn [mbind option_bind].
  - destruct (Hv l eq_refl) as (sess & Hs). rewrite Hs. cbn [mark]. rewrite (alter_some _ _ _ _ Hs).
    by rewrite remove_children_ok, bind_Ok by (apply Forall_fmap; by eapply Hspi).
  - unfold drop_inbound. rewrite delete_id by done. destruct s as [h1 h2 m w]; cbn in *. destruct m; cbn. by destruct espEngine0.
Qed.

(** What an eviction leaves. *)
Record evicted (s : state) (k : bytes) (s' : state) : Prop := {
  ev_heap2 : heap2 s' = mark (fun x => set_s2_State x StateV2Deleting) (heap2 s) (v2Sessions (manager s) !! k);
  ev_heap1 : heap1 s' = mark (fun x => set_s1_State x StateV1Deleting) (heap1 s) (v1Sessions (manager s) !! k);
  ev_v2 : v2Sessions (manager s') = delete k (v2Sessions (manager s));
  ev_v1 : v1Sessions (manager s') = delete k (v1Sessions (manager s));
  ev_identity p q : identityMap (manager s) !! p = Some q -> q <> k -> identityMap (manager s') !! p = Some q;
  ev_identity_le p q : identityMap (manager s') !! p = Some q -> identityMap (manager s) !! p = Some q;
  ev_engine : espEngine (manager s') = espEngine (manager s);
  ev_assigned : assignedIPs (manager s') ⊆ assignedIPs (manager s);
  ev_spi spi : LookupBySPI (saDB (eng (esp s'))) spi =
    if espEngine (manager s) && bool_decide (spi ∈ spi_of <$> owned s k) then None else LookupBySPI (saDB (eng (esp s))) spi;
  ev_store : st (esp s') = st (esp s)
}.

Lemma clean_identity_spec m p k :
  v1Sessions (clean_identity m p k) = v1Sessions m /\ v2Sessions (clean_identity m p k) = v2Sessions m /\
  assignedIPs (clean_identity m p k) = assignedIPs m /\ espEngine (clean_identity m p k) = espEngine m /\
  (forall x q, identityMap m !! x = Some q -> q <> k -> identityMap (clean_identity m p k) !! x = Some q) /\
  (forall x q, identityMap (clean_identity m p k) !! x = Some q -> identityMap m !! x = Some q).
Proof.
  unfold clean_identity. case_bool_decide; [by split_and!|]. case_bool_decide as Hp; [|by split_and!]. split_and!; try done; cbn.
  - intros x q Hx Hq. rewrite lookup_delete_ne; [done|]. intros ->. congruence.
  - by intros x q [_ ?]%lookup_delete_Some.
Qed.

Section eviction.
Context {O : MapOrder}.

Lemma find_assigned_elem l k ip : find_assigned l k = Some ip -> (ip, k) ∈ l.
Proof.
  induction l as [|[i q] l IH]; cbn [find_assigned]; [done|]. case_bool_decide as E.
  - intros [= <-]. rewrite E. by left.
  - intros H. right. by apply IH.
Qed.

Lemma evict_ok s k : manager_ok s -> exists s', evictSessionLocked s k = Ok s' /\ evicted s k s'.
Proof.
  intros Hok. unfold evictSessionLocked. rewrite evict_v2_ok, bind_Ok by done. cbv beta iota.
  set (p2 := match session2 s k with Some x => s2_PeerID x | None => [] end). rewrite evict_v1_ok, bind_Ok; cycle 1.
  { cbn. intros l Hl. destruct (mo_v1 _ Hok k l Hl) as (x & ? & _). by exists x. }
  { cbn. apply (mo_spi1 _ Hok). }
  cbv beta iota zeta. match goal with |- context [session1 ?s0 k] => change (session1 s0 k) with (session1 s k) end.
  set (p1 := match session1 s k with Some x => s1_PeerID x | None => p2 end).
  cbn [manager with_manager heap1 heap2 esp with_v1 with_v2 v1Sessions v2Sessions identityMap assignedIPs espEngine].
  rewrite <- drop_inbound_app. set (w := drop_inbound _ _ _).
  assert (forall spi, LookupBySPI (saDB (eng w)) spi = if espEngine (manager s) && bool_decide (spi ∈ spi_of <$> owned s k)
    then None else LookupBySPI (saDB (eng (esp s))) spi) as Hw by apply drop_inbound_lookup.
  assert (st w = st (esp s)) as Hst by apply drop_inbound_rest. clearbody w.
  match goal with |- context [clean_identity ?m0 p1 k] =>
    destruct (clean_identity_spec m0 p1 k) as (E1 & E2 & E3 & E4 & E5 & E6); generalize dependent (clean_identity m0 p1 k) end.
  intros m E1 E2 E3 E4 E5 E6. cbn in E1, E2, E3, E4, E5, E6 |- *. rewrite E3, E4.
  destruct (find_assigned (range_order (assignedIPs (manager s))) k) as [ip|] eqn:Ef; cycle 1.
  { eexists. split; [done|]. constructor; cbn; try done; by rewrite ?E3. }
  destruct (ParseIP ip) as [a|].
  - apply find_assigned_elem in Ef. rewrite range_order_perm in Ef. apply elem_of_map_to_list in Ef.
    destruct (mo_engine _ Hok) as [He|He]; [|by rewrite He in Ef]. rewrite He.
    eexists. split; [done|]. constructor; cbn; try done. apply delete_subseteq.
  - eexists. split; [done|]. constructor; cbn; try done. apply delete_subseteq.
Qed.

Lemma mark_lookup {X} (f : X -> X) h o l y : mark f h o !! l = Some y -> exists x, h !! l = Some x /\ (y = x \/ y = f x).
Proof.
  destruct o as [j|]; cbn [mark]; [|by eauto]. destruct (decide (l = j)) as [->|].
  - rewrite lookup_alter_eq. destruct (h !! j) as [x|]; [|done]. intros [= <-]. eauto.
  - rewrite lookup_alter_ne by done. eauto.
Qed.

Lemma mark_live {X} (f : X -> X) h o l x : h !! l = Some x -> exists y, mark f h o !! l = Some y /\ (y = x \/ y = f x).
Proof.
  intros H. destruct o as [j|]; cbn [mark]; [|by eauto]. destruct (decide (l = j)) as [->|].
  - rewrite lookup_alter_eq, H. eauto.
  - rewrite lookup_alter_ne by done. eauto.
Qed.

Lemma evicted_ok s k s' : manager_ok s -> evicted s k s' -> manager_ok s'.
Proof.
  intros Hok He. destruct He. constructor.
  - rewrite ev_v3, ev_heap3. intros q l [_ Hq]%lookup_delete_Some. destruct (mo_v2 _ Hok _ _ Hq) as (x & Hx & Hp).
    destruct (mark_live (fun x => set_s2_State x StateV2Deleting) (heap2 s) (v2Sessions (manager s) !! k) _ _ Hx) as (y & ? & [->| ->]); eauto.
  - rewrite ev_v4, ev_heap4. intros q l [_ Hq]%lookup_delete_Some. destruct (mo_v1 _ Hok _ _ Hq) as (x & Hx & Hp).
    destruct (mark_live (fun x => set_s1_State x StateV1Deleting) (heap1 s) (v1Sessions (manager s) !! k) _ _ Hx) as (y & ? & [->| ->]); eauto.
  - rewrite ev_v3, ev_heap3. intros q l y [Hne Hq]%lookup_delete_Some (x & Hx & Hy)%mark_lookup Hid.
    assert (s2_PeerID y = s2_PeerID x) as E by (by destruct Hy as [->| ->]). rewrite E in *.
    apply ev_identity0; [by eapply mo_id2|done].
  - rewrite ev_v4, ev_heap4. intros q l y [Hne Hq]%lookup_delete_Some (x & Hx & Hy)%mark_lookup Hid.
    assert (s1_PeerID y = s1_PeerID x) as E by (by destruct Hy as [->| ->]). rewrite E in *.
    apply ev_identity0; [by eapply mo_id1|done].
  - rewrite ev_heap3. intros l y (x & Hx & [->| ->])%mark_lookup; by apply (mo_spi2 _ Hok) in Hx.
  - rewrite ev_heap4. intros l y (x & Hx & [->| ->])%mark_lookup; by apply (mo_spi1 _ Hok) in Hx.
  - rewrite ev_engine0. destruct (mo_engine _ Hok) as [?|He]; [by left|right]. rewrite He in ev_assigned0.
    by apply map_empty_subseteq in ev_assigned0 || (apply map_eq; intros i; rewrite lookup_empty; apply eq_None_not_Some; intros [v Hv]; eapply lookup_weaken in Hv; [|done]; by rewrite lookup_empty in Hv).
Qed.

(** ** One connection per identity *)

(** A session of either version under a pair, with its identity. *)
Definition registered (s : state) (p k : bytes) : Prop :=
  (exists l x, v2Sessions (manager s) !! k = Some l /\ heap2 s !! l = Some x /\ s2_PeerID x = p) \/
  (exists l x, v1Sessions (manager s) !! k = Some l /\ heap1 s !! l = Some x /\ s1_PeerID x = p).

Lemma registered_identity s p k : manager_ok s -> registered s p k -> p <> [] -> identityMap (manager s) !! p = Some k.
Proof.
  intros Hok [(l & x & Hl & Hx & <-)|(l & x & Hl & Hx & <-)] Hp; [by eapply mo_id2|by eapply mo_id1].
Qed.

Lemma evicted_registered s k s' p q : evicted s k s' -> registered s' p q -> q <> k /\ registered s p q.
Proof.
  intros He [(l & y & Hl & Hy & <-)|(l & y & Hl & Hy & <-)]; destruct He.
  - rewrite ev_v3 in Hl. apply lookup_delete_Some in Hl as [Hne Hl]. split; [done|]. left.
    rewrite ev_heap3 in Hy. apply mark_lookup in Hy as (x & Hx & [->| ->]); by exists l, x.
  - rewrite ev_v4 in Hl. apply lookup_delete_Some in Hl as [Hne Hl]. split; [done|]. right.
    rewrite ev_heap4 in Hy. apply mark_lookup in Hy as (x & Hx & [->| ->]); by exists l, x.
Qed.

(** The step both registrations begin with: the session the identity maps to goes. *)
Definition evict_identity (s : state) (p : bytes) : res state :=
  match identityMap (manager s) !! p with Some existingSPI => evictSessionLocked s existingSPI | None => Ok s end.

Lemma evict_identity_ok s p :
  manager_ok s -> exists s1, evict_identity s p = Ok s1 /\ manager_ok s1 /\
    (identityMap (manager s) !! p = None /\ s1 = s \/ exists k, identityMap (manager s) !! p = Some k /\ evicted s k s1) /\
    (p <> [] -> forall k, ~ registered s1 p k).
Proof.
  intros Hok. unfold evict_identity. destruct (identityMap (manager s) !! p) as [k|] eqn:E.
  - destruct (evict_ok s k Hok) as (s1 & -> & He). exists s1. split; [done|]. split; [by eapply evicted_ok|]. split; [right; by exists k|].
    intros Hp q Hr. destruct (evicted_registered _ _ _ _ _ He Hr) as [Hne Hr']. apply registered_identity in Hr'; [|done..]. congruence.
  - exists s. split; [done|]. split; [done|]. split; [by left|]. intros Hp q Hr. apply registered_identity in Hr; [|done..]. congruence.
Qed.

Lemma evict_identity_heap s p s1 l x :
  identityMap (manager s) !! p = None /\ s1 = s \/ (exists k, identityMap (manager s) !! p = Some k /\ evicted s k s1) ->
  heap2 s !! l = Some x -> exists y, heap2 s1 !! l = Some y /\ (y = x \/ y = set_s2_State x StateV2Deleting).
Proof.
  intros [[_ ->]|(k & _ & He)] Hx; [by eauto|]. rewrite (ev_heap2 _ _ _ He).
  by apply (mark_live (fun x => set_s2_State x StateV2Deleting)).
Qed.

Lemma evict_identity_heap1 s p s1 l x :
  identityMap (manager s) !! p = None /\ s1 = s \/ (exists k, identityMap (manager s) !! p = Some k /\ evicted s k s1) ->
  heap1 s !! l = Some x -> exists y, heap1 s1 !! l = Some y /\ (y = x \/ y = set_s1_State x StateV1Deleting).
Proof.
  intros [[_ ->]|(k & _ & He)] Hx; [by eauto|]. rewrite (ev_heap1 _ _ _ He).
  by apply (mark_live (fun x => set_s1_State x StateV1Deleting)).
Qed.

Lemma RegisterV2_ok s l x :
  manager_ok s -> heap2 s !! l = Some x ->
  exists s1 s', evict_identity s (s2_PeerID x) = Ok s1 /\ RegisterV2Session s l = Ok s' /\ manager_ok s' /\
    heap1 s' = heap1 s1 /\ heap2 s' = heap2 s1 /\ esp s' = esp s1 /\
    v1Sessions (manager s') = v1Sessions (manager s1) /\
    v2Sessions (manager s') = <[SPIPair2 x := l]> (v2Sessions (manager s1)).
Proof.
  intros Hok Hx. unfold RegisterV2Session. rewrite Hx. fold (evict_identity s (s2_PeerID x)).
  destruct (evict_identity_ok s (s2_PeerID x) Hok) as (s1 & -> & Hok1 & He & Hno). rewrite bind_Ok.
  destruct (evict_identity_heap _ _ _ _ _ He Hx) as (y & Hy & Hyx).
  assert (s2_PeerID y = s2_PeerID x) as Hid by (by destruct Hyx as [->| ->]).
  assert (SPIPair2 y = SPIPair2 x) as Hk by (by destruct Hyx as [->| ->]).
  exists s1. eexists. split; [done|]. split; [done|]. split; [|by case_match].
  assert (forall q, s2_PeerID x <> [] -> identityMap (if len (s2_PeerID x) >? 0
    then with_identity (with_v2 (manager s1) (<[SPIPair2 x:=l]> (v2Sessions (manager s1)))) (<[s2_PeerID x:=SPIPair2 x]> (identityMap (manager s1)))
    else with_v2 (manager s1) (<[SPIPair2 x:=l]> (v2Sessions (manager s1)))) !! q =
    if decide (q = s2_PeerID x) then Some (SPIPair2 x) else identityMap (manager s1) !! q) as Him.
  { intros q Hp. assert (len (s2_PeerID x) <> 0) by (intros ?%len_0_inv; done). pose proof (len_nonneg (s2_PeerID x)).
    rewrite (proj2 (Z.gtb_lt _ _)) by lia. cbn. case_decide as Hq; [subst q; by rewrite lookup_insert_eq|by rewrite lookup_insert_ne]. }
  set (m := if len (s2_PeerID x) >? 0 then _ else _) in *.
  assert (v1Sessions m = v1Sessions (manager s1) /\ v2Sessions m = <[SPIPair2 x := l]> (v2Sessions (manager s1)) /\
    assignedIPs m = assignedIPs (manager s1) /\ espEngine m = espEngine (manager s1)) as (E1 & E2 & E3 & E4) by (unfold m; by case_match).
  assert (s2_PeerID x = [] -> identityMap m = identityMap (manager s1)) as Hem by (unfold m; by intros ->).
  clearbody m. assert (forall p q, p <> [] -> registered s1 p q -> identityMap m !! p = Some q) as Hkeep.
  { intros p q Hp Hr. destruct (decide (s2_PeerID x = [])) as [E|E].
    - rewrite Hem by done. by apply registered_identity.
    - rewrite Him by done. case_decide as Hq; [|by apply registered_identity]. subst p. by destruct (Hno E q). }
  destruct Hok1. constructor; cbn; rewrite ?E1, ?E2, ?E3, ?E4; try done.
  - intros k l' [[<- <-]|[Hne Hl']]%lookup_insert_Some; [by exists y|by apply mo_v3].
  - intros k l' z [[<- <-]|[Hne Hl']]%lookup_insert_Some Hz Hp.
    + rewrite Hy in Hz. injection Hz as <-. rewrite Hid in *. rewrite Him by done. by rewrite decide_True.
    + apply Hkeep; [done|]. left. by exists l', z.
  - intros k l' z Hl' Hz Hp. apply Hkeep; [done|]. right. by exists l', z.
Qed.

Lemma RegisterV1_ok s l x :
  manager_ok s -> heap1 s !! l = Some x ->
  exists s', RegisterV1Session s l = Ok s' /\ manager_ok s' /\ GetV1Session s' (SPIPair1 x) = Some l.
Proof.
  intros Hok Hx. unfold RegisterV1Session. rewrite Hx. fold (evict_identity s (s1_PeerID x)).
  assert ((len (s1_PeerID x) >? 0) = negb (bool_decide (s1_PeerID x = []))) as ->.
  { pose proof (len_nonneg (s1_PeerID x)). destruct (s1_PeerID x); [done|]. rewrite bool_decide_eq_false_2 by done.
    apply Z.gtb_lt. rewrite len_cons. pose proof (len_nonneg l0). lia. }
  destruct (evict_identity_ok s (s1_PeerID x) Hok) as (s1 & -> & Hok1 & He & Hno). rewrite bind_Ok.
  case_bool_decide as Hp; cbn [negb].
  - rewrite bind_Ok. eexists. split; [done|]. split; [|apply lookup_insert_eq]. destruct Hok. constructor; cbn; try done.
    + intros k l' [[<- <-]|[Hne Hl']]%lookup_insert_Some; [by exists x|by apply mo_v4].
    + intros k l' z [[<- <-]|[Hne Hl']]%lookup_insert_Some Hz Hz0; [congruence|by eapply mo_id4].
  - destruct (evict_identity_heap1 _ _ _ _ _ He Hx) as (y & Hy & Hyx).
    assert (s1_PeerID y = s1_PeerID x) as Hid by (by destruct Hyx as [->| ->]).
    assert (SPIPair1 y = SPIPair1 x) as Hk by (by destruct Hyx as [->| ->]).
    rewrite bind_Ok. eexists. split; [done|]. split; [|apply lookup_insert_eq].
    assert (forall p q, p <> [] -> registered s1 p q -> <[s1_PeerID x := SPIPair1 x]> (identityMap (manager s1)) !! p = Some q) as Hkeep.
    { intros p q Hp' Hr. rewrite lookup_insert_ne; [by apply registered_identity|]. intros <-. by destruct (Hno Hp q). }
    destruct Hok1. constructor; cbn; try done.
    + intros k l' [[<- <-]|[Hne Hl']]%lookup_insert_Some; [by exists y|by apply mo_v4].
    + intros k l' z Hl' Hz Hz0. apply Hkeep; [done|]. left. by exists l', z.
    + intros k l' z [[<- <-]|[Hne Hl']]%lookup_insert_Some Hz Hz0.
      * rewrite Hy in Hz. injection Hz as <-. rewrite Hid, Hk || rewrite Hid. by rewrite lookup_insert_eq.
      * apply Hkeep; [done|]. right. by exists l', z.
Qed.

Lemma install_keeps s pair peer i o id ki ko ip now s' r :
  install_child s pair peer i o id ki ko ip now = Ok (s', r) ->
  heap1 s' = heap1 s /\ heap2 s' = heap2 s /\ v1Sessions (manager s') = v1Sessions (manager s) /\
  v2Sessions (manager s') = v2Sessions (manager s) /\ identityMap (manager s') = identityMap (manager s) /\
  espEngine (manager s') = espEngine (manager s) /\
  (espEngine (manager s) = true \/ assignedIPs (manager s') = assignedIPs (manager s)).
Proof.
  unfold install_child. destruct (espEngine (manager s)) eqn:He; cbn [negb]; [|intros [= <- _]; by split_and!; auto].
  intros (a & _ & H)%bind_Ok_inv. apply bind_Ok_inv in H as (b & _ & H). destruct (buildESPSA a _ _ _ _); [|by injection H as <- _; split_and!; auto|done].
  destruct (alloc_sa _ _) as [w l]. destruct (AddInboundSA w (Some l)) as [w1 r1]. apply bind_Ok_inv in H as ([] & _ & H).
  destruct (buildESPSA b _ _ _ _); [|by injection H as <- _; split_and!; auto|done]. destruct (alloc_sa w1 _) as [w2 k].
  destruct ip as [ip|]; [|by injection H as <- _; split_and!; auto]. destruct (AddOutboundSA _ _ _) as [e r2].
  apply bind_Ok_inv in H as ([] & _ & [= <- _]). by split_and!; auto.
Qed.

(** What happens to the manager, in any order: sessions are created, negotiate (their SPIs
    and their identity stay), are registered and deleted; child SAs are installed; packets
    change the data plane. *)
Inductive manager_step : state -> state -> Prop :=
  | step_new2 s l x : heap2 s !! l = None -> Forall (fun c => length (c2_InSPI c) = 4%nat) (s2_ChildSAs x) ->
      manager_step s (set_session2 s l x)
  | step_new1 s l x : heap1 s !! l = None -> Forall (fun c => length (c1_InSPI c) = 4%nat) (s1_ChildSAs x) ->
      manager_step s (set_session1 s l x)
  | step_update2 s l x y : heap2 s !! l = Some x -> SPIPair2 y = SPIPair2 x -> s2_PeerID y = s2_PeerID x ->
      Forall (fun c => length (c2_InSPI c) = 4%nat) (s2_ChildSAs y) -> manager_step s (set_session2 s l y)
  | step_update1 s l x y : heap1 s !! l = Some x -> SPIPair1 y = SPIPair1 x -> s1_PeerID y = s1_PeerID x ->
      Forall (fun c => length (c1_InSPI c) = 4%nat) (s1_ChildSAs y) -> manager_step s (set_session1 s l y)
  | step_register2 s l x s' : heap2 s !! l = Some x -> RegisterV2Session s l = Ok s' -> manager_step s s'
  | step_register1 s l x s' : heap1 s !! l = Some x -> RegisterV1Session s l = Ok s' -> manager_step s s'
  | step_delete s k s' : evictSessionLocked s k = Ok s' -> manager_step s s'
  | step_install s pair peer i o id ki ko ip now s' r :
      install_child s pair peer i o id ki ko ip now = Ok (s', r) -> manager_step s s'
  | step_esp s w : manager_step s (with_esp s w).

Lemma new_ok e w : manager_ok (mkState ∅ ∅ (NewSessionManager e) w).
Proof. constructor; cbn; try (intros *; by rewrite lookup_empty). by right. Qed.

Lemma set_session2_ok s l y :
  manager_ok s -> Forall (fun c => length (c2_InSPI c) = 4%nat) (s2_ChildSAs y) ->
  (forall x, heap2 s !! l = Some x -> SPIPair2 y = SPIPair2 x /\ s2_PeerID y = s2_PeerID x) -> manager_ok (set_session2 s l y).
Proof.
  intros [] Hc Hx. constructor; cbn; try done.
  - intros k l' Hk. destruct (mo_v3 k l' Hk) as (x & Hx' & Hp). destruct (decide (l' = l)) as [->|].
    + exists y. rewrite lookup_insert_eq. split; [done|]. rewrite <- Hp. by apply Hx.
    + exists x. by rewrite lookup_insert_ne.
  - intros k l' z Hk [[<- <-]|[_ Hz]]%lookup_insert_Some Hp; [|by eapply mo_id3].
    destruct (mo_v3 k _ Hk) as (x & Hx' & _). destruct (Hx x Hx') as [_ E]. rewrite E in *. by eapply mo_id3.
  - intros l' z [[<- <-]|[_ Hz]]%lookup_insert_Some; [done|by eapply mo_spi3].
Qed.

Lemma set_session1_ok s l y :
  manager_ok s -> Forall (fun c => length (c1_InSPI c) = 4%nat) (s1_ChildSAs y) ->
  (forall x, heap1 s !! l = Some x -> SPIPair1 y = SPIPair1 x /\ s1_PeerID y = s1_PeerID x) -> manager_ok (set_session1 s l y).
Proof.
  intros [] Hc Hx. constructor; cbn; try done.
  - intros k l' Hk. destruct (mo_v4 k l' Hk) as (x & Hx' & Hp). destruct (decide (l' = l)) as [->|].
    + exists y. rewrite lookup_insert_eq. split; [done|]. rewrite <- Hp. by apply Hx.
    + exists x. by rewrite lookup_insert_ne.
  - intros k l' z Hk [[<- <-]|[_ Hz]]%lookup_insert_Some Hp; [|by eapply mo_id4].
    destruct (mo_v4 k _ Hk) as (x & Hx' & _). destruct (Hx x Hx') as [_ E]. rewrite E in *. by eapply mo_id4.
  - intros l' z [[<- <-]|[_ Hz]]%lookup_insert_Some; [done|by eapply mo_spi4].
Qed.

Lemma manager_step_ok s s' : manager_ok s -> manager_step s s' -> manager_ok s'.
Proof.
  intros Hok Hs. destruct Hs as [s l x Hx Hc|s l x Hx Hc|s l x y Hx ? ? Hc|s l x y Hx ? ? Hc|s l x s' Hx Hr|s l x s' Hx Hr|s k s' He|
    s pair peer i o id ki ko ip now s' r Hi|s w].
  - apply set_session2_ok; [done..|]. intros x' Hx'. congruence.
  - apply set_session1_ok; [done..|]. intros x' Hx'. congruence.
  - apply set_session2_ok; [done..|]. intros x' Hx'. by simplify_eq.
  - apply set_session1_ok; [done..|]. intros x' Hx'. by simplify_eq.
  - destruct (RegisterV2_ok s l x Hok Hx) as (s1 & s2 & _ & E & Hok2 & _). congruence.
  - destruct (RegisterV1_ok s l x Hok Hx) as (s2 & E & Hok2 & _). congruence.
  - destruct (evict_ok s k Hok) as (s2 & E & Hev). rewrite He in E. injection E as <-. by eapply evicted_ok.
  - apply install_keeps in Hi as (E1 & E2 & E3 & E4 & E5 & E6 & E7). destruct Hok. constructor; rewrite ?E1, ?E2, ?E3, ?E4, ?E5, ?E6; try done.
    destruct mo_engine0 as [?|Ha]; [by left|]. destruct E7 as [?|E7]; [by left|right; congruence].
  - destruct Hok. by constructor.
Qed.

(** At any time, at most one connection per identity is registered, over both versions of
    IKE: two sessions with the same non-empty peer ID are filed under the same SPI pair. *)
Theorem single_connection_per_identity e w s p k k' :
  star manager_step (mkState ∅ ∅ (NewSessionManager e) w) s -> p <> [] ->
  registered s p k -> registered s p k' -> k = k'.
Proof.
  intros Hs Hp Hk Hk'. assert (manager_ok s) as Hok by (eapply star_invariant; [apply manager_step_ok|apply new_ok|exact Hs]).
  apply registered_identity in Hk, Hk'; [|done..]. congruence.
Qed.

(** Registering a session: it is found under its SPI pair; whatever session had its identity
    is marked as deleted and is no longer found, its inbound SAs are gone from the ESP
    engine, and no other SA is. *)
Theorem RegisterV2Session_correct s l x :
  manager_ok s -> heap2 s !! l = Some x ->
  exists s', RegisterV2Session s l = Ok s' /\ manager_ok s' /\ GetV2Session s' (SPIPair2 x) = Some l /\
    (s2_PeerID x <> [] -> forall k, registered s' (s2_PeerID x) k -> k = SPIPair2 x) /\
    match identityMap (manager s) !! s2_PeerID x with
    | None => esp s' = esp s /\ heap2 s' = heap2 s
    | Some k => (k <> SPIPair2 x -> GetV2Session s' k = None) /\ GetV1Session s' k = None /\
        (forall y, session2 s k = Some y -> exists j, heap2 s' !! j = Some (set_s2_State y StateV2Deleting)) /\
        (forall spi, LookupBySPI (saDB (eng (esp s'))) spi =
          if espEngine (manager s) && bool_decide (spi ∈ spi_of <$> owned s k) then None
          else LookupBySPI (saDB (eng (esp s))) spi)
    end.
Proof.
  intros Hok Hx. destruct (RegisterV2_ok s l x Hok Hx) as (s1 & s' & Ee & Er & Hok' & E1 & E2 & E3 & E4 & E5).
  exists s'. split; [done|]. split; [done|]. assert (v2Sessions (manager s') !! SPIPair2 x = Some l) as Hl by (rewrite E5; apply lookup_insert_eq).
  split; [done|]. destruct (evict_identity_ok s (s2_PeerID x) Hok) as (s1' & Ee' & _ & Hev & _). rewrite Ee in Ee'. injection Ee' as <-.
  destruct (evict_identity_heap _ _ _ _ _ Hev Hx) as (y & Hy & Hyx). split.
  { intros Hp k Hk. apply registered_identity in Hk; [|done..].
    assert (identityMap (manager s') !! s2_PeerID y = Some (SPIPair2 x)) as Hi.
    { eapply mo_id2; [done|exact Hl|by rewrite E2|]. by destruct Hyx as [->| ->]. }
    assert (s2_PeerID y = s2_PeerID x) as Hid by (by destruct Hyx as [->| ->]). rewrite Hid in Hi. congruence. }
  destruct Hev as [[-> ->]|(k & -> & Hev)]; [done|]. unfold GetV2Session, GetV1Session. split_and!.
  - intros Hne. rewrite E5, lookup_insert_ne, (ev_v2 _ _ _ Hev) by done. apply lookup_delete_eq.
  - rewrite E4, (ev_v1 _ _ _ Hev). apply lookup_delete_eq.
  - unfold session2. intros z Hz. destruct (v2Sessions (manager s) !! k) as [j|] eqn:Ej; [|done]. cbn in Hz.
    exists j. rewrite E2, (ev_heap2 _ _ _ Hev), Ej. cbn [mark]. by rewrite lookup_alter_eq, Hz.
  - rewrite E3. apply (ev_spi _ _ _ Hev).
Qed.

End eviction.

(** ** Negotiated SAs in the data plane *)

(** The SA of a key is the same on both sides, up to SPI, peer and time. *)
Lemma buildESPSA_ok id key suite :
  espSuite id key = Ok suite ->
  exists aead salt, IsAEAD suite = true /\ len salt = 4 /\ forall spi peer now, buildESPSA spi id key peer now =
    Ok (mkSA spi 0 false suite (Some aead) None salt IntegNone None
      (Some (Replay.NewReplayWindow Replay.DefaultReplayWindowSize)) peer true now).
Proof.
  intros Hs. assert (AEADKeySize suite = len key - 4 /\ (len key = 20 \/ len key = 36) /\
    (suite = AES128GCM \/ suite = AES256GCM \/ suite = CHACHA20POLY1305)) as (Hk & Hl & Hsu).
  { unfold espSuite in Hs. repeat case_match; simplify_eq; cbn;
      repeat match goal with H : (_ =? _) = true |- _ => apply Z.eqb_eq in H end; split_and!; auto; lia. }
  assert (exists aead, NewAEAD suite (sub key 0 (len key - 4)) = Ok aead) as (aead & Ha).
  { unfold NewAEAD. rewrite Hk. rewrite (proj2 (Z.eqb_neq _ 0)) by lia.
    assert (len (sub key 0 (len key - 4)) = len key - 4) as Hls by (rewrite len_sub by lia; lia).
    rewrite Hls, Z.eqb_refl. cbn [negb]. unfold aes_NewCipher, chacha20poly1305_New. rewrite Hls.
    destruct Hsu as [->|[->| ->]]; cbn in Hk; rewrite <- Hk; cbn; eauto. }
  exists aead, (sub key (len key - 4) (len key)). split; [by destruct Hsu as [->|[->| ->]]|].
  split; [rewrite len_sub by lia; lia|]. intros spi peer now. unfold buildESPSA. rewrite Hs, bind_Ok. unfold AEADSaltSize.
  rewrite (proj2 (Z.leb_gt _ 0)) by lia. rewrite !slice_ok, !bind_Ok by lia. unfold NewSecurityAssociation. rewrite Ha. unfold AEADSaltSize.
  assert (len (sub key (len key - 4) (len key)) = 4) as H4 by (rewrite len_sub by lia; lia).
  rewrite (fill_start 4), fill_copy, bind_Ok by (rewrite ?H4, ?(@len_nil Z); lia). by rewrite (make_0 (4 - _)), app_nil_r by lia.
Qed.

(** What both sides derive: a sender's SA, and a receiver's under the same SPI and key. *)
Lemma negotiated_keys_agree {C : Crypto} {CL : CryptoLaws C} spi id key suite p1 n1 p2 n2 out inb rnd payload nh out' pkt :
  espSuite id key = Ok suite -> is_u32 spi -> buildESPSA spi id key p1 n1 = Ok out -> buildESPSA spi id key p2 n2 = Ok inb ->
  good_rnd rnd -> bytes_wf payload -> is_u8 nh -> nh <> NextHeaderDummy -> Encrypt rnd (Some out) payload nh = (Some out', Ok pkt) ->
  exists w, Decrypt (Some inb) pkt = (Some (with_Window inb w), Ok (Some payload, nh)).
Proof.
  intros Hs Hspi Ho Hi Hr Hp Hn Hd He. destruct (buildESPSA_ok _ _ _ Hs) as (aead & salt & Ha & Hl & Hb).
  rewrite Hb in Ho, Hi. injection Ho as <-. injection Hi as <-.
  assert (sa_ok (mkSA spi 0 false suite (Some aead) None salt IntegNone None
    (Some (Replay.NewReplayWindow Replay.DefaultReplayWindowSize)) p1 true n1)) as Hok by (constructor; cbn; done).
  destruct (Encrypt_inv _ _ _ _ _ _ Hok Hr He) as (_ & Hsent & _).
  eexists. eapply Decrypt_sent; [exact Hok|by split_and!|done..|exact Hsent|]. reflexivity.
Qed.

(** Installing a child SA: packets with our SPI find an SA with the peer's key, packets for
    the assigned address one with ours. *)
Lemma install_child_ok s pair peer i o id ki ko si so a now :
  espEngine (manager s) = true -> espSuite id ki = Ok si -> espSuite id ko = Ok so ->
  length i = 4%nat -> length o = 4%nat -> 255 < spi_of i -> LookupBySPI (saDB (eng (esp s))) (spi_of i) = None ->
  exists s' lin lout inSA outSA, install_child s pair peer i o id ki ko (Some a) now = Ok (s', Ok tt) /\
    LookupBySPI (saDB (eng (esp s'))) (spi_of i) = Some lin /\ st (esp s') !! lin = Some inSA /\
    buildESPSA (spi_of i) id ki peer now = Ok inSA /\
    selectOutbound (eng (esp s')) (Some a) = Some lout /\ st (esp s') !! lout = Some outSA /\
    buildESPSA (spi_of o) id ko peer now = Ok outSA /\ assignedIPs (manager s') !! ip_key a = Some pair.
Proof.
  intros He Hsi Hso Hi Ho Hspi Hfree. unfold install_child. rewrite He. cbn [negb]. rewrite !spi_of_ok, !bind_Ok by done.
  destruct (buildESPSA_ok _ _ _ Hsi) as (ai & ti & _ & _ & Hbi). destruct (buildESPSA_ok _ _ _ Hso) as (ao & to & _ & _ & Hbo).
  rewrite Hbi. set (inSA := mkSA (spi_of i) _ _ _ _ _ _ _ _ _ _ _ _). unfold alloc_sa. set (lin := fresh (dom (st (esp s)))).
  assert (st (esp s) !! lin = None) as Hlin by (apply not_elem_of_dom, is_fresh).
  unfold AddInboundSA, AddInbound. cbn [st eng set_sa]. rewrite lookup_insert_eq. cbn [SPI inSA].
  change (SPI inSA) with (spi_of i). rewrite (proj2 (Z.eqb_neq _ 0)), (proj2 (Z.leb_gt _ 255)) by lia.
  unfold LookupBySPI in Hfree. rewrite Hfree. cbn [fst snd]. rewrite bind_Ok, Hbo. cbn [st eng].
  set (outSA := mkSA (spi_of o) _ _ _ _ _ _ _ _ _ _ _ _). set (lout := fresh (dom (<[lin := inSA]> (st (esp s))))).
  assert (<[lin := inSA]> (st (esp s)) !! lout = None) as Hlout by (apply not_elem_of_dom, is_fresh).
  assert (lin <> lout) as Hne by (intros E; rewrite <- E, lookup_insert_eq in Hlout; done).
  unfold AddOutboundSA. rewrite bind_Ok. eexists _, lin, lout, inSA, outSA. split; [reflexivity|]. cbn. split_and!.
  - unfold LookupBySPI. cbn. apply lookup_insert_eq.
  - by rewrite lookup_insert_ne, lookup_insert_eq.
  - done.
  - unfold selectOutbound. cbn. by rewrite lookup_insert_eq.
  - by rewrite lookup_insert_eq.
  - done.
  - apply lookup_insert_eq.
Qed.

(** The child SA of one side mirrors that of the other. *)
Definition mirrored (c c' : IKEv2ChildSA) : Prop :=
  c2_OutSPI c = c2_InSPI c' /\ c2_EncrKey c = c2_PeerEncrKey c' /\ c2_EncrID c = c2_EncrID c'.

(** What an installation needs of the state and of the child SA. *)
Record installable (s : state) (c : IKEv2ChildSA) : Prop := {
  inst_engine : espEngine (manager s) = true;
  inst_in : exists suite, espSuite (c2_EncrID c) (c2_PeerEncrKey c) = Ok suite;
  inst_out : exists suite, espSuite (c2_EncrID c) (c2_EncrKey c) = Ok suite;
  inst_inspi : length (c2_InSPI c) = 4%nat;
  inst_outspi : length (c2_OutSPI c) = 4%nat;
  inst_range : 255 < spi_of (c2_InSPI c);
  inst_free : LookupBySPI (saDB (eng (esp s))) (spi_of (c2_InSPI c)) = None
}.

(** C28: From the control plane to the data plane: once both peers install their halves of a
    child SA, the SA that one uses for packets to the assigned address and the SA that the
    other finds under the SPI of those packets are the two ends of a tunnel. *)
Theorem child_sa_carries_packets {C : Crypto} {CL : CryptoLaws C} s t sess sess' c c' a a' now now' :
  installable s c -> installable t c' -> mirrored c c' -> bytes_wf (c2_OutSPI c) ->
  exists s' t' lout outSA lin inSA,
    InstallV2ChildSA s sess c (Some a) now = Ok (s', Ok tt) /\ InstallV2ChildSA t sess' c' (Some a') now' = Ok (t', Ok tt) /\
    selectOutbound (eng (esp s')) (Some a) = Some lout /\ st (esp s') !! lout = Some outSA /\
    LookupBySPI (saDB (eng (esp t'))) (SPI outSA) = Some lin /\ st (esp t') !! lin = Some inSA /\
    forall rnd payload nh out' pkt, good_rnd rnd -> bytes_wf payload -> is_u8 nh -> nh <> NextHeaderDummy ->
      Encrypt rnd (Some outSA) payload nh = (Some out', Ok pkt) ->
      exists w, Decrypt (Some inSA) pkt = (Some (with_Window inSA w), Ok (Some payload, nh)).
Proof.
  intros [] [] (Hspi & Hkey & Hid) Hwf. destruct inst_in0 as [si Hsi], inst_out0 as [so Hso], inst_in1 as [si' Hsi'], inst_out1 as [so' Hso'].
  destruct (install_child_ok s (SPIPair2 sess) (s2_PeerAddr sess) (c2_InSPI c) (c2_OutSPI c) (c2_EncrID c) (c2_PeerEncrKey c) (c2_EncrKey c)
    si so a now) as (s' & l1 & lout & x & outSA & E & _ & _ & _ & Hsel & Hout & Hbo & _); [done..|].
  destruct (install_child_ok t (SPIPair2 sess') (s2_PeerAddr sess') (c2_InSPI c') (c2_OutSPI c') (c2_EncrID c') (c2_PeerEncrKey c') (c2_EncrKey c')
    si' so' a' now') as (t' & lin & l2 & inSA & y & E' & Hlk & Hin & Hbi & _); [done..|].
  assert (SPI outSA = spi_of (c2_OutSPI c)) as Hos.
  { destruct (buildESPSA_ok _ _ _ Hso) as (ai & ti & _ & _ & Hb). rewrite Hb in Hbo. by injection Hbo as <-. }
  assert (is_u32 (spi_of (c2_OutSPI c))) as Hu by (eapply be32_u32; [exact Hwf|by apply spi_of_ok]).
  exists s', t', lout, outSA, lin, inSA. rewrite Hos, Hspi. split_and!; [done..|]. intros rnd payload nh out' pkt Hr Hp Hn Hd He.
  rewrite Hspi in Hu, Hbo. rewrite Hkey, Hid in Hbo, Hso. eapply negotiated_keys_agree; [exact Hso|exact Hu|exact Hbo|exact Hbi|done..].
Qed.

(** ** Two hosts and a reconnecting client *)

#[global] Instance list_order : MapOrder := {| range_order := map_to_list; range_order_perm := fun m => reflexivity _ |}.

Definition idle_world : world := mkWorld ∅ (mkEngine NewSADatabase true true true None 4500 false ∅).
Definition empty_state : state := mkState ∅ ∅ (NewSessionManager true) idle_world.

Definition child_a : IKEv2ChildSA :=
  mkChild2 [0; 0; 16; 1] [0; 0; 32; 2] (replicate 36 1) [] (replicate 36 2) [] 20 0 256.
Definition child_b : IKEv2ChildSA :=
  mkChild2 [0; 0; 32; 2] [0; 0; 16; 1] (replicate 36 2) [] (replicate 36 1) [] 20 0 256.

Definition client_session (spi : Z) : IKEv2Session :=
  let s := demo_session (Crypto.aesGCMEncryptor 20 32) None (Keys.mkKeys2 [] [] [] [] [] [] []) in
  set_s2_ChildSAs (set_s2_PeerID (mkSess2 (replicate 8 spi) (s2_ResponderSPI s) false (s2_PeerAddr s) StateV2Established 0 0 0 0 0
    [] [] [] [] [] [] (s2_Keys s) (s2_PRF s) (s2_Encryptor s) None [] [] 0 [] [] 0 [] [] false false false 0 [] None 0 0 [] None None None None)
    [97; 108; 105; 99; 101]) [child_a].

Lemma child_sa_carries_packets_witness :
  exists s' t' lout outSA lin inSA,
    InstallV2ChildSA empty_state (client_session 1) child_a (Some [10; 0; 0; 2]) 0 = Ok (s', Ok tt) /\
    InstallV2ChildSA empty_state (client_session 2) child_b (Some [10; 0; 0; 1]) 0 = Ok (t', Ok tt) /\
    selectOutbound (eng (esp s')) (Some [10; 0; 0; 2]) = Some lout /\ st (esp s') !! lout = Some outSA /\
    LookupBySPI (saDB (eng (esp t'))) (SPI outSA) = Some lin /\ st (esp t') !! lin = Some inSA /\
    forall rnd payload nh out' pkt, good_rnd rnd -> bytes_wf payload -> is_u8 nh -> nh <> NextHeaderDummy ->
      @Encrypt Toy.toy rnd (Some outSA) payload nh = (Some out', Ok pkt) ->
      exists w, @Decrypt Toy.toy (Some inSA) pkt = (Some (with_Window inSA w), Ok (Some payload, nh)).
Proof.
  apply (@child_sa_carries_packets Toy.toy Toy.toy_laws).
  - constructor; cbn; try reflexivity; by eexists.
  - constructor; cbn; try reflexivity; by eexists.
  - by split_and!.
  - by apply (bool_decide_unpack _).
Defined.

(** The first connection of a client, registered, and a second one. *)
Definition connected : state :=
  match RegisterV2Session (set_session2 empty_state 1 (client_session 1)) 1 with Ok s => s | _ => empty_state end.

Lemma connected_ok : manager_ok (set_session2 connected 2 (client_session 2)).
Proof.
  assert (manager_ok connected) as Hok.
  { destruct (RegisterV2_ok (set_session2 empty_state 1 (client_session 1)) 1 (client_session 1)) as (s1 & s' & _ & E & Hok & _);
      [|reflexivity|unfold connected; by rewrite E].
    apply set_session2_ok; [apply new_ok|by repeat constructor|done]. }
  apply set_session2_ok; [done|by repeat constructor|done].
Qed.

Lemma RegisterV2Session_correct_witness :
  exists s', RegisterV2Session (set_session2 connected 2 (client_session 2)) 2 = Ok s' /\
    GetV2Session s' (SPIPair2 (client_session 2)) = Some 2%nat /\ GetV2Session s' (SPIPair2 (client_session 1)) = None.
Proof.
  destruct (RegisterV2Session_correct (set_session2 connected 2 (client_session 2)) 2 (client_session 2) connected_ok eq_refl)
    as (s' & E & _ & Hg & _ & H). exists s'. split; [exact E|]. split; [exact Hg|]. exact (proj1 H ltac:(by vm_compute)).
Defined.

Lemma single_connection_per_identity_witness : SPIPair2 (client_session 1) = SPIPair2 (client_session 1).
Proof.
  apply (single_connection_per_identity true idle_world connected [97; 108; 105; 99; 101] (SPIPair2 (client_session 1)) (SPIPair2 (client_session 1))).
  - eapply star_snoc; [eapply star_snoc; [apply star_refl|]|].
    + apply (step_new2 _ 1 (client_session 1)); [done|by repeat constructor].
    + apply (step_register2 _ 1 (client_session 1)); [reflexivity|vm_compute; reflexivity].
  - done.
  - left. exists 1%nat, (client_session 1). split_and!; vm_compute; reflexivity.
  - left. exists 1%nat, (client_session 1). split_and!; vm_compute; reflexivity.
Defined.

End Manager.
