(* ===== verification/IkeRetransmit.v ===== *)
(** * IkeRetransmit: retransmission and dead peer detection
      ([internal/ike/retransmit.go], [internal/ike/dpd.go])

    A timer of [time.AfterFunc] is the duration it is armed with; when it fires, it calls
    [handleTimeout].  The two callbacks are events.  Durations are nanoseconds. *)

From stdpp Require Import gmap.
From S2P Require Import Prelude Wire IkeHeader IkePayload IkeSA IkeV1 IkeMessage.

Module Retransmit.

Record RetransmitConfig := mkConfig { InitialInterval : Z; MaxInterval : Z; MaxRetries : Z }.

Definition Second : Z := 1000000000.
Definition DefaultRetransmitConfig : RetransmitConfig := mkConfig (1 * Second) (16 * Second) 5.

Record PendingRequest := mkRequest {
  MsgID : Z;
  Data : bytes;
  Retries : Z;
  Timer : option Z;                 (* what the timer is armed with; [None] once stopped *)
  Interval : Z
}.

Record Retransmitter := mkRetransmitter {
  cfg : RetransmitConfig;
  pending : gmap Z PendingRequest;
  sendFunc : bool;                  (* whether the callbacks are set *)
  timeoutFunc : bool
}.

(** The calls of [sendFunc] and [timeoutFunc]. *)
Inductive callback := Send (data : bytes) | TimedOut.

Definition NewRetransmitter (cfg : RetransmitConfig) (send timeout : bool) : Retransmitter :=
  mkRetransmitter cfg ∅ send timeout.

Definition with_pending (r : Retransmitter) (p : gmap Z PendingRequest) : Retransmitter :=
  mkRetransmitter (cfg r) p (sendFunc r) (timeoutFunc r).

Definition Start (r : Retransmitter) (msgID : Z) (data : bytes) : Retransmitter :=
  match pending r !! msgID with
  | Some _ => r
  | None =>
    let req := mkRequest msgID data 0 (Some (InitialInterval (cfg r))) (InitialInterval (cfg r)) in
    with_pending r (<[msgID := req]> (pending r))
  end.

Definition Stop (r : Retransmitter) (msgID : Z) : Retransmitter :=
  match pending r !! msgID with
  | Some _ => with_pending r (delete msgID (pending r))
  | None => r
  end.

(** [time.Duration] is an int64, and so is the doubled interval. *)
Definition handleTimeout (r : Retransmitter) (msgID : Z) : Retransmitter * list callback :=
  match pending r !! msgID with
  | None => (r, [])
  | Some req =>
    let retries := Retries req + 1 in
    if retries >? MaxRetries (cfg r) then
      (with_pending r (delete msgID (pending r)), if timeoutFunc r then [TimedOut] else [])
    else
      let interval := i64 (Interval req * 2) in
      let interval := if interval >? MaxInterval (cfg r) then MaxInterval (cfg r) else interval in
      let req := mkRequest (MsgID req) (Data req) retries (Some interval) interval in
      (with_pending r (<[msgID := req]> (pending r)), if sendFunc r then [Send (Data req)] else [])
  end.

Definition StopAll (r : Retransmitter) : Retransmitter := with_pending r ∅.

(** ** The schedule of an unanswered request *)

(** The timer of a request fires [n] times. *)
Fixpoint fire (n : nat) (r : Retransmitter) (msgID : Z) : Retransmitter * list callback :=
  match n with
  | O => (r, [])
  | S n => let '(r, a) := handleTimeout r msgID in let '(r, b) := fire n r msgID in (r, a ++ b)
  end.

(** The interval before the [k]-th retransmission: exponential, up to the maximum. *)
Definition backoff (c : RetransmitConfig) (k : nat) : Z := Z.min (InitialInterval c * 2 ^ Z.of_nat k) (MaxInterval c).

(** A request of [data] after [k] retransmissions. *)
Definition waiting (c : RetransmitConfig) (msgID : Z) (data : bytes) (k : nat) : PendingRequest :=
  mkRequest msgID data (Z.of_nat k) (Some (backoff c k)) (backoff c k).

Definition config_ok (c : RetransmitConfig) : Prop :=
  0 < InitialInterval c <= MaxInterval c /\ MaxInterval c < 2 ^ 62.


Lemma backoff_range c k : config_ok c -> 0 < backoff c k <= MaxInterval c.
Proof.
  intros [Hi Hm]. unfold backoff. pose proof (Z.pow_pos_nonneg 2 (Z.of_nat k) ltac:(lia) ltac:(lia)).
  assert (0 < InitialInterval c * 2 ^ Z.of_nat k) by nia. lia.
Qed.

Lemma backoff_S c k : config_ok c ->
  (if i64 (backoff c k * 2) >? MaxInterval c then MaxInterval c else i64 (backoff c k * 2)) = backoff c (S k).
Proof.
  intros Hc. pose proof (backoff_range c k Hc) as Hr. destruct Hc as [Hi Hm]. rewrite i64_id by lia.
  unfold backoff in *. rewrite Nat2Z.inj_succ, Z.pow_succ_r by lia. set (x := InitialInterval c * 2 ^ Z.of_nat k) in *.
  replace (InitialInterval c * (2 * 2 ^ Z.of_nat k)) with (x * 2) by (unfold x; ring).
  destruct (Z.gtb_spec (Z.min x (MaxInterval c) * 2) (MaxInterval c)); lia.
Qed.

Lemma handleTimeout_retry r msgID data k :
  config_ok (cfg r) -> pending r !! msgID = Some (waiting (cfg r) msgID data k) -> Z.of_nat (S k) <= MaxRetries (cfg r) ->
  handleTimeout r msgID = (with_pending r (<[msgID := waiting (cfg r) msgID data (S k)]> (pending r)),
    if sendFunc r then [Send data] else []).
Proof.
  intros Hc Hp Hk. unfold handleTimeout. rewrite Hp. cbn [Retries Interval MsgID Data waiting].
  rewrite gtb_false by lia. rewrite backoff_S by done. unfold waiting. by replace (Z.of_nat k + 1) with (Z.of_nat (S k)) by lia.
Qed.

Lemma fire_retries r msgID data : config_ok (cfg r) -> sendFunc r = true -> forall n k,
  pending r !! msgID = Some (waiting (cfg r) msgID data k) -> Z.of_nat (k + n) <= MaxRetries (cfg r) ->
  fire n r msgID = (with_pending r (<[msgID := waiting (cfg r) msgID data (k + n)]> (pending r)), replicate n (Send data)).
Proof.
  intros Hc Hs n. revert r Hc Hs. induction n as [|n IH]; intros r Hc Hs k Hp Hk; cbn [fire].
  - rewrite Nat.add_0_r, insert_id by done. by destruct r.
  - rewrite (handleTimeout_retry r msgID data k), Hs by (done || lia).
    rewrite (IH (with_pending r _) Hc Hs (S k)); [|apply lookup_insert_eq|change (Z.of_nat (S k + n) <= MaxRetries (cfg r)); lia].
    cbn [with_pending pending cfg sendFunc timeoutFunc app replicate]. rewrite insert_insert_eq.
    by replace (S k + n)%nat with (k + S n)%nat by lia.
Qed.

(** C35: A request that is never answered is sent again exactly [MaxRetries] times, at doubling
    intervals up to the maximum; then it is dropped and the session torn down, once. *)
Theorem retransmit_schedule r msgID data n :
  config_ok (cfg r) -> sendFunc r = true -> timeoutFunc r = true -> pending r !! msgID = None ->
  MaxRetries (cfg r) = Z.of_nat n ->
  (forall k, (k <= n)%nat -> exists r', fire k (Start r msgID data) msgID = (r', replicate k (Send data)) /\
    Timer <$> pending r' !! msgID = Some (Some (backoff (cfg r) k))) /\
  fire (S n) (Start r msgID data) msgID = (r, replicate n (Send data) ++ [TimedOut]) /\
  forall m, fire m r msgID = (r, []).
Proof.
  intros Hc Hs Ht Hp Hn. set (r0 := Start r msgID data).
  assert (r0 = with_pending r (<[msgID := waiting (cfg r) msgID data 0]> (pending r))) as E0.
  { unfold r0, Start. rewrite Hp. unfold waiting. assert (backoff (cfg r) 0 = InitialInterval (cfg r)) as -> by (destruct Hc; unfold backoff; change (2 ^ Z.of_nat 0) with 1; lia). done. }
  assert (forall k, (k <= n)%nat -> fire k r0 msgID =
    (with_pending r (<[msgID := waiting (cfg r) msgID data k]> (pending r)), replicate k (Send data))) as Hf.
  { intros k Hk. rewrite E0, (fire_retries _ msgID data) with (k := 0%nat); [|done|done|apply lookup_insert_eq|cbn; lia].
    cbn [with_pending pending cfg sendFunc timeoutFunc]. by rewrite insert_insert_eq. }
  assert (handleTimeout r msgID = (r, [])) as Hnone by (unfold handleTimeout; by rewrite Hp). split; [|split].
  - intros k Hk. rewrite Hf by done. eexists. split; [done|]. cbn. by rewrite lookup_insert_eq.
  - assert (forall m r1 l1 r2 l2, fire m r1 msgID = (r2, l1) -> handleTimeout r2 msgID = (r, l2) -> fire (S m) r1 msgID = (r, l1 ++ l2)) as Hsnoc.
    { induction m as [|m IH]; intros r1 l1 r2 l2 H1 H2.
      - cbn [fire] in *. injection H1 as <- <-. rewrite H2. by rewrite app_nil_r.
      - cbn [fire] in H1. destruct (handleTimeout r1 msgID) as [r1' a] eqn:E. destruct (fire m r1' msgID) as [r1'' b] eqn:E'.
        injection H1 as <- <-. specialize (IH _ _ _ _ E' H2). cbn [fire] in IH |- *. rewrite E, IH. by rewrite app_assoc. }
    eapply Hsnoc; [by apply Hf|]. unfold handleTimeout. cbn [with_pending pending cfg timeoutFunc]. rewrite lookup_insert_eq.
    cbn [waiting Retries]. rewrite (proj2 (Z.gtb_lt _ _)), Ht by lia. rewrite delete_insert_id by done. by destruct r.
  - induction m as [|m IH]; [done|]. cbn [fire]. by rewrite Hnone, IH.
Qed.

Lemma retransmit_schedule_witness :
  fire 6 (Start (NewRetransmitter DefaultRetransmitConfig true true) 1 [7]) 1 =
    (NewRetransmitter DefaultRetransmitConfig true true, replicate 5 (Send [7]) ++ [TimedOut]).
Proof.
  apply (retransmit_schedule (NewRetransmitter DefaultRetransmitConfig true true) 1 [7] 5);
    [by split; [split|]|reflexivity|reflexivity|reflexivity|reflexivity].
Defined.

(** An answer stops the retransmissions, whatever timer still fires. *)
Lemma Stop_silences r msgID n : fire n (Stop r msgID) msgID = (Stop r msgID, []).
Proof.
  assert (pending (Stop r msgID) !! msgID = None) as Hp by (unfold Stop; case_match; [apply lookup_delete_eq|done]).
  induction n as [|n IH]; [done|]. cbn [fire]. unfold handleTimeout at 1. by rewrite Hp, IH.
Qed.

(** ** Dead peer detection *)

Module DPD.
Import Hdr Pl V1 Msg.

Definition NotifyV1DPD_R_U_THERE : Z := 36136.
Definition NotifyV1DPD_R_U_THERE_ACK : Z := 36137.

Definition DPDVendorID : bytes :=
  [0xAF; 0xCA; 0xD7; 0x13; 0x68; 0xA1; 0xF1; 0xC9; 0x6B; 0x86; 0x96; 0xFC; 0x77; 0x57; 0x01; 0x00].

(** The global counter, incremented atomically: the new state is also the result. *)
Definition NextDPDSequence (dpdSequenceCounter : Z) : Z := u32 (dpdSequenceCounter + 1).

(** The loop over [DPDVendorID]. *)
Fixpoint vendor_loop (i : Z) (vid vendorData : bytes) : res bool :=
  match vid with
  | [] => Ok true
  | b :: vid =>
    x ← idx vendorData i;
    if negb (x =? b) then Ok false else vendor_loop (i + 1) vid vendorData
  end.

Definition IsDPDVendorID (vendorData : bytes) : res bool :=
  if negb (len vendorData =? len DPDVendorID) then Ok false
  else vendor_loop 0 DPDVendorID vendorData.

(** The message both builders make, but for the type of the notification. *)
Definition dpd_message (notifyType : Z) (initiatorSPI responderSPI : bytes) (messageID seq : Z) : Message :=
  let notify := mkNotifyV1 DOIIPsec SA.ProtocolIKE 16 notifyType (initiatorSPI ++ responderSPI) (put32 seq) in
  let h := SetIKEv1 (mkHeader initiatorSPI responderSPI PayloadNotifyV1 0 0 ExchangeInformationalV1 0 messageID 0) in
  mkMessage h [mkParsed (mkGPH PayloadNone false 0) (PNotifyV1 notify)] [].

Definition BuildDPDRUThere (initiatorSPI responderSPI : bytes) (messageID seq : Z) : Message :=
  dpd_message NotifyV1DPD_R_U_THERE initiatorSPI responderSPI messageID seq.

Definition BuildDPDRUThereAck (initiatorSPI responderSPI : bytes) (messageID seq : Z) : Message :=
  dpd_message NotifyV1DPD_R_U_THERE_ACK initiatorSPI responderSPI messageID seq.

(** A nil message is [None]. *)
Definition HandleDPDNotify (notify : option NotifyV1Payload) (initiatorSPI responderSPI : bytes) (messageID : Z) : res (option Message) :=
  match notify with
  | None => Ok None
  | Some notify =>
    if nt1_NotifyMsgType notify =? NotifyV1DPD_R_U_THERE then
      seq ← (if len (nt1_NotifyData notify) >=? 4 then be32_at (nt1_NotifyData notify) 0 else Ok 0);
      Ok (Some (BuildDPDRUThereAck initiatorSPI responderSPI messageID seq))
    else Ok None
  end.

(** Only the vendor ID itself is recognised. *)
Lemma IsDPDVendorID_iff v : IsDPDVendorID v = Ok (bool_decide (v = DPDVendorID)).
Proof.
  assert (forall vid pre l, len vid = len l -> vendor_loop (len pre) vid (pre ++ l) = Ok (bool_decide (l = vid))) as Hloop.
  { induction vid as [|b vid IH]; intros pre [|x l] Hl; try (unfold len in Hl; cbn in Hl; lia); [by rewrite bool_decide_eq_true_2|].
    cbn [vendor_loop]. rewrite idx_mid, bind_Ok by done. destruct (Z.eqb_spec x b) as [->|Hne]; cbn [negb].
    - replace (pre ++ b :: l) with ((pre ++ [b]) ++ l) by (by rewrite <- app_assoc).
      replace (len pre + 1) with (len (pre ++ [b])) by (len_norm; lia). rewrite !len_cons in Hl. rewrite IH by lia.
      f_equal. apply bool_decide_ext. naive_solver.
    - by rewrite bool_decide_eq_false_2 by naive_solver. }
  unfold IsDPDVendorID. destruct (Z.eqb_spec (len v) (len DPDVendorID)) as [E|E]; cbn [negb].
  - by apply (Hloop DPDVendorID []).
  - rewrite bool_decide_eq_false_2; [done|]. by intros ->.
Qed.

(** The probe and its answer on the wire. *)
Lemma dpd_content i r id seq ty :
  length i = 8%nat -> length r = 8%nat -> bytes_wf i -> bytes_wf r -> is_u16 ty ->
  Forall (payload_ok false) (pp_Payload <$> msg_Payloads (dpd_message ty i r id seq)).
Proof.
  intros Hi Hr Hwi Hwr Ht. apply Forall_singleton. assert (len (i ++ r) = 16) as Hl by (rewrite len_app; unfold len; lia).
  split; cbn [content_ok payload_body pp_Payload].
  - split; [done|]. constructor; cbn [nt1_DOI nt1_ProtocolID nt1_SPISize nt1_NotifyMsgType nt1_SPI nt1_NotifyData]; try done; try lia;
      [by apply Forall_app_2|apply put32_wf].
  - unfold notify1_body. cbn [nt1_DOI nt1_ProtocolID nt1_SPISize nt1_NotifyMsgType nt1_SPI nt1_NotifyData]. len_norm. lia.
Qed.

(** A live peer answers a probe: what [BuildDPDRUThere] sends, the peer parses to the
    notification [HandleDPDNotify] acknowledges with the same sequence number; the
    acknowledgement arrives too, and asks for no answer. *)
Theorem dpd_roundtrip i r id seq :
  length i = 8%nat -> length r = 8%nat -> bytes_wf i -> bytes_wf r -> is_u32 id -> is_u32 seq ->
  let delivered ty n := exists m b m', Message_Marshal (dpd_message ty i r id seq) = Ok (m, b) /\ ParseMessage b = Ok m' /\
    pp_Payload <$> msg_Payloads m' = [PNotifyV1 n] in
  exists probe ack,
    delivered NotifyV1DPD_R_U_THERE probe /\ HandleDPDNotify (Some probe) i r id = Ok (Some (BuildDPDRUThereAck i r id seq)) /\
    delivered NotifyV1DPD_R_U_THERE_ACK ack /\ HandleDPDNotify (Some ack) i r id = Ok None.
Proof.
  intros Hi Hr Hwi Hwr Hid Hseq delivered.
  assert (forall ty, is_u16 ty -> delivered ty (mkNotifyV1 DOIIPsec SA.ProtocolIKE 16 ty (i ++ r) (put32 seq))) as Hd.
  { intros ty Ht. pose proof (dpd_content i r id seq ty Hi Hr Hwi Hwr Ht) as Hok. set (m := dpd_message ty i r id seq) in *.
    assert (header_ok (msg_Header m)) as Hh by (constructor; cbn; try done; unfold is_u8, is_u32; lia).
    assert (HeaderLen + len (chain_bytes (pp_Payload <$> msg_Payloads m)) < 4294967296) as Hl.
    { inversion_clear Hok as [|? ? [_ Hb] _]. cbn [fmap list_fmap chain_bytes msg_Payloads m dpd_message pp_Payload] in Hb |- *.
      rewrite len_app, len_payload_bytes. unfold HeaderLen. cbn [len length]. change (len (@nil Z)) with 0. lia. }
    assert (Forall (content_ok false) (pp_Payload <$> msg_Payloads m)) as Hc by (eapply Forall_impl; [exact Hok|by intros ? []]).
    eexists _, _, _. split; [by apply (Message_Marshal_bytes false)|].
    split; [rewrite <- (app_nil_r (chain_bytes _)); by apply ParseMessage_bytes|]. apply parsed_chain_payloads. }
  eexists _, _. split; [by apply Hd|]. split; [|split; [by apply Hd|done]].
  cbn [HandleDPDNotify nt1_NotifyMsgType nt1_NotifyData]. change (NotifyV1DPD_R_U_THERE =? NotifyV1DPD_R_U_THERE) with true. cbv iota.
  rewrite len_put32. change (4 >=? 4) with true. cbv iota. rewrite <- (app_nil_r (put32 seq)). by rewrite be32_at_hd4, bind_Ok.
Qed.

Lemma dpd_roundtrip_witness :
  exists probe, HandleDPDNotify (Some probe) [1;2;3;4;5;6;7;8] [8;7;6;5;4;3;2;1] 5 =
    Ok (Some (BuildDPDRUThereAck [1;2;3;4;5;6;7;8] [8;7;6;5;4;3;2;1] 5 77)).
Proof.
  destruct (dpd_roundtrip [1;2;3;4;5;6;7;8] [8;7;6;5;4;3;2;1] 5 77) as (probe & ack & _ & H & _); [reflexivity|reflexivity| | |done|done|].
  - by apply (bool_decide_unpack _).
  - by apply (bool_decide_unpack _).
  - exists probe. exact H.
Defined.

End DPD.

End Retransmit.
