(* ===== verification/IkeEap.v ===== *)
(** * IkeEap: EAP packets and EAP-MSCHAPv2
      ([internal/ike/eap.go], [internal/ike/eap_mschapv2.go])

    MD4 and DES are parameters (class [Legacy]); SHA-1 is that of [IkeKeys].  A Go
    string is its bytes; [[]rune] and [utf16.Encode] are modelled on them. *)

From S2P Require Import Prelude Wire EspCipher Rand IkeCrypto IkeKeys.

Module Eap.
Import Cipher Keys.

(** ** EAP packets *)

Definition EAPCodeRequest : Z := 1.
Definition EAPCodeResponse : Z := 2.
Definition EAPCodeSuccess : Z := 3.
Definition EAPCodeFailure : Z := 4.

Definition EAPTypeIdentity : Z := 1.
Definition EAPTypeNotify : Z := 2.
Definition EAPTypeNAK : Z := 3.
Definition EAPTypeMSCHAPv2 : Z := 26.
Definition EAPTypeTLS : Z := 13.
Definition EAPTypeExpanded : Z := 254.

Record EAPPacket := mkEAPPacket { eap_Code : Z; eap_Identifier : Z; eap_Type : Z; eap_Data : bytes }.

Definition is_final (code : Z) : bool := (code =? EAPCodeSuccess) || (code =? EAPCodeFailure).

Definition ParseEAPPacket (data : bytes) : res EAPPacket :=
  if len data <? 4 then Err "EAP packet too short"
  else
    code ← idx data 0;
    id ← idx data 1;
    length ← be16_at data 2;
    if length >? len data then Err "EAP length exceeds data size"
    else if length <? 4 then Err "EAP length too small"
    else if is_final code then Ok (mkEAPPacket code id 0 [])
    else if length <? 5 then Err "EAP Request/Response too short"
    else
      ty ← idx data 4;
      d ← (if length >? 5 then slice data 5 length else Ok []);
      Ok (mkEAPPacket code id ty d).

Definition EAPPacket_Marshal (p : EAPPacket) : res bytes :=
  if is_final (eap_Code p) then
    buf ← set_at (make 4) 0 (eap_Code p);
    buf ← set_at buf 1 (eap_Identifier p);
    put16_at buf 2 4
  else
    let totalLen := 5 + len (eap_Data p) in
    buf ← set_at (make totalLen) 0 (eap_Code p);
    buf ← set_at buf 1 (eap_Identifier p);
    buf ← put16_at buf 2 (u16 totalLen);
    buf ← set_at buf 4 (eap_Type p);
    if len (eap_Data p) >? 0 then copy_at buf 5 (eap_Data p) else Ok buf.

Definition BuildEAPIdentityRequest (id : Z) : res bytes := EAPPacket_Marshal (mkEAPPacket EAPCodeRequest id EAPTypeIdentity []).
Definition BuildEAPSuccess (id : Z) : res bytes := EAPPacket_Marshal (mkEAPPacket EAPCodeSuccess id 0 []).
Definition BuildEAPFailure (id : Z) : res bytes := EAPPacket_Marshal (mkEAPPacket EAPCodeFailure id 0 []).

Definition ParseEAPIdentityResponse (pkt : EAPPacket) : res bytes :=
  if negb (eap_Code pkt =? EAPCodeResponse) || negb (eap_Type pkt =? EAPTypeIdentity) then Err "not an EAP-Identity response"
  else Ok (eap_Data pkt).

(** ** UTF-16 *)

Definition cont (b : Z) : bool := (128 <=? b) && (b <=? 191).
Definition low6 (b : Z) : Z := Z.land b 63.

(** The bytes a second byte may be, by the first. *)
Definition second_ok (b0 b1 : Z) : bool :=
  if b0 =? 0xE0 then (0xA0 <=? b1) && (b1 <=? 0xBF)
  else if b0 =? 0xED then (0x80 <=? b1) && (b1 <=? 0x9F)
  else if b0 =? 0xF0 then (0x90 <=? b1) && (b1 <=? 0xBF)
  else if b0 =? 0xF4 then (0x80 <=? b1) && (b1 <=? 0x8F)
  else cont b1.

(** [[]rune(s)]: an invalid sequence yields U+FFFD and consumes one byte. *)
Fixpoint runes (fuel : nat) (s : bytes) : list Z :=
  match fuel, s with
  | O, _ | _, [] => []
  | S fuel, b0 :: s1 =>
    if b0 <? 0x80 then b0 :: runes fuel s1
    else match s1 with
    | b1 :: s2 =>
      if (0xC2 <=? b0) && (b0 <=? 0xDF) && cont b1 then (Z.land b0 31 * 64 + low6 b1) :: runes fuel s2
      else match s2 with
      | b2 :: s3 =>
        if (0xE0 <=? b0) && (b0 <=? 0xEF) && second_ok b0 b1 && cont b2
        then (Z.land b0 15 * 4096 + low6 b1 * 64 + low6 b2) :: runes fuel s3
        else match s3 with
        | b3 :: s4 =>
          if (0xF0 <=? b0) && (b0 <=? 0xF4) && second_ok b0 b1 && cont b2 && cont b3
          then (Z.land b0 7 * 262144 + low6 b1 * 4096 + low6 b2 * 64 + low6 b3) :: runes fuel s4
          else 0xFFFD :: runes fuel s1
        | [] => 0xFFFD :: runes fuel s1
        end
      | [] => 0xFFFD :: runes fuel s1
      end
    | [] => 0xFFFD :: runes fuel s1
    end
  end.

(** [utf16.Encode]: a rune above the basic plane is a surrogate pair. *)
Definition utf16_rune (r : Z) : list Z :=
  if r <? 0x10000 then [r]
  else let r := r - 0x10000 in [0xD800 + Z.shiftr r 10; 0xDC00 + Z.land r 0x3FF].
Definition utf16_Encode (s : bytes) : list Z := concat (utf16_rune <$> runes (length s) s).

(** ** MS-CHAPv2 *)

Definition MSCHAPv2OpChallenge : Z := 1.
Definition MSCHAPv2OpResponse : Z := 2.
Definition MSCHAPv2OpSuccess : Z := 3.
Definition MSCHAPv2OpFailure : Z := 4.

(** [golang.org/x/crypto/md4] and [crypto/des] (with a key of eight bytes). *)
Class Legacy := { md4 : bytes -> bytes; des_Encrypt : bytes -> bytes -> bytes }.
Class LegacyLaws (L : Legacy) := {
  len_md4 d : len (md4 d) = 16;
  len_des k b : len b = 8 -> len (des_Encrypt k b) = 8
}.

Definition GenerateMSCHAPv2Challenge (r : rng) : bytes * rng := rand_Read r 16.

Section mschap.
Context {L : Legacy} {D : Digests}.

Definition NtPasswordHash (password : bytes) : bytes :=
  md4 (concat ((fun c => [c mod 256; c / 256]) <$> utf16_Encode password)).

Definition HashNtPasswordHash (ntHash : bytes) : bytes := md4 ntHash.

Definition ChallengeHash (peerChallenge authChallenge username : bytes) : res bytes :=
  let digest := digest SHA1 (peerChallenge ++ authChallenge ++ username) in
  slice digest 0 8.

(** The bytes of the 7-byte key, spread over eight. *)
Definition expand_key (key7 : bytes) : res bytes :=
  k0 ← idx key7 0; k1 ← idx key7 1; k2 ← idx key7 2; k3 ← idx key7 3; k4 ← idx key7 4; k5 ← idx key7 5; k6 ← idx key7 6;
  let key8 := [ Z.shiftr k0 1;
    Z.lor (u8 (Z.shiftl (Z.land k0 0x01) 6)) (Z.shiftr k1 2);
    Z.lor (u8 (Z.shiftl (Z.land k1 0x03) 5)) (Z.shiftr k2 3);
    Z.lor (u8 (Z.shiftl (Z.land k2 0x07) 4)) (Z.shiftr k3 4);
    Z.lor (u8 (Z.shiftl (Z.land k3 0x0F) 3)) (Z.shiftr k4 5);
    Z.lor (u8 (Z.shiftl (Z.land k4 0x1F) 2)) (Z.shiftr k5 6);
    Z.lor (u8 (Z.shiftl (Z.land k5 0x3F) 1)) (Z.shiftr k6 7);
    Z.land k6 0x7F ] in
  Ok ((fun k => Z.land (u8 (Z.shiftl k 1)) 0xFE) <$> key8).

Definition desEncryptBlock (key7 data : bytes) : res bytes :=
  key8 ← expand_key key7;
  block ← slice data 0 8;
  Ok (des_Encrypt key8 block).

(** The loop over the three keys; [n] passes from [i]. *)
Fixpoint challenge_loop (n : nat) (i : Z) (paddedHash challenge result : bytes) : res bytes :=
  match n with
  | O => Ok result
  | S n =>
    key7 ← slice paddedHash (i * 7) ((i + 1) * 7);
    block ← desEncryptBlock key7 challenge;
    result ← copy_at result (i * 8) block;
    challenge_loop n (i + 1) paddedHash challenge result
  end.

Definition ChallengeResponse (challenge ntHash : bytes) : res bytes :=
  paddedHash ← copy_at (make 21) 0 ntHash;
  challenge_loop 3 0 paddedHash challenge (make 24).

Definition GenerateNTResponse (authChallenge peerChallenge username password : bytes) : res bytes :=
  challenge ← ChallengeHash peerChallenge authChallenge username;
  let ntHash := NtPasswordHash password in
  ChallengeResponse challenge ntHash.

Definition magic1 : bytes := bytes_of_string "Magic server to client signing constant".
Definition magic2 : bytes := bytes_of_string "Pad to make it do more than one iteration".

(** [strings.ToUpper(hex.EncodeToString(l))] *)
Definition hex_digit (n : Z) : Z := if n <? 10 then 48 + n else 55 + n.
Definition upper_hex (l : bytes) : bytes := concat ((fun b => [hex_digit (b / 16); hex_digit (b mod 16)]) <$> l).

Definition GenerateAuthenticatorResponse (password ntResponse peerChallenge authChallenge username : bytes) : res bytes :=
  let ntHash := NtPasswordHash password in
  let ntHashHash := HashNtPasswordHash ntHash in
  let digest1 := digest SHA1 (ntHashHash ++ ntResponse ++ magic1) in
  challengeHashVal ← ChallengeHash peerChallenge authChallenge username;
  let authResp := digest SHA1 (digest1 ++ challengeHashVal ++ magic2) in
  Ok (bytes_of_string "S=" ++ upper_hex authResp).

(** The string and whether it succeeded. *)
Definition VerifyMSCHAPv2Response (eapData authChallenge username password : bytes) : res (bytes * bool) :=
  if len eapData <? 5 then Ok ([], false)
  else
    opcode ← idx eapData 0;
    if negb (opcode =? MSCHAPv2OpResponse) then Ok ([], false)
    else
      valueSize ← idx eapData 4;
      if negb (valueSize =? 49) || (len eapData <? 5 + 49) then Ok ([], false)
      else
        responseValue ← slice eapData 5 (5 + 49);
        peerChallenge ← slice responseValue 0 16;
        ntResponse ← slice responseValue 24 48;
        match GenerateNTResponse authChallenge peerChallenge username password with
        | Panic => Panic
        | Err _ => Ok ([], false)
        | Ok expectedNTResp =>
          if negb (hashEqual expectedNTResp ntResponse) then Ok ([], false)
          else
            authResp ← GenerateAuthenticatorResponse password ntResponse peerChallenge authChallenge username;
            Ok (authResp, true)
        end.

(** ** Keys *)

Definition masterMagic : bytes := bytes_of_string "This is the MPPE Master Key".
Definition sendMagic : bytes := bytes_of_string "On the client side, this is the send key; on the server side, it is the receive key.".
Definition recvMagic : bytes := bytes_of_string "On the client side, this is the receive key; on the server side, it is the send key.".

Definition getAsymmetricStartKey (masterKey magic shsPad1 shsPad2 : bytes) (keyLen : Z) : res bytes :=
  let digest := digest SHA1 (masterKey ++ shsPad1 ++ magic ++ shsPad2) in
  let keyLen := if keyLen >? len digest then len digest else keyLen in
  k ← slice digest 0 keyLen;
  Ok (cloneSlice k).

Definition GetMSCHAPv2MSK (password ntResponse : bytes) : res bytes :=
  let ntHash := NtPasswordHash password in
  let ntHashHash := HashNtPasswordHash ntHash in
  masterKey ← slice (digest SHA1 (ntHashHash ++ ntResponse ++ masterMagic)) 0 16;
  let shsPad1 := replicate 40 0x00 in
  let shsPad2 := replicate 40 0xF2 in
  sendKey ← getAsymmetricStartKey masterKey sendMagic shsPad1 shsPad2 32;
  recvKey ← getAsymmetricStartKey masterKey recvMagic shsPad1 shsPad2 32;
  msk ← copy_at (make 64) 0 (take 32 recvKey);
  copy_at msk 32 sendKey.

End mschap.

(** ** The packets of MS-CHAPv2 *)

Definition BuildMSCHAPv2Challenge (eapID mschapID : Z) (challenge serverName : bytes) : res bytes :=
  let msLen := u16 (5 + len challenge + len serverName) in
  d ← set_at (make msLen) 0 MSCHAPv2OpChallenge;
  d ← set_at d 1 mschapID;
  d ← put16_at d 2 msLen;
  d ← set_at d 4 (u8 (len challenge));
  d ← copy_at d 5 challenge;
  d ← copy_at d (5 + len challenge) serverName;
  EAPPacket_Marshal (mkEAPPacket EAPCodeRequest eapID EAPTypeMSCHAPv2 d).

(** The common body of [BuildMSCHAPv2Success] and [BuildMSCHAPv2Failure]. *)
Definition build_message (opcode eapID mschapID : Z) (msg : bytes) : res bytes :=
  let msLen := u16 (4 + len msg) in
  d ← set_at (make msLen) 0 opcode;
  d ← set_at d 1 mschapID;
  d ← put16_at d 2 msLen;
  d ← copy_at d 4 msg;
  EAPPacket_Marshal (mkEAPPacket EAPCodeRequest eapID EAPTypeMSCHAPv2 d).

Definition BuildMSCHAPv2Success (eapID mschapID : Z) (authResp : bytes) : res bytes :=
  build_message MSCHAPv2OpSuccess eapID mschapID authResp.
Definition BuildMSCHAPv2Failure (eapID mschapID : Z) (message : bytes) : res bytes :=
  build_message MSCHAPv2OpFailure eapID mschapID message.

(** ** Round trip of the packets *)

(** What the Go types say, and that a success or failure carries nothing. *)
Record eap_ok (p : EAPPacket) : Prop := {
  eo_code : is_u8 (eap_Code p);
  eo_id : is_u8 (eap_Identifier p);
  eo_type : is_u8 (eap_Type p);
  eo_len : 5 + len (eap_Data p) < 65536;
  eo_final : is_final (eap_Code p) = true -> eap_Type p = 0 /\ eap_Data p = []
}.

Definition eap_bytes (p : EAPPacket) : bytes :=
  if is_final (eap_Code p) then [eap_Code p; eap_Identifier p; 0; 4]
  else eap_Code p :: eap_Identifier p :: put16 (5 + len (eap_Data p)) ++ eap_Type p :: eap_Data p.

Lemma EAPPacket_Marshal_bytes p : 5 + len (eap_Data p) < 65536 -> EAPPacket_Marshal p = Ok (eap_bytes p).
Proof.
  intros Hl. pose proof (len_nonneg (eap_Data p)). unfold EAPPacket_Marshal, eap_bytes. destruct (is_final _); [reflexivity|].
  rewrite u16_id by (unfold is_u16; lia). rewrite (fill_start (5 + _)). do 4 fill_step.
  destruct (Z.gtb_spec (len (eap_Data p)) 0) as [Hg|Hg].
  - rewrite fill_copy by (len_norm; lia). rewrite make_0, app_nil_r by (len_norm; lia). by rewrite <- !app_assoc.
  - assert (eap_Data p = []) as E by (apply len_0_inv; lia). rewrite E. cbn [len length]. rewrite make_0 by (rewrite ?E; len_norm; lia). by rewrite <- !app_assoc.
Qed.

(** An EAP packet is parsed back from what was sent, whatever follows it. *)
Theorem eap_roundtrip p rest :
  eap_ok p -> exists b, EAPPacket_Marshal p = Ok b /\ ParseEAPPacket (b ++ rest) = Ok p.
Proof.
  intros []. exists (eap_bytes p). split; [by apply EAPPacket_Marshal_bytes|]. pose proof (len_nonneg (eap_Data p)). pose proof (len_nonneg rest).
  unfold ParseEAPPacket, eap_bytes. destruct (is_final (eap_Code p)) eqn:E.
  - destruct eo_final0 as [E1 E2]; [done|]. rewrite (proj2 (Z.ltb_ge _ 4)) by (len_norm; lia). cbn [app].
    get. get. eapply bind_step; [change (0 :: 4 :: rest) with (put16 4 ++ rest); rd; reflexivity|cbv beta].
    rewrite gtb_false by (len_norm; lia). cbn [Z.ltb Z.compare Pos.compare Pos.compare_cont]. rewrite E. destruct p; cbn in *; by subst.
  - rewrite (proj2 (Z.ltb_ge _ 4)) by (len_norm; lia). assert (is_u16 (5 + len (eap_Data p))) by (unfold is_u16; lia).
    cbn [app]. rewrite <- app_assoc. cbn [app]. get. get. get.
    rewrite gtb_false, !(proj2 (Z.ltb_ge _ _)), E by (len_norm; lia). get. destruct p as [c i t d]; cbn [eap_Code eap_Identifier eap_Type eap_Data] in *.
    destruct (Z.gtb_spec (5 + len d) 5) as [Hg|Hg]; [by cut|]. by assert (d = []) as -> by (apply len_0_inv; lia).
Qed.

Lemma ParseEAPPacket_np data : bytes_wf data -> ParseEAPPacket data <> Panic.
Proof.
  intros Hwf. unfold ParseEAPPacket. destruct (Z.ltb_spec (len data) 4); [done|].
  destruct (idx_total data 0) as (c & -> & _); [lia|]. destruct (idx_total data 1) as (i & -> & _); [lia|].
  destruct (be16_at_total data 2) as (n & Hn); [lia..|]. rewrite Hn, !bind_Ok.
  destruct (Z.gtb_spec n (len data)); [done|]. repeat (case_match; [done|]).
  destruct (idx_total data 4) as (t & -> & _); [lia|]. rewrite bind_Ok. destruct (Z.gtb_spec n 5); [|done].
  by rewrite slice_ok, bind_Ok by lia.
Qed.

(** ** The packets of MS-CHAPv2, written out *)

(** An opcode, an identifier, the length of the whole, and what follows. *)
Definition mschap_bytes (opcode mschapID : Z) (body : bytes) : bytes := [opcode; mschapID] ++ put16 (4 + len body) ++ body.

Lemma len_mschap_bytes op i body : len (mschap_bytes op i body) = 4 + len body.
Proof. unfold mschap_bytes. len_norm. lia. Qed.

Lemma BuildMSCHAPv2Challenge_bytes id i challenge name : len challenge = 16 -> len name < 60000 ->
  BuildMSCHAPv2Challenge id i challenge name =
    Ok (eap_bytes (mkEAPPacket EAPCodeRequest id EAPTypeMSCHAPv2 (mschap_bytes MSCHAPv2OpChallenge i ([16] ++ challenge ++ name)))).
Proof.
  intros Hc Hn. pose proof (len_nonneg name). unfold BuildMSCHAPv2Challenge. rewrite u16_id by (unfold is_u16; lia). rewrite Hc.
  rewrite (fill_start (5 + 16 + _)). do 4 fill_step. rewrite fill_copy, bind_Ok by (len_norm; lia). rewrite fill_copy, bind_Ok by (len_norm; lia).
  rewrite make_0, app_nil_r by (len_norm; lia). rewrite <- EAPPacket_Marshal_bytes by (cbn [eap_Data]; rewrite len_mschap_bytes; len_norm; lia).
  do 2 f_equal. unfold mschap_bytes. replace (4 + len ([16] ++ challenge ++ name)) with (5 + 16 + len name) by (len_norm; lia).
  by rewrite <- !app_assoc.
Qed.

Lemma build_message_bytes op id i msg : len msg < 60000 ->
  build_message op id i msg = Ok (eap_bytes (mkEAPPacket EAPCodeRequest id EAPTypeMSCHAPv2 (mschap_bytes op i msg))).
Proof.
  intros Hn. pose proof (len_nonneg msg). unfold build_message. rewrite u16_id by (unfold is_u16; lia).
  rewrite (fill_start (4 + _)). do 3 fill_step. rewrite fill_copy, bind_Ok by (len_norm; lia).
  rewrite make_0, app_nil_r by (len_norm; lia). rewrite <- EAPPacket_Marshal_bytes by (cbn [eap_Data]; rewrite len_mschap_bytes; lia).
  done.
Qed.

(** ** The response of a client *)

Section response.
Context {L : Legacy} {LL : LegacyLaws L} {D : Digests} {DL : DigestLaws D}.

(** The 56 bits of a key, seven to a byte. *)
Fixpoint base (b : Z) (l : list Z) (acc : Z) : Z := match l with [] => acc | x :: l => base b l (acc * b + x) end.

Lemma land_ones_mod x n : 0 <= n -> Z.land x (2 ^ n - 1) = x mod 2 ^ n.
Proof. intros. rewrite <- Z.land_ones by done. by rewrite Z.ones_equiv, Z.sub_1_r. Qed.

Lemma lor_disjoint x y k : 0 <= k -> 0 <= y < 2 ^ k -> Z.lor (x * 2 ^ k) y = x * 2 ^ k + y.
Proof.
  intros Hk Hy. assert (Z.land (x * 2 ^ k) y = 0) as H0.
  { apply Z.bits_inj'. intros j Hj. rewrite Z.land_spec, Z.bits_0. destruct (Z.ltb_spec j k).
    - by rewrite Z.mul_pow2_bits_low.
    - destruct (decide (y = 0)) as [->|]; [by rewrite Z.bits_0, andb_false_r|].
      rewrite (Z.bits_above_log2 y); [by rewrite andb_false_r|lia|]. apply Z.log2_lt_pow2; [lia|].
      eapply Z.lt_le_trans; [apply Hy|]. apply Z.pow_le_mono_r; lia. }
  by rewrite <- Z.lxor_lor, <- Z.add_nocarry_lxor.
Qed.

(** One byte of the expansion: the low bits of one byte above the high bits of the next. *)
Lemma spread_byte a b n : 0 < n < 8 -> is_u8 a -> is_u8 b ->
  Z.lor (u8 (Z.shiftl (Z.land a (2 ^ n - 1)) (7 - n))) (Z.shiftr b (n + 1)) = a mod 2 ^ n * 2 ^ (7 - n) + b / 2 ^ (n + 1) /\
  0 <= a mod 2 ^ n * 2 ^ (7 - n) + b / 2 ^ (n + 1) < 128.
Proof.
  intros Hn Ha Hb. unfold is_u8 in *. rewrite land_ones_mod, Z.shiftl_mul_pow2, Z.shiftr_div_pow2 by lia.
  pose proof (Z.mod_pos_bound a (2 ^ n) ltac:(lia)) as Hm. assert (2 ^ n * 2 ^ (7 - n) = 128) as Hp by (rewrite <- Z.pow_add_r by lia; by replace (n + (7 - n)) with 7 by lia).
  assert (2 ^ (n + 1) * 2 ^ (7 - n) = 256) as Hq by (rewrite <- Z.pow_add_r by lia; by replace (n + 1 + (7 - n)) with 8 by lia).
  assert (0 <= b / 2 ^ (n + 1) < 2 ^ (7 - n)) as Hd.
  { split; [apply Z.div_pos; lia|]. apply Z.div_lt_upper_bound; lia. }
  assert (a mod 2 ^ n * 2 ^ (7 - n) + 2 ^ (7 - n) <= 128) by nia.
  rewrite u8_id by (unfold is_u8; nia). rewrite lor_disjoint by lia. nia.
Qed.

Lemma parity_byte x : 0 <= x < 128 -> Z.land (u8 (Z.shiftl x 1)) 0xFE = x * 2.
Proof.
  intros Hx. assert (forallb (fun x => Z.land (u8 (Z.shiftl x 1)) 0xFE =? x * 2) (Z.of_nat <$> seq 0 128) = true) as H by (vm_compute; reflexivity).
  rewrite forallb_forall in H. apply Z.eqb_eq, H. apply list_elem_of_In, list_elem_of_fmap. exists (Z.to_nat x). split; [lia|]. apply elem_of_seq. lia.
Qed.

(** The key that DES is given: eight bytes with an empty parity bit, whose other bits are,
    in order, those of the seven bytes. *)
Lemma expand_key_ok k :
  length k = 7%nat -> bytes_wf k ->
  exists l, expand_key k = Ok ((fun x => x * 2) <$> l) /\ length l = 8%nat /\ Forall (fun x => 0 <= x < 128) l /\
    base 128 l 0 = base 256 k 0.
Proof.
  intros Hl Hwf. do 8 (destruct k as [|? k]; try done). repeat (apply Forall_cons in Hwf as [? Hwf]).
  exists [z / 2; z mod 2 * 64 + z0 / 4; z0 mod 4 * 32 + z1 / 8; z1 mod 8 * 16 + z2 / 16; z2 mod 16 * 8 + z3 / 32;
    z3 mod 32 * 4 + z4 / 64; z4 mod 64 * 2 + z5 / 128; z5 mod 128].
  assert (Z.lor (u8 (Z.shiftl (Z.land z 1) 6)) (Z.shiftr z0 2) = z mod 2 * 64 + z0 / 4 /\ 0 <= z mod 2 * 64 + z0 / 4 < 128) as [E1 R1]
    by (apply (spread_byte z z0 1); done).
  assert (Z.lor (u8 (Z.shiftl (Z.land z0 3) 5)) (Z.shiftr z1 3) = z0 mod 4 * 32 + z1 / 8 /\ 0 <= z0 mod 4 * 32 + z1 / 8 < 128) as [E2 R2]
    by (apply (spread_byte z0 z1 2); done).
  assert (Z.lor (u8 (Z.shiftl (Z.land z1 7) 4)) (Z.shiftr z2 4) = z1 mod 8 * 16 + z2 / 16 /\ 0 <= z1 mod 8 * 16 + z2 / 16 < 128) as [E3 R3]
    by (apply (spread_byte z1 z2 3); done).
  assert (Z.lor (u8 (Z.shiftl (Z.land z2 15) 3)) (Z.shiftr z3 5) = z2 mod 16 * 8 + z3 / 32 /\ 0 <= z2 mod 16 * 8 + z3 / 32 < 128) as [E4 R4]
    by (apply (spread_byte z2 z3 4); done).
  assert (Z.lor (u8 (Z.shiftl (Z.land z3 31) 2)) (Z.shiftr z4 6) = z3 mod 32 * 4 + z4 / 64 /\ 0 <= z3 mod 32 * 4 + z4 / 64 < 128) as [E5 R5]
    by (apply (spread_byte z3 z4 5); done).
  assert (Z.lor (u8 (Z.shiftl (Z.land z4 63) 1)) (Z.shiftr z5 7) = z4 mod 64 * 2 + z5 / 128 /\ 0 <= z4 mod 64 * 2 + z5 / 128 < 128) as [E6 R6]
    by (apply (spread_byte z4 z5 6); done).
  assert (Z.shiftr z 1 = z / 2) as E0 by (by rewrite Z.shiftr_div_pow2).
  assert (Z.land z5 127 = z5 mod 128) as E7 by apply (land_ones_mod z5 7 ltac:(lia)).
  assert (0 <= z / 2 < 128 /\ 0 <= z5 mod 128 < 128) as [R0 R7] by (unfold is_u8 in *; Z.div_mod_to_equations; lia).
  split; [|split; [done|split]].
  - transitivity (Ok ((fun k => Z.land (u8 (Z.shiftl k 1)) 0xFE) <$> [Z.shiftr z 1;
      Z.lor (u8 (Z.shiftl (Z.land z 1) 6)) (Z.shiftr z0 2); Z.lor (u8 (Z.shiftl (Z.land z0 3) 5)) (Z.shiftr z1 3);
      Z.lor (u8 (Z.shiftl (Z.land z1 7) 4)) (Z.shiftr z2 4); Z.lor (u8 (Z.shiftl (Z.land z2 15) 3)) (Z.shiftr z3 5);
      Z.lor (u8 (Z.shiftl (Z.land z3 31) 2)) (Z.shiftr z4 6); Z.lor (u8 (Z.shiftl (Z.land z4 63) 1)) (Z.shiftr z5 7); Z.land z5 127])); [reflexivity|].
    rewrite E0, E1, E2, E3, E4, E5, E6, E7. cbn [fmap list_fmap]. by rewrite !parity_byte.
  - repeat (apply Forall_cons; split; [assumption|]). constructor.
  - cbn [base]. unfold is_u8 in *. clear -H H0 H1 H2 H3 H4 H5. Z.div_mod_to_equations; lia.
Qed.

(** RFC 2759, 8.3: the hash of the password in UTF-16, which for ASCII is each byte and a zero. *)
Lemma NtPasswordHash_ascii password : Forall (fun c => 0 <= c < 128) password ->
  NtPasswordHash password = md4 (concat ((fun c => [c; 0]) <$> password)).
Proof.
  intros H. unfold NtPasswordHash, utf16_Encode. do 2 f_equal.
  assert (runes (length password) password = password) as ->.
  { induction H as [|c l Hc _ IH]; [done|]. cbn [length runes]. rewrite (proj2 (Z.ltb_lt c 128)) by lia. by rewrite IH. }
  induction H as [|c l Hc _ IH]; [done|]. cbn [fmap list_fmap concat]. unfold utf16_rune at 1. rewrite (proj2 (Z.ltb_lt c 65536)) by lia.
  cbn [app fmap list_fmap]. rewrite IH. by rewrite Z.mod_small, Z.div_small by lia.
Qed.

(** RFC 2759, 8.1: the response of a client that knows the password. *)
Definition des_key (k : bytes) : bytes := match expand_key k with Ok l => l | _ => [] end.

Definition challenge_of (peerChallenge authChallenge username : bytes) : bytes :=
  take 8 (digest SHA1 (peerChallenge ++ authChallenge ++ username)).

Definition nt_response (authChallenge peerChallenge username password : bytes) : bytes :=
  let c := challenge_of peerChallenge authChallenge username in
  let p := NtPasswordHash password ++ make 5 in
  des_Encrypt (des_key (sub p 0 7)) c ++ des_Encrypt (des_key (sub p 7 14)) c ++ des_Encrypt (des_key (sub p 14 21)) c.

(** RFC 2759, 8.7: what the server proves in turn. *)
Definition authenticator (password ntResponse peerChallenge authChallenge username : bytes) : bytes :=
  bytes_of_string "S=" ++ upper_hex (digest SHA1 (digest SHA1 (md4 (NtPasswordHash password) ++ ntResponse ++ magic1) ++
    challenge_of peerChallenge authChallenge username ++ magic2)).

Lemma ChallengeHash_ok p a u : ChallengeHash p a u = Ok (challenge_of p a u) /\ len (challenge_of p a u) = 8.
Proof.
  unfold ChallengeHash, challenge_of. pose proof (len_digest SHA1 (p ++ a ++ u)) as Hl. cbn [hash_size] in Hl.
  rewrite slice_ok by lia. unfold sub. split; [done|]. rewrite len_take. lia.
Qed.

Lemma desEncryptBlock_ok k d : length k = 7%nat -> len d = 8 -> desEncryptBlock k d = Ok (des_Encrypt (des_key k) d).
Proof.
  intros Hk Hd. do 8 (destruct k as [|? k]; try done). unfold desEncryptBlock, des_key.
  match goal with |- context [expand_key ?l] => set (e := expand_key l); assert (exists x, e = Ok x) as [x ->] by (eexists; reflexivity) end.
  rewrite bind_Ok, slice_whole, bind_Ok by lia. done.
Qed.

Lemma ChallengeResponse_ok c h :
  len c = 8 -> len h = 16 ->
  ChallengeResponse c h = Ok (des_Encrypt (des_key (sub (h ++ make 5) 0 7)) c ++
    des_Encrypt (des_key (sub (h ++ make 5) 7 14)) c ++ des_Encrypt (des_key (sub (h ++ make 5) 14 21)) c).
Proof.
  intros Hc Hh. unfold ChallengeResponse. rewrite (fill_start 21), fill_copy, bind_Ok by (rewrite ?Hh; done || lia).
  rewrite Hh, app_nil_l. change (21 - 16) with 5. set (p := h ++ make 5). assert (len p = 21) as Hp by (unfold p; rewrite len_app, Hh; done).
  assert (forall a b, 0 <= a -> b = a + 7 -> b <= 21 -> length (sub p a b) = 7%nat) as Hs.
  { intros a b Ha -> Hb. pose proof (len_sub p a (a + 7) ltac:(lia) ltac:(lia)) as E. unfold len in E. lia. }
  cbn [challenge_loop]. rewrite !slice_ok by lia. rewrite (fill_start 24).
  pose proof (fun k => len_des k c Hc) as Hd.
  do 3 (rewrite ?bind_Ok, desEncryptBlock_ok, bind_Ok by (done || by apply Hs);
    rewrite fill_copy, bind_Ok by (rewrite ?len_app, ?Hd; done || lia)).
  rewrite make_0, app_nil_r by (rewrite ?Hd; lia).
  by rewrite app_nil_l, <- app_assoc.
Qed.

(** The fields of a response packet. *)
Definition peer_challenge (d : bytes) : bytes := sub d 5 21.
Definition nt_field (d : bytes) : bytes := sub d 29 53.

Definition genuine (d authChallenge username password : bytes) : Prop :=
  54 <= len d /\ idx d 0 = Ok MSCHAPv2OpResponse /\ idx d 4 = Ok 49 /\
  nt_field d = nt_response authChallenge (peer_challenge d) username password.

(** The fields of the value of a response. *)
Lemma value_sub (d : bytes) a b : 0 <= a -> a <= b -> b <= 49 -> sub (sub d 5 54) a b = sub d (5 + a) (5 + b).
Proof. intros Ha Hab Hb. unfold sub. rewrite skipn_firstn_comm, take_take, drop_drop. f_equal; [lia|f_equal; lia]. Qed.

Lemma VerifyMSCHAPv2Response_true d authChallenge username password x :
  VerifyMSCHAPv2Response d authChallenge username password = Ok (x, true) -> 54 <= len d /\ idx d 0 = Ok MSCHAPv2OpResponse.
Proof.
  unfold VerifyMSCHAPv2Response. destruct (Z.ltb_spec (len d) 5); [done|].
  destruct (idx_total d 0) as (op & -> & _); [lia|]. rewrite bind_Ok. destruct (Z.eqb_spec op MSCHAPv2OpResponse) as [->|]; [|done].
  destruct (idx_total d 4) as (vs & -> & _); [lia|]. rewrite bind_Ok. cbn [negb]. destruct (negb (vs =? 49)); [done|].
  cbn [orb]. destruct (Z.ltb_spec (len d) (5 + 49)); [done|]. intros _. split; [lia|done].
Qed.

(** The server accepts exactly the responses of a client that knows the password, for the
    challenge it sent and the user it asked about, and answers with the proof of RFC 2759. *)
Theorem VerifyMSCHAPv2Response_correct d authChallenge username password :
  (genuine d authChallenge username password ->
    VerifyMSCHAPv2Response d authChallenge username password =
      Ok (authenticator password (nt_field d) (peer_challenge d) authChallenge username, true)) /\
  (~ genuine d authChallenge username password ->
    VerifyMSCHAPv2Response d authChallenge username password = Ok ([], false)).
Proof.
  unfold VerifyMSCHAPv2Response, genuine. destruct (Z.ltb_spec (len d) 5); [split; [lia|done]|].
  destruct (idx_total d 0) as (op & -> & _); [lia|]. rewrite bind_Ok. destruct (Z.eqb_spec op MSCHAPv2OpResponse) as [->|Hop]; cbn [negb]; cycle 1.
  { split; [intros (_ & [= ?] & _); done|done]. }
  destruct (idx_total d 4) as (vs & -> & _); [lia|]. rewrite bind_Ok. destruct (Z.eqb_spec vs 49) as [->|Hvs]; cbn [negb orb]; cycle 1.
  { split; [intros (_ & _ & [= ?] & _); done|done]. }
  destruct (Z.ltb_spec (len d) (5 + 49)); [split; [lia|done]|]. change (5 + 49) with 54 in *.
  rewrite !slice_ok, !bind_Ok by (rewrite ?len_sub; lia). rewrite !slice_ok, !bind_Ok by (rewrite ?len_sub; lia).
  rewrite !value_sub by lia. change (sub d (5 + 0) (5 + 16)) with (peer_challenge d). change (sub d (5 + 24) (5 + 48)) with (nt_field d).
  unfold GenerateNTResponse, GenerateAuthenticatorResponse. destruct (ChallengeHash_ok (peer_challenge d) authChallenge username) as [E El].
  rewrite E, !bind_Ok, ChallengeResponse_ok by (done || apply len_md4). fold (nt_response authChallenge (peer_challenge d) username password).
  rewrite hashEqual_eq. case_bool_decide as Heq; cbn [negb].
  - split; [done|]. intros Hn. destruct Hn. split_and!; [lia|done|done|by symmetry].
  - split; [|done]. intros (_ & _ & _ & ?). by destruct Heq.
Qed.

Lemma VerifyMSCHAPv2Response_genuine d authChallenge username password x :
  VerifyMSCHAPv2Response d authChallenge username password = Ok (x, true) -> genuine d authChallenge username password.
Proof.
  intros H. destruct (VerifyMSCHAPv2Response_true _ _ _ _ _ H) as [Hl Hop]. revert H. unfold VerifyMSCHAPv2Response, genuine.
  rewrite (proj2 (Z.ltb_ge _ 5)), Hop, bind_Ok by lia. cbn [negb Z.eqb]. change (MSCHAPv2OpResponse =? MSCHAPv2OpResponse) with true. cbn [negb].
  destruct (idx_total d 4) as (vs & -> & _); [lia|]. rewrite bind_Ok. destruct (Z.eqb_spec vs 49) as [->|]; [|done]. cbn [negb orb].
  change (5 + 49) with 54. rewrite (proj2 (Z.ltb_ge _ 54)), !slice_ok, !bind_Ok by (rewrite ?len_sub; lia). rewrite !slice_ok, !bind_Ok by (rewrite ?len_sub; lia).
  rewrite !value_sub by lia. change (sub d (5 + 0) (5 + 16)) with (peer_challenge d). change (sub d (5 + 24) (5 + 48)) with (nt_field d).
  unfold GenerateNTResponse. destruct (ChallengeHash_ok (peer_challenge d) authChallenge username) as [E El].
  rewrite E, !bind_Ok, ChallengeResponse_ok by (done || apply len_md4). fold (nt_response authChallenge (peer_challenge d) username password).
  rewrite hashEqual_eq. case_bool_decide as Heq; [|done]. intros _. by split_and!.
Qed.

(** The key a login leaves, written out: a master key of sixteen bytes from the password and
    the response, and for each direction one digest of it, twenty bytes and twelve zeros.  The
    comment of [GetMSCHAPv2MSK] says two nested digests of 32 bytes for each. *)
Definition mschap_msk (password ntResponse : bytes) : bytes :=
  let master := take 16 (digest SHA1 (md4 (NtPasswordHash password) ++ ntResponse ++ bytes_of_string "This is the MPPE Master Key")) in
  let half phrase := digest SHA1 (master ++ replicate 40 0 ++ bytes_of_string phrase ++ replicate 40 242) ++ replicate 12 0 in
  half "On the client side, this is the receive key; on the server side, it is the send key." ++
  half "On the client side, this is the send key; on the server side, it is the receive key.".

Lemma start_key_ok masterKey magic shsPad1 shsPad2 :
  getAsymmetricStartKey masterKey magic shsPad1 shsPad2 32 = Ok (digest SHA1 (masterKey ++ shsPad1 ++ magic ++ shsPad2)).
Proof.
  unfold getAsymmetricStartKey. pose proof (len_digest SHA1 (masterKey ++ shsPad1 ++ magic ++ shsPad2)) as Hl. cbn [hash_size] in Hl.
  rewrite Hl. change (32 >? 20) with true. cbv iota. by rewrite slice_whole, bind_Ok by lia.
Qed.

Lemma GetMSCHAPv2MSK_key password nt : GetMSCHAPv2MSK password nt = Ok (mschap_msk password nt).
Proof.
  unfold GetMSCHAPv2MSK, mschap_msk, HashNtPasswordHash. fold masterMagic. rewrite slice_ok, bind_Ok by (rewrite ?len_digest; cbn; lia).
  set (mk := sub _ 0 16). change (take 16 _) with mk. rewrite !start_key_ok, !bind_Ok.
  change (bytes_of_string "On the client side, this is the receive key; on the server side, it is the send key.") with recvMagic.
  change (bytes_of_string "On the client side, this is the send key; on the server side, it is the receive key.") with sendMagic.
  pose proof (len_digest SHA1 (mk ++ replicate 40 0 ++ recvMagic ++ replicate 40 242)) as Hr. cbn [hash_size] in Hr.
  pose proof (len_digest SHA1 (mk ++ replicate 40 0 ++ sendMagic ++ replicate 40 242)) as Hs. cbn [hash_size] in Hs.
  set (rcv := digest _ _) in *. set (snd := digest SHA1 (mk ++ _ ++ sendMagic ++ _)) in *. clearbody rcv snd.
  rewrite take_ge by (unfold len in Hr; lia). rewrite (fill_start 64), fill_copy, bind_Ok by (rewrite ?Hr; done || lia). rewrite Hr, app_nil_l.
  change (make (64 - 20)) with (make 12 ++ make 32). rewrite app_assoc, fill_copy by (rewrite ?len_app, ?Hr, ?Hs; done).
  rewrite Hs. change (make (32 - 20)) with (replicate 12 0). change (make 12) with (replicate 12 0). by rewrite <- !app_assoc.
Qed.

Lemma len_mschap_msk password nt : len (mschap_msk password nt) = 64.
Proof. unfold mschap_msk. cbv zeta. rewrite !len_app, !len_digest. done. Qed.

(** A hash in hexadecimal and its two letters. *)
Lemma len_authenticator password nt pc ac u : len (authenticator password nt pc ac u) = 42.
Proof.
  unfold authenticator. rewrite len_app. set (g := digest SHA1 _). assert (len g = 20) as Hg by apply len_digest. clearbody g.
  assert (len (upper_hex g) = 2 * len g) as ->; [|rewrite Hg; done].
  clear Hg. induction g as [|x g IH]; [done|]. unfold upper_hex in *. cbn [fmap list_fmap concat]. rewrite len_app, IH. len_norm. lia.
Qed.

End response.

(** ** A client and a server *)

Import Toy.

#[export] Instance toy_legacy : Legacy := {
  md4 d := checksum [d] ++ make 12; des_Encrypt k b := (fun x => u8 (x + 1)) <$> b }.

#[export] Instance toy_legacy_laws : LegacyLaws toy_legacy.
Proof. constructor; [done|]. intros k b H. unfold len in *. cbn. by rewrite length_fmap. Qed.

Definition alice : bytes := bytes_of_string "alice".
Definition secret : bytes := bytes_of_string "wonderland".

(** The response of a client to the challenge 1 ... 16. *)
Definition demo_response : bytes :=
  let auth := Z.of_nat <$> seq 1 16 in
  let peer := Z.of_nat <$> seq 101 16 in
  [MSCHAPv2OpResponse; 1; 0; 59; 49] ++ peer ++ make 8 ++ nt_response auth peer alice secret ++ [0] ++ alice.

Lemma VerifyMSCHAPv2Response_correct_witness :
  VerifyMSCHAPv2Response demo_response (Z.of_nat <$> seq 1 16) alice secret =
    Ok (authenticator secret (nt_field demo_response) (peer_challenge demo_response) (Z.of_nat <$> seq 1 16) alice, true).
Proof.
  apply VerifyMSCHAPv2Response_correct. split_and!; [vm_compute; discriminate|reflexivity|reflexivity|vm_compute; reflexivity].
Defined.

Lemma eap_roundtrip_witness :
  exists b, EAPPacket_Marshal (mkEAPPacket EAPCodeResponse 3 EAPTypeIdentity alice) = Ok b /\
    ParseEAPPacket (b ++ [9; 9]) = Ok (mkEAPPacket EAPCodeResponse 3 EAPTypeIdentity alice).
Proof. apply eap_roundtrip. by constructor. Defined.

End Eap.
