(* ===== verification/IkeExchange.v ===== *)
(** * IkeExchange: the payloads a handler of an IKE exchange looks for

    [find_as] is the generic [findPayloadAs] of [internal/ike/ikev1_main.go]; the type
    it is instantiated with is a projection out of the payloads. *)

From S2P Require Import Prelude Rand IkeMessage IkeSA IkeV2 IkeV1.
Import Msg.

(** ** The payloads of a chain *)

Definition find_as {A} (f : Payload -> option A) (chain : PayloadChain) : option A :=
  foldr (fun pp acc => match f (pp_Payload pp) with Some a => Some a | None => acc end) None chain.

Definition as_SA (p : Payload) : option SA.SAPayload := if p is PSA x then Some x else None.
Definition as_KE (p : Payload) : option V2.KEPayload := if p is PKE x then Some x else None.
Definition as_Nonce (p : Payload) : option V2.NoncePayload := if p is PNonce x then Some x else None.
Definition as_ID (p : Payload) : option V2.IDPayload := if p is PID x then Some x else None.
Definition as_AUTH (p : Payload) : option V2.AUTHPayload := if p is PAUTH x then Some x else None.
Definition as_Notify (p : Payload) : option V2.NotifyPayload := if p is PNotify x then Some x else None.
Definition as_Delete (p : Payload) : option V2.DeletePayload := if p is PDelete x then Some x else None.
Definition as_TS (p : Payload) : option V2.TSPayload := if p is PTS x then Some x else None.
Definition as_SK (p : Payload) : option V2.SKPayload := if p is PSK x then Some x else None.
Definition as_CP (p : Payload) : option V2.CPPayload := if p is PCP x then Some x else None.
Definition as_EAP (p : Payload) : option V2.EAPPayload := if p is PEAP x then Some x else None.
Definition as_SAv1 (p : Payload) : option V1.SAv1Payload := if p is PSAv1 x then Some x else None.
Definition as_KEv1 (p : Payload) : option V1.KEv1Payload := if p is PKEv1 x then Some x else None.
Definition as_NonceV1 (p : Payload) : option V1.NonceV1Payload := if p is PNonceV1 x then Some x else None.
Definition as_IDv1 (p : Payload) : option V1.IDv1Payload := if p is PIDv1 x then Some x else None.
Definition as_HashV1 (p : Payload) : option V1.HashV1Payload := if p is PHashV1 x then Some x else None.
Definition as_ModeConfig (p : Payload) : option V1.ModeConfigPayload := if p is PModeConfig x then Some x else None.

(** The first payload of the type, at its place. *)
Lemma find_as_Some {A} (f : Payload -> option A) chain a :
  find_as f chain = Some a <->
  exists k pp, chain !! k = Some pp /\ f (pp_Payload pp) = Some a /\
    forall j qq, (j < k)%nat -> chain !! j = Some qq -> f (pp_Payload qq) = None.
Proof.
  induction chain as [|pp chain IH]; cbn.
  { split; [done|]. intros (k & q & H & _). by rewrite lookup_nil in H. }
  destruct (f (pp_Payload pp)) as [b|] eqn:E.
  - split.
    + intros [= ->]. exists 0%nat, pp. repeat split; [done|]. intros j ? Hj. lia.
    + intros ([|k] & q & H & Hq & Hm); cbn in H; [congruence|].
      specialize (Hm 0%nat pp ltac:(lia) eq_refl). congruence.
  - rewrite IH. split.
    + intros (k & q & H & Hq & Hm). exists (S k), q. repeat split; [done..|].
      intros [|j] qq Hj Hl; cbn in Hl; [congruence|]. apply (Hm j); [lia|done].
    + intros ([|k] & q & H & Hq & Hm); cbn in H; [congruence|]. exists k, q. repeat split; [done..|].
      intros j qq Hj Hl. apply (Hm (S j)); [lia|done].
Qed.

Lemma find_as_None {A} (f : Payload -> option A) chain :
  find_as f chain = None <-> Forall (fun pp => f (pp_Payload pp) = None) chain.
Proof.
  induction chain as [|pp chain IH]; cbn; [by split; [constructor|]|].
  rewrite Forall_cons, <- IH. destruct (f (pp_Payload pp)); naive_solver.
Qed.
