(* ===== verification/IkeV2Init.v ===== *)
(** * IkeV2Init: the responder's side of IKE_SA_INIT ([internal/ike/ikev2_init.go])

    [HandleSAInit] changes no session: it makes one.  Its state is the random source;
    the random number of the Diffie-Hellman key pair is an argument ([secret]), and so
    is the number of times the loop that looks for a non-zero SPI is tried: running out
    of tries is [Panic], so a theorem that the handler answers shows them to suffice.
    The order in which Go ranges over maps is the section parameter [rg].

    The certificate provider of the handler, which only unreachable code of
    [eap_tls.go] consults, is left out; the callbacks are functions. *)

From S2P Require Import Prelude Wire Net Rand EspCipher IkeHeader.
From S2P Require Import IkePayload IkeSA IkeV2 IkeMessage IkeTotal IkeProposal.
From S2P Require Import IkeCrypto IkeKeys IkeSession IkeSK Exch IkeExchange.

Module Init.
Import Hdr Pl SA V2 Msg Nego Crypto Keys Sess SK.

(** [None] of [getEAPCredentials] is a nil function: no EAP. *)
Record IKEv2Handler := mkHandler2 {
  defaultIKEProposals : option SAPayload;
  defaultChildProposals : option SAPayload;
  getConnPSK : option UDPAddr -> bytes -> option (bytes * bytes);
  getEAPCredentials : option (bytes -> option bytes);
  h2_localID : bytes;
  h2_localIDType : Z;
  cookieMode : CookieMode;
  cookieSecret : bytes
}.

Definition NewIKEv2Handler (getConnPSK : option UDPAddr -> bytes -> option (bytes * bytes))
    (getEAPCredentials : option (bytes -> option bytes)) (localID : bytes) (localIDType : Z) (mode : CookieMode) (r : rng) :
    IKEv2Handler * rng :=
  let '(secret, r) := rand_Read r 32 in
  (mkHandler2 (Some DefaultIKEProposals) (Some DefaultESPProposals) getConnPSK getEAPCredentials localID localIDType mode secret, r).

Definition is_busy (m : CookieMode) : bool := match m with CookieModeBusy => true | _ => false end.

(** [Notify{NotifyMsgType: t, NotifyData: data}], and a payload in a chain to be sent. *)
Definition notify (t : Z) (data : bytes) : NotifyPayload := mkNotify 0 0 t [] data.
Definition unsent (p : Payload) : ParsedPayload := mkParsed (mkGPH PayloadNone false 0) p.

Definition findNotifyPayload (chain : PayloadChain) (notifyType : Z) : option NotifyPayload :=
  find_as (fun p => match as_Notify p with Some n => if nt_NotifyMsgType n =? notifyType then Some n else None | None => None end) chain.

(** The header of every answer to IKE_SA_INIT. *)
Definition init_response (spiI spiR : bytes) : Header :=
  SetResponseFlags (SetIKEv2 (mkHeader spiI spiR PayloadNone 0 0 ExchangeIKESAInit 0 0 0)) false.

Definition buildSAInitError (req : Message) (notifyType : Z) (data : bytes) : Message :=
  mkMessage (init_response (InitiatorSPI (msg_Header req)) (make 8)) [unsent (PNotify (notify notifyType data))] [].

Section handler.
Context {C : EspCipher.Cipher.Crypto} {D : Digests} {E : ECDH}.
Context (rg : nat -> nat -> nat -> range).

Definition buildCookieResponse (h : IKEv2Handler) (req : Message) (peerAddr : option UDPAddr) (ni : bytes) : res Message :=
  match NewPRF PRFHMAC_SHA256 with
  | Ok prf =>
    let cookie := GenerateSAInitCookie prf (cookieSecret h) peerAddr (InitiatorSPI (msg_Header req)) ni in
    Ok (mkMessage (init_response (InitiatorSPI (msg_Header req)) (make 8)) [unsent (PNotify (notify NotifyCookie cookie))] [])
  | _ => Panic
  end.

(** The check of a cookie that came with the request. *)
Definition invalid_cookie (h : IKEv2Handler) (msg : Message) (peerAddr : option UDPAddr) (ni : bytes) (cookie : NotifyPayload) : bool :=
  match NewPRF PRFHMAC_SHA256 with
  | Ok prf => negb (VerifySAInitCookie prf (cookieSecret h) peerAddr (InitiatorSPI (msg_Header msg)) ni (nt_NotifyData cookie))
  | _ => false
  end.

Definition processNATDetection (sess : IKEv2Session) (msg : Message) : res IKEv2Session :=
  foldl (fun acc pp =>
    sess ← acc;
    match as_Notify (pp_Payload pp) with
    | None => Ok sess
    | Some n =>
      if nt_NotifyMsgType n =? NotifyNATDetectionSourceIP then
        peer ← deref (s2_PeerAddr sess);
        if negb (CheckNATDetection (nt_NotifyData n) (s2_InitiatorSPI sess) (s2_ResponderSPI sess) (IP peer) (u16 (Port peer)))
        then Ok (set_s2_BehindNATRemote sess true) else Ok sess
      else Ok sess
    end) (Ok sess) (msg_Payloads msg).

(** The session as it is created; what is not set is zero. *)
Definition new_session (h : IKEv2Handler) (msg : Message) (peerAddr : option UDPAddr) (sel : SelectedProposal) (respSPI ni nonceR dhPriv dhPub peerPub
    sharedSecret : bytes) (keys : IKEv2KeyMaterial) (prf : hmacPRF) (encryptor : IKEEncryptor) (integrity : option hmacIntegrity) : IKEv2Session :=
  mkSess2 (InitiatorSPI (msg_Header msg)) respSPI false peerAddr StateV2InitRecv (sel_EncrID sel) (sel_PRFID sel) (sel_IntegID sel)
    (sel_DHID sel) (sel_EncrKeyLen sel) (cloneBytes ni) nonceR dhPriv dhPub (cloneBytes peerPub) sharedSecret (Some keys) (Some prf)
    (Some encryptor) integrity [] [] 0 [] (h2_localID h) (h2_localIDType h) [] [] false false false 0 [] None 0 0 [] None None None None.

(** The payloads of the answer; the address of the peer stands for our own too. *)
Definition init_payloads (sess : IKEv2Session) (selectedProp : Proposal) (dhID : Z) (dhPub nonceR : bytes) (peer : UDPAddr) : PayloadChain :=
  let natSrc := ComputeNATDetection (s2_InitiatorSPI sess) (s2_ResponderSPI sess) (IP peer) (u16 (Port peer)) in
  let natDst := ComputeNATDetection (s2_InitiatorSPI sess) (s2_ResponderSPI sess) (IP peer) (u16 (Port peer)) in
  unsent <$> [PSA (mkSA [selectedProp]); PKE (mkKE dhID dhPub); PNonce (mkNonce nonceR);
    PNotify (notify NotifyNATDetectionSourceIP natSrc); PNotify (notify NotifyNATDetectionDestIP natDst);
    PNotify (notify NotifyIKEv2FragmentationSupported [])].

(** The sizes of the keys of the selected algorithms; a nil integrity algorithm has none. *)
Definition encKeyLen (encryptor : IKEEncryptor) : Z :=
  if enc_IsAEAD encryptor then enc_KeySize encryptor + 4 else enc_KeySize encryptor.
Definition intKeyLen (integrity : option hmacIntegrity) : Z := match integrity with Some i => in_KeySize i | None => 0 end.

(** The integrity algorithm: none beside an AEAD cipher, or when none was negotiated. *)
Definition select_integrity (encryptor : IKEEncryptor) (selected : SelectedProposal) : res (option hmacIntegrity) :=
  if negb (enc_IsAEAD encryptor) && negb (sel_IntegID selected =? AuthNone) then
    i ← NewIntegrity (sel_IntegID selected); Ok (Some i)
  else Ok None.

Definition GenerateIKESPI (tries : nat) (r : rng) : res (bytes * rng) :=
  match GenerateIKESPI_loop tries r with Some x => Ok x | None => Panic end.

Definition draws {A} (f : rng -> res (A * rng)) : exch rng A := fun r =>
  match f r with Ok (a, r) => (r, Ok a) | Err e => (r, Err e) | Panic => (r, Panic) end.

(** From the selection of a proposal on. *)
Definition accept_init (h : IKEv2Handler) (tries : nat) (x : secret) (msg : Message) (peerAddr : option UDPAddr)
    (saPayload : SAPayload) (kePayload : KEPayload) (noncePayload : NoncePayload) : exch rng (Message * option IKEv2Session) :=
  match SelectProposal rg (defaultIKEProposals h) (Some saPayload) with
  | Panic => lift Panic
  | Err _ => ret (buildSAInitError msg NotifyNoProposalChosen [], None)
  | Ok (selected, selectedProp) =>
    if negb (ke_DHGroup kePayload =? sel_DHID selected) then
      let groupBuf := [u8 (Z.shiftr (sel_DHID selected) 8); u8 (sel_DHID selected)] in
      ret (buildSAInitError msg NotifyInvalidKEPayload groupBuf, None)
    else
      respSPI ← draws (GenerateIKESPI tries);
      dh ← lift (NewDHGroup (sel_DHID selected));
      '(dhPriv, dhPub) ← lift (GenerateKeypair dh x);
      sharedSecret ← lift (ComputeSharedSecret dh dhPriv (ke_Data kePayload));
      nonceR ← draws (GenerateNonce 32);
      prf ← lift (NewPRF (sel_PRFID selected));
      encryptor ← lift (NewIKEEncryptor (sel_EncrID selected) (sel_EncrKeyLen selected));
      integrity ← lift (select_integrity encryptor selected);
      keys ← lift (DeriveIKEv2Keys prf sharedSecret (nonce_NonceData noncePayload) nonceR
        (InitiatorSPI (msg_Header msg)) respSPI (encKeyLen encryptor) (intKeyLen integrity) (prf_KeySize prf));
      let sess := new_session h msg peerAddr selected respSPI (nonce_NonceData noncePayload) nonceR dhPriv dhPub (ke_Data kePayload)
        sharedSecret keys prf encryptor integrity in
      '(_, reqBytes) ← lift (Message_Marshal msg);
      let sess := set_s2_InitReqBytes sess reqBytes in
      sess ← lift (processNATDetection sess msg);
      let sess := match findNotifyPayload (msg_Payloads msg) NotifyIKEv2FragmentationSupported with
        | Some _ => set_s2_PeerSupportsFragmentation sess true | None => sess end in
      peer ← lift (deref peerAddr);
      let resp := mkMessage (init_response (s2_InitiatorSPI sess) (s2_ResponderSPI sess))
        (init_payloads sess selectedProp (sel_DHID selected) dhPub nonceR peer) [] in
      '(resp, respBytes) ← lift (Message_Marshal resp);
      ret (resp, Some (set_s2_InitRespBytes sess respBytes))
  end.

Definition HandleSAInit (h : IKEv2Handler) (tries : nat) (x : secret) (msg : Message) (peerAddr : option UDPAddr) :
    exch rng (Message * option IKEv2Session) :=
  match find_as as_SA (msg_Payloads msg) with
  | None => ret (buildSAInitError msg NotifyInvalidSyntax [], None)
  | Some saPayload =>
    match find_as as_KE (msg_Payloads msg) with
    | None => ret (buildSAInitError msg NotifyInvalidSyntax [], None)
    | Some kePayload =>
      match find_as as_Nonce (msg_Payloads msg) with
      | None => ret (buildSAInitError msg NotifyInvalidSyntax [], None)
      | Some noncePayload =>
        match findNotifyPayload (msg_Payloads msg) NotifyCookie with
        | None =>
          if is_busy (cookieMode h) then
            resp ← lift (buildCookieResponse h msg peerAddr (nonce_NonceData noncePayload)); ret (resp, None)
          else accept_init h tries x msg peerAddr saPayload kePayload noncePayload
        | Some cookie =>
          if invalid_cookie h msg peerAddr (nonce_NonceData noncePayload) cookie then
            ret (buildSAInitError msg NotifyInvalidSyntax [], None)
          else accept_init h tries x msg peerAddr saPayload kePayload noncePayload
        end
      end
    end
  end.

End handler.

(** ** What the default proposals lead to *)

Section supported.
Context (rg : nat -> nat -> nat -> range) (Hrg : forall i j k, is_range (rg i j k)).

Lemma only_of_type (o : Proposal) ty x : x ∈ pr_Transforms o ->
  forallb (fun y => negb (tr_Type y =? ty) || bool_decide (y = x)) (pr_Transforms o) = true ->
  forall y, y ∈ pr_Transforms o -> tr_Type y = ty -> y = x.
Proof.
  intros _ Hall y Hy Hty. rewrite forallb_forall in Hall. specialize (Hall y (proj1 (list_elem_of_In _ _) Hy)).
  rewrite Hty, Z.eqb_refl in Hall. by apply bool_decide_eq_true in Hall.
Qed.

(** The only transform of a type that is not the integrity type is the one selected. *)
Lemma selected_only rng o t ty x : is_range rng -> known_type ty -> ty <> TransformTypeINTG -> compatible o t ->
  x ∈ pr_Transforms o -> tr_Type x = ty ->
  forallb (fun y => negb (tr_Type y =? ty) || bool_decide (y = x)) (pr_Transforms o) = true ->
  selected_id (extractSelected rng o t) ty = tr_ID x.
Proof.
  intros Hr Hk Hni [_ Hc] Hx Hty Hall.
  destruct (extractSelected_id rng o t ty Hr Hk) as [(y & z & Hy & _ & Hyt & _ & ->)|[_ Hn]].
  - by rewrite (only_of_type o ty x Hx Hall y Hy Hyt).
  - destruct (Hc x Hx) as [(y & z & Hy & Hz & Hyt & Hm)|[He _]]; [|congruence].
    rewrite (Hn y z Hy Hz) in Hm by congruence. done.
Qed.

Lemma selected_encr rng o t x : is_range rng -> compatible o t ->
  x ∈ pr_Transforms o -> tr_Type x = TransformTypeENCR -> tr_KeyLength x <> 0 ->
  forallb (fun y => negb (tr_Type y =? TransformTypeENCR) || bool_decide (y = x)) (pr_Transforms o) = true ->
  sel_EncrID (extractSelected rng o t) = tr_ID x /\ sel_EncrKeyLen (extractSelected rng o t) = tr_KeyLength x.
Proof.
  intros Hr [_ Hc] Hx Hty Hkl Hall.
  destruct (extractSelected_encr rng o t Hr) as [(y & z & Hy & _ & Hyt & _ & [= -> ->])|[_ Hn]].
  - rewrite (only_of_type o _ x Hx Hall y Hy Hyt). by rewrite (proj2 (Z.eqb_neq _ _) Hkl).
  - destruct (Hc x Hx) as [(y & z & Hy & Hz & Hyt & Hm)|[He _]]; [|rewrite He in Hty; done].
    rewrite (Hn y z Hy Hz) in Hm by congruence. done.
Qed.

(** The algorithms of a selection from the defaults, and the shape of the answer. *)
Definition default_choice (sel : SelectedProposal) : Prop :=
  (sel_EncrID sel, sel_EncrKeyLen sel, sel_PRFID sel, sel_DHID sel) ∈
    [(EncrAES_GCM_16, 256, PRFHMAC_SHA256, DHGroup20); (EncrAES_GCM_16, 128, PRFHMAC_SHA256, DHGroup14);
     (EncrAES_CBC, 256, PRFHMAC_SHA256, DHGroup14); (EncrAES_CBC, 128, PRFHMAC_SHA1, DHGroup14)] /\
  (sel_IntegID sel = AuthNone \/ sel_IntegID sel = AuthHMAC_SHA256_128 \/ sel_IntegID sel = AuthHMAC_SHA1_96).

Lemma select_default_spec theirs sel p :
  SelectProposal rg (Some DefaultIKEProposals) (Some (mkSA theirs)) = Ok (sel, p) ->
  exists o t rng rng', o ∈ sa_Proposals DefaultIKEProposals /\ t ∈ theirs /\ compatible o t /\ is_range rng /\ is_range rng' /\
    sel = extractSelected rng o t /\ p = buildSelectedProposal rng' t o.
Proof using Hrg.
  destruct theirs as [|t0 theirs]; [done|]. unfold SelectProposal. intros H.
  pose proof (select_loop_spec rg Hrg (sa_Proposals DefaultIKEProposals) (t0 :: theirs) 0) as Hs.
  cbn [sa_Proposals DefaultIKEProposals] in *. destruct (select_loop rg 0 _ (t0 :: theirs)) as [[s q]|]; [|done].
  injection H as -> ->. destruct Hs as (i & j & o & t & (Ho & Ht & Hc & _) & -> & ->).
  exists o, t, (rg (0 + i)%nat j 1%nat), (rg (0 + i)%nat j 2%nat). split_and!; try done; by eapply list_elem_of_lookup_2.
Qed.

Ltac pick n := apply (list_elem_of_lookup_2 _ n); reflexivity.

(** One of the default proposals: its cipher, PRF and group ([j]-th), the [k]-th choice. *)
Ltac settle He Hid Kp Kd enc kl prf dh j k :=
  let E1 := fresh in let E2 := fresh in
  destruct (He (xf TransformTypeENCR enc kl)) as [-> ->]; [pick 0%nat|done|done|vm_compute; reflexivity|];
  pose proof (Hid _ (xf TransformTypePRF prf 0) Kp ltac:(done) ltac:(pick 1%nat) eq_refl ltac:(vm_compute; reflexivity)) as E1;
  pose proof (Hid _ (xf TransformTypeDH dh 0) Kd ltac:(done) ltac:(pick j) eq_refl ltac:(vm_compute; reflexivity)) as E2;
  cbn in E1, E2 |- *; rewrite E1, E2; pick k.

Lemma default_choice_ok theirs sel p :
  SelectProposal rg (Some DefaultIKEProposals) (Some (mkSA theirs)) = Ok (sel, p) -> default_choice sel.
Proof using Hrg.
  intros (o & t & rng & _ & Ho & _ & Hc & Hr & _ & -> & _)%select_default_spec. split.
  - assert (forall ty x, known_type ty -> ty <> TransformTypeINTG -> x ∈ pr_Transforms o -> tr_Type x = ty ->
      forallb (fun y => negb (tr_Type y =? ty) || bool_decide (y = x)) (pr_Transforms o) = true ->
      selected_id (extractSelected rng o t) ty = tr_ID x) as Hid by (intros; by apply selected_only).
    assert (forall x, x ∈ pr_Transforms o -> tr_Type x = TransformTypeENCR -> tr_KeyLength x <> 0 ->
      forallb (fun y => negb (tr_Type y =? TransformTypeENCR) || bool_decide (y = x)) (pr_Transforms o) = true ->
      sel_EncrID (extractSelected rng o t) = tr_ID x /\ sel_EncrKeyLen (extractSelected rng o t) = tr_KeyLength x) as He
      by (intros; by apply selected_encr).
    assert (known_type TransformTypePRF /\ known_type TransformTypeDH) as [Kp Kd] by (split; split; vm_compute; discriminate).
    cbn [sa_Proposals DefaultIKEProposals] in Ho. rewrite !elem_of_cons, elem_of_nil in Ho.
    destruct Ho as [->|[->|[->|[->|[]]]]].
    + settle He Hid Kp Kd EncrAES_GCM_16 256 PRFHMAC_SHA256 DHGroup20 2%nat 0%nat.
    + settle He Hid Kp Kd EncrAES_GCM_16 128 PRFHMAC_SHA256 DHGroup14 2%nat 1%nat.
    + settle He Hid Kp Kd EncrAES_CBC 256 PRFHMAC_SHA256 DHGroup14 3%nat 2%nat.
    + settle He Hid Kp Kd EncrAES_CBC 128 PRFHMAC_SHA1 DHGroup14 3%nat 3%nat.
  - destruct (extractSelected_id rng o t TransformTypeINTG Hr) as [(x & y & Hx & _ & Hty & _ & Heq)|[Heq _]];
      [split; vm_compute; discriminate| |by left].
    cbn in Heq. rewrite Heq. clear Heq. cbn [sa_Proposals DefaultIKEProposals] in Ho. rewrite !elem_of_cons, elem_of_nil in Ho.
    destruct Ho as [->|[->|[->|[->|[]]]]]; cbn in Hx; rewrite !elem_of_cons, elem_of_nil in Hx; naive_solver.
Qed.

(** The proposal sent back has the peer's SPI and at most five transforms. *)
Lemma default_answer theirs sel p :
  SelectProposal rg (Some DefaultIKEProposals) (Some (mkSA theirs)) = Ok (sel, p) ->
  (exists t, t ∈ theirs /\ pr_SPI p = pr_SPI t) /\ len (pr_Transforms p) <= 5.
Proof using Hrg.
  intros (o & t & _ & rng & Ho & Ht & _ & _ & Hr & _ & ->)%select_default_spec. split; [by exists t|].
  assert (length (tr_Type <$> pr_Transforms (buildSelectedProposal rng t o)) <= length (tr_Type <$> pr_Transforms o))%nat as Hl.
  { apply submseteq_length, NoDup_submseteq; [by apply NoDup_types, range_NoDup|].
    intros ty (x & -> & (o' & t' & Ho' & _ & _ & -> & _)%built_agreed)%list_elem_of_fmap; [|done].
    apply list_elem_of_fmap. by exists o'. }
  rewrite !length_fmap in Hl. unfold len. cbn [sa_Proposals DefaultIKEProposals] in Ho. rewrite !elem_of_cons, elem_of_nil in Ho.
  destruct Ho as [->|[->|[->|[->|[]]]]]; cbn [prop pr_Transforms length] in Hl; lia.
Qed.

End supported.

(** ** The algorithms of a selection *)

Section agreement.
Context {C : EspCipher.Cipher.Crypto} {CL : EspCipher.Cipher.CryptoLaws C} {D : Digests} {DL : DigestLaws D}.
Context {E : ECDH} {EL : ECDHLaws E}.
Context (rg : nat -> nat -> nat -> range) (Hrg : forall i j k, is_range (rg i j k)).

Definition implements (sel : SelectedProposal) (dh : DHGroup) (prf : hmacPRF) (enc : IKEEncryptor) (integ : option hmacIntegrity) : Prop :=
  NewDHGroup (sel_DHID sel) = Ok dh /\ NewPRF (sel_PRFID sel) = Ok prf /\
  NewIKEEncryptor (sel_EncrID sel) (sel_EncrKeyLen sel) = Ok enc /\ select_integrity enc sel = Ok integ.

(** Every selected algorithm is implemented, with keys of at most 48 bytes. *)
Lemma default_supported sel : default_choice sel ->
  exists dh prf enc integ, implements sel dh prf enc integ /\
    0 <= encKeyLen enc <= 36 /\ 0 <= intKeyLen integ <= 32 /\ 0 <= prf_KeySize prf <= 32 /\
    (dh = modpGroup DHGroup14 modpPrime2048 modpGenerator2 \/ dh = ecpGroup DHGroup20 384).
Proof.
  destruct sel as [e kl pr ig d]. intros [H1 H2]. unfold implements, select_integrity. cbn in *.
  rewrite !elem_of_cons, elem_of_nil in H1.
  destruct H1 as [[= -> -> -> ->]|[[= -> -> -> ->]|[[= -> -> -> ->]|[[= -> -> -> ->]|[]]]]], H2 as [->|[->| ->]];
    do 4 eexists; (split; [split_and!; reflexivity|]); split_and!; try (vm_compute; discriminate); auto.
Qed.

Lemma default_public dh x a A :
  dh = modpGroup DHGroup14 modpPrime2048 modpGenerator2 \/ dh = ecpGroup DHGroup20 384 ->
  drawable dh x -> GenerateKeypair dh x = Ok (a, A) -> len A <= 256.
Proof using EL.
  intros [->| ->] Hx HA.
  - destruct x as [x|x]; [|done]. destruct Hx as [Hp Hx]. destruct (modp_keypair _ _ _ _ _ _ Hp Hx HA) as (_ & _ & ->).
    apply Z.leb_le. vm_compute. reflexivity.
  - destruct x as [x|x]; [done|]. cbn [drawable GenerateKeypair] in *. unfold ecp_GenerateKeypair in HA.
    destruct (ec_uncompressed 384 _ _ Hx) as [xy Exy]. pose proof (ec_size 384 _ _ Hx) as Hl. rewrite Exy in HA, Hl.
    injection HA as <- <-. rewrite len_cons in Hl. lia.
Qed.

(** ** The handler *)

Lemma processNATDetection_ok sess msg pa : s2_PeerAddr sess = Some pa ->
  exists b, processNATDetection sess msg = Ok (set_s2_BehindNATRemote sess b).
Proof.
  intros Hp. unfold processNATDetection.
  replace (Ok sess) with (Ok (set_s2_BehindNATRemote sess (s2_BehindNATRemote sess))) by (by destruct sess).
  generalize (s2_BehindNATRemote sess).
  induction (msg_Payloads msg) as [|pp l IH]; intros b; cbn [foldl]; [by exists b|]. rewrite bind_Ok.
  destruct (as_Notify (pp_Payload pp)) as [n|]; [|apply IH].
  destruct (_ =? _); [|apply IH]. change (s2_PeerAddr (set_s2_BehindNATRemote sess b)) with (s2_PeerAddr sess).
  rewrite Hp. cbn [deref]. rewrite bind_Ok. destruct (negb _); apply IH.
Qed.

(** What the answer tells the initiator. *)
Definition answers (resp : Message) (spiI spiR : bytes) (p : Proposal) (group : Z) (dhPub nonceR : bytes) : Prop :=
  InitiatorSPI (msg_Header resp) = spiI /\ ResponderSPI (msg_Header resp) = spiR /\
  find_as as_SA (msg_Payloads resp) = Some (mkSA [p]) /\
  find_as as_KE (msg_Payloads resp) = Some (mkKE group dhPub) /\
  find_as as_Nonce (msg_Payloads resp) = Some (mkNonce nonceR).

Lemma init_payloads_size sess p g dhPub nonceR peer :
  len (pr_SPI p) < 256 -> len (pr_Transforms p) <= 5 -> len dhPub <= 256 -> len nonceR = 32 ->
  chain_size (pp_Payload <$> init_payloads sess p g dhPub nonceR peer) < 4294967296 - 28.
Proof using DL.
  intros H1 H2 H3 H4. unfold init_payloads. cbv zeta. cbn [fmap list_fmap pp_Payload unsent chain_size].
  rewrite KE_size, Nonce_size, !Notify_size. cbn [nt_SPI nt_NotifyData notify ke_Data nonce_NonceData]. rewrite !(@len_nil Z).
  unfold ComputeNATDetection. rewrite !len_digest. pose proof (SA_size p). cbn [EspCipher.Cipher.hash_size]. lia.
Qed.

Lemma Message_Marshal_small m :
  Forall sized (pp_Payload <$> msg_Payloads m) -> msg_RawMessage m = [] -> chain_size (pp_Payload <$> msg_Payloads m) < 4294967296 - 28 ->
  exists m' b, Message_Marshal m = Ok (m', b) /\ msg_Payloads m' = msg_Payloads m /\
    InitiatorSPI (msg_Header m') = InitiatorSPI (msg_Header m) /\ ResponderSPI (msg_Header m') = ResponderSPI (msg_Header m).
Proof.
  intros Hs Hr Hc. destruct (Message_Marshal_total m Hs Hr) as (b & -> & _); [unfold wire_size, HeaderLen; lia|].
  eexists _, b. split; [done|]. by destruct (msg_Header m).
Qed.

(** The handler answers once every step before the answer has succeeded. *)
Lemma accept_init_ok h tries x msg pa sa ke nonce r r1 sel p dh prf enc integ spi a A s k :
  SelectProposal rg (defaultIKEProposals h) (Some sa) = Ok (sel, p) -> ke_DHGroup ke = sel_DHID sel ->
  GenerateIKESPI tries r = Ok (spi, r1) -> implements sel dh prf enc integ ->
  GenerateKeypair dh x = Ok (a, A) -> ComputeSharedSecret dh a (ke_Data ke) = Ok s ->
  let nonceR := (rand_Read r1 32).1 in
  DeriveIKEv2Keys prf s (nonce_NonceData nonce) nonceR (InitiatorSPI (msg_Header msg)) spi
    (encKeyLen enc) (intKeyLen integ) (prf_KeySize prf) = Ok k ->
  Forall sized (pp_Payload <$> msg_Payloads msg) -> msg_RawMessage msg = [] -> wire_size msg < 4294967296 ->
  len (pr_SPI p) < 256 -> len (pr_Transforms p) <= 5 -> len A <= 256 ->
  exists resp sess, (accept_init rg h tries x msg (Some pa) sa ke nonce r).2 = Ok (resp, Some sess) /\
    answers resp (InitiatorSPI (msg_Header msg)) spi p (sel_DHID sel) A nonceR /\
    s2_State sess = StateV2InitRecv /\ s2_ResponderSPI sess = spi /\ s2_PeerAddr sess = Some pa /\ s2_Keys sess = Some k.
Proof using DL.
  intros Hsel Hg Hspi (Hdh & Hprf & Henc & Hint) Hkp Hss nonceR Hk Hsz Hraw Hw H1 H2 H3.
  unfold accept_init. rewrite Hsel, Hg, Z.eqb_refl. cbn [negb].
  erewrite exch_bind_Ok; [|unfold draws; rewrite Hspi; reflexivity]. run Hdh. run Hkp. run Hss.
  erewrite exch_bind_Ok; [|unfold draws, GenerateNonce; cbn; reflexivity]. cbv beta iota. run Hprf. run Henc. run Hint.
  change (resize _ 0 (draw r1 (used r1))) with nonceR. run Hk. cbv zeta.
  destruct (Message_Marshal_total msg Hsz Hraw Hw) as (req & Hreq & _). run Hreq.
  match goal with |- context [processNATDetection ?s0 _] => destruct (processNATDetection_ok s0 msg pa eq_refl) as [nat Hnat] end.
  run Hnat. clear Hnat. cbn [deref].
  set (sess1 := match findNotifyPayload _ _ with Some _ => _ | None => _ end).
  assert (s2_InitiatorSPI sess1 = InitiatorSPI (msg_Header msg) /\ s2_ResponderSPI sess1 = spi /\ s2_State sess1 = StateV2InitRecv /\
    s2_PeerAddr sess1 = Some pa /\ s2_Keys sess1 = Some k) as (E1 & E2 & E3 & E4 & E5) by (unfold sess1; by destruct (findNotifyPayload _ _)).
  clearbody sess1. erewrite exch_bind_Ok; [|reflexivity].
  match goal with |- context [Message_Marshal ?m] => destruct (Message_Marshal_small m) as (m' & b & Hresp & Em & Ei & Er) end.
  - cbn [msg_Payloads]. unfold init_payloads. by repeat constructor.
  - done.
  - cbn [msg_Payloads]. apply init_payloads_size; [done..|]. unfold nonceR, rand_Read, len. cbn [fst]. by rewrite length_resize.
  - run Hresp. cbn [msg_Payloads msg_Header] in *. eexists m', _. split; [reflexivity|].
    unfold answers. rewrite Em, Ei, Er. cbn. by rewrite E1, E2.
Qed.

(** What lets a request past the cookie: none is wanted and none came, or it is right. *)
Definition cookie_admits (h : IKEv2Handler) (msg : Message) (peerAddr : option UDPAddr) (ni : bytes) : Prop :=
  match findNotifyPayload (msg_Payloads msg) NotifyCookie with
  | None => cookieMode h <> CookieModeBusy
  | Some n => forall prf, NewPRF PRFHMAC_SHA256 = Ok prf ->
      nt_NotifyData n = GenerateSAInitCookie prf (cookieSecret h) peerAddr (InitiatorSPI (msg_Header msg)) ni
  end.

Lemma invalid_cookie_iff h msg pa ni n :
  invalid_cookie h msg pa ni n = false <->
  forall prf, NewPRF PRFHMAC_SHA256 = Ok prf ->
    nt_NotifyData n = GenerateSAInitCookie prf (cookieSecret h) pa (InitiatorSPI (msg_Header msg)) ni.
Proof.
  unfold invalid_cookie. change (NewPRF PRFHMAC_SHA256) with (Ok (mkPRF PRFHMAC_SHA256 EspCipher.Cipher.SHA256 32 32)).
  rewrite negb_false_iff, VerifySAInitCookie_iff. split; [by intros -> ? [= <-]|]. intros H. by apply H.
Qed.

Lemma HandleSAInit_accepts h tries x msg pa sa ke nonce :
  find_as as_SA (msg_Payloads msg) = Some sa -> find_as as_KE (msg_Payloads msg) = Some ke ->
  find_as as_Nonce (msg_Payloads msg) = Some nonce -> cookie_admits h msg pa (nonce_NonceData nonce) ->
  HandleSAInit rg h tries x msg pa = accept_init rg h tries x msg pa sa ke nonce.
Proof.
  intros H1 H2 H3 Hc. unfold HandleSAInit, cookie_admits in *. rewrite H1, H2, H3.
  destruct (findNotifyPayload _ _) as [n|].
  - by rewrite (proj2 (invalid_cookie_iff h msg pa (nonce_NonceData nonce) n) Hc).
  - by destruct (cookieMode h).
Qed.

(** C5: An IKE_SA_INIT request with a proposal the responder supports is answered, and
    from the answer the initiator computes the keys the responder keeps for the new
    session: the Diffie-Hellman secrets and the derived keys agree. *)
Theorem SA_INIT_agreement h tries x xi msg pa sa ke nonce r sel p dh ai :
  defaultIKEProposals h = Some DefaultIKEProposals ->
  find_as as_SA (msg_Payloads msg) = Some sa -> find_as as_KE (msg_Payloads msg) = Some ke ->
  find_as as_Nonce (msg_Payloads msg) = Some nonce -> cookie_admits h msg (Some pa) (nonce_NonceData nonce) ->
  SelectProposal rg (Some DefaultIKEProposals) (Some sa) = Ok (sel, p) -> ke_DHGroup ke = sel_DHID sel ->
  NewDHGroup (sel_DHID sel) = Ok dh -> drawable dh xi -> GenerateKeypair dh xi = Ok (ai, ke_Data ke) -> valid_public dh (ke_Data ke) ->
  drawable dh x -> (forall a A, GenerateKeypair dh x = Ok (a, A) -> valid_public dh A) ->
  rng_ok r -> (exists sr, GenerateIKESPI_loop tries r = Some sr) ->
  len (InitiatorSPI (msg_Header msg)) = 8 -> Forall (fun t => len (pr_SPI t) < 256) (sa_Proposals sa) ->
  Forall sized (pp_Payload <$> msg_Payloads msg) -> msg_RawMessage msg = [] -> wire_size msg < 4294967296 ->
  exists resp sess prf enc integ A nonceR s k, (HandleSAInit rg h tries x msg (Some pa) r).2 = Ok (resp, Some sess) /\
    answers resp (InitiatorSPI (msg_Header msg)) (s2_ResponderSPI sess) p (sel_DHID sel) A nonceR /\
    s2_State sess = StateV2InitRecv /\ s2_ResponderSPI sess <> make 8 /\ implements sel dh prf enc integ /\
    ComputeSharedSecret dh ai A = Ok s /\
    DeriveIKEv2Keys prf s (nonce_NonceData nonce) nonceR (InitiatorSPI (msg_Header msg)) (s2_ResponderSPI sess)
      (encKeyLen enc) (intKeyLen integ) (prf_KeySize prf) = Ok k /\ s2_Keys sess = Some k.
Proof using CL DL EL Hrg.
  intros Hd HSA HKE HN Hc Hsel Hg Hdh Hxi Hki Vi Hx Vx Hr [[spi r1] Hspi] HI Hth Hsz Hraw Hw.
  destruct sa as [theirs]. pose proof (default_choice_ok rg Hrg _ _ _ Hsel) as Hch.
  destruct (default_answer rg Hrg _ _ _ Hsel) as [(t & Ht & Espi) Hxf].
  destruct (default_supported sel Hch) as (dh' & prf & enc & integ & Himp & Be & Bi & Bp & Hwhich).
  assert (dh' = dh) as -> by (destruct Himp as (H & _); congruence).
  destruct (GenerateKeypair dh x) as [[a A]|?|] eqn:Hkp; [|destruct (drawable_keypair dh x Hx); congruence..].
  destruct (DH_agreement dh xi x ai (ke_Data ke) a A Hxi Hx Hki Hkp Vi (Vx _ _ eq_refl)) as (s & H1 & H2 & Hne).
  destruct (GenerateIKESPI_ok tries r spi r1 Hr Hspi) as (Ls & _ & Hnz & _).
  set (nonceR := (rand_Read r1 32).1). pose proof (hash_size_pos (prf_hashFunc prf)).
  destruct (DeriveIKEv2Keys_ok prf s (nonce_NonceData nonce) nonceR (InitiatorSPI (msg_Header msg)) spi
    (encKeyLen enc) (intKeyLen integ) (prf_KeySize prf)) as [k Hk]; [done|done|unfold len; lia|lia..|].
  destruct (accept_init_ok h tries x msg pa (mkSA theirs) ke nonce r r1 sel p dh prf enc integ spi a A s k)
    as (resp & sess & E1 & E2 & E3 & E4 & _ & E6); try done.
  - by rewrite Hd.
  - unfold GenerateIKESPI. by rewrite Hspi.
  - rewrite Espi. rewrite Forall_forall in Hth. by apply Hth.
  - by eapply default_public.
  - exists resp, sess, prf, enc, integ, A, nonceR, s, k. rewrite E4. split_and!; try done.
    by rewrite (HandleSAInit_accepts h tries x msg (Some pa) (mkSA theirs) ke nonce).
Qed.


End agreement.

(** ** A concrete exchange *)

Import EspCipher.Cipher.Toy.

Definition demo_handler (mode : CookieMode) : IKEv2Handler :=
  mkHandler2 (Some DefaultIKEProposals) (Some DefaultESPProposals) (fun _ _ => None) None (bytes_of_string "gw") IDFQDN mode (replicate 32 9).
Definition demo_peer : UDPAddr := mkUDPAddr [192; 0; 2; 1] 500.
Definition demo_offer : SAPayload := mkSA [prop 1 ProtocolIKE [xf TransformTypeENCR EncrAES_GCM_16 256;
  xf TransformTypePRF PRFHMAC_SHA256 0; xf TransformTypeDH DHGroup20 0; xf TransformTypeESN ESNNone 0]].
Definition demo_request : Message :=
  mkMessage (mkHeader (replicate 8 1) (make 8) PayloadSA 2 0 ExchangeIKESAInit FlagInitiator 0 0)
    (unsent <$> [PSA demo_offer; PKE (mkKE DHGroup20 [1; 2]); PNonce (mkNonce (replicate 16 3))]) [].

Lemma SA_INIT_agreement_witness :
  exists resp sess, (HandleSAInit (fun _ _ _ => map_range) (demo_handler CookieModeAuto) 1 (PrivKey [3]) demo_request (Some demo_peer) demo_rng).2 =
    Ok (resp, Some sess) /\ s2_State sess = StateV2InitRecv.
Proof.
  pose proof (SA_INIT_agreement (fun _ _ _ => map_range) (fun _ _ _ => map_range_ok) (demo_handler CookieModeAuto) 1 (PrivKey [3]) (PrivKey [1; 2])
    demo_request demo_peer demo_offer (mkKE DHGroup20 [1; 2]) (mkNonce (replicate 16 3)) demo_rng) as H.
  destruct (SelectProposal (fun _ _ _ => map_range) (Some DefaultIKEProposals) (Some demo_offer)) as [[sel p]|?|] eqn:Es;
    [|vm_compute in Es; discriminate..].
  specialize (H sel p (ecpGroup DHGroup20 384) [1; 2] eq_refl eq_refl eq_refl eq_refl ltac:(discriminate) eq_refl).
  vm_compute in Es. injection Es as <- <-.
  destruct H as (resp & sess & prf & enc & integ & A & nr & s & k & E1 & _ & E2 & _);
    try reflexivity; try exact I.
  - apply demo_rng_ok.
  - eexists. vm_compute. reflexivity.
  - apply (bool_decide_unpack _). vm_compute. exact I.
  - by repeat constructor.
  - exists resp, sess. split; [exact E1|exact E2].
Defined.


End Init.
