(* ===== verification/IkeV2Auth.v ===== *)
(** * IkeV2Auth: IKE_AUTH and CREATE_CHILD_SA
      ([internal/ike/ikev2_auth.go], [startEAPExchange] of [ikev2_eap_auth.go])

    The handlers run on a session and the random source.  The function [assignIP] is
    called at most once, so it is the result of that call: [None] for a nil function,
    [Some None] for an error.  The two ways to an established session ([HandleAuth] and,
    in [IkeV2Eap], [handleFinalEAPAuth]) have the same text from the selection of the
    child proposal on; it is written once ([establish]). *)

From S2P Require Import Prelude Wire Net Rand EspCipher IkeHeader.
From S2P Require Import IkePayload IkeSA IkeV2 IkeMessage IkeTotal IkeProposal.
From S2P Require Import IkeCrypto IkeKeys IkeSession IkeSK IkeEap Exch IkeExchange IkeV2Init.

Module Auth.
Import Hdr Pl SA V2 Msg Nego Crypto Keys Sess SK Init.

Abbreviation st := (IKEv2Session * rng)%type.

(** ** Answers *)

(** The header of an answer, without and with its last two fields. *)
Definition response_header (sess : IKEv2Session) (nextPayload exchType msgID length : Z) : Header :=
  SetResponseFlags (SetIKEv2 (mkHeader (s2_InitiatorSPI sess) (s2_ResponderSPI sess) nextPayload 0 0 exchType 0 msgID length)) false.

(** The first traffic selector payload of a direction. *)
Definition findTSPayload (chain : PayloadChain) (isInitiator : bool) : option TSPayload :=
  find_as (fun p => match as_TS p with Some ts => if eqb (tsp_IsInitiator ts) isInitiator then Some ts else None | None => None end) chain.

Definition childKeyLengths (sel : SelectedProposal) : Z * Z :=
  let encKeyLen :=
    if sel_EncrID sel =? EncrAES_GCM_16 then
      let keySize := sel_EncrKeyLen sel / 8 in
      let keySize := if keySize =? 0 then 32 else keySize in
      keySize + 4
    else
      let keySize := sel_EncrKeyLen sel / 8 in
      if keySize =? 0 then 16 else keySize in
  let intKeyLen :=
    if negb (sel_IntegID sel =? AuthNone) && negb (sel_IntegID sel =? 0) then
      match NewIntegrity (sel_IntegID sel) with Ok intAlg => in_KeySize intAlg | _ => 0 end
    else 0 in
  (encKeyLen, intKeyLen).

(** The initiator's keys, then ours: the cipher key, and the integrity key if there is one. *)
Definition cut_child (childKeymat : bytes) (childEncKeyLen childIntKeyLen : Z) : res (bytes * bytes * bytes * bytes) :=
  let offset := 0 in
  peerEncrKey ← slice childKeymat offset (offset + childEncKeyLen);
  let offset := offset + childEncKeyLen in
  '(peerIntegKey, offset) ← (if childIntKeyLen >? 0 then
      k ← slice childKeymat offset (offset + childIntKeyLen); Ok (k, offset + childIntKeyLen)
    else Ok ([], offset));
  ourEncrKey ← slice childKeymat offset (offset + childEncKeyLen);
  let offset := offset + childEncKeyLen in
  ourIntegKey ← (if childIntKeyLen >? 0 then slice childKeymat offset (offset + childIntKeyLen) else Ok []);
  Ok (cloneSlice peerEncrKey, cloneSlice peerIntegKey, cloneSlice ourEncrKey, cloneSlice ourIntegKey).

(** The peer's SPI: that of its first proposal, if four bytes are there. *)
Definition child_out_spi (saPayload : SAPayload) : bytes :=
  match sa_Proposals saPayload with
  | p :: _ => if 4 <=? len (pr_SPI p) then take 4 (pr_SPI p) else make 4
  | [] => make 4
  end.

Definition with_SPI (p : Proposal) (spi : bytes) : Proposal :=
  mkProposal (pr_Number p) (pr_ProtocolID p) spi (pr_Transforms p) (pr_IsLast p).

Definition append_child (sess : IKEv2Session) (c : IKEv2ChildSA) : IKEv2Session := set_s2_ChildSAs sess (s2_ChildSAs sess ++ [c]).

Definition opt_payload {A} (f : A -> Payload) (o : option A) : list Payload := match o with Some a => [f a] | None => [] end.

(** [assignIP]: nil, an error, or an address with a mask that may be nil. *)
Definition AssignIP : Type := option (option (bytes * option bytes)).

Definition default_dns : list bytes := [v4InV6Prefix ++ [1; 1; 1; 1]; v4InV6Prefix ++ [1; 0; 0; 1]].

Definition buildCPReply (assignIP : AssignIP) (dnsServers : list bytes) : CPPayload :=
  let address := match assignIP with
    | Some (Some (ip, mask)) =>
      mkConfigAttribute ConfigInternalIP4Address (default [] (To4 ip)) ::
      match mask with Some m => [mkConfigAttribute ConfigInternalIP4Netmask m] | None => [] end
    | _ => []
    end in
  let dnsServers := if len dnsServers =? 0 then default_dns else dnsServers in
  mkCP CPReply (address ++ ((fun dns => mkConfigAttribute ConfigInternalIP4DNS (default [] (To4 dns))) <$> dnsServers)).

Section handlers.
Context {C : EspCipher.Cipher.Crypto} {D : Digests}.
Context (rg : nat -> nat -> nat -> range).

Definition buildEncryptedResponse (exchType msgID : Z) (innerPayloads : list Payload) : exch st Message :=
  sess ← on_session (fun s => s);
  tmpHeaderBytes ← lift (MarshalBinary (response_header sess PayloadNone exchType msgID 0));
  keys ← lift (deref (s2_Keys sess));
  let encKey := SK_er keys in
  let intKey := SK_ar keys in
  '(firstPT, skBody) ← drawn (EncryptSKPayload (s2_Encryptor sess) (s2_Integrity sess) encKey intKey tmpHeaderBytes innerPayloads);
  skPayloadBytes ← lift (marshalWithHeader PayloadSK skBody);
  skPayloadBytes ← lift (set_at skPayloadBytes 0 firstPT);
  let totalLen := HeaderLen + len skPayloadBytes in
  let hdr := response_header sess PayloadSK exchType msgID (u32 totalLen) in
  rawResp ← lift (Marshal hdr (make totalLen));
  rawResp ← lift (copy_at rawResp HeaderLen skPayloadBytes);
  ret (mkMessage hdr [] rawResp).

Definition buildEncryptedNotify (msgID exchType notifyType : Z) (data : bytes) : exch st Message :=
  buildEncryptedResponse exchType msgID [PNotify (notify notifyType data)].

Definition buildAuthError (notifyType : Z) : exch st Message :=
  buildEncryptedNotify 1 ExchangeIKEAuth notifyType [].

(** The payloads inside the SK payload of a request, and the header [msg.Marshal] leaves
    behind: its NextPayload is the type of the first payload of the message. *)
Definition open_request (msg : Message) : exch st PayloadChain :=
  match find_as as_SK (msg_Payloads msg) with
  | None => fail "missing SK payload"
  | Some skPayload =>
    '(msg, msgBytes) ← lift (Message_Marshal msg);
    aad ← lift (slice msgBytes 0 HeaderLen);
    sess ← on_session (fun s => s);
    keys ← lift (deref (s2_Keys sess));
    lift (DecryptSKPayload (s2_Encryptor sess) (s2_Integrity sess) (SK_ei keys) (SK_ai keys) aad
      (sk_EncryptedData skPayload) (NextPayload (msg_Header msg)))
  end.

Definition verifyAuth (sess : IKEv2Session) (auth : AUTHPayload) (id : IDPayload) : res unit :=
  if auth_Method auth =? AuthSharedKey then
    prf ← deref (s2_PRF sess);
    keys ← deref (s2_Keys sess);
    expected ← ComputeIKEv2AuthPSK prf (s2_PSK sess) (s2_InitReqBytes sess) (s2_NonceR sess) (SK_pi keys) (PID id);
    if negb (hashEqual expected (auth_Data auth)) then Err "PSK AUTH mismatch" else Ok tt
  else if (auth_Method auth =? AuthRSASig) || (auth_Method auth =? AuthECDSASHA256) || (auth_Method auth =? AuthECDSASHA384) ||
    (auth_Method auth =? AuthDigitalSig) then Ok tt
  else Err "unsupported auth method".

(** The keys of a child SA and the SA itself. *)
Definition derive_child (sess : IKEv2Session) (sel : SelectedProposal) (ni nr inSPI : bytes) (saPayload : SAPayload) : res IKEv2ChildSA :=
  let '(childEncKeyLen, childIntKeyLen) := childKeyLengths sel in
  let neededBytes := (childEncKeyLen + childIntKeyLen) * 2 in
  prf ← deref (s2_PRF sess);
  keys ← deref (s2_Keys sess);
  childKeymat ← DeriveChildSAKeys prf (SK_d keys) ni nr [] neededBytes;
  '(peerEncrKey, peerIntegKey, ourEncrKey, ourIntegKey) ← cut_child childKeymat childEncKeyLen childIntKeyLen;
  Ok (mkChild2 inSPI (child_out_spi saPayload) ourEncrKey ourIntegKey peerEncrKey peerIntegKey
    (sel_EncrID sel) (sel_IntegID sel) (sel_EncrKeyLen sel)).

(** The address and name servers the peer asked for. *)
Definition configuration (cpPayload : option CPPayload) (assignIP : AssignIP) (dnsServers : list bytes) : option CPPayload :=
  match cpPayload, assignIP with
  | Some cp, Some _ => if cp_ConfigType cp =? CPRequest then Some (buildCPReply assignIP dnsServers) else None
  | _, _ => None
  end.

(** From the child proposal to the established session; [finish] is what is assigned after that. *)
Definition establish (h : IKEv2Handler) (msgID : Z) (finish : IKEv2Session -> IKEv2Session) (saPayload : option SAPayload) (tsI tsR : option TSPayload) (cp : option CPPayload)
    (assignIP : AssignIP) (dnsServers : list bytes) : exch st Message :=
  match saPayload with
  | None => buildAuthError NotifyNoProposalChosen
  | Some saPayload =>
    match SelectProposal rg (defaultChildProposals h) (Some saPayload) with
    | Panic => lift Panic
    | Err _ => buildAuthError NotifyNoProposalChosen
    | Ok (childSelected, childProp) =>
      inSPI ← drawn (fun r => Ok (rand_Read r 4));
      let childProp := with_SPI childProp inSPI in
      sess ← on_session (fun s => s);
      childSA ← lift (derive_child sess childSelected (s2_NonceI sess) (s2_NonceR sess) inSPI saPayload);
      _ ← assign (fun s => append_child s childSA);
      let cpReply := configuration cp assignIP dnsServers in
      sess ← on_session (fun s => s);
      let respIDPayload := mkID false (s2_LocalIDType sess) (s2_LocalID sess) in
      prf ← lift (deref (s2_PRF sess));
      keys ← lift (deref (s2_Keys sess));
      respAuth ← lift (ComputeIKEv2AuthPSK prf (s2_PSK sess) (s2_InitRespBytes sess) (s2_NonceI sess) (SK_pr keys) (PID respIDPayload));
      let innerPayloads := [PID respIDPayload; PAUTH (mkAUTH AuthSharedKey respAuth); PSA (mkSA [childProp])] ++
        opt_payload PTS tsI ++ opt_payload PTS tsR ++ opt_payload PCP cpReply in
      resp ← buildEncryptedResponse ExchangeIKEAuth msgID innerPayloads;
      _ ← assign (fun s => set_s2_State s StateV2Established);
      _ ← assign finish;
      ret resp
    end
  end.

(** [startEAPExchange]: the identity is asked for. *)
Definition startEAPExchange : exch st Message :=
  _ ← assign (fun s => set_s2_EAPIdentifier s 1);
  _ ← assign (fun s => set_s2_State s StateV2EAPInProgress);
  sess ← on_session (fun s => s);
  eapIdentityReq ← lift (Eap.BuildEAPIdentityRequest (s2_EAPIdentifier sess));
  buildEncryptedResponse ExchangeIKEAuth 1
    [PID (mkID false (s2_LocalIDType sess) (s2_LocalID sess)); PEAP (mkEAP eapIdentityReq)].

(** What is kept of the request until EAP is over. *)
Definition save_pending (sa : option SAPayload) (tsI tsR : option TSPayload) (cp : option CPPayload) (s : IKEv2Session) : IKEv2Session :=
  set_s2_pendingAuthCP (set_s2_pendingAuthTSr (set_s2_pendingAuthTSi (set_s2_pendingAuthSA s sa) tsI) tsR) cp.

Definition HandleAuth (h : IKEv2Handler) (msg : Message) (assignIP : AssignIP) (dnsServers : list bytes) : exch st Message :=
  state ← on_session s2_State;
  if bool_decide (state <> StateV2InitRecv) then fail "IKE_AUTH: unexpected state" else
  innerChain ← open_request msg;
  let authPayload := find_as as_AUTH innerChain in
  let saPayload := find_as as_SA innerChain in
  let tsI := findTSPayload innerChain true in
  let tsR := findTSPayload innerChain false in
  let cpPayload := find_as as_CP innerChain in
  match find_as as_ID innerChain with
  | None => fail "IKE_AUTH: missing ID payload"
  | Some idPayload =>
    _ ← assign (fun s => set_s2_PeerID (set_s2_PeerIDType s (id_IDType idPayload)) (cloneBytes (id_Data idPayload)));
    match authPayload with
    | None =>
      match getEAPCredentials h with
      | Some _ =>
        _ ← assign (save_pending saPayload tsI tsR cpPayload);
        startEAPExchange
      | None => fail "IKE_AUTH: missing AUTH payload"
      end
    | Some authPayload =>
      sess ← on_session (fun s => s);
      match getConnPSK h (s2_PeerAddr sess) (s2_PeerID sess) with
      | None => fail "IKE_AUTH: no PSK for peer"
      | Some (psk, connName) =>
        _ ← assign (fun s => set_s2_ConnName (set_s2_PSK s psk) connName);
        sess ← on_session (fun s => s);
        match verifyAuth sess authPayload idPayload with
        | Panic => lift Panic
        | Err _ => buildAuthError NotifyAuthenticationFailed
        | Ok _ => establish h 1 (fun s => s) saPayload tsI tsR cpPayload assignIP dnsServers
        end
      end
    end
  end.

Definition HandleCreateChildSA (h : IKEv2Handler) (msg : Message) : exch st Message :=
  state ← on_session s2_State;
  if bool_decide (state <> StateV2Established) then fail "CREATE_CHILD_SA: unexpected state" else
  innerChain ← open_request msg;
  match find_as as_SA innerChain, find_as as_Nonce innerChain with
  | Some saPayload, Some noncePayload =>
    let isIKERekey := match sa_Proposals saPayload with p :: _ => pr_ProtocolID p =? ProtocolIKE | [] => false end in
    let msgID := MessageID (msg_Header msg) in
    if isIKERekey then buildEncryptedNotify msgID ExchangeCreateChildSA NotifyNoAdditionalSAS []
    else
      match SelectProposal rg (defaultChildProposals h) (Some saPayload) with
      | Panic => lift Panic
      | Err _ => buildEncryptedNotify msgID ExchangeCreateChildSA NotifyNoProposalChosen []
      | Ok (childSelected, childProp) =>
        nr ← drawn (GenerateNonce 32);
        inSPI ← drawn (fun r => Ok (rand_Read r 4));
        let childProp := with_SPI childProp inSPI in
        sess ← on_session (fun s => s);
        childSA ← lift (derive_child sess childSelected (nonce_NonceData noncePayload) nr inSPI saPayload);
        _ ← assign (fun s => append_child s childSA);
        buildEncryptedResponse ExchangeCreateChildSA msgID
          ([PSA (mkSA [childProp]); PNonce (mkNonce nr)] ++
           opt_payload PTS (findTSPayload innerChain true) ++ opt_payload PTS (findTSPayload innerChain false))
      end
  | _, _ => fail "CREATE_CHILD_SA: missing SA or Nonce"
  end.

End handlers.

(** ** The keys of a child SA *)

Lemma cut_child_ok keymat e i :
  0 <= e -> 0 <= i -> len keymat = (e + i) * 2 ->
  exists pe pi oe oi, cut_child keymat e i = Ok (pe, pi, oe, oi) /\ keymat = pe ++ pi ++ oe ++ oi /\
    len pe = e /\ len pi = i /\ len oe = e /\ len oi = i.
Proof.
  intros He Hi Hl. unfold cut_child, cloneSlice. rewrite slice_ok, bind_Ok by lia.
  assert (sub keymat 0 (len keymat) = keymat) as Hall.
  { unfold sub. rewrite take_ge; [done|]. rewrite length_drop. unfold len. lia. }
  destruct (Z.gtb_spec i 0) as [Hp|Hz].
  - repeat (rewrite ?bind_Ok; cbv iota beta; rewrite slice_ok by lia). rewrite !bind_Ok.
    eexists _, _, _, _. split; [reflexivity|]. rewrite !len_sub by lia. split; [|lia].
    rewrite !sub_sub by lia. rewrite <- Hall at 1. f_equal. lia.
  - assert (i = 0) as -> by lia. repeat (rewrite ?bind_Ok; cbv iota beta; rewrite slice_ok by lia). rewrite !bind_Ok.
    eexists _, _, _, _. split; [reflexivity|]. rewrite !len_sub, (@len_nil Z) by lia. split; [|lia].
    cbn [app]. rewrite app_nil_r, sub_sub by lia. rewrite <- Hall at 1. f_equal. lia.
Qed.

Lemma childKeyLengths_range sel : 0 <= sel_EncrKeyLen sel < 65536 ->
  0 <= (childKeyLengths sel).1 <= 8196 /\ 0 <= (childKeyLengths sel).2 <= 64.
Proof.
  intros Hk. unfold childKeyLengths. cbn [fst snd]. assert (0 <= sel_EncrKeyLen sel / 8 <= 8191) by (Z.div_mod_to_equations; lia).
  split; [repeat case_match; lia|]. destruct (_ && _); [|lia]. unfold NewIntegrity. repeat case_match; simplify_eq; cbn; lia.
Qed.

Section theorems.
Context {C : EspCipher.Cipher.Crypto} {CL : EspCipher.Cipher.CryptoLaws C} {D : Digests}.
Context (rg : nat -> nat -> nat -> range).

(** The keys of a child SA are the first bytes of the stream from SK_d and the nonces, the
    initiator's keys before ours, each of the length its algorithm has; so the initiator,
    cutting the same stream, gets the same keys in the opposite roles. *)
Theorem derive_child_correct sess sel ni nr inSPI sa prf keys e i :
  s2_PRF sess = Some prf -> s2_Keys sess = Some keys -> childKeyLengths sel = (e, i) -> 0 <= e -> 0 <= i ->
  (e + i) * 2 <= 255 * EspCipher.Cipher.hash_size (prf_hashFunc prf) ->
  exists c, derive_child sess sel ni nr inSPI sa = Ok c /\ c2_InSPI c = inSPI /\ c2_OutSPI c = child_out_spi sa /\
    c2_EncrID c = sel_EncrID sel /\ c2_IntegID c = sel_IntegID sel /\ c2_KeyLength c = sel_EncrKeyLen sel /\
    c2_PeerEncrKey c ++ c2_PeerIntegKey c ++ c2_EncrKey c ++ c2_IntegKey c =
      take (Z.to_nat ((e + i) * 2)) (stream prf (SK_d keys) (ni ++ nr) 255) /\
    len (c2_PeerEncrKey c) = e /\ len (c2_PeerIntegKey c) = i /\ len (c2_EncrKey c) = e /\ len (c2_IntegKey c) = i.
Proof using CL.
  intros Hp Hk Hl He Hi Hb. unfold derive_child. rewrite Hl, Hp, Hk. cbn [deref]. rewrite !bind_Ok.
  unfold DeriveChildSAKeys. cbn [len length Z.of_nat Z.gtb Z.compare app].
  rewrite (PRFPlus_correct prf (SK_d keys) (ni ++ nr) ((e + i) * 2) 255), bind_Ok by lia.
  set (km := take (Z.to_nat ((e + i) * 2)) (stream prf (SK_d keys) (ni ++ nr) 255)).
  assert (len km = (e + i) * 2) as Hkm by (unfold km; rewrite len_take, len_stream; lia). clearbody km.
  destruct (cut_child_ok km e i He Hi Hkm) as (pe & pi & oe & oi & -> & -> & ? & ? & ? & ?).
  rewrite bind_Ok. cbv beta iota. eexists. split; [reflexivity|]. by repeat split.
Qed.

(** ** Sealed answers *)

(** Nothing but the random source is changed. *)
Lemma response_session exchType msgID l s : (buildEncryptedResponse exchType msgID l s).1.1 = s.1.
Proof.
  change (wp (buildEncryptedResponse exchType msgID l) (fun s' _ => s'.1 = s.1) s). unfold buildEncryptedResponse.
  repeat first [wp_step | match goal with |- match ?x with _ => _ end => destruct x as [?|?|]; [|done..] end | done
    | apply wp_drawn; [|done..]; intros [? ?] ? _; cbn [fst snd] ].
Qed.

Lemma wp_response exchType msgID l (Q : st -> res Message -> Prop) s :
  (forall r' x, Q (s.1, r') x) -> wp (buildEncryptedResponse exchType msgID l) Q s.
Proof.
  intros H. unfold wp. pose proof (response_session exchType msgID l s) as E.
  destruct (buildEncryptedResponse _ _ _ s) as [[s' r'] x]. cbn in *. by subst.
Qed.

Lemma wp_notify notifyType (Q : st -> res Message -> Prop) s :
  (forall r' x, Q (s.1, r') x) -> wp (buildAuthError notifyType) Q s.
Proof. intros H. unfold buildAuthError, buildEncryptedNotify. by apply wp_response. Qed.

Lemma open_request_state msg s : (open_request msg s).1 = s.
Proof.
  change (wp (open_request msg) (fun s' _ => s' = s) s). unfold open_request. destruct (find_as as_SK _); [|done].
  repeat first [wp_step | match goal with |- match ?x with _ => _ end => destruct x as [?|?|]; [|done..] end | done
    | match goal with x : _ * _ |- _ => destruct x end ].
Qed.

Lemma open_request_run msg s : open_request msg s = (s, (open_request msg s).2).
Proof. rewrite (surjective_pairing (open_request msg s)). by rewrite open_request_state. Qed.

Lemma wp_open_request msg (Q : st -> res PayloadChain -> Prop) s : Q s (open_request msg s).2 -> wp (open_request msg) Q s.
Proof. unfold wp. by rewrite open_request_state. Qed.

Lemma response_header_ok sess np exchType msgID length :
  List.length (s2_InitiatorSPI sess) = 8%nat -> List.length (s2_ResponderSPI sess) = 8%nat ->
  bytes_wf (s2_InitiatorSPI sess) -> bytes_wf (s2_ResponderSPI sess) ->
  is_u8 np -> is_u8 exchType -> is_u32 msgID -> is_u32 length -> header_ok (response_header sess np exchType msgID length).
Proof. intros. by constructor. Qed.

(** An encrypted answer is a header that says SK, the generic header that names the first
    payload inside, and a body from which the initiator recovers the payloads.  The body is
    sealed under a header without next payload and length, not under the one that is sent:
    the associated data is not the first 28 bytes of the message. *)
Theorem response_opens exchType msgID l sess r enc keys :
  s2_Encryptor sess = Some enc -> s2_Keys sess = Some keys -> sk_keys_ok enc (s2_Integrity sess) (SK_er keys) -> rng_ok r ->
  List.length (s2_InitiatorSPI sess) = 8%nat -> List.length (s2_ResponderSPI sess) = 8%nat ->
  bytes_wf (s2_InitiatorSPI sess) -> bytes_wf (s2_ResponderSPI sess) -> is_u8 exchType -> is_u32 msgID ->
  Forall (payload_ok true) l ->
  exists resp body, (buildEncryptedResponse exchType msgID l (sess, r)).2 = Ok resp /\
    let sent := header_bytes (response_header sess PayloadSK exchType msgID (u32 (HeaderLen + 4 + len body))) in
    let aad := header_bytes (response_header sess PayloadNone exchType msgID 0) in
    Message_Marshal resp = Ok (resp, sent ++ payload_bytes (Msg.first_type l) body) /\
    (exists chain, DecryptSKPayload (Some enc) (s2_Integrity sess) (SK_er keys) (SK_ar keys) aad body (Msg.first_type l) = Ok chain /\
      pp_Payload <$> chain = l) /\ aad <> sent.
Proof using CL.
  intros He Hk Hsk Hr L1 L2 W1 W2 Hx Hm Hl. pose proof (payloads_content l Hl) as Hc.
  set (aad := header_bytes (response_header sess PayloadNone exchType msgID 0)).
  destruct (EncryptSKPayload_sealed enc (s2_Integrity sess) (SK_er keys) (SK_ar keys) aad l r Hsk Hr Hc) as (body & r' & E & _ & Hs).
  set (hdr := response_header sess PayloadSK exchType msgID (u32 (HeaderLen + 4 + len body))).
  exists (mkMessage hdr [] (header_bytes hdr ++ payload_bytes (Msg.first_type l) body)), body.
  assert (header_ok hdr) as Hh by (apply response_header_ok; try done; apply u32_range).
  assert (MarshalBinary (response_header sess PayloadNone exchType msgID 0) = Ok aad) as Ha by (by apply MarshalBinary_ok, response_header_ok).
  pose proof (len_nonneg body). pose proof (len_header_bytes hdr Hh) as Lh. split; [|split; [|split]].
  - unfold buildEncryptedResponse. erewrite exch_bind_Ok; [|reflexivity]. cbn [fst snd]. run Ha. run Hk. cbv zeta. rewrite He. erewrite exch_bind_Ok; [|unfold drawn; cbn [fst snd]; rewrite E; reflexivity].
    cbv beta iota. rewrite marshalWithHeader_ok. erewrite exch_bind_Ok; [|reflexivity].
    pose proof (set_next [] body [] (Msg.first_type l)) as Hset. rewrite !app_nil_r, !app_nil_l, (@len_nil Z) in Hset. run Hset.
    rewrite len_payload_bytes. replace (HeaderLen + (4 + len body)) with (HeaderLen + 4 + len body) by lia. fold hdr.
    rewrite Marshal_make by (done || unfold HeaderLen; lia). erewrite exch_bind_Ok; [|reflexivity].
    replace (HeaderLen + 4 + len body - HeaderLen) with (4 + len body) by lia. rewrite <- Lh at 1.
    rewrite fill_copy by (rewrite ?len_payload_bytes; lia). rewrite make_0, app_nil_r by (rewrite ?len_payload_bytes; lia).
    erewrite exch_bind_Ok; [|reflexivity]. reflexivity.
  - unfold Message_Marshal. cbn [msg_RawMessage]. rewrite (proj2 (Z.gtb_lt _ 0)); [done|]. rewrite len_app, Lh, len_payload_bytes. unfold HeaderLen. lia.
  - exists (parsed_chain l). split; [|apply parsed_chain_payloads].
    by eapply open_chain; [|apply chain_bytes_wf| |apply ParsePayloadChain_bytes].
  - intros Heq. pose proof (ParseHeader_bytes hdr [] Hh) as P1. fold hdr in Heq. rewrite <- Heq in P1. unfold aad in P1.
    rewrite ParseHeader_bytes in P1 by (by apply response_header_ok). injection P1. done.
Qed.

(** ** What a request does to the session *)

(** From the child proposal on: an answer that changes nothing, a child SA whose answer could
    not be built, or a child SA and an established session. *)
Definition after_establish (finish : IKEv2Session -> IKEv2Session) (saPayload : option SAPayload) (s s' : IKEv2Session) (x : res Message) : Prop :=
  s' = s \/ exists sa sel inSPI c, saPayload = Some sa /\ len inSPI = 4 /\
    derive_child s sel (s2_NonceI s) (s2_NonceR s) inSPI sa = Ok c /\
    ((exists m, x = Ok m) /\ s' = finish (set_s2_State (append_child s c) StateV2Established) \/
     (forall m, x <> Ok m) /\ s' = append_child s c).

Lemma establish_spec h msgID finish sa tsI tsR cp assignIP dns s :
  wp (establish rg h msgID finish sa tsI tsR cp assignIP dns) (fun s' x => after_establish finish sa s.1 s'.1 x) s.
Proof.
  unfold establish. destruct sa as [sa|]; [|apply wp_notify; by left].
  destruct (SelectProposal rg _ _) as [[sel p]|e|]; [|apply wp_notify; by left|by left].
  wp_step. apply wp_drawn; [|done..]. cbn [rand_Read]. intros inSPI r [= <- _]. cbv zeta. do 2 wp_step. wp_step. wp_step.
  cbn [fst snd]. destruct (derive_child _ _ _ _ _ _) as [c|e|] eqn:Ec; [|by left..].
  assert (len (resize 4 0 (draw s.2 (used s.2))) = 4) as Hl by (unfold len; by rewrite length_resize).
  assert (forall s' x, (forall m, x <> Ok m) -> s' = append_child s.1 c -> after_establish finish (Some sa) s.1 s' x) as Hfail
    by (intros s' x Hx ->; right; eexists sa, sel, _, c; split_and!; [done|exact Hl|exact Ec|by right]).
  do 2 wp_step. cbn [fst snd]. do 2 wp_step. cbn [fst snd].
  do 2 wp_step. destruct (deref _) as [prf|?|]; [|by apply Hfail..]. do 2 wp_step. destruct (deref _) as [keys|?|]; [|by apply Hfail..].
  do 2 wp_step. destruct (ComputeIKEv2AuthPSK _ _ _ _ _ _) as [a|?|]; [|by apply Hfail..].
  wp_step. apply wp_response. intros r' [m|?|]; [|by apply Hfail..]. do 2 wp_step. do 2 wp_step. wp_step. cbn [fst snd].
  right. eexists sa, sel, _, c. split_and!; [done|exact Hl|exact Ec|]. left. split; [by exists m|done].
Qed.

(** A signature of a certificate is not verified: [verifyAuth] lets the method pass. *)
Definition cert_method (m : Z) : Prop := m = AuthRSASig \/ m = AuthECDSASHA256 \/ m = AuthECDSASHA384 \/ m = AuthDigitalSig.

(** The AUTH data is the value of RFC 7296 for the shared key, over what the initiator said
    first, our nonce and the identity. *)
Definition psk_proof (s : IKEv2Session) (psk : bytes) (auth : AUTHPayload) (id : IDPayload) : Prop :=
  auth_Method auth = AuthSharedKey /\ exists prf keys, s2_PRF s = Some prf /\ s2_Keys s = Some keys /\
    auth_Data auth = rfc_AUTH prf psk (s2_InitReqBytes s) (s2_NonceR s) (SK_pi keys) (id_IDType id) (id_Data id).

Lemma verifyAuth_Ok s auth id : verifyAuth s auth id = Ok tt <-> psk_proof s (s2_PSK s) auth id \/ cert_method (auth_Method auth).
Proof.
  unfold verifyAuth, psk_proof, cert_method. destruct (Z.eqb_spec (auth_Method auth) AuthSharedKey) as [Em|Em].
  - destruct (s2_PRF s) as [prf|], (s2_Keys s) as [keys|]; cbn [deref]; rewrite ?bind_Ok;
      try (split; [done|]; intros [(_ & ? & ? & ? & ? & _)|Hm]; [done|]; rewrite Em in Hm; by destruct Hm as [|[|[|]]]).
    rewrite ComputeIKEv2AuthPSK_ID, bind_Ok, hashEqual_eq. case_bool_decide as Hx; cbn [negb].
    + split; [|done]. intros _. left. split; [done|]. by exists prf, keys.
    + split; [done|]. intros [(_ & prf' & keys' & [= <-] & [= <-] & E')|Hm]; [congruence|]. rewrite Em in Hm. by destruct Hm as [|[|[|]]].
  - destruct (_ || _) eqn:Ec.
    + split; [|done]. intros _. right. rewrite !orb_true_iff, !Z.eqb_eq in Ec. tauto.
    + split; [done|]. intros [[? _]|Hm]; [done|]. rewrite !orb_false_iff, !Z.eqb_neq in Ec. tauto.
Qed.

(** What the request proves of the initiator: who it is, and that it has the shared key of the
    connection for that identity, or that it names a certificate method. *)
Record authenticated (h : IKEv2Handler) (s : IKEv2Session) (chain : PayloadChain) (id : IDPayload) (connName : bytes) : Prop := {
  an_id : find_as as_ID chain = Some id;
  an_proof : exists auth psk, find_as as_AUTH chain = Some auth /\ getConnPSK h (s2_PeerAddr s) (id_Data id) = Some (psk, connName) /\
    (psk_proof s psk auth id \/ cert_method (auth_Method auth))
}.

(** The outcomes of a request in the first state. *)
Inductive auth_outcome (h : IKEv2Handler) (opened : res PayloadChain) (s s' : IKEv2Session) : Prop :=
  | auth_stays : s2_State s' = StateV2InitRecv -> auth_outcome h opened s s'
  | auth_eap chain : s2_State s' = StateV2EAPInProgress -> getEAPCredentials h <> None ->
      opened = Ok chain -> find_as as_AUTH chain = None -> auth_outcome h opened s s'
  | auth_done chain id connName c : s2_State s' = StateV2Established -> opened = Ok chain -> authenticated h s chain id connName ->
      s2_PeerID s' = id_Data id -> s2_ConnName s' = connName -> s2_ChildSAs s' = s2_ChildSAs s ++ [c] -> auth_outcome h opened s s'.

Lemma HandleAuth_first h msg assignIP dns s :
  s2_State s.1 = StateV2InitRecv ->
  wp (HandleAuth rg h msg assignIP dns) (fun s' _ => auth_outcome h (open_request msg s).2 s.1 s'.1) s.
Proof.
  intros Hst. unfold HandleAuth. do 2 wp_step. cbn [fst]. rewrite bool_decide_eq_false_2 by auto.
  wp_step. apply wp_open_request. destruct (open_request msg s).2 as [chain|e|] eqn:Eo; [|by constructor 1..].
  destruct (find_as as_ID chain) as [id|] eqn:Eid; [|by constructor 1]. do 2 wp_step. cbn [fst snd].
  destruct (find_as as_AUTH chain) as [auth|] eqn:Ea.
  - do 2 wp_step. cbn [fst snd]. set (s1 := set_s2_PeerID _ _). change (s2_PeerAddr s1) with (s2_PeerAddr s.1). change (s2_PeerID s1) with (id_Data id).
    destruct (getConnPSK h (s2_PeerAddr s.1) (id_Data id)) as [[psk cn]|] eqn:Ep; [|by constructor 1].
    do 2 wp_step. cbn [fst snd]. do 2 wp_step. cbn [fst snd]. set (s2 := set_s2_ConnName _ _).
    destruct (verifyAuth s2 auth id) as [[]|e|] eqn:Ev; [|by apply wp_notify; constructor 1|by constructor 1].
    apply verifyAuth_Ok in Ev. eapply wp_mono; [apply establish_spec|]. cbn [fst]. intros s' x Hx.
    destruct Hx as [Hx|(sa & sel & inSPI & c & _ & _ & _ & [[_ Hx]|[_ Hx]])]; rewrite Hx; [by constructor 1| |by constructor 1].
    apply (auth_done _ _ _ _ chain id cn c); [reflexivity|reflexivity| |reflexivity..]. split; [exact Eid|]. by exists auth, psk.
  - destruct (getEAPCredentials h) as [creds|] eqn:Ec; [|by constructor 1].
    assert (forall s', s2_State s' = StateV2EAPInProgress -> auth_outcome h (Ok chain) s.1 s') as Hfin by (intros; apply (auth_eap _ _ _ _ chain); congruence).
    do 2 wp_step. cbn [fst snd]. unfold startEAPExchange. do 6 wp_step. wp_step. wp_step. cbn [fst snd].
    destruct (Eap.BuildEAPIdentityRequest _) as [b|?|]; [|by apply Hfin..]. apply wp_response. intros r' x. by apply Hfin.
Qed.

(** IKE_AUTH moves a session only from its first state, and only along the edges of the
    exchange: it stays, EAP starts (only if the request has no AUTH payload and there are
    credentials to check), or it is established.  An established session has one more child
    SA, the identity of the request, and that identity was proved, except that a
    certificate method proves nothing. *)
Theorem HandleAuth_edges h msg assignIP dns s :
  let s' := (HandleAuth rg h msg assignIP dns s).1 in
  if bool_decide (s2_State s.1 = StateV2InitRecv) then auth_outcome h (open_request msg s).2 s.1 s'.1
  else s' = s /\ exists e, (HandleAuth rg h msg assignIP dns s).2 = Err e.
Proof.
  case_bool_decide as Hst; [by apply HandleAuth_first|]. unfold HandleAuth. erewrite exch_bind_Ok; [|reflexivity]. cbn [fst].
  rewrite bool_decide_eq_true_2 by done. split; [done|]. by eexists.
Qed.

(** ** The first payload of a request *)

(** The header names SK as the next payload, and that is the type given to the first payload
    inside: whatever it is, it is taken for an encrypted payload. *)
Lemma open_request_retyped hdr gph body p rest sess r enc keys :
  s2_Encryptor sess = Some enc -> s2_Keys sess = Some keys -> sk_keys_ok enc (s2_Integrity sess) (SK_ei keys) ->
  header_ok hdr -> bytes_wf body -> HeaderLen + 4 + len body < 4294967296 -> Forall (payload_ok true) (p :: rest) ->
  sealed enc (s2_Integrity sess) (SK_ei keys) (SK_ai keys) (header_bytes (sent_header hdr [PSK (mkSK body)])) (chain_bytes (p :: rest)) body ->
  (open_request (mkMessage hdr [mkParsed gph (PSK (mkSK body))] []) (sess, r)).2 =
    Ok (parsed_chain (PSK (mkSK (payload_body p)) :: rest)).
Proof using CL.
  intros He Hk Hsk Hh Hb Hlen Hl Hs. unfold open_request. cbn [msg_Payloads find_as foldr pp_Payload as_SK].
  assert (Forall (content_ok true) [PSK (mkSK body)]) as Hc by (by repeat constructor).
  assert (chain_bytes [PSK (mkSK body)] = payload_bytes 0 body) as Ec by (cbn [chain_bytes payload_body sk_EncryptedData]; by rewrite app_nil_r).
  pose proof (Message_Marshal_bytes true hdr [mkParsed gph (PSK (mkSK body))] Hh Hc) as Hm. cbn [fmap list_fmap pp_Payload] in Hm.
  rewrite Ec, len_payload_bytes in Hm. pose proof (len_nonneg body).
  assert (header_ok (sent_header hdr [PSK (mkSK body)])) as Hh' by (apply (sent_header_ok hdr _ true Hh Hc); rewrite Ec, len_payload_bytes; lia).
  rewrite Hm by lia. erewrite exch_bind_Ok; [|reflexivity]. cbv beta iota.
  rewrite slice_prefix by (rewrite ?(len_header_bytes _ Hh'); unfold HeaderLen; lia).
  do 2 (erewrite exch_bind_Ok; [|reflexivity]). cbn [fst snd]. run Hk. rewrite He. unfold lift. cbn [snd].
  apply Forall_cons in Hl as [Hp Hrest]. pose proof (payload_body_wf p (proj1 Hp)) as Hwp.
  assert (Forall (payload_ok true) (PSK (mkSK (payload_body p)) :: rest)) as Hl' by (constructor; [split; [done|apply Hp]|done]).
  eapply open_chain; [done| |exact Hs|]; [by apply chain_bytes_wf, payloads_content; constructor|].
  exact (ParsePayloadChain_bytes _ Hl').
Qed.

(** So an IKE_AUTH request whose identity comes first, as RFC 7296 has it, is refused for
    a missing identity although it was sealed with the keys of the session, unless another
    ID payload follows. *)
Theorem HandleAuth_loses_identity h hdr gph body p rest sess r enc keys assignIP dns :
  s2_State sess = StateV2InitRecv ->
  s2_Encryptor sess = Some enc -> s2_Keys sess = Some keys -> sk_keys_ok enc (s2_Integrity sess) (SK_ei keys) ->
  header_ok hdr -> bytes_wf body -> HeaderLen + 4 + len body < 4294967296 -> Forall (payload_ok true) (p :: rest) ->
  sealed enc (s2_Integrity sess) (SK_ei keys) (SK_ai keys) (header_bytes (sent_header hdr [PSK (mkSK body)])) (chain_bytes (p :: rest)) body ->
  Forall (fun q => as_ID q = None) rest ->
  HandleAuth rg h (mkMessage hdr [mkParsed gph (PSK (mkSK body))] []) assignIP dns (sess, r) =
    ((sess, r), Err "IKE_AUTH: missing ID payload").
Proof using CL.
  intros Hst He Hk Hsk Hh Hb Hlen Hl Hs Hno. pose proof (open_request_retyped hdr gph body p rest sess r enc keys He Hk Hsk Hh Hb Hlen Hl Hs) as Ho.
  unfold HandleAuth. erewrite exch_bind_Ok; [|reflexivity]. cbn [fst]. rewrite bool_decide_eq_false_2 by auto.
  erewrite exch_bind_Ok; [|rewrite open_request_run, Ho; reflexivity].
  cbv zeta. rewrite (proj2 (find_as_None as_ID _)); [done|]. constructor; [done|].
  rewrite <- (parsed_chain_payloads rest) in Hno. by rewrite Forall_fmap in Hno.
Qed.

End theorems.

(** ** Examples *)

Import EspCipher.Cipher.Toy.

Definition demo_keys : IKEv2KeyMaterial :=
  mkKeys2 (replicate 32 1) [] [] (replicate 20 2) (replicate 20 3) (replicate 32 4) (replicate 32 5).
Definition demo_sess : IKEv2Session := demo_session (aesGCMEncryptor EncrAES_GCM_16 16) None demo_keys.

Lemma derive_child_correct_witness :
  exists c, derive_child demo_sess (mkSelected 1 3 [] EncrAES_GCM_16 256 0 0 0 0) [1; 1] [2; 2] [9; 9; 9; 9] (mkSA []) = Ok c /\
    len (c2_EncrKey c) = 36 /\ c2_PeerEncrKey c ++ c2_PeerIntegKey c ++ c2_EncrKey c ++ c2_IntegKey c =
      take 72 (stream (mkPRF 5 EspCipher.Cipher.SHA256 32 32) (SK_d demo_keys) ([1; 1] ++ [2; 2]) 255).
Proof.
  destruct (derive_child_correct demo_sess (mkSelected 1 3 [] EncrAES_GCM_16 256 0 0 0 0) [1; 1] [2; 2] [9; 9; 9; 9] (mkSA [])
    (mkPRF 5 EspCipher.Cipher.SHA256 32 32) demo_keys 36 0) as (c & E & _ & _ & _ & _ & _ & Hk & _ & _ & He & _);
    [reflexivity..|lia|lia|cbn; lia|]. exists c. split; [exact E|]. split; [exact He|exact Hk].
Defined.

Lemma response_opens_witness :
  exists resp body, (buildEncryptedResponse ExchangeIKEAuth 1 [PNonce (mkNonce [1; 2; 3])] (demo_sess, demo_rng)).2 = Ok resp /\
    exists chain, DecryptSKPayload (Some (aesGCMEncryptor EncrAES_GCM_16 16)) None (SK_er demo_keys) (SK_ar demo_keys)
      (header_bytes (response_header demo_sess PayloadNone ExchangeIKEAuth 1 0)) body PayloadNonce = Ok chain /\
      pp_Payload <$> chain = [PNonce (mkNonce [1; 2; 3])].
Proof.
  destruct (response_opens ExchangeIKEAuth 1 [PNonce (mkNonce [1; 2; 3])] demo_sess demo_rng (aesGCMEncryptor EncrAES_GCM_16 16) demo_keys)
    as (resp & body & E & _ & H & _); try reflexivity; try (apply (bool_decide_unpack _); vm_compute; exact I).
  - split; [split; [by left|vm_compute; discriminate]|discriminate].
  - apply demo_rng_ok.
  - repeat constructor; apply (bool_decide_unpack _); vm_compute; exact I.
  - exists resp, body. split; [exact E|exact H].
Defined.

(** A request with the identity and an AUTH payload, as an initiator seals it. *)
Definition demo_header : Header := mkHeader [1;2;3;4;5;6;7;8] [8;7;6;5;4;3;2;1] PayloadSK 2 0 ExchangeIKEAuth FlagInitiator 1 0.
Definition demo_inner : list Payload := [PID (mkID true IDFQDN [97; 98])].
Definition demo_aad : bytes := header_bytes (sent_header demo_header [PSK (mkSK (make 35))]).
Definition demo_body : bytes :=
  match Encrypt (aesGCMEncryptor EncrAES_GCM_16 16) (SK_ei demo_keys) (replicate 8 7) (chain_bytes demo_inner ++ [0]) demo_aad with
  | Ok c => replicate 8 7 ++ c | _ => [] end.

Lemma HandleAuth_loses_identity_witness :
  HandleAuth (fun _ _ _ => map_range) (demo_handler CookieModeAuto)
    (mkMessage demo_header [mkParsed (mkGPH PayloadNone false 0) (PSK (mkSK demo_body))] []) None [] (demo_sess, demo_rng) =
    ((demo_sess, demo_rng), Err "IKE_AUTH: missing ID payload").
Proof.
  apply (HandleAuth_loses_identity (fun _ _ _ => map_range) (demo_handler CookieModeAuto) demo_header (mkGPH PayloadNone false 0) demo_body
    (PID (mkID true IDFQDN [97; 98])) [] demo_sess demo_rng (aesGCMEncryptor EncrAES_GCM_16 16) demo_keys None []);
    try reflexivity; try (apply (bool_decide_unpack _); vm_compute; exact I).
  - split; [split; [by left|vm_compute; discriminate]|discriminate].
  - constructor; apply (bool_decide_unpack _); vm_compute; exact I.
  - repeat constructor; try reflexivity; apply (bool_decide_unpack _); vm_compute; exact I.
  - exists (replicate 8 7), 0, (drop 8 demo_body). split; [reflexivity|]. split; [apply (bool_decide_unpack _); vm_compute; exact I|].
    split; [lia|]. split; vm_compute; reflexivity.
Defined.

End Auth.
