(* ===== verification/IkeV2Eap.v ===== *)
(** * IkeV2Eap: the rounds of EAP inside IKE_AUTH ([internal/ike/ikev2_eap_auth.go])

    After [startEAPExchange] ([IkeV2Auth]) every IKE_AUTH request of the session comes
    here: the identity, the MS-CHAPv2 challenge and response, the acknowledgement, and the
    last request, which is authenticated with the key EAP derived.  The state of the
    MS-CHAPv2 exchange is shared by pointer with the session, so an assignment to it is an
    assignment to the session.  A nil slice is the empty one: the two that are compared
    with nil ([NTResponse], [EAPMSK]) are 24 and 64 bytes long once they are set.

    EAP-TLS: no code stores an [EAPTLSState] in a session, so [handleEAPTLS] always ends at
    its first guard. *)

From S2P Require Import Prelude Wire Net Rand EspCipher IkeHeader.
From S2P Require Import IkePayload IkeSA IkeV2 IkeMessage IkeTotal IkeProposal.
From S2P Require Import IkeCrypto IkeKeys IkeSession IkeSK IkeEap Exch IkeExchange IkeV2Init IkeV2Auth.

Module EapAuth.
Import Hdr Pl SA V2 Msg Nego Crypto Keys Sess SK Init Auth.

Definition swan_ng : bytes := bytes_of_string "swan-ng".

(** [sess.EAPIdentifier++] of a byte. *)
Definition next_identifier (s : IKEv2Session) : IKEv2Session := set_s2_EAPIdentifier s (u8 (s2_EAPIdentifier s + 1)).

Definition clear_pending (s : IKEv2Session) : IKEv2Session := save_pending None None None None s.

(** What the response proves is kept for the derivation of the key. *)
Definition with_response (state : MSCHAPv2State) (peerChallenge ntResponse : bytes) : MSCHAPv2State :=
  mkMSCHAP (ms_ServerChallenge state) (ms_ServerName state) peerChallenge ntResponse (ms_Username state) (ms_AuthResp state).
Definition with_AuthResp (state : MSCHAPv2State) (authResp : bytes) : MSCHAPv2State :=
  mkMSCHAP (ms_ServerChallenge state) (ms_ServerName state) (ms_PeerChallenge state) (ms_NTResponse state) (ms_Username state) authResp.

Section handlers.
Context {C : EspCipher.Cipher.Crypto} {D : Digests} {L : Eap.Legacy}.
Context (rg : nat -> nat -> nat -> range).

Definition sendEAPPayload (eapData : bytes) (msgID : Z) : exch st Message :=
  buildEncryptedResponse ExchangeIKEAuth msgID [PEAP (mkEAP eapData)].

Definition sendEAPFailure (msgID : Z) : exch st Message :=
  _ ← assign next_identifier;
  id ← on_session s2_EAPIdentifier;
  eapFail ← lift (Eap.BuildEAPFailure id);
  sendEAPPayload eapFail msgID.

(** The call of a function value that may be nil. *)
Definition credentials (h : IKEv2Handler) (username : bytes) : res (option bytes) :=
  f ← deref (getEAPCredentials h);
  Ok (f username).

Definition handleEAPIdentity (h : IKEv2Handler) (pkt : Eap.EAPPacket) (msgID : Z) : exch st Message :=
  identity ← lift (Eap.ParseEAPIdentityResponse pkt);
  found ← lift (credentials h identity);
  match found with
  | None => sendEAPFailure msgID
  | Some _ =>
    _ ← assign (fun s => set_s2_EAPMethod s Eap.EAPTypeMSCHAPv2);
    challenge ← drawn (fun r => Ok (Eap.GenerateMSCHAPv2Challenge r));
    _ ← assign (fun s => set_s2_EAPState s (Some (mkMSCHAP challenge swan_ng [] [] identity [])));
    _ ← assign next_identifier;
    mschapID ← on_session s2_EAPIdentifier;
    eapChallenge ← lift (Eap.BuildMSCHAPv2Challenge mschapID mschapID challenge swan_ng);
    sendEAPPayload eapChallenge msgID
  end.

Definition handleMSCHAPv2Response (h : IKEv2Handler) (state : MSCHAPv2State) (pkt : Eap.EAPPacket) (msgID : Z) : exch st Message :=
  found ← lift (credentials h (ms_Username state));
  match found with
  | None => sendEAPFailure msgID
  | Some password =>
    '(authResp, ok) ← lift (Eap.VerifyMSCHAPv2Response (Eap.eap_Data pkt) (ms_ServerChallenge state) (ms_Username state) password);
    if negb ok then
      _ ← assign next_identifier;
      id ← on_session s2_EAPIdentifier;
      eapFailMsg ← lift (Eap.BuildMSCHAPv2Failure id id (bytes_of_string "E=691 R=0 V=3"));
      sendEAPPayload eapFailMsg msgID
    else
      let state := with_AuthResp state authResp in
      _ ← assign (fun s => set_s2_EAPState s (Some state));
      _ ← (if 5 + 49 <=? len (Eap.eap_Data pkt) then
          responseValue ← lift (slice (Eap.eap_Data pkt) 5 (5 + 49));
          peerChallenge ← lift (slice responseValue 0 16);
          _ ← assign (fun s => set_s2_EAPState s (Some (with_response state (cloneBytes peerChallenge) (ms_NTResponse state))));
          ntResponse ← lift (slice responseValue 24 48);
          assign (fun s => set_s2_EAPState s (Some (with_response state (cloneBytes peerChallenge) (cloneBytes ntResponse))))
        else ret tt);
      _ ← assign next_identifier;
      id ← on_session s2_EAPIdentifier;
      eapSuccess ← lift (Eap.BuildMSCHAPv2Success id id authResp);
      sendEAPPayload eapSuccess msgID
  end.

Definition handleMSCHAPv2SuccessAck (h : IKEv2Handler) (state : MSCHAPv2State) (msgID : Z) : exch st Message :=
  found ← lift (credentials h (ms_Username state));
  match found with
  | None => sendEAPFailure msgID
  | Some password =>
    _ ← (if bool_decide (ms_NTResponse state <> []) then
        msk ← lift (Eap.GetMSCHAPv2MSK password (ms_NTResponse state));
        assign (fun s => set_s2_EAPMSK s msk)
      else ret tt);
    _ ← assign next_identifier;
    _ ← assign (fun s => set_s2_State s StateV2EAPDone);
    id ← on_session s2_EAPIdentifier;
    eapSuccess ← lift (Eap.BuildEAPSuccess id);
    sendEAPPayload eapSuccess msgID
  end.

Definition handleEAPMSCHAPv2 (h : IKEv2Handler) (pkt : Eap.EAPPacket) (msgID : Z) : exch st Message :=
  mschapState ← on_session s2_EAPState;
  match mschapState with
  | None => fail "IKE_AUTH EAP: MSCHAPv2 state not initialized"
  | Some state =>
    if len (Eap.eap_Data pkt) <? 1 then sendEAPFailure msgID
    else
      opcode ← lift (idx (Eap.eap_Data pkt) 0);
      if opcode =? Eap.MSCHAPv2OpResponse then handleMSCHAPv2Response h state pkt msgID
      else if opcode =? Eap.MSCHAPv2OpSuccess then handleMSCHAPv2SuccessAck h state msgID
      else sendEAPFailure msgID
  end.

(** The state of EAP-TLS is never there. *)
Definition handleEAPTLS : exch st Message := fail "IKE_AUTH EAP-TLS: state not initialized".

Definition processEAPResponse (h : IKEv2Handler) (pkt : Eap.EAPPacket) (msgID : Z) : exch st Message :=
  if negb (Eap.eap_Code pkt =? Eap.EAPCodeResponse) then fail "IKE_AUTH EAP: expected Response"
  else if Eap.eap_Type pkt =? Eap.EAPTypeIdentity then handleEAPIdentity h pkt msgID
  else if Eap.eap_Type pkt =? Eap.EAPTypeMSCHAPv2 then handleEAPMSCHAPv2 h pkt msgID
  else if Eap.eap_Type pkt =? Eap.EAPTypeTLS then handleEAPTLS
  else sendEAPFailure msgID.

Definition handleFinalEAPAuth (h : IKEv2Handler) (innerChain : PayloadChain) (msgID : Z) (assignIP : AssignIP) (dnsServers : list bytes) :
    exch st Message :=
  match find_as as_AUTH innerChain with
  | None => fail "IKE_AUTH EAP final: missing AUTH payload"
  | Some authPayload =>
    _ ← assign (fun s => if bool_decide (s2_EAPMSK s <> []) then set_s2_PSK s (s2_EAPMSK s) else s);
    sess ← on_session (fun s => s);
    let idPayload := mkID true (s2_PeerIDType sess) (s2_PeerID sess) in
    match verifyAuth sess authPayload idPayload with
    | Panic => lift Panic
    | Err _ => buildAuthError NotifyAuthenticationFailed
    | Ok _ =>
      establish rg h msgID clear_pending (s2_pendingAuthSA sess) (s2_pendingAuthTSi sess) (s2_pendingAuthTSr sess) (s2_pendingAuthCP sess)
        assignIP dnsServers
    end
  end.

Definition HandleAuthEAP (h : IKEv2Handler) (msg : Message) (assignIP : AssignIP) (dnsServers : list bytes) : exch st Message :=
  innerChain ← open_request msg;
  let msgID := MessageID (msg_Header msg) in
  state ← on_session s2_State;
  if bool_decide (state = StateV2EAPDone) then handleFinalEAPAuth h innerChain msgID assignIP dnsServers
  else
    match find_as as_EAP innerChain with
    | None => fail "IKE_AUTH EAP: missing EAP payload"
    | Some eapPayload =>
      eapPkt ← lift (Eap.ParseEAPPacket (V2.eap_Data eapPayload));
      processEAPResponse h eapPkt msgID
    end.

End handlers.

Section theorems.
Context {C : EspCipher.Cipher.Crypto} {D : Digests} {L : Eap.Legacy}.
Context (rg : nat -> nat -> nat -> range).

Lemma wp_failure msgID (Q : st -> res Message -> Prop) s :
  (forall r' x, Q (next_identifier s.1, r') x) -> wp (sendEAPFailure msgID) Q s.
Proof.
  intros H. unfold sendEAPFailure, sendEAPPayload. do 2 wp_step. do 2 wp_step. do 2 wp_step. cbn [fst snd].
  destruct (Eap.BuildEAPFailure _); [by apply wp_response|apply H..].
Qed.

(** The key a session authenticates its last request with. *)
Definition final_key (s : IKEv2Session) : bytes := if bool_decide (s2_EAPMSK s <> []) then s2_EAPMSK s else s2_PSK s.

(** The request acknowledges the success of MS-CHAPv2. *)
Definition success_ack (pkt : Eap.EAPPacket) : Prop :=
  Eap.eap_Code pkt = Eap.EAPCodeResponse /\ Eap.eap_Type pkt = Eap.EAPTypeMSCHAPv2 /\ exists rest, Eap.eap_Data pkt = Eap.MSCHAPv2OpSuccess :: rest.

Inductive eap_outcome (h : IKEv2Handler) (opened : res PayloadChain) (s s' : IKEv2Session) : Prop :=
  | eap_stays : s2_State s' = s2_State s -> s2_EAPMSK s' = s2_EAPMSK s -> eap_outcome h opened s s'
  | eap_acknowledged chain e pkt state f password : s2_State s' = StateV2EAPDone ->
      opened = Ok chain -> find_as as_EAP chain = Some e -> Eap.ParseEAPPacket (V2.eap_Data e) = Ok pkt -> success_ack pkt ->
      s2_EAPState s = Some state -> getEAPCredentials h = Some f -> f (ms_Username state) = Some password ->
      (if bool_decide (ms_NTResponse state <> []) then Eap.GetMSCHAPv2MSK password (ms_NTResponse state) = Ok (s2_EAPMSK s')
       else s2_EAPMSK s' = s2_EAPMSK s) -> eap_outcome h opened s s'
  | eap_established chain auth c : s2_State s = StateV2EAPDone -> s2_State s' = StateV2Established ->
      opened = Ok chain -> find_as as_AUTH chain = Some auth ->
      psk_proof s (final_key s) auth (mkID true (s2_PeerIDType s) (s2_PeerID s)) \/ cert_method (auth_Method auth) ->
      s2_ChildSAs s' = s2_ChildSAs s ++ [c] -> s2_PeerID s' = s2_PeerID s -> eap_outcome h opened s s'.

(** Everything but the acknowledgement leaves the state and the key alone. *)
Definition keeps (s s' : IKEv2Session) : Prop := s2_State s' = s2_State s /\ s2_EAPMSK s' = s2_EAPMSK s.

Lemma failure_keeps msgID s : wp (sendEAPFailure msgID) (fun s' _ => keeps s.1 s'.1) s.
Proof. by apply wp_failure. Qed.

Lemma handleEAPIdentity_keeps h pkt msgID s : wp (handleEAPIdentity h pkt msgID) (fun s' _ => keeps s.1 s'.1) s.
Proof.
  unfold handleEAPIdentity. do 2 wp_step. destruct (Eap.ParseEAPIdentityResponse pkt) as [identity|?|]; [|done..].
  do 2 wp_step. destruct (credentials h identity) as [[pw|]|?|]; [|apply failure_keeps|done..].
  do 2 wp_step. wp_step. apply wp_drawn; [|done..]. intros c r _. do 6 wp_step. do 2 wp_step. cbn [fst snd].
  destruct (Eap.BuildMSCHAPv2Challenge _ _ _ _); [by apply wp_response|done..].
Qed.

Lemma handleMSCHAPv2Response_keeps h state pkt msgID s : wp (handleMSCHAPv2Response h state pkt msgID) (fun s' _ => keeps s.1 s'.1) s.
Proof.
  unfold handleMSCHAPv2Response. do 2 wp_step. destruct (credentials h _) as [[pw|]|?|]; [|apply failure_keeps|done..].
  do 2 wp_step. destruct (Eap.VerifyMSCHAPv2Response _ _ _ _) as [[authResp ok]|?|]; [|done..]. destruct ok; cbn [negb].
  - cbv zeta. do 2 wp_step. wp_step. set (state1 := with_AuthResp _ _). cbn [fst snd].
    eapply (wp_mono _ (fun s' _ => keeps s.1 s'.1)).
    + destruct (_ <=? _); [|done]. do 2 wp_step. destruct (slice _ _ _) as [v|?|]; [|done..].
      do 2 wp_step. destruct (slice _ _ _) as [pc|?|]; [|done..]. do 2 wp_step. cbn [fst snd].
      do 2 wp_step. destruct (slice _ _ _) as [nt|?|]; [|done..]. by wp_step.
    + intros s' [[]|?|] Hk; [|done..]. do 6 wp_step. cbn [fst snd].
      destruct (Eap.BuildMSCHAPv2Success _ _ _); [by apply wp_response|done..].
  - do 6 wp_step. cbn [fst snd]. destruct (Eap.BuildMSCHAPv2Failure _ _ _); [by apply wp_response|done..].
Qed.

(** The acknowledgement ends EAP; the key is that of the verified response, if there was one. *)
Lemma handleMSCHAPv2SuccessAck_spec h state msgID s :
  wp (handleMSCHAPv2SuccessAck h state msgID) (fun s' _ => keeps s.1 s'.1 \/
    exists f password, getEAPCredentials h = Some f /\ f (ms_Username state) = Some password /\ s2_State s'.1 = StateV2EAPDone /\
      if bool_decide (ms_NTResponse state <> []) then Eap.GetMSCHAPv2MSK password (ms_NTResponse state) = Ok (s2_EAPMSK s'.1)
      else s2_EAPMSK s'.1 = s2_EAPMSK s.1) s.
Proof.
  unfold handleMSCHAPv2SuccessAck, credentials. do 2 wp_step. destruct (getEAPCredentials h) as [f|] eqn:Ef; [|by left]. cbn [deref].
  rewrite bind_Ok. destruct (f (ms_Username state)) as [pw|] eqn:Ep; [|apply wp_failure; by left].
  wp_step. case_bool_decide as Hn.
  - do 2 wp_step. destruct (Eap.GetMSCHAPv2MSK pw _) as [msk|?|] eqn:Em; [|by left..]. wp_step. cbn [fst snd]. do 4 wp_step. do 4 wp_step. cbn [fst snd].
    destruct (Eap.BuildEAPSuccess _); [apply wp_response; intros ? ?|..]; right; exists f, pw; by split_and!.
  - wp_step. do 4 wp_step. do 4 wp_step. cbn [fst snd].
    destruct (Eap.BuildEAPSuccess _); [apply wp_response; intros ? ?|..]; right; exists f, pw; by split_and!.
Qed.

Lemma handleFinalEAPAuth_spec h chain msgID assignIP dns s :
  s2_State s.1 = StateV2EAPDone ->
  wp (handleFinalEAPAuth rg h chain msgID assignIP dns) (fun s' _ => eap_outcome h (Ok chain) s.1 s'.1) s.
Proof.
  intros Hst. unfold handleFinalEAPAuth. destruct (find_as as_AUTH chain) as [auth|] eqn:Ea; [|by constructor 1].
  do 2 wp_step. do 2 wp_step. cbn [fst snd]. set (s1 := if bool_decide _ then _ else _).
  assert (s2_State s1 = s2_State s.1 /\ s2_EAPMSK s1 = s2_EAPMSK s.1 /\ s2_ChildSAs s1 = s2_ChildSAs s.1 /\ s2_PeerID s1 = s2_PeerID s.1 /\
    s2_PeerIDType s1 = s2_PeerIDType s.1 /\ s2_PSK s1 = final_key s.1 /\ s2_PRF s1 = s2_PRF s.1 /\ s2_Keys s1 = s2_Keys s.1 /\
    s2_InitReqBytes s1 = s2_InitReqBytes s.1 /\ s2_NonceR s1 = s2_NonceR s.1) as (E1 & E2 & E3 & E4 & E5 & E6 & E7 & E8 & E9 & E10)
    by (unfold s1, final_key; by case_bool_decide). clearbody s1.
  destruct (verifyAuth s1 auth _) as [[]|e|] eqn:Ev; [|by apply wp_notify; constructor 1|by constructor 1].
  apply verifyAuth_Ok in Ev. unfold psk_proof in Ev. rewrite E4, E5, E6, E7, E8, E9, E10 in Ev.
  eapply wp_mono; [apply establish_spec|]. cbn [fst]. intros s' x Hx.
  destruct Hx as [Hx|(sa & sel & inSPI & c & _ & _ & _ & [[_ Hx]|[_ Hx]])]; rewrite Hx; [by constructor 1| |by constructor 1].
  apply (eap_established _ _ _ _ chain auth c); [done|done|done|done|exact Ev| |].
  - by rewrite <- E3.
  - by rewrite <- E4.
Qed.

(** After EAP has started, a request moves a session only along the edges of the exchange.
    EAP is over only when a success is acknowledged, with credentials for the user, and the
    key is then that of the verified response if there was one.  The session is established
    only after that, by a proof of the key EAP derived (or, again, a certificate method). *)
Theorem HandleAuthEAP_edges h msg assignIP dns s :
  eap_outcome h (open_request msg s).2 s.1 (HandleAuthEAP rg h msg assignIP dns s).1.1.
Proof.
  change (wp (HandleAuthEAP rg h msg assignIP dns) (fun s' _ => eap_outcome h (open_request msg s).2 s.1 s'.1) s).
  assert (forall o (s' : st) (x : res Message), keeps s.1 s'.1 -> eap_outcome h o s.1 s'.1) as Hkeep by (intros o s' x []; by constructor 1).
  unfold HandleAuthEAP. wp_step. apply wp_open_request. destruct (open_request msg s).2 as [chain|e|] eqn:Eo; [|by constructor 1..].
  cbv zeta. do 2 wp_step. cbn [fst]. case_bool_decide as Hst; [by apply handleFinalEAPAuth_spec|].
  destruct (find_as as_EAP chain) as [e|] eqn:Ee; [|by constructor 1]. do 2 wp_step.
  destruct (Eap.ParseEAPPacket (V2.eap_Data e)) as [pkt|?|] eqn:Ep; [|by constructor 1..].
  unfold processEAPResponse. destruct (Z.eqb_spec (Eap.eap_Code pkt) Eap.EAPCodeResponse) as [Hc|Hc]; cbn [negb]; [|by constructor 1].
  destruct (_ =? _); [eapply wp_mono; [apply handleEAPIdentity_keeps|apply Hkeep]|].
  destruct (Z.eqb_spec (Eap.eap_Type pkt) Eap.EAPTypeMSCHAPv2) as [Ht|Ht].
  2: { destruct (_ =? _); [by constructor 1|]. eapply wp_mono; [apply failure_keeps|apply Hkeep]. }
  unfold handleEAPMSCHAPv2. do 2 wp_step. cbn [fst]. destruct (s2_EAPState s.1) as [state|] eqn:Est; [|by constructor 1].
  destruct (_ <? _); [eapply wp_mono; [apply failure_keeps|apply Hkeep]|]. do 2 wp_step.
  destruct (idx (Eap.eap_Data pkt) 0) as [op|?|] eqn:Eop; [|by constructor 1..].
  destruct (_ =? _); [eapply wp_mono; [apply handleMSCHAPv2Response_keeps|apply Hkeep]|].
  destruct (Z.eqb_spec op Eap.MSCHAPv2OpSuccess) as [->|]; [|eapply wp_mono; [apply failure_keeps|apply Hkeep]].
  eapply wp_mono; [apply handleMSCHAPv2SuccessAck_spec|]. intros s' x [Hk|(f & pw & Hf & Hpw & Hd & Hm)]; [by apply (Hkeep _ _ x)|].
  apply (eap_acknowledged _ _ _ _ chain e pkt state f pw); try done. split; [done|]. split; [done|].
  destruct (Eap.eap_Data pkt) as [|b l]; [done|]. injection Eop as ->. by exists l.
Qed.

(** ** A login, and a login without a password *)

Lemma process_ack h f state s id rest msgID password :
  getEAPCredentials h = Some f -> s2_EAPState s.1 = Some state -> f (ms_Username state) = Some password ->
  processEAPResponse h (Eap.mkEAPPacket Eap.EAPCodeResponse id Eap.EAPTypeMSCHAPv2 (Eap.MSCHAPv2OpSuccess :: rest)) msgID s =
    handleMSCHAPv2SuccessAck h state msgID s.
Proof.
  intros Hf Hs Hp. unfold processEAPResponse. cbn [Eap.eap_Code Eap.eap_Type Eap.eap_Data].
  change (negb (Eap.EAPCodeResponse =? Eap.EAPCodeResponse)) with false. change (Eap.EAPTypeMSCHAPv2 =? Eap.EAPTypeIdentity) with false.
  change (Eap.EAPTypeMSCHAPv2 =? Eap.EAPTypeMSCHAPv2) with true. cbv iota. unfold handleEAPMSCHAPv2.
  erewrite exch_bind_Ok; [|reflexivity]. rewrite Hs. cbn [Eap.eap_Data]. pose proof (len_nonneg rest).
  rewrite (proj2 (Z.ltb_ge _ 1)) by (rewrite len_cons; lia). by erewrite exch_bind_Ok; [|reflexivity].
Qed.

(** The acknowledgement is not tied to a verified response.  Right after the challenge a
    peer that knows a user name, but no password, acknowledges a success it was never sent:
    EAP is over, and no key was derived.  The last request is then checked against the empty
    shared key, so the proof anybody can compute is accepted and the session goes on to be
    established. *)
Theorem eap_success_unverified h f state s id rest msgID password :
  getEAPCredentials h = Some f -> f (ms_Username state) = Some password ->
  s2_EAPState s.1 = Some state -> ms_NTResponse state = [] -> s2_EAPMSK s.1 = [] -> s2_PSK s.1 = [] ->
  let s1 := (processEAPResponse h (Eap.mkEAPPacket Eap.EAPCodeResponse id Eap.EAPTypeMSCHAPv2 (Eap.MSCHAPv2OpSuccess :: rest)) msgID s).1 in
  s2_State s1.1 = StateV2EAPDone /\
  forall chain auth msgID' assignIP dns, find_as as_AUTH chain = Some auth ->
    psk_proof s.1 [] auth (mkID true (s2_PeerIDType s.1) (s2_PeerID s.1)) ->
    handleFinalEAPAuth rg h chain msgID' assignIP dns s1 =
      establish rg h msgID' clear_pending (s2_pendingAuthSA s.1) (s2_pendingAuthTSi s.1) (s2_pendingAuthTSr s.1) (s2_pendingAuthCP s.1)
        assignIP dns s1.
Proof.
  intros Hf Hp Hs Hnt Hmsk Hpsk s1. unfold s1. clear s1. rewrite (process_ack h f state s id rest msgID password Hf Hs Hp).
  assert (exists r, (handleMSCHAPv2SuccessAck h state msgID s).1 = (set_s2_State (next_identifier s.1) StateV2EAPDone, r)) as [r ->].
  { change (wp (handleMSCHAPv2SuccessAck h state msgID) (fun s' _ => exists r, s' = (set_s2_State (next_identifier s.1) StateV2EAPDone, r)) s).
    unfold handleMSCHAPv2SuccessAck, credentials. do 2 wp_step. rewrite Hf. cbn [deref]. rewrite bind_Ok, Hp, Hnt.
    rewrite bool_decide_eq_false_2 by (intros H; by apply H). do 2 wp_step. do 6 wp_step. cbn [fst snd].
    destruct (Eap.BuildEAPSuccess _); [apply wp_response|..]; by eexists. }
  split; [done|]. cbn [fst]. intros chain auth msgID' assignIP dns Ha Hpr. unfold handleFinalEAPAuth. rewrite Ha.
  erewrite exch_bind_Ok; [|reflexivity]. cbn [fst snd]. set (s1 := set_s2_State _ _).
  change (s2_EAPMSK s1) with (s2_EAPMSK s.1). rewrite Hmsk, bool_decide_eq_false_2 by (intros H; by apply H).
  erewrite exch_bind_Ok; [|reflexivity]. cbn [fst snd]. rewrite (proj2 (verifyAuth_Ok s1 auth _)); [done|]. left.
  change (s2_PSK s1) with (s2_PSK s.1). rewrite Hpsk. exact Hpr.
Qed.

End theorems.

Section login.
Context {C : EspCipher.Cipher.Crypto} {D : Digests} {DL : DigestLaws D} {L : Eap.Legacy} {LL : Eap.LegacyLaws L}.
Context (rg : nat -> nat -> nat -> range).

(** The request opens to a payload of EAP with these bytes. *)
Definition carries (msg : Message) (s : st) (data : bytes) : Prop :=
  exists chain e, (open_request msg s).2 = Ok chain /\ find_as as_EAP chain = Some e /\ V2.eap_Data e = data.

(** The answer to the request is these bytes of EAP, sealed with the keys of the session. *)
Definition answered_with (h : IKEv2Handler) (msg : Message) (s : st) (data : bytes) : Prop :=
  forall assignIP dns, exists s', HandleAuthEAP rg h msg assignIP dns s = sendEAPPayload data (MessageID (msg_Header msg)) s' /\
    s2_Keys s'.1 = s2_Keys s.1 /\ s2_Encryptor s'.1 = s2_Encryptor s.1 /\ s2_Integrity s'.1 = s2_Integrity s.1 /\ SPIPair2 s'.1 = SPIPair2 s.1.

Lemma HandleAuthEAP_carried h msg assignIP dns s p :
  s2_State s.1 <> StateV2EAPDone -> Eap.eap_ok p -> carries msg s (Eap.eap_bytes p) ->
  HandleAuthEAP rg h msg assignIP dns s = processEAPResponse h p (MessageID (msg_Header msg)) s.
Proof.
  intros Hst Hp (chain & e & Ho & He & Hd). unfold HandleAuthEAP.
  assert (open_request msg s = (s, Ok chain)) as E by (rewrite (surjective_pairing (open_request msg s)), open_request_state; by f_equal).
  erewrite exch_bind_Ok; [|exact E]. cbv zeta. erewrite exch_bind_Ok; [|reflexivity]. cbn [fst].
  rewrite bool_decide_eq_false_2, He, Hd by done. destruct (Eap.eap_roundtrip p [] Hp) as (b & Hb & Hparse).
  rewrite Eap.EAPPacket_Marshal_bytes in Hb by apply Hp. injection Hb as <-. rewrite app_nil_r in Hparse. rewrite Hparse.
  by erewrite exch_bind_Ok; [|reflexivity].
Qed.

(** The first request: the user is known, and is asked to answer a challenge just drawn. *)
Definition challenge_packet (i : Z) (challenge : bytes) : bytes :=
  Eap.eap_bytes (Eap.mkEAPPacket Eap.EAPCodeRequest i Eap.EAPTypeMSCHAPv2 (Eap.mschap_bytes Eap.MSCHAPv2OpChallenge i ([16] ++ challenge ++ bytes_of_string "swan-ng"))).

Definition asked (s : IKEv2Session) (challenge username : bytes) : IKEv2Session :=
  next_identifier (set_s2_EAPState (set_s2_EAPMethod s Eap.EAPTypeMSCHAPv2) (Some (mkMSCHAP challenge (bytes_of_string "swan-ng") [] [] username []))).

Lemma process_identity h f s id username password msgID :
  getEAPCredentials h = Some f -> f username = Some password ->
  processEAPResponse h (Eap.mkEAPPacket Eap.EAPCodeResponse id Eap.EAPTypeIdentity username) msgID s =
    sendEAPPayload (challenge_packet (u8 (s2_EAPIdentifier s.1 + 1)) (rand_Read s.2 16).1) msgID
      (asked s.1 (rand_Read s.2 16).1 username, (rand_Read s.2 16).2).
Proof.
  intros Hf Hp. unfold processEAPResponse. cbn [Eap.eap_Code Eap.eap_Type Eap.eap_Data].
  change (negb (Eap.EAPCodeResponse =? Eap.EAPCodeResponse)) with false. change (Eap.EAPTypeIdentity =? Eap.EAPTypeIdentity) with true. cbv iota.
  unfold handleEAPIdentity, credentials. erewrite exch_bind_Ok; [|reflexivity]. cbn [Eap.eap_Data]. rewrite Hf. cbn [deref]. rewrite bind_Ok, Hp.
  do 6 (erewrite exch_bind_Ok; [|reflexivity]; cbv beta iota). cbn [fst snd].
  rewrite Eap.BuildMSCHAPv2Challenge_bytes by (reflexivity || by (unfold len; rewrite length_resize)). by erewrite exch_bind_Ok; [|reflexivity].
Qed.

Definition success_packet (i : Z) (authResp : bytes) : bytes :=
  Eap.eap_bytes (Eap.mkEAPPacket Eap.EAPCodeRequest i Eap.EAPTypeMSCHAPv2 (Eap.mschap_bytes Eap.MSCHAPv2OpSuccess i authResp)).

(** The second request: a response with any value field of 49 bytes and any name behind it. *)
Lemma process_verified h f state s id d msgID username password challenge :
  getEAPCredentials h = Some f -> f username = Some password -> s2_EAPState s.1 = Some state ->
  ms_Username state = username -> ms_ServerChallenge state = challenge -> Eap.genuine d challenge username password ->
  let state' := with_response (with_AuthResp state (Eap.authenticator password (Eap.nt_field d) (Eap.peer_challenge d) challenge username))
    (Eap.peer_challenge d) (Eap.nt_field d) in
  let j := u8 (s2_EAPIdentifier s.1 + 1) in
  processEAPResponse h (Eap.mkEAPPacket Eap.EAPCodeResponse id Eap.EAPTypeMSCHAPv2 d) msgID s =
    sendEAPPayload (success_packet j (ms_AuthResp state')) msgID (next_identifier (set_s2_EAPState s.1 (Some state')), s.2).
Proof.
  intros Hf Hp Hs <- <- Hg. cbv zeta. set (x := Eap.authenticator _ _ _ _ _).
  destruct (Hg) as (Hl & Hop & _). unfold processEAPResponse. cbn [Eap.eap_Code Eap.eap_Type Eap.eap_Data].
  change (negb (Eap.EAPCodeResponse =? Eap.EAPCodeResponse)) with false. change (Eap.EAPTypeMSCHAPv2 =? Eap.EAPTypeIdentity) with false.
  change (Eap.EAPTypeMSCHAPv2 =? Eap.EAPTypeMSCHAPv2) with true. cbv iota. unfold handleEAPMSCHAPv2. erewrite exch_bind_Ok; [|reflexivity]. rewrite Hs.
  cbn [Eap.eap_Data]. rewrite (proj2 (Z.ltb_ge _ 1)) by lia. rewrite Hop. erewrite exch_bind_Ok; [|reflexivity].
  change (Eap.MSCHAPv2OpResponse =? Eap.MSCHAPv2OpResponse) with true. cbv iota.
  unfold handleMSCHAPv2Response, credentials. rewrite Hf. cbn [deref]. rewrite bind_Ok, Hp. erewrite exch_bind_Ok; [|reflexivity]. cbn [Eap.eap_Data].
  rewrite (proj1 (Eap.VerifyMSCHAPv2Response_correct _ _ _ _) Hg). fold x. erewrite exch_bind_Ok; [|reflexivity]. cbn [negb]. cbv zeta.
  erewrite exch_bind_Ok; [|reflexivity]. rewrite (proj2 (Z.leb_le _ _)) by lia. change (5 + 49) with 54.
  erewrite exch_bind_Ok; cycle 1.
  { rewrite slice_ok by lia. erewrite exch_bind_Ok; [|reflexivity]. cbv beta. rewrite !slice_ok by (rewrite ?len_sub; lia).
    do 3 (erewrite exch_bind_Ok; [|reflexivity]; cbv beta). rewrite !Eap.value_sub by lia. reflexivity. }
  do 2 (erewrite exch_bind_Ok; [|reflexivity]). cbn [fst snd]. unfold Eap.BuildMSCHAPv2Success.
  rewrite Eap.build_message_bytes by (unfold x; rewrite Eap.len_authenticator; lia). by erewrite exch_bind_Ok; [|reflexivity].
Qed.

(** A response that does not prove the password: the failure is sent, and only the identifier moves. *)
Definition failure_packet (i : Z) : bytes :=
  Eap.eap_bytes (Eap.mkEAPPacket Eap.EAPCodeRequest i Eap.EAPTypeMSCHAPv2 (Eap.mschap_bytes Eap.MSCHAPv2OpFailure i (bytes_of_string "E=691 R=0 V=3"))).

Lemma process_refused h f state s id d msgID password :
  getEAPCredentials h = Some f -> f (ms_Username state) = Some password -> s2_EAPState s.1 = Some state ->
  ~ Eap.genuine (Eap.MSCHAPv2OpResponse :: d) (ms_ServerChallenge state) (ms_Username state) password ->
  processEAPResponse h (Eap.mkEAPPacket Eap.EAPCodeResponse id Eap.EAPTypeMSCHAPv2 (Eap.MSCHAPv2OpResponse :: d)) msgID s =
    sendEAPPayload (failure_packet (u8 (s2_EAPIdentifier s.1 + 1))) msgID (next_identifier s.1, s.2).
Proof.
  intros Hf Hp Hs Hg. unfold processEAPResponse. cbn [Eap.eap_Code Eap.eap_Type Eap.eap_Data].
  change (negb (Eap.EAPCodeResponse =? Eap.EAPCodeResponse)) with false. change (Eap.EAPTypeMSCHAPv2 =? Eap.EAPTypeIdentity) with false.
  change (Eap.EAPTypeMSCHAPv2 =? Eap.EAPTypeMSCHAPv2) with true. cbv iota. unfold handleEAPMSCHAPv2. erewrite exch_bind_Ok; [|reflexivity]. rewrite Hs.
  cbn [Eap.eap_Data]. pose proof (len_nonneg d). rewrite (proj2 (Z.ltb_ge _ 1)) by (rewrite len_cons; lia). erewrite exch_bind_Ok; [|reflexivity].
  change (Eap.MSCHAPv2OpResponse =? Eap.MSCHAPv2OpResponse) with true. cbv iota.
  unfold handleMSCHAPv2Response, credentials. rewrite Hf. cbn [deref]. rewrite bind_Ok, Hp. erewrite exch_bind_Ok; [|reflexivity]. cbn [Eap.eap_Data].
  rewrite (proj2 (Eap.VerifyMSCHAPv2Response_correct _ _ _ _) Hg). do 3 (erewrite exch_bind_Ok; [|reflexivity]; cbn [negb]). cbn [fst snd].
  unfold Eap.BuildMSCHAPv2Failure. rewrite Eap.build_message_bytes by reflexivity. by erewrite exch_bind_Ok; [|reflexivity].
Qed.

(** The third request: the success is acknowledged, and the key is there. *)
Lemma process_acknowledged h f state s id rest msgID password :
  getEAPCredentials h = Some f -> f (ms_Username state) = Some password -> s2_EAPState s.1 = Some state -> ms_NTResponse state <> [] ->
  processEAPResponse h (Eap.mkEAPPacket Eap.EAPCodeResponse id Eap.EAPTypeMSCHAPv2 (Eap.MSCHAPv2OpSuccess :: rest)) msgID s =
    sendEAPPayload [Eap.EAPCodeSuccess; u8 (s2_EAPIdentifier s.1 + 1); 0; 4] msgID
      (set_s2_State (next_identifier (set_s2_EAPMSK s.1 (Eap.mschap_msk password (ms_NTResponse state)))) StateV2EAPDone, s.2).
Proof.
  intros Hf Hp Hs Hn. rewrite (process_ack h f state s id rest msgID password Hf Hs Hp). unfold handleMSCHAPv2SuccessAck, credentials.
  rewrite Hf. cbn [deref]. rewrite bind_Ok, Hp. erewrite exch_bind_Ok; [|reflexivity]. rewrite bool_decide_eq_true_2, Eap.GetMSCHAPv2MSK_key by done.
  erewrite exch_bind_Ok; [|erewrite exch_bind_Ok; [|reflexivity]; reflexivity]. do 3 (erewrite exch_bind_Ok; [|reflexivity]). cbn [fst snd].
  by erewrite exch_bind_Ok; [|reflexivity].
Qed.

(** The last request: the AUTH of the key EAP left goes on to the child SA. *)
Lemma final_accepted h msg chain auth assignIP dns s :
  s2_State s.1 = StateV2EAPDone -> s2_EAPMSK s.1 <> [] -> (open_request msg s).2 = Ok chain -> find_as as_AUTH chain = Some auth ->
  psk_proof s.1 (s2_EAPMSK s.1) auth (mkID true (s2_PeerIDType s.1) (s2_PeerID s.1)) ->
  HandleAuthEAP rg h msg assignIP dns s =
    establish rg h (MessageID (msg_Header msg)) clear_pending (s2_pendingAuthSA s.1) (s2_pendingAuthTSi s.1) (s2_pendingAuthTSr s.1)
      (s2_pendingAuthCP s.1) assignIP dns (set_s2_PSK s.1 (s2_EAPMSK s.1), s.2).
Proof.
  intros Hst Hk Ho Ha Hpr. unfold HandleAuthEAP.
  assert (open_request msg s = (s, Ok chain)) as E by (rewrite (surjective_pairing (open_request msg s)), open_request_state; by f_equal).
  erewrite exch_bind_Ok; [|exact E]. cbv zeta. erewrite exch_bind_Ok; [|reflexivity]. cbn [fst]. rewrite bool_decide_eq_true_2 by done.
  unfold handleFinalEAPAuth. rewrite Ha. erewrite exch_bind_Ok; [|reflexivity]. cbn [fst snd]. rewrite bool_decide_eq_true_2 by done.
  erewrite exch_bind_Ok; [|reflexivity]. cbn [fst snd]. rewrite (proj2 (verifyAuth_Ok _ auth _)); [done|]. left. exact Hpr.
Qed.

(** ** The peer *)

Definition response_packet (id typ : Z) (data : bytes) : bytes := Eap.eap_bytes (Eap.mkEAPPacket Eap.EAPCodeResponse id typ data).

(** What a peer that knows the password answers to a challenge: the identifier it was asked
    with, its own challenge, eight zeros, the response of RFC 2759, no flags and its name. *)
Definition peer_answer (i : Z) (challenge peerChallenge username password : bytes) : bytes :=
  Eap.mschap_bytes Eap.MSCHAPv2OpResponse i
    ([49] ++ peerChallenge ++ replicate 8 0 ++ Eap.nt_response challenge peerChallenge username password ++ [0] ++ username).

Lemma len_nt_response challenge peerChallenge username password : len (Eap.nt_response challenge peerChallenge username password) = 24.
Proof. unfold Eap.nt_response. cbv zeta. by rewrite !len_app, !Eap.len_des by apply Eap.ChallengeHash_ok. Qed.

Lemma peer_answer_genuine i challenge peerChallenge username password : len peerChallenge = 16 ->
  let a := peer_answer i challenge peerChallenge username password in
  len a = 54 + len username /\ Eap.peer_challenge a = peerChallenge /\
  Eap.nt_field a = Eap.nt_response challenge peerChallenge username password /\ Eap.genuine a challenge username password.
Proof.
  intros Hp a. pose proof (len_nt_response challenge peerChallenge username password) as Hn. pose proof (len_nonneg username).
  unfold a, peer_answer, Eap.genuine in *. clear a. set (nt := Eap.nt_response challenge peerChallenge username password) in *.
  unfold Eap.mschap_bytes. set (n := 4 + _). unfold put16. cbn [app]. set (a := _ :: _).
  assert (len a = 54 + len username) as Hl by (unfold a; len_norm; lia).
  assert (Eap.peer_challenge a = peerChallenge) as Epc.
  { unfold Eap.peer_challenge, sub, a. change (Z.to_nat 5) with 5%nat. cbn [drop]. by rewrite drop_0, take_app_length' by (unfold len in Hp; lia). }
  assert (Eap.nt_field a = nt) as Ent.
  { unfold Eap.nt_field, sub, a. match goal with |- take _ (drop _ (_ :: _ :: _ :: _ :: _ :: ?l)) = _ =>
      change (take 24 (drop 24 l) = nt) end. rewrite app_assoc.
    rewrite drop_app_length' by (rewrite length_app; unfold len in Hp; cbn; lia). by rewrite take_app_length' by (unfold len in Hn; lia). }
  split_and!; [done..|lia|done|done|]. by rewrite Epc, Ent.
Qed.

(** What the handler of a packet sends is the answer to the request that carries it. *)
Lemma answers h msg s id typ data out s' :
  s2_State s.1 <> StateV2EAPDone -> is_u8 id -> is_u8 typ -> len data <= 60060 -> carries msg s (response_packet id typ data) ->
  (forall msgID, processEAPResponse h (Eap.mkEAPPacket Eap.EAPCodeResponse id typ data) msgID s = sendEAPPayload out msgID s') ->
  s2_Keys s'.1 = s2_Keys s.1 -> s2_Encryptor s'.1 = s2_Encryptor s.1 -> s2_Integrity s'.1 = s2_Integrity s.1 -> SPIPair2 s'.1 = SPIPair2 s.1 ->
  answered_with h msg s out /\ forall assignIP dns, (HandleAuthEAP rg h msg assignIP dns s).1.1 = s'.1.
Proof.
  intros Hst Hi Ht Hd Hc E K1 K2 K3 K4.
  assert (Eap.eap_ok (Eap.mkEAPPacket Eap.EAPCodeResponse id typ data)) as Hp by (constructor; cbn; [done|done|done|lia|done]). split; intros assignIP dns.
  - exists s'. by rewrite (HandleAuthEAP_carried h msg assignIP dns s _ Hst Hp Hc).
  - rewrite (HandleAuthEAP_carried h msg assignIP dns s _ Hst Hp Hc), E. apply response_session.
Qed.

(** The third request and the last one, of a session that holds a verified response. *)
Lemma login_acknowledged h f state s m3 id3 password assignIP dns :
  getEAPCredentials h = Some f -> f (ms_Username state) = Some password -> s2_State s.1 <> StateV2EAPDone -> s2_EAPState s.1 = Some state ->
  ms_NTResponse state <> [] -> is_u8 id3 -> carries m3 s (response_packet id3 Eap.EAPTypeMSCHAPv2 [Eap.MSCHAPv2OpSuccess]) ->
  let key := Eap.mschap_msk password (ms_NTResponse state) in
  let s3 := (HandleAuthEAP rg h m3 assignIP dns s).1 in
  answered_with h m3 s [Eap.EAPCodeSuccess; u8 (s2_EAPIdentifier s.1 + 1); 0; 4] /\ s2_State s3.1 = StateV2EAPDone /\ s2_EAPMSK s3.1 = key /\
  forall m4 chain auth, (open_request m4 s3).2 = Ok chain -> find_as as_AUTH chain = Some auth ->
    psk_proof s3.1 key auth (mkID true (s2_PeerIDType s.1) (s2_PeerID s.1)) ->
    HandleAuthEAP rg h m4 assignIP dns s3 =
      establish rg h (MessageID (msg_Header m4)) clear_pending (s2_pendingAuthSA s.1) (s2_pendingAuthTSi s.1) (s2_pendingAuthTSr s.1)
        (s2_pendingAuthCP s.1) assignIP dns (set_s2_PSK s3.1 key, s3.2).
Proof.
  intros Hf Hp Hst Hs Hn H3 C3 key s3.
  edestruct (fun b c => answers h m3 s id3 Eap.EAPTypeMSCHAPv2 [Eap.MSCHAPv2OpSuccess] [Eap.EAPCodeSuccess; u8 (s2_EAPIdentifier s.1 + 1); 0; 4]
    (set_s2_State (next_identifier (set_s2_EAPMSK s.1 key)) StateV2EAPDone, s.2) Hst H3 b c C3)
    as [A3 E3]; [done|done|intros; by apply (process_acknowledged h f state)|done..|].
  split; [exact A3|]. specialize (E3 assignIP dns). fold s3 in E3. cbn [fst] in E3.
  assert (s2_State s3.1 = StateV2EAPDone /\ s2_EAPMSK s3.1 = key) as [Hst3 Hk] by by rewrite E3. split_and!; [done..|].
  assert (s2_EAPMSK s3.1 <> []) as Hne by (intros En; pose proof (Eap.len_mschap_msk password (ms_NTResponse state)) as Ln; fold key in Ln; by rewrite <- Hk, En in Ln).
  assert (s2_PeerIDType s3.1 = s2_PeerIDType s.1 /\ s2_PeerID s3.1 = s2_PeerID s.1 /\ s2_pendingAuthSA s3.1 = s2_pendingAuthSA s.1 /\
    s2_pendingAuthTSi s3.1 = s2_pendingAuthTSi s.1 /\ s2_pendingAuthTSr s3.1 = s2_pendingAuthTSr s.1 /\ s2_pendingAuthCP s3.1 = s2_pendingAuthCP s.1)
    as (P1 & P2 & P3 & P4 & P5 & P6) by by rewrite E3.
  intros m4 chain auth Ho Ha Hpr. rewrite <- P1, <- P2, <- Hk in Hpr.
  by rewrite (final_accepted h m4 chain auth assignIP dns s3 Hst3 Hne Ho Ha Hpr), Hk, P3, P4, P5, P6.
Qed.

(** C19: A login of a user and a peer that knows the password, by the bytes they send each other.
    The identity is answered with a challenge just drawn.  The response of RFC 2759 of the
    peer is answered with the proof of RFC 2759 of the server; any other response with the
    failure 691, and nothing of it is kept.  The acknowledgement is answered with the success
    of EAP and leaves the session with EAP over and the key of [mschap_msk], which is not the
    one the comment of the code describes (each half is one digest of twenty bytes and twelve
    zeros); and the last request is then accepted if its AUTH is that of this key. *)
Theorem eap_login h f username password peerChallenge s m1 m2 m3 id1 id2 id3 assignIP dns :
  getEAPCredentials h = Some f -> f username = Some password -> s2_State s.1 = StateV2EAPInProgress ->
  len peerChallenge = 16 -> len username < 60000 -> is_u8 id1 -> is_u8 id2 -> is_u8 id3 ->
  let challenge := (rand_Read s.2 16).1 in
  let nt := Eap.nt_response challenge peerChallenge username password in
  let i := u8 (s2_EAPIdentifier s.1 + 1) in
  let s1 := (HandleAuthEAP rg h m1 assignIP dns s).1 in
  let s2 := (HandleAuthEAP rg h m2 assignIP dns s1).1 in
  let s3 := (HandleAuthEAP rg h m3 assignIP dns s2).1 in
  carries m1 s (response_packet id1 Eap.EAPTypeIdentity username) ->
  answered_with h m1 s (challenge_packet i challenge) /\
  (forall d, len d < 60000 -> ~ Eap.genuine (Eap.MSCHAPv2OpResponse :: d) challenge username password ->
    carries m2 s1 (response_packet id2 Eap.EAPTypeMSCHAPv2 (Eap.MSCHAPv2OpResponse :: d)) ->
    answered_with h m2 s1 (failure_packet (u8 (i + 1))) /\ s2.1 = next_identifier s1.1) /\
  (carries m2 s1 (response_packet id2 Eap.EAPTypeMSCHAPv2 (peer_answer i challenge peerChallenge username password)) ->
    answered_with h m2 s1 (success_packet (u8 (i + 1)) (Eap.authenticator password nt peerChallenge challenge username)) /\
    (carries m3 s2 (response_packet id3 Eap.EAPTypeMSCHAPv2 [Eap.MSCHAPv2OpSuccess]) ->
      answered_with h m3 s2 [Eap.EAPCodeSuccess; u8 (u8 (i + 1) + 1); 0; 4] /\
      s2_State s3.1 = StateV2EAPDone /\ s2_EAPMSK s3.1 = Eap.mschap_msk password nt /\
      forall m4 chain auth, (open_request m4 s3).2 = Ok chain -> find_as as_AUTH chain = Some auth ->
        psk_proof s3.1 (Eap.mschap_msk password nt) auth (mkID true (s2_PeerIDType s.1) (s2_PeerID s.1)) ->
        HandleAuthEAP rg h m4 assignIP dns s3 =
          establish rg h (MessageID (msg_Header m4)) clear_pending (s2_pendingAuthSA s.1) (s2_pendingAuthTSi s.1) (s2_pendingAuthTSr s.1)
            (s2_pendingAuthCP s.1) assignIP dns (set_s2_PSK s3.1 (Eap.mschap_msk password nt), s3.2))).
Proof.
  intros Hf Hp Hst Hpc Hu H1 H2 H3 challenge nt i s1 s2 s3 C1. pose proof (len_nonneg username) as Hu0.
  edestruct (fun a b c => answers h m1 s id1 Eap.EAPTypeIdentity username (challenge_packet i challenge) (asked s.1 challenge username, (rand_Read s.2 16).2) a H1 b c C1)
    as [A1 E1]; [by rewrite Hst|done|lia|by intros; apply (process_identity h f _ _ _ password)|done..|].
  specialize (E1 assignIP dns). fold s1 in E1. cbn [fst] in E1.
  split; [exact A1|]. assert (s2_State s1.1 <> StateV2EAPDone) as Hst1 by (rewrite E1; cbn; by rewrite Hst).
  set (state := mkMSCHAP challenge (bytes_of_string "swan-ng") [] [] username []) in *.
  assert (s2_EAPState s1.1 = Some state) as Hs1 by by rewrite E1. assert (s2_EAPIdentifier s1.1 = i) as Hi1 by by rewrite E1.
  split; [|intros C2].
  - intros d Hd Hg C2.
    edestruct (fun b c => answers h m2 s1 id2 Eap.EAPTypeMSCHAPv2 (Eap.MSCHAPv2OpResponse :: d) (failure_packet (u8 (i + 1))) (next_identifier s1.1, s1.2) Hst1 H2 b c C2)
      as [A2 E2]; [done|rewrite len_cons; lia|intros; rewrite <- Hi1; by apply (process_refused h f state _ _ _ _ password)|done..|].
    split; [exact A2|apply E2].
  - destruct (peer_answer_genuine i challenge peerChallenge username password Hpc) as (Hl & Epc & Ent & Hg).
    set (answer := peer_answer i challenge peerChallenge username password) in *. fold nt in Ent.
    set (state' := with_response (with_AuthResp state (Eap.authenticator password nt peerChallenge challenge username)) peerChallenge nt).
    edestruct (fun b c => answers h m2 s1 id2 Eap.EAPTypeMSCHAPv2 answer
      (success_packet (u8 (i + 1)) (Eap.authenticator password nt peerChallenge challenge username))
      (next_identifier (set_s2_EAPState s1.1 (Some state')), s1.2) Hst1 H2 b c C2)
      as [A2 E2]; [done|lia| |done..|].
    { intros. unfold state'. rewrite <- Hi1, <- Epc, <- Ent. by apply (process_verified h f state). }
    split; [exact A2|]. specialize (E2 assignIP dns). fold s2 in E2. cbn [fst] in E2. intros C3.
    assert (s2_State s2.1 <> StateV2EAPDone) as Hst2 by by rewrite E2. assert (s2_EAPState s2.1 = Some state') as Hs2 by by rewrite E2.
    assert (s2_EAPIdentifier s2.1 = u8 (i + 1)) as Hi2 by (rewrite E2, <- Hi1; done).
    assert (nt <> []) as Hnt by (intros En; pose proof (len_nt_response challenge peerChallenge username password) as Ln; fold nt in Ln; by rewrite En in Ln).
    pose proof (login_acknowledged h f state' s2 m3 id3 password assignIP dns Hf Hp Hst2 Hs2 Hnt H3 C3) as (A3 & Hst3 & Hk & Hlast).
    rewrite Hi2 in A3. fold s3 in Hst3, Hk, Hlast. split_and!; [done..|]. change (ms_NTResponse state') with nt in Hlast.
    assert (s2_PeerIDType s2.1 = s2_PeerIDType s.1 /\ s2_PeerID s2.1 = s2_PeerID s.1 /\ s2_pendingAuthSA s2.1 = s2_pendingAuthSA s.1 /\
      s2_pendingAuthTSi s2.1 = s2_pendingAuthTSi s.1 /\ s2_pendingAuthTSr s2.1 = s2_pendingAuthTSr s.1 /\ s2_pendingAuthCP s2.1 = s2_pendingAuthCP s.1)
      as (P1 & P2 & P3 & P4 & P5 & P6) by by rewrite E2, E1.
    rewrite P1, P2, P3, P4, P5, P6 in Hlast. exact Hlast.
Qed.

End login.

(** ** What the key of a session vouches for *)

Section sound.
Context {C : EspCipher.Cipher.Crypto} {D : Digests} {DL : DigestLaws D} {L : Eap.Legacy} {LL : Eap.LegacyLaws L}.
Context (rg : nat -> nat -> nat -> range) (h : IKEv2Handler).

(** The response to the challenge that the password of the user gives. *)
Definition password_response (username challenge password nt : bytes) : Prop :=
  (exists f, getEAPCredentials h = Some f /\ f username = Some password) /\
  exists peerChallenge, nt = Eap.nt_response challenge peerChallenge username password.

(** A response is kept only if it is that of the password, and so is the one of the key. *)
Record eap_sound (s : IKEv2Session) : Prop := {
  es_response state : s2_EAPState s = Some state -> ms_NTResponse state = [] \/
    exists password, password_response (ms_Username state) (ms_ServerChallenge state) password (ms_NTResponse state);
  es_key : s2_EAPMSK s = [] \/ exists username challenge password nt,
    password_response username challenge password nt /\ s2_EAPMSK s = Eap.mschap_msk password nt
}.

Definition eap_fields (s : IKEv2Session) : option MSCHAPv2State * bytes := (s2_EAPState s, s2_EAPMSK s).

Lemma eap_sound_same s s' : eap_fields s = eap_fields s' -> eap_sound s -> eap_sound s'.
Proof. intros [= E1 E2] [H1 H2]. split; [rewrite <- E1; exact H1|by rewrite <- E2]. Qed.

Lemma eap_sound_state s state : eap_sound s ->
  (ms_NTResponse state = [] \/ exists password, password_response (ms_Username state) (ms_ServerChallenge state) password (ms_NTResponse state)) ->
  eap_sound (set_s2_EAPState s (Some state)).
Proof. intros [H1 H2] Hs. split; [|exact H2]. by intros state' [= <-]. Qed.

Definition preserves (s s' : st) : Prop := eap_sound s.1 -> eap_sound s'.1.
#[local] Instance preserves_preorder : PreOrder preserves.
Proof. split; [intros s Hs; exact Hs|]. intros s1 s2 s3 H12 H23 Hs. by apply H23, H12. Qed.

Lemma preserves_same {A} (m : exch st A) : within (same eap_fields) m -> within preserves m.
Proof. intros H s Hs. exact (eap_sound_same _ _ (H s) Hs). Qed.

Lemma response_fields et msgID l : within (same eap_fields) (buildEncryptedResponse et msgID l).
Proof. intros s. unfold same. by rewrite response_session. Qed.
Lemma open_request_fields msg : within (same eap_fields) (open_request msg).
Proof. intros s. unfold same. by rewrite open_request_state. Qed.

Lemma failure_fields msgID : within (same eap_fields) (sendEAPFailure msgID).
Proof. unfold sendEAPFailure, sendEAPPayload. keep; apply response_fields. Qed.
Lemma send_fields data msgID : within (same eap_fields) (sendEAPPayload data msgID).
Proof. apply response_fields. Qed.

Lemma establish_fields msgID finish sa tsI tsR cp a d :
  (forall s, eap_fields s = eap_fields (finish s)) -> within (same eap_fields) (establish rg h msgID finish sa tsI tsR cp a d).
Proof. intros H. unfold establish, buildAuthError, buildEncryptedNotify. keep; first [apply response_fields|apply H]. Qed.

Lemma HandleAuth_fields msg a d : within (same eap_fields) (HandleAuth rg h msg a d).
Proof.
  unfold HandleAuth, startEAPExchange, buildAuthError, buildEncryptedNotify.
  keep; first [apply response_fields|apply open_request_fields|by apply establish_fields].
Qed.

Lemma identity_preserves pkt msgID s : wp (handleEAPIdentity h pkt msgID) (fun s' _ => preserves s s') s.
Proof.
  unfold handleEAPIdentity. do 2 wp_step. destruct (Eap.ParseEAPIdentityResponse pkt) as [identity|?|]; [|done..].
  do 2 wp_step. destruct (credentials h identity) as [[pw|]|?|]; [|apply (preserves_same _ (failure_fields msgID))|done..].
  do 2 wp_step. wp_step. apply wp_drawn; [|done..]. intros c r _. do 2 wp_step. cbn [fst snd].
  assert (forall s', eap_fields s'.1 = (Some (mkMSCHAP c swan_ng [] [] identity []), s2_EAPMSK s.1) -> preserves s s') as Hd.
  { intros s' E Hs. apply (eap_sound_same (set_s2_EAPState s.1 (Some (mkMSCHAP c swan_ng [] [] identity []))) _ (eq_sym E)), eap_sound_state; [done|by left]. }
  do 4 wp_step. wp_step. wp_step. cbn [fst snd]. destruct (Eap.BuildMSCHAPv2Challenge _ _ _ _); [|by apply Hd..].
  apply wp_response. intros r' x. by apply Hd.
Qed.

Lemma response_preserves state pkt msgID s : s2_EAPState s.1 = Some state ->
  wp (handleMSCHAPv2Response h state pkt msgID) (fun s' _ => preserves s s') s.
Proof.
  intros Hst. unfold handleMSCHAPv2Response. do 2 wp_step. destruct (credentials h _) as [[pw|]|?|] eqn:Ec; [|apply (preserves_same _ (failure_fields msgID))|done..].
  do 2 wp_step. destruct (Eap.VerifyMSCHAPv2Response _ _ _ _) as [[authResp ok]|?|] eqn:Ev; [|done..]. destruct ok; cbn [negb]; cycle 1.
  { refine (preserves_same _ _ s). keep; apply send_fields. }
  apply Eap.VerifyMSCHAPv2Response_genuine in Ev as (Hl & _ & _ & Hnt). set (d := Eap.eap_Data pkt) in *. cbv zeta. do 2 wp_step. wp_step.
  set (state1 := with_AuthResp _ _). cbn [fst snd]. rewrite (proj2 (Z.leb_le _ _)) by lia. change (5 + 49) with 54.
  do 2 wp_step. rewrite slice_ok by lia. do 2 wp_step. rewrite slice_ok by (rewrite ?len_sub; lia). do 2 wp_step. do 2 wp_step.
  rewrite slice_ok by (rewrite ?len_sub; lia). wp_step. rewrite !Eap.value_sub by lia. cbn [fst snd].
  match goal with |- wp _ _ ?s1 => assert (preserves s s1) as Hd end.
  { intros Hs. apply (eap_sound_state s.1 (with_response state1 (sub d 5 21) (sub d 29 53))); [done|]. right. exists pw. split.
    - unfold credentials in Ec. destruct (getEAPCredentials h) as [f|]; [|done]. injection Ec as Ec. by exists f.
    - by exists (Eap.peer_challenge d). }
  match goal with |- wp ?m _ ?s1 => assert (within (same eap_fields) m) as Hk by (keep; apply send_fields); specialize (Hk s1); revert Hk Hd; generalize s1 end.
  intros s1 Hk Hd. unfold wp. intros Hs. eapply eap_sound_same; [exact Hk|]. by apply Hd.
Qed.

Lemma ack_preserves state msgID s : s2_EAPState s.1 = Some state -> wp (handleMSCHAPv2SuccessAck h state msgID) (fun s' _ => preserves s s') s.
Proof.
  intros Hst. unfold handleMSCHAPv2SuccessAck. do 2 wp_step. destruct (credentials h _) as [[pw|]|?|] eqn:Ec; [|apply (preserves_same _ (failure_fields msgID))|done..].
  wp_step. case_bool_decide as Hn; cycle 1. { wp_step. refine (preserves_same _ _ s). keep; apply send_fields. }
  do 2 wp_step. rewrite Eap.GetMSCHAPv2MSK_key. wp_step. cbn [fst snd].
  match goal with |- wp _ _ ?s1 => assert (preserves s s1) as Hd end.
  { intros [H1 H2]. split; [exact H1|]. right. destruct (H1 state Hst) as [|[pw' [[f [Hf Hp]] Hr]]]; [done|].
    assert (pw' = pw) as -> by (unfold credentials in Ec; rewrite Hf in Ec; injection Ec; congruence).
    exists (ms_Username state), (ms_ServerChallenge state), pw, (ms_NTResponse state). split; [|done]. split; [by exists f|done]. }
  match goal with |- wp ?m _ ?s1 => assert (within (same eap_fields) m) as Hk by (keep; apply send_fields); specialize (Hk s1); revert Hk Hd; generalize s1 end.
  intros s1 Hk Hd. unfold wp. intros Hs. eapply eap_sound_same; [exact Hk|]. by apply Hd.
Qed.

(** Whatever a request of IKE_AUTH is after EAP has started. *)
Lemma HandleAuthEAP_preserves msg a d : within preserves (HandleAuthEAP rg h msg a d).
Proof.
  unfold HandleAuthEAP. apply within_bind; [apply _|apply preserves_same, open_request_fields|]. intros chain. cbv zeta.
  apply within_bind; [apply _|apply preserves_same, same_on_session|]. intros state. case_bool_decide.
  { apply preserves_same. unfold handleFinalEAPAuth, buildAuthError, buildEncryptedNotify.
    keep; first [apply response_fields|by apply establish_fields|idtac]. intros x. by case_bool_decide. }
  destruct (find_as as_EAP chain) as [e|]; [|by intros s]. apply within_bind; [apply _|by intros s|]. intros pkt. unfold processEAPResponse.
  destruct (negb _); [by intros s|]. destruct (_ =? _); [intros s; apply identity_preserves|].
  destruct (_ =? _); [|destruct (_ =? _); [by intros s|apply preserves_same, failure_fields]].
  intros s. change (wp (handleEAPMSCHAPv2 h pkt (MessageID (msg_Header msg))) (fun s' _ => preserves s s') s). unfold handleEAPMSCHAPv2.
  do 2 wp_step. destruct (s2_EAPState s.1) as [st0|] eqn:Est; [|intros Hs; exact Hs]. destruct (_ <? _); [apply (preserves_same _ (failure_fields _))|].
  do 2 wp_step. destruct (idx _ 0); [|done..]. destruct (_ =? _); [by apply response_preserves|].
  destruct (_ =? _); [by apply ack_preserves|apply (preserves_same _ (failure_fields _))].
Qed.

End sound.

(** ** Examples *)

Import EspCipher.Cipher.Toy.

#[local] Existing Instances Eap.toy_legacy Eap.toy_legacy_laws.

Definition demo_eap_handler : IKEv2Handler :=
  mkHandler2 (Some DefaultIKEProposals) (Some DefaultESPProposals) (fun _ _ => None)
    (Some (fun u => if bool_decide (u = Eap.alice) then Some Eap.secret else None)) (bytes_of_string "gw") IDFQDN CookieModeAuto [].

(** A session that has sent the challenge 1 ... 16 to alice. *)
Definition demo_challenged : MSCHAPv2State := mkMSCHAP (Z.of_nat <$> seq 1 16) swan_ng [] [] Eap.alice [].
Definition demo_eap_sess : IKEv2Session :=
  set_s2_EAPState (set_s2_PeerIDType (set_s2_State demo_sess StateV2EAPInProgress) IDFQDN) (Some demo_challenged).

Lemma eap_success_unverified_witness :
  s2_State (processEAPResponse demo_eap_handler (Eap.mkEAPPacket Eap.EAPCodeResponse 2 Eap.EAPTypeMSCHAPv2 [Eap.MSCHAPv2OpSuccess]) 2
    (demo_eap_sess, demo_rng)).1.1 = StateV2EAPDone.
Proof.
  apply (eap_success_unverified (fun _ _ _ => map_range) demo_eap_handler
    (fun u => if bool_decide (u = Eap.alice) then Some Eap.secret else None) demo_challenged (demo_eap_sess, demo_rng) 2 [] 2 Eap.secret);
    reflexivity.
Defined.

(** A login of alice: the requests of the peer, sealed with the keys of the session.  The first
    payload of a request is lost to the server, so the EAP payload comes second. *)
Definition demo_eap_message (data : bytes) : Message :=
  let inner := [PNonce (mkNonce [0]); PEAP (mkEAP data)] in
  let n := 8 + len (chain_bytes inner) + 1 + 16 in
  let aad := header_bytes (sent_header demo_header [PSK (mkSK (make n))]) in
  let body := match EncryptSKPayload (Some (aesGCMEncryptor EncrAES_GCM_16 16)) None (SK_ei demo_keys) [] aad inner demo_rng with
    | Ok (_, body, _) => body | _ => [] end in
  mkMessage demo_header [mkParsed (mkGPH PayloadNone false 0) (PSK (mkSK body))] [].

Definition demo_eap_start : st := (set_s2_PeerIDType (set_s2_State demo_sess StateV2EAPInProgress) IDFQDN, demo_rng).
Definition demo_eap_step (m : Message) (s : st) : st := (HandleAuthEAP (fun _ _ _ => map_range) demo_eap_handler m None [] s).1.
Definition demo_peer_challenge : bytes := Z.of_nat <$> seq 101 16.

Definition demo_m1 : Message := demo_eap_message (response_packet 1 Eap.EAPTypeIdentity Eap.alice).
Definition demo_m2 : Message := demo_eap_message (response_packet 2 Eap.EAPTypeMSCHAPv2
  (peer_answer 1 (rand_Read demo_rng 16).1 demo_peer_challenge Eap.alice Eap.secret)).
Definition demo_m3 : Message := demo_eap_message (response_packet 3 Eap.EAPTypeMSCHAPv2 [Eap.MSCHAPv2OpSuccess]).

Lemma demo_carried (s : st) data chain : (open_request (demo_eap_message data) s).2 = Ok chain ->
  V2.eap_Data <$> find_as as_EAP chain = Some data -> carries (demo_eap_message data) s data.
Proof. intros Ho He. destruct (find_as as_EAP chain) as [e|] eqn:Ef; [|done]. injection He as He. by exists chain, e. Qed.

Lemma eap_login_witness :
  s2_EAPMSK (demo_eap_step demo_m3 (demo_eap_step demo_m2 (demo_eap_step demo_m1 demo_eap_start))).1 =
    Eap.mschap_msk Eap.secret (Eap.nt_response (rand_Read demo_rng 16).1 demo_peer_challenge Eap.alice Eap.secret).
Proof.
  edestruct (eap_login (fun _ _ _ => map_range) demo_eap_handler (fun u => if bool_decide (u = Eap.alice) then Some Eap.secret else None)
    Eap.alice Eap.secret demo_peer_challenge demo_eap_start demo_m1 demo_m2 demo_m3 1 2 3 None []) as (_ & _ & H);
    [reflexivity|reflexivity|reflexivity|reflexivity|reflexivity|by vm_compute..| |].
  - eapply demo_carried; vm_compute; reflexivity.
  - edestruct H as [_ H']; [eapply demo_carried; vm_compute; reflexivity|].
    edestruct H' as (_ & _ & Hk & _); [eapply demo_carried; vm_compute; reflexivity|]. exact Hk.
Defined.

End EapAuth.
