(* ===== verification/IkeEapTls.v ===== *)
(** * IkeEapTls: EAP-TLS ([internal/ike/eap_tls.go])

    The connection of [crypto/tls] is an interface here ([TLS]): a handshake reads from the
    transport, writes to it and ends, wants more data or fails.  The handler runs on the
    EAP-TLS state together with the session and the random source.  No code stores such a
    state in a session ([IkeV2Eap]), so this is what the code would do if [initEAPTLS] were
    called. *)

From S2P Require Import Prelude Wire Net Rand EspCipher IkeHeader.
From S2P Require Import IkePayload IkeSA IkeV2 IkeMessage IkeTotal IkeProposal.
From S2P Require Import IkeCrypto IkeKeys IkeSession IkeSK IkeEap Exch IkeExchange IkeV2Init IkeV2Auth IkeV2Eap.

Module EapTls.
Import Hdr Pl SA V2 Msg Nego Crypto Keys Sess SK Init Auth EapAuth.

(** ** The transport: a connection over two buffers *)

Record eapTLSTransport := mkTransport { readBuf : bytes; writeBuf : bytes; closed : bool }.

Definition newEAPTLSTransport : eapTLSTransport := mkTransport [] [] false.

(** [Read] into a buffer of [n] bytes: what it puts there; the error is [io.EOF]. *)
Definition Read (t : eapTLSTransport) (n : nat) : eapTLSTransport * res bytes :=
  if closed t then (t, Err "EOF")
  else if bool_decide (readBuf t = []) then (t, Err "EOF")
  else (mkTransport (drop n (readBuf t)) (writeBuf t) (closed t), Ok (take n (readBuf t))).

Definition Write (t : eapTLSTransport) (b : bytes) : eapTLSTransport * res Z :=
  if closed t then (t, Err "io: read/write on closed pipe")
  else (mkTransport (readBuf t) (writeBuf t ++ b) (closed t), Ok (len b)).

Definition Close (t : eapTLSTransport) : eapTLSTransport := mkTransport (readBuf t) (writeBuf t) true.
Definition feedData (t : eapTLSTransport) (data : bytes) : eapTLSTransport := mkTransport (readBuf t ++ data) (writeBuf t) (closed t).
Definition takeData (t : eapTLSTransport) : eapTLSTransport * bytes := (mkTransport (readBuf t) [] (closed t), writeBuf t).

(** ** The TLS library *)

Inductive handshake_result := Finished | NeedsData | Fatal (e : string).

Class TLS (T : Type) := {
  Handshake : T -> eapTLSTransport -> T * eapTLSTransport * handshake_result;
  PeerCertificates : T -> list bytes;                       (* the common names *)
  ExportKeyingMaterial : T -> res bytes
}.

Section eaptls.
Context {C : Cipher.Crypto} {T : Type} {TL : TLS T}.

Record EAPTLSState := mkTLSState {
  transport : eapTLSTransport;
  tlsConn : T;
  rxBuf : bytes;
  rxPending : bool;
  handshakeDone : bool;
  handshakeErr : option string;
  peerIdentity : bytes
}.

Definition with_rx (buf : bytes) (pending : bool) (s : EAPTLSState) : EAPTLSState :=
  mkTLSState (transport s) (tlsConn s) buf pending (handshakeDone s) (handshakeErr s) (peerIdentity s).
Definition with_transport (t : eapTLSTransport) (s : EAPTLSState) : EAPTLSState :=
  mkTLSState t (tlsConn s) (rxBuf s) (rxPending s) (handshakeDone s) (handshakeErr s) (peerIdentity s).
Definition with_conn (c : T) (t : eapTLSTransport) (s : EAPTLSState) : EAPTLSState :=
  mkTLSState t c (rxBuf s) (rxPending s) (handshakeDone s) (handshakeErr s) (peerIdentity s).
Definition with_error (e : string) (s : EAPTLSState) : EAPTLSState :=
  mkTLSState (transport s) (tlsConn s) (rxBuf s) (rxPending s) (handshakeDone s) (Some e) (peerIdentity s).
Definition with_identity (names : list bytes) (s : EAPTLSState) : EAPTLSState :=
  mkTLSState (transport s) (tlsConn s) (rxBuf s) (rxPending s) true (handshakeErr s)
    (match names with name :: _ => name | [] => peerIdentity s end).

(** The state of the handler: the EAP-TLS state, the session, the random source. *)
Abbreviation tst := (EAPTLSState * st)%type.

Definition in_session {A} (m : exch st A) : exch tst A := fun s => let '(x, r) := m s.2 in ((s.1, x), r).
Definition on_tls {A} (f : EAPTLSState -> A) : exch tst A := get (fun s => f s.1).
Definition set_tls (f : EAPTLSState -> EAPTLSState) : exch tst unit := modify (fun s => (f s.1, s.2)).

Definition eapTLSFlagLength : Z := 128.
Definition eapTLSFlagMore : Z := 64.
Definition eapTLSFlagStart : Z := 32.
Definition eapTLSMaxFragment : Z := 1024.

Definition flag (flags f : Z) : bool := negb (Z.land flags f =? 0).

(** The flags of a response and the TLS data in it; [None] where the length is missing. *)
Definition tls_payload (data : bytes) : res (option (Z * bytes)) :=
  if len data <? 1 then Ok None
  else
    flags ← idx data 0;
    if flag flags eapTLSFlagLength && (len data <? 5) then Ok None
    else
      let offset := if flag flags eapTLSFlagLength then 5 else 1 in
      tlsData ← slice data offset (len data);
      Ok (Some (flags, tlsData)).

(** The data of the packet [sendEAPTLSFragments] builds: all of it, or its first fragment. *)
Definition tls_fragment (tlsData : bytes) (isLast : bool) : res bytes :=
  if len tlsData <=? eapTLSMaxFragment then
    let flags := if isLast then 0 else eapTLSFlagLength in
    eapData ← set_at (make (1 + len tlsData)) 0 flags;
    copy_at eapData 1 tlsData
  else
    let n := len tlsData in
    eapData ← set_at (make (5 + eapTLSMaxFragment)) 0 (Z.lor (Z.lor eapTLSFlagLength eapTLSFlagMore) eapTLSFlagStart);
    eapData ← set_at eapData 1 (u8 (Z.shiftr n 24));
    eapData ← set_at eapData 2 (u8 (Z.shiftr n 16));
    eapData ← set_at eapData 3 (u8 (Z.shiftr n 8));
    eapData ← set_at eapData 4 (u8 n);
    fragment ← slice tlsData 0 eapTLSMaxFragment;
    copy_at eapData 5 fragment.

(** A request of EAP-TLS. *)
Definition sendTLSRequest (data : bytes) (msgID : Z) : exch st Message :=
  id ← on_session s2_EAPIdentifier;
  eapReq ← lift (Eap.EAPPacket_Marshal (Eap.mkEAPPacket Eap.EAPCodeRequest id Eap.EAPTypeTLS data));
  sendEAPPayload eapReq msgID.

Definition sendEAPTLSFragments (tlsData : bytes) (msgID : Z) (isLast : bool) : exch st Message :=
  _ ← assign next_identifier;
  eapData ← lift (tls_fragment tlsData isLast);
  sendTLSRequest eapData msgID.

(** The handshake, as far as it goes; false when it failed for good. *)
Definition drive : exch tst bool :=
  done ← on_tls handshakeDone;
  if (done : bool) then ret true
  else
    state ← on_tls (fun s => s);
    let '(conn, t, out) := Handshake (tlsConn state) (transport state) in
    _ ← set_tls (with_conn conn t);
    match out with
    | NeedsData => ret true
    | Fatal e => _ ← set_tls (with_error e); ret false
    | Finished =>
      _ ← set_tls (with_identity (PeerCertificates conn));
      let msk := match ExportKeyingMaterial conn with Ok msk => msk | _ => make 64 end in
      _ ← in_session (assign (fun s => set_s2_EAPMSK s msk));
      ret true
    end.

(** What is sent once the handshake has run. *)
Definition answer_tls (msgID : Z) : exch tst Message :=
  state ← on_tls (fun s => s);
  let '(t, outData) := takeData (transport state) in
  _ ← set_tls (with_transport t);
  if (len outData =? 0) && handshakeDone state then
    _ ← in_session (assign next_identifier);
    _ ← in_session (assign (fun s => set_s2_State s StateV2EAPDone));
    id ← in_session (on_session s2_EAPIdentifier);
    eapSuccess ← lift (Eap.BuildEAPSuccess id);
    in_session (sendEAPPayload eapSuccess msgID)
  else in_session (sendEAPTLSFragments outData msgID (handshakeDone state)).

Definition handleEAPTLS (pkt : Eap.EAPPacket) (msgID : Z) : exch tst Message :=
  payload ← lift (tls_payload (Eap.eap_Data pkt));
  match payload with
  | None => in_session (sendEAPFailure msgID)
  | Some (flags, data) =>
    _ ← set_tls (fun s => with_rx (rxBuf s ++ data) (rxPending s) s);
    if flag flags eapTLSFlagMore then
      _ ← set_tls (fun s => with_rx (rxBuf s) true s);
      _ ← in_session (assign next_identifier);
      in_session (sendTLSRequest [0] msgID)
    else
      tlsData ← on_tls rxBuf;
      _ ← set_tls (with_rx [] false);
      _ ← (if len tlsData >? 0 then set_tls (fun s => with_transport (feedData (transport s) tlsData) s) else ret tt);
      ok ← drive;
      if (ok : bool) then answer_tls msgID else in_session (sendEAPFailure msgID)
  end.

(** [initEAPTLS]: the provider of certificates may be nil; [tls_Server] is [tls.Server] over
    the new transport with the certificate. *)
Definition initEAPTLS {K} (certProvider : option (res K)) (tls_Server : K -> T) : exch st EAPTLSState :=
  match certProvider with
  | None => fail "EAP-TLS requires cert provider"
  | Some cert =>
    serverCert ← match cert with Ok k => ret k | Err _ => fail "EAP-TLS: server cert" | Panic => lift Panic end;
    _ ← assign (fun s => set_s2_EAPMethod s Eap.EAPTypeTLS);
    ret (mkTLSState newEAPTLSTransport (tls_Server serverCert) [] false false None [])
  end.

(** ** Fragments *)

Definition length_bytes (n : Z) : bytes := [u8 (Z.shiftr n 24); u8 (Z.shiftr n 16); u8 (Z.shiftr n 8); u8 n].

Lemma tls_fragment_bytes d isLast :
  tls_fragment d isLast = Ok (if len d <=? eapTLSMaxFragment then (if isLast then 0 else 128) :: d
    else (224 :: length_bytes (len d)) ++ sub d 0 eapTLSMaxFragment).
Proof.
  pose proof (len_nonneg d). unfold tls_fragment, eapTLSMaxFragment. destruct (Z.leb_spec (len d) 1024).
  - rewrite (fill_start (1 + len d)), fill_set, bind_Ok by (reflexivity || lia).
    rewrite fill_copy by (reflexivity || lia). rewrite make_0, app_nil_r by lia. by destruct isLast.
  - rewrite (fill_start (5 + 1024)). do 5 (rewrite fill_set, bind_Ok by (reflexivity || lia)).
    rewrite slice_ok, bind_Ok by lia. assert (len (sub d 0 1024) = 1024) as Hs by (rewrite len_sub; lia).
    rewrite fill_copy by (reflexivity || lia). rewrite Hs, make_0, app_nil_r by lia. done.
Qed.

(** what a peer finds in a request.  The last flight arrives as it was sent if it fits; an earlier
    one that fits is announced with a length that is not there, so that its first four
    bytes are taken for it; and of a longer one only the first 1024 bytes are in the packet,
    which says that more will come. *)
Theorem fragments_read_back d :
  exists f g, tls_fragment d true = Ok f /\ tls_fragment d false = Ok g /\
    (len d <= 1024 -> tls_payload f = Ok (Some (0, d)) /\
       tls_payload g = Ok (if len d <? 4 then None else Some (128, drop 4 d))) /\
    (1024 < len d -> f = g /\ tls_payload f = Ok (Some (224, sub d 0 1024)) /\ drop 1 (take 5 f) = length_bytes (len d)).
Proof.
  pose proof (len_nonneg d). rewrite !tls_fragment_bytes. unfold eapTLSMaxFragment. do 2 eexists. split; [done|]. split; [done|].
  destruct (Z.leb_spec (len d) 1024); (split; intros ?; [|try lia]); [|lia|].
  - unfold tls_payload. rewrite !len_cons, (proj2 (Z.ltb_ge _ 1)), !idx_0, !bind_Ok by lia. cbn [flag eapTLSFlagLength Z.land Z.eqb negb andb].
    rewrite (slice_tail [0] d) by (reflexivity || (rewrite len_app; reflexivity) || by rewrite len_cons). rewrite bind_Ok. split; [done|].
    change (flag 128 eapTLSFlagLength) with true. cbn [andb]. destruct (Z.ltb_spec (len d) 4); [rewrite (proj2 (Z.ltb_lt _ 5)) by lia; done|].
    rewrite (proj2 (Z.ltb_ge _ 5)) by lia. change (128 :: d) with ([128] ++ d). rewrite <- (take_drop 4 d) at 1 2. rewrite app_assoc.
    assert (len ([128] ++ take 4 d) = 5) as H5 by (rewrite len_app, len_take; change (len [128]) with 1; lia).
    rewrite slice_tail, bind_Ok; [done|lia|rewrite !len_app, !len_take, len_drop; change (len [128]) with 1; lia].
  - split; [done|]. split; [|done]. unfold tls_payload. set (h := 224 :: _). assert (len h = 5) as H5 by reflexivity.
    pose proof (len_sub d 0 1024 ltac:(lia) ltac:(lia)). rewrite len_app, H5, !(proj2 (Z.ltb_ge _ _)) by lia.
    assert (idx (h ++ sub d 0 1024) 0 = Ok 224) as -> by reflexivity. rewrite bind_Ok. change (flag 224 eapTLSFlagLength) with true. cbn [andb].
    rewrite slice_tail, bind_Ok; [done|lia..].
Qed.


(** ** What a handshake that goes on answers *)

(** The session and the answer after the handshake has gone as far as it can. *)
Lemma drive_spec (s : tst) : handshakeDone s.1 = false ->
  let '(conn, t, out) := Handshake (tlsConn s.1) (transport s.1) in
  match out with
  | Fatal _ => exists s', drive s = (s', Ok false) /\ handshakeDone s'.1 = false
  | NeedsData => exists s', drive s = (s', Ok true) /\ transport s'.1 = t /\ handshakeDone s'.1 = false /\ s'.2 = s.2
  | Finished => exists s', drive s = (s', Ok true) /\ transport s'.1 = t /\ handshakeDone s'.1 = true /\
      s'.2 = (set_s2_EAPMSK s.2.1 (match ExportKeyingMaterial conn with Ok msk => msk | _ => make 64 end), s.2.2)
  end.
Proof.
  intros Hd. unfold drive. erewrite exch_bind_Ok; [|reflexivity]. rewrite Hd. erewrite exch_bind_Ok; [|reflexivity].
  destruct (Handshake _ _) as [[conn t] []]; (erewrite exch_bind_Ok; [|reflexivity]).
  - erewrite exch_bind_Ok; [|reflexivity]. erewrite exch_bind_Ok; [|reflexivity]. by eexists.
  - by eexists.
  - erewrite exch_bind_Ok; [|reflexivity]. by eexists.
Qed.

Lemma feed_nonempty buf (s0 : tst) :
  (if len buf >? 0 then set_tls (fun s => with_transport (feedData (transport s) buf) s) else ret tt) s0 =
  ((with_transport (feedData (transport s0.1) buf) s0.1, s0.2), Ok tt).
Proof.
  destruct (len buf >? 0) eqn:E; [done|]. assert (buf = []) as -> by (apply len_0_inv; pose proof (len_nonneg buf); lia).
  destruct s0 as [[[] ? ? ? ? ? ?] ?]. unfold feedData, ret. cbn. by rewrite app_nil_r.
Qed.

Lemma drive_rx (s s' : tst) x : drive s = (s', x) -> rxBuf s'.1 = rxBuf s.1.
Proof.
  unfold drive. erewrite exch_bind_Ok; [|reflexivity]. destruct (handshakeDone s.1); [by intros [= <- _]|].
  erewrite exch_bind_Ok; [|reflexivity]. destruct (Handshake _ _) as [[conn t] []]; (erewrite exch_bind_Ok; [|reflexivity]).
  - erewrite exch_bind_Ok; [|reflexivity]. erewrite exch_bind_Ok; [|reflexivity]. by intros [= <- _].
  - by intros [= <- _].
  - erewrite exch_bind_Ok; [|reflexivity]. by intros [= <- _].
Qed.

(** a flight of the TLS server is lost beyond 1024 bytes.  When a response completes a
    flight of the client and the handshake wants more, the answer is one packet, made of all
    that TLS has written ([fragments_read_back] says how much of it is inside), and nothing of it
    is kept: the buffer is empty, and a response to the fragment gets nothing but what TLS
    writes next. *)
Theorem flight_answered pkt msgID (s : tst) flags data conn t :
  tls_payload (Eap.eap_Data pkt) = Ok (Some (flags, data)) -> flag flags eapTLSFlagMore = false -> handshakeDone s.1 = false ->
  Handshake (tlsConn s.1) (feedData (transport s.1) (rxBuf s.1 ++ data)) = (conn, t, NeedsData) ->
  exists s', handleEAPTLS pkt msgID s = (s', (sendEAPTLSFragments (writeBuf t) msgID false s.2).2) /\
    writeBuf (transport s'.1) = [] /\ readBuf (transport s'.1) = readBuf t /\ rxBuf s'.1 = [] /\ handshakeDone s'.1 = false.
Proof.
  intros Hp Hm Hd Hh. unfold handleEAPTLS. erewrite exch_bind_Ok; [|unfold lift; rewrite Hp; reflexivity]. cbv beta iota.
  erewrite exch_bind_Ok; [|reflexivity]. rewrite Hm. erewrite exch_bind_Ok; [|reflexivity]. erewrite exch_bind_Ok; [|reflexivity].
  cbn [fst snd rxBuf with_rx]. set (buf := rxBuf s.1 ++ data) in *.
  set (s1 := with_transport (feedData (transport s.1) buf) (with_rx [] false s.1)).
  rewrite (exch_bind_Ok _ _ _ (s1, s.2) tt); [|exact (feed_nonempty buf (with_rx [] false (with_rx buf (rxPending s.1) s.1), s.2))].
  pose proof (drive_spec (s1, s.2) Hd) as Hdr. cbn [fst snd] in Hdr. change (tlsConn s1) with (tlsConn s.1) in Hdr.
  change (transport s1) with (feedData (transport s.1) buf) in Hdr. rewrite Hh in Hdr. destruct Hdr as (s2 & Hs2 & Ht & Hd2 & Hsess).
  erewrite exch_bind_Ok; [|exact Hs2]. cbv beta iota. unfold answer_tls. erewrite exch_bind_Ok; [|reflexivity]. unfold takeData.
  erewrite exch_bind_Ok; [|reflexivity]. rewrite Hd2, andb_false_r, Ht. unfold in_session. cbn [fst snd]. rewrite Hsess.
  assert (rxBuf s2.1 = []) as Hrx by (by apply (drive_rx _ _ _ Hs2)).
  destruct (sendEAPTLSFragments _ _ _ _) as [x r]. by eexists.
Qed.

End eaptls.

(** ** A TLS library that writes 2000 bytes and waits *)

Import EspCipher.Cipher.Toy.

Section demo.

#[local] Instance demo_tls : TLS unit := {|
  Handshake c t := (c, mkTransport [] (writeBuf t ++ replicate 2000 22) (closed t), NeedsData);
  PeerCertificates _ := [];
  ExportKeyingMaterial _ := Err "not finished"
|}.

Definition demo_state : EAPTLSState (T := unit) * st := (mkTLSState newEAPTLSTransport tt [] false false None [], (demo_sess, demo_rng)).

Lemma flight_answered_witness :
  exists s', (handleEAPTLS (Eap.mkEAPPacket Eap.EAPCodeResponse 1 Eap.EAPTypeTLS [0; 22; 3; 1]) 1 demo_state).1 = s' /\ writeBuf (transport s'.1) = [].
Proof.
  destruct (flight_answered (Eap.mkEAPPacket Eap.EAPCodeResponse 1 Eap.EAPTypeTLS [0; 22; 3; 1]) 1 demo_state 0 [22; 3; 1] tt
    (mkTransport [] (replicate 2000 22) false)) as (s' & H & Hw & _); try reflexivity.
  exists s'. rewrite H. split; [reflexivity|exact Hw].
Defined.

End demo.

End EapTls.
