(* ===== verification/IkeInfo.v ===== *)
(** * IkeInfo: the INFORMATIONAL exchange ([internal/ike/info.go])

    Liveness checks and deletions.  The handler works on the session manager, so its state
    is that of [IkeManager] with the random source.  It is given the location of the
    session in the heap, as it is given a pointer. *)

From stdpp Require Import gmap.
From S2P Require Import Prelude Wire Net Rand EspCipher EspEngine IkeHeader.
From S2P Require Import IkePayload IkeSA IkeV2 IkeMessage IkeTotal.
From S2P Require Import IkeCrypto IkeKeys IkeSession IkeSK IkeManager Exch IkeExchange.

Module Info.
Import Hdr Pl SA V2 Msg Crypto Keys Sess SK Manager Engine.

(** The manager, its sessions and the data plane; the random source. *)
Abbreviation mst := (Manager.state * rng)%type.

(** A method of the manager. *)
Definition managed (f : Manager.state -> res Manager.state) : exch mst unit := fun s =>
  match f s.1 with
  | Ok s' => ((s', s.2), Ok tt)
  | Err e => (s, Err e)
  | Panic => (s, Panic)
  end.

(** The session a pointer points to. *)
Definition load2 (l : nat) : exch mst IKEv2Session := fun s =>
  match heap2 s.1 !! l with Some sess => (s, Ok sess) | None => (s, Panic) end.

Section handler.
Context {C : EspCipher.Cipher.Crypto} {O : MapOrder}.

(** [ESP] and four bytes long: the inbound SA with this SPI is removed. *)
Definition remove_spi (s : Manager.state) (spiBytes : bytes) : res Manager.state :=
  if len spiBytes =? 4 then
    spi ← be32 spiBytes;
    if espEngine (manager s) then Ok (with_esp s (RemoveInboundSA (esp s) spi)) else Ok s
  else Ok s.

Fixpoint remove_spis (s : Manager.state) (spis : list bytes) : res Manager.state :=
  match spis with
  | [] => Ok s
  | spi :: spis =>
    s ← remove_spi s spi;
    remove_spis s spis
  end.

(** One payload: the case is chosen by the NextPayload of its header, which is the type of
    the payload after it. *)
Definition process_payload (sess : IKEv2Session) (s : Manager.state) (p : ParsedPayload) : res Manager.state :=
  if gph_NextPayload (pp_Header p) =? PayloadDelete then
    match as_Delete (pp_Payload p) with
    | None => Ok s
    | Some del =>
      if del_ProtocolID del =? ProtocolIKE then DeleteV2Session s (SPIPair2 sess)
      else if del_ProtocolID del =? ProtocolESP then remove_spis s (del_SPIs del)
      else Ok s
    end
  else Ok s.

Fixpoint process_payloads (sess : IKEv2Session) (s : Manager.state) (chain : PayloadChain) : res Manager.state :=
  match chain with
  | [] => Ok s
  | p :: chain =>
    s ← process_payload sess s p;
    process_payloads sess s chain
  end.

(** The header of the answer. *)
Definition info_response (msg : Message) : Header :=
  mkHeader (InitiatorSPI (msg_Header msg)) (ResponderSPI (msg_Header msg)) PayloadSK IKEv2Major 0 ExchangeInformational FlagResponse
    (MessageID (msg_Header msg)) 0.

(** [sess] is not nil: the only caller checks it. *)
Definition HandleInformational (l : nat) (msg : Message) : exch mst Message :=
  match msg_Payloads msg with
  | [] => fail "INFORMATIONAL missing payloads"
  | first :: _ =>
    match pp_Payload first with
    | PRaw skPayload =>
      if negb (raw_PayloadType skPayload =? PayloadSK) then fail "INFORMATIONAL first payload not SK"
      else
        sess ← load2 l;
        keys ← lift (deref (s2_Keys sess));
        let '(decKey, intDecKey, encKeyOut, intEncKeyOut) :=
          if s2_IsInitiator sess then (SK_er keys, SK_ar keys, SK_ei keys, SK_ai keys) else (SK_ei keys, SK_ai keys, SK_er keys, SK_ar keys) in
        rawHeader ← lift (MarshalBinary (msg_Header msg));
        payloads ← lift (DecryptSKPayload (s2_Encryptor sess) (s2_Integrity sess) decKey intDecKey rawHeader (raw_Data skPayload)
          (NextPayload (msg_Header msg)));
        _ ← managed (fun s => process_payloads sess s payloads);
        tmpHeaderBytes ← lift (MarshalBinary (info_response msg));
        sess ← load2 l;
        '(firstPT, skBody) ← drawn (EncryptSKPayload (s2_Encryptor sess) (s2_Integrity sess) encKeyOut intEncKeyOut tmpHeaderBytes []);
        ret (mkMessage (with_NextPayload (info_response msg) firstPT)
          [mkParsed (mkGPH PayloadNone false 0) (PRaw (mkRaw PayloadSK skBody))] [])
    | _ => fail "INFORMATIONAL first payload not SK"
    end
  end.

End handler.

(** ** What the parser makes of an SK payload *)

Lemma parseTypedPayload_raw pt body r : parseTypedPayload pt body true = Ok (PRaw r) -> raw_PayloadType r = pt.
Proof.
  unfold parseTypedPayload. destruct (parseV2Payload pt body) as [p|e|] eqn:E; [|by intros [= <-]|done].
  intros [= ->]. unfold parseV2Payload in E.
  repeat (destruct (_ : bool); [first [done | match type of E with _ <$> ?x = _ => by destruct x end]|]). by injection E as <-.
Qed.

Lemma parseTypedPayload_SK body : exists p, parseTypedPayload PayloadSK body true = Ok (PSK p).
Proof. by eexists. Qed.

(** No payload of a chain is a raw SK payload. *)
Lemma parse_chain_no_raw_SK fuel : forall buf nextType offset chain,
  parse_chain fuel buf nextType offset true = Ok chain ->
  Forall (fun pp => forall r, pp_Payload pp = PRaw r -> raw_PayloadType r <> PayloadSK) chain.
Proof.
  induction fuel as [|fuel IH]; intros buf nt off chain; cbn [parse_chain]; (destruct (nt =? _); [by intros [= <-]|]); [done|].
  destruct (_ >? _); [done|]. intros (s & _ & H)%bind_Ok_inv. apply bind_Ok_inv in H as (gph & _ & H). destruct (_ <? _); [done|].
  cbv zeta in H. destruct (_ >? _); [done|]. apply bind_Ok_inv in H as (body & _ & H). apply bind_Ok_inv in H as (p & Hp & H).
  destruct (_ && _); [done|]. apply bind_Ok_inv in H as (l & Hl & [= <-]). constructor; [|by eapply IH]. cbn. intros r -> Hr.
  pose proof (parseTypedPayload_raw _ _ _ Hp) as E. rewrite Hr in E. subst nt. destruct (parseTypedPayload_SK body) as [q Hq]. by rewrite Hq in Hp.
Qed.

(** The handler wants its first payload unparsed, but the parser never leaves an SK payload so:
    no INFORMATIONAL message that was received is answered, no liveness check succeeds and no
    deletion has an effect. *)
Lemma HandleInformational_unanswered {C : EspCipher.Cipher.Crypto} {O : MapOrder} l buf msg s :
  ParseMessage buf = Ok msg -> IsIKEv2 (msg_Header msg) = true ->
  exists e, HandleInformational l msg s = (s, Err e).
Proof.
  unfold ParseMessage. destruct (_ <? _); [done|]. intros (h & _ & H)%bind_Ok_inv. apply bind_Ok_inv in H as ([] & _ & H).
  cbv zeta in H. destruct (_ >? _); [done|].
  apply bind_Ok_inv in H as (pb & _ & H). apply bind_Ok_inv in H as (chain & Hc & [= <-]). cbn [msg_Header]. intros Hv. rewrite Hv in Hc.
  unfold HandleInformational. cbn [msg_Payloads]. apply parse_chain_no_raw_SK in Hc. destruct Hc as [|pp chain Hpp _]; [by eexists|].
  destruct (pp_Payload pp) as [r| | | | | | | | | | | | | | | | | | | | | | | | |] eqn:Ep; try by eexists. rewrite (proj2 (Z.eqb_neq _ _)) by (by apply Hpp). by eexists.
Qed.

End Info.
