(* ===== verification/IkeV1Main.v ===== *)
(** * IkeV1Main: Main Mode of IKEv1 ([internal/ike/ikev1_main.go])

    The responder's side: message 1 makes a session, message 3 carries the key exchange,
    message 5 the identity and the proof of the shared key.  The handlers of messages 3 and 5
    run on the session and the random source; a field assigned together with an error is
    assigned ([store]).  The functions at the end of the Go file that look for payloads and
    compare hashes are [IkeExchange.find_as] and [IkeKeys.hashEqual]. *)

From S2P Require Import Prelude Wire Net Rand EspCipher IkeHeader.
From S2P Require Import IkePayload IkeSA IkeV2 IkeV1 IkeMessage IkeTotal IkeProposal.
From S2P Require Import IkeCrypto IkeKeys IkeSession IkeSK Exch IkeExchange.

Module Main1.
Import Hdr Pl Attr SA V2 V1 Msg Nego Crypto Keys Sess SK.

Abbreviation st1 := (IKEv1Session * rng)%type.

Record IKEv1Handler := mkHandler1 {
  supportedP1 : list V1Phase1Config;
  h1_getConnPSK : option UDPAddr -> option (bytes * bytes);
  getXAUTHCredentials : option (bytes -> bytes -> bool);   (* [None]: a nil function *)
  h1_localID : bytes;
  h1_localIDType : Z
}.

Definition NewIKEv1Handler (getConnPSK : option UDPAddr -> option (bytes * bytes)) (getXAUTHCredentials : option (bytes -> bytes -> bool))
    (localID : bytes) (localIDType : Z) : IKEv1Handler :=
  mkHandler1 DefaultV1Phase1Configs getConnPSK getXAUTHCredentials localID localIDType.

(** ** Utilities *)

Definition v1HashToPRF (hashAlg : Z) : Z :=
  if hashAlg =? V1HashSHA1 then PRFHMAC_SHA1
  else if hashAlg =? V1HashSHA256 then PRFHMAC_SHA256
  else if hashAlg =? V1HashSHA384 then PRFHMAC_SHA384
  else if hashAlg =? V1HashSHA512 then PRFHMAC_SHA512
  else PRFHMAC_SHA1.

Definition v1EncToV2Enc (encAlg : Z) : Z :=
  if encAlg =? V1EncrAES_CBC then EncrAES_CBC else if encAlg =? V1Encr3DES_CBC then Encr3DES else EncrAES_CBC.

Definition V1EncrDES_CBC : Z := 1.

Definition v1EncKeySize (encAlg keyLength : Z) : Z :=
  if keyLength >? 0 then keyLength / 8
  else if encAlg =? V1EncrAES_CBC then 16
  else if encAlg =? V1Encr3DES_CBC then 24
  else if encAlg =? V1EncrDES_CBC then 8
  else 16.

(** [sha256.New] or [sha1.New]. *)
Definition v1_hash (hashAlg : Z) : EspCipher.Cipher.Hash :=
  if hashAlg =? V1HashSHA256 then EspCipher.Cipher.SHA256 else EspCipher.Cipher.SHA1.

(** The block size of an encryptor that may be nil. *)
Definition block_size (enc : option IKEEncryptor) : Z := match enc with Some e => enc_BlockSize e | None => 16 end.

(** The IV after a message: the last block of its ciphertext. *)
Definition last_block (iv encPayload : bytes) (blockSize : Z) : res bytes :=
  if len encPayload >=? blockSize then
    b ← slice encPayload (len encPayload - blockSize) (len encPayload);
    copy_at (make blockSize) 0 b
  else Ok iv.

(** A response header of IKEv1, before its length is known. *)
Definition v1_header (sess : IKEv1Session) (nextPayload exchType flags msgID length : Z) : Header :=
  SetIKEv1 (mkHeader (s1_CookieI sess) (s1_CookieR sess) nextPayload 0 0 exchType flags msgID length).

(** A message marshalled by hand: the header and the ciphertext. *)
Definition encrypted_message (sess : IKEv1Session) (firstPT exchType msgID : Z) (encResp : bytes) : res Message :=
  let hdr := v1_header sess firstPT exchType FlagV1Encryption msgID (u32 (HeaderLen + len encResp)) in
  rawResp ← Marshal hdr (make (HeaderLen + len encResp));
  rawResp ← copy_at rawResp HeaderLen encResp;
  Ok (mkMessage hdr [] rawResp).

Definition unsent1 (p : Payload) : ParsedPayload := mkParsed (mkGPH PayloadNone false 0) p.

(** The SA payload of a phase-1 answer. *)
Definition phase1_answer (matchedXf : TransformV1Payload) : SAv1Payload :=
  mkSAv1 DOIIPsec SituationIdentityOnly [mkProposalV1 1 ProtocolIKE [] [matchedXf]].

Definition set_SKEYID_e (k : IKEv1KeyMaterial) (e : bytes) : IKEv1KeyMaterial := mkKeys1 (SKEYID k) (SKEYID_d k) (SKEYID_a k) e.

Section handlers.
Context {C : EspCipher.Cipher.Crypto} {D : Digests} {E : ECDH}.

(** The loop of [expandV1EncKey]: every pass adds a digest. *)
Fixpoint expand_loop (fuel : nat) (prf : hmacPRF) (skeyidE : bytes) (needed : Z) (expanded prev : bytes) : res bytes :=
  if len expanded <? needed then
    match fuel with
    | O => Panic
    | S fuel =>
      let prev := PRF_Compute prf skeyidE prev in
      expand_loop fuel prf skeyidE needed (expanded ++ prev) prev
    end
  else Ok expanded.

Definition expandV1EncKey (prf : hmacPRF) (skeyidE : bytes) (needed : Z) : res bytes :=
  if len skeyidE >=? needed then slice skeyidE 0 needed
  else
    expanded ← expand_loop (Z.to_nat needed) prf skeyidE needed [] [0];
    slice expanded 0 needed.

Definition computeV1InitialIV (hashAlg : Z) (ni nr : bytes) (enc : option IKEEncryptor) : res bytes :=
  let full := digest (v1_hash hashAlg) (ni ++ nr) in
  let blockSize := block_size enc in
  if len full <? blockSize then Ok full else slice full 0 blockSize.

Definition ComputeV1QuickModeIV (hashAlg : Z) (phase1IV : bytes) (msgID blockSize : Z) : res bytes :=
  let full := digest (v1_hash hashAlg) (phase1IV ++ put32 msgID) in
  if len full <? blockSize then Ok full else slice full 0 blockSize.

(** HASH_I and HASH_R: the public values and cookies in the order of the direction. *)
Definition computeV1Hash (sess : IKEv1Session) (isInitiator : bool) (idPayload : IDv1Payload) : res bytes :=
  idBody ← id_body_of (PIDv1 idPayload);
  let input := if isInitiator
    then s1_PeerDHPubKey sess ++ s1_DHPubKey sess ++ s1_CookieI sess ++ s1_CookieR sess
    else s1_DHPubKey sess ++ s1_PeerDHPubKey sess ++ s1_CookieR sess ++ s1_CookieI sess in
  let input := input ++ idBody in
  prf ← deref (s1_PRF sess);
  keys ← deref (s1_Keys sess);
  Ok (PRF_Compute prf (SKEYID keys) input).

(** ** Message 1 *)

(** The session as it is created; what is not set is zero. *)
Definition main_session (h : IKEv1Handler) (msg : Message) (peerAddr : option UDPAddr) (matched : V1Phase1Config) (cookieR psk connName : bytes)
    (prf : hmacPRF) : IKEv1Session :=
  mkSess1 (InitiatorSPI (msg_Header msg)) cookieR StateV1MainSARecv (v1_EncAlg matched) (v1_HashAlg matched) (v1_AuthMethod matched)
    (v1_DHGroup matched) (v1_KeyLength matched) [] [] [] [] [] [] None (Some prf) None [] peerAddr [] (h1_localID h) psk connName false [] 0 [].

Definition HandleMainMode1 (h : IKEv1Handler) (msg : Message) (peerAddr : option UDPAddr) (r : rng) : res (Message * IKEv1Session * rng) :=
  match find_as as_SAv1 (msg_Payloads msg) with
  | None => Err "Main Mode msg1: missing SA payload"
  | Some saPayload =>
    '(matched, _, matchedXf) ← SelectV1Proposal (Some saPayload) (supportedP1 h);
    match h1_getConnPSK h peerAddr with
    | None => Err "Main Mode msg1: no PSK for peer"
    | Some (psk, connName) =>
      let '(cookieR, r) := rand_Read r 8 in
      prf ← NewPRF (v1HashToPRF (v1_HashAlg matched));
      let sess := main_session h msg peerAddr matched cookieR psk connName prf in
      let resp := mkMessage (v1_header sess PayloadNone ExchangeIdentityProtect 0 0 0) [unsent1 (PSAv1 (phase1_answer matchedXf))] [] in
      Ok (resp, sess, r)
    end
  end.

(** ** Message 3 *)

Definition HandleMainMode3 (x : secret) (msg : Message) : exch st1 Message :=
  state ← on_session s1_State;
  if bool_decide (state <> StateV1MainSARecv) then fail "Main Mode msg3: unexpected state" else
  match find_as as_KEv1 (msg_Payloads msg) with
  | None => fail "Main Mode msg3: missing KE payload"
  | Some kePayload =>
    match find_as as_NonceV1 (msg_Payloads msg) with
    | None => fail "Main Mode msg3: missing Nonce payload"
    | Some noncePayload =>
      _ ← assign (fun s => set_s1_NonceI (set_s1_PeerDHPubKey s (ke1_Data kePayload)) (nonce1_NonceData noncePayload));
      sess ← on_session (fun s => s);
      dh ← lift (NewDHGroup (s1_DHGroupID sess));
      _ ← store (fun s k => set_s1_DHPubKey (set_s1_DHPrivKey s k.1) k.2) ([], []) (GenerateKeypair dh x);
      sess ← on_session (fun s => s);
      _ ← store set_s1_SharedSecret [] (ComputeSharedSecret dh (s1_DHPrivKey sess) (s1_PeerDHPubKey sess));
      _ ← store_drawn set_s1_NonceR [] (GenerateNonce 32);
      sess ← on_session (fun s => s);
      prf ← lift (deref (s1_PRF sess));
      _ ← store (fun s k => set_s1_Keys s k) None
        (k ← DeriveIKEv1Keys prf (s1_PSK sess) (s1_SharedSecret sess) (s1_NonceI sess) (s1_NonceR sess) (s1_CookieI sess) (s1_CookieR sess); Ok (Some k));
      sess ← on_session (fun s => s);
      iv ← lift (computeV1InitialIV (s1_HashAlg sess) (s1_NonceI sess) (s1_NonceR sess) (s1_Encryptor sess));
      _ ← assign (fun s => set_s1_CurrentIV s iv);
      let encrKeyLen := v1EncKeySize (s1_EncAlg sess) (s1_KeyLength sess) in
      _ ← store (fun s e => set_s1_Encryptor s e) None (e ← NewIKEEncryptor (v1EncToV2Enc (s1_EncAlg sess)) (s1_KeyLength sess); Ok (Some e));
      keys ← lift (deref (s1_Keys sess));
      skeyidE ← lift (expandV1EncKey prf (SKEYID_e keys) encrKeyLen);
      _ ← assign (fun s => set_s1_Keys s (Some (set_SKEYID_e keys skeyidE)));
      sess ← on_session (fun s => s);
      iv ← lift (computeV1InitialIV (s1_HashAlg sess) (s1_NonceI sess) (s1_NonceR sess) (s1_Encryptor sess));
      _ ← assign (fun s => set_s1_CurrentIV s iv);
      _ ← assign (fun s => set_s1_State s StateV1MainKERecv);
      sess ← on_session (fun s => s);
      ret (mkMessage (v1_header sess PayloadNone ExchangeIdentityProtect 0 0 0)
        [unsent1 (PKEv1 (mkKEv1 (s1_DHPubKey sess))); unsent1 (PNonceV1 (mkNonceV1 (s1_NonceR sess)))] [])
    end
  end.

(** ** Message 5 *)

(** The ciphertext and the plaintext of an encrypted message under an IV, and the type of the
    first payload in it: that of the header after [msg.Marshal]. *)
Definition open_v1 (sess : IKEv1Session) (iv : bytes) (msg : Message) : res (bytes * bytes * Z) :=
  '(msg, msgBytes) ← Message_Marshal msg;
  encPayload ← slice msgBytes HeaderLen (len msgBytes);
  keys ← deref (s1_Keys sess);
  enc ← deref (s1_Encryptor sess);
  decrypted ← DecryptIKEv1Payload enc (SKEYID_e keys) iv encPayload;
  Ok (encPayload, decrypted, NextPayload (msg_Header msg)).

Definition HandleMainMode5 (h : IKEv1Handler) (msg : Message) : exch st1 Message :=
  state ← on_session s1_State;
  if bool_decide (state <> StateV1MainKERecv) then fail "Main Mode msg5: unexpected state" else
  if negb (IsEncrypted (msg_Header msg)) then fail "Main Mode msg5: expected encrypted message" else
  sess ← on_session (fun s => s);
  '(encPayload, decrypted, first) ← lift (open_v1 sess (s1_CurrentIV sess) msg);
  let blockSize := block_size (s1_Encryptor sess) in
  iv ← lift (last_block (s1_CurrentIV sess) encPayload blockSize);
  _ ← assign (fun s => set_s1_CurrentIV s iv);
  chain ← lift (ParsePayloadChain decrypted first false);
  match find_as as_IDv1 chain with
  | None => fail "Main Mode msg5: missing ID payload"
  | Some idPayload =>
    match find_as as_HashV1 chain with
    | None => fail "Main Mode msg5: missing Hash payload"
    | Some hashPayload =>
      _ ← assign (fun s => set_s1_PeerID s (id1_Data idPayload));
      sess ← on_session (fun s => s);
      expectedHash ← lift (computeV1Hash sess true idPayload);
      if negb (hashEqual expectedHash (hash1_HashData hashPayload)) then fail "Main Mode msg5: hash verification failed" else
      let localIDPayload := mkIDv1 (h1_localIDType h) 0 0 (s1_LocalID sess) in
      respHash ← lift (computeV1Hash sess false localIDPayload);
      '(respPayloadBytes, firstPT) ← lift (MarshalPayloadChain [PIDv1 localIDPayload; PHashV1 (mkHashV1 respHash)]);
      keys ← lift (deref (s1_Keys sess));
      enc ← lift (deref (s1_Encryptor sess));
      encResp ← lift (EncryptIKEv1Payload enc (SKEYID_e keys) (s1_CurrentIV sess) respPayloadBytes);
      iv ← lift (last_block (s1_CurrentIV sess) encResp blockSize);
      _ ← assign (fun s => set_s1_CurrentIV s iv);
      resp ← lift (encrypted_message sess firstPT ExchangeIdentityProtect 0 encResp);
      _ ← assign (fun s => set_s1_State s StateV1Established);
      ret resp
    end
  end.

End handlers.

(** ** The key exchange *)

Section theorems.
Context {C : EspCipher.Cipher.Crypto} {CL : EspCipher.Cipher.CryptoLaws C} {D : Digests} {DL : DigestLaws D} {E : ECDH} {EL : ECDHLaws E}.

Lemma expand_loop_ok prf k needed fuel expanded prev :
  needed <= len expanded + Z.of_nat fuel ->
  exists r, expand_loop fuel prf k needed expanded prev = Ok r /\ needed <= len r.
Proof using CL.
  revert expanded prev. induction fuel as [|fuel IH]; intros expanded prev Hb; cbn [expand_loop].
  - rewrite (proj2 (Z.ltb_ge _ _)) by lia. exists expanded. split; [done|lia].
  - destruct (Z.ltb_spec (len expanded) needed); [|by exists expanded]. apply IH. rewrite len_app.
    unfold PRF_Compute. rewrite EspCipher.Cipher.len_hmac. pose proof (hash_size_pos (prf_hashFunc prf)). lia.
Qed.

(** The cipher key has the length asked for. *)
Lemma expandV1EncKey_ok prf k n : 0 <= n -> exists e, expandV1EncKey prf k n = Ok e /\ len e = n.
Proof using CL.
  intros Hn. unfold expandV1EncKey. rewrite Z.geb_leb. destruct (Z.leb_spec n (len k)).
  - rewrite slice_ok by lia. eexists. split; [done|]. rewrite len_sub by lia. lia.
  - destruct (expand_loop_ok prf k n (Z.to_nat n) [] [0]) as (r & -> & Hr); [rewrite (@len_nil Z); lia|].
    rewrite bind_Ok, slice_ok by lia. eexists. split; [done|]. rewrite len_sub by lia. lia.
Qed.

Lemma v1EncKeySize_nonneg a k : 0 <= v1EncKeySize a k.
Proof. unfold v1EncKeySize. destruct (Z.gtb_spec k 0); [apply Z.div_pos; lia|]. by repeat case_match. Qed.

Lemma block_size_range enc : 0 < block_size enc <= 16.
Proof. by destruct enc as [[]|]. Qed.

Lemma computeV1InitialIV_ok alg ni nr enc : exists iv, computeV1InitialIV alg ni nr enc = Ok iv /\ len iv = block_size enc.
Proof using DL.
  unfold computeV1InitialIV. pose proof (block_size_range enc).
  assert (20 <= len (digest (v1_hash alg) (ni ++ nr))) as Hl by (rewrite len_digest; unfold v1_hash; by destruct (_ =? _)).
  rewrite (proj2 (Z.ltb_ge _ _)), slice_ok by lia. eexists. split; [done|]. rewrite len_sub by lia. lia.
Qed.

Lemma QuickModeIV_ok alg iv m enc :
  exists iv', ComputeV1QuickModeIV alg iv m (block_size enc) = Ok iv' /\ len iv' = block_size enc /\ bytes_wf iv'.
Proof using DL.
  unfold ComputeV1QuickModeIV. pose proof (block_size_range enc).
  assert (20 <= len (digest (v1_hash alg) (iv ++ put32 m))) as Hl by (rewrite len_digest; unfold v1_hash; by destruct (_ =? _)).
  rewrite (proj2 (Z.ltb_ge _ _)), slice_ok by lia. eexists. split; [done|]. rewrite len_sub by lia. split; [lia|].
  apply Forall_sub, digest_wf.
Qed.

Lemma v1_encryptor alg k : exists e, NewIKEEncryptor (v1EncToV2Enc alg) k = Ok e.
Proof. unfold v1EncToV2Enc. destruct (_ =? _); [by eexists|]. destruct (_ =? _); by eexists. Qed.

(** C17: After messages 3 and 4 of Main Mode both sides have the same keys: the initiator, with
    the KE and nonce payloads of the answer, computes the secret and the keys the session
    keeps, the cipher key expanded to the length of the cipher. *)
Theorem MainMode_agreement sess r x xi msg ke nonce prf dh ai :
  s1_State sess = StateV1MainSARecv -> s1_PRF sess = Some prf ->
  find_as as_KEv1 (msg_Payloads msg) = Some ke -> find_as as_NonceV1 (msg_Payloads msg) = Some nonce ->
  NewDHGroup (s1_DHGroupID sess) = Ok dh -> drawable dh xi -> GenerateKeypair dh xi = Ok (ai, ke1_Data ke) -> valid_public dh (ke1_Data ke) ->
  drawable dh x -> (forall a A, GenerateKeypair dh x = Ok (a, A) -> valid_public dh A) ->
  len (s1_CookieI sess) = 8 -> len (s1_CookieR sess) = 8 ->
  exists resp sess' r' A nonceR s k e, HandleMainMode3 x msg (sess, r) = ((sess', r'), Ok resp) /\ s1_State sess' = StateV1MainKERecv /\
    find_as as_KEv1 (msg_Payloads resp) = Some (mkKEv1 A) /\ find_as as_NonceV1 (msg_Payloads resp) = Some (mkNonceV1 nonceR) /\
    ComputeSharedSecret dh ai A = Ok s /\
    DeriveIKEv1Keys prf (s1_PSK sess) s (nonce1_NonceData nonce) nonceR (s1_CookieI sess) (s1_CookieR sess) = Ok k /\
    expandV1EncKey prf (SKEYID_e k) (v1EncKeySize (s1_EncAlg sess) (s1_KeyLength sess)) = Ok e /\ s1_Keys sess' = Some (set_SKEYID_e k e).
Proof using CL DL EL.
  intros Hst Hprf Hke Hn Hdh Hxi Hki Vi Hx Vx H1 H2.
  destruct (GenerateKeypair dh x) as [[a A]|?|] eqn:Hkp; [|destruct (drawable_keypair dh x Hx); congruence..].
  destruct (DH_agreement dh xi x ai (ke1_Data ke) a A Hxi Hx Hki Hkp Vi (Vx _ _ eq_refl)) as (s & S1 & S2 & Hne).
  set (nonceR := (rand_Read r 32).1).
  pose proof (DeriveIKEv1Keys_correct prf (s1_PSK sess) s (nonce1_NonceData nonce) nonceR _ _ Hne H1 H2) as Hk. cbv zeta in Hk.
  match type of Hk with _ = Ok ?m => set (k := m) in * end.
  destruct (expandV1EncKey_ok prf (SKEYID_e k) (v1EncKeySize (s1_EncAlg sess) (s1_KeyLength sess)) (v1EncKeySize_nonneg _ _)) as (e & He & _).
  destruct (v1_encryptor (s1_EncAlg sess) (s1_KeyLength sess)) as [enc Henc].
  destruct (computeV1InitialIV_ok (s1_HashAlg sess) (nonce1_NonceData nonce) nonceR (s1_Encryptor sess)) as (iv0 & Hiv0 & _).
  destruct (computeV1InitialIV_ok (s1_HashAlg sess) (nonce1_NonceData nonce) nonceR (Some enc)) as (iv1 & Hiv1 & _).
  unfold HandleMainMode3. erewrite exch_bind_Ok; [|reflexivity]. cbn [fst]. rewrite bool_decide_eq_false_2 by auto. rewrite Hke, Hn.
  do 2 (erewrite exch_bind_Ok; [|reflexivity]). cbn [fst snd]. set (s1 := set_s1_NonceI _ _).
  change (s1_DHGroupID s1) with (s1_DHGroupID sess). run Hdh. rewrite Hkp. do 2 (erewrite exch_bind_Ok; [|reflexivity]). cbn [fst snd].
  set (s2 := set_s1_DHPubKey _ _). change (s1_DHPrivKey s2) with a. change (s1_PeerDHPubKey s2) with (ke1_Data ke). rewrite S2.
  erewrite exch_bind_Ok; [|reflexivity]. erewrite exch_bind_Ok; [|reflexivity]. erewrite exch_bind_Ok; [|reflexivity]. cbn [fst snd].
  match goal with |- context [set_s1_NonceR ?a ?b] => set (s3 := set_s1_NonceR a b) end.
  change (s1_PRF s3) with (s1_PRF sess). rewrite Hprf. erewrite exch_bind_Ok; [|reflexivity].
  change (DeriveIKEv1Keys prf (s1_PSK s3) _ _ _ _ _) with
    (DeriveIKEv1Keys prf (s1_PSK sess) s (nonce1_NonceData nonce) nonceR (s1_CookieI sess) (s1_CookieR sess)). rewrite Hk.
  do 2 (erewrite exch_bind_Ok; [|reflexivity]). cbn [fst snd].
  match goal with |- context [computeV1InitialIV (s1_HashAlg ?s4) _ _ _] => change (computeV1InitialIV (s1_HashAlg s4) _ _ _) with
    (computeV1InitialIV (s1_HashAlg sess) (nonce1_NonceData nonce) nonceR (s1_Encryptor sess)) end. run Hiv0.
  erewrite exch_bind_Ok; [|reflexivity]. cbv zeta. cbn [fst snd].
  match goal with |- context [NewIKEEncryptor ?a ?b] => change (NewIKEEncryptor a b) with (NewIKEEncryptor (v1EncToV2Enc (s1_EncAlg sess)) (s1_KeyLength sess)) end.
  rewrite Henc. erewrite exch_bind_Ok; [|reflexivity]. erewrite exch_bind_Ok; [|reflexivity].
  match goal with |- context [v1EncKeySize ?a ?b] => change (v1EncKeySize a b) with (v1EncKeySize (s1_EncAlg sess) (s1_KeyLength sess)) end.
  run He. do 2 (erewrite exch_bind_Ok; [|reflexivity]). cbn [fst snd].
  match goal with |- context [computeV1InitialIV ?a ?b ?c ?d] => change (computeV1InitialIV a b c d) with
    (computeV1InitialIV (s1_HashAlg sess) (nonce1_NonceData nonce) nonceR (Some enc)) end. run Hiv1.
  do 3 (erewrite exch_bind_Ok; [|reflexivity]). cbn [fst snd].
  eexists _, _, _, A, nonceR, s, k, e. split; [reflexivity|]. by split_and!.
Qed.

(** ** The proof of the shared key *)

(** The chain of message 5 names an identity and proves, with its hash, the keys of the session. *)
Definition proves (sess : IKEv1Session) (chain : PayloadChain) (id : IDv1Payload) : Prop :=
  find_as as_IDv1 chain = Some id /\ exists hash, find_as as_HashV1 chain = Some hash /\
    computeV1Hash sess true id = Ok (hash1_HashData hash).

(** Message 5 establishes the session only from its state, and only for an initiator whose
    message decrypts to an identity and the hash of that identity under the keys.  But an
    unproved message already moves the IV and the identity of the session. *)
Theorem MainMode5_edges h msg s :
  let s' := (HandleMainMode5 h msg s).1 in
  if bool_decide (s1_State s.1 = StateV1MainKERecv) then
    s1_State s'.1 = StateV1MainKERecv \/ s1_State s'.1 = StateV1Established /\
      exists encPayload decrypted first chain id, open_v1 s.1 (s1_CurrentIV s.1) msg = Ok (encPayload, decrypted, first) /\
        ParsePayloadChain decrypted first false = Ok chain /\ proves s.1 chain id /\ s1_PeerID s'.1 = id1_Data id
  else s' = s.
Proof.
  case_bool_decide as Hst.
  2: { unfold HandleMainMode5. erewrite exch_bind_Ok; [|reflexivity]. cbn [fst]. by rewrite bool_decide_eq_true_2 by done. }
  change (wp (HandleMainMode5 h msg) (fun s' _ => s1_State s'.1 = StateV1MainKERecv \/ s1_State s'.1 = StateV1Established /\
    exists encPayload decrypted first chain id, open_v1 s.1 (s1_CurrentIV s.1) msg = Ok (encPayload, decrypted, first) /\
        ParsePayloadChain decrypted first false = Ok chain /\ proves s.1 chain id /\ s1_PeerID s'.1 = id1_Data id) s).
  unfold HandleMainMode5. do 2 wp_step. cbn [fst]. rewrite bool_decide_eq_false_2 by auto. destruct (negb _); [by left|].
  do 2 wp_step. do 2 wp_step. cbn [fst]. destruct (open_v1 s.1 _ msg) as [[[encP decr] first]|?|] eqn:Eo; [|by left..].
  cbv zeta. do 2 wp_step. destruct (last_block _ _ _) as [iv|?|]; [|by left..]. do 2 wp_step. cbn [fst snd].
  do 2 wp_step. destruct (ParsePayloadChain decr first false) as [chain|?|] eqn:Ec; [|by left..].
  destruct (find_as as_IDv1 chain) as [id|] eqn:Eid; [|by left]. destruct (find_as as_HashV1 chain) as [hash|] eqn:Eh; [|by left].
  do 2 wp_step. cbn [fst snd]. do 2 wp_step. cbn [fst snd]. do 2 wp_step. set (s2 := set_s1_PeerID _ _).
  destruct (computeV1Hash s2 true id) as [hi|?|] eqn:Ehi; [|by left..]. rewrite hashEqual_eq. case_bool_decide as Heq; [|by left]. cbn [negb].
  do 2 wp_step. destruct (computeV1Hash s2 false _) as [hr|?|]; [|by left..].
  do 2 wp_step. destruct (MarshalPayloadChain _) as [[b pt]|?|]; [|by left..]. do 2 wp_step. destruct (deref _) as [keys|?|]; [|by left..].
  do 2 wp_step. destruct (deref _) as [enc|?|]; [|by left..]. do 2 wp_step. destruct (EncryptIKEv1Payload _ _ _ _) as [c|?|]; [|by left..].
  do 2 wp_step. destruct (last_block _ _ _) as [iv'|?|]; [|by left..]. do 2 wp_step. cbn [fst snd].
  do 2 wp_step. destruct (encrypted_message _ _ _ _ _) as [resp|?|]; [|by left..]. do 2 wp_step. wp_step. cbn [fst snd].
  right. split; [done|]. eexists _, _, _, chain, id. split; [done|]. split; [done|]. split; [|done]. split; [done|]. exists hash. split; [done|].
  rewrite <- Heq. rewrite <- Ehi. reflexivity.
Qed.

(** The hash that proves an identity: both public values, one's own first, both cookies, the
    cookie of one's own side first, and the body of the ID payload.  RFC 2409 and the comments
    of the code have the SA payload of the initiator (SAi_b) before the identity. *)
Definition v1_proof (prf : hmacPRF) (skeyid gOwn gOther cookieOwn cookieOther : bytes) (id : IDv1Payload) : bytes :=
  PRF_Compute prf skeyid (gOwn ++ gOther ++ cookieOwn ++ cookieOther ++ [id1_IDType id; id1_ProtoDOI id] ++ put16 (id1_Port id) ++ id1_Data id).

Definition v1_proof_I (prf : hmacPRF) (skeyid : bytes) (sess : IKEv1Session) (id : IDv1Payload) : bytes :=
  v1_proof prf skeyid (s1_PeerDHPubKey sess) (s1_DHPubKey sess) (s1_CookieI sess) (s1_CookieR sess) id.
Definition v1_proof_R (prf : hmacPRF) (skeyid : bytes) (sess : IKEv1Session) (id : IDv1Payload) : bytes :=
  v1_proof prf skeyid (s1_DHPubKey sess) (s1_PeerDHPubKey sess) (s1_CookieR sess) (s1_CookieI sess) id.

Lemma v1_proof_wf prf skeyid a b c d id : bytes_wf (v1_proof prf skeyid a b c d id) /\ 20 <= len (v1_proof prf skeyid a b c d id) <= 64.
Proof using CL.
  unfold v1_proof, PRF_Compute. split; [apply EspCipher.Cipher.hmac_wf|]. rewrite EspCipher.Cipher.len_hmac. destruct (prf_hashFunc prf); cbn; lia.
Qed.

Lemma computeV1Hash_proof sess b id prf keys : s1_PRF sess = Some prf -> s1_Keys sess = Some keys ->
  computeV1Hash sess b id = Ok (if b then v1_proof_I prf (SKEYID keys) sess id else v1_proof_R prf (SKEYID keys) sess id).
Proof.
  intros Hp Hk. unfold computeV1Hash, id_body_of. cbn [Payload_Marshal]. rewrite IDv1Payload_Marshal_body, bind_Ok.
  pose proof (len_payload_bytes 0 (id1_body id)) as Hl. assert (4 <= len (id1_body id)) by (unfold id1_body; len_norm; pose proof (len_nonneg (id1_Data id)); lia).
  unfold PayloadHeaderLen. rewrite (proj2 (Z.gtb_lt _ _)) by lia. unfold payload_bytes.
  rewrite !slice_cons, slice_skip, slice_whole, bind_Ok by (len_norm; lia). rewrite Hp, Hk. cbn [deref]. rewrite !bind_Ok.
  unfold v1_proof_I, v1_proof_R, v1_proof, id1_body. by destruct b; rewrite <- !app_assoc.
Qed.

(** The last block of a ciphertext. *)
Definition tail_block (c : bytes) : bytes := sub c (len c - 16) (len c).

Lemma tail_block_ok c : 16 <= len c -> bytes_wf c -> len (tail_block c) = 16 /\ bytes_wf (tail_block c).
Proof. intros Hl Hw. unfold tail_block. split; [rewrite len_sub; lia|]. unfold sub. by apply Forall_take, Forall_drop. Qed.

Lemma ParseV1_bytes l : Forall (payload_ok false) l -> ParsePayloadChain (chain_bytes l) (Msg.first_type l) false = Ok (parsed_chain l).
Proof.
  intros Hl. unfold ParsePayloadChain. pose proof (chain_bytes_length l).
  rewrite <- (app_nil_l (chain_bytes l)) at 2. apply (parse_chain_bytes false l Hl); [done|lia].
Qed.

Lemma content_of l : Forall (payload_ok false) l -> Forall (content_ok false) l.
Proof. intros H. eapply Forall_impl; [exact H|by intros ? []]. Qed.

Lemma last_block_ok iv c : 16 <= len c -> last_block iv c 16 = Ok (tail_block c).
Proof.
  intros Hl. unfold last_block. rewrite Z.geb_leb, (proj2 (Z.leb_le 16 _)), slice_ok, bind_Ok by lia. fold (tail_block c).
  assert (len (tail_block c) = 16) as Ht by (unfold tail_block; rewrite len_sub; lia).
  rewrite (fill_start 16), fill_copy by (rewrite ?Ht; done). by rewrite Ht, make_0, app_nil_r.
Qed.

Lemma encrypted_message_ok sess np exch msgID c :
  List.length (s1_CookieI sess) = 8%nat -> List.length (s1_CookieR sess) = 8%nat -> bytes_wf (s1_CookieI sess) -> bytes_wf (s1_CookieR sess) ->
  is_u8 np -> is_u8 exch -> is_u32 msgID ->
  let hdr := v1_header sess np exch FlagV1Encryption msgID (u32 (HeaderLen + len c)) in
  encrypted_message sess np exch msgID c = Ok (mkMessage hdr [] (header_bytes hdr ++ c)) /\ header_ok hdr.
Proof.
  intros L1 L2 W1 W2 Hn He Hm hdr. assert (header_ok hdr) as Hh by (constructor; cbn; try done; apply u32_range).
  pose proof (len_header_bytes hdr Hh) as Lh. pose proof (len_nonneg c). split; [|done]. unfold encrypted_message. fold hdr.
  rewrite Marshal_make, bind_Ok by (done || lia). replace (HeaderLen + len c - HeaderLen) with (len c) by lia. rewrite <- Lh at 1.
  rewrite fill_copy by lia. by rewrite Z.sub_diag, make_0, app_nil_r, bind_Ok by lia.
Qed.

(** The chain that proves an identity. *)
Definition proof_chain (id : IDv1Payload) (hash : bytes) : list Payload := [PIDv1 id; PHashV1 (mkHashV1 hash)].

Lemma proof_chain_ok id hash :
  payload_ok false (PIDv1 id) -> bytes_wf hash -> len hash <= 64 ->
  Forall (payload_ok false) (proof_chain id hash) /\ bytes_wf (chain_bytes (proof_chain id hash)).
Proof.
  intros [[_ Hid] Hl] Hw Hh. split.
  - constructor; [by split|]. constructor; [|constructor]. split; [done|]. cbn [payload_body hash1_HashData]. lia.
  - destruct Hid as (? & ? & ? & ?). cbn [chain_bytes proof_chain payload_body Payload_Type hash1_HashData]. unfold payload_bytes, id1_body. wf_bytes; done.
Qed.

(** An encrypted message is opened with the type its header names. *)
Lemma open_v1_ok sess iv hdr p c keys enc :
  s1_Keys sess = Some keys -> s1_Encryptor sess = Some enc -> header_ok hdr ->
  Decrypt enc (SKEYID_e keys) iv c [] = Ok p ->
  open_v1 sess iv (mkMessage hdr [] (header_bytes hdr ++ c)) = Ok (c, p, NextPayload hdr).
Proof.
  intros Hk He Hh Hd. unfold open_v1, Message_Marshal. cbn [msg_RawMessage]. pose proof (len_header_bytes hdr Hh) as Lh. pose proof (len_nonneg c).
  unfold HeaderLen in *. rewrite (proj2 (Z.gtb_lt _ 0)) by (rewrite len_app; lia). rewrite bind_Ok. cbv beta iota.
  rewrite slice_skip by (rewrite ?len_app; lia). rewrite Lh, Z.sub_diag, len_app, Lh, slice_whole by lia.
  rewrite bind_Ok, Hk, He. cbn [deref]. rewrite !bind_Ok. unfold DecryptIKEv1Payload. by rewrite Hd, bind_Ok.
Qed.

(** A session that waits for message 5: the keys are there, and an IV of one block. *)
Record awaits_proof (sess : IKEv1Session) (prf : hmacPRF) (keys : IKEv1KeyMaterial) (k key : Z) : Prop := {
  aw_State : s1_State sess = StateV1MainKERecv; aw_PRF : s1_PRF sess = Some prf; aw_Keys : s1_Keys sess = Some keys;
  aw_Encryptor : s1_Encryptor sess = Some (aesCBCEncryptor k key); aw_len : aes_key_len (len (SKEYID_e keys));
  aw_IV : len (s1_CurrentIV sess) = 16 /\ bytes_wf (s1_CurrentIV sess);
  aw_CookieI : List.length (s1_CookieI sess) = 8%nat /\ bytes_wf (s1_CookieI sess);
  aw_CookieR : List.length (s1_CookieR sess) = 8%nat /\ bytes_wf (s1_CookieR sess)
}.

(** An identity and a hash, sealed under an IV, are a block at least. *)
Lemma seal_proof k key skeyid_e iv id hash :
  aes_key_len (len skeyid_e) -> len iv = 16 -> bytes_wf iv -> payload_ok false (PIDv1 id) -> bytes_wf hash -> len hash <= 64 ->
  exists c, Encrypt (aesCBCEncryptor k key) skeyid_e iv (chain_bytes (proof_chain id hash)) [] = Ok c /\
    Decrypt (aesCBCEncryptor k key) skeyid_e iv c [] = Ok (chain_bytes (proof_chain id hash)) /\ (16 <= len hash -> 16 <= len c).
Proof using CL.
  intros Hk Hiv Hw Hid Hwh Hl. destruct (proof_chain_ok id hash Hid Hwh Hl) as [_ Wc].
  destruct (Encrypt_ok (aesCBCEncryptor k key) skeyid_e iv (chain_bytes (proof_chain id hash)) []) as (c & E1 & E2 & Hlen); [done..|].
  exists c. split_and!; [done..|]. intros Hh. revert Hlen. unfold proof_chain. cbn [chain_bytes].
  rewrite !len_app, !len_payload_bytes, (@len_nil Z). cbn [payload_body hash1_HashData]. pose proof (len_nonneg (id1_body id)). lia.
Qed.

(** What the responder reads of a message 5. *)
Lemma mm5_received sess prf keys k key hdr id hx c :
  awaits_proof sess prf keys k key -> header_ok hdr -> NextPayload hdr = PayloadIDV1 -> payload_ok false (PIDv1 id) -> bytes_wf hx -> 16 <= len hx <= 64 ->
  Encrypt (aesCBCEncryptor k key) (SKEYID_e keys) (s1_CurrentIV sess) (chain_bytes (proof_chain id hx)) [] = Ok c ->
  open_v1 sess (s1_CurrentIV sess) (mkMessage hdr [] (header_bytes hdr ++ c)) = Ok (c, chain_bytes (proof_chain id hx), PayloadIDV1) /\
  ParsePayloadChain (chain_bytes (proof_chain id hx)) PayloadIDV1 false = Ok (parsed_chain (proof_chain id hx)) /\ 16 <= len c.
Proof using CL.
  intros [] Hh Hnp Hid Hw Hl Hc. destruct aw_IV0 as [Hiv Hwiv].
  destruct (seal_proof k key (SKEYID_e keys) (s1_CurrentIV sess) id hx) as (c0 & E0 & Hdec & Hlen); [done..|lia|].
  rewrite Hc in E0. injection E0 as <-. destruct (proof_chain_ok id hx Hid Hw ltac:(lia)) as [Hsent _]. split_and!.
  - by rewrite (open_v1_ok sess _ hdr (chain_bytes (proof_chain id hx)) c keys (aesCBCEncryptor k key)), Hnp.
  - apply (ParseV1_bytes _ Hsent).
  - apply Hlen. lia.
Qed.

(** C18: Message 5 of Main Mode, from an initiator that sends, encrypted under the IV of the session,
    its identity and any hash.  If the hash is the prf, under SKEYID, of its public value, ours,
    its cookie, ours and the body of its ID payload, the session is established for the
    identity, and the answer decrypts, under the last block the initiator sent, to our identity
    and the hash of ours with the sides swapped.  Any other hash is refused and the session
    stays where it was, with the IV and the identity moved all the same.  RFC 2409 and the
    comments of the code (lines 271, 284 and 347) have the body of the initiator's SA payload
    in both hashes; the code leaves it out, as another comment says (371), so an initiator that
    follows the RFC is refused ([demo_rfc2409_refused]). *)
Theorem MainMode5_completes h sess r hdr id hx prf keys k key c lt :
  awaits_proof sess prf keys k key -> header_ok hdr -> IsEncrypted hdr = true -> NextPayload hdr = PayloadIDV1 ->
  payload_ok false (PIDv1 id) -> bytes_wf hx -> 16 <= len hx <= 64 ->
  let enc := aesCBCEncryptor k key in
  Encrypt enc (SKEYID_e keys) (s1_CurrentIV sess) (chain_bytes [PIDv1 id; PHashV1 (mkHashV1 hx)]) [] = Ok c -> bytes_wf c ->
  lt = mkIDv1 (h1_localIDType h) 0 0 (s1_LocalID sess) -> payload_ok false (PIDv1 lt) ->
  let hi := v1_proof prf (SKEYID keys) (s1_PeerDHPubKey sess) (s1_DHPubKey sess) (s1_CookieI sess) (s1_CookieR sess) id in
  let hr := v1_proof prf (SKEYID keys) (s1_DHPubKey sess) (s1_PeerDHPubKey sess) (s1_CookieR sess) (s1_CookieI sess) lt in
  exists sess' res, HandleMainMode5 h (mkMessage hdr [] (header_bytes hdr ++ c)) (sess, r) = ((sess', r), res) /\ s1_PeerID sess' = id1_Data id /\
    (hx = hi -> s1_State sess' = StateV1Established /\ exists resp c' hdr', res = Ok resp /\ msg_RawMessage resp = header_bytes hdr' ++ c' /\
      Decrypt enc (SKEYID_e keys) (tail_block c) c' [] = Ok (chain_bytes [PIDv1 lt; PHashV1 (mkHashV1 hr)]) /\ s1_CurrentIV sess' = tail_block c') /\
    (hx <> hi -> s1_State sess' = StateV1MainKERecv /\ res = Err "Main Mode msg5: hash verification failed" /\ s1_CurrentIV sess' = tail_block c).
Proof using CL.
  intros Haw Hh Hfl Hnp Hid Hwx Hlx enc Hc Hwc -> Hlt hi hr.
  destruct (mm5_received sess prf keys k key hdr id hx c Haw Hh Hnp Hid Hwx Hlx Hc) as (Hopen & Hparse & Lc).
  destruct Haw as [Hst Hprf Hkeys Henc Hkl [Hiv Hwiv] [L1 W1] [L2 W2]]. pose proof (tail_block_ok c Lc Hwc) as [Lt Wt].
  set (sess1 := set_s1_PeerID (set_s1_CurrentIV sess (tail_block c)) (id1_Data id)). set (lt := mkIDv1 _ 0 0 _) in *.
  unfold HandleMainMode5. erewrite exch_bind_Ok; [|reflexivity]. cbn [fst]. rewrite bool_decide_eq_false_2 by auto. cbn [msg_Header]. rewrite Hfl. cbn [negb].
  erewrite exch_bind_Ok; [|reflexivity]. cbn [fst]. run Hopen. cbv zeta. rewrite Henc. cbn [block_size enc_BlockSize]. change EspCipher.Cipher.aes_BlockSize with 16.
  rewrite last_block_ok by done. do 2 (erewrite exch_bind_Ok; [|reflexivity]). cbn [fst snd].
  run Hparse. cbn [proof_chain parsed_chain find_as foldr pp_Payload as_IDv1 as_HashV1].
  do 2 (erewrite exch_bind_Ok; [|reflexivity]). cbn [fst snd]. fold sess1.
  rewrite (computeV1Hash_proof sess1 true id prf keys Hprf Hkeys). change (v1_proof_I prf (SKEYID keys) sess1 id) with hi.
  erewrite exch_bind_Ok; [|reflexivity]. cbn [hash1_HashData]. rewrite hashEqual_eq. case_bool_decide as Heq; cbn [negb]; cycle 1.
  { exists sess1, (Err "Main Mode msg5: hash verification failed"). split; [done|]. split; [done|]. by split; [intros ->|]. }
  cbv zeta. change (s1_LocalID sess1) with (s1_LocalID sess). fold lt.
  rewrite (computeV1Hash_proof sess1 false lt prf keys Hprf Hkeys). change (v1_proof_R prf (SKEYID keys) sess1 lt) with hr.
  destruct (v1_proof_wf prf (SKEYID keys) (s1_DHPubKey sess) (s1_PeerDHPubKey sess) (s1_CookieR sess) (s1_CookieI sess) lt) as [Whr Lhr]. fold hr in Whr, Lhr.
  destruct (seal_proof k key (SKEYID_e keys) (tail_block c) lt hr) as (c' & E2 & Hdec' & Lc'); [done..|lia|]. specialize (Lc' ltac:(lia)). fold enc in E2, Hdec'.
  destruct (proof_chain_ok lt hr Hlt Whr ltac:(lia)) as [Hresp _].
  pose proof (MarshalPayloadChain_bytes false (proof_chain lt hr) (content_of _ Hresp)) as Hmarsh. erewrite exch_bind_Ok; [|reflexivity].
  unfold proof_chain in Hmarsh at 1. run Hmarsh.
  change (s1_Keys sess1) with (s1_Keys sess). change (s1_Encryptor sess1) with (s1_Encryptor sess). rewrite Hkeys, Henc.
  do 2 (erewrite exch_bind_Ok; [|reflexivity]). unfold EncryptIKEv1Payload. change (s1_CurrentIV sess1) with (tail_block c). fold enc. run E2.
  rewrite last_block_ok by done. do 2 (erewrite exch_bind_Ok; [|reflexivity]). cbn [fst snd]. set (sess2 := set_s1_CurrentIV sess1 (tail_block c')).
  destruct (encrypted_message_ok sess2 PayloadIDV1 ExchangeIdentityProtect 0 c') as [Hm _]; try done. set (hdr' := v1_header sess2 _ _ _ _ _) in Hm.
  change (encrypted_message sess1) with (encrypted_message sess2). change (Msg.first_type (proof_chain lt hr)) with PayloadIDV1. run Hm.
  eexists (set_s1_State sess2 StateV1Established), (Ok (mkMessage hdr' [] (header_bytes hdr' ++ c'))). split; [erewrite exch_bind_Ok; reflexivity|].
  split; [done|]. split; [|by intros Hne; destruct Hne]. intros _. split; [done|]. by eexists _, c', hdr'.
Qed.

(** ** Encrypted messages of a keyed session *)

(** A session with the keys and the cipher of phase 1. *)
Record keyed (sess : IKEv1Session) (prf : hmacPRF) (keys : IKEv1KeyMaterial) (k key : Z) : Prop := {
  keyed_PRF : s1_PRF sess = Some prf;
  keyed_Keys : s1_Keys sess = Some keys;
  keyed_Encryptor : s1_Encryptor sess = Some (aesCBCEncryptor k key);
  keyed_len : aes_key_len (len (SKEYID_e keys));
  keyed_CookieI : List.length (s1_CookieI sess) = 8%nat /\ bytes_wf (s1_CookieI sess);
  keyed_CookieR : List.length (s1_CookieR sess) = 8%nat /\ bytes_wf (s1_CookieR sess)
}.

(** The message is a header and the payloads, encrypted under the IV. *)
Definition carries (sess : IKEv1Session) (keys : IKEv1KeyMaterial) (k key : Z) (iv : bytes) (exch msgID : Z) (resp : Message) (l : list Payload) : Prop :=
  exists c, let hdr := v1_header sess (Msg.first_type l) exch FlagV1Encryption msgID (u32 (HeaderLen + len c)) in
    resp = mkMessage hdr [] (header_bytes hdr ++ c) /\ header_ok hdr /\ Decrypt (aesCBCEncryptor k key) (SKEYID_e keys) iv c [] = Ok (chain_bytes l).

(** Payloads that fit are sealed. *)
Lemma seal_v1 sess prf keys k key iv exch msgID l :
  keyed sess prf keys k key -> len iv = 16 -> bytes_wf iv -> is_u8 exch -> is_u32 msgID -> Forall (payload_ok false) l -> bytes_wf (chain_bytes l) ->
  exists c resp, MarshalPayloadChain l = Ok (chain_bytes l, Msg.first_type l) /\
    EncryptIKEv1Payload (aesCBCEncryptor k key) (SKEYID_e keys) iv (chain_bytes l) = Ok c /\
    encrypted_message sess (Msg.first_type l) exch msgID c = Ok resp /\ carries sess keys k key iv exch msgID resp l.
Proof using CL.
  intros [Hp Hk He Hl [L1 W1] [L2 W2]] Hiv Hw Hx Hm Hok Hwl.
  destruct (Encrypt_ok (aesCBCEncryptor k key) (SKEYID_e keys) iv (chain_bytes l) []) as (c & E1 & Hd & _); [done..|].
  assert (is_u8 (Msg.first_type l)) as Ht.
  { destruct l as [|p l]; [by unfold is_u8|]. apply Forall_cons in Hok as [[Hc _] _]. by eapply Payload_Type_ok. }
  destruct (encrypted_message_ok sess (Msg.first_type l) exch msgID c) as [Hmsg Hh]; [done..|].
  eexists c, _. split; [by apply (MarshalPayloadChain_bytes false), content_of|]. split; [exact E1|]. split; [exact Hmsg|].
  exists c. by split_and!.
Qed.

End theorems.

(** ** Examples *)

Import EspCipher.Cipher.Toy.

Definition demo_v1_keys : IKEv1KeyMaterial := mkKeys1 (replicate 32 1) (replicate 32 2) (replicate 32 3) (replicate 32 4).
Definition demo_v1_session (state : IKEv1State) : IKEv1Session :=
  mkSess1 (replicate 8 1) (replicate 8 2) state V1EncrAES_CBC V1HashSHA256 V1AuthPreSharedKey DHGroup20 256 [3] [3] [1; 2] [9] [5] [6]
    (Some demo_v1_keys) (Some (mkPRF PRFHMAC_SHA256 EspCipher.Cipher.SHA256 32 32)) (Some (aesCBCEncryptor EncrAES_CBC 32)) (replicate 16 7)
    (Some (mkUDPAddr [192; 0; 2; 1] 500)) [] (bytes_of_string "gw") (bytes_of_string "psk") [] false [] 0 [].
Definition demo_v1_handler : IKEv1Handler := NewIKEv1Handler (fun _ => Some (bytes_of_string "psk", [])) None (bytes_of_string "gw") IDFQDN.

Lemma MainMode_agreement_witness :
  exists resp sess' r', HandleMainMode3 (PrivKey [3]) (mkMessage (v1_header (demo_v1_session StateV1MainSARecv) PayloadKEV1 2 0 0 0)
    [unsent1 (PKEv1 (mkKEv1 [1; 2])); unsent1 (PNonceV1 (mkNonceV1 [5]))] []) (demo_v1_session StateV1MainSARecv, demo_rng) =
    ((sess', r'), Ok resp) /\ s1_State sess' = StateV1MainKERecv.
Proof.
  edestruct (MainMode_agreement (demo_v1_session StateV1MainSARecv) demo_rng (PrivKey [3]) (PrivKey [1; 2])
    (mkMessage (v1_header (demo_v1_session StateV1MainSARecv) PayloadKEV1 2 0 0 0) [unsent1 (PKEv1 (mkKEv1 [1; 2])); unsent1 (PNonceV1 (mkNonceV1 [5]))] [])
    (mkKEv1 [1; 2]) (mkNonceV1 [5]) (mkPRF PRFHMAC_SHA256 EspCipher.Cipher.SHA256 32 32) (ecpGroup DHGroup20 384) [1; 2])
    as (resp & sess' & r' & A & nr & s & k & e & H1 & H2 & _); try reflexivity; try exact I.
  exists resp, sess', r'. split; [exact H1|exact H2].
Defined.

(** Message 5 of a peer named ab. *)
Definition demo_peer_id : IDv1Payload := mkIDv1 IDFQDN 0 0 [97; 98].
Definition demo_prf : hmacPRF := mkPRF PRFHMAC_SHA256 EspCipher.Cipher.SHA256 32 32.
Definition demo_hash_i : bytes := v1_proof_I demo_prf (SKEYID demo_v1_keys) (demo_v1_session StateV1MainKERecv) demo_peer_id.
Definition demo_seal (hash : bytes) : bytes :=
  match Encrypt (aesCBCEncryptor EncrAES_CBC 32) (replicate 32 4) (replicate 16 7) (chain_bytes (proof_chain demo_peer_id hash)) [] with
  | Ok c => c | _ => [] end.
Definition demo_cipher : bytes := demo_seal demo_hash_i.
Definition demo_v1_hdr : Header := v1_header (demo_v1_session StateV1MainKERecv) PayloadIDV1 ExchangeIdentityProtect FlagV1Encryption 0 100.
Definition demo_message5 (hash : bytes) : st1 * res Message :=
  HandleMainMode5 demo_v1_handler (mkMessage demo_v1_hdr [] (header_bytes demo_v1_hdr ++ demo_seal hash)) (demo_v1_session StateV1MainKERecv, demo_rng).

(** The hash of RFC 2409, 5.1, with the body of the SA payload before the identity. *)
Definition demo_rfc2409_hash (sai_b : bytes) : bytes :=
  let sess := demo_v1_session StateV1MainKERecv in
  PRF_Compute demo_prf (SKEYID demo_v1_keys) (s1_PeerDHPubKey sess ++ s1_DHPubKey sess ++ s1_CookieI sess ++ s1_CookieR sess ++ sai_b ++ id1_body demo_peer_id).

Example demo_rfc2409_refused :
  (demo_message5 (demo_rfc2409_hash [0; 0; 0; 1; 0; 0; 0; 1])).2 = Err "Main Mode msg5: hash verification failed" /\
  s1_State (demo_message5 (demo_rfc2409_hash [])).1.1 = StateV1Established.
Proof. vm_compute. by split. Qed.

Lemma MainMode5_completes_witness :
  exists resp, (demo_message5 demo_hash_i).2 = Ok resp /\ s1_State (demo_message5 demo_hash_i).1.1 = StateV1Established /\
    s1_PeerID (demo_message5 demo_hash_i).1.1 = [97; 98].
Proof.
  edestruct (MainMode5_completes demo_v1_handler (demo_v1_session StateV1MainKERecv) demo_rng demo_v1_hdr demo_peer_id demo_hash_i
    demo_prf demo_v1_keys EncrAES_CBC 32 demo_cipher (mkIDv1 IDFQDN 0 0 (bytes_of_string "gw")))
    as (sess' & res & H1 & H2 & H3 & _); try (vm_compute; reflexivity); try (apply (bool_decide_unpack _); vm_compute; exact I).
  - split; try reflexivity; apply (bool_decide_unpack _); vm_compute; exact I.
  - constructor; apply (bool_decide_unpack _); vm_compute; exact I.
  - destruct (H3 eq_refl) as (H4 & resp & c' & hdr' & -> & _). unfold demo_message5.
    change (demo_seal demo_hash_i) with demo_cipher. rewrite H1. exists resp. split; [reflexivity|]. split; [exact H4|exact H2].
Defined.

End Main1.
