(* ===== verification/IkeV1Aggr.v ===== *)
(** * IkeV1Aggr: Aggressive Mode and Mode Config ([internal/ike/ikev1_aggr.go])

    Aggressive Mode makes a session from one message and establishes it with the next.
    Mode Config answers an encrypted request for an address; it changes nothing. *)

From S2P Require Import Prelude Wire Net Rand EspCipher IkeHeader.
From S2P Require Import IkePayload IkeSA IkeV2 IkeV1 IkeMessage IkeTotal IkeProposal.
From S2P Require Import IkeCrypto IkeKeys IkeSession IkeSK Exch IkeExchange IkeV2Auth IkeV1Main.

Module Aggr1.
Import Hdr Pl Attr SA V2 V1 Msg Nego Crypto Keys Sess SK Main1.

Definition ModeConfigRequest : Z := 1.
Definition ModeConfigReply : Z := 2.
Definition ModeConfigSet : Z := 3.
Definition ModeConfigAck : Z := 4.

Definition MCAttrInternalIP4 : Z := 1.
Definition MCAttrInternalIP4Mask : Z := 2.
Definition MCAttrInternalIP4DNS : Z := 3.
Definition MCAttrInternalIP4NBNS : Z := 4.
Definition MCAttrAppVersion : Z := 7.
Definition MCAttrInternalIP4Sub : Z := 13.

Section handlers.
Context {C : EspCipher.Cipher.Crypto} {D : Digests} {E : ECDH}.

(** The session as it is created, before its IV. *)
Definition aggr_session (h : IKEv1Handler) (msg : Message) (peerAddr : option UDPAddr) (matched : V1Phase1Config) (cookieR psk connName : bytes)
    (prf : hmacPRF) (privKey pubKey peerPub shared ni nr : bytes) (keys : IKEv1KeyMaterial) (enc : IKEEncryptor) (iv peerID : bytes) : IKEv1Session :=
  mkSess1 (InitiatorSPI (msg_Header msg)) cookieR StateV1AggrRecv (v1_EncAlg matched) (v1_HashAlg matched) (v1_AuthMethod matched)
    (v1_DHGroup matched) (v1_KeyLength matched) privKey pubKey peerPub shared ni nr (Some keys) (Some prf) (Some enc) iv peerAddr peerID
    (h1_localID h) psk connName false [] 0 [].

Definition HandleAggressive1 (h : IKEv1Handler) (x : secret) (msg : Message) (peerAddr : option UDPAddr) (r : rng) :
    res (Message * IKEv1Session * rng) :=
  match find_as as_SAv1 (msg_Payloads msg), find_as as_KEv1 (msg_Payloads msg), find_as as_NonceV1 (msg_Payloads msg),
    find_as as_IDv1 (msg_Payloads msg) with
  | None, _, _, _ => Err "Aggressive msg1: missing SA payload"
  | _, None, _, _ => Err "Aggressive msg1: missing KE payload"
  | _, _, None, _ => Err "Aggressive msg1: missing Nonce payload"
  | _, _, _, None => Err "Aggressive msg1: missing ID payload"
  | Some saPayload, Some kePayload, Some noncePayload, Some idPayload =>
    '(matched, _, matchedXf) ← SelectV1Proposal (Some saPayload) (supportedP1 h);
    match h1_getConnPSK h peerAddr with
    | None => Err "Aggressive msg1: no PSK"
    | Some (psk, connName) =>
      let '(cookieR, r) := rand_Read r 8 in
      prf ← NewPRF (v1HashToPRF (v1_HashAlg matched));
      dh ← NewDHGroup (v1_DHGroup matched);
      '(privKey, pubKey) ← GenerateKeypair dh x;
      shared ← ComputeSharedSecret dh privKey (ke1_Data kePayload);
      '(nr, r) ← GenerateNonce 32 r;
      keys ← DeriveIKEv1Keys prf psk shared (nonce1_NonceData noncePayload) nr (InitiatorSPI (msg_Header msg)) cookieR;
      enc ← NewIKEEncryptor (v1EncToV2Enc (v1_EncAlg matched)) (v1_KeyLength matched);
      let encrKeyLen := v1EncKeySize (v1_EncAlg matched) (v1_KeyLength matched) in
      skeyidE ← expandV1EncKey prf (SKEYID_e keys) encrKeyLen;
      let keys := set_SKEYID_e keys skeyidE in
      iv ← computeV1InitialIV (v1_HashAlg matched) (nonce1_NonceData noncePayload) nr (Some enc);
      let sess := aggr_session h msg peerAddr matched cookieR psk connName prf privKey pubKey (ke1_Data kePayload) shared
        (nonce1_NonceData noncePayload) nr keys enc iv (id1_Data idPayload) in
      let localIDPayload := mkIDv1 (h1_localIDType h) 0 0 (h1_localID h) in
      hashR ← computeV1Hash sess false localIDPayload;
      let resp := mkMessage (v1_header sess PayloadNone ExchangeAggressive 0 0 0)
        (unsent1 <$> [PSAv1 (phase1_answer matchedXf); PKEv1 (mkKEv1 pubKey); PNonceV1 (mkNonceV1 nr); PIDv1 localIDPayload; PHashV1 (mkHashV1 hashR)]) [] in
      Ok (resp, sess, r)
    end
  end.

Definition HandleAggressive3 (msg : Message) : exch st1 unit :=
  state ← on_session s1_State;
  if bool_decide (state <> StateV1AggrRecv) then fail "Aggressive msg3: unexpected state" else
  match find_as as_HashV1 (msg_Payloads msg) with
  | None => fail "Aggressive msg3: missing Hash payload"
  | Some hashPayload =>
    sess ← on_session (fun s => s);
    let peerIDPayload := mkIDv1 IDIPv4Addr 0 0 (s1_PeerID sess) in
    expectedHash ← lift (computeV1Hash sess true peerIDPayload);
    if negb (hashEqual expectedHash (hash1_HashData hashPayload)) then fail "Aggressive msg3: HASH_I verification failed"
    else assign (fun s => set_s1_State s StateV1Established)
  end.

(** ** Mode Config *)

(** The last raw payload of type 14 that has a header. *)
Fixpoint find_config (chain : PayloadChain) (configReq : option ModeConfigPayload) : res (option ModeConfigPayload) :=
  match chain with
  | [] => Ok configReq
  | pp :: chain =>
    match pp_Payload pp with
    | PRaw raw =>
      if (raw_PayloadType raw =? 14) && (4 <=? len (raw_Data raw)) then
        t ← idx (raw_Data raw) 0;
        i2 ← idx (raw_Data raw) 2;
        i3 ← idx (raw_Data raw) 3;
        rest ← slice (raw_Data raw) 4 (len (raw_Data raw));
        attrs ← ParseISAKMPAttributes rest;
        find_config chain (Some (mkModeConfig t (Z.lor (u16 (Z.shiftl i2 8)) i3) attrs))
      else find_config chain configReq
    | _ => find_config chain configReq
    end
  end.

Definition default_dns4 : list bytes := [[1; 1; 1; 1]; [1; 0; 0; 1]].

(** The attributes of the reply; a nil mask is an empty value. *)
Definition config_reply (ident : Z) (ip : bytes) (mask : option bytes) (dnsServers : list bytes) : ModeConfigPayload :=
  let dnsServers := if len dnsServers =? 0 then default_dns4 else dnsServers in
  mkModeConfig ModeConfigReply ident
    (mkAttr MCAttrInternalIP4 false (default [] (To4 ip)) :: mkAttr MCAttrInternalIP4Mask false (default [] mask) ::
     ((fun dns => mkAttr MCAttrInternalIP4DNS false (default [] (To4 dns))) <$> dnsServers)).

(** Calling a nil [assignIP] panics. *)
Definition HandleModeConfig (sess : IKEv1Session) (msg : Message) (assignIP : Auth.AssignIP) (dnsServers : list bytes) : res Message :=
  if bool_decide (s1_State sess <> StateV1Established) then Err "Mode Config: Phase 1 not established" else
  let msgID := MessageID (msg_Header msg) in
  let blockSize := block_size (s1_Encryptor sess) in
  qmIV ← ComputeV1QuickModeIV (s1_HashAlg sess) (s1_CurrentIV sess) msgID blockSize;
  '(encPayload, decrypted, first) ← open_v1 sess qmIV msg;
  qmIV ← last_block qmIV encPayload blockSize;
  chain ← ParsePayloadChain decrypted first false;
  configReq ← find_config chain None;
  match configReq with
  | None => Err "Mode Config: not a config request"
  | Some configReq =>
    if negb (mc_ConfigType configReq =? ModeConfigRequest) then Err "Mode Config: not a config request"
    else
      match assignIP with
      | None => Panic
      | Some None => Err "Mode Config: IPAM"
      | Some (Some (ip, mask)) =>
        let configReply := config_reply (mc_Identifier configReq) ip mask dnsServers in
        cfgBytes ← ModeConfigPayload_Marshal configReply;
        prf ← deref (s1_PRF sess);
        keys ← deref (s1_Keys sess);
        let respHash := PRF_Compute prf (SKEYID_a keys) (put32 msgID ++ cfgBytes) in
        '(respPayloadBytes, firstPT) ← MarshalPayloadChain [PHashV1 (mkHashV1 respHash); PModeConfig configReply];
        enc ← deref (s1_Encryptor sess);
        encResp ← EncryptIKEv1Payload enc (SKEYID_e keys) qmIV respPayloadBytes;
        encrypted_message sess firstPT ExchangeInformationalV1 msgID encResp
      end
  end.

End handlers.

End Aggr1.
