(* ===== verification/IkeV1Quick.v ===== *)
(** * IkeV1Quick: Quick Mode ([internal/ike/ikev1_quick.go])

    Message 1 of Quick Mode proves itself with HASH(1) and makes a child SA; message 3 is
    accepted as it is. *)

From S2P Require Import Prelude Wire Net Rand EspCipher IkeHeader.
From S2P Require Import IkePayload IkeSA IkeV2 IkeV1 IkeMessage IkeTotal IkeProposal.
From S2P Require Import IkeCrypto IkeKeys IkeSession IkeSK Exch IkeExchange IkeV1Main.

Module Quick1.
Import Hdr Pl Attr SA V2 V1 Msg Nego Crypto Keys Sess SK Main1.

Definition V1ESPTransformDES : Z := 2.
Definition V1ESPTransform3DES : Z := 3.
Definition V1ESPTransformAES : Z := 12.
Definition V1P2AttrAuthAlg : Z := 5.
Definition V1P2AttrKeyLength : Z := 6.
Definition V1IPsecAuthHMAC_MD5 : Z := 1.
Definition V1IPsecAuthHMAC_SHA1 : Z := 2.
Definition V1IPsecAuthHMAC_SHA256 : Z := 5.

(** The attributes are folded: the last one of a type that counts decides. *)
Definition aes_key_attr (encrKeyLen : Z) (attr : ISAKMPAttribute) : Z :=
  if at_Type attr =? V1P2AttrKeyLength then
    let kl := attrToUint16 attr in
    if kl >? 0 then kl / 8 else encrKeyLen
  else encrKeyLen.

Definition auth_attr (integKeyLen : Z) (attr : ISAKMPAttribute) : Z :=
  if at_Type attr =? V1P2AttrAuthAlg then
    let v := attrToUint16 attr in
    if v =? V1IPsecAuthHMAC_SHA256 then 32
    else if v =? V1IPsecAuthHMAC_SHA1 then 20
    else if v =? V1IPsecAuthHMAC_MD5 then 16
    else integKeyLen
  else integKeyLen.

Definition extractV1ChildKeyLens (transforms : list TransformV1Payload) : Z * Z :=
  match transforms with
  | [] => (16, 12)
  | xf :: _ =>
    let encrKeyLen :=
      if t1_TransformID xf =? V1ESPTransformAES then foldl aes_key_attr 16 (t1_Attributes xf)
      else if t1_TransformID xf =? V1ESPTransform3DES then 24
      else if t1_TransformID xf =? V1ESPTransformDES then 8
      else 16 in
    let integKeyLen := foldl auth_attr 12 (t1_Attributes xf) in
    (encrKeyLen, integKeyLen)
  end.

(** Our keys first, then the peer's. *)
Definition cut_child1 (keymat : bytes) (childEncrKeyLen childIntegKeyLen : Z) : res (bytes * bytes * bytes * bytes) :=
  let offset := 0 in
  encrKey ← slice keymat offset (offset + childEncrKeyLen);
  let offset := offset + childEncrKeyLen in
  integKey ← slice keymat offset (offset + childIntegKeyLen);
  let offset := offset + childIntegKeyLen in
  peerEncrKey ← slice keymat offset (offset + childEncrKeyLen);
  let offset := offset + childEncrKeyLen in
  peerIntegKey ← slice keymat offset (offset + childIntegKeyLen);
  Ok (cloneSlice encrKey, cloneSlice integKey, cloneSlice peerEncrKey, cloneSlice peerIntegKey).

Definition append_child1 (sess : IKEv1Session) (c : IKEv1ChildSA) : IKEv1Session := set_s1_ChildSAs sess (s1_ChildSAs sess ++ [c]).

Section handlers.
Context {C : EspCipher.Cipher.Crypto} {D : Digests}.

(** HASH(1), over the SA and the nonce as they are marshalled again. *)
Definition hash_1 (sess : IKEv1Session) (msgID : Z) (saPayload : SAv1Payload) (noncePayload : NonceV1Payload) : res bytes :=
  saBytes ← SAv1Payload_Marshal saPayload;
  nonceBytes ← NonceV1Payload_Marshal noncePayload;
  prf ← deref (s1_PRF sess);
  keys ← deref (s1_Keys sess);
  Ok (PRF_Compute prf (SKEYID_a keys) (put32 msgID ++ saBytes ++ nonceBytes)).

(** The child SA of a Quick Mode exchange. *)
Definition derive_child1 (sess : IKEv1Session) (msgID : Z) (inSPI outSPI ni nr : bytes) (transforms : list TransformV1Payload) : res IKEv1ChildSA :=
  let '(childEncrKeyLen, childIntegKeyLen) := extractV1ChildKeyLens transforms in
  let neededBytes := (childEncrKeyLen + childIntegKeyLen) * 2 in
  prf ← deref (s1_PRF sess);
  keys ← deref (s1_Keys sess);
  keymat ← DeriveIKEv1QuickModeKeys prf (SKEYID_d keys) (u8 ProtocolESP) outSPI ni nr [] neededBytes;
  '(encrKey, integKey, peerEncrKey, peerIntegKey) ← cut_child1 keymat childEncrKeyLen childIntegKeyLen;
  Ok (mkChild1 msgID inSPI outSPI encrKey integKey peerEncrKey peerIntegKey 0 0 0).

(** From HASH(1) on. *)
Definition answer_quick (msgID : Z) (qmIV : bytes) (saPayload : SAv1Payload) (ni : bytes) : exch st1 Message :=
  nr ← drawn (GenerateNonce 32);
  inSPI ← drawn (fun r => Ok (rand_Read r 4));
  sess ← on_session (fun s => s);
  let outSPI := match sa1_Proposals saPayload with
    | p :: _ => if 4 <=? len (p1_SPI p) then take 4 (p1_SPI p) else make 4
    | [] => make 4
    end in
  first ← lift (idx (sa1_Proposals saPayload) 0);
  let respSA := mkSAv1 DOIIPsec SituationIdentityOnly [mkProposalV1 1 ProtocolESP inSPI (p1_Transforms first)] in
  respSABytes ← lift (SAv1Payload_Marshal respSA);
  prf ← lift (deref (s1_PRF sess));
  keys ← lift (deref (s1_Keys sess));
  let hash2 := PRF_Compute prf (SKEYID_a keys) (put32 msgID ++ ni ++ respSABytes ++ nr) in
  '(respPayloadBytes, firstPT) ← lift (MarshalPayloadChain [PHashV1 (mkHashV1 hash2); PSAv1 respSA; PNonceV1 (mkNonceV1 nr)]);
  enc ← lift (deref (s1_Encryptor sess));
  encResp ← lift (EncryptIKEv1Payload enc (SKEYID_e keys) qmIV respPayloadBytes);
  childSA ← lift (derive_child1 sess msgID inSPI outSPI ni nr (p1_Transforms first));
  _ ← assign (fun s => append_child1 s childSA);
  lift (encrypted_message sess firstPT ExchangeQuickMode msgID encResp).

Definition HandleQuickMode1 (msg : Message) : exch st1 Message :=
  sess ← on_session (fun s => s);
  if bool_decide (s1_State sess <> StateV1Established) then fail "Quick Mode: Phase 1 not established" else
  let msgID := MessageID (msg_Header msg) in
  let blockSize := block_size (s1_Encryptor sess) in
  qmIV ← lift (ComputeV1QuickModeIV (s1_HashAlg sess) (s1_CurrentIV sess) msgID blockSize);
  '(encPayload, decrypted, firstType) ← lift (open_v1 sess qmIV msg);
  qmIV ← lift (last_block qmIV encPayload blockSize);
  chain ← lift (ParsePayloadChain decrypted firstType false);
  match find_as as_HashV1 chain, find_as as_SAv1 chain, find_as as_NonceV1 chain with
  | None, _, _ => fail "Quick Mode msg1: missing Hash payload"
  | _, None, _ => fail "Quick Mode msg1: missing SA payload"
  | _, _, None => fail "Quick Mode msg1: missing Nonce payload"
  | Some hashPayload, Some saPayload, Some noncePayload =>
    expectedHash ← lift (hash_1 sess msgID saPayload noncePayload);
    if negb (hashEqual expectedHash (hash1_HashData hashPayload)) then fail "Quick Mode msg1: HASH(1) verification failed"
    else answer_quick msgID qmIV saPayload (nonce1_NonceData noncePayload)
  end.

(** HASH(3) is not looked at. *)
Definition HandleQuickMode3 (msg : Message) : exch st1 unit := ret tt.

End handlers.

(** ** What makes a child SA *)

(** The SPI the peer announces, zeros if it is too short. *)
Definition announced_spi (saPayload : SAv1Payload) : bytes :=
  match sa1_Proposals saPayload with
  | p :: _ => if 4 <=? len (p1_SPI p) then take 4 (p1_SPI p) else make 4
  | [] => make 4
  end.

Section theorems.
Context {C : EspCipher.Cipher.Crypto} {D : Digests}.

(** The message decrypts, under the keys of the session, to a chain whose HASH(1) covers its SA
    and nonce. *)
Definition offers (sess : IKEv1Session) (msg : Message) (saPayload : SAv1Payload) (nonce : NonceV1Payload) : Prop :=
  exists qmIV encPayload decrypted first chain hash,
    ComputeV1QuickModeIV (s1_HashAlg sess) (s1_CurrentIV sess) (MessageID (msg_Header msg)) (block_size (s1_Encryptor sess)) = Ok qmIV /\
    open_v1 sess qmIV msg = Ok (encPayload, decrypted, first) /\ ParsePayloadChain decrypted first false = Ok chain /\
    find_as as_SAv1 chain = Some saPayload /\ find_as as_NonceV1 chain = Some nonce /\ find_as as_HashV1 chain = Some hash /\
    hash_1 sess (MessageID (msg_Header msg)) saPayload nonce = Ok (hash1_HashData hash).

Lemma wp_answer_quick msgID qmIV sa ni s :
  wp (answer_quick msgID qmIV sa ni) (fun s' _ => s'.1 = s.1 \/
    exists inSPI nr first child, head (sa1_Proposals sa) = Some first /\
      derive_child1 s.1 msgID inSPI (announced_spi sa) ni nr (p1_Transforms first) = Ok child /\ s'.1 = append_child1 s.1 child) s.
Proof.
  unfold answer_quick. wp_step. apply wp_drawn; [|by left|by left]. intros nr r1 _. wp_step. apply wp_drawn; [|by left|by left]. intros inSPI r2 _.
  do 2 wp_step. cbn [fst]. cbv zeta. do 2 wp_step. destruct (idx (sa1_Proposals sa) 0) as [first|?|] eqn:Ef; [|by left..].
  do 2 wp_step. destruct (SAv1Payload_Marshal _); [|by left..]. do 2 wp_step. destruct (deref _); [|by left..]. do 2 wp_step. destruct (deref _); [|by left..].
  do 2 wp_step. destruct (MarshalPayloadChain _) as [[b pt]|?|]; [|by left..]. do 2 wp_step. destruct (deref _); [|by left..].
  do 2 wp_step. destruct (EncryptIKEv1Payload _ _ _ _); [|by left..]. fold (announced_spi sa). do 2 wp_step.
  destruct (derive_child1 _ _ _ _ _ _ _) as [child|?|] eqn:Ec; [|by left..]. do 2 wp_step. wp_step. cbn [fst snd]. right.
  exists inSPI, nr, first, child. split; [|by split].
  unfold idx in Ef. destruct (sa1_Proposals sa) as [|q l]; [done|]. cbn in Ef. by injection Ef as ->.
Qed.

(** Quick Mode adds one child SA at most, only to an established session, and only for a
    message that decrypts to a chain whose HASH(1) is right for its SA and nonce; the child SA
    has the SPI of the first proposal and keys derived from both nonces. *)
Theorem HandleQuickMode1_edges msg s :
  let s' := (HandleQuickMode1 msg s).1 in
  s'.1 = s.1 \/ s1_State s.1 = StateV1Established /\
    exists sa nonce inSPI nr first child, offers s.1 msg sa nonce /\ head (sa1_Proposals sa) = Some first /\
      derive_child1 s.1 (MessageID (msg_Header msg)) inSPI (announced_spi sa) (nonce1_NonceData nonce) nr (p1_Transforms first) = Ok child /\
      s'.1 = append_child1 s.1 child.
Proof.
  set (Q := fun (s' : st1) (_ : res Message) => s'.1 = s.1 \/ s1_State s.1 = StateV1Established /\
    exists sa nonce inSPI nr first child, offers s.1 msg sa nonce /\ head (sa1_Proposals sa) = Some first /\
      derive_child1 s.1 (MessageID (msg_Header msg)) inSPI (announced_spi sa) (nonce1_NonceData nonce) nr (p1_Transforms first) = Ok child /\
      s'.1 = append_child1 s.1 child).
  change (wp (HandleQuickMode1 msg) Q s). unfold HandleQuickMode1. do 2 wp_step. case_bool_decide as Hst; [by left|]. cbv zeta.
  do 2 wp_step. destruct (ComputeV1QuickModeIV _ _ _ _) as [iv|?|] eqn:E1; [|by left..].
  do 2 wp_step. destruct (open_v1 _ _ _) as [[[encP decr] ft]|?|] eqn:E2; [|by left..].
  do 2 wp_step. destruct (last_block _ _ _) as [iv'|?|]; [|by left..].
  do 2 wp_step. destruct (ParsePayloadChain _ _ _) as [chain|?|] eqn:E3; [|by left..].
  destruct (find_as as_HashV1 chain) as [hash|] eqn:E4; [|by left]. destruct (find_as as_SAv1 chain) as [sa|] eqn:E5; [|by left].
  destruct (find_as as_NonceV1 chain) as [nonce|] eqn:E6; [|by left].
  do 2 wp_step. destruct (hash_1 _ _ _ _) as [h1|?|] eqn:E7; [|by left..]. rewrite hashEqual_eq. case_bool_decide as Heq; [|by left]. cbn [negb].
  eapply wp_mono; [apply wp_answer_quick|]. intros s' r' [H|(inSPI & nr & first & child & H1 & H2 & H3)]; [by left|right].
  split; [done|]. exists sa, nonce, inSPI, nr, first, child. split; [|by split_and!].
  exists iv, encP, decr, ft, chain, hash. split_and!; try done. by rewrite E7, Heq.
Qed.

End theorems.

End Quick1.
