(* ===== verification/IkeV1Xauth.v ===== *)
(** * IkeV1Xauth: the XAUTH extension ([internal/ike/ikev1_xauth.go])

    The server asks for a name and a password in a Transaction exchange and checks the reply.
    The handlers run on the session and the random source, which they do not use. *)

From S2P Require Import Prelude Wire Net Rand EspCipher IkeHeader.
From S2P Require Import IkePayload IkeSA IkeV2 IkeV1 IkeMessage IkeTotal.
From S2P Require Import IkeCrypto IkeKeys IkeSession IkeSK Exch IkeExchange IkeV2Auth IkeV1Main IkeV1Aggr IkeV1Quick.

Module Xauth.
Import Hdr Pl Attr SA V2 V1 Msg Crypto Keys Sess SK Main1.

Definition ISAKMPCfgRequest : Z := 1.
Definition ISAKMPCfgReply : Z := 2.
Definition ISAKMPCfgSet : Z := 3.
Definition ISAKMPCfgAck : Z := 4.

Definition XAUTH_TYPE : Z := 16520.
Definition XAUTH_USER_NAME : Z := 16521.
Definition XAUTH_USER_PASSWORD : Z := 16522.
Definition XAUTH_STATUS : Z := 16527.

(** The name and the password found so far. *)
Definition credential_attr (acc : bytes * bytes) (attr : ISAKMPAttribute) : bytes * bytes :=
  if at_Type attr =? XAUTH_USER_NAME then (at_Value attr, acc.2)
  else if at_Type attr =? XAUTH_USER_PASSWORD then (acc.1, at_Value attr)
  else acc.

(** Every raw payload of at least four bytes is read, whatever its type. *)
Fixpoint find_credentials (chain : PayloadChain) (acc : bytes * bytes) : res (bytes * bytes) :=
  match chain with
  | [] => Ok acc
  | p :: chain =>
    match pp_Payload p with
    | PRaw raw =>
      if len (raw_Data raw) <? 4 then find_credentials chain acc
      else
        attrData ← slice (raw_Data raw) 4 (len (raw_Data raw));
        attrs ← ParseISAKMPAttributes attrData;
        find_credentials chain (foldl credential_attr acc attrs)
    | _ => find_credentials chain acc
    end
  end.

(** The attributes of the challenge and of the verdict. *)
Definition challenge_attrs : list ISAKMPAttribute :=
  [mkAttr XAUTH_TYPE true [0; 0]; mkAttr XAUTH_USER_NAME false []; mkAttr XAUTH_USER_PASSWORD false []].
Definition result_attrs (success : bool) : list ISAKMPAttribute :=
  let statusVal := if success then 1 else 0 in
  [mkAttr XAUTH_STATUS true [u8 (Z.shiftr statusVal 8); u8 statusVal]].

Section handlers.
Context {C : EspCipher.Cipher.Crypto} {D : Digests}.

(** The body of an ISAKMP Config payload. *)
Definition cfg_body (cfgType : Z) (attrs : list ISAKMPAttribute) : res bytes :=
  attrBytes ← marshal_attrs attrs;
  body ← set_at (make (4 + len attrBytes)) 0 cfgType;
  copy_at body 4 attrBytes.

Definition buildXAUTHMessage (msgID cfgType : Z) (attrs : list ISAKMPAttribute) : exch st1 Message :=
  sess ← on_session (fun s => s);
  cfgBody ← lift (cfg_body cfgType attrs);
  prf ← lift (deref (s1_PRF sess));
  keys ← lift (deref (s1_Keys sess));
  let hashData := PRF_Compute prf (SKEYID_a keys) (put32 msgID ++ cfgBody) in
  '(respPayloadBytes, firstPT) ← lift (MarshalPayloadChain [PHashV1 (mkHashV1 hashData); PRaw (mkRaw 14 cfgBody)]);
  let blockSize := block_size (s1_Encryptor sess) in
  txIV ← lift (ComputeV1QuickModeIV (s1_HashAlg sess) (s1_CurrentIV sess) msgID blockSize);
  enc ← lift (deref (s1_Encryptor sess));
  encResp ← lift (EncryptIKEv1Payload enc (SKEYID_e keys) txIV respPayloadBytes);
  resp ← lift (encrypted_message sess firstPT ExchangeTransaction msgID encResp);
  _ ← assign (fun s => if cfgType =? ISAKMPCfgRequest then set_s1_State s StateV1XAUTHSent else s);
  ret resp.

Definition buildXAUTHResult (msgID : Z) (success : bool) : exch st1 Message :=
  buildXAUTHMessage msgID ISAKMPCfgSet (result_attrs success).

Definition InitiateXAUTH : exch st1 Message :=
  state ← on_session s1_State;
  if bool_decide (state <> StateV1Established) then fail "XAUTH initiate: not established" else
  _ ← assign (fun s => set_s1_NextMsgID s (u32 (s1_NextMsgID s + 1)));
  msgID ← on_session s1_NextMsgID;
  buildXAUTHMessage msgID ISAKMPCfgRequest challenge_attrs.

Definition handleXAUTHReply (h : IKEv1Handler) (chain : PayloadChain) (msgID : Z) : exch st1 Message :=
  '(username, password) ← lift (find_credentials chain ([], []));
  if bool_decide (username = []) then buildXAUTHResult msgID false
  else
    match getXAUTHCredentials h with
    | None => buildXAUTHResult msgID false
    | Some lookup =>
      if negb (lookup username password) then buildXAUTHResult msgID false
      else
        _ ← assign (fun s => set_s1_State (set_s1_XAUTHUser s username) StateV1XAUTHDone);
        buildXAUTHResult msgID true
    end.

(** The HASH payload must be there; it is not compared with anything. *)
Definition HandleTransaction (h : IKEv1Handler) (packetData : bytes) (hdr : Header) : exch st1 Message :=
  sess ← on_session (fun s => s);
  if bool_decide (s1_State sess <> StateV1XAUTHSent /\ s1_State sess <> StateV1Established) then fail "XAUTH: unexpected state" else
  let msgID := MessageID hdr in
  let blockSize := block_size (s1_Encryptor sess) in
  txIV ← lift (ComputeV1QuickModeIV (s1_HashAlg sess) (s1_CurrentIV sess) msgID blockSize);
  encPayload ← lift (slice packetData HeaderLen (len packetData));
  keys ← lift (deref (s1_Keys sess));
  enc ← lift (deref (s1_Encryptor sess));
  decrypted ← lift (DecryptIKEv1Payload enc (SKEYID_e keys) txIV encPayload);
  txIV ← lift (last_block txIV encPayload blockSize);
  chain ← lift (ParsePayloadChain decrypted (NextPayload hdr) false);
  match find_as as_HashV1 chain with
  | None => fail "XAUTH: missing Hash payload"
  | Some hashPayload =>
    match s1_State sess with
    | StateV1XAUTHSent => handleXAUTHReply h chain msgID
    | _ => fail "XAUTH: unexpected transaction in state"
    end
  end.

End handlers.

(** ** Who is let in *)

(** The bytes of a Transaction message decrypt, under the keys of the session, to a chain with a
    name that is not empty and a password, which the handler accepts. *)
Definition admits {C : EspCipher.Cipher.Crypto} {D : Digests} (h : IKEv1Handler) (sess : IKEv1Session) (packetData : bytes) (hdr : Header) (user : bytes) : Prop :=
  exists txIV encPayload keys enc decrypted chain lookup password,
    ComputeV1QuickModeIV (s1_HashAlg sess) (s1_CurrentIV sess) (MessageID hdr) (block_size (s1_Encryptor sess)) = Ok txIV /\
    slice packetData HeaderLen (len packetData) = Ok encPayload /\ s1_Keys sess = Some keys /\ s1_Encryptor sess = Some enc /\
    DecryptIKEv1Payload enc (SKEYID_e keys) txIV encPayload = Ok decrypted /\
    ParsePayloadChain decrypted (NextPayload hdr) false = Ok chain /\ find_as as_HashV1 chain <> None /\
    find_credentials chain ([], []) = Ok (user, password) /\ user <> [] /\
    getXAUTHCredentials h = Some lookup /\ lookup user password = true.

Section theorems.
Context {C : EspCipher.Cipher.Crypto} {D : Digests}.

Lemma wp_result msgID b s : wp (buildXAUTHResult msgID b) (fun s' _ => s' = s) s.
Proof.
  unfold buildXAUTHResult, buildXAUTHMessage. do 2 wp_step. do 2 wp_step. destruct (cfg_body _ _) as [body|?|]; [|done..].
  do 2 wp_step. destruct (deref _); [|done..]. do 2 wp_step. destruct (deref _); [|done..]. cbv zeta.
  do 2 wp_step. destruct (MarshalPayloadChain _) as [[b' pt]|?|]; [|done..]. do 2 wp_step. destruct (ComputeV1QuickModeIV _ _ _ _); [|done..].
  do 2 wp_step. destruct (deref _); [|done..]. do 2 wp_step. destruct (EncryptIKEv1Payload _ _ _ _); [|done..].
  do 2 wp_step. destruct (encrypted_message _ _ _ _ _); [|done..]. do 2 wp_step. wp_step. by destruct s.
Qed.

(** XAUTH is passed only from the state that waits for the reply, and only with a name that is
    not empty and a password the credential function accepts, taken from a message that
    decrypts under the keys of the session; any other message leaves the session as it is. *)
Theorem HandleTransaction_edges h packetData hdr s :
  let s' := (HandleTransaction h packetData hdr s).1 in
  s' = s \/ s1_State s.1 = StateV1XAUTHSent /\
    exists user, admits h s.1 packetData hdr user /\ s' = (set_s1_State (set_s1_XAUTHUser s.1 user) StateV1XAUTHDone, s.2).
Proof.
  change (wp (HandleTransaction h packetData hdr) (fun s' _ => s' = s \/ s1_State s.1 = StateV1XAUTHSent /\
    exists user, admits h s.1 packetData hdr user /\ s' = (set_s1_State (set_s1_XAUTHUser s.1 user) StateV1XAUTHDone, s.2)) s).
  unfold HandleTransaction. do 2 wp_step. case_bool_decide; [by left|]. cbv zeta.
  do 2 wp_step. destruct (ComputeV1QuickModeIV _ _ _ _) as [iv|?|] eqn:E1; [|by left..].
  do 2 wp_step. destruct (slice _ _ _) as [encP|?|] eqn:E2; [|by left..].
  do 2 wp_step. destruct (deref (s1_Keys _)) as [keys|?|] eqn:E3; [|by left..].
  do 2 wp_step. destruct (deref (s1_Encryptor _)) as [enc|?|] eqn:E4; [|by left..].
  do 2 wp_step. destruct (DecryptIKEv1Payload _ _ _ _) as [decr|?|] eqn:E5; [|by left..].
  do 2 wp_step. destruct (last_block _ _ _) as [?|?|]; [|by left..].
  do 2 wp_step. destruct (ParsePayloadChain _ _ _) as [chain|?|] eqn:E6; [|by left..].
  destruct (find_as _ _) as [hash|] eqn:E7; [|by left]. destruct (s1_State s.1) eqn:Est; try by left.
  unfold handleXAUTHReply. do 2 wp_step. destruct (find_credentials _ _) as [[user pass]|?|] eqn:E8; [|by left..].
  assert (forall m b, wp (buildXAUTHResult m b) (fun s' (_ : res Message) => s' = s \/ StateV1XAUTHSent = StateV1XAUTHSent /\
    exists user, admits h s.1 packetData hdr user /\ s' = (set_s1_State (set_s1_XAUTHUser s.1 user) StateV1XAUTHDone, s.2)) s) as Hres
    by (intros m b; eapply wp_mono; [apply wp_result|by left]).
  case_bool_decide as Hu; [apply Hres|]. destruct (getXAUTHCredentials h) as [lookup|] eqn:El; [|apply Hres].
  destruct (lookup user pass) eqn:Hl; [|apply Hres]. cbn [negb]. do 2 wp_step. eapply wp_mono; [apply wp_result|].
  cbn. intros s' _ ->. right. split; [done|]. exists user. split; [|done].
  destruct (s1_Keys s.1) eqn:Ek; [|done]. destruct (s1_Encryptor s.1) eqn:Ee; [|done]. injection E3 as ->. injection E4 as ->.
  exists iv, encP, keys, enc, decr, chain, lookup, pass. split_and!; rewrite ?Ee, ?E7; done.
Qed.

(** A session that has passed XAUTH is at a dead end: Quick Mode, Mode Config, a further
    Transaction, a new challenge and the messages of both phase-1 modes are all refused, so
    no client that authenticates this way gets an address or a child SA. *)
Theorem XAUTHDone_dead_end {E : ECDH} h x packetData hdr msg assignIP dns sess r :
  s1_State sess = StateV1XAUTHDone ->
  let refused {A} (m : exch st1 A) := exists e, m (sess, r) = ((sess, r), Err e) in
  refused (Quick1.HandleQuickMode1 msg) /\ refused (HandleTransaction h packetData hdr) /\ refused InitiateXAUTH /\
  refused (HandleMainMode3 x msg) /\ refused (HandleMainMode5 h msg) /\ refused (Aggr1.HandleAggressive3 msg) /\
  exists e, Aggr1.HandleModeConfig sess msg assignIP dns = Err e.
Proof.
  intros Hs refused.
  split_and!; [unfold Quick1.HandleQuickMode1|unfold HandleTransaction|unfold InitiateXAUTH|unfold HandleMainMode3|unfold HandleMainMode5
    |unfold Aggr1.HandleAggressive3|unfold Aggr1.HandleModeConfig].
  all: eexists; try (erewrite exch_bind_Ok; [|reflexivity]; cbn [fst]); by rewrite Hs.
Qed.

(** ** A login *)

Section login.
Context {CL : EspCipher.Cipher.CryptoLaws C} {DL : DigestLaws D}.

Definition cfg_bytes (cfgType : Z) (attrs : list ISAKMPAttribute) : bytes := cfgType :: 0 :: 0 :: 0 :: attrs_bytes attrs.

(** The payloads of a Transaction message of the server. *)
Definition cfg_payloads (prf : hmacPRF) (keys : IKEv1KeyMaterial) (msgID cfgType : Z) (attrs : list ISAKMPAttribute) : list Payload :=
  [PHashV1 (mkHashV1 (PRF_Compute prf (SKEYID_a keys) (put32 msgID ++ cfg_bytes cfgType attrs))); PRaw (mkRaw 14 (cfg_bytes cfgType attrs))].

Lemma cfg_body_ok t attrs : Forall attr_ok attrs -> cfg_body t attrs = Ok (cfg_bytes t attrs).
Proof.
  intros Ha. unfold cfg_body. rewrite marshal_attrs_bytes, bind_Ok by done. unfold cfg_bytes. set (b := attrs_bytes attrs). pose proof (len_nonneg b).
  rewrite (fill_start (4 + len b)). fill_step. do 3 rewrite fill_skip by lia.
  rewrite fill_copy, make_0, app_nil_r by (len_norm; lia). done.
Qed.

Lemma cfg_payloads_ok prf keys msgID t attrs :
  is_u8 t -> Forall attr_ok attrs -> 8 + len (attrs_bytes attrs) < 65536 ->
  Forall (payload_ok false) (cfg_payloads prf keys msgID t attrs) /\ bytes_wf (chain_bytes (cfg_payloads prf keys msgID t attrs)).
Proof using CL.
  intros Ht Ha Hl. pose proof (attrs_bytes_wf _ Ha) as Hw. assert (bytes_wf (cfg_bytes t attrs)) as Hwc by (unfold cfg_bytes; wf_bytes; done).
  set (h := PRF_Compute prf (SKEYID_a keys) (put32 msgID ++ cfg_bytes t attrs)). assert (bytes_wf h /\ len h <= 64) as [Hwh Hlh].
  { unfold h, PRF_Compute. split; [apply EspCipher.Cipher.hmac_wf|]. rewrite EspCipher.Cipher.len_hmac. by destruct (prf_hashFunc prf). }
  unfold cfg_payloads. fold h. split.
  - constructor; [split; [done|cbn; lia]|]. constructor; [|done]. split; [by split_and!|]. cbn. unfold cfg_bytes. len_norm. lia.
  - cbn [chain_bytes payload_body Payload_Type hash1_HashData raw_Data raw_PayloadType]. unfold payload_bytes. wf_bytes; done.
Qed.

(** What the server sends, and the state it leaves. *)
Lemma buildXAUTHMessage_ok sess r prf keys k key msgID t attrs :
  keyed sess prf keys k key -> is_u32 msgID -> is_u8 t -> Forall attr_ok attrs -> 8 + len (attrs_bytes attrs) < 65536 ->
  exists iv resp, ComputeV1QuickModeIV (s1_HashAlg sess) (s1_CurrentIV sess) msgID 16 = Ok iv /\
    buildXAUTHMessage msgID t attrs (sess, r) = ((if t =? ISAKMPCfgRequest then set_s1_State sess StateV1XAUTHSent else sess, r), Ok resp) /\
    carries sess keys k key iv ExchangeTransaction msgID resp (cfg_payloads prf keys msgID t attrs).
Proof using CL DL.
  intros Hk Hm Ht Ha Hl. destruct (QuickModeIV_ok (s1_HashAlg sess) (s1_CurrentIV sess) msgID (s1_Encryptor sess)) as (iv & Hiv & Liv & Wiv).
  rewrite (keyed_Encryptor _ _ _ _ _ Hk) in Hiv, Liv. change (block_size (Some (aesCBCEncryptor k key))) with 16 in *.
  destruct (cfg_payloads_ok prf keys msgID t attrs Ht Ha Hl) as [Hok Hwl].
  destruct (seal_v1 sess prf keys k key iv ExchangeTransaction msgID (cfg_payloads prf keys msgID t attrs)) as (c & resp & Hmar & Henc & Hmsg & Hc); [done..|].
  exists iv, resp. split; [done|]. split; [|done]. unfold buildXAUTHMessage. erewrite exch_bind_Ok; [|reflexivity]. cbn [fst].
  run (cfg_body_ok t attrs Ha). rewrite (keyed_PRF _ _ _ _ _ Hk), (keyed_Keys _ _ _ _ _ Hk), (keyed_Encryptor _ _ _ _ _ Hk).
  do 2 (erewrite exch_bind_Ok; [|reflexivity]). cbv zeta. unfold cfg_payloads in Hmar at 1. run Hmar.
  change (block_size (Some (aesCBCEncryptor k key))) with 16. run Hiv. erewrite exch_bind_Ok; [|reflexivity]. run Henc. run Hmsg.
  erewrite exch_bind_Ok; [|reflexivity]. cbn [fst snd]. by destruct (t =? ISAKMPCfgRequest).
Qed.

(** The reply of a client, and what is found in it. *)
Definition login_attrs (user pass : bytes) : list ISAKMPAttribute := [mkAttr XAUTH_USER_NAME false user; mkAttr XAUTH_USER_PASSWORD false pass].
Definition login_payloads (hash user pass : bytes) : list Payload :=
  [PHashV1 (mkHashV1 hash); PRaw (mkRaw 14 (cfg_bytes ISAKMPCfgReply (login_attrs user pass)))].

Lemma login_found hash user pass :
  Forall attr_ok (login_attrs user pass) -> find_credentials (parsed_chain (login_payloads hash user pass)) ([], []) = Ok (user, pass).
Proof.
  intros Ha. cbn [login_payloads parsed_chain find_credentials pp_Payload raw_Data]. unfold cfg_bytes. set (b := attrs_bytes _). pose proof (len_nonneg b).
  rewrite (proj2 (Z.ltb_ge _ _)) by (len_norm; lia). change (ISAKMPCfgReply :: 0 :: 0 :: 0 :: b) with ([ISAKMPCfgReply; 0; 0; 0] ++ b). rewrite slice_tail by (len_norm; lia).
  rewrite bind_Ok. unfold b. rewrite ParseISAKMPAttributes_bytes, bind_Ok by done. reflexivity.
Qed.

(** The reply reaches [handleXAUTHReply]. *)
Lemma login_opens h sess r prf keys k key hdr iv hash user pass c :
  keyed sess prf keys k key -> s1_State sess = StateV1XAUTHSent -> header_ok hdr -> NextPayload hdr = PayloadHashV1 ->
  ComputeV1QuickModeIV (s1_HashAlg sess) (s1_CurrentIV sess) (MessageID hdr) 16 = Ok iv ->
  Forall attr_ok (login_attrs user pass) -> Forall (payload_ok false) (login_payloads hash user pass) -> bytes_wf hash ->
  Encrypt (aesCBCEncryptor k key) (SKEYID_e keys) iv (chain_bytes (login_payloads hash user pass)) [] = Ok c ->
  HandleTransaction h (header_bytes hdr ++ c) hdr (sess, r) = handleXAUTHReply h (parsed_chain (login_payloads hash user pass)) (MessageID hdr) (sess, r).
Proof using CL DL.
  intros Hk Hst Hh Hnp Hiv Hcr Hok Hwh Hc.
  destruct (QuickModeIV_ok (s1_HashAlg sess) (s1_CurrentIV sess) (MessageID hdr) (Some (aesCBCEncryptor k key))) as (iv' & Hiv' & Liv & Wiv).
  change (block_size (Some (aesCBCEncryptor k key))) with 16 in *. rewrite Hiv in Hiv'. injection Hiv' as <-.
  unfold HandleTransaction. erewrite exch_bind_Ok; [|reflexivity]. cbn [fst]. rewrite bool_decide_eq_false_2 by (rewrite Hst; naive_solver).
  rewrite (keyed_Keys _ _ _ _ _ Hk), (keyed_Encryptor _ _ _ _ _ Hk). cbv zeta. change (block_size (Some (aesCBCEncryptor k key))) with 16. run Hiv.
  pose proof (len_header_bytes hdr Hh) as Lh. unfold HeaderLen in *. rewrite slice_tail by (rewrite ?len_app; lia).
  do 3 (erewrite exch_bind_Ok; [|reflexivity]). unfold DecryptIKEv1Payload. 
  assert (bytes_wf (chain_bytes (login_payloads hash user pass))) as Hwf.
  { cbn [chain_bytes login_payloads payload_body Payload_Type hash1_HashData raw_Data raw_PayloadType]. unfold payload_bytes, cfg_bytes.
    pose proof (attrs_bytes_wf _ Hcr). wf_bytes; done. }
  destruct (Encrypt_ok (aesCBCEncryptor k key) (SKEYID_e keys) iv (chain_bytes (login_payloads hash user pass)) []) as (c' & E1 & Hd & Hl);
    [by apply (keyed_len _ _ _ _ _ Hk)|done..|]. rewrite Hc in E1. injection E1 as <-. run Hd.
  assert (16 <= len c) as Lc.
  { revert Hl. cbn [chain_bytes login_payloads]. rewrite !len_app, !len_payload_bytes. cbn [payload_body hash1_HashData raw_Data]. unfold cfg_bytes. len_norm.
    unfold attrs_bytes, login_attrs. cbn [fmap list_fmap concat]. len_norm. 
    apply Forall_cons in Hcr as [H1%attr_bytes_len Hcr]. apply Forall_cons in Hcr as [H2%attr_bytes_len _]. pose proof (len_nonneg hash). lia. }
  rewrite last_block_ok by done. erewrite exch_bind_Ok; [|reflexivity].
  pose proof (ParseV1_bytes _ Hok) as Hp. change (Msg.first_type (login_payloads hash user pass)) with PayloadHashV1 in Hp. rewrite Hnp. run Hp.
  by rewrite Hst.
Qed.


End login.

End theorems.

(** ** Examples *)

Import EspCipher.Cipher.Toy.

Definition demo_xauth_handler : IKEv1Handler :=
  NewIKEv1Handler (fun _ => None) (Some (fun user pass => bool_decide (user = [97]) && bool_decide (pass = [98]))) [] IDFQDN.
Definition demo_transaction : Header := v1_header (demo_v1_session StateV1XAUTHSent) PayloadHashV1 ExchangeTransaction FlagV1Encryption 7 100.
Definition demo_iv : bytes :=
  match ComputeV1QuickModeIV V1HashSHA256 (replicate 16 7) 7 16 with Ok iv => iv | _ => [] end.
Definition demo_login : bytes :=
  match Encrypt (aesCBCEncryptor EncrAES_CBC 32) (replicate 32 4) demo_iv (chain_bytes (login_payloads [1] [97] [98])) [] with Ok c => c | _ => [] end.

Lemma demo_keyed state : keyed (demo_v1_session state) (mkPRF PRFHMAC_SHA256 EspCipher.Cipher.SHA256 32 32) demo_v1_keys EncrAES_CBC 32.
Proof. by constructor; try done; try (split; [done|]); apply (bool_decide_unpack _); vm_compute. Qed.


Lemma XAUTHDone_dead_end_witness :
  exists e, InitiateXAUTH (demo_v1_session StateV1XAUTHDone, demo_rng) = ((demo_v1_session StateV1XAUTHDone, demo_rng), Err e).
Proof.
  apply (XAUTHDone_dead_end demo_xauth_handler (PrivKey []) [] demo_transaction (mkMessage demo_transaction [] []) None []
    (demo_v1_session StateV1XAUTHDone) demo_rng). reflexivity.
Defined.

End Xauth.
