(* ===== verification/IkeServer.v ===== *)
(** * IkeServer: datagrams in, datagrams out ([internal/ike/server.go])

    The server dispatches a datagram to the handlers of both versions, keeps the sessions
    they make in the manager and sends their answers.  A session is a location of the
    manager's heap; a new one gets a fresh location.  What is handed to the UDP sender is
    the list of calls so far. *)

From stdpp Require Import gmap.
From S2P Require Import Prelude Wire Net Rand EspCipher EspEngine IkeHeader.
From S2P Require Import IkePayload IkeSA IkeV2 IkeV1 IkeMessage IkeTotal IkeProposal.
From S2P Require Import IkeCrypto IkeKeys IkeSession IkeSK IkeFragment IkeManager IkeEap Exch IkeExchange.
From S2P Require Import IkeV2Init IkeV2Auth IkeV2Eap IkeInfo IkeV1Main IkeV1Xauth.

Module IServer.
Import Hdr Pl SA V2 Msg Nego Crypto Keys Sess Manager.

(** A call of [SendTo]. *)
Record datagram := mkDatagram { dg_port : Z; dg_data : bytes; dg_addr : option UDPAddr }.

Record Server := mkServer {
  sv_sessions : Manager.state;                  (* SessionManager, the sessions, the data plane *)
  sv_fragments : Frag.FragmentManager;
  sv_rng : rng;
  sv_sender : bool;                             (* whether [udpSender] is set *)
  sv_sent : list datagram
}.

Definition NewServer (sm : Manager.state) (r : rng) (sender : bool) : Server := mkServer sm Frag.NewFragmentManager r sender [].

Definition with_sessions (s : Server) (m : Manager.state) : Server := mkServer m (sv_fragments s) (sv_rng s) (sv_sender s) (sv_sent s).
Definition with_rng (s : Server) (r : rng) : Server := mkServer (sv_sessions s) (sv_fragments s) r (sv_sender s) (sv_sent s).
Definition SendTo (s : Server) (port : Z) (data : bytes) (addr : option UDPAddr) : Server :=
  mkServer (sv_sessions s) (sv_fragments s) (sv_rng s) (sv_sender s) (sv_sent s ++ [mkDatagram port data addr]).

(** An error is logged and the function returns. *)
Definition logged {S} (m : exch S unit) : exch S unit := fun s =>
  match m s with (s, Err _) => (s, Ok tt) | x => x end.

(** A handler of the session at a location, of the manager, or of the random source alone. *)
Definition at_session2 {A} (l : nat) (m : exch (IKEv2Session * rng) A) : exch Server A := fun s =>
  match heap2 (sv_sessions s) !! l with
  | None => (s, Panic)
  | Some sess => let '((sess, r), x) := m (sess, sv_rng s) in (with_rng (with_sessions s (set_session2 (sv_sessions s) l sess)) r, x)
  end.
Definition at_session1 {A} (l : nat) (m : exch (IKEv1Session * rng) A) : exch Server A := fun s =>
  match heap1 (sv_sessions s) !! l with
  | None => (s, Panic)
  | Some sess => let '((sess, r), x) := m (sess, sv_rng s) in (with_rng (with_sessions s (set_session1 (sv_sessions s) l sess)) r, x)
  end.
Definition at_manager {A} (m : exch (Manager.state * rng) A) : exch Server A := fun s =>
  let '((sm, r), x) := m (sv_sessions s, sv_rng s) in (with_rng (with_sessions s sm) r, x).
Definition at_random {A} (m : exch rng A) : exch Server A := fun s =>
  let '(r, x) := m (sv_rng s) in (with_rng s r, x).

(** [&IKEv2Session{...}]: the location of a new session. *)
Definition new2 (sess : IKEv2Session) : exch Server nat := fun s =>
  let l := fresh (dom (heap2 (sv_sessions s))) in (with_sessions s (set_session2 (sv_sessions s) l sess), Ok l).
Definition new1 (sess : IKEv1Session) : exch Server nat := fun s =>
  let l := fresh (dom (heap1 (sv_sessions s))) in (with_sessions s (set_session1 (sv_sessions s) l sess), Ok l).

Definition register2 {O : MapOrder} (l : nat) : exch Server unit := at_manager (Info.managed (fun sm => RegisterV2Session sm l)).
Definition register1 {O : MapOrder} (l : nat) : exch Server unit := at_manager (Info.managed (fun sm => RegisterV1Session sm l)).

Definition sendResponse (msg : Message) (remoteAddr : option UDPAddr) (isNATT : bool) : exch Server unit :=
  sender ← get sv_sender;
  if negb sender then ret tt
  else
    logged (
      '(_, data) ← lift (Message_Marshal msg);
      if isNATT then
        nattData ← lift (copy_at (make (len data + 4)) 4 data);
        modify (fun s => SendTo s 4500 nattData remoteAddr)
      else modify (fun s => SendTo s 500 data remoteAddr)).

Section handlers.
Context {C : EspCipher.Cipher.Crypto} {D : Digests} {E : ECDH} {L : Eap.Legacy} {O : MapOrder}.
Context (rg : nat -> nat -> nat -> range) (tries : nat).
Context (h1 : Main1.IKEv1Handler) (h2 : Init.IKEv2Handler).

(** The answer to an IKEv2 message; [None] where the Go function has returned.  No address can
    be assigned: the callback is nil. *)
Definition answer2 (x : secret) (msg : Message) (remoteAddr : option UDPAddr) : exch Server (option Message) :=
  let et := ExchangeType (msg_Header msg) in
  if et =? ExchangeIKESAInit then
    '(resp, newSess) ← at_random (Init.HandleSAInit rg h2 tries x msg remoteAddr);
    match newSess with
    | None => ret (Some resp)
    | Some sess => l ← new2 sess; _ ← register2 l; ret (Some resp)
    end
  else if et =? ExchangeIKEAuth then
    sess ← get (fun s => GetV2Session (sv_sessions s) (SPIPair (msg_Header msg)));
    match sess with
    | None => ret None
    | Some l =>
      state ← at_session2 l (on_session s2_State);
      if bool_decide (state = StateV2EAPInProgress \/ state = StateV2EAPDone)
      then resp ← at_session2 l (EapAuth.HandleAuthEAP rg h2 msg None []); ret (Some resp)
      else resp ← at_session2 l (Auth.HandleAuth rg h2 msg None []); ret (Some resp)
    end
  else if et =? ExchangeInformational then
    sess ← get (fun s => GetV2Session (sv_sessions s) (SPIPair (msg_Header msg)));
    match sess with
    | None => ret None
    | Some l => resp ← at_manager (Info.HandleInformational l msg); ret (Some resp)
    end
  else ret None.

Definition handleIKEv2 (x : secret) (packetData : bytes) (remoteAddr : option UDPAddr) (isNATT : bool) : exch Server unit :=
  logged (
    msg ← lift (ParseMessage packetData);
    resp ← answer2 x msg remoteAddr;
    match resp with
    | None => ret tt
    | Some resp => sendResponse resp remoteAddr isNATT
    end).

(** Message 1 of Main Mode; a later one is looked up and dropped. *)
Definition handle_main_mode (packetData : bytes) (hdr : Header) (remoteAddr : option UDPAddr) (isNATT : bool) : exch Server unit :=
  if bool_decide (ResponderSPI hdr = make 8) then
    msg ← lift (ParseMessage packetData);
    '(resp, newSess) ← at_random (Init.draws (fun r => '(resp, sess, r) ← Main1.HandleMainMode1 h1 msg remoteAddr r; Ok ((resp, sess), r)));
    l ← new1 newSess;
    _ ← register1 l;
    sendResponse resp remoteAddr isNATT
  else ret tt.

Definition handle_transaction (packetData : bytes) (hdr : Header) (remoteAddr : option UDPAddr) (isNATT : bool) : exch Server unit :=
  sess ← get (fun s => GetV1Session (sv_sessions s) (SPIPair hdr));
  match sess with
  | None => ret tt
  | Some l =>
    resp ← at_session1 l (Xauth.HandleTransaction h1 packetData hdr);
    sendResponse resp remoteAddr isNATT
  end.

(** The two conditions exclude each other. *)
Definition handleIKEv1 (packetData : bytes) (hdr : Header) (remoteAddr : option UDPAddr) (isNATT : bool) : exch Server unit :=
  logged (
    if ExchangeType hdr =? ExchangeIdentityProtect then handle_main_mode packetData hdr remoteAddr isNATT
    else if ExchangeType hdr =? ExchangeTransaction then handle_transaction packetData hdr remoteAddr isNATT
    else ret tt).

Definition HandlePacket (x : secret) (buf : bytes) (n : Z) (remoteAddr : option UDPAddr) (isNATT : bool) : exch Server unit :=
  if n <? HeaderLen then ret tt
  else
    logged (
      packetData ← lift (slice buf 0 n);
      hdr ← lift (ParseHeader packetData);
      _ ← lift (Validate hdr);
      if MajorVersion hdr =? IKEv2Major then handleIKEv2 x packetData remoteAddr isNATT
      else if MajorVersion hdr =? IKEv1Major then handleIKEv1 packetData hdr remoteAddr isNATT
      else ret tt).

End handlers.

(** ** What is kept *)

Section keeps.
Context {C : EspCipher.Cipher.Crypto} {D : Digests} {L : Eap.Legacy}.
Context (rg : nat -> nat -> nat -> range).

Lemma response_keeps {X} (f : IKEv2Session -> X) et msgID l : within (same f) (Auth.buildEncryptedResponse et msgID l).
Proof. intros s. unfold same. by rewrite Auth.response_session. Qed.

Lemma open_request_keeps {X} (f : IKEv2Session -> X) msg : within (same f) (Auth.open_request msg).
Proof. intros s. unfold same. by rewrite Auth.open_request_state. Qed.

Lemma HandleAuth_keeps h msg assignIP dns : within (same SPIPair2) (Auth.HandleAuth rg h msg assignIP dns).
Proof.
  unfold Auth.HandleAuth, Auth.establish, Auth.startEAPExchange, Auth.buildAuthError, Auth.buildEncryptedNotify.
  keep; first [apply response_keeps|apply open_request_keeps].
Qed.

Lemma HandleAuthEAP_keeps h msg assignIP dns : within (same SPIPair2) (EapAuth.HandleAuthEAP rg h msg assignIP dns).
Proof.
  unfold EapAuth.HandleAuthEAP, EapAuth.processEAPResponse, EapAuth.handleEAPIdentity, EapAuth.handleEAPMSCHAPv2, EapAuth.handleMSCHAPv2Response,
    EapAuth.handleMSCHAPv2SuccessAck, EapAuth.handleFinalEAPAuth, EapAuth.sendEAPFailure, EapAuth.sendEAPPayload, Auth.establish, Auth.buildAuthError,
    Auth.buildEncryptedNotify, EapAuth.handleEAPTLS.
  keep; try first [apply response_keeps|apply open_request_keeps]. intros x. by case_bool_decide.
Qed.

End keeps.

(** ** A new session *)

Section init.
Context {C : EspCipher.Cipher.Crypto} {D : Digests} {E : ECDH}.
Context (rg : nat -> nat -> nat -> range).

Definition is_new (sess : IKEv2Session) : Prop :=
  s2_State sess = StateV2InitRecv /\ s2_PeerID sess = [] /\ s2_EAPState sess = None /\ s2_EAPMSK sess = [].

Lemma processNATDetection_new sess msg sess' : is_new sess -> Init.processNATDetection sess msg = Ok sess' -> is_new sess'.
Proof.
  intros Hn. unfold Init.processNATDetection.
  assert (forall l acc, (forall x, acc = Ok x -> is_new x) -> forall x, foldl (fun acc pp =>
    sess ← acc;
    match as_Notify (pp_Payload pp) with
    | None => Ok sess
    | Some n =>
      if nt_NotifyMsgType n =? NotifyNATDetectionSourceIP then
        peer ← SK.deref (s2_PeerAddr sess);
        if negb (CheckNATDetection (nt_NotifyData n) (s2_InitiatorSPI sess) (s2_ResponderSPI sess) (IP peer) (u16 (Port peer)))
        then Ok (set_s2_BehindNATRemote sess true) else Ok sess
      else Ok sess
    end) acc l = Ok x -> is_new x) as H; [|by apply H; intros x [= <-]].
  induction l as [|pp l IH]; intros acc Hacc x; [apply Hacc|]. cbn [foldl]. apply IH. clear x. intros x.
  destruct acc as [y|?|]; [|done..]. rewrite bind_Ok. specialize (Hacc y eq_refl). destruct (as_Notify _); [|by intros [= <-]].
  destruct (_ =? _); [|by intros [= <-]]. destruct (SK.deref _); [|done..]. rewrite bind_Ok. by destruct (negb _); intros [= <-].
Qed.

Lemma HandleSAInit_new h tries x msg peerAddr :
  forall r, wp (Init.HandleSAInit rg h tries x msg peerAddr) (fun _ y => forall resp sess, y = Ok (resp, Some sess) -> is_new sess) r.
Proof.
  intros r. unfold Init.HandleSAInit. destruct (find_as as_SA _); [|done]. destruct (find_as as_KE _); [|done]. destruct (find_as as_Nonce _); [|done].
  assert (forall a b c s, wp (Init.accept_init rg h tries x msg peerAddr a b c) (fun _ y => forall resp sess, y = Ok (resp, Some sess) -> is_new sess) s) as H.
  { clear. intros sa ke nonce s. unfold Init.accept_init. destruct (SelectProposal _ _ _) as [[sel p]|?|]; [|done..]. destruct (negb _); [done|].
    wp_step. unfold wp at 1, Init.draws. destruct (Init.GenerateIKESPI _ _) as [[spi r1]|?|]; [|done..]. cbn [fst snd].
    do 2 wp_step. destruct (NewDHGroup _); [|done..]. do 2 wp_step. destruct (GenerateKeypair _ _) as [[]|?|]; [|done..].
    do 2 wp_step. destruct (ComputeSharedSecret _ _ _); [|done..]. wp_step. unfold wp at 1.
    destruct (GenerateNonce _ _) as [[nr r2]|?|]; [|done..]. cbn [fst snd].
    do 2 wp_step. destruct (NewPRF _); [|done..]. do 2 wp_step. destruct (NewIKEEncryptor _ _); [|done..].
    do 2 wp_step. destruct (Init.select_integrity _ _); [|done..]. do 2 wp_step. destruct (DeriveIKEv2Keys _ _ _ _ _ _ _ _ _); [|done..].
    cbv zeta. do 2 wp_step. destruct (Message_Marshal msg) as [[]|?|]; [|done..]. do 2 wp_step.
    match goal with |- match ?e with _ => _ end => destruct e as [sess|?|] eqn:En; [|done..] end.
    apply processNATDetection_new in En as (E1 & E2 & E3 & E4); [|done]. do 2 wp_step. destruct (SK.deref _); [|done..]. do 2 wp_step.
    destruct (Message_Marshal _) as [[]|?|]; [|done..]. wp_step. intros resp sess' [= _ <-].
    by destruct (Init.findNotifyPayload _ _); split_and!. }
  destruct (Init.findNotifyPayload _ _); [destruct (Init.invalid_cookie _ _ _ _ _); [done|apply H]|].
  destruct (Init.is_busy _); [|apply H]. do 2 wp_step. destruct (Init.buildCookieResponse _ _ _ _); [|done..]. by wp_step.
Qed.

End init.

(** ** What one packet does *)

Section effect.
Context {C : EspCipher.Cipher.Crypto} {D : Digests} {E : ECDH} {L : Eap.Legacy} {O : MapOrder}.
Context (rg : nat -> nat -> nat -> range) (tries : nat) (h1 : Main1.IKEv1Handler) (h2 : Init.IKEv2Handler).

(** The edge a session takes on a request of IKE_AUTH. *)
Definition moves (msg : Message) (r : rng) (sess sess' : IKEv2Session) : Prop :=
  match s2_State sess with
  | StateV2InitRecv => Auth.auth_outcome h2 (Auth.open_request msg (sess, r)).2 sess sess'
  | StateV2EAPInProgress | StateV2EAPDone => EapAuth.eap_outcome h2 (Auth.open_request msg (sess, r)).2 sess sess'
  | _ => sess' = sess
  end.

(** The handler that made the session what it is. *)
Definition handled (msg : Message) (r : rng) (sess sess' : IKEv2Session) : Prop :=
  sess' = (Auth.HandleAuth rg h2 msg None [] (sess, r)).1.1 \/ sess' = (EapAuth.HandleAuthEAP rg h2 msg None [] (sess, r)).1.1.

Inductive effect (packetData : bytes) (r : rng) (m m' : Manager.state) : Prop :=
  | effect_none : m' = m -> effect packetData r m m'
  | effect_new2 l sess : heap2 m !! l = None -> is_new sess ->
      m' = with_manager (set_session2 m l sess) (with_v2 (manager m) (<[SPIPair2 sess := l]> (v2Sessions (manager m)))) -> effect packetData r m m'
  | effect_new1 l sess : heap1 m !! l = None -> s1_State sess = StateV1MainSARecv ->
      m' = with_manager (set_session1 m l sess) (with_v1 (manager m) (<[SPIPair1 sess := l]> (v1Sessions (manager m)))) -> effect packetData r m m'
  | effect_moves msg l sess sess' : ParseMessage packetData = Ok msg -> ExchangeType (msg_Header msg) = ExchangeIKEAuth ->
      v2Sessions (manager m) !! SPIPair (msg_Header msg) = Some l -> heap2 m !! l = Some sess -> SPIPair2 sess' = SPIPair2 sess ->
      moves msg r sess sess' -> handled msg r sess sess' -> m' = set_session2 m l sess' -> effect packetData r m m'.

(** Every session in the maps is live and filed under its SPI pair, a session of IKEv1 is where
    its first message left it, and nothing is known of identities and addresses. *)
Record server_ok (m : Manager.state) : Prop := {
  so_v2 k l : v2Sessions (manager m) !! k = Some l -> exists sess, heap2 m !! l = Some sess /\ SPIPair2 sess = k;
  so_v1 k l : v1Sessions (manager m) !! k = Some l -> exists sess, heap1 m !! l = Some sess /\ SPIPair1 sess = k /\ s1_State sess = StateV1MainSARecv;
  so_identity : identityMap (manager m) = ∅;
  so_assigned : assignedIPs (manager m) = ∅
}.

Lemma register2_new m l sess : heap2 m !! l = Some sess -> s2_PeerID sess = [] -> identityMap (manager m) = ∅ ->
  RegisterV2Session m l = Ok (with_manager m (with_v2 (manager m) (<[SPIPair2 sess := l]> (v2Sessions (manager m))))).
Proof. intros Hl Hp Hi. unfold RegisterV2Session. by rewrite Hl, Hp, Hi, lookup_empty. Qed.

Lemma register1_new m l sess : heap1 m !! l = Some sess -> s1_PeerID sess = [] ->
  RegisterV1Session m l = Ok (with_manager m (with_v1 (manager m) (<[SPIPair1 sess := l]> (v1Sessions (manager m))))).
Proof. intros Hl Hp. unfold RegisterV1Session. by rewrite Hl, Hp. Qed.

Lemma set_session2_id m l sess : heap2 m !! l = Some sess -> set_session2 m l sess = m.
Proof. intros H. unfold set_session2. rewrite insert_id by done. by destruct m. Qed.
Lemma set_session1_id m l sess : heap1 m !! l = Some sess -> set_session1 m l sess = m.
Proof. intros H. unfold set_session1. rewrite insert_id by done. by destruct m. Qed.

Lemma server_eta s : with_rng (with_sessions s (sv_sessions s)) (sv_rng s) = s.
Proof. by destruct s. Qed.

Lemma wp_at_session2 {A} l (m : exch (IKEv2Session * rng) A) Q s sess :
  heap2 (sv_sessions s) !! l = Some sess ->
  wp m (fun sr x => Q (with_rng (with_sessions s (set_session2 (sv_sessions s) l sr.1)) sr.2) x) (sess, sv_rng s) -> wp (at_session2 l m) Q s.
Proof. unfold wp, at_session2. intros ->. by destruct (m _) as [[? ?] ?]. Qed.

Lemma wp_read2 {A} l (f : IKEv2Session -> A) Q s sess :
  heap2 (sv_sessions s) !! l = Some sess -> Q s (Ok (f sess)) -> wp (at_session2 l (on_session f)) Q s.
Proof. intros Hl HQ. eapply wp_at_session2; [done|]. apply wp_on_session. cbn [fst snd]. by rewrite set_session2_id, server_eta. Qed.

Lemma ParseMessage_header buf msg : ParseMessage buf = Ok msg -> ParseHeader buf = Ok (msg_Header msg).
Proof.
  unfold ParseMessage. destruct (_ <? _); [done|]. intros (h & Hh & H)%bind_Ok_inv. apply bind_Ok_inv in H as ([] & _ & H).
  cbv zeta in H. destruct (_ >? _); [done|]. apply bind_Ok_inv in H as (pb & _ & H). by apply bind_Ok_inv in H as (chain & _ & [= <-]).
Qed.

Lemma answer2_effect x packetData msg addr s :
  server_ok (sv_sessions s) -> ParseMessage packetData = Ok msg -> IsIKEv2 (msg_Header msg) = true ->
  wp (answer2 rg tries h2 x msg addr) (fun s' _ => effect packetData (sv_rng s) (sv_sessions s) (sv_sessions s')) s.
Proof.
  intros Hok Hp Hv. unfold answer2. cbv zeta. destruct (_ =? _).
  { wp_step. unfold wp at 1, at_random. pose proof (HandleSAInit_new rg h2 tries x msg addr (sv_rng s)) as Hn. unfold wp in Hn.
    destruct (Init.HandleSAInit _ _ _ _ _ _ _) as [r [[resp [sess|]]|?|]]; cbn [fst snd] in *; [|by constructor 1..].
    specialize (Hn resp sess eq_refl). wp_step. unfold wp at 1, new2. cbn [fst snd sv_sessions with_rng]. set (l := fresh _).
    assert (heap2 (sv_sessions s) !! l = None) as Hl by (apply not_elem_of_dom, is_fresh).
    wp_step. unfold wp at 1, register2, at_manager, Info.managed. cbn [fst snd sv_sessions with_sessions with_rng].
    rewrite (register2_new _ l sess); [|apply lookup_insert_eq|apply Hn|exact (so_identity _ Hok)]. cbn [fst snd]. wp_step. by apply (effect_new2 _ _ _ _ l sess). }
  destruct (Z.eqb_spec (ExchangeType (msg_Header msg)) ExchangeIKEAuth) as [He|_].
  - do 2 wp_step. destruct (GetV2Session _ _) as [l|] eqn:El; [|by constructor 1].
    destruct (so_v2 _ Hok _ _ El) as (sess & Hl & _). wp_step. eapply wp_read2; [exact Hl|].
    assert (forall s', sv_sessions s' = set_session2 (sv_sessions s) l sess -> effect packetData (sv_rng s) (sv_sessions s) (sv_sessions s')) as Hsame
      by (intros s' ->; rewrite set_session2_id by done; by constructor 1).
    case_bool_decide as Hst; wp_step; (eapply wp_at_session2; [exact Hl|]).
    + pose proof (EapAuth.HandleAuthEAP_edges rg h2 msg None [] (sess, sv_rng s)) as Hed. pose proof (HandleAuthEAP_keeps rg h2 msg None [] (sess, sv_rng s)) as Hk.
      unfold wp, same in *. destruct (EapAuth.HandleAuthEAP _ _ _ _ _ _) as [[sess' r'] y] eqn:Erun. cbn [fst snd] in *.
      assert (forall s', sv_sessions s' = set_session2 (sv_sessions s) l sess' -> effect packetData (sv_rng s) (sv_sessions s) (sv_sessions s')) as Hm
        by (intros s' Hs'; apply (effect_moves _ _ _ _ msg l sess sess'); try done; [unfold moves; by destruct Hst as [-> | ->]|right; by rewrite Erun]).
      destruct y; by apply Hm.
    + pose proof (Auth.HandleAuth_edges rg h2 msg None [] (sess, sv_rng s)) as Hed. pose proof (HandleAuth_keeps rg h2 msg None [] (sess, sv_rng s)) as Hk.
      unfold wp, same in *. destruct (Auth.HandleAuth _ _ _ _ _ _) as [[sess' r'] y] eqn:Erun. cbn [fst snd] in *.
      assert (forall s', sv_sessions s' = set_session2 (sv_sessions s) l sess' -> effect packetData (sv_rng s) (sv_sessions s) (sv_sessions s')) as Hm.
      { intros s' Hs'. case_bool_decide as Hi.
        - apply (effect_moves _ _ _ _ msg l sess sess'); try done; [unfold moves; by rewrite Hi|left; by rewrite Erun].
        - destruct Hed as [[= -> ->] _]. by apply Hsame. }
      destruct y; by apply Hm.
  - destruct (_ =? _); [|by constructor 1]. do 2 wp_step. destruct (GetV2Session _ _) as [l|] eqn:El; [|by constructor 1].
    wp_step. unfold wp at 1, at_manager. destruct (Info.HandleInformational_unanswered l packetData msg (sv_sessions s, sv_rng s) Hp Hv) as [e ->].
    cbn [fst snd]. by constructor 1.
Qed.

(** ** What is sent *)

(** The datagram of an answer: on port 4500 behind four zero bytes. *)
Definition framed (data : bytes) (addr : option UDPAddr) (isNATT : bool) : datagram :=
  if isNATT then mkDatagram 4500 (make 4 ++ data) addr else mkDatagram 500 data addr.

Definition same_sent (s s' : Server) : Prop := sv_sent s = sv_sent s' /\ sv_sender s = sv_sender s'.
#[local] Instance same_sent_preorder : PreOrder same_sent.
Proof. split; [done|]. intros ??? [] []. split; congruence. Qed.

Lemma at_session2_sent {A} l (m : exch (IKEv2Session * rng) A) : within same_sent (at_session2 l m).
Proof. intros s. unfold at_session2. destruct (_ !! l); [|done]. by destruct (m _) as [[]]. Qed.
Lemma at_manager_sent {A} (m : exch (Manager.state * rng) A) : within same_sent (at_manager m).
Proof. intros s. unfold at_manager. by destruct (m _) as [[]]. Qed.
Lemma at_random_sent {A} (m : exch rng A) : within same_sent (at_random m).
Proof. intros s. unfold at_random. by destruct (m _). Qed.

Lemma answer2_sent x msg addr : within same_sent (answer2 rg tries h2 x msg addr).
Proof.
  unfold answer2. keep; try first [apply at_session2_sent|apply at_manager_sent|apply at_random_sent]; by intros s.
Qed.

(** One answer at most goes out, to where the packet came from; the sessions stay. *)
Definition sends (addr : option UDPAddr) (isNATT : bool) (s s' : Server) : Prop :=
  sv_sessions s' = sv_sessions s /\ (sv_sent s' = sv_sent s \/ sv_sender s = true /\ exists data, sv_sent s' = sv_sent s ++ [framed data addr isNATT]).

Lemma sendResponse_sends msg addr isNATT s : sends addr isNATT s (sendResponse msg addr isNATT s).1.
Proof.
  unfold sendResponse. change (wp (sender ← get sv_sender; if negb sender then ret tt else logged
    ('(_, data) ← lift (Message_Marshal msg);
      if isNATT then nattData ← lift (copy_at (make (len data + 4)) 4 data); modify (fun s => SendTo s 4500 nattData addr)
      else modify (fun s => SendTo s 500 data addr))) (fun s' _ => sends addr isNATT s s') s).
  do 2 wp_step. destruct (sv_sender s) eqn:Es; cbn [negb]; [|split; [done|by left]].
  unfold wp, logged, mbind at 1, exch_bind at 1, lift at 1. destruct (Message_Marshal msg) as [[m data]|?|]; [|split; [done|by left]..].
  destruct isNATT; unfold mbind, exch_bind, lift, modify; cbn [fst snd].
  - assert (copy_at (make (len data + 4)) 4 data = Ok (make 4 ++ data)) as ->; [|split; [done|right; split; [done|by exists data]]].
    pose proof (len_nonneg data). rewrite Z.add_comm, make_app by lia.
    rewrite fill_copy by (reflexivity || lia). by rewrite Z.sub_diag, (make_0 0), app_nil_r by lia.
  - split; [done|]. right. split; [done|]. by exists data.
Qed.

Definition one_packet (packetData : bytes) (addr : option UDPAddr) (isNATT : bool) (s s' : Server) : Prop :=
  effect packetData (sv_rng s) (sv_sessions s) (sv_sessions s') /\
  (sv_sent s' = sv_sent s \/ sv_sender s = true /\ exists data, sv_sent s' = sv_sent s ++ [framed data addr isNATT]).

Lemma one_packet_none packetData addr isNATT s : one_packet packetData addr isNATT s s.
Proof. split; [by constructor 1|by left]. Qed.

Lemma wp_logged {T} (m : exch T unit) (Q : T -> Prop) s : wp m (fun s' _ => Q s') s -> wp (logged m) (fun s' _ => Q s') s.
Proof. unfold wp, logged. by destruct (m s) as [s' []]. Qed.

Lemma handleIKEv2_effect x packetData addr isNATT s h :
  server_ok (sv_sessions s) -> ParseHeader packetData = Ok h -> MajorVersion h = IKEv2Major ->
  wp (handleIKEv2 rg tries h2 x packetData addr isNATT) (fun s' _ => one_packet packetData addr isNATT s s') s.
Proof.
  intros Hok Hh Hv. unfold handleIKEv2. apply wp_logged. do 2 wp_step. destruct (ParseMessage packetData) as [msg|?|] eqn:Hp; [|apply one_packet_none..].
  assert (IsIKEv2 (msg_Header msg) = true) as Hv2.
  { apply ParseMessage_header in Hp. rewrite Hh in Hp. injection Hp as <-. unfold IsIKEv2. by rewrite Hv. }
  wp_step. pose proof (answer2_effect x packetData msg addr s Hok Hp Hv2) as He. pose proof (answer2_sent x msg addr s) as [Hs Hsd]. unfold wp in *.
  destruct (answer2 _ _ _ _ _ _ _) as [s1 [[resp|]|?|]]; cbn [fst snd] in *; try (split; [done|by left]).
  pose proof (sendResponse_sends resp addr isNATT s1) as [H1 H2]. split; [by rewrite H1|]. by rewrite Hs, Hsd.
Qed.

Lemma handleIKEv1_effect packetData addr isNATT s h :
  server_ok (sv_sessions s) ->
  wp (handleIKEv1 h1 packetData h addr isNATT) (fun s' _ => one_packet packetData addr isNATT s s') s.
Proof.
  intros Hok. unfold handleIKEv1. apply wp_logged. destruct (_ =? _); [|destruct (_ =? _)]; [| |apply one_packet_none].
  - unfold handle_main_mode. case_bool_decide; [|apply one_packet_none]. do 2 wp_step. destruct (ParseMessage _) as [msg|?|]; [|apply one_packet_none..].
    wp_step. unfold wp at 1, at_random, Init.draws. destruct (Main1.HandleMainMode1 h1 msg addr (sv_rng s)) as [[[resp sess] r]|?|] eqn:Em;
      cbn [fst snd]; rewrite ?server_eta; [|split; [by constructor 1|by left]..]. rewrite bind_Ok. cbn [fst snd].
    assert (s1_State sess = StateV1MainSARecv /\ s1_PeerID sess = []) as [Hst Hpid].
    { unfold Main1.HandleMainMode1 in Em. destruct (find_as _ _); [|done]. apply bind_Ok_inv in Em as ([[? ?] ?] & _ & Em).
      destruct (Main1.h1_getConnPSK _ _) as [[]|]; [|done]. cbn [rand_Read] in Em. apply bind_Ok_inv in Em as (? & _ & [= _ <- _]). done. }
    wp_step. unfold wp at 1, new1. cbn [fst snd sv_sessions with_rng]. set (l := fresh _).
    assert (heap1 (sv_sessions s) !! l = None) as Hl by (apply not_elem_of_dom, is_fresh).
    wp_step. unfold wp at 1, register1, at_manager, Info.managed. cbn [fst snd sv_sessions with_sessions with_rng].
    rewrite (register1_new _ l sess); [|apply lookup_insert_eq|done]. cbn [fst snd].
    match goal with |- wp _ _ ?s1 => pose proof (sendResponse_sends resp addr isNATT s1) as [H1 H2] end. unfold wp. cbn [fst snd] in *.
    split; [|exact H2]. rewrite H1. by apply (effect_new1 _ _ _ _ l sess).
  - unfold handle_transaction. do 2 wp_step. destruct (GetV1Session _ _) as [l|] eqn:El; [|apply one_packet_none].
    destruct (so_v1 _ Hok _ _ El) as (sess & Hl & _ & Hst). wp_step. unfold wp at 1, at_session1. rewrite Hl.
    assert (Xauth.HandleTransaction h1 packetData h (sess, sv_rng s) = ((sess, sv_rng s), Err "XAUTH: unexpected state")) as ->.
    { unfold Xauth.HandleTransaction. erewrite exch_bind_Ok; [|reflexivity]. cbn [fst]. by rewrite Hst. }
    cbn [fst snd]. rewrite set_session1_id, server_eta by done. apply one_packet_none.
Qed.

Lemma HandlePacket_effect x buf n addr isNATT s :
  server_ok (sv_sessions s) ->
  wp (HandlePacket rg tries h1 h2 x buf n addr isNATT) (fun s' _ => one_packet (sub buf 0 n) addr isNATT s s') s.
Proof.
  intros Hok. unfold HandlePacket. destruct (_ <? _); [apply one_packet_none|]. apply wp_logged. do 2 wp_step.
  destruct (slice buf 0 n) as [packetData|?|] eqn:Es; [|apply one_packet_none..]. apply slice_inv in Es as (_ & _ & ->).
  do 2 wp_step. destruct (ParseHeader _) as [h|?|] eqn:Eh; [|apply one_packet_none..]. do 2 wp_step. destruct (Validate h); [|apply one_packet_none..].
  destruct (Z.eqb_spec (MajorVersion h) IKEv2Major); [by eapply handleIKEv2_effect|]. destruct (_ =? _); [by apply handleIKEv1_effect|apply one_packet_none].
Qed.

(** ** Runs of the server *)

Definition step (s s' : Server) : Prop := exists x buf n addr isNATT, HandlePacket rg tries h1 h2 x buf n addr isNATT s = (s', Ok tt).

Lemma step_effect s s' : server_ok (sv_sessions s) -> step s s' -> exists packetData, effect packetData (sv_rng s) (sv_sessions s) (sv_sessions s').
Proof.
  intros Hok (x & buf & n & addr & natt & H). pose proof (HandlePacket_effect x buf n addr natt s Hok) as [He _]. rewrite H in He. by eexists.
Qed.

Lemma effect_ok packetData r m m' : server_ok m -> effect packetData r m m' -> server_ok m'.
Proof.
  intros Hok [->|l sess Hl [Hs _] ->|l sess Hl Hs ->|msg l sess sess' _ _ Hm Hl Hp _ _ ->]; [done| | |]; destruct Hok as [H2 H1 Hi Ha].
  - constructor; cbn; [|done..]. intros k l' [[<- <-]|[_ Hk]]%lookup_insert_Some; [exists sess; by rewrite lookup_insert_eq|].
    destruct (H2 _ _ Hk) as (y & Hy & Eq). exists y. rewrite lookup_insert_ne by congruence. done.
  - constructor; cbn; [done| |done..]. intros k l' [[<- <-]|[_ Hk]]%lookup_insert_Some; [exists sess; by rewrite lookup_insert_eq|].
    destruct (H1 _ _ Hk) as (y & Hy & Eq). exists y. rewrite lookup_insert_ne by congruence. done.
  - constructor; cbn; [|done..]. intros k l' Hk. destruct (H2 _ _ Hk) as (y & Hy & <-). destruct (decide (l' = l)) as [->|].
    + exists sess'. rewrite lookup_insert_eq. split; [done|]. congruence.
    + exists y. by rewrite lookup_insert_ne.
Qed.

Lemma step_ok s s' : server_ok (sv_sessions s) -> step s s' -> server_ok (sv_sessions s').
Proof. intros Hok [pd He]%step_effect; [|done]. by eapply effect_ok. Qed.

Lemma start_ok e w r sender : server_ok (sv_sessions (NewServer (mkState ∅ ∅ (NewSessionManager e) w) r sender)).
Proof. constructor; cbn; try done; intros *; by rewrite lookup_empty. Qed.

(** C14: Whatever packets arrive: every session the manager knows is live and filed under its own
    SPI pair, every session of IKEv1 is still where its first message left it, and no identity
    and no address was ever recorded, so that no connection is ever replaced. *)
Theorem sessions_well_formed e w r sender s :
  star step (NewServer (mkState ∅ ∅ (NewSessionManager e) w) r sender) s -> server_ok (sv_sessions s).
Proof. apply (star_invariant step (fun s => server_ok (sv_sessions s))); [apply step_ok|apply start_ok]. Qed.

(** The sessions known before are known after. *)
Definition grows (s s' : Server) : Prop :=
  dom (v2Sessions (manager (sv_sessions s))) ⊆ dom (v2Sessions (manager (sv_sessions s'))) /\
  dom (v1Sessions (manager (sv_sessions s))) ⊆ dom (v1Sessions (manager (sv_sessions s'))).

Definition untouched (w : Engine.world) (s : Server) : Prop := server_ok (sv_sessions s) /\ esp (sv_sessions s) = w.

Lemma step_grows w s s' : untouched w s -> step s s' -> untouched w s' /\ grows s s'.
Proof.
  intros [Hok Hw] Hst. pose proof (step_ok s s' Hok Hst) as Hok'. apply step_effect in Hst as [pd He]; [|done].
  destruct He as [Eq|l sess _ _ Eq|l sess _ _ Eq|msg l sess sess' _ _ _ _ _ _ _ Eq]; unfold untouched, grows; rewrite Eq in *; cbn; rewrite ?dom_insert; set_solver.
Qed.

(** C6: The control plane never reaches the data plane, and a session is never removed: the ESP
    engine is as it was when the server started, and the SPI pairs once registered stay. *)
Theorem control_plane_isolated e w r sender s s' :
  star step (NewServer (mkState ∅ ∅ (NewSessionManager e) w) r sender) s -> star step s s' ->
  esp (sv_sessions s') = w /\ dom (v2Sessions (manager (sv_sessions s))) ⊆ dom (v2Sessions (manager (sv_sessions s'))) /\
  dom (v1Sessions (manager (sv_sessions s))) ⊆ dom (v1Sessions (manager (sv_sessions s'))).
Proof.
  intros Hs Hs'. assert (untouched w s) as HI.
  { eapply (star_invariant step (untouched w)); [intros a b Ha Hab; by apply (step_grows w a b)|split; [apply start_ok|done]|exact Hs]. }
  clear Hs. enough (untouched w s' /\ grows s s') as [[_ ?] []] by done.
  induction Hs' as [s|s1 s2 s3 _ IH Hst]; [done|]. destruct (IH HI) as (H2 & D2 & D1).
  destruct (step_grows w s2 s3 H2 Hst) as (H3 & D3 & D4). split; [done|]. split; etrans; done.
Qed.

(** A packet is answered at most once, to the address it came from: on port 500, or on port
    4500 with the marker of four zero bytes.  A server without sender is silent. *)
Theorem one_answer_per_packet e w r sender s x buf n addr isNATT s' :
  star step (NewServer (mkState ∅ ∅ (NewSessionManager e) w) r sender) s ->
  HandlePacket rg tries h1 h2 x buf n addr isNATT s = (s', Ok tt) ->
  sv_sent s' = sv_sent s \/ sv_sender s = true /\ exists data, sv_sent s' = sv_sent s ++ [framed data addr isNATT].
Proof.
  intros Hs Hp. assert (server_ok (sv_sessions s)) as Hok
    by (eapply (star_invariant step (fun s => server_ok (sv_sessions s))); [apply step_ok|apply start_ok|exact Hs]).
  pose proof (HandlePacket_effect x buf n addr isNATT s Hok) as [_ He]. by rewrite Hp in He.
Qed.

End effect.

(** ** What establishes a session *)

Section established.
Context {C : EspCipher.Cipher.Crypto} {D : Digests} {DL : DigestLaws D} {E : ECDH} {L : Eap.Legacy} {LL : Eap.LegacyLaws L} {O : MapOrder}.
Context (rg : nat -> nat -> nat -> range) (tries : nat) (h1 : Main1.IKEv1Handler) (h2 : Init.IKEv2Handler).

#[local] Abbreviation step := (step rg tries h1 h2).
#[local] Abbreviation effect := (effect rg h2).

(** What the server knows of a session: its key of EAP vouches for a password, and without
    credentials EAP has not started. *)
Definition session_sound (sess : IKEv2Session) : Prop :=
  EapAuth.eap_sound h2 sess /\
  (Init.getEAPCredentials h2 = None -> s2_State sess <> StateV2EAPInProgress /\ s2_State sess <> StateV2EAPDone).

Definition sound (m : Manager.state) : Prop := forall l sess, heap2 m !! l = Some sess -> session_sound sess.

Lemma new_sound sess : is_new sess -> session_sound sess.
Proof.
  intros (Hs & _ & Hst & Hk). split; [|by rewrite Hs]. split; [|by left]. intros state. by rewrite Hst.
Qed.

Lemma moves_sound msg r sess sess' : session_sound sess -> moves h2 msg r sess sess' -> handled rg h2 msg r sess sess' -> session_sound sess'.
Proof.
  intros [He Hn] Hm Hh. split.
  - destruct Hh as [Hh|Hh]; rewrite Hh.
    + pose proof (EapAuth.HandleAuth_fields rg h2 msg None [] (sess, r)) as Hf. exact (EapAuth.eap_sound_same h2 _ _ Hf He).
    + pose proof (EapAuth.HandleAuthEAP_preserves rg h2 msg None [] (sess, r)) as Hf. exact (Hf He).
  - intros Hc. destruct (Hn Hc) as [H1 H2]. unfold moves in Hm. destruct (s2_State sess) eqn:Es; try done; try (subst sess'; by rewrite Es).
    destruct Hm as [H|chain _ Hx _ _|chain id cn c H _ _ _ _ _]; [by rewrite H|by destruct Hx|by rewrite H].
Qed.

Lemma effect_sound pd r m m' : sound m -> effect pd r m m' -> sound m'.
Proof.
  intros Hs [->|l sess Hl Hn ->|l sess Hl _ ->|msg l sess sess' _ _ _ Hl _ Hm Hh ->]; [done| |done|]; intros l' x; cbn.
  - intros [[_ <-]|[_ Hx]]%lookup_insert_Some; [by apply new_sound|by eapply Hs].
  - intros [[_ <-]|[_ Hx]]%lookup_insert_Some; [eapply moves_sound; [by eapply Hs|done..]|by eapply Hs].
Qed.

Lemma reachable_sound e w r sender s :
  star step (NewServer (mkState ∅ ∅ (NewSessionManager e) w) r sender) s -> server_ok (sv_sessions s) /\ sound (sv_sessions s).
Proof.
  apply (star_invariant step (fun s => server_ok (sv_sessions s) /\ sound (sv_sessions s))).
  - intros s1 s2 [Hok Hs] Hst. split; [by eapply step_ok|]. apply step_effect in Hst as [pd He]; [|done]. by eapply effect_sound.
  - split; [apply start_ok|]. intros l sess. cbn. by rewrite lookup_empty.
Qed.

(** The key that the proof of a request is checked with, and the identity it is for: at first
    the shared key of a connection for the identity in the request; once EAP is over the key
    of EAP, which a password gave; or, if the acknowledgement was of no verified response,
    the key that is left in the session, none as a rule. *)
Inductive checked_with (sess : IKEv2Session) (chain : PayloadChain) : bytes -> Z -> bytes -> Prop :=
  | by_psk id psk connName : s2_State sess = StateV2InitRecv -> find_as as_ID chain = Some id ->
      Init.getConnPSK h2 (s2_PeerAddr sess) (id_Data id) = Some (psk, connName) -> checked_with sess chain psk (id_IDType id) (id_Data id)
  | by_password username challenge password nt : s2_State sess = StateV2EAPDone ->
      EapAuth.password_response h2 username challenge password nt ->
      checked_with sess chain (Eap.mschap_msk password nt) (s2_PeerIDType sess) (s2_PeerID sess)
  | by_leftover : s2_State sess = StateV2EAPDone -> s2_EAPMSK sess = [] ->
      checked_with sess chain (s2_PSK sess) (s2_PeerIDType sess) (s2_PeerID sess).

(** The AUTH payload is the shared-key proof of RFC 7296 for the key and the identity. *)
Definition proves (sess : IKEv2Session) (auth : AUTHPayload) (key : bytes) (idType : Z) (idData : bytes) : Prop :=
  auth_Method auth = AuthSharedKey /\ exists prf keys, s2_PRF sess = Some prf /\ s2_Keys sess = Some keys /\
    auth_Data auth = rfc_AUTH prf key (s2_InitReqBytes sess) (s2_NonceR sess) (SK_pi keys) idType idData.

(** The request, opened with the keys of the session, has an AUTH payload with a proof; or it
    names one of the certificate methods, and then nothing of it is looked at. *)
Definition admitted (sess : IKEv2Session) (r : rng) (msg : Message) (y : IKEv2Session) : Prop :=
  exists chain auth, (Auth.open_request msg (sess, r)).2 = Ok chain /\ find_as as_AUTH chain = Some auth /\
    ((exists key idType, checked_with sess chain key idType (s2_PeerID y) /\ proves sess auth key idType (s2_PeerID y)) \/
     auth_Method auth ∈ [AuthRSASig; AuthECDSASHA256; AuthECDSASHA384; AuthDigitalSig]).

Lemma moves_admitted msg r sess y : session_sound sess -> moves h2 msg r sess y -> s2_State y = StateV2Established ->
  s2_State sess = StateV2Established \/ admitted sess r msg y /\ (Init.getEAPCredentials h2 = None -> s2_State sess = StateV2InitRecv).
Proof.
  unfold moves. intros [[_ Hkey] Hn] Hm Hy.
  assert (forall m, Auth.cert_method m -> m ∈ [AuthRSASig; AuthECDSASHA256; AuthECDSASHA384; AuthDigitalSig]) as Hcert
    by (intros m [->|[->|[->| ->]]]; set_solver).
  destruct (s2_State sess) eqn:Es; try (subst y; by rewrite Hy in Es); try by left.
  - destruct Hm as [H|chain H _ _ _|chain id cn c _ Ho Ha Hid _ _]; [congruence..|]. right. split; [|done].
    destruct Ha as [Hf (auth & psk & Hauth & Hpsk & Hpr)]. exists chain, auth. split_and!; [done..|].
    destruct Hpr as [[Hme (prf & keys & Hp & Hk & Hd)]|Hc]; [left|right; by apply Hcert].
    exists psk, (id_IDType id). rewrite Hid. split; [by eapply by_psk|]. split; [done|]. by exists prf, keys.
  - destruct Hm as [H _|chain e pkt st f pw H _ _ _ _ _ _ _ _|chain auth c H _ _ _ _ _ _]; congruence.
  - destruct Hm as [H _|chain e pkt st f pw H _ _ _ _ _ _ _ _|chain auth c _ _ Ho Ha Hpr _ Hid]; [congruence..|]. right.
    split; [|intros Hc; by destruct (Hn Hc)]. exists chain, auth. split_and!; [done..|].
    destruct Hpr as [[Hme (prf & keys & Hp & Hk & Hd)]|Hc]; [left|right; by apply Hcert].
    exists (EapAuth.final_key sess), (s2_PeerIDType sess). rewrite Hid. split; [|split; [done|]; by exists prf, keys].
    unfold EapAuth.final_key. case_bool_decide as Hne.
    + destruct Hkey as [|(u & ch & pw & nt & Hr & ->)]; [done|]. by eapply by_password.
    + apply by_leftover; [done|]. by destruct (s2_EAPMSK sess).
Qed.

(** C1: What establishes a session of IKEv2: only a request of IKE_AUTH for its own SPI pair that
    opens with its keys and has an AUTH payload.  If that is of the shared-key method it is
    the value of RFC 7296 over the first message (as the session keeps it), our nonce and the
    identity the session is established for, under one of three keys: the shared key of a
    connection for that identity; once EAP is over, the key that a response of the user's
    password gives; or, a gap of the code, when EAP was acknowledged without a response, the
    key that is left in the session, an empty one as a rule ([by_leftover]).  If it is of a
    certificate method, the other gap, nothing is proved at all: the data is not looked at
    ([demo_unproved]).  Without credentials for EAP, as the daemon is started, the session is
    established from its first state, so with the shared key of a connection or by a
    certificate method. *)
Theorem established_by_AUTH e w r sender s x buf n addr isNATT s' k y :
  star step (NewServer (mkState ∅ ∅ (NewSessionManager e) w) r sender) s ->
  HandlePacket rg tries h1 h2 x buf n addr isNATT s = (s', Ok tt) ->
  session2 (sv_sessions s') k = Some y -> s2_State y = StateV2Established ->
  exists sess, session2 (sv_sessions s) k = Some sess /\
    (s2_State sess = StateV2Established \/
     exists msg, ParseMessage (sub buf 0 n) = Ok msg /\ ExchangeType (msg_Header msg) = ExchangeIKEAuth /\ SPIPair (msg_Header msg) = k /\
       admitted sess (sv_rng s) msg y /\ (Init.getEAPCredentials h2 = None -> s2_State sess = StateV2InitRecv)).
Proof.
  intros [Hok Hsd]%reachable_sound Hp Hy Hst.
  pose proof (HandlePacket_effect rg tries h1 h2 x buf n addr isNATT s Hok) as [He _]. rewrite Hp in He. cbn [fst] in He.
  set (m := sv_sessions s) in *. set (m' := sv_sessions s') in *. clearbody m'. unfold session2 in *.
  destruct He as [->|l sess Hl [Hn _] ->|l sess Hl Hn ->|msg l sess sess' Hmsg Het Hm Hl Hp2 Hmv _ ->].
  - exists y. by split; [|left].
  - cbn in Hy. rewrite lookup_insert in Hy. case_decide as Hk.
    + cbn in Hy. rewrite lookup_insert_eq in Hy. congruence.
    + destruct (v2Sessions (manager m) !! k) as [l'|] eqn:Ek; [|done]. cbn in Hy. destruct (so_v2 _ Hok _ _ Ek) as (z & Hz & _).
      rewrite lookup_insert_ne in Hy by congruence. exists y. split; [done|by left].
  - exists y. by split; [|left].
  - cbn in Hy. destruct (v2Sessions (manager m) !! k) as [l'|] eqn:Ek; [|done]. cbn in Hy |- *. rewrite lookup_insert in Hy. case_decide as Hll.
    + injection Hy as ->. subst l'. exists sess. split; [done|]. destruct (moves_admitted _ _ _ _ (Hsd _ _ Hl) Hmv Hst) as [?|[Hpr Hi]]; [by left|right].
      exists msg. split_and!; try done. destruct (so_v2 _ Hok _ _ Hm) as (z & Hz & E1). destruct (so_v2 _ Hok _ _ Ek) as (z' & Hz' & E2). congruence.
    + exists y. by split; [|left].
Qed.

End established.

(** ** A run: a peer sets up an IKE SA and authenticates with the shared key *)

Import EspCipher.Cipher.Toy.

Definition demo_v2_handler : Init.IKEv2Handler :=
  Init.mkHandler2 (Some DefaultIKEProposals) (Some DefaultESPProposals) (fun _ _ => Some (bytes_of_string "psk", bytes_of_string "home")) None
    (bytes_of_string "gw") IDFQDN CookieModeAuto (replicate 32 9).

Section demo.
Existing Instances Eap.toy_legacy Eap.toy_legacy_laws.

Definition demo_packet (buf : bytes) (s : Server) : Server * res unit :=
  HandlePacket (fun _ _ _ => map_range) 1 Main1.demo_v1_handler demo_v2_handler (PrivKey [3]) buf (len buf) (Some Init.demo_peer) false s.

Definition wire (m : Message) : bytes := match Message_Marshal m with Ok (_, b) => b | _ => [] end.

Definition demo_start : Server := NewServer empty_state demo_rng true.
Definition demo_init : Server := (demo_packet (wire Init.demo_request) demo_start).1.

(** A request of IKE_AUTH: the first payload is lost to the server, so the identity is the second. *)
Definition demo_seal (sess : IKEv2Session) (auth : AUTHPayload) : bytes :=
  match s2_Keys sess with
  | Some keys =>
    let inner := [PNonce (mkNonce [0]); PID (mkID true IDFQDN [97; 98]); PAUTH auth; PSA DefaultESPProposals] in
    let hdr n := mkHeader (s2_InitiatorSPI sess) (s2_ResponderSPI sess) PayloadSK 2 0 ExchangeIKEAuth FlagInitiator 1 (HeaderLen + 4 + n) in
    let n := len (chain_bytes inner) + 8 + 1 + 16 in
    match SK.EncryptSKPayload (s2_Encryptor sess) (s2_Integrity sess) (SK_ei keys) (SK_ai keys) (header_bytes (hdr n)) inner demo_rng with
    | Ok (_, body, _) => header_bytes (hdr (len body)) ++ payload_bytes 0 body
    | _ => []
    end
  | None => []
  end.

(** The peer proves the shared key. *)
Definition demo_auth (sess : IKEv2Session) : bytes :=
  match s2_PRF sess, s2_Keys sess with
  | Some prf, Some keys =>
    demo_seal sess (mkAUTH AuthSharedKey
      (rfc_AUTH prf (bytes_of_string "psk") (s2_InitReqBytes sess) (s2_NonceR sess) (SK_pi keys) IDFQDN [97; 98]))
  | _, _ => []
  end.

Definition demo_pair : bytes := match map_to_list (v2Sessions (manager (sv_sessions demo_init))) with (k, _) :: _ => k | [] => [] end.
Definition demo_request2 : bytes := match session2 (sv_sessions demo_init) demo_pair with Some x => demo_auth x | None => [] end.
Definition demo_done : Server := (demo_packet demo_request2 demo_init).1.

(** What the packets do, evaluated. *)
Lemma demo_init_ok : (demo_packet (wire Init.demo_request) demo_start).2 = Ok tt.
Proof. vm_compute. reflexivity. Qed.
Lemma demo_done_ok : (demo_packet demo_request2 demo_init).2 = Ok tt.
Proof. vm_compute. reflexivity. Qed.
Lemma demo_init_state : s2_State <$> session2 (sv_sessions demo_init) demo_pair = Some StateV2InitRecv.
Proof. vm_compute. reflexivity. Qed.
Lemma demo_done_state : s2_State <$> session2 (sv_sessions demo_done) demo_pair = Some StateV2Established.
Proof. vm_compute. reflexivity. Qed.

Lemma demo_answered buf s : (demo_packet buf s).2 = Ok tt -> demo_packet buf s = ((demo_packet buf s).1, Ok tt).
Proof. intros <-. by destruct (demo_packet buf s). Qed.

Lemma demo_reached :
  star (step (fun _ _ _ => map_range) 1 Main1.demo_v1_handler demo_v2_handler) (NewServer (mkState ∅ ∅ (NewSessionManager true) idle_world) demo_rng true) demo_init.
Proof. eapply star_snoc; [apply star_refl|]. eexists _, _, _, _, _. exact (demo_answered _ _ demo_init_ok). Qed.

Lemma demo_continued : star (step (fun _ _ _ => map_range) 1 Main1.demo_v1_handler demo_v2_handler) demo_init demo_done.
Proof. eapply star_snoc; [apply star_refl|]. eexists _, _, _, _, _. exact (demo_answered _ _ demo_done_ok). Qed.

Lemma sessions_well_formed_witness : server_ok (sv_sessions demo_init).
Proof. exact (sessions_well_formed _ _ _ _ true idle_world demo_rng true demo_init demo_reached). Defined.

Lemma control_plane_isolated_witness : esp (sv_sessions demo_done) = idle_world.
Proof. exact (proj1 (control_plane_isolated _ _ _ _ true idle_world demo_rng true demo_init demo_done demo_reached demo_continued)). Defined.

Lemma established_by_AUTH_witness :
  exists sess msg y, session2 (sv_sessions demo_init) demo_pair = Some sess /\ ExchangeType (msg_Header msg) = ExchangeIKEAuth /\
    session2 (sv_sessions demo_done) demo_pair = Some y /\ admitted demo_v2_handler sess (sv_rng demo_init) msg y.
Proof.
  destruct (session2 (sv_sessions demo_done) demo_pair) as [y|] eqn:Ey; [|pose proof demo_done_state as H; by rewrite Ey in H].
  pose proof demo_done_state as Hy. rewrite Ey in Hy. injection Hy as Hy.
  destruct (established_by_AUTH _ _ _ _ true idle_world demo_rng true demo_init _ _ _ _ _ demo_done demo_pair y demo_reached (demo_answered _ _ demo_done_ok) Ey Hy)
    as (sess & Hs & [He|(msg & _ & Ht & _ & Hpr & _)]).
  - pose proof demo_init_state as H. rewrite Hs in H. injection H as H. congruence.
  - exists sess, msg, y. by split_and!.
Defined.

(** A peer that has no key names the method of an RSA signature, with no signature, and its
    session is established. *)
Definition demo_unproved_request : bytes :=
  match session2 (sv_sessions demo_init) demo_pair with Some x => demo_seal x (mkAUTH AuthRSASig []) | None => [] end.

Example demo_unproved :
  let s := (demo_packet demo_unproved_request demo_init).1 in
  s2_State <$> session2 (sv_sessions s) demo_pair = Some StateV2Established /\ s2_PeerID <$> session2 (sv_sessions s) demo_pair = Some [97; 98].
Proof. vm_compute. by split. Qed.

Lemma one_answer_per_packet_witness :
  sv_sent demo_done = sv_sent demo_init \/ sv_sender demo_init = true /\ exists data, sv_sent demo_done = sv_sent demo_init ++ [framed data (Some Init.demo_peer) false].
Proof.
  exact (one_answer_per_packet _ _ _ _ true idle_world demo_rng true demo_init _ _ _ _ _ demo_done demo_reached (demo_answered _ _ demo_done_ok)).
Defined.

End demo.

End IServer.
