(* ===== verification/Config.v ===== *)
(** * Config: the configuration ([internal/config/types.go], [internal/config/loader.go])

    The records are the structs the YAML decoder fills; absent values are the zero values.
    A connection is a pointer, nil ([None]) where the file names a connection and gives it
    no value.  The decoder, the file system and the name of the host are parameters; a path
    is one of Unix ([Filepath]).  Log lines are left out. *)

From S2P Require Import Prelude Exch Filepath.

#[local] Open Scope string_scope.

Module Cfg.

Record ServerConfig := mkServerCfg {
  Hostname : string; Listen : string
}.

Record TUNConfig := mkTUN {
  DeviceName : string; MTU : Z
}.

Record LoggingConfig := mkLogging {
  Level : string; Output : string; File : string; MaxSize : Z; MaxBackups : Z; MaxAge : Z; LogCompress : bool
}.

Record ConnectionConfig := mkConn {
  Left : string; LeftID : string; LeftSubnet : string; LeftSourceIP : string; LeftNextHop : string;
  LeftProtoPort : string; LeftAddressPool : string; LeftCert : string; LeftAuth : string;
  LeftSendCert : string; LeftModeCfgServer : string; LeftModeCfgClient : string; Right : string;
  RightID : string; RightSubnet : string; RightSourceIP : string; RightNextHop : string;
  RightProtoPort : string; RightAddressPool : string; RightCert : string; RightAuth : string;
  RightSendCert : string; RightModeCfgServer : string; RightModeCfgClient : string; AuthBy : string;
  PSK : string; ConnType : string; Auto : string; KeyExchange : string; IKE : string; ESP : string;
  Phase2Alg : string; Phase2 : string; Encapsulation : string; NATKeepalive : string; EnableTCP : string;
  TCPRemotePort : Z; IKELifetime : string; SALifetime : string; Rekey : string; RekeyMargin : string;
  RekeyFuzz : string; KeyingTries : Z; PFS : string; DPDDelay : Z; DPDTimeout : Z; DPDAction : string;
  MOBIKE : string; Fragmentation : string; ReplayWindow : Z; ESN : string; RetransmitTimeout : string;
  RetransmitInterval : Z; Compress : string; SHA2TruncBug : string; Narrowing : string;
  InitialContact : string; ModeCfgDNS : string; ModeCfgDomains : string; HostAddrFamily : string;
  ClientAddrFamily : string
}.

Record IPSecConfig := mkIPSec {
  Connections : gmap string (option ConnectionConfig); ConnectionDir : list string; HotReload : bool
}.

Record IPAMConfig := mkIPAM {
  Range : string; DNS : list string
}.

Record IKEv2Config := mkIKEv2 {
  Enabled : bool; CookieMode : string; IPAM : IPAMConfig; Profile : list string; IKEv2_HotReload : bool
}.

Record L2TPIPAMConfig := mkL2TPIPAM {
  Gateway : string; L2TP_Range : string; L2TP_DNS : list string
}.

Record L2TPConfig := mkL2TP {
  L2TP_Enabled : bool; L2TP_IPAM : L2TPIPAMConfig; L2TP_Profile : list string; L2TP_HotReload : bool
}.

Record Config := mkConfig {
  Server : ServerConfig; Logging : LoggingConfig; TUN : TUNConfig; IPSec : IPSecConfig; IKEv2 : IKEv2Config;
  L2TP : L2TPConfig
}.

Definition with_Server (v : ServerConfig) (c : Config) : Config := mkConfig v (Logging c) (TUN c) (IPSec c) (IKEv2 c) (L2TP c).
Definition with_Logging (v : LoggingConfig) (c : Config) : Config := mkConfig (Server c) v (TUN c) (IPSec c) (IKEv2 c) (L2TP c).
Definition with_IPSec (v : IPSecConfig) (c : Config) : Config := mkConfig (Server c) (Logging c) (TUN c) v (IKEv2 c) (L2TP c).
Definition with_IKEv2 (v : IKEv2Config) (c : Config) : Config := mkConfig (Server c) (Logging c) (TUN c) (IPSec c) v (L2TP c).
Definition with_L2TP (v : L2TPConfig) (c : Config) : Config := mkConfig (Server c) (Logging c) (TUN c) (IPSec c) (IKEv2 c) v.

Definition with_Connections (m : gmap string (option ConnectionConfig)) (c : Config) : Config :=
  with_IPSec (mkIPSec m (ConnectionDir (IPSec c)) (HotReload (IPSec c))) c.

(** The method [Connections] of the source; a nil map is empty. *)
Definition Config_Connections (c : Config) : gmap string (option ConnectionConfig) := Connections (IPSec c).

(** ** Defaults *)

Definition or_default (s d : string) : string := if s =? "" then d else s.

(** The assignments of [applyConnectionDefaults].  Nothing is assigned to [ReplayWindow]. *)
Definition with_defaults (c : ConnectionConfig) : ConnectionConfig := {|
  Left := Left c; LeftID := LeftID c; LeftSubnet := LeftSubnet c; LeftSourceIP := LeftSourceIP c;
  LeftNextHop := LeftNextHop c; LeftProtoPort := LeftProtoPort c; LeftAddressPool := LeftAddressPool c;
  LeftCert := LeftCert c; LeftAuth := LeftAuth c; LeftSendCert := LeftSendCert c;
  LeftModeCfgServer := LeftModeCfgServer c; LeftModeCfgClient := LeftModeCfgClient c; Right := Right c;
  RightID := RightID c; RightSubnet := RightSubnet c; RightSourceIP := RightSourceIP c; RightNextHop := RightNextHop c;
  RightProtoPort := RightProtoPort c; RightAddressPool := RightAddressPool c; RightCert := RightCert c;
  RightAuth := RightAuth c; RightSendCert := RightSendCert c; RightModeCfgServer := RightModeCfgServer c;
  RightModeCfgClient := RightModeCfgClient c; AuthBy := AuthBy c; PSK := PSK c;
  ConnType := or_default (ConnType c) "tunnel"; Auto := or_default (Auto c) "ignore";
  KeyExchange := or_default (KeyExchange c) "ikev2"; IKE := IKE c;
  ESP := if (ESP c =? "") && negb (Phase2Alg c =? "") then Phase2Alg c else ESP c; Phase2Alg := Phase2Alg c;
  Phase2 := or_default (Phase2 c) "esp"; Encapsulation := or_default (Encapsulation c) "auto";
  NATKeepalive := or_default (NATKeepalive c) "yes"; EnableTCP := or_default (EnableTCP c) "no";
  TCPRemotePort := TCPRemotePort c; IKELifetime := or_default (IKELifetime c) "8h";
  SALifetime := or_default (SALifetime c) "8h"; Rekey := or_default (Rekey c) "yes";
  RekeyMargin := or_default (RekeyMargin c) "9m"; RekeyFuzz := or_default (RekeyFuzz c) "100%";
  KeyingTries := KeyingTries c; PFS := or_default (PFS c) "yes"; DPDDelay := DPDDelay c; DPDTimeout := DPDTimeout c;
  DPDAction := if (DPDDelay c >? 0)%Z && (DPDAction c =? "") then "clear" else DPDAction c;
  MOBIKE := or_default (MOBIKE c) "no"; Fragmentation := or_default (Fragmentation c) "yes";
  ReplayWindow := ReplayWindow c; ESN := or_default (ESN c) "either";
  RetransmitTimeout := or_default (RetransmitTimeout c) "60s";
  RetransmitInterval := if (RetransmitInterval c =? 0)%Z then 500%Z else RetransmitInterval c;
  Compress := or_default (Compress c) "no"; SHA2TruncBug := or_default (SHA2TruncBug c) "no";
  Narrowing := or_default (Narrowing c) "no"; InitialContact := or_default (InitialContact c) "yes";
  ModeCfgDNS := ModeCfgDNS c; ModeCfgDomains := ModeCfgDomains c; HostAddrFamily := HostAddrFamily c;
  ClientAddrFamily := ClientAddrFamily c
|}.

(** The pointer is not nil.  Nothing is assigned before the last check. *)
Definition applyConnectionDefaults (conn : ConnectionConfig) : res ConnectionConfig :=
  if Left conn =? "" then Err "left is required"
  else if Right conn =? "" then Err "right is required"
  else if AuthBy conn =? "" then Err "authby is required"
  else if (AuthBy conn =? "secret") && (PSK conn =? "") then Err "psk is required when authby=secret"
  else Ok (with_defaults conn).

(** The loop over the connections, in the order it visits them. *)
Fixpoint apply_connections (entries : list (string * option ConnectionConfig)) : exch Config unit :=
  match entries with
  | [] => ret tt
  | (_, None) :: _ => lift Panic
  | (name, Some conn) :: entries =>
    conn ← lift (applyConnectionDefaults conn);
    _ ← modify (fun c => with_Connections (<[name := Some conn]> (Config_Connections c)) c);
    apply_connections entries
  end.

Definition or_int (n d : Z) : Z := if (n =? 0)%Z then d else n.
Definition or_list (l d : list string) : list string := match l with [] => d | _ => l end.

Definition server_defaults (hostname : string) (s : ServerConfig) : ServerConfig :=
  mkServerCfg hostname (or_default (Listen s) "0.0.0.0").
Definition logging_defaults (l : LoggingConfig) : LoggingConfig :=
  mkLogging (or_default (Level l) "info") (or_default (Output l) "stdout") (File l) (or_int (MaxSize l) 10) (or_int (MaxBackups l) 5)
    (or_int (MaxAge l) 7) (LogCompress l).
Definition ikev2_defaults (k : IKEv2Config) : IKEv2Config :=
  mkIKEv2 (Enabled k) (or_default (CookieMode k) "auto")
    (mkIPAM (or_default (Range (IPAM k)) "10.0.0.10 - 10.0.0.250") (or_list (DNS (IPAM k)) ["1.1.1.1"; "1.0.0.1"])) (Profile k) (IKEv2_HotReload k).
Definition l2tp_defaults (k : L2TPConfig) : L2TPConfig :=
  mkL2TP (L2TP_Enabled k)
    (mkL2TPIPAM (or_default (Gateway (L2TP_IPAM k)) "192.168.42.1") (or_default (L2TP_Range (L2TP_IPAM k)) "192.168.42.2 - 192.168.42.254")
       (or_list (L2TP_DNS (L2TP_IPAM k)) ["1.1.1.1"; "1.0.0.1"])) (L2TP_Profile k) (L2TP_HotReload k).

Definition resolveProfilePaths (cfgDir : string) (paths : list string) : list string :=
  (fun p => if IsAbs p then p else Join cfgDir p) <$> paths.

(** What [os.Stat] says of a path. *)
Inductive info := Directory | Regular | NotExist | StatError.

(** The order in which a loop over the connections visits them is any order. *)
Class ConnOrder := {
  conn_order : gmap string (option ConnectionConfig) -> list (string * option ConnectionConfig);
  conn_order_perm m : conn_order m ≡ₚ map_to_list m
}.

Section load.
Context (ReadFile : string -> res bytes) (Unmarshal : bytes -> res Config) (UnmarshalConn : bytes -> res ConnectionConfig).
Context (Stat : string -> info) (ReadDir : string -> res (list (string * bool))) (os_Hostname : res string).
Context {O : ConnOrder}.

Definition applyDefaultsAndValidate : exch Config unit :=
  server ← get Server;
  hostname ← (if Hostname server =? "" then lift os_Hostname else ret (Hostname server));
  _ ← modify (fun c => with_Server (server_defaults hostname (Server c)) c);
  _ ← modify (fun c => with_Logging (logging_defaults (Logging c)) c);
  connections ← get Config_Connections;
  if bool_decide (connections = ∅) then fail "ipsec.connections: at least one named connection must be defined"
  else
    _ ← apply_connections (conn_order connections);
    _ ← modify (fun c => with_IKEv2 (ikev2_defaults (IKEv2 c)) c);
    modify (fun c => with_L2TP (l2tp_defaults (L2TP c)) c).

(** The name of a connection: the name of its file without the extension. *)
Definition connection_name (filePath : string) : string := let base := Base filePath in TrimSuffix base (Ext base).

Definition loadConnectionFile (filePath : string) : exch Config unit :=
  data ← lift (ReadFile filePath);
  conn ← lift (UnmarshalConn data);
  let name := connection_name filePath in
  connections ← get Config_Connections;
  match connections !! name with
  | Some _ => ret tt
  | None => modify (fun c => with_Connections (<[name := Some conn]> (Config_Connections c)) c)
  end.

(** The entries of a directory; the boolean says of one that it is a directory. *)
Fixpoint load_entries (absDir : string) (entries : list (string * bool)) : exch Config unit :=
  match entries with
  | [] => ret tt
  | (name, isDir) :: entries =>
    if isDir then load_entries absDir entries
    else if negb (HasSuffix name ".yaml") && negb (HasSuffix name ".yml") then load_entries absDir entries
    else _ ← loadConnectionFile (Join absDir name); load_entries absDir entries
  end.

Fixpoint load_dirs (cfgDir : string) (dirs : list string) : exch Config unit :=
  match dirs with
  | [] => ret tt
  | dir :: dirs =>
    let absDir := if IsAbs dir then dir else Join cfgDir dir in
    _ ← match Stat absDir with
        | NotExist => ret tt
        | StatError => fail "accessing the connection directory"
        | Regular => loadConnectionFile absDir
        | Directory => entries ← lift (ReadDir absDir); load_entries absDir entries
        end;
    load_dirs cfgDir dirs
  end.

Definition connection_dirs (cfgDir : string) (cfg : Config) : list string :=
  match ConnectionDir (IPSec cfg) with
  | [] => match Stat (Join cfgDir "ipsec.d") with Directory => ["ipsec.d"] | _ => [] end
  | dirs => dirs
  end.

Definition loadConnectionDirs (cfgDir : string) : exch Config unit :=
  dirs ← get (connection_dirs cfgDir);
  load_dirs cfgDir dirs.

Definition with_profiles (cfgDir : string) (c : Config) : Config :=
  let k := IKEv2 c in
  let c := with_IKEv2 (mkIKEv2 (Enabled k) (CookieMode k) (IPAM k) (resolveProfilePaths cfgDir (Profile k)) (IKEv2_HotReload k)) c in
  let l := L2TP c in
  with_L2TP (mkL2TP (L2TP_Enabled l) (L2TP_IPAM l) (resolveProfilePaths cfgDir (L2TP_Profile l)) (L2TP_HotReload l)) c.

(** With an error the configuration read so far is dropped. *)
Definition Load (path : string) : res Config :=
  data ← ReadFile path;
  cfg ← Unmarshal data;
  let cfgDir := Dir path in
  '(cfg, _) ← (let '(cfg, r) := loadConnectionDirs cfgDir cfg in x ← r; Ok (cfg, x));
  '(cfg, _) ← (let '(cfg, r) := applyDefaultsAndValidate cfg in x ← r; Ok (cfg, x));
  Ok (with_profiles cfgDir cfg).

(** The first connection the loop visits; a nil one has no field to compare. *)
Fixpoint find_authby (authBy : string) (entries : list (string * option ConnectionConfig)) : res (option (string * ConnectionConfig)) :=
  match entries with
  | [] => Ok None
  | (_, None) :: _ => Panic
  | (name, Some conn) :: entries => if AuthBy conn =? authBy then Ok (Some (name, conn)) else find_authby authBy entries
  end.

Definition FindConnectionByAuthBy (cfg : Config) (authBy : string) : res (option (string * ConnectionConfig)) :=
  find_authby authBy (conn_order (Config_Connections cfg)).

(** [filepath.Abs], [os.Executable] and [filepath.EvalSymlinks] are parameters. *)
Definition ResolveConfigPath (Abs EvalSymlinks : string -> res string) (Executable : res string) (flagPath : string) : res string :=
  if negb (flagPath =? "") then Abs flagPath
  else
    exe ← Executable;
    exe ← EvalSymlinks exe;
    Ok (Join (Dir exe) "config.yaml").

(** ** Connections *)

(** The fields a connection must have. *)
Definition usable (conn : ConnectionConfig) : Prop :=
  Left conn <> "" /\ Right conn <> "" /\ AuthBy conn <> "" /\ (AuthBy conn = "secret" -> PSK conn <> "").

Lemma applyConnectionDefaults_spec conn :
  match applyConnectionDefaults conn with
  | Ok c => usable conn /\ c = with_defaults conn
  | Err _ => ~ usable conn
  | Panic => False
  end.
Proof.
  unfold applyConnectionDefaults, usable.
  destruct (String.eqb_spec (Left conn) ""); [naive_solver|]. destruct (String.eqb_spec (Right conn) ""); [naive_solver|].
  destruct (String.eqb_spec (AuthBy conn) ""); [naive_solver|].
  destruct (String.eqb_spec (AuthBy conn) "secret"), (String.eqb_spec (PSK conn) ""); cbn; naive_solver.
Qed.

Lemma or_default_idem s d : or_default (or_default s d) d = or_default s d.
Proof. unfold or_default. destruct (s =? "") eqn:E; [by destruct (d =? "")|by rewrite E]. Qed.

Lemma usable_defaults conn : usable conn -> usable (with_defaults conn).
Proof. done. Qed.

Lemma with_defaults_idem conn : with_defaults (with_defaults conn) = with_defaults conn.
Proof.
  destruct conn. unfold with_defaults. cbn. rewrite !or_default_idem. f_equal.
  - by destruct (ESP0 =? "") eqn:E1, (Phase2Alg0 =? "") eqn:E2; cbn; rewrite ?E1, ?E2.
  - by destruct (DPDDelay0 >? 0)%Z, (DPDAction0 =? "") eqn:E; cbn; rewrite ?E.
  - by destruct (RetransmitInterval0 =? 0)%Z eqn:E; [|rewrite E].
Qed.

Lemma applyConnectionDefaults_again conn : usable conn -> applyConnectionDefaults (with_defaults conn) = Ok (with_defaults conn).
Proof.
  intros H%usable_defaults. pose proof (applyConnectionDefaults_spec (with_defaults conn)) as Hs.
  destruct (applyConnectionDefaults _) as [c|?|]; [|done..]. destruct Hs as [_ ->]. by rewrite with_defaults_idem.
Qed.

(** Every connection has a value and the fields it needs. *)
Definition all_usable (m : gmap string (option ConnectionConfig)) : Prop :=
  forall name c, m !! name = Some c -> exists conn, c = Some conn /\ usable conn.

Definition completed (m : gmap string (option ConnectionConfig)) : gmap string (option ConnectionConfig) :=
  fmap (M := option) with_defaults <$> m.

Definition complete_entry (m : gmap string (option ConnectionConfig)) (e : string * option ConnectionConfig) :=
  <[e.1 := with_defaults <$> e.2]> m.

Lemma with_Connections_eta c : with_Connections (Config_Connections c) c = c.
Proof. by destruct c as [??? []]. Qed.

Lemma apply_connections_ok l c : Forall (fun e => exists conn, e.2 = Some conn /\ usable conn) l ->
  apply_connections l c = (with_Connections (foldl complete_entry (Config_Connections c) l) c, Ok tt).
Proof.
  intros H. revert c. induction H as [|[name x] l (conn & Hc & Hu) _ IH]; intros c; cbn in *; [by rewrite with_Connections_eta|]. subst x.
  pose proof (applyConnectionDefaults_spec conn) as Hs. destruct (applyConnectionDefaults conn) as [d|?|]; [|done..]. destruct Hs as [_ ->].
  erewrite exch_bind_Ok; [|reflexivity]. erewrite exch_bind_Ok; [|reflexivity]. by rewrite IH.
Qed.

Lemma apply_connections_inv l c c' : apply_connections l c = (c', Ok tt) -> Forall (fun e => exists conn, e.2 = Some conn /\ usable conn) l.
Proof.
  revert c. induction l as [|[name [conn|]] l IH]; intros c H; [constructor| |done]. cbn in H.
  apply exch_bind_inv in H as (c1 & d & Hd & H). injection Hd as <- Hd. apply exch_bind_inv in H as (c2 & [] & _ & H).
  constructor; [|by eapply IH]. exists conn. split; [done|].
  pose proof (applyConnectionDefaults_spec conn) as Hs. rewrite Hd in Hs. apply Hs.
Qed.

Lemma complete_entries l m : NoDup l.*1 -> (forall e, e ∈ l -> m !! e.1 = Some e.2) ->
  forall name, foldl complete_entry m l !! name = if decide (name ∈ l.*1) then fmap (M := option) with_defaults <$> m !! name else m !! name.
Proof.
  revert m. induction l as [|[k x] l IH]; intros m Hnd Hl name; cbn [foldl fmap list_fmap fst].
  { by rewrite decide_False by apply not_elem_of_nil. }
  inversion Hnd as [|?? Hk Hnd']; subst. pose proof (Hl (k, x) ltac:(by left)) as Hx. cbn in Hx.
  rewrite IH; [|done|].
  - unfold complete_entry; cbn [fst snd]. destruct (decide (name = k)) as [->|Hne].
    + rewrite decide_False by done. rewrite decide_True by (by left). by rewrite lookup_insert_eq, Hx.
    + rewrite lookup_insert_ne by done. apply decide_ext. rewrite elem_of_cons. tauto.
  - intros [j y] Hj. unfold complete_entry; cbn [fst snd]. rewrite lookup_insert_ne; [by apply (Hl (j, y)); right|].
    intros ->. apply Hk. by apply (list_elem_of_fmap_2 fst _ (j, y)).
Qed.

Lemma complete_all m : foldl complete_entry m (conn_order m) = completed m.
Proof.
  apply map_eq. intros name. rewrite complete_entries.
  - unfold completed. rewrite lookup_fmap. case_decide as Hin; [done|]. rewrite conn_order_perm in Hin.
    destruct (m !! name) as [x|] eqn:E; [|done]. exfalso. apply Hin. apply list_elem_of_fmap. exists (name, x). split; [done|].
    by apply elem_of_map_to_list.
  - rewrite conn_order_perm. apply NoDup_fst_map_to_list.
  - intros [k x]. rewrite conn_order_perm. apply elem_of_map_to_list.
Qed.

Lemma all_usable_entries m : all_usable m <-> Forall (fun e => exists conn, e.2 = Some conn /\ usable conn) (conn_order m).
Proof.
  rewrite Forall_forall. unfold all_usable. split.
  - intros H [k x]. rewrite conn_order_perm, elem_of_map_to_list. apply H.
  - intros H k x Hk. apply (H (k, x)). by rewrite conn_order_perm, elem_of_map_to_list.
Qed.

(** ** Defaults are complete *)

(** What [applyDefaultsAndValidate] makes of a configuration it accepts. *)
Definition finished (hostname : string) (c : Config) : Config :=
  mkConfig (server_defaults hostname (Server c)) (logging_defaults (Logging c)) (TUN c)
    (mkIPSec (completed (Config_Connections c)) (ConnectionDir (IPSec c)) (HotReload (IPSec c))) (ikev2_defaults (IKEv2 c)) (l2tp_defaults (L2TP c)).

Definition host_is (c : Config) (h : string) : Prop := if Hostname (Server c) =? "" then os_Hostname = Ok h else h = Hostname (Server c).

Lemma applyDefaultsAndValidate_iff c c' :
  applyDefaultsAndValidate c = (c', Ok tt) <->
  exists h, host_is c h /\ Config_Connections c <> ∅ /\ all_usable (Config_Connections c) /\ c' = finished h c.
Proof.
  unfold applyDefaultsAndValidate, host_is. erewrite exch_bind_Ok; [|reflexivity]. split.
  - intros (c1 & h & Hh & H)%exch_bind_inv. assert (c1 = c) as ->.
    { destruct (_ =? _); by injection Hh as <-. }
    exists h. split; [destruct (_ =? _); by injection Hh as ->|].
    do 3 (erewrite exch_bind_Ok in H; [|reflexivity]). case_bool_decide as Hm; [done|]. split; [done|].
    apply exch_bind_inv in H as (c2 & [] & H2 & H). pose proof (apply_connections_inv _ _ _ H2) as Hu.
    split; [by apply all_usable_entries|]. rewrite apply_connections_ok in H2 by done. injection H2 as <-.
    erewrite exch_bind_Ok in H; [|reflexivity]. injection H as <-. unfold finished. rewrite <- complete_all. done.
  - intros (h & Hh & Hm & Hu & ->). rewrite (exch_bind_Ok _ _ c c h); [|destruct (_ =? _); [by rewrite Hh|by subst]].
    do 3 (erewrite exch_bind_Ok; [|reflexivity]). rewrite bool_decide_false by done. apply all_usable_entries in Hu.
    erewrite exch_bind_Ok; [|by apply apply_connections_ok]. erewrite exch_bind_Ok; [|reflexivity].
    unfold finished. rewrite <- complete_all. done.
Qed.

Lemma or_int_idem n d : or_int (or_int n d) d = or_int n d.
Proof. unfold or_int. destruct (n =? 0)%Z eqn:E; [by destruct (d =? 0)%Z|by rewrite E]. Qed.
Lemma or_list_idem l d : or_list (or_list l d) d = or_list l d.
Proof. unfold or_list. destruct l; [by destruct d|done]. Qed.

Lemma completed_idem m : completed (completed m) = completed m.
Proof.
  unfold completed. rewrite <- map_fmap_compose. apply map_fmap_ext. intros name [conn|] _; cbn; [|done]. by rewrite with_defaults_idem.
Qed.

Lemma finished_idem h c : finished h (finished h c) = finished h c.
Proof.
  unfold finished, server_defaults, logging_defaults, ikev2_defaults, l2tp_defaults. cbn.
  by rewrite completed_idem, !or_default_idem, !or_int_idem, !or_list_idem.
Qed.

Lemma all_usable_completed m : all_usable m -> all_usable (completed m).
Proof.
  intros H name c. unfold completed. rewrite lookup_fmap. intros (x & Hx & ->)%fmap_Some. destruct (H _ _ Hx) as (conn & -> & Hu).
  exists (with_defaults conn). by split; [|apply usable_defaults].
Qed.

(** Once the defaults are in place they stay what they are. *)
Lemma defaults_stable c c' : applyDefaultsAndValidate c = (c', Ok tt) -> applyDefaultsAndValidate c' = (c', Ok tt).
Proof.
  intros (h & Hh & Hm & Hu & ->)%applyDefaultsAndValidate_iff. apply applyDefaultsAndValidate_iff. exists h.
  split_and!; [| |by apply all_usable_completed|by rewrite finished_idem].
  - unfold host_is in *. cbn. destruct (String.eqb_spec h "") as [->|]; [|done]. destruct (String.eqb_spec (Hostname (Server c)) ""); [done|congruence].
  - cbn. intros E. apply Hm. unfold completed in E. by apply fmap_empty_inv in E.
Qed.

(** ** External connections *)

(** What a file defines. *)
Definition contribution (filePath : string) : option (string * ConnectionConfig) :=
  match ReadFile filePath with
  | Ok data => match UnmarshalConn data with Ok conn => Some (connection_name filePath, conn) | _ => None end
  | _ => None
  end.

(** The files that are read, in order. *)
Definition directory_files (absDir : string) (entries : list (string * bool)) : list string :=
  (fun e => Join absDir e.1) <$> filter (fun e => e.2 = false /\ (HasSuffix e.1 ".yaml" || HasSuffix e.1 ".yml") = true) entries.

Definition dir_files (cfgDir dir : string) : list string :=
  let absDir := if IsAbs dir then dir else Join cfgDir dir in
  match Stat absDir with
  | Regular => [absDir]
  | Directory => match ReadDir absDir with Ok entries => directory_files absDir entries | _ => [] end
  | _ => []
  end.

Definition connection_files (cfgDir : string) (cfg : Config) : list string := mjoin (dir_files cfgDir <$> connection_dirs cfgDir cfg).

(** A name that is taken stays with what it has. *)
Definition add_first (m : gmap string (option ConnectionConfig)) (e : string * ConnectionConfig) : gmap string (option ConnectionConfig) :=
  match m !! e.1 with Some _ => m | None => <[e.1 := Some e.2]> m end.

(** The connections of some files are added to those there are. *)
Definition adds (files : list string) (c c' : Config) : Prop :=
  exists es, contribution <$> files = Some <$> es /\ c' = with_Connections (foldl add_first (Config_Connections c) es) c.

Lemma adds_nil c : adds [] c c.
Proof. exists []. split; [done|]. cbn. by rewrite with_Connections_eta. Qed.

Lemma adds_app l k c1 c2 c3 : adds l c1 c2 -> adds k c2 c3 -> adds (l ++ k)%list c1 c3.
Proof.
  intros (es & E & ->) (fs & F & ->). exists (es ++ fs)%list. split; [by rewrite !fmap_app, E, F|]. by rewrite foldl_app.
Qed.

Lemma loadConnectionFile_adds f c c' : loadConnectionFile f c = (c', Ok tt) -> adds [f] c c'.
Proof.
  unfold loadConnectionFile. intros (c1 & data & Hd & H)%exch_bind_inv. injection Hd as <- Hd.
  apply exch_bind_inv in H as (c1 & conn & Hu & H). injection Hu as <- Hu. erewrite exch_bind_Ok in H; [|reflexivity].
  exists [(connection_name f, conn)]. split; [cbn; unfold contribution; by rewrite Hd, Hu|].
  cbn [foldl]. unfold add_first. cbn [fst snd]. destruct (Config_Connections c !! connection_name f); injection H as <-; [|done].
  by rewrite with_Connections_eta.
Qed.

Lemma load_entries_adds absDir entries c c' :
  load_entries absDir entries c = (c', Ok tt) -> adds (directory_files absDir entries) c c'.
Proof.
  revert c. induction entries as [|[name isDir] entries IH]; intros c H; cbn [load_entries] in H; [injection H as <-; apply adds_nil|].
  unfold directory_files. rewrite filter_cons. cbn [fst snd]. destruct isDir; [rewrite decide_False by (by intros []); by apply IH|].
  rewrite <- negb_orb in H. destruct (HasSuffix name ".yaml" || HasSuffix name ".yml"); cbn [negb] in H.
  - rewrite decide_True by done. apply exch_bind_inv in H as (c1 & [] & H1 & H). cbn [fmap list_fmap fst].
    apply (adds_app [_] _ _ c1); [by apply loadConnectionFile_adds|by apply IH].
  - rewrite decide_False by (by intros []). by apply IH.
Qed.

Lemma load_dirs_adds cfgDir dirs c c' : load_dirs cfgDir dirs c = (c', Ok tt) -> adds (mjoin (dir_files cfgDir <$> dirs)) c c'.
Proof.
  revert c. induction dirs as [|dir dirs IH]; intros c H; cbn [load_dirs] in H; [injection H as <-; apply adds_nil|].
  apply exch_bind_inv in H as (c1 & [] & H1 & H). cbn [fmap list_fmap]. change (mjoin (?x :: ?l)) with (x ++ mjoin l)%list.
  apply (adds_app _ _ _ c1); [|by apply IH]. unfold dir_files. destruct (Stat _).
  - apply exch_bind_inv in H1 as (c2 & entries & He & H1). injection He as <- He. rewrite He. by apply load_entries_adds.
  - by apply loadConnectionFile_adds.
  - injection H1 as <-. apply adds_nil.
  - done.
Qed.

Lemma add_first_lookup es m name :
  foldl add_first m es !! name =
    match m !! name with Some c => Some c | None => Some <$> (snd <$> head (filter (fun e => e.1 = name) es)) end.
Proof.
  revert m. induction es as [|[k x] es IH]; intros m; cbn [foldl]; [by destruct (m !! name)|].
  rewrite IH, filter_cons. unfold add_first. cbn [fst snd]. destruct (decide (k = name)) as [->|Hne].
  - destruct (m !! name) as [c|] eqn:E; [by rewrite E|]. by rewrite lookup_insert_eq.
  - destruct (m !! k); [done|]. by rewrite lookup_insert_ne.
Qed.

(** What the file and the directories define: the file has precedence, then the first of the
    files with the name. *)
Definition defined (cfg0 : Config) (es : list (string * ConnectionConfig)) (name : string) : option (option ConnectionConfig) :=
  match Config_Connections cfg0 !! name with Some c => Some c | None => Some <$> (snd <$> head (filter (fun e => e.1 = name) es)) end.

Lemma finished_profiles h cfgDir c : finished h (with_profiles cfgDir c) = with_profiles cfgDir (finished h c).
Proof. done. Qed.

Lemma resolved_absolute cfgDir paths : IsAbs cfgDir = true -> Forall (fun p => IsAbs p = true) (resolveProfilePaths cfgDir paths).
Proof.
  intros H. apply Forall_fmap, Forall_true. intros p. unfold compose. destruct (IsAbs p) eqn:E; [done|]. by apply IsAbs_Join.
Qed.


End load.

(** ** A run: one connection in the configuration file, two in files beside it *)

Definition demo_conn (left right authBy psk : string) : ConnectionConfig :=
  mkConn left "" "" "" "" "" "" "" "" "" "" "" right "" "" "" "" "" "" "" "" "" "" "" authBy psk "" "" "" "" "" "3des-sha1" "" "" "" "" 0%Z
    "" "" "" "" "" 0%Z "" 30%Z 0%Z "" "" "" 0%Z "" "" 0%Z "" "" "" "" "" "" "" "".

Definition demo_file : Config :=
  mkConfig (mkServerCfg "" "") (mkLogging "" "" "" 0%Z 0%Z 0%Z false) (mkTUN "" 0%Z)
    (mkIPSec {["office" := Some (demo_conn "%any" "%any" "secret" "inline")]} [] false)
    (mkIKEv2 true "" (mkIPAM "" []) ["profile.d"] false) (mkL2TP false (mkL2TPIPAM "" "" []) ["/etc/l2tp"] false).

Definition demo_ReadFile (path : string) : res bytes :=
  if path =? "/etc/swan/config.yaml" then Ok [0%Z]
  else if path =? "/etc/swan/ipsec.d/office.yaml" then Ok [1%Z]
  else if path =? "/etc/swan/ipsec.d/lab.yml" then Ok [2%Z] else Err "no such file".

Definition demo_UnmarshalConn (data : bytes) : res ConnectionConfig :=
  Ok (demo_conn "%any" "10.1.1.1" (if decide (data = [1%Z]) then "secret" else "rsasig") "").

Definition demo_Stat (path : string) : info := if path =? "/etc/swan/ipsec.d" then Directory else NotExist.

#[local] Instance demo_order : ConnOrder := {| conn_order := map_to_list; conn_order_perm m := reflexivity (map_to_list m) |}.

Definition demo_Load : string -> res Config :=
  Load demo_ReadFile (fun _ => Ok demo_file) demo_UnmarshalConn demo_Stat
    (fun _ => Ok [("README", false); ("lab.yml", false); ("office.yaml", false); ("old.yaml", true)]) (Ok "gw").

Definition demo_loaded : Config := match demo_Load "/etc/swan/config.yaml" with Ok c => c | _ => demo_file end.

Example demo_connections :
  fmap (M := option) PSK <$> Config_Connections demo_loaded !! "office" = Some (Some "inline") /\
  fmap (M := option) ESP <$> Config_Connections demo_loaded !! "lab" = Some (Some "3des-sha1") /\
  fmap (M := option) ReplayWindow <$> Config_Connections demo_loaded !! "lab" = Some (Some 0%Z) /\
  Profile (IKEv2 demo_loaded) = ["/etc/swan/profile.d"] /\ Hostname (Server demo_loaded) = "gw".
Proof. vm_compute. by split_and!. Qed.

(** A connection the file names without a value is a nil pointer, and checking it panics. *)
Example nil_connection_panics :
  (applyDefaultsAndValidate (Ok "gw") (with_Connections {["office" := None]} demo_file)).2 = Panic.
Proof. vm_compute. reflexivity. Qed.


End Cfg.
