(* ===== verification/Watcher.v ===== *)
(** * Watcher: the watcher of the profiles ([internal/config/watcher.go])

    Times are milliseconds.  The loop takes the events of the file system, the errors of the
    library and the end of the context in the order of their times; the timer, an instant
    when it is set, runs the callback at its instant unless it was stopped or replaced
    before.  A timer whose instant has come has run, also when the event comes at the same
    instant.  What the loop gives is the list of the instants the callback is run at. *)

From S2P Require Import Prelude Filepath Config.

Module Watch.

Definition Create : Z := 1.
Definition Write_ : Z := 2.
Definition Remove : Z := 4.
Definition Rename : Z := 8.
Definition Chmod : Z := 16.

Record Watcher := mkWatcher { profileDir : string; enabled : bool; debounce : Z }.

(** A new watcher, of a library that could be started. *)
Definition NewWatcher (configPath : string) (cfg : Cfg.Config) : Watcher :=
  mkWatcher (Join (Dir configPath) "profile.d")
    (Cfg.HotReload (Cfg.IPSec cfg) || Cfg.IKEv2_HotReload (Cfg.IKEv2 cfg) || Cfg.L2TP_HotReload (Cfg.L2TP cfg)) 500.

(** What the loop selects: the end of the context, an event, an error, a channel closed. *)
Inductive input := Done | Event (op : Z) | WatchError | Closed.

Definition relevant (op : Z) : bool := negb (Z.land op (Z.lor (Z.lor Write_ Create) (Z.lor Remove Rename)) =? 0).

(** The timer has run by [t]. *)
Definition due (timer : option Z) (t : Z) : bool := match timer with Some d => d <=? t | None => false end.
Definition fire (timer : option Z) : list Z := match timer with Some d => [d] | None => [] end.

(** One turn: what ran before it, the timer it leaves, whether the loop goes on. *)
Definition turn (w : Watcher) (timer : option Z) (t : Z) (i : input) : list Z * option Z * bool :=
  let '(fired, timer) := if due timer t then (fire timer, None) else ([], timer) in
  match i with
  | Done => (fired, None, false)
  | Event op => if relevant op then (fired, Some (t + debounce w), true) else (fired, timer, true)
  | WatchError => (fired, timer, true)
  | Closed => (fired, timer, false)
  end.

Fixpoint loop (w : Watcher) (timer : option Z) (inputs : list (Z * input)) : list Z :=
  match inputs with
  | [] => fire timer
  | (t, i) :: inputs =>
    let '(fired, timer, go_on) := turn w timer t i in
    fired ++ (if go_on then loop w timer inputs else fire timer)
  end.

(** [Start]: the directory may fail to be watched. *)
Definition Start (w : Watcher) (Add : string -> bool) (inputs : list (Z * input)) : list Z :=
  if negb (enabled w) then [] else if negb (Add (profileDir w)) then [] else loop w None inputs.

(** ** What the callback is run for *)

(** The instants of the changes before the loop ends, and the instant the context ends at. *)
Fixpoint changes (inputs : list (Z * input)) : list Z :=
  match inputs with
  | [] => []
  | (t, Event op) :: inputs => if relevant op then t :: changes inputs else changes inputs
  | (_, WatchError) :: inputs => changes inputs
  | (_, Done) :: _ | (_, Closed) :: _ => []
  end.

Fixpoint ended (inputs : list (Z * input)) : option Z :=
  match inputs with
  | [] => None
  | (t, Done) :: _ => Some t
  | (_, Closed) :: _ => None
  | _ :: inputs => ended inputs
  end.

(** The ends of the bursts: a change that no other follows within [d] is the last of one. *)
Fixpoint bursts (d : Z) (ts : list Z) : list Z :=
  match ts with
  | [] => []
  | t :: ts' =>
    match ts' with
    | [] => [t + d]
    | t' :: _ => if t + d <=? t' then t + d :: bursts d ts' else bursts d ts'
    end
  end.

(** Those the context lets run. *)
Definition before (stop : option Z) (ts : list Z) : list Z :=
  match stop with Some e => filter (fun t => t <= e) ts | None => ts end.

(** The instants go forward. *)
Fixpoint in_order (t0 : Z) (inputs : list (Z * input)) : Prop :=
  match inputs with [] => True | (t, _) :: inputs => t0 <= t /\ in_order t inputs end.

Lemma in_order_le t t' inputs : t <= t' -> in_order t' inputs -> in_order t inputs.
Proof. destruct inputs as [|[u i] inputs]; [done|]. cbn. intros ? [? ?]. split; [lia|done]. Qed.

Lemma ended_ge t inputs e : in_order t inputs -> ended inputs = Some e -> t <= e.
Proof.
  revert t. induction inputs as [|[u i] inputs IH]; [done|]. intros t [Hu Ho] He.
  destruct i; cbn in He; [injection He as <-; lia| |..|done]; specialize (IH _ Ho He); lia.
Qed.

Lemma changes_ge t inputs : in_order t inputs -> Forall (fun u => t <= u) (changes inputs).
Proof.
  revert t. induction inputs as [|[u i] inputs IH]; [constructor|]. intros t [Hu Ho].
  assert (Forall (fun v => t <= v) (changes inputs)) as H by (eapply Forall_impl; [exact (IH _ Ho)|]; cbn; lia).
  destruct i as [|op| |]; cbn; [constructor| |done|constructor]. destruct (relevant op); [by constructor|done].
Qed.

(** A timer that has run leaves what the rest gives. *)
Lemma bursts_due d x t inputs : x + d <= t -> in_order t inputs ->
  before (ended inputs) (bursts d (x :: changes inputs)) = (x + d) :: before (ended inputs) (bursts d (changes inputs)).
Proof.
  intros Hx Ho. assert (bursts d (x :: changes inputs) = (x + d) :: bursts d (changes inputs)) as ->.
  { pose proof (changes_ge _ _ Ho) as Hc. cbn [bursts]. destruct (changes inputs) as [|u us]; [done|]. apply Forall_cons in Hc as [Hu _].
    destruct (Z.leb_spec (x + d) u); [done|lia]. }
  unfold before. destruct (ended inputs) as [e|] eqn:Ee; [|done]. pose proof (ended_ge _ _ _ Ho Ee). rewrite filter_cons_True; [done|lia].
Qed.

(** The loop from a timer set by a change at [x], and from none. *)
Lemma loop_bursts w inputs x t0 : x <= t0 -> in_order t0 inputs ->
  loop w (Some (x + debounce w)) inputs = before (ended inputs) (bursts (debounce w) (x :: changes inputs)) /\
  loop w None inputs = before (ended inputs) (bursts (debounce w) (changes inputs)).
Proof.
  revert x t0. induction inputs as [|[t i] inputs IH]; [done|]. intros x t0 Hx [Ht Ho]. set (d := debounce w) in *.
  destruct (IH t t ltac:(lia) Ho) as [IHt IHn]. assert (x <= t) as Hxt by lia. destruct (IH x t Hxt Ho) as [IHx _].
  cbn [loop]. unfold turn. cbn [due fire]. fold d. split.
  - destruct (Z.leb_spec (x + d) t) as [Hd|Hd].
    + destruct i as [|op| |]; cbn [changes ended].
      * cbn. rewrite decide_True by lia. done.
      * destruct (relevant op); cbn [app]; [|by rewrite IHn, (bursts_due d x t)]. rewrite IHt. cbn [bursts].
        rewrite (proj2 (Z.leb_le _ _) Hd). unfold before. destruct (ended inputs) as [e|] eqn:Ee; [|done].
        pose proof (ended_ge _ _ _ Ho Ee). rewrite filter_cons_True; [done|lia].
      * cbn [app]. by rewrite IHn, (bursts_due d x t).
      * done.
    + destruct i as [|op| |]; cbn [changes ended app].
      * cbn. rewrite decide_False by lia. done.
      * destruct (relevant op); [|done]. rewrite IHt. cbn [bursts]. rewrite (proj2 (Z.leb_gt _ _) Hd). done.
      * done.
      * done.
  - destruct i as [|op| |]; cbn [changes ended app]; [done| |done|done]. by destruct (relevant op).
Qed.

Lemma bursts_of d ts f : f ∈ bursts d ts -> f - d ∈ ts.
Proof.
  induction ts as [|t ts IH]; cbn [bursts]; [intros H; by apply elem_of_nil in H|].
  destruct ts as [|t' ts]; [intros ->%list_elem_of_singleton; replace (t + d - d) with t by lia; left|].
  destruct (t + d <=? t'); intros H; [apply elem_of_cons in H as [->|H]; [replace (t + d - d) with t by lia; left|]|]; right; by apply IH.
Qed.

Lemma bursts_after d t ts : StronglySorted Z.le ts -> t ∈ ts -> exists f, f ∈ bursts d ts /\ t + d <= f.
Proof.
  intros Hs. revert t. induction Hs as [|u ts Hs IH Hu]; [intros t H; by apply elem_of_nil in H|]. intros t Ht. cbn [bursts].
  destruct ts as [|v ts]; [apply list_elem_of_singleton in Ht as ->; exists (u + d); split; [left|lia]|].
  apply Forall_cons in Hu as [Hv _]. apply elem_of_cons in Ht as [->|Ht].
  - destruct (IH v ltac:(left)) as (f & Hf & Hle). destruct (u + d <=? v); [exists (u + d); split; [left|lia]|]. exists f. split; [done|lia].
  - destruct (IH t Ht) as (f & Hf & Hle). exists f. split; [|done]. destruct (u + d <=? v); [by right|done].
Qed.

Lemma changes_sorted t inputs : in_order t inputs -> StronglySorted Z.le (changes inputs).
Proof.
  revert t. induction inputs as [|[u i] inputs IH]; [constructor|]. intros t [_ Ho]. specialize (IH _ Ho).
  destruct i as [|op| |]; cbn; [constructor| |done|constructor]. destruct (relevant op); [|done]. constructor; [done|].
  by apply changes_ge.
Qed.

Lemma length_bursts d ts : (length (bursts d ts) <= length ts)%nat.
Proof. induction ts as [|t [|t' ts] IH]; cbn [bursts]; [done..|]. destruct (t + d <=? t'); cbn in *; lia. Qed.

(** With any of the three switches on, the watcher reloads for every change and only for
    changes: the callback runs the debounce time after the last change of a burst; unless the
    context ends, every change is followed by a run at least that time later; it never runs
    more often than there are changes, and never after the context has ended. *)
Theorem watcher_reloads w Add inputs t0 :
  enabled w = true -> Add (profileDir w) = true -> in_order t0 inputs ->
  Start w Add inputs = before (ended inputs) (bursts (debounce w) (changes inputs)) /\
  (forall t, t ∈ changes inputs -> ended inputs = None -> exists f, f ∈ Start w Add inputs /\ t + debounce w <= f) /\
  (forall f, f ∈ Start w Add inputs -> f - debounce w ∈ changes inputs /\ forall e, ended inputs = Some e -> f <= e) /\
  (length (Start w Add inputs) <= length (changes inputs))%nat.
Proof.
  intros He Ha Ho. assert (Start w Add inputs = before (ended inputs) (bursts (debounce w) (changes inputs))) as ->.
  { unfold Start. rewrite He, Ha. exact (proj2 (loop_bursts w inputs t0 t0 ltac:(lia) Ho)). }
  split_and!; [done|..].
  - intros t Ht ->. by apply bursts_after; [eapply changes_sorted|].
  - intros f Hf. unfold before in Hf. destruct (ended inputs) as [e|].
    + apply list_elem_of_filter in Hf as [Hle Hf]. split; [by apply bursts_of|]. by intros e' [= <-].
    + split; [by apply bursts_of|done].
  - etrans; [|apply (length_bursts (debounce w))]. unfold before. destruct (ended inputs); [apply length_filter|done].
Qed.

(** Two changes in a row, the attributes of a file, a third change. *)
Definition demo_inputs : list (Z * input) := [(0, Event Create); (100, Event Write_); (650, Event Chmod); (700, Event Remove)].
Definition demo_watcher : Watcher := NewWatcher "/etc/swan/config.yaml" (Cfg.with_L2TP (Cfg.mkL2TP true (Cfg.mkL2TPIPAM "" "" []) [] true) Cfg.demo_file).

Lemma watcher_reloads_witness :
  Start demo_watcher (String.eqb "/etc/swan/profile.d") demo_inputs = [600; 1200] /\
  exists f, f ∈ Start demo_watcher (String.eqb "/etc/swan/profile.d") demo_inputs /\ 100 + 500 <= f.
Proof.
  destruct (watcher_reloads demo_watcher (String.eqb "/etc/swan/profile.d") demo_inputs 0) as (_ & H & _);
    [vm_compute; reflexivity..|vm_compute; intuition discriminate|].
  split; [vm_compute; reflexivity|]. apply (H 100); [|reflexivity]. vm_compute. right. left.
Defined.

End Watch.
