(* ===== verification/Logging.v ===== *)
(** * Logging: the logger ([internal/log/log.go])

    What a call of the logger writes, and where to; the rotation of the file is that of a
    third-party package, the text of a line that of [log/slog]. *)

From S2P Require Import Prelude Config.

#[local] Open Scope string_scope.

Module Log.

(** [log.Config]. *)
Record Config := mkConfig {
  Level : string; Output : string; FilePath : string; MaxSize : Z; MaxBackups : Z; MaxAge : Z; Compress : bool
}.

(** The levels of [log/slog], and where lines go. *)
Definition LevelDebug : Z := -4.
Definition LevelInfo : Z := 0.
Definition LevelWarn : Z := 4.
Definition LevelError : Z := 8.

Inductive sink := Stdout | Rotated (path : string) (maxSize maxBackups maxAge : Z) (compress : bool).

Record logger := mkLogger { sinks : list sink; level : Z }.

Definition level_of (name : string) : Z :=
  if name =? "debug" then LevelDebug else if name =? "info" then LevelInfo
  else if name =? "warn" then LevelWarn else if name =? "error" then LevelError else LevelInfo.

Definition InitLogger (cfg : Config) : logger :=
  let logWriter :=
    if (Output cfg =? "file") && negb (FilePath cfg =? "") then
      [Stdout; Rotated (FilePath cfg) (MaxSize cfg) (MaxBackups cfg) (MaxAge cfg) (Compress cfg)]
    else [Stdout] in
  mkLogger logWriter (level_of (Level cfg)).

(** The lines a message becomes, and whether the process goes on. *)
Definition log_at (lvl : Z) (l : logger) (msg : string) : list (sink * string) :=
  if (level l <=? lvl)%Z then (fun s => (s, msg)) <$> sinks l else [].

Definition Debug_ := log_at LevelDebug.
Definition Info_ := log_at LevelInfo.
Definition Warn_ := log_at LevelWarn.
Definition Error_ := log_at LevelError.
Definition Fatal_ (l : logger) (msg : string) : list (sink * string) * bool := (Error_ l msg, false).

(** The logger [loadConfig] sets up. *)
Definition configured (c : Cfg.Config) : logger :=
  let l := Cfg.Logging c in
  InitLogger (mkConfig (Cfg.Level l) (Cfg.Output l) (Cfg.File l) (Cfg.MaxSize l) (Cfg.MaxBackups l) (Cfg.MaxAge l) (Cfg.LogCompress l)).

(** An error is written whatever the configuration, to the standard output at least; what a
    level lets through, a higher one does. *)
Lemma errors_written c msg : (Stdout, msg) ∈ Error_ (configured c) msg.
Proof.
  unfold Error_, log_at. assert (level (configured c) <= LevelError) as H.
  { cbn. unfold level_of. repeat (destruct (_ =? _); [vm_compute; discriminate|]). by vm_compute. }
  apply Z.leb_le in H as ->. unfold configured, InitLogger. cbn. destruct (_ && _); left.
Qed.

Lemma levels_monotone l lvl lvl' msg : lvl <= lvl' -> forall x, x ∈ log_at lvl l msg -> x ∈ log_at lvl' l msg.
Proof.
  intros Hle x. unfold log_at. destruct (Z.leb_spec (level l) lvl); [|by intros Hx%elem_of_nil]. by rewrite (proj2 (Z.leb_le _ _)) by lia.
Qed.

End Log.
