(* ===== verification/Files.v ===== *)
(** * Files: a file system ([os] as the certificate code uses it)

    Files with their bytes and permissions, and directories.  A computation runs on the
    file system and the random source.  A file that exists keeps its permissions when it is
    written, as in Go.  The masks of the process and failures of the disk are left out. *)

From Stdlib Require Import Ascii.
From S2P Require Import Prelude Rand Exch Filepath.

#[local] Open Scope string_scope.

Module Disk.

Record file := mkFile { content : bytes; mode : Z }.
Record fs := mkFS { files : gmap string file; dirs : gset string }.

Abbreviation state := (fs * rng)%type.

Definition is_dir (s : fs) (path : string) : bool := bool_decide (path = "/") || bool_decide (path = ".") || bool_decide (path ∈ dirs s).

Definition is_file (s : fs) (path : string) : bool := negb (is_dir s path) && bool_decide (is_Some (files s !! path)).

Definition fileExists (path : string) : exch state bool :=
  on_session (fun s => is_file s path).

Definition ReadFile (path : string) : exch state bytes := fun s =>
  if is_dir s.1 path then (s, Err "is a directory")
  else match files s.1 !! path with Some f => (s, Ok (content f)) | None => (s, Err "no such file or directory") end.

Definition put (path : string) (f : file) (s : fs) : fs := mkFS (<[path := f]> (files s)) (dirs s).

(** [os.WriteFile], and a file opened with [O_CREATE] and [O_TRUNC] that is then written. *)
Definition WriteFile (path : string) (data : bytes) (perm : Z) : exch state unit := fun s =>
  if negb (is_dir s.1 (Dir path)) then (s, Err "no such file or directory")
  else if is_dir s.1 path then (s, Err "is a directory")
  else ((put path (mkFile data (match files s.1 !! path with Some f => mode f | None => perm end)) s.1, s.2), Ok tt).

(** The directories above a clean path, and the path. *)
Fixpoint extend (cur : string) (elements : list string) : list string :=
  match elements with
  | [] => []
  | c :: elements => (cur ++ "/" ++ c) :: extend (cur ++ "/" ++ c) elements
  end.

Definition ancestors (path : string) : list string :=
  match split slash path with
  | [] => []
  | c :: elements => if c =? "" then extend "" elements else c :: extend c elements
  end.

Definition MkdirAll (path : string) : exch state unit := fun s =>
  if path =? "" then (s, Err "no such file or directory")
  else if bool_decide (Exists (fun a => is_Some (files s.1 !! a)) (ancestors path)) then (s, Err "not a directory")
  else ((mkFS (files s.1) (list_to_set (ancestors path) ∪ dirs s.1), s.2), Ok tt).

Example ancestors_of : ancestors "/etc/swan/certs" = ["/etc"; "/etc/swan"; "/etc/swan/certs"] /\ ancestors "certs" = ["certs"].
Proof. done. Qed.

(** ** Facts *)

Lemma ReadFile_state path s : (ReadFile path s).1 = s.
Proof. unfold ReadFile. by repeat case_match. Qed.

Lemma WriteFile_Ok path data perm s s' :
  WriteFile path data perm s = (s', Ok tt) ->
  is_dir s.1 path = false /\ s' = (put path (mkFile data (match files s.1 !! path with Some f => mode f | None => perm end)) s.1, s.2).
Proof. unfold WriteFile. destruct (negb _); [done|]. destruct (is_dir s.1 path); [done|]. by intros [= <-]. Qed.

Lemma is_dir_put path f s p : is_dir (put path f s) p = is_dir s p.
Proof. done. Qed.

(** What a file holds after it was written, and the others. *)
Lemma read_put path f s r : is_dir s path = false -> ReadFile path (put path f s, r) = ((put path f s, r), Ok (content f)).
Proof. intros H. unfold ReadFile. cbn. by rewrite is_dir_put, H, lookup_insert_eq. Qed.

Lemma read_other path p f s r : p <> path -> ReadFile p (put path f s, r) = ((put path f s, r), (ReadFile p (s, r)).2).
Proof.
  intros Hne. unfold ReadFile. cbn [fst]. rewrite is_dir_put. destruct (is_dir s p); [done|]. cbn. rewrite lookup_insert_ne by done.
  by destruct (files s !! p).
Qed.

(** A directory that was made is there to be made again. *)
Lemma MkdirAll_Ok path s s' : MkdirAll path s = (s', Ok tt) ->
  path <> "" /\ s' = (mkFS (files s.1) (list_to_set (ancestors path) ∪ dirs s.1), s.2) /\ Forall (fun a => files s.1 !! a = None) (ancestors path).
Proof.
  unfold MkdirAll. destruct (String.eqb_spec path "") as [|Hp]; [done|]. case_bool_decide as H; [done|]. intros [= <-]. split_and!; [done..|]. apply not_Exists_Forall in H; [|apply _].
  eapply Forall_impl; [exact H|]. intros a Ha. cbn in Ha. destruct (files s.1 !! a); [|done]. by destruct Ha.
Qed.

Lemma MkdirAll_again path s : path <> "" -> list_to_set (ancestors path) ⊆ dirs s.1 -> Forall (fun a => files s.1 !! a = None) (ancestors path) ->
  MkdirAll path s = (s, Ok tt).
Proof.
  intros Hp Hd Hf. unfold MkdirAll. apply String.eqb_neq in Hp as ->. rewrite bool_decide_false.
  - rewrite (subseteq_union_1_L _ _ Hd). by destruct s as [[] ?].
  - intros (a & Ha & [f Hs])%Exists_exists. rewrite (proj1 (Forall_forall _ _) Hf a Ha) in Hs. done.
Qed.

(** What is not a file does not become one by making a directory. *)
Lemma is_file_less s ds p : is_file s p = false -> is_file (mkFS (files s) (ds ∪ dirs s)) p = false.
Proof.
  unfold is_file, is_dir. cbn. intros [Hd|Hf]%andb_false_iff; apply andb_false_iff; [left|by right].
  apply negb_false_iff in Hd. apply negb_false_iff. apply orb_true_iff in Hd as [Hd|Hd]; [by rewrite Hd|].
  apply orb_true_iff. right. apply bool_decide_eq_true in Hd. apply bool_decide_eq_true. set_solver.
Qed.

(** ** What a computation does to the disk, whatever its outcome *)

Section disk.
Context (Q : fs -> fs -> Prop) `{!PreOrder Q}.

Definition disk (s s' : state) : Prop := Q s.1 s'.1.

#[global] Instance disk_preorder : PreOrder disk.
Proof. split; [intros s; apply (reflexivity (R := Q))|]. intros s s' s'' H H'. unfold disk in *. by etrans. Qed.

Lemma disk_get {A} (f : state -> A) : within disk (get f).
Proof. intros s. apply (reflexivity (R := Q)). Qed.
Lemma disk_on_session {A} (f : fs -> A) : within disk (on_session f).
Proof. intros s. apply (reflexivity (R := Q)). Qed.
Lemma disk_drawn {A} (f : rng -> res (A * rng)) : within disk (drawn f).
Proof. intros s. unfold disk, drawn. destruct (f s.2) as [[]| |]; apply (reflexivity (R := Q)). Qed.
Lemma disk_ReadFile path : within disk (ReadFile path).
Proof. intros s. unfold disk. rewrite ReadFile_state. apply (reflexivity (R := Q)). Qed.

End disk.

(** A computation ends where its first part fails, or with its second part. *)
Lemma exch_bind_cases {S A B} (m : exch S A) (f : A -> exch S B) s s' r : (m ≫= f) s = (s', r) ->
  exists s1 x, m s = (s1, x) /\ ((exists a, x = Ok a /\ f a s1 = (s', r)) \/ ((forall a, x <> Ok a) /\ s' = s1 /\ forall b, r <> Ok b)).
Proof.
  unfold mbind, exch_bind. destruct (m s) as [s1 [a|e|]]; intros H; exists s1; eexists; (split; [reflexivity|]); [by eauto|right..];
    by injection H as <- <-.
Qed.

(** A file stays a file. *)
Definition stays (path : string) (s s' : fs) : Prop := is_file s path = true -> is_file s' path = true.
#[global] Instance stays_preorder path : PreOrder (stays path).
Proof. unfold stays. split; [intros s H; exact H|]. intros s s' s'' H H' Hs. exact (H' (H Hs)). Qed.

(** The files other than these are as they were. *)
Definition others (paths : list string) (s s' : fs) : Prop := forall p, p ∉ paths -> files s' !! p = files s !! p.
#[global] Instance others_preorder paths : PreOrder (others paths).
Proof. split; [by intros s p|]. intros s s' s'' H H' p Hp. by rewrite H', H. Qed.

Lemma others_more ps qs s s' : others ps s s' -> (forall p, p ∈ ps -> p ∈ qs) -> others qs s s'.
Proof. intros H Hi p Hp. apply H. intros Hq. by apply Hp, Hi. Qed.

Lemma stays_WriteFile p path data perm : within (disk (stays p)) (WriteFile path data perm).
Proof.
  intros s. unfold disk, WriteFile. destruct (negb _); [done|]. destruct (is_dir s.1 path) eqn:Ed; [done|]. cbn. unfold stays, is_file.
  rewrite is_dir_put. cbn. intros [Hd Hf]%andb_true_iff. rewrite Hd. apply bool_decide_eq_true in Hf. apply bool_decide_eq_true.
  destruct (decide (p = path)) as [->|Hne]; [rewrite lookup_insert_eq; by eexists|by rewrite lookup_insert_ne by done].
Qed.

Lemma others_WriteFile ps path data perm : path ∈ ps -> within (disk (others ps)) (WriteFile path data perm).
Proof.
  intros Hp s. unfold disk, WriteFile. destruct (negb _); [done|]. destruct (is_dir s.1 path); [done|]. cbn. intros p Hn. cbn.
  apply lookup_insert_ne. intros ->. done.
Qed.

Lemma stays_MkdirAll p path : within (disk (stays p)) (MkdirAll path).
Proof.
  intros s. unfold disk, MkdirAll. destruct (path =? ""); [done|]. case_bool_decide as He; [done|]. cbn. unfold stays, is_file, is_dir. cbn.
  intros [Hd Hf]%andb_true_iff. rewrite Hf, andb_true_r. apply negb_true_iff in Hd. apply negb_true_iff.
  apply orb_false_iff in Hd as [-> Hn]. cbn. apply bool_decide_eq_false in Hn. apply bool_decide_eq_false.
  intros [Hi%elem_of_list_to_set|]%elem_of_union; [|done]. apply He, Exists_exists. exists p. split; [done|].
  by apply bool_decide_eq_true in Hf.
Qed.

Lemma others_MkdirAll ps path : within (disk (others ps)) (MkdirAll path).
Proof. intros s. unfold disk, MkdirAll. destruct (path =? ""); [done|]. by case_bool_decide. Qed.

(** [effects] runs through a computation; it leaves the writes of files it cannot see among [ps]. *)
Ltac effect :=
  lazymatch goal with
  | |- within _ (mbind _ _) => apply within_bind; [apply _| |intro]
  | |- within _ (ret _) => apply within_ret; apply _
  | |- within _ (fail _) => apply within_fail; apply _
  | |- within _ (lift _) => apply within_lift; apply _
  | |- within _ (on_session _) => apply disk_on_session; apply _
  | |- within _ (fileExists _) => apply disk_on_session; apply _
  | |- within _ (drawn _) => apply disk_drawn; apply _
  | |- within _ (ReadFile _) => apply disk_ReadFile; apply _
  | |- within (disk (stays _)) (WriteFile _ _ _) => apply stays_WriteFile
  | |- within (disk (others _)) (WriteFile _ _ _) => apply others_WriteFile; try set_solver
  | |- within (disk (stays _)) (MkdirAll _) => apply stays_MkdirAll
  | |- within (disk (others _)) (MkdirAll _) => apply others_MkdirAll
  | |- within _ (let _ := _ in _) => cbv zeta
  | |- within _ (match ?x with _ => _ end) => destruct x
  end.
Ltac effects := repeat effect.

(** ** Names in a directory *)

(** A name without slash, of a file. *)
Definition simple (name : string) : Prop := split slash name = [name] /\ name <> "" /\ name <> "." /\ name <> "..".

Lemma split_nonnil sep s : split sep s <> [].
Proof. destruct s as [|c s]; [done|]. cbn. destruct (Ascii.eqb c sep); [done|]. by destruct (split sep s). Qed.

Lemma split_app sep a b : split sep (a ++ String sep b) = (split sep a ++ split sep b)%list.
Proof.
  induction a as [|c a IH]; [simpl; by destruct (Ascii.eqb_spec sep sep)|]. change (String c a ++ String sep b) with (String c (a ++ String sep b)). cbn [split].
  rewrite IH. destruct (Ascii.eqb c sep); [done|]. destruct (split sep a) as [|x l] eqn:E; [by apply split_nonnil in E|done].
Qed.

Lemma app_inv_l (a b c : string) : a ++ b = a ++ c -> b = c.
Proof. induction a as [|x a IH]; [done|]. intros [= H]. by apply IH. Qed.

Lemma app_assoc_s (a b c : string) : (a ++ b) ++ c = a ++ b ++ c.
Proof. induction a as [|x a IH]; [done|]. exact (f_equal (String x) IH). Qed.

Lemma append_nil_r a : a ++ "" = a.
Proof. induction a as [|x a IH]; [done|]. exact (f_equal (String x) IH). Qed.

Lemma concat_snoc l : exists pre, forall b, String.concat "/" (l ++ [b])%list = pre ++ b.
Proof.
  induction l as [|x [|y l] [pre IH]].
  - by exists "".
  - exists (x ++ "/"). intros b. cbn. by rewrite app_assoc_s.
  - exists (x ++ "/" ++ pre). intros b. specialize (IH b). cbn [app String.concat] in *. rewrite IH. by rewrite !app_assoc_s.
Qed.

(** Joining a simple name to a directory appends it. *)
Lemma Join_simple dir : dir <> "" -> exists pre, forall name, simple name -> Join dir name = pre ++ name.
Proof.
  intros Hd. set (out := foldl (clean_step (IsAbs dir)) [] (split slash dir)). destruct (concat_snoc (reverse out)) as [pre Hpre].
  assert (forall name, simple name -> IsAbs (dir ++ "/" ++ name) = IsAbs dir /\
    String.concat "/" (reverse (foldl (clean_step (IsAbs dir)) [] (split slash (dir ++ "/" ++ name)))) = pre ++ name) as H.
  { intros name (Hs & H1 & H2 & H3). split; [by destruct dir|]. change ("/" ++ name) with (String slash name).
    rewrite split_app, foldl_app, Hs. cbn [foldl]. fold out. unfold clean_step.
    apply String.eqb_neq in H1 as ->, H2 as ->, H3 as ->. cbn [orb]. by rewrite reverse_cons, Hpre. }
  exists (if IsAbs dir then String slash pre else pre). intros name Hn. destruct (H name Hn) as [Ha Hc]. unfold Join.
  rewrite (proj2 (String.eqb_neq dir "")) by done. cbn [negb]. unfold Clean. rewrite Ha, Hc. destruct (IsAbs dir); [done|].
  destruct (String.eqb_spec (pre ++ name) "") as [E|_]; [|done]. exfalso. destruct Hn as (_ & Hn & _). destruct pre; [by cbn in E|done].
Qed.

Lemma Join_inj dir a b : dir <> "" -> simple a -> simple b -> Join dir a = Join dir b -> a = b.
Proof.
  intros Hd Ha Hb. destruct (Join_simple dir Hd) as [pre H]. rewrite (H a Ha), (H b Hb). apply app_inv_l.
Qed.

(** Joined paths keep the extension of the name, whatever the name. *)
Definition extension (e : string) : bool := bool_decide (split slash e = [e]) && Nat.leb 3 (String.length e).

Lemma split_none_app sep a b : split sep a = [a] -> split sep b = [b] -> split sep (a ++ b) = [a ++ b].
Proof.
  intros Ha Hb. induction a as [|c a IH]; [done|]. change (String c a ++ b) with (String c (a ++ b)). cbn [split] in *.
  destruct (Ascii.eqb c sep) eqn:Ec; [discriminate Ha|].
  destruct (split sep a) as [|x l] eqn:E; [by apply split_nonnil in E|]. injection Ha as -> ->. by rewrite IH.
Qed.

Lemma last_element u : exists x, split slash x = [x] /\ (u = x \/ exists pre, u = pre ++ String slash x).
Proof.
  induction u as [|c u (x & Hx & Hu)]; [exists ""; by auto|].
  destruct Hu as [->|[pre ->]]; [|exists x; split; [done|]; right; by exists (String c pre)].
  destruct (Ascii.eqb_spec c slash) as [->|Hc]; [exists x; split; [done|]; right; by exists ""|].
  exists (String c x). split; [|by left]. cbn [split]. apply Ascii.eqb_neq in Hc as ->. by rewrite Hx.
Qed.

Lemma length_append a b : String.length (a ++ b) = (String.length a + String.length b)%nat.
Proof. induction a as [|c a IH]; [done|]. exact (f_equal S IH). Qed.

Lemma simple_ext x e : split slash x = [x] -> extension e = true -> simple (x ++ e).
Proof.
  intros Hx [He%bool_decide_eq_true Hn%Nat.leb_le]%andb_true_iff. split; [by apply split_none_app|].
  pose proof (length_append x e) as Hl. split_and!; intros E; rewrite E in Hl; cbn in Hl; lia.
Qed.

Lemma Join_ext dir u : dir <> "" -> exists base, forall e, extension e = true -> Join dir (u ++ e) = base ++ e.
Proof.
  intros Hd. destruct (last_element u) as (x & Hx & [->|[pre ->]]).
  - destruct (Join_simple dir Hd) as [p H]. exists (p ++ x). intros e He. by rewrite H, app_assoc_s by by apply simple_ext.
  - destruct (Join_simple (dir ++ "/" ++ pre)) as [p H]; [by destruct dir|]. exists (p ++ x). intros e He.
    rewrite !app_assoc_s, <- (H (x ++ e)) by by apply simple_ext. unfold Join. rewrite (proj2 (String.eqb_neq dir "")) by done.
    rewrite (proj2 (String.eqb_neq (dir ++ "/" ++ pre) "")) by by destruct dir. cbn [negb]. f_equal. rewrite !app_assoc_s. done.
Qed.

Lemma append_cancel_r a b e : a ++ e = b ++ e -> a = b.
Proof.
  revert b. induction a as [|c a IH]; intros [|c' b] H; [done|..].
  - apply (f_equal String.length) in H. rewrite !length_append in H. cbn in H. lia.
  - apply (f_equal String.length) in H. rewrite !length_append in H. cbn in H. lia.
  - injection H as -> H. f_equal. by apply IH.
Qed.

(** Two extensions of one base are two paths. *)
Lemma ext_ne base e e' : e <> e' -> base ++ e <> base ++ e'.
Proof. intros H E. by apply app_inv_l in E. Qed.

Lemma Clean_nonempty p : Clean p <> "".
Proof. unfold Clean. destruct (IsAbs p); [done|]. by destruct (String.eqb_spec (String.concat "/" (reverse (foldl (clean_step false) [] (split slash p)))) ""). Qed.

Lemma Join_nonempty a b : a <> "" -> Join a b <> "".
Proof. intros H. unfold Join. rewrite (proj2 (String.eqb_neq a "")) by done. apply Clean_nonempty. Qed.

Lemma Dir_nonempty p : Dir p <> "".
Proof. unfold Dir. destruct (cut_last slash p) as [[d b]|]; apply Clean_nonempty. Qed.

(** Paths with extensions that end in different letters are different. *)
Fixpoint last_char (s : string) : option ascii :=
  match s with EmptyString => None | String c EmptyString => Some c | String _ s => last_char s end.

Lemma last_char_app a e : e <> "" -> last_char (a ++ e) = last_char e.
Proof.
  intros H. induction a as [|c a IH]; [done|]. change (String c a ++ e) with (String c (a ++ e)). rewrite <- IH. cbn.
  destruct (a ++ e) eqn:E; [|done]. by destruct a; [cbn in E; subst|].
Qed.

Lemma Join_ext_ne d d' u u' e e' : d <> "" -> d' <> "" -> extension e = true -> extension e' = true -> last_char e <> last_char e' ->
  Join d (u ++ e) <> Join d' (u' ++ e').
Proof.
  intros Hd Hd' He He' Hl E. destruct (Join_ext d u Hd) as [b Hb]. destruct (Join_ext d' u' Hd') as [b' Hb'].
  rewrite (Hb e He), (Hb' e' He') in E. apply (f_equal last_char) in E. rewrite !last_char_app in E; [done|..].
  - by intros ->.
  - by intros ->.
Qed.

End Disk.
