(* ===== verification/Dates.v ===== *)
(** * Dates: [time.Time] as the certificate code uses it

    An instant is a number of seconds since the epoch, in UTC.  [AddDate] is Go's, on
    integers of 64 bits: the month is added, normalised into the year, the date turned into
    the days of Go's absolute calendar and these into seconds, and every one of these steps
    may wrap.  [exact_date] is the same on a calendar without end, where months are counted
    from March of the year 0, so that the leap day is the last of its year; the two agree
    while the months are few ([AddDate_exact]). *)

From S2P Require Import Prelude.

Module Time.

#[local] Ltac Zify.zify_post_hook ::= Z.to_euclidean_division_equations.

Definition day : Z := 86400.

(** The days from the first of March of the year 0 to the first of the month. *)
Definition days_before (M : Z) : Z :=
  let y := M / 12 in
  365 * y + y / 4 - y / 100 + y / 400 + (153 * (M mod 12) + 2) / 5.

(** The day number of the epoch. *)
Definition epoch : Z := 719468.

(** The centuries, the periods of four years and the years of a day of a period of 400
    years, with the day of the year (from March) that is left. *)
Definition year_day (doe : Z) : Z * Z :=
  let c := Z.min 3 (doe / 36524) in
  let doc := doe - 36524 * c in
  let q := doc / 1461 in
  let doq := doc - 1461 * q in
  let y := Z.min 3 (doq / 365) in
  (100 * c + 4 * q + y, doq - 365 * y).

(** The month and the day in it (from 0). *)
Definition Date (z : Z) : Z * Z :=
  let (y, doy) := year_day (z mod 146097) in
  let m := (5 * doy + 2) / 153 in
  (12 * (400 * (z / 146097) + y) + m, doy - (153 * m + 2) / 5).

(** The date [years] and [months] later, on a calendar without end. *)
Definition exact_date (t years months : Z) : Z :=
  let (M, d) := Date (t / day + epoch) in
  (days_before (M + 12 * years + months) + d - epoch) * day + t mod day.

(** ** [AddDate] *)

(** Go's absolute time begins at the first of March of the year -292277022400. *)
Definition absoluteYears : Z := 292277022400.
Definition unixToAbsolute : Z := (epoch + 146097 * (absoluteYears / 400)) * day.

(** [absDays.date]: year, month (from 1) and day (from 1); a January or a February is of the
    year after the one that began in March. *)
Definition civil (absDays : Z) : Z * Z * Z :=
  let (M, d) := Date absDays in
  let janFeb := if M mod 12 <? 10 then 0 else 1 in
  (i64 (u64 (M / 12 - absoluteYears + janFeb)), M mod 12 + 3 - 12 * janFeb, d + 1).

Definition norm (hi lo base : Z) : Z * Z :=
  let '(hi, lo) := if lo <? 0 then let n := (- lo - 1) / base + 1 in (i64 (hi - n), lo + n * base) else (hi, lo) in
  if base <=? lo then let n := lo / base in (i64 (hi + n), lo - n * base) else (hi, lo).

Definition dateToAbsDays (year month d : Z) : Z :=
  let janFeb := if month <? 3 then 1 else 0 in
  let amonth := month + 12 * janFeb in
  let y := u64 (year - janFeb + absoluteYears) in
  let ayday := Z.shiftr (amonth * 979 - 2919) 5 in
  let cday := 1461 * (y mod 100) / 4 in
  let centurydays := u64 (146097 * (y / 100)) / 4 in
  u64 (centurydays + (cday + ayday + d - 1)).

(** [t.AddDate(years, months, 0)]: [time.Date] of the year and of the month that are summed,
    on the day and at the time of day of [t]. *)
Definition AddDate (t years months : Z) : Z :=
  let abs := u64 (t + unixToAbsolute) in
  let '(year, month, d) := civil (abs / day) in
  let (year, m) := norm (i64 (year + years)) (i64 (i64 (month + months) - 1)) 12 in
  i64 (i64 (dateToAbsDays year (m + 1) d) * day + abs mod day - unixToAbsolute).

(** From 2024-01-31 12:00:00 UTC: one month later is 2024-03-02, ten years later 2034-01-31,
    one month earlier 2023-12-31; and 7014648590646 months later, the seconds having wrapped,
    is 1990-09-23. *)
Example AddDate_runs_over :
  AddDate 1706702400 0 1 = 1709380800 /\ AddDate 1706702400 10 0 = 2022321600 /\ AddDate 1706702400 0 (-1) = 1704024000 /\
  Date (0 + epoch) = (12 * 1969 + 10, 0) /\ AddDate 1706702400 0 7014648590646 = 654065984.
Proof. vm_compute. done. Qed.

(** ** Facts *)

(** The years of a period begin where they should, and have 366 days at most. *)
Lemma year_day_ok doe : 0 <= doe < 146097 ->
  let (y, doy) := year_day doe in 0 <= y < 400 /\ 0 <= doy <= 365 /\ doe = 365 * y + y / 4 - y / 100 + doy.
Proof.
  intros H. unfold year_day. cbv zeta. set (c := Z.min 3 (doe / 36524)). set (doc := doe - 36524 * c).
  assert (0 <= c <= 3 /\ 0 <= doc <= 36524) as [Hc Hd] by (subst c doc; lia). set (q := doc / 1461). set (doq := doc - 1461 * q).
  assert (0 <= q <= 24 /\ 0 <= doq <= 1460) as [Hq Ho] by (subst q doq; clearbody doc; lia). set (y := Z.min 3 (doq / 365)).
  assert (0 <= y <= 3 /\ 0 <= doq - 365 * y <= 365) as [Hy Hz] by (subst y; clearbody doq; lia).
  assert ((100 * c + 4 * q + y) / 4 = 25 * c + q) as -> by (clearbody c q y; lia).
  assert ((100 * c + 4 * q + y) / 100 = c) as -> by (clearbody c q y; lia). subst doq doc. lia.
Qed.

(** The date of a day is of that day. *)
Lemma Date_day z : let (M, d) := Date z in days_before M + d = z.
Proof.
  unfold Date, days_before. pose proof (year_day_ok (z mod 146097) ltac:(apply Z.mod_pos_bound; lia)) as Hy.
  destruct (year_day _) as [y doy]. destruct Hy as (Hy & Hd & Hz). pose proof (Z.div_mod z 146097 ltac:(lia)) as Hdiv. rewrite Hz in Hdiv.
  set (era := z / 146097) in *. set (m := (5 * doy + 2) / 153). assert (0 <= m < 12) as Hm by (subst m; lia). clearbody era.
  assert ((12 * (400 * era + y) + m) / 12 = 400 * era + y) as -> by (clearbody m; lia).
  assert ((12 * (400 * era + y) + m) mod 12 = m) as -> by (clearbody m; lia).
  assert ((400 * era + y) / 4 = 100 * era + y / 4) as -> by lia.
  assert ((400 * era + y) / 100 = 4 * era + y / 100) as -> by lia.
  assert ((400 * era + y) / 400 = era) as -> by lia. lia.
Qed.

Lemma days_before_S M : 28 <= days_before (M + 1) - days_before M.
Proof.
  unfold days_before. pose proof (Z.div_mod M 12 ltac:(lia)) as HM. pose proof (Z.mod_pos_bound M 12 ltac:(lia)) as Hm.
  set (y := M / 12) in *. set (m := M mod 12) in *. clearbody y m. subst M. destruct (Z.eq_dec m 11) as [->|].
  - replace (12 * y + 11 + 1) with (12 * (y + 1)) by lia. replace (12 * (y + 1) / 12) with (y + 1) by lia. replace ((12 * (y + 1)) mod 12) with 0 by lia. lia.
  - replace ((12 * y + m + 1) / 12) with y by (apply Z.div_unique with (m + 1); lia).
    replace ((12 * y + m + 1) mod 12) with (m + 1) by (apply Z.mod_unique with y; lia). lia.
Qed.

Lemma days_before_add M k : 0 <= k -> days_before M + 28 * k <= days_before (M + k).
Proof.
  revert k. apply natlike_ind; [replace (M + 0) with M by lia; lia|]. intros k Hk IH. pose proof (days_before_S (M + k)) as H.
  unfold Z.succ. rewrite Z.add_assoc. lia.
Qed.

(** A month is 28 days at least. *)
Lemma exact_date_later t years months : 0 <= 12 * years + months -> t + 28 * day * (12 * years + months) <= exact_date t years months.
Proof.
  intros H. unfold exact_date. pose proof (Date_day (t / day + epoch)) as Hd. destruct (Date _) as [M d].
  pose proof (days_before_add M (12 * years + months) H) as Hb. rewrite Z.add_assoc in Hb. unfold day in *.
  pose proof (Z.div_mod t 86400 ltac:(lia)). lia.
Qed.

(** Only the sum counts modulo 2^64. *)
Lemma i64_mul_add x y z : i64 (i64 x * y + z) = i64 (x * y + z).
Proof.
  unfold i64. f_equal. set (w := 18446744073709551616).
  pose proof (Z.div_mod (x + 9223372036854775808) w ltac:(done)) as H. set (q := (_ + _) / w) in H. clearbody q.
  replace (x * y + z + 9223372036854775808) with ((x + 9223372036854775808) * y - 9223372036854775808 * y + z + 9223372036854775808) by lia.
  rewrite H at 2. replace ((w * q + (x + 9223372036854775808) mod w) * y - 9223372036854775808 * y + z + 9223372036854775808) with
    (((x + 9223372036854775808) mod w - 9223372036854775808) * y + z + 9223372036854775808 + (q * y) * w) by lia.
  by rewrite Z_mod_plus_full.
Qed.

(** The calendar repeats every 400 years. *)
Lemma Date_era z k : Date (z + 146097 * k) = let (M, d) := Date z in (M + 4800 * k, d).
Proof.
  unfold Date. replace ((z + 146097 * k) mod 146097) with (z mod 146097) by (rewrite (Z.mul_comm 146097 k); by rewrite Z_mod_plus_full).
  replace ((z + 146097 * k) / 146097) with (z / 146097 + k) by (rewrite (Z.mul_comm 146097 k), Z_div_plus_full; lia).
  destruct (year_day _) as [y doy]. f_equal. lia.
Qed.

Lemma Date_range z : 0 <= z -> let (M, d) := Date z in 0 <= M < 4800 * (z / 146097 + 1) /\ 0 <= d <= 30.
Proof.
  intros H. unfold Date. pose proof (year_day_ok (z mod 146097) ltac:(apply Z.mod_pos_bound; lia)) as Hy.
  destruct (year_day _) as [y doy]. destruct Hy as (Hy & Hd & _). assert (0 <= z / 146097) as He by (apply Z.div_pos; lia).
  clear H. set (e := z / 146097) in *. clearbody e. set (m := (5 * doy + 2) / 153). assert (0 <= m < 12) as Hm by (subst m; lia).
  split; [clearbody m; lia|]. clear Hm Hy He. subst m. lia.
Qed.

(** The days of the absolute calendar are those of the exact one, counted from further back. *)
Lemma dateToAbsDays_exact year month d : 0 <= year <= 1000000000000 -> 1 <= month <= 12 -> 0 <= d <= 30 ->
  dateToAbsDays year month (d + 1) = days_before (12 * year + month - 3) + d + 146097 * (absoluteYears / 400).
Proof.
  intros Hy Hm Hd. unfold dateToAbsDays, days_before. cbv zeta. set (j := if month <? 3 then 1 else 0).
  assert (0 <= j <= 1 /\ 3 <= month + 12 * j <= 14) as [Hj Hj'] by (subst j; destruct (Z.ltb_spec month 3); lia).
  replace ((12 * year + month - 3) / 12) with (year - j) by (apply Z.div_unique with (month + 12 * j - 3); lia).
  replace ((12 * year + month - 3) mod 12) with (month + 12 * j - 3) by (apply Z.mod_unique with (year - j); lia).
  assert (Z.shiftr ((month + 12 * j) * 979 - 2919) 5 = (153 * (month + 12 * j - 3) + 2) / 5) as ->.
  { rewrite Z.shiftr_div_pow2 by lia. change (2 ^ 5) with 32. generalize dependent (month + 12 * j). intros a Ha. lia. }
  set (a := (153 * (month + 12 * j - 3) + 2) / 5). assert (0 <= a <= 400) as Ha by (subst a; lia). clearbody a j. clear Hm Hj'.
  change (absoluteYears / 400) with 730692556. set (x := year - j). assert (-1 <= x <= 1000000000000) as Hx by lia. clearbody x.
  change absoluteYears with 292277022400. rewrite (u64_id (x + _)) by (unfold is_u64; lia).
  replace ((x + 292277022400) / 100) with (x / 100 + 2922770224) by lia. replace ((x + 292277022400) mod 100) with (x mod 100) by lia.
  rewrite (u64_id (146097 * _)) by (unfold is_u64; lia). rewrite u64_id by (unfold is_u64; lia). lia.
Qed.

Lemma norm_months year m : 0 <= year <= 1000000000000 -> 0 <= m <= 1000000000012 -> norm year m 12 = (year + m / 12, m mod 12).
Proof.
  intros Hy Hm. unfold norm. destruct (Z.ltb_spec m 0); [lia|]. destruct (Z.leb_spec 12 m).
  - rewrite i64_id by lia. f_equal. lia.
  - f_equal; lia.
Qed.

(** The year and the month of Go are the count of months. *)
Lemma civil_exact z : 0 <= z <= 20000000 -> let (M, d) := Date z in
  exists year month, civil (z + 146097 * (absoluteYears / 400)) = (year, month, d + 1) /\
    M = 12 * year + month - 3 /\ 0 <= year <= 100000 /\ 1 <= month <= 12 /\ 0 <= d <= 30.
Proof.
  intros Hz. unfold civil. rewrite Date_era. pose proof (Date_range z ltac:(lia)) as HR. destruct (Date z) as [M d]. destruct HR as [HM Hd].
  assert (0 <= M <= 700000) as HM' by lia. clear HM Hz. change (absoluteYears / 400) with 730692556. change absoluteYears with 292277022400.
  replace ((M + 4800 * 730692556) mod 12) with (M mod 12) by lia. replace ((M + 4800 * 730692556) / 12 - 292277022400) with (M / 12) by lia.
  set (j := if M mod 12 <? 10 then 0 else 1).
  assert (0 <= j <= 1 /\ 1 <= M mod 12 + 3 - 12 * j <= 12) as [Hj Hm] by (subst j; destruct (Z.ltb_spec (M mod 12) 10); lia). clearbody j.
  exists (M / 12 + j), (M mod 12 + 3 - 12 * j). rewrite u64_id by (unfold is_u64; lia). rewrite i64_id by lia. split_and!; lia || done.
Qed.

(** Nothing wraps while the clock is before the year 36812 and the months are not more than
    10^12 in all. *)
Lemma AddDate_exact t years months : 0 <= t < 2 ^ 40 -> 0 <= years <= 10000000000 -> 0 <= months <= 1000000000000 ->
  AddDate t years months = exact_date t years months.
Proof.
  intros Ht Hy Hm. unfold AddDate, exact_date. change (2 ^ 40) with 1099511627776 in Ht. cbv zeta. set (K := absoluteYears / 400).
  rewrite u64_id by (unfold is_u64, unixToAbsolute, absoluteYears, epoch, day; lia).
  assert ((t + unixToAbsolute) / day = (t / day + epoch) + 146097 * K) as -> by (unfold unixToAbsolute; fold K; rewrite Z_div_plus_full by done; lia).
  assert ((t + unixToAbsolute) mod day = t mod day) as -> by (unfold unixToAbsolute; apply Z_mod_plus_full).
  assert (0 <= t mod day < 86400) as Hs by (apply Z.mod_pos_bound; done). set (sec := t mod day) in *. clearbody sec.
  assert (0 <= t / day + epoch <= 20000000) as Hz by (unfold day, epoch; lia). pose proof (civil_exact _ Hz) as Hc. subst K.
  destruct (Date (t / day + epoch)) as [M d]. destruct Hc as (year & month & -> & -> & Hyear & Hmonth & Hd).
  rewrite !(i64_id (year + years)), (i64_id (month + months)), i64_id by lia. rewrite norm_months by lia.
  rewrite <- Z.add_sub_assoc, i64_mul_add, Z.add_sub_assoc, dateToAbsDays_exact by lia.
  set (m := month + months - 1). assert (0 <= m <= 1000000000011) as Hm' by lia.
  replace (12 * (year + years + m / 12) + (m mod 12 + 1) - 3) with (12 * year + month - 3 + 12 * years + months) by lia.
  set (M := 12 * year + month - 3 + 12 * years + months). assert (-100 <= days_before M <= 40000000000000) as Hb.
  { assert (-3 <= M <= 1121000000000) as HM by lia. clearbody M. clear - HM. unfold days_before. lia. }
  unfold unixToAbsolute. change (absoluteYears / 400) with 730692556. rewrite i64_id by (unfold day, epoch; lia). lia.
Qed.

(** A date that many months later is later. *)
Lemma AddDate_later t years months : 0 <= t < 2 ^ 40 -> 0 <= years <= 10000000000 -> 0 <= months <= 1000000000000 ->
  t + 28 * day * (12 * years + months) <= AddDate t years months.
Proof. intros Ht Hy Hm. rewrite AddDate_exact by done. apply exact_date_later. lia. Qed.

End Time.
