(* ===== verification/Certman.v ===== *)
(** * Certman: the certificates ([internal/certman]: [pem.go], [ca.go], [server.go], [client.go])

    Certificates and keys are files of a directory, in PEM.  [crypto/x509] (with the keys of
    [crypto/ecdsa]) and [encoding/pem] are parameters with the laws the code relies on:
    what is written reads back, and a certificate is checked by the public key of the key
    it was made with.  The time of a call is an argument.  Log lines are left out. *)

From S2P Require Import Prelude Rand Exch Filepath IkeCrypto Files Dates.

#[local] Open Scope string_scope.

Module Cert.

Import Files.Disk Dates.Time.

#[local] Opaque AddDate.

(** ** Certificates *)

Record Certificate := mkCert {
  SerialNumber : Z; CommonName : string; Organization : list string; NotBefore : Z; NotAfter : Z;
  KeyUsage : Z; ExtKeyUsage : list Z; BasicConstraintsValid : bool; IsCA : bool; MaxPathLen : Z;
  DNSNames : list string; IPAddresses : list bytes;
  (* of a parsed certificate *)
  PublicKey : bytes; Issuer : string; Raw : bytes
}.

Definition KeyUsageDigitalSignature : Z := 1.
Definition KeyUsageKeyEncipherment : Z := 4.
Definition KeyUsageCertSign : Z := 32.
Definition KeyUsageCRLSign : Z := 64.
Definition ExtKeyUsageServerAuth : Z := 1.
Definition ExtKeyUsageClientAuth : Z := 2.

(** [crypto/x509] and [crypto/ecdsa].  A public key is its bytes, none where Go has nil; a
    key in PKCS #8 may be of another kind ([None]). *)
Class X509 := {
  key : Type;
  Public : key -> bytes;
  GenerateKey : rng -> res (key * rng);
  MarshalPKCS8PrivateKey : key -> res bytes;
  ParsePKCS8PrivateKey : bytes -> res (option key);
  ParseECPrivateKey : bytes -> res key;
  CreateCertificate : Certificate -> Certificate -> bytes -> key -> rng -> res (bytes * rng);  (* template parent pub priv *)
  ParseCertificate : bytes -> res Certificate;
  CheckSignatureFrom : Certificate -> Certificate -> bool                                      (* child parent *)
}.

(** [encoding/pem]: the type and the bytes of a block. *)
Class PEM := { Encode : string -> bytes -> bytes; Decode : bytes -> option (string * bytes) }.

(** The fields of the template a certificate is made with. *)
Definition same_contents (t c : Certificate) : Prop :=
  SerialNumber c = SerialNumber t /\ CommonName c = CommonName t /\ Organization c = Organization t /\
  NotBefore c = NotBefore t /\ NotAfter c = NotAfter t /\ KeyUsage c = KeyUsage t /\ ExtKeyUsage c = ExtKeyUsage t /\
  IsCA c = IsCA t /\ BasicConstraintsValid c = BasicConstraintsValid t /\ DNSNames c = DNSNames t.

(** What [CheckSignatureFrom] wants of the parent. *)
Definition can_sign (c : Certificate) : Prop := BasicConstraintsValid c = true /\ IsCA c = true /\ Z.land (KeyUsage c) KeyUsageCertSign <> 0.

Class X509Laws (X : X509) := {
  key_reads_back k b : MarshalPKCS8PrivateKey k = Ok b -> ParsePKCS8PrivateKey b = Ok (Some k);
  created t p pub k r der r' : CreateCertificate t p pub k r = Ok (der, r') ->
    (PublicKey p = [] \/ PublicKey p = Public k) /\
    exists c, ParseCertificate der = Ok c /\ same_contents t c /\ PublicKey c = pub /\ Issuer c = CommonName p /\
      forall ca, can_sign ca -> PublicKey ca = Public k -> CheckSignatureFrom c ca = true;
  Public_nonempty k : Public k <> [];
  parsed_PublicKey b c : ParseCertificate b = Ok c -> PublicKey c <> []
}.

Class PEMLaws (P : PEM) := { pem_reads_back typ b : Decode (Encode typ b) = Some (typ, b) }.

Section certman.
Context {X : X509} {P : PEM}.
Context (ParseIP : string -> bytes).

(** ** pem.go *)

(** What the text of the file gives. *)
Definition cert_of_PEM (data : bytes) : res Certificate :=
  match Decode data with
  | Some (typ, block) => if typ =? "CERTIFICATE" then ParseCertificate block else Err "invalid PEM certificate"
  | None => Err "invalid PEM certificate"
  end.

Definition LoadCertFromPEM (path : string) : exch state Certificate :=
  data ← ReadFile path;
  lift (cert_of_PEM data).

Definition key_of_PEM (data : bytes) : res key :=
  match Decode data with
  | None => Err "invalid PEM key"
  | Some (typ, block) =>
    if typ =? "PRIVATE KEY" then
      key ← ParsePKCS8PrivateKey block;
      match key with Some ecKey => Ok ecKey | None => Err "key is not ECDSA" end
    else if typ =? "EC PRIVATE KEY" then ParseECPrivateKey block
    else Err "unsupported PEM type"
  end.

Definition LoadKeyFromPEM (path : string) : exch state key :=
  data ← ReadFile path;
  lift (key_of_PEM data).

(** The permissions are 0644 for a certificate and 0600 for a key. *)
Definition SaveCertPEM (certDER : bytes) (path : string) : exch state unit :=
  WriteFile path (Encode "CERTIFICATE" certDER) 420.

Definition SaveKeyPEM (k : key) (path : string) : exch state unit :=
  keyBytes ← lift (MarshalPKCS8PrivateKey k);
  WriteFile path (Encode "PRIVATE KEY" keyBytes) 384.

Definition ReadRawPEM (path : string) : exch state bytes := ReadFile path.

Definition ReadDER (path : string) : exch state bytes :=
  data ← ReadFile path;
  match Decode data with Some (_, block) => ret block | None => fail "no PEM block found" end.

(** ** ca.go *)

Definition caValidityYears : Z := 25.
Definition caCertFile : string := "ca.crt".
Definition caKeyFile : string := "ca.key".

(** [rand.Int(rand.Reader, 1 << 128)]: 16 bytes, all of them good. *)
Definition generateSerial : exch state Z :=
  serial ← drawn (fun r => Ok (rand_Read r 16));
  ret (IkeCrypto.Crypto.SetBytes serial).

(** The two files are there ([&&]: the second is looked at only if the first is there). *)
Definition both_exist (certPath keyPath : string) : exch state bool :=
  c ← fileExists certPath;
  if (c : bool) then fileExists keyPath else ret false.

Definition ca_template (now serialNumber : Z) : Certificate := {|
  SerialNumber := serialNumber; CommonName := "SWAN-NG Root CA"; Organization := ["SWAN-NG"];
  NotBefore := now; NotAfter := AddDate now caValidityYears 0;
  KeyUsage := Z.lor KeyUsageCertSign KeyUsageCRLSign; ExtKeyUsage := [];
  BasicConstraintsValid := true; IsCA := true; MaxPathLen := 1; DNSNames := []; IPAddresses := [];
  PublicKey := []; Issuer := ""; Raw := []
|}.

Definition InitCA (now : Z) (certsDir : string) : exch state (Certificate * key) :=
  _ ← MkdirAll certsDir;
  let certPath := Join certsDir caCertFile in
  let keyPath := Join certsDir caKeyFile in
  exist ← both_exist certPath keyPath;
  if (exist : bool) then
    cert ← LoadCertFromPEM certPath;
    k ← LoadKeyFromPEM keyPath;
    ret (cert, k)
  else
    k ← drawn GenerateKey;
    serialNumber ← generateSerial;
    let template := ca_template now serialNumber in
    certDER ← drawn (CreateCertificate template template (Public k) k);
    _ ← SaveCertPEM certDER certPath;
    _ ← SaveKeyPEM k keyPath;
    cert ← lift (ParseCertificate certDER);
    ret (cert, k).

(** ** server.go *)

Definition serverValidityYears : Z := 10.
Definition serverCertFile : string := "server.crt".
Definition serverKeyFile : string := "server.key".

Definition server_template (now serialNumber : Z) (hostname : string) : Certificate := {|
  SerialNumber := serialNumber; CommonName := hostname; Organization := ["SWAN-NG"];
  NotBefore := now; NotAfter := AddDate now serverValidityYears 0;
  KeyUsage := Z.lor KeyUsageDigitalSignature KeyUsageKeyEncipherment; ExtKeyUsage := [ExtKeyUsageServerAuth];
  BasicConstraintsValid := false; IsCA := false; MaxPathLen := 0; DNSNames := [hostname];
  IPAddresses := match ParseIP hostname with [] => [] | ip => [ip] end;
  PublicKey := []; Issuer := ""; Raw := []
|}.

Definition InitServerCert (now : Z) (certsDir hostname : string) (caCert : Certificate) (caKey : key) : exch state (Certificate * key) :=
  let certPath := Join certsDir serverCertFile in
  let keyPath := Join certsDir serverKeyFile in
  exist ← both_exist certPath keyPath;
  if (exist : bool) then
    cert ← LoadCertFromPEM certPath;
    k ← LoadKeyFromPEM keyPath;
    ret (cert, k)
  else
    k ← drawn GenerateKey;
    serialNumber ← generateSerial;
    certDER ← drawn (CreateCertificate (server_template now serialNumber hostname) caCert (Public k) caKey);
    _ ← SaveCertPEM certDER certPath;
    _ ← SaveKeyPEM k keyPath;
    cert ← lift (ParseCertificate certDER);
    _ ← MkdirAll (Join certsDir "clients");
    ret (cert, k).

(** ** client.go *)

Definition client_cert_path (certsDir username : string) : string := Join (Join certsDir "clients") (username ++ ".crt").
Definition client_key_path (certsDir username : string) : string := Join (Join certsDir "clients") (username ++ ".key").

Definition client_template (now serialNumber validityMonths : Z) (username : string) : Certificate := {|
  SerialNumber := serialNumber; CommonName := username; Organization := ["SWAN-NG"];
  NotBefore := now; NotAfter := AddDate now 0 validityMonths;
  KeyUsage := KeyUsageDigitalSignature; ExtKeyUsage := [ExtKeyUsageClientAuth];
  BasicConstraintsValid := false; IsCA := false; MaxPathLen := 0; DNSNames := []; IPAddresses := [];
  PublicKey := []; Issuer := ""; Raw := []
|}.

Definition GenerateClientCert (now : Z) (certsDir username : string) (validityMonths : Z) (caCert : Certificate) (caKey : key) :
    exch state (string * string) :=
  let certPath := client_cert_path certsDir username in
  let keyPath := client_key_path certsDir username in
  exist ← fileExists certPath;
  if (exist : bool) then fail "client certificate already exists"
  else
    k ← drawn GenerateKey;
    serialNumber ← generateSerial;
    certDER ← drawn (CreateCertificate (client_template now serialNumber validityMonths username) caCert (Public k) caKey);
    _ ← SaveCertPEM certDER certPath;
    _ ← SaveKeyPEM k keyPath;
    ret (certPath, keyPath).

End certman.

(** ** What the files hold *)

Section held.
Implicit Types d : fs.


Lemma ReadFile_inv path (s s' : state) data : ReadFile path s = (s', Ok data) ->
  s' = s /\ is_file s.1 path = true /\ forall r, ReadFile path (s.1, r) = ((s.1, r), Ok data).
Proof.
  unfold ReadFile, is_file. destruct s as [d r0]. cbn. destruct (is_dir d path); [done|]. destruct (files d !! path) as [f|]; [|done].
  intros [= <- <-]. split_and!; [done|done|]. intros r. done.
Qed.

(** A file is read and its text parsed. *)
Definition loaded {A} (parse : bytes -> res A) (path : string) : exch state A :=
  data ← ReadFile path;
  lift (parse data).

Definition holds {A} (parse : bytes -> res A) d (path : string) (a : A) : Prop :=
  is_file d path = true /\ forall r, loaded parse path (d, r) = ((d, r), Ok a).

Lemma loaded_inv {A} (parse : bytes -> res A) path (s s' : state) a :
  loaded parse path s = (s', Ok a) -> s' = s /\ holds parse s.1 path a.
Proof.
  intros (s1 & data & H & [= <- Ha])%exch_bind_inv. apply ReadFile_inv in H as (-> & Hf & Hr). split; [done|]. split; [done|].
  intros r. unfold loaded. erewrite exch_bind_Ok; [|apply Hr]. unfold lift. by rewrite Ha.
Qed.

(** The files other than these, and the directories, are the same. *)
Definition only (paths : list string) d d' : Prop := dirs d' = dirs d /\ forall p, p ∉ paths -> files d' !! p = files d !! p.

Lemma only_put path f d : only [path] d (put path f d).
Proof. split; [done|]. intros p Hp. cbn. apply lookup_insert_ne. set_solver. Qed.

Lemma only_trans ps qs d d' d'' : only ps d d' -> only qs d' d'' -> only (ps ++ qs) d d''.
Proof. intros [Hd Hp] [Hd' Hq]. split; [congruence|]. intros p Hn. rewrite Hq, Hp; [done|set_solver..]. Qed.

Lemma only_is_file ps d d' p : only ps d d' -> p ∉ ps -> is_file d' p = is_file d p.
Proof. intros [Hd Hp] Hn. unfold is_file, is_dir. by rewrite Hd, Hp. Qed.

Lemma only_ReadFile ps d d' p r : only ps d d' -> p ∉ ps -> ReadFile p (d', r) = ((d', r), (ReadFile p (d, r)).2).
Proof. intros [Hd Hp] Hn. unfold ReadFile, is_dir. cbn. rewrite Hd, Hp by done. repeat (case_match; try done). Qed.

Lemma only_holds {A} (parse : bytes -> res A) ps d d' p a : only ps d d' -> p ∉ ps -> holds parse d p a -> holds parse d' p a.
Proof.
  intros Ho Hn [Hf Hc]. split; [by rewrite (only_is_file ps d d')|]. intros r. specialize (Hc r).
  apply exch_bind_inv in Hc as (s1 & data & H & [= _ Ha]). unfold loaded.
  erewrite exch_bind_Ok; [|rewrite (only_ReadFile ps d d') by done; by rewrite H]. unfold lift. by rewrite Ha.
Qed.

(** What is written is held. *)
Lemma WriteFile_holds {A} (parse : bytes -> res A) path data perm (s s' : state) a :
  WriteFile path data perm s = (s', Ok tt) -> parse data = Ok a ->
  s'.2 = s.2 /\ only [path] s.1 s'.1 /\ is_dir s.1 path = false /\ holds parse s'.1 path a.
Proof.
  intros [Hd ->]%WriteFile_Ok Ha. split_and!; [done|apply only_put|done|]. split.
  { unfold is_file. cbn [fst]. rewrite is_dir_put, Hd. apply bool_decide_eq_true. cbn. rewrite lookup_insert_eq. by eexists. }
  intros r. unfold loaded. cbn [fst]. erewrite exch_bind_Ok; [|apply read_put; done]. cbn [content]. unfold lift. by rewrite Ha.
Qed.

End held.

Section files.
Context {X : X509} {XL : X509Laws X} {P : PEM} {PL : PEMLaws P}.
Implicit Types (d : fs) (c : Certificate) (k : key).

Abbreviation cert_at := (holds cert_of_PEM).
Abbreviation key_at := (holds key_of_PEM).

Lemma SaveCert_ok der path (s s' : state) c : SaveCertPEM der path s = (s', Ok tt) -> ParseCertificate der = Ok c ->
  s'.2 = s.2 /\ only [path] s.1 s'.1 /\ is_dir s.1 path = false /\ cert_at s'.1 path c.
Proof. intros H Hc. eapply WriteFile_holds; [exact H|]. unfold cert_of_PEM. by rewrite pem_reads_back. Qed.

Lemma SaveKey_ok k path (s s' : state) : SaveKeyPEM k path s = (s', Ok tt) ->
  s'.2 = s.2 /\ only [path] s.1 s'.1 /\ is_dir s.1 path = false /\ key_at s'.1 path k.
Proof.
  intros (s1 & b & [= <- Hb] & H)%exch_bind_inv. eapply WriteFile_holds; [exact H|]. unfold key_of_PEM. rewrite pem_reads_back. cbn.
  by rewrite (key_reads_back _ _ Hb).
Qed.

Lemma MkdirAll_holds {A} (parse : bytes -> res A) path (s s' : state) q a :
  MkdirAll path s = (s', Ok tt) -> holds parse s.1 q a -> holds parse s'.1 q a.
Proof.
  intros (Hp & -> & Hf)%MkdirAll_Ok [Hq Hr]. unfold is_file in Hq. apply andb_true_iff in Hq as [Hd Hq%bool_decide_eq_true].
  assert (is_dir (mkFS (files s.1) (list_to_set (ancestors path) ∪ dirs s.1)) q = false) as Hd'.
  { apply negb_true_iff in Hd. unfold is_dir in *. apply orb_false_iff in Hd as [Hd Hn]. rewrite Hd. cbn. apply bool_decide_eq_false in Hn.
    apply bool_decide_eq_false. intros [Hi%elem_of_list_to_set|]%elem_of_union; [|done]. rewrite Forall_forall in Hf. rewrite (Hf _ Hi) in Hq. by destruct Hq. }
  split.
  - cbn [fst]. unfold is_file. rewrite Hd'. cbn. by apply bool_decide_eq_true.
  - intros r. specialize (Hr r). apply exch_bind_inv in Hr as (s1 & data & H & [= _ Ha]). unfold loaded.
    unfold ReadFile in *. unfold mbind, exch_bind. cbn [fst] in *. rewrite Hd'. apply negb_true_iff in Hd. rewrite Hd in H. cbn.
    destruct (files s.1 !! q) as [f|]; [|done]. injection H as _ <-. unfold lift. by rewrite Ha.
Qed.

(** A key and its certificate, loaded when both are there. *)
Definition load_pair (certPath keyPath : string) (generate : exch state (Certificate * key)) : exch state (Certificate * key) :=
  exist ← both_exist certPath keyPath;
  if (exist : bool) then
    cert ← LoadCertFromPEM certPath;
    k ← LoadKeyFromPEM keyPath;
    ret (cert, k)
  else generate.

Definition pair_at d (certPath keyPath : string) (ck : Certificate * key) : Prop := cert_at d certPath ck.1 /\ key_at d keyPath ck.2.

Lemma both_exist_spec cp kp d r : both_exist cp kp (d, r) = ((d, r), Ok (is_file d cp && is_file d kp)).
Proof. unfold both_exist, mbind, exch_bind, fileExists, on_session, get, ret. cbn. unfold is_file. by destruct (negb _ && _). Qed.

Lemma load_pair_at cp kp gen d r ck : pair_at d cp kp ck -> load_pair cp kp gen (d, r) = ((d, r), Ok ck).
Proof.
  intros [[Hc Hlc] [Hk Hlk]]. unfold load_pair. erewrite exch_bind_Ok; [|apply both_exist_spec]. rewrite Hc, Hk. cbn.
  erewrite exch_bind_Ok; [|apply Hlc]. erewrite exch_bind_Ok; [|apply Hlk]. by destruct ck.
Qed.

Lemma load_pair_inv cp kp gen (s s' : state) ck : load_pair cp kp gen s = (s', Ok ck) ->
  (s' = s /\ is_file s.1 cp && is_file s.1 kp = true /\ pair_at s.1 cp kp ck) \/ (is_file s.1 cp && is_file s.1 kp = false /\ gen s = (s', Ok ck)).
Proof.
  destruct s as [d r]. unfold load_pair. erewrite exch_bind_Ok; [|apply both_exist_spec]. cbn [fst]. destruct (_ && _); [|by right]. intros H.
  apply exch_bind_inv in H as (s1 & c & [-> Hc]%(loaded_inv cert_of_PEM) & H).
  apply exch_bind_inv in H as (s2 & k & [-> Hk]%(loaded_inv key_of_PEM) & [= <- <-]). by left.
Qed.

(** ** The authority *)

(** The certificate the authority makes for itself. *)
Definition new_ca (now : Z) (ck : Certificate * key) : Prop :=
  (exists serialNumber, same_contents (ca_template now serialNumber) ck.1) /\ PublicKey ck.1 = Public ck.2 /\ CheckSignatureFrom ck.1 ck.1 = true.

Definition ca_cert_path (certsDir : string) : string := Join certsDir caCertFile.
Definition ca_key_path (certsDir : string) : string := Join certsDir caKeyFile.

Lemma drawn_inv {A} (f : rng -> res (A * rng)) (s s' : state) a : drawn f s = (s', Ok a) -> s'.1 = s.1 /\ exists r, f s.2 = Ok (a, r).
Proof. unfold drawn. destruct (f s.2) as [[a' r]|e|] eqn:E; [|done..]. intros [= <- <-]. eauto. Qed.

Lemma serial_inv (s s' : state) n : generateSerial s = (s', Ok n) -> s'.1 = s.1.
Proof. intros (s1 & b & [H _]%drawn_inv & [= <- _])%exch_bind_inv. done. Qed.

(** The certificate and the key are saved at two paths and kept there. *)
Lemma save_pair (s s1 s' : state) der cp kp c k :
  SaveCertPEM der cp s = (s1, Ok tt) -> SaveKeyPEM k kp s1 = (s', Ok tt) -> ParseCertificate der = Ok c -> cp <> kp ->
  only [cp; kp] s.1 s'.1 /\ pair_at s'.1 cp kp (c, k).
Proof.
  intros Hc Hk Hp Hne. eapply SaveCert_ok in Hc as (_ & Ho1 & _ & Hc); [|done]. apply SaveKey_ok in Hk as (_ & Ho2 & _ & Hk).
  split; [exact (only_trans _ _ _ _ _ Ho1 Ho2)|]. split; [|done]. eapply only_holds; [exact Ho2|set_solver|done].
Qed.

Lemma Join_ne dir a b : dir <> "" -> bool_decide (split slash a = [a] /\ a <> "" /\ a <> "." /\ a <> "..") = true ->
  bool_decide (split slash b = [b] /\ b <> "" /\ b <> "." /\ b <> "..") = true -> a <> b -> Join dir a <> Join dir b.
Proof. intros Hd Ha%bool_decide_eq_true Hb%bool_decide_eq_true Hne E. by apply (Join_inj dir a b) in E. Qed.

(** A new key, a certificate of it, both saved, and what follows. *)
Definition issue {A} (template parent : Z -> Certificate) (signer : key -> key) (certPath keyPath : string) (rest : bytes -> key -> exch state A) :
    exch state A :=
  k ← drawn GenerateKey;
  serialNumber ← generateSerial;
  certDER ← drawn (CreateCertificate (template serialNumber) (parent serialNumber) (Public k) (signer k));
  _ ← SaveCertPEM certDER certPath;
  _ ← SaveKeyPEM k keyPath;
  rest certDER k.

(** What a certificate that was issued is. *)
Definition issued (template parent : Z -> Certificate) (signer : key -> key) (ck : Certificate * key) : Prop :=
  exists serialNumber, same_contents (template serialNumber) ck.1 /\ PublicKey ck.1 = Public ck.2 /\ Issuer ck.1 = CommonName (parent serialNumber) /\
    (PublicKey (parent serialNumber) = [] \/ PublicKey (parent serialNumber) = Public (signer ck.2)) /\
    forall ca, can_sign ca -> PublicKey ca = Public (signer ck.2) -> CheckSignatureFrom ck.1 ca = true.

Lemma issue_inv {A} template parent signer cp kp (rest : bytes -> key -> exch state A) (s s' : state) a :
  issue template parent signer cp kp rest s = (s', Ok a) -> cp <> kp ->
  exists s1 k der c, ParseCertificate der = Ok c /\ only [cp; kp] s.1 s1.1 /\ pair_at s1.1 cp kp (c, k) /\
    is_dir s.1 cp = false /\ is_dir s.1 kp = false /\ issued template parent signer (c, k) /\ rest der k s1 = (s', Ok a).
Proof.
  intros (s2 & k & [E2 _]%drawn_inv & H)%exch_bind_inv Hne. apply exch_bind_inv in H as (s3 & n & E3%serial_inv & H).
  apply exch_bind_inv in H as (s4 & der & [E4 [r4 Hcr]]%drawn_inv & H). apply exch_bind_inv in H as (s5 & [] & Hsc & H).
  apply exch_bind_inv in H as (s6 & [] & Hsk & H). apply created in Hcr as (Hpar & c & Hpc & Hs & Hpk & Hi & Hsig).
  destruct (save_pair _ _ _ _ _ _ _ _ Hsc Hsk Hpc Hne) as [Ho Hpair]. rewrite E4, E3, E2 in Ho.
  eapply SaveCert_ok in Hsc as (_ & [Ed5 _] & Hd1 & _); [|done]. apply SaveKey_ok in Hsk as (_ & _ & Hd2 & _).
  unfold is_dir in *. rewrite Ed5, E4, E3, E2 in Hd2. rewrite E4, E3, E2 in Hd1. exists s6, k, der, c. split_and!; try done. by exists n.
Qed.

(** The authority: the two files hold what is returned; unless both were there, they are new. *)
Lemma InitCA_inv now certsDir (s s' : state) ck : InitCA now certsDir s = (s', Ok ck) ->
  pair_at s'.1 (ca_cert_path certsDir) (ca_key_path certsDir) ck /\ MkdirAll certsDir s' = (s', Ok tt) /\
  exists s1, MkdirAll certsDir s = (s1, Ok tt) /\
    if is_file s1.1 (ca_cert_path certsDir) && is_file s1.1 (ca_key_path certsDir) then s' = s1
    else only [ca_cert_path certsDir; ca_key_path certsDir] s1.1 s'.1 /\ new_ca now ck.
Proof.
  intros (s1 & [] & Hm & H)%exch_bind_inv. apply (load_pair_inv (ca_cert_path certsDir) (ca_key_path certsDir)) in H.
  apply MkdirAll_Ok in Hm as Hm'. destruct Hm' as (Hd & -> & Hf).
  destruct H as [(-> & He & Hp)|[He H]].
  - split_and!; [done|apply MkdirAll_again; [done|set_solver|done]|]. eexists. split; [done|]. by rewrite He.
  - apply (issue_inv (ca_template now) (ca_template now) id) in H as (s2 & k & der & c & Hpc & Ho & Hpair & Hd1 & Hd2 & (n & Hs & Hpk & _ & _ & Hsig) & H);
      [|by apply Join_ne; [|vm_compute; reflexivity..|]].
    apply exch_bind_inv in H as (s7 & c' & [= <- Hpc'] & [= <- <-]). rewrite Hpc in Hpc'. injection Hpc' as <-.
    split_and!; [done| |].
    + apply MkdirAll_again; [done|rewrite (proj1 Ho); set_solver|]. rewrite Forall_forall in Hf |- *. intros a Ha. rewrite (proj2 Ho); [by apply Hf|].
      intros Hi. assert (is_dir (mkFS (files s.1) (list_to_set (ancestors certsDir) ∪ dirs s.1)) a = true) as Hda.
      { unfold is_dir. apply orb_true_iff. right. apply bool_decide_eq_true. cbn. set_solver. }
      cbn [fst] in *. apply elem_of_cons in Hi as [->|Hi%list_elem_of_singleton]; [congruence|subst; congruence].
    + eexists. split; [done|]. rewrite He. split; [exact Ho|]. split_and!; [by eexists|done|]. apply Hsig; [|done].
      destruct Hs as (_ & _ & _ & _ & _ & Hku & _ & Hca & Hbc & _). split_and!; [by rewrite Hbc|by rewrite Hca|by rewrite Hku].
Qed.

(** The new certificate of the authority is one of an authority, and fits the key. *)
Lemma new_ca_signs now ck : new_ca now ck -> can_sign ck.1 /\ PublicKey ck.1 = Public ck.2.
Proof.
  intros ([n (_ & _ & _ & _ & _ & Hku & _ & Hca & Hbc & _)] & Hpk & _). split; [|done]. split_and!; [by rewrite Hbc|by rewrite Hca|by rewrite Hku].
Qed.

(** ** The server *)

Context (ParseIP : string -> bytes).

Definition server_cert_path (certsDir : string) : string := Join certsDir serverCertFile.
Definition server_key_path (certsDir : string) : string := Join certsDir serverKeyFile.

Lemma InitServerCert_inv now certsDir hostname ca caKey (s s' : state) ck : certsDir <> "" ->
  InitServerCert ParseIP now certsDir hostname ca caKey s = (s', Ok ck) ->
  pair_at s'.1 (server_cert_path certsDir) (server_key_path certsDir) ck /\
  if is_file s.1 (server_cert_path certsDir) && is_file s.1 (server_key_path certsDir) then s' = s
  else (exists s1, only [server_cert_path certsDir; server_key_path certsDir] s.1 s1.1 /\ MkdirAll (Join certsDir "clients") s1 = (s', Ok tt)) /\
    issued (fun n => server_template ParseIP now n hostname) (fun _ => ca) (fun _ => caKey) ck.
Proof.
  intros Hd H. apply (load_pair_inv (server_cert_path certsDir) (server_key_path certsDir)) in H. destruct H as [(-> & He & Hp)|[He H]].
  - split; [done|]. by rewrite He.
  - apply (issue_inv (fun n => server_template ParseIP now n hostname) (fun _ => ca) (fun _ => caKey)) in H
      as (s2 & k & der & c & Hpc & Ho & Hpair & _ & _ & Hi & H); [|by apply Join_ne; [|vm_compute; reflexivity..|]].
    apply exch_bind_inv in H as (s3 & c' & [= <- Hpc'] & H). apply exch_bind_inv in H as (s4 & [] & Hm & [= <- <-]).
    rewrite Hpc in Hpc'. injection Hpc' as <-. rewrite He. split; [|split; [by exists s2|done]].
    destruct Hpair as [H1 H2]. split; eapply MkdirAll_holds; eassumption.
Qed.

(** ** Clients *)

Lemma clients_nonempty certsDir : certsDir <> "" -> Join certsDir "clients" <> "".
Proof. apply Join_nonempty. Qed.

Lemma client_paths certsDir username : certsDir <> "" -> client_cert_path certsDir username <> client_key_path certsDir username.
Proof.
  intros H. destruct (Join_ext (Join certsDir "clients") username) as [base Hb]; [by apply Join_nonempty|].
  unfold client_cert_path, client_key_path. rewrite !Hb by done. by apply ext_ne.
Qed.

Lemma GenerateClientCert_exists now certsDir username months ca caKey (s : state) : is_file s.1 (client_cert_path certsDir username) = true ->
  GenerateClientCert now certsDir username months ca caKey s = (s, Err "client certificate already exists").
Proof.
  intros H. unfold GenerateClientCert, fileExists, on_session, get, mbind, exch_bind. by rewrite H.
Qed.

Lemma GenerateClientCert_inv now certsDir username months ca caKey (s s' : state) cp kp : certsDir <> "" ->
  GenerateClientCert now certsDir username months ca caKey s = (s', Ok (cp, kp)) ->
  cp = client_cert_path certsDir username /\ kp = client_key_path certsDir username /\ is_file s.1 cp = false /\ only [cp; kp] s.1 s'.1 /\
  exists ck, pair_at s'.1 cp kp ck /\ issued (fun n => client_template now n months username) (fun _ => ca) (fun _ => caKey) ck.
Proof.
  intros Hd H. unfold GenerateClientCert in H. apply exch_bind_inv in H as (s1 & exist & [= <- He] & H). destruct exist; [done|].
  apply (issue_inv (fun n => client_template now n months username) (fun _ => ca) (fun _ => caKey)) in H
    as (s2 & k & der & c & Hpc & Ho & Hpair & _ & _ & Hi & [= <- <- <-]); [|by apply client_paths].
  split_and!; try done. by exists (c, k).
Qed.

(** ** The files the operations write *)

(** What a file holds depends on the file alone. *)
Lemma holds_same {A} (parse : bytes -> res A) d d' q a : is_file d' q = true -> files d' !! q = files d !! q -> holds parse d q a -> holds parse d' q a.
Proof.
  intros Hf Hs [_ Hr]. split; [done|]. intros r. specialize (Hr r). apply exch_bind_inv in Hr as (s1 & data & H & [= _ Ha]).
  unfold loaded, ReadFile, mbind, exch_bind, lift in *. cbn in *. destruct (is_dir d q); [done|]. unfold is_file in Hf.
  destruct (is_dir d' q); [done|]. rewrite Hs. destruct (files d !! q) as [f|]; [|done]. injection H as _ <-. by rewrite Ha.
Qed.

Lemma issue_effect {A} Q template parent signer cp kp (rest : bytes -> key -> exch state A) `{!PreOrder Q} :
  (forall data perm, within (disk Q) (WriteFile cp data perm)) -> (forall data perm, within (disk Q) (WriteFile kp data perm)) ->
  (forall b k, within (disk Q) (rest b k)) -> within (disk Q) (issue template parent signer cp kp rest).
Proof. intros Hc Hk Hr. unfold issue, generateSerial, SaveCertPEM, SaveKeyPEM. effects; auto. Qed.

Lemma load_pair_effect Q cp kp gen `{!PreOrder Q} : within (disk Q) gen -> within (disk Q) (load_pair cp kp gen).
Proof. intros Hg. unfold load_pair, both_exist, LoadCertFromPEM, LoadKeyFromPEM. effects; auto. Qed.

Lemma InitCA_effect Q now certsDir `{!PreOrder Q} :
  within (disk Q) (MkdirAll certsDir) -> (forall data perm, within (disk Q) (WriteFile (ca_cert_path certsDir) data perm)) ->
  (forall data perm, within (disk Q) (WriteFile (ca_key_path certsDir) data perm)) -> within (disk Q) (InitCA now certsDir).
Proof.
  intros Hm Hc Hk. unfold InitCA. apply within_bind; [apply _|done|]. intros _. apply load_pair_effect; [apply _|].
  refine (issue_effect Q (ca_template now) (ca_template now) id _ _ _ _ _ _); [done..|]. intros b k. effects.
Qed.

Lemma InitServerCert_effect Q now certsDir hostname ca caKey `{!PreOrder Q} :
  within (disk Q) (MkdirAll (Join certsDir "clients")) -> (forall data perm, within (disk Q) (WriteFile (server_cert_path certsDir) data perm)) ->
  (forall data perm, within (disk Q) (WriteFile (server_key_path certsDir) data perm)) ->
  within (disk Q) (InitServerCert ParseIP now certsDir hostname ca caKey).
Proof.
  intros Hm Hc Hk. unfold InitServerCert. apply load_pair_effect; [apply _|].
  refine (issue_effect Q (fun n => server_template ParseIP now n hostname) (fun _ => ca) (fun _ => caKey) _ _ _ _ _ _); [done..|]. intros b k.
  effects; done.
Qed.

(** ** What the operations promise *)

(** The authority is made once: a call that succeeds leaves both files holding what it
    returns, and every later call, at any time, returns the same and changes nothing.  When
    one of the two files was not there the certificate is new: it names the authority, is
    valid for 25 years, fits the key, may sign, and is signed by itself; no other file is
    written. *)
Theorem InitCA_stable now certsDir (s s' : state) ck :
  InitCA now certsDir s = (s', Ok ck) ->
  (forall now', InitCA now' certsDir s' = (s', Ok ck)) /\
  exists s1, MkdirAll certsDir s = (s1, Ok tt) /\
    if is_file s1.1 (ca_cert_path certsDir) && is_file s1.1 (ca_key_path certsDir) then s' = s1
    else only [ca_cert_path certsDir; ca_key_path certsDir] s1.1 s'.1 /\ can_sign ck.1 /\ PublicKey ck.1 = Public ck.2 /\
      CheckSignatureFrom ck.1 ck.1 = true /\ CommonName ck.1 = "SWAN-NG Root CA" /\ NotBefore ck.1 = now /\ NotAfter ck.1 = AddDate now caValidityYears 0.
Proof.
  intros (Hp & Hm & s1 & H1 & H)%InitCA_inv. split.
  - intros now'. unfold InitCA. erewrite exch_bind_Ok; [|exact Hm]. destruct s' as [d r]. by apply load_pair_at.
  - exists s1. split; [done|]. destruct (_ && _); [done|]. destruct H as [Ho Hn]. destruct (new_ca_signs _ _ Hn) as [Hc Hk].
    destruct Hn as ([n (_ & Hcn & _ & Hb & Ha & _)] & _ & Hs). exact (conj Ho (conj Hc (conj Hk (conj Hs (conj Hcn (conj Hb Ha)))))).
Qed.

(** The certificate of the server is made once: whatever the name of the host and whatever
    the authority of a later call, the files are loaded as they are. *)
Theorem InitServerCert_stable now certsDir hostname ca caKey (s s' : state) ck :
  certsDir <> "" -> InitServerCert ParseIP now certsDir hostname ca caKey s = (s', Ok ck) ->
  forall now' hostname' ca' caKey', InitServerCert ParseIP now' certsDir hostname' ca' caKey' s' = (s', Ok ck).
Proof. intros Hd [Hp _]%InitServerCert_inv now' h' ca' k'; [|done]. destruct s' as [d r]. by apply load_pair_at. Qed.

(** A client gets one certificate: a call that succeeds finds no certificate of that name,
    writes the certificate and the key and no other file; the certificate names the client,
    fits the key, is for clients only, is valid from now on until Go's date the months asked
    for later (for that long, each month of 28 days at least, while they are not more than
    10^12: the date wraps), and is checked by an authority with the key that signed it.  Any
    later call for the name is refused and changes nothing. *)
Theorem GenerateClientCert_once now certsDir username months ca caKey (s s' : state) cp kp :
  certsDir <> "" -> GenerateClientCert now certsDir username months ca caKey s = (s', Ok (cp, kp)) ->
  is_file s.1 cp = false /\ only [cp; kp] s.1 s'.1 /\
  (exists c k, cert_at s'.1 cp c /\ key_at s'.1 kp k /\ PublicKey c = Public k /\ CommonName c = username /\ IsCA c = false /\
    ExtKeyUsage c = [ExtKeyUsageClientAuth] /\ NotBefore c = now /\ NotAfter c = AddDate now 0 months /\
    (0 <= now < 2 ^ 40 -> 0 <= months <= 1000000000000 -> now + 28 * day * months <= NotAfter c) /\
    forall authority, can_sign authority -> PublicKey authority = Public caKey -> CheckSignatureFrom c authority = true) /\
  forall now' months' ca' caKey', GenerateClientCert now' certsDir username months' ca' caKey' s' = (s', Err "client certificate already exists").
Proof.
  intros Hd (-> & -> & He & Ho & [c k] & [Hc Hk] & n & Hs & Hpk & _ & _ & Hsig)%GenerateClientCert_inv; [|done].
  split_and!; [done..| |].
  - exists c, k. destruct Hs as (_ & Hn & _ & Hb & Ha & _ & Hu & Hca & _). cbn in *. split_and!; try done.
    intros Hnow Hm. rewrite Ha. etrans; [|by apply AddDate_later]. lia.
  - intros now' months' ca' caKey'. apply GenerateClientCert_exists, Hc.
Qed.

End files.

Abbreviation cert_at := (holds cert_of_PEM).
Abbreviation key_at := (holds key_of_PEM).

(** ** A library of one *)

Section toy.

Fixpoint bits (p : positive) : bytes := match p with xH => [] | xO p => 0 :: bits p | xI p => 1 :: bits p end.
Fixpoint unbits (l : bytes) : positive := match l with [] => xH | b :: l => if (b =? 0)%Z then xO (unbits l) else xI (unbits l) end.

Lemma unbits_bits p : unbits (bits p) = p.
Proof. induction p; cbn; congruence. Qed.

(** The contents of a certificate, the key in it, the name and the key of its maker. *)
Definition contents : Type :=
  (Z * string * list string * Z * Z) * (Z * list Z * bool * bool * Z) * (list string * list bytes) * (bytes * string * bytes).

Definition pack (x : contents) : bytes := bits (encode x).
Definition unpack (b : bytes) : option contents := decode (unbits b).

Lemma unpack_pack x : unpack (pack x) = Some x.
Proof. unfold unpack, pack. rewrite unbits_bits. apply decode_encode. Qed.

Definition toy_Create (t p : Certificate) (pub : bytes) (k : Z) (r : rng) : res (bytes * rng) :=
  if bool_decide (pub = []) || negb (bool_decide (PublicKey p = []) || bool_decide (PublicKey p = [k])) then Err "x509: keys do not match"
  else Ok (pack ((SerialNumber t, CommonName t, Organization t, NotBefore t, NotAfter t),
    (KeyUsage t, ExtKeyUsage t, BasicConstraintsValid t, IsCA t, MaxPathLen t), (DNSNames t, IPAddresses t), (pub, CommonName p, [k])), r).

Definition toy_Parse (b : bytes) : res Certificate :=
  match unpack b with
  | Some ((sn, cn, o, nb, na), (ku, eku, bc, ca, mpl), (dns, ips), (pub, issuer, _)) =>
    if bool_decide (pub = []) then Err "x509: no key" else Ok (mkCert sn cn o nb na ku eku bc ca mpl dns ips pub issuer b)
  | None => Err "x509: malformed certificate"
  end.

Definition toy_Check (c ca : Certificate) : bool :=
  match unpack (Raw c) with
  | Some (_, (_, _, maker)) => bool_decide (maker = PublicKey ca) && BasicConstraintsValid ca && IsCA ca
  | None => false
  end.

Instance toy_x509 : X509 := {|
  key := Z; Public k := [k]; GenerateKey r := let (b, r) := rand_Read r 4 in Ok (IkeCrypto.Crypto.SetBytes b, r);
  MarshalPKCS8PrivateKey k := Ok [k]; ParsePKCS8PrivateKey b := match b with [k] => Ok (Some k) | _ => Err "asn1" end;
  ParseECPrivateKey _ := Err "asn1"; CreateCertificate := toy_Create; ParseCertificate := toy_Parse; CheckSignatureFrom := toy_Check
|}.

Instance toy_x509_laws : X509Laws toy_x509.
Proof.
  split.
  - by intros k b [= <-].
  - intros t p pub k r der r' H. cbn in *. unfold toy_Create in H. destruct (bool_decide (pub = [])) eqn:Hp; [done|]. cbn in H.
    destruct (_ || _) eqn:Hk in H; [|done]. injection H as <- <-. split.
    { apply orb_true_iff in Hk as [Hk|Hk]; apply bool_decide_eq_true in Hk; auto. }
    eexists. split; [unfold toy_Parse; rewrite unpack_pack; cbn; rewrite Hp; reflexivity|]. split_and!; try done.
    intros ca (Hb & Hc & _) Hpk. unfold toy_Check. cbn [Raw]. rewrite unpack_pack. cbn in *. rewrite Hb, Hc, Hpk. by rewrite bool_decide_true.
  - done.
  - intros b c H. cbn in H. unfold toy_Parse in H. destruct (unpack b) as [[[[[[[[? ?] ?] ?] ?] [[[[? ?] ?] ?] ?]] [? ?]] [[pub ?] ?]]|]; [|done].
    case_bool_decide; [done|]. by injection H as <-.
Qed.

Fixpoint string_of_bytes (l : bytes) : string :=
  match l with [] => "" | b :: l => String (Ascii.ascii_of_nat (Z.to_nat b)) (string_of_bytes l) end.

Lemma string_of_bytes_of s : string_of_bytes (bytes_of_string s) = s.
Proof. unfold bytes_of_string. induction s as [|c s IH]; [done|]. cbn. by rewrite IH, Nat2Z.id, Ascii.ascii_nat_embedding. Qed.

Instance toy_pem : PEM := {|
  Encode typ b := Z.of_nat (String.length typ) :: bytes_of_string typ ++ b;
  Decode b := match b with n :: b => Some (string_of_bytes (take (Z.to_nat n) b), drop (Z.to_nat n) b) | [] => None end
|}.

Instance toy_pem_laws : PEMLaws toy_pem.
Proof.
  split. intros typ b. cbn. assert (String.length typ = length (bytes_of_string typ)) as -> by (unfold bytes_of_string; induction typ as [|c s IH]; [done|]; cbn; by rewrite IH).
  rewrite Nat2Z.id, take_app_length, drop_app_length. by rewrite string_of_bytes_of.
Qed.

(** An empty disk, and the authority, the server and a client made on it in January 2024. *)
Definition demo_now : Z := 1706702400.
Definition demo_start : state := (mkFS ∅ ∅, demo_rng).
Definition demo_ca := InitCA demo_now "/etc/swan/certs" demo_start.
Definition demo_ParseIP (_ : string) : bytes := [].

Definition demo_server : state * res (Certificate * key) :=
  match demo_ca with
  | (s, Ok (ca, k)) => InitServerCert demo_ParseIP demo_now "/etc/swan/certs" "vpn.example.com" ca k s
  | (s, _) => (s, Err "no authority")
  end.

Definition demo_client : state * res (string * string) :=
  match demo_ca with
  | (_, Ok (ca, k)) => GenerateClientCert demo_now "/etc/swan/certs" "alice" 12 ca k demo_server.1
  | (s, _) => (s, Err "no authority")
  end.

Example demo_files :
  demo_client.2 = Ok ("/etc/swan/certs/clients/alice.crt", "/etc/swan/certs/clients/alice.key") /\
  size (files demo_client.1.1) = 6%nat /\
  ((fun p => mode <$> files demo_client.1.1 !! p) <$>
    ["/etc/swan/certs/ca.crt"; "/etc/swan/certs/ca.key"; "/etc/swan/certs/server.crt"; "/etc/swan/certs/server.key";
     "/etc/swan/certs/clients/alice.crt"; "/etc/swan/certs/clients/alice.key"]) = [Some 420; Some 384; Some 420; Some 384; Some 420; Some 384].
Proof. vm_compute. by split_and!. Qed.

(** The name of a client is not looked at: it can leave the directory of the clients. *)
Example demo_escape :
  match demo_ca with
  | (_, Ok (ca, k)) => (GenerateClientCert demo_now "/etc/swan/certs" "../../office" 12 ca k demo_server.1).2
  | (_, _) => Err "no authority"
  end = Ok ("/etc/swan/office.crt", "/etc/swan/office.key").
Proof. vm_compute. reflexivity. Qed.

(** The key of the authority is lost: the next call replaces the certificate of the authority
    too, and the server keeps the certificate the old one made, which the new one does not check. *)
Definition demo_lost : state := (mkFS (delete "/etc/swan/certs/ca.key" (files demo_server.1.1)) (dirs demo_server.1.1), demo_server.1.2).
Example demo_lost_key :
  match InitCA demo_now "/etc/swan/certs" demo_lost with
  | (s, Ok (ca, k)) =>
    match InitServerCert demo_ParseIP demo_now "/etc/swan/certs" "vpn.example.com" ca k s with
    | (_, Ok (c, _)) => (bool_decide (PublicKey ca = match demo_ca with (_, Ok (old, _)) => PublicKey old | _ => [] end), CheckSignatureFrom c ca)
    | _ => (true, true)
    end
  | _ => (true, true)
  end = (false, false).
Proof. vm_compute. reflexivity. Qed.

Definition succeeds {A} (r : res A) : bool := match r with Ok _ => true | _ => false end.

Lemma InitCA_stable_witness : exists s' ck, demo_ca = (s', Ok ck) /\ InitCA 0 "/etc/swan/certs" s' = (s', Ok ck).
Proof.
  assert (succeeds demo_ca.2 = true) as Hs by (vm_compute; reflexivity).
  destruct demo_ca as [s' [ck|e|]] eqn:E; [|discriminate Hs..]. clear Hs. exists s', ck. split; [reflexivity|].
  unfold demo_ca in E. exact (proj1 (InitCA_stable _ _ _ _ _ E) 0).
Defined.

Lemma InitServerCert_stable_witness : exists s' ck, demo_server = (s', Ok ck) /\
  InitServerCert demo_ParseIP 0 "/etc/swan/certs" "other.example.com" ck.1 ck.2 s' = (s', Ok ck).
Proof.
  assert (succeeds demo_server.2 = true) as Hs by (vm_compute; reflexivity).
  destruct demo_server as [s' [ck|e|]] eqn:E; [|discriminate Hs..]. clear Hs. exists s', ck. split; [reflexivity|].
  unfold demo_server in E. destruct demo_ca as [s [[ca k]|e|]]; [|discriminate E..].
  refine (InitServerCert_stable demo_ParseIP _ _ _ _ _ _ _ _ _ E 0 "other.example.com" ck.1 ck.2). discriminate.
Defined.

Lemma GenerateClientCert_once_witness : exists s' paths, demo_client = (s', Ok paths) /\ is_file s'.1 paths.1 = true /\
  forall ca k, GenerateClientCert demo_now "/etc/swan/certs" "alice" 24 ca k s' = (s', Err "client certificate already exists").
Proof.
  assert (succeeds demo_client.2 = true) as Hs by (vm_compute; reflexivity).
  destruct demo_client as [s' [[cp kp]|e|]] eqn:E; [|discriminate Hs..]. clear Hs. exists s', (cp, kp). split; [reflexivity|].
  unfold demo_client in E. destruct demo_ca as [s [[ca k]|e|]]; [|discriminate E..].
  destruct (GenerateClientCert_once demo_now "/etc/swan/certs" "alice" 12 ca k demo_server.1 s' cp kp) as (_ & _ & (c & kk & Hc & _) & H);
    [discriminate|exact E|]. split; [exact (proj1 Hc)|]. intros ca' k'. apply H.
Defined.

End toy.
End Cert.
