(* ===== verification/Export.v ===== *)
(** * Export: the profiles made for clients ([internal/certman], the [export_*.go] files)

    [encoding/base64] and the part of [text/template] the templates use, text and fields,
    are definitions here; [encoding/json], the encoder of PKCS #12 and the generator of
    UUIDs are parameters.  The files are those of [Files].  Log lines are left out. *)

From Stdlib Require Import Ascii.
From S2P Require Import Prelude Rand Exch Filepath IkeCrypto Files Dates Certman.

#[local] Open Scope string_scope.

Module Profile.

Import Files.Disk Certman.Cert.

(** ** encoding/base64 *)

Definition alphabet : string := "ABCDEFGHIJKLMNOPQRSTUVWXYZabcdefghijklmnopqrstuvwxyz0123456789+/".

Definition digit (v : Z) : ascii := match String.get (Z.to_nat v) alphabet with Some c => c | None => zero end.

Definition pad : ascii := "="%char.

(** [base64.StdEncoding.EncodeToString]. *)
Fixpoint EncodeToString (src : bytes) : string :=
  match src with
  | a :: b :: c :: src =>
    let val := (65536 * a + 256 * b + c)%Z in
    String (digit (val / 262144)) (String (digit (val / 4096 mod 64)) (String (digit (val / 64 mod 64)) (String (digit (val mod 64)) (EncodeToString src))))
  | [a; b] =>
    let val := (65536 * a + 256 * b)%Z in
    String (digit (val / 262144)) (String (digit (val / 4096 mod 64)) (String (digit (val / 64 mod 64)) (String pad "")))
  | [a] =>
    let val := (65536 * a)%Z in
    String (digit (val / 262144)) (String (digit (val / 4096 mod 64)) (String pad (String pad "")))
  | [] => ""
  end.

(** What a reader of the format makes of it. *)
Fixpoint index_of (c : ascii) (s : string) : option Z :=
  match s with
  | EmptyString => None
  | String c' s => if Ascii.eqb c c' then Some 0 else Z.succ <$> index_of c s
  end.

Definition value (c : ascii) : option Z := index_of c alphabet.

Fixpoint DecodeString (s : string) : option bytes :=
  match s with
  | EmptyString => Some []
  | String c1 (String c2 (String c3 (String c4 s))) =>
    v1 ← value c1; v2 ← value c2;
    let val := (262144 * v1 + 4096 * v2)%Z in
    if Ascii.eqb c3 pad then (if Ascii.eqb c4 pad && (s =? "") then Some [val / 65536]%Z else None)
    else v3 ← value c3;
      let val := (val + 64 * v3)%Z in
      if Ascii.eqb c4 pad then (if s =? "" then Some [val / 65536; val / 256 mod 256]%Z else None)
      else v4 ← value c4;
        let val := (val + v4)%Z in
        rest ← DecodeString s;
        Some ((val / 65536)%Z :: (val / 256 mod 256)%Z :: (val mod 256)%Z :: rest)
  | _ => None
  end.

(** ** text/template *)

Inductive node := Text (text : string) | Field (name : string).

Definition char (a : ascii) (c : ascii) : bool := Ascii.eqb a c.

(** The text of a template up to the next action, and the name of a field up to the end of it. *)
Fixpoint parse (s : string) (text : string) (action : option string) : res (list node) :=
  match s with
  | EmptyString => match action with None => Ok [Text text] | Some _ => Err "unclosed action" end
  | String a s1 =>
    match action with
    | None =>
      match s1 with
      | String b (String c s3) =>
        if char "{" a && char "{" b && char "." c then nodes ← parse s3 "" (Some ""); Ok (Text text :: nodes)
        else parse s1 (text ++ String a "") None
      | _ => parse s1 (text ++ String a "") None
      end
    | Some name =>
      match s1 with
      | String b s2 =>
        if char "}" a && char "}" b then nodes ← parse s2 "" None; Ok (Field name :: nodes)
        else parse s1 text (Some (name ++ String a ""))
      | _ => Err "unclosed action"
      end
    end
  end.

Definition Parse (template : string) : res (list node) := parse template "" None.

(** The fields of the data, as strings. *)
Fixpoint Execute (data : string -> option string) (nodes : list node) : res string :=
  match nodes with
  | [] => Ok ""
  | Text text :: nodes => rest ← Execute data nodes; Ok (text ++ rest)
  | Field name :: nodes =>
    match data name with
    | Some v => rest ← Execute data nodes; Ok (v ++ rest)
    | None => Err "can't evaluate field"
    end
  end.

(** [os.Create], and the template executed into the file. *)
Definition write_template (template : string) (data : string -> option string) (outputPath : string) : exch state unit :=
  tmpl ← lift (Parse template);
  _ ← WriteFile outputPath [] 438;
  text ← lift (Execute data tmpl);
  WriteFile outputPath (bytes_of_string text) 438.

(** ** export_l2tp.go *)

Definition l2tpProfileTemplate : string := "====================================
  SWAN-NG L2TP/IPsec VPN Profile
====================================

Server Address : {{.Hostname}}
L2TP Username  : {{.Username}}
L2TP Password  : {{.Password}}
IPsec PSK      : {{.PSK}}

------------------------------------
Connection Type: L2TP over IPsec
Authentication : PSK + PPP CHAP
------------------------------------

Notes:
- Use the Server Address above as the VPN server endpoint.
- Enter the IPsec PSK in the IPsec/IKE pre-shared key field.
- Enter the L2TP Username and Password for PPP authentication.
- This profile supports multiple concurrent sessions.
====================================
".

Record l2tpProfileData := mkL2TPProfileData { Hostname : string; Username : string; Password : string; PSK : string }.

Definition l2tp_fields (d : l2tpProfileData) (name : string) : option string :=
  if name =? "Hostname" then Some (Hostname d) else if name =? "Username" then Some (Username d)
  else if name =? "Password" then Some (Password d) else if name =? "PSK" then Some (PSK d) else None.

Definition ExportL2TPProfile (username password hostname psk outputPath : string) : exch state unit :=
  let data := mkL2TPProfileData hostname username password psk in
  write_template l2tpProfileTemplate (l2tp_fields data) outputPath.

(** ** The libraries of the other exports *)

(** The profile of the strongSwan app. *)
Record sswanRemote := mkRemote { Addr : string; RemoteID : string; RemoteCert : string }.
Record sswanLocal := mkLocal { P12 : string; LocalID : string }.
Record sswanProfile := mkSSwan { UUID : string; Name : string; Type_ : string; Remote : sswanRemote; Local_ : sswanLocal }.

Class ExportLib {X : X509} := {
  P12_Encode : key -> Certificate -> list Certificate -> string -> rng -> res (bytes * rng);  (* key certificate chain password *)
  uuid_New : rng -> string * rng;
  json_MarshalIndent : sswanProfile -> res bytes
}.

Section exports.
Context {X : X509} {P : PEM} {E : ExportLib}.

(** ** export_p12.go *)

Definition ExportP12 (clientCertPath clientKeyPath caCertPath outputPath password : string) : exch state unit :=
  clientCert ← LoadCertFromPEM clientCertPath;
  clientKey ← LoadKeyFromPEM clientKeyPath;
  caCert ← LoadCertFromPEM caCertPath;
  pfxData ← drawn (P12_Encode clientKey clientCert [caCert] password);
  WriteFile outputPath pfxData 384.

(** ** export_mobileconfig.go *)

(** The text with its apostrophes, which the template has none of, for quotes. *)
Fixpoint quoted (s : string) : string :=
  match s with
  | EmptyString => ""
  | String c s => String (if Ascii.eqb c "'" then ascii_of_nat 34 else c) (quoted s)
  end.

Definition mobileconfigTemplate : string := quoted "<?xml version='1.0' encoding='UTF-8'?>
<!DOCTYPE plist PUBLIC '-//Apple//DTD PLIST 1.0//EN' 'http://www.apple.com/DTDs/PropertyList-1.0.dtd'>
<plist version='1.0'>
<dict>
	<key>PayloadContent</key>
	<array>
		<dict>
			<key>PayloadCertificateFileName</key>
			<string>ca.crt</string>
			<key>PayloadContent</key>
			<data>{{.CACertBase64}}</data>
			<key>PayloadDisplayName</key>
			<string>SWAN-NG Root CA</string>
			<key>PayloadIdentifier</key>
			<string>com.swan-ng.ca.{{.ProfileUUID}}</string>
			<key>PayloadType</key>
			<string>com.apple.security.root</string>
			<key>PayloadUUID</key>
			<string>{{.CAUUID}}</string>
			<key>PayloadVersion</key>
			<integer>1</integer>
		</dict>
		<dict>
			<key>Password</key>
			<string>{{.P12Password}}</string>
			<key>PayloadCertificateFileName</key>
			<string>{{.Username}}.p12</string>
			<key>PayloadContent</key>
			<data>{{.P12Base64}}</data>
			<key>PayloadDisplayName</key>
			<string>{{.Username}} Client Certificate</string>
			<key>PayloadIdentifier</key>
			<string>com.swan-ng.client.{{.ProfileUUID}}</string>
			<key>PayloadType</key>
			<string>com.apple.security.pkcs12</string>
			<key>PayloadUUID</key>
			<string>{{.ClientCertUUID}}</string>
			<key>PayloadVersion</key>
			<integer>1</integer>
		</dict>
		<dict>
			<key>PayloadDisplayName</key>
			<string>SWAN-NG VPN</string>
			<key>PayloadIdentifier</key>
			<string>com.swan-ng.vpn.{{.ProfileUUID}}</string>
			<key>PayloadType</key>
			<string>com.apple.vpn.managed</string>
			<key>PayloadUUID</key>
			<string>{{.VPNUUID}}</string>
			<key>PayloadVersion</key>
			<integer>1</integer>
			<key>UserDefinedName</key>
			<string>SWAN-NG VPN ({{.Username}})</string>
			<key>VPNType</key>
			<string>IKEv2</string>
			<key>IKEv2</key>
			<dict>
				<key>AuthenticationMethod</key>
				<string>Certificate</string>
				<key>RemoteAddress</key>
				<string>{{.Hostname}}</string>
				<key>RemoteIdentifier</key>
				<string>{{.Hostname}}</string>
				<key>LocalIdentifier</key>
				<string>{{.Username}}</string>
				<key>PayloadCertificateUUID</key>
				<string>{{.ClientCertUUID}}</string>
				<key>CertificateType</key>
				<string>ECDSA384</string>
				<key>ServerCertificateIssuerCommonName</key>
				<string>SWAN-NG Root CA</string>
				<key>EnablePFS</key>
				<integer>1</integer>
				<key>IKESecurityAssociationParameters</key>
				<dict>
					<key>EncryptionAlgorithm</key>
					<string>AES-256-GCM</string>
					<key>DiffieHellmanGroup</key>
					<integer>14</integer>
					<key>IntegrityAlgorithm</key>
					<string>SHA2-384</string>
					<key>LifeTimeInMinutes</key>
					<integer>1440</integer>
				</dict>
				<key>ChildSecurityAssociationParameters</key>
				<dict>
					<key>EncryptionAlgorithm</key>
					<string>AES-256-GCM</string>
					<key>DiffieHellmanGroup</key>
					<integer>14</integer>
					<key>IntegrityAlgorithm</key>
					<string>SHA2-384</string>
					<key>LifeTimeInMinutes</key>
					<integer>1440</integer>
				</dict>
			</dict>
		</dict>
	</array>
	<key>PayloadDisplayName</key>
	<string>SWAN-NG VPN ({{.Username}})</string>
	<key>PayloadIdentifier</key>
	<string>com.swan-ng.profile.{{.Username}}</string>
	<key>PayloadRemovalDisallowed</key>
	<false/>
	<key>PayloadType</key>
	<string>Configuration</string>
	<key>PayloadUUID</key>
	<string>{{.ProfileUUID}}</string>
	<key>PayloadVersion</key>
	<integer>1</integer>
</dict>
</plist>".

Record mobileconfigData := mkMobileconfigData {
  m_Username : string; m_Hostname : string; CACertBase64 : string; P12Base64 : string; P12Password : string;
  ProfileUUID : string; CAUUID : string; ClientCertUUID : string; VPNUUID : string
}.

Definition mobileconfig_fields (d : mobileconfigData) (name : string) : option string :=
  if name =? "Username" then Some (m_Username d) else if name =? "Hostname" then Some (m_Hostname d)
  else if name =? "CACertBase64" then Some (CACertBase64 d) else if name =? "P12Base64" then Some (P12Base64 d)
  else if name =? "P12Password" then Some (P12Password d) else if name =? "ProfileUUID" then Some (ProfileUUID d)
  else if name =? "CAUUID" then Some (CAUUID d) else if name =? "ClientCertUUID" then Some (ClientCertUUID d)
  else if name =? "VPNUUID" then Some (VPNUUID d) else None.

Definition new_uuid : exch state string := drawn (fun r => Ok (uuid_New r)).

Definition ExportMobileconfig (username hostname caCertPath p12Path p12Password outputPath : string) : exch state unit :=
  caDER ← ReadDER caCertPath;
  p12Data ← ReadFile p12Path;
  profileUUID ← new_uuid;
  caUUID ← new_uuid;
  clientCertUUID ← new_uuid;
  vpnUUID ← new_uuid;
  let data := mkMobileconfigData username hostname (EncodeToString caDER) (EncodeToString p12Data) p12Password
    profileUUID caUUID clientCertUUID vpnUUID in
  write_template mobileconfigTemplate (mobileconfig_fields data) outputPath.

(** ** export_sswan.go *)

Definition ExportSSwan (username hostname caCertPath p12Path outputPath : string) : exch state unit :=
  caPEM ← ReadRawPEM caCertPath;
  p12Data ← ReadFile p12Path;
  uuid ← new_uuid;
  let profile := mkSSwan uuid ("SWAN-NG VPN (" ++ username ++ ")") "ikev2-cert"
    (mkRemote hostname hostname (EncodeToString caPEM)) (mkLocal (EncodeToString p12Data) username) in
  data ← lift (json_MarshalIndent profile);
  WriteFile outputPath data 420.

End exports.

(** ** What is encoded reads back *)

#[local] Ltac Zify.zify_post_hook ::= Z.to_euclidean_division_equations.

Lemma value_digit v : 0 <= v < 64 -> value (digit v) = Some v /\ digit v <> pad.
Proof.
  intros H. assert (forallb (fun n => bool_decide (value (digit (Z.of_nat n)) = Some (Z.of_nat n) /\ digit (Z.of_nat n) <> pad)) (seq 0 64) = true) as Hb
    by (vm_compute; reflexivity).
  rewrite forallb_forall in Hb. specialize (Hb (Z.to_nat v)). rewrite Z2Nat.id in Hb by lia.
  apply (bool_decide_eq_true (value (digit v) = Some v /\ digit v <> pad)), Hb. apply in_seq. lia.
Qed.

Lemma value_pad : value pad = None.
Proof. vm_compute. reflexivity. Qed.

Lemma value_of v : 0 <= v < 64 -> value (digit v) = Some v.
Proof. apply value_digit. Qed.

Lemma digit_not_pad v : 0 <= v < 64 -> Ascii.eqb (digit v) pad = false.
Proof. intros H. apply Ascii.eqb_neq, value_digit, H. Qed.

(** The certificate and the bundle a profile carries are read back from their text. *)
Theorem base64_reads_back src : bytes_wf src -> DecodeString (EncodeToString src) = Some src.
Proof.
  remember (length src) as n eqn:Hn. revert src Hn. induction (lt_wf n) as [n _ IH]. intros src -> Hwf.
  destruct src as [|a [|b [|c src]]]; [done|..]; repeat apply Forall_cons in Hwf as [? Hwf]; unfold is_u8 in *.
  - cbn [EncodeToString DecodeString]. rewrite !value_of by lia. cbn. repeat f_equal. lia.
  - cbn [EncodeToString DecodeString]. rewrite !value_of by lia. cbn. rewrite digit_not_pad by lia. cbn. repeat f_equal; lia.
  - cbn [EncodeToString DecodeString]. rewrite !value_of by lia. cbn. rewrite !digit_not_pad by lia. cbn.
    rewrite (IH (length src)); [|cbn; lia|done|done]. cbn. repeat f_equal; lia.
Qed.

(** ** Lines of a template *)

Definition newline : ascii := ascii_of_nat 10.

(** Two texts in a row: the last line of the first goes on. *)
Fixpoint glue {A} (op : A -> A -> A) (xs ys : list A) : list A :=
  match xs with
  | [] => ys
  | [x] => match ys with [] => [x] | y :: ys => op x y :: ys end
  | x :: xs => x :: glue op xs ys
  end.

Lemma split_glue sep a b : split sep (a ++ b) = glue String.append (split sep a) (split sep b).
Proof.
  induction a as [|c a IH].
  - change ("" ++ b) with b. cbn. by destruct (split sep b) eqn:E; [apply split_nonnil in E|].
  - change (String c a ++ b) with (String c (a ++ b)). cbn [split]. rewrite IH. destruct (Ascii.eqb c sep).
    + cbn. destruct (split sep a) eqn:E; [by apply split_nonnil in E|done].
    + destruct (split sep a) as [|x [|y l]] eqn:E; [by apply split_nonnil in E| |done]. cbn.
      by destruct (split sep b) eqn:Eb; [apply split_nonnil in Eb|].
Qed.

Lemma Forall2_glue {A B} (P : A -> B -> Prop) opA opB xs ys xs' ys' :
  (forall x y x' y', P x x' -> P y y' -> P (opA x y) (opB x' y')) -> Forall2 P xs xs' -> Forall2 P ys ys' ->
  Forall2 P (glue opA xs ys) (glue opB xs' ys').
Proof.
  intros Hop Hx Hy. induction Hx as [|x x' xs xs' Hp Hx IH]; [done|]. destruct Hx as [|z z' xs xs' Hz Hx].
  - cbn. destruct Hy; constructor; auto.
  - constructor; [done|]. exact IH.
Qed.

(** The lines of a template whose fields hold no end of line. *)
Definition node_lines (n : node) : list (list node) :=
  match n with Text text => (fun x => [Text x]) <$> split newline text | Field _ => [[n]] end.

Fixpoint lines (nodes : list node) : list (list node) :=
  match nodes with [] => [[]] | n :: nodes => glue app (node_lines n) (lines nodes) end.

Lemma Execute_app data a b x y : Execute data a = Ok x -> Execute data b = Ok y -> Execute data (a ++ b) = Ok (x ++ y).
Proof.
  revert x. induction a as [|[text|name] a IH]; intros x Ha Hb; cbn in *.
  - by injection Ha as <-.
  - destruct (Execute data a) as [r| |]; [|done..]. injection Ha as <-. by rewrite (IH r), app_assoc_s.
  - destruct (data name); [|done]. destruct (Execute data a) as [r| |]; [|done..]. injection Ha as <-. by rewrite (IH r), app_assoc_s.
Qed.

(** The lines of the output are the lines of the template with the values put in. *)
Lemma Execute_lines data nodes text : (forall name v, data name = Some v -> split newline v = [v]) -> Execute data nodes = Ok text ->
  Forall2 (fun l n => Execute data n = Ok l) (split newline text) (lines nodes).
Proof.
  intros Hd. revert text. induction nodes as [|[t|name] nodes IH]; intros text H; cbn [Execute] in H.
  - injection H as <-. by repeat constructor.
  - destruct (Execute data nodes) as [r| |]; [|done..]. injection H as <-. rewrite split_glue. apply Forall2_glue; [|..|by apply IH].
    + intros x y x' y'. apply Execute_app.
    + cbn. apply Forall2_fmap_r, Forall_Forall2_diag, Forall_true. intros x. cbn. by rewrite append_nil_r.
  - destruct (data name) as [v|] eqn:Ev; [|done]. destruct (Execute data nodes) as [r| |]; [|done..]. injection H as <-.
    rewrite split_glue, (Hd _ _ Ev). apply Forall2_glue; [|..|by apply IH].
    + intros x y x' y'. apply Execute_app.
    + cbn. repeat constructor. cbn. rewrite Ev. by rewrite append_nil_r.
Qed.

(** The file holds the text. *)
Lemma write_template_ok template nodes data text path (s s1 : state) :
  Parse template = Ok nodes -> Execute data nodes = Ok text -> WriteFile path [] 438 s = (s1, Ok tt) ->
  exists s', write_template template data path s = (s', Ok tt) /\ s'.2 = s.2 /\ only [path] s.1 s'.1 /\ is_dir s.1 path = false /\
    content <$> files s'.1 !! path = Some (bytes_of_string text).
Proof.
  intros Hp He Hw. unfold write_template, lift. rewrite Hp. erewrite exch_bind_Ok; [|done]. erewrite exch_bind_Ok; [|exact Hw].
  rewrite He. erewrite exch_bind_Ok; [|done]. unfold WriteFile in *. destruct (is_dir s.1 (Dir path)) eqn:Ep; [|done]. cbn [negb] in *.
  destruct (is_dir s.1 path) eqn:Ed; [done|]. injection Hw as <-. cbn [fst snd]. rewrite !is_dir_put, Ep, Ed. cbn [negb].
  eexists. split; [reflexivity|]. split_and!; [done| |done|].
  - split; [done|]. intros p Hn. cbn. rewrite !lookup_insert_ne by set_solver. done.
  - cbn. by rewrite lookup_insert_eq.
Qed.

(** The fields of a template that the data have. *)
Definition has_fields (data : string -> option string) (nodes : list node) : bool :=
  forallb (fun n => match n with Text _ => true | Field name => bool_decide (is_Some (data name)) end) nodes.

Lemma Execute_total data nodes : has_fields data nodes = true -> exists text, Execute data nodes = Ok text.
Proof.
  induction nodes as [|[text|name] nodes IH]; cbn; [by eauto|..].
  - intros [text' ->]%IH. cbn. by eauto.
  - intros [Hn [text' ->]%IH]%andb_true_iff. apply bool_decide_eq_true in Hn as [v ->]. cbn. by eauto.
Qed.

Definition l2tp_nodes : list node := match Parse l2tpProfileTemplate with Ok nodes => nodes | _ => [] end.

(** A line that is a text and a field. *)
Lemma line_of {data ls nodes} (H : Forall2 (fun l n => Execute data n = Ok l) ls nodes) k text name v :
  nodes !! k = Some [Text text; Field name; Text ""] -> data name = Some v -> ls !! k = Some (text ++ v).
Proof.
  intros Hk Hv. destruct (Forall2_lookup_r _ _ _ _ _ H Hk) as (l & -> & He). cbn in He. rewrite Hv in He. injection He as <-.
  by rewrite !append_nil_r.
Qed.

(** The profile of L2TP: whenever the file can be made it is written, and nothing else is.
    When no field holds an end of line, its lines are those of the template: the address, the
    name, the password and the key each end the line that announces them. *)
Theorem l2tp_profile_lines username password hostname psk path (s s1 : state) :
  WriteFile path [] 438 s = (s1, Ok tt) ->
  Forall (fun v => split newline v = [v]) [username; password; hostname; psk] ->
  exists s' text, ExportL2TPProfile username password hostname psk path s = (s', Ok tt) /\ only [path] s.1 s'.1 /\
    content <$> files s'.1 !! path = Some (bytes_of_string text) /\ length (split newline text) = 21%nat /\
    split newline text !! 4%nat = Some ("Server Address : " ++ hostname) /\
    split newline text !! 5%nat = Some ("L2TP Username  : " ++ username) /\
    split newline text !! 6%nat = Some ("L2TP Password  : " ++ password) /\
    split newline text !! 7%nat = Some ("IPsec PSK      : " ++ psk).
Proof.
  intros Hw Hn. set (data := l2tp_fields (mkL2TPProfileData hostname username password psk)).
  assert (forall name v, data name = Some v -> split newline v = [v]) as Hd.
  { intros name v H. rewrite Forall_forall in Hn. apply Hn. unfold data, l2tp_fields in H.
    repeat (destruct (name =? _); [injection H as <-; cbn; set_solver|]). done. }
  destruct (Execute_total data l2tp_nodes) as [text He]; [reflexivity|].
  destruct (write_template_ok l2tpProfileTemplate l2tp_nodes data text path s s1) as (s' & Hs & _ & Ho & _ & Hc); [reflexivity|done..|].
  pose proof (Execute_lines _ _ _ Hd He) as Hl. exists s', text. split_and!; [done..| | | | |].
  - apply Forall2_length in Hl. rewrite Hl. reflexivity.
  - by apply (line_of Hl 4 "Server Address : " "Hostname" hostname).
  - by apply (line_of Hl 5 "L2TP Username  : " "Username" username).
  - by apply (line_of Hl 6 "L2TP Password  : " "Password" password).
  - by apply (line_of Hl 7 "IPsec PSK      : " "PSK" psk).
Qed.

(** ** Examples *)

Definition demo_dir : state := (mkFS ∅ (list_to_set ["/etc"; "/etc/swan"; "/etc/swan/profile.d"]), demo_rng).

Lemma l2tp_profile_lines_witness :
  exists s' text, ExportL2TPProfile "alice" "secret" "vpn.example.com" "key" "/etc/swan/profile.d/l2tp-alice.txt" demo_dir = (s', Ok tt) /\
    content <$> files s'.1 !! "/etc/swan/profile.d/l2tp-alice.txt" = Some (bytes_of_string text) /\
    split newline text !! 6%nat = Some "L2TP Password  : secret".
Proof.
  destruct (l2tp_profile_lines "alice" "secret" "vpn.example.com" "key" "/etc/swan/profile.d/l2tp-alice.txt" demo_dir
    (put "/etc/swan/profile.d/l2tp-alice.txt" (mkFile [] 438) demo_dir.1, demo_rng)) as (s' & text & H & _ & Hc & _ & _ & _ & Hp & _).
  - vm_compute. reflexivity.
  - repeat constructor.
  - exists s', text. exact (conj H (conj Hc Hp)).
Defined.

(** A password with an end of line announces a key of its own. *)
Example injected_line :
  match Execute (l2tp_fields (mkL2TPProfileData "vpn" "alice" (String.append "x" (String newline "IPsec PSK      : evil")) "key")) l2tp_nodes with
  | Ok text => split newline text !! 7%nat
  | _ => None
  end = Some "IPsec PSK      : evil".
Proof. vm_compute. reflexivity. Qed.

(** The Apple profile is XML, and [text/template] does not escape: a name with a mark of XML
    stays as it is. *)
Example not_escaped :
  match Parse mobileconfigTemplate with
  | Ok nodes =>
    match Execute (mobileconfig_fields (mkMobileconfigData "a<b" "vpn" "" "" "a<b" "" "" "" "")) nodes with
    | Ok text => split newline text !! 24%nat
    | _ => None
    end
  | _ => None
  end = Some "			<string>a<b</string>".
Proof. vm_compute. reflexivity. Qed.

(** The template of the Apple profile has the fields of its data, and no other. *)
Example mobileconfig_parses :
  match Parse mobileconfigTemplate with
  | Ok nodes => has_fields (mobileconfig_fields (mkMobileconfigData "" "" "" "" "" "" "" "" "")) nodes = true /\ length (lines nodes) = 112%nat
  | _ => False
  end.
Proof. vm_compute. by split. Qed.

End Profile.
