(* ===== verification/Listener.v ===== *)
(** * Listener: the UDP listeners ([internal/listener/listener.go])

    A socket is a number; opening, reading, writing and closing it are the operating
    system's, so their outcomes are arguments.  The mutex makes each method atomic.  The
    loop of a listener is its round ([read_round]); the buffers come from the pool of
    [EspEngine.BufPool]. *)

From S2P Require Import Prelude Net EspEngine.
Import BufPool.

Module Listen.

Definition PortIKE : Z := 500.
Definition PortNATT : Z := 4500.
Definition PortL2TP : Z := 1701.

Record UDPListener := mkListener { conn : nat; port : Z; label : string }.

Record Manager := mkManager { listeners : list UDPListener; running : bool }.

Definition NewManager : Manager := mkManager [] false.

(** [bound] is what [net.ListenUDP] makes of the address: a socket and the port it has. *)
Definition AddUDP (m : Manager) (bound : res (nat * Z)) (lbl : string) : Manager * res unit :=
  match bound with
  | Ok (c, actualPort) => (mkManager (listeners m ++ [mkListener c actualPort lbl]) (running m), Ok tt)
  | Err _ => (m, Err "binding UDP")
  | Panic => (m, Panic)
  end.

(** The listener of a port: the first that was added. *)
Fixpoint find_port (ls : list UDPListener) (p : Z) : option UDPListener :=
  match ls with
  | [] => None
  | l :: ls => if port l =? p then Some l else find_port ls p
  end.

(** [WriteToUDP] may fail. *)
Definition SendTo (WriteToUDP : nat -> bytes -> option UDPAddr -> res unit) (m : Manager) (p : Z) (data : bytes) (remoteAddr : option UDPAddr) :
    res unit :=
  match find_port (listeners m) p with
  | Some l => match WriteToUDP (conn l) data remoteAddr with Ok _ => Ok tt | Err _ => Err "UDP send" | Panic => Panic end
  | None => Err "no listener found for port"
  end.

Definition GetConn (m : Manager) (p : Z) : option nat := conn <$> find_port (listeners m) p.

(** [Start] before it waits: the listeners whose loops it starts. *)
Definition Start (m : Manager) : Manager * list UDPListener :=
  if running m then (m, []) else (mkManager (listeners m) true, listeners m).

(** The sockets [closeAll] closes; an error is logged. *)
Definition closeAll (m : Manager) : list nat := conn <$> listeners m.

(** One datagram: [ReadFromUDP] puts it into the buffer, cut to its length. *)
Definition received (buf datagram : bytes) : bytes * Z :=
  let n := Z.min (len datagram) (len buf) in
  (sub datagram 0 n ++ drop (Z.to_nat n) buf, n).

(** A round of [readLoop]: the call of the handler, if there is one. *)
Definition read_round (pick : option nat) (pool : BufferPool) (read : res (bytes * UDPAddr)) :
    BufferPool * res (option (bytes * Z * UDPAddr)) :=
  let '(buf, pool) := Get pick pool in
  match read with
  | Panic => (pool, Panic)
  | Err _ => (Put pool buf (len buf), Ok None)
  | Ok (datagram, remoteAddr) =>
    let '(buf, n) := received buf datagram in
    (Put pool buf (len buf), Ok (if n =? 0 then None else Some (buf, n, remoteAddr)))
  end.

(** ** What a handler sees *)

Lemma find_port_app ls ks p : find_port (ls ++ ks) p = match find_port ls p with Some l => Some l | None => find_port ks p end.
Proof. induction ls as [|l ls IH]; cbn; [done|]. by destruct (_ =? _). Qed.

(** a datagram reaches the handler of its listener as it was sent.  The handler gets the
    datagram in a buffer that holds nothing else: not a byte of an earlier packet is behind it.
    The pool stays as it must be, and a port that was bound is the one answers go out through. *)
Theorem read_round_exact pick pool datagram from :
  0 <= bufSize pool -> pool_ok pool -> 0 < len datagram <= bufSize pool ->
  exists pool', read_round pick pool (Ok (datagram, from)) =
    (pool', Ok (Some (datagram ++ make (bufSize pool - len datagram), len datagram, from))) /\
    pool_ok pool' /\ bufSize pool' = bufSize pool.
Proof.
  intros Hs Hok [Hd Hl]. pose proof (Get_ok pick pool Hs Hok) as (Hb & Hp & Hz). unfold read_round.
  destruct (Get pick pool) as [buf p] eqn:E. cbn [fst snd] in *. subst buf. unfold received.
  assert (Z.min (len datagram) (len (make (bufSize pool))) = len datagram) as -> by (rewrite len_make; lia).
  assert (sub datagram 0 (len datagram) ++ drop (Z.to_nat (len datagram)) (make (bufSize pool)) =
    datagram ++ make (bufSize pool - len datagram)) as ->.
  { unfold sub, make. rewrite drop_0, drop_replicate. f_equal; [apply take_ge; unfold len; lia|]. f_equal. unfold len in *. lia. }
  rewrite (proj2 (Z.eqb_neq _ _)) by lia. eexists. split; [done|].
  assert (len (datagram ++ make (bufSize pool - len datagram)) = bufSize p) as Hlen by (rewrite len_app, len_make, Hz; lia).
  split; [by apply Put_ok|]. unfold Put. by case_match.
Qed.

Lemma read_round_exact_witness :
  exists pool', read_round (Some 0%nat) (mkPool [[7; 7; 7; 7]] 4) (Ok ([1; 2], mkUDPAddr [10; 0; 0; 1] 500)) =
    (pool', Ok (Some ([1; 2; 0; 0], 2, mkUDPAddr [10; 0; 0; 1] 500))).
Proof.
  destruct (read_round_exact (Some 0%nat) (mkPool [[7; 7; 7; 7]] 4) [1; 2] (mkUDPAddr [10; 0; 0; 1] 500)) as (p & H & _);
    [done|by repeat constructor|done|]. exists p. exact H.
Defined.

End Listen.
