(* ===== verification/Tun.v ===== *)
(** * Tun: the TUN device ([internal/tun/tun.go]) and the loop over it ([internal/esp/engine.go])

    The device of the platform is an argument: what [CreateTUN] gives, a handle, the
    name it has, what its [Read] delivers, whether its [Write] and [Close] succeed.  It
    puts a packet behind an offset of four bytes into the buffer, and takes one from behind
    the same offset.  What is created and closed on the platform is a list of events. *)

From S2P Require Import Prelude EspCipher EspSA EspEngine.

Module TunDev.

Definition DefaultDeviceName : string := "swan0".
Definition DefaultMTU : Z := 1280.
Definition MaxPacketSize : Z := 65536.
Definition tunReadOffset : Z := 4.

Inductive device_event := Created (dev : nat) | Closed (dev : nat).

Record Device := mkDevice { name : string; mtu : Z; dev : nat; closed : bool }.

(** The three platforms have the same code: a device that does not tell its name is closed
    again. *)
Definition createPlatformTUN (CreateTUN : string -> Z -> res nat) (dev_Name : nat -> res string) (requestedName : string) (m : Z) :
    list device_event * res (nat * string) :=
  match CreateTUN requestedName m with
  | Err _ => ([], Err "TUN creation failed")
  | Panic => ([], Panic)
  | Ok dev =>
    match dev_Name dev with
    | Err _ => ([Created dev; Closed dev], Err "getting TUN device name")
    | Panic => ([Created dev], Panic)
    | Ok actualName => ([Created dev], Ok (dev, actualName))
    end
  end.

Definition NewDevice (CreateTUN : string -> Z -> res nat) (dev_Name : nat -> res string) (nm : string) (m : Z) : list device_event * res Device :=
  let nm := if String.eqb nm "" then DefaultDeviceName else nm in
  let m := if m <=? 0 then DefaultMTU else m in
  match createPlatformTUN CreateTUN dev_Name nm m with
  | (evs, Ok (dev, actualName)) => (evs, Ok (mkDevice actualName m dev false))
  | (evs, Err _) => (evs, Err "creating TUN device")
  | (evs, Panic) => (evs, Panic)
  end.

Definition Name (d : Device) : string := name d.
Definition MTU (d : Device) : Z := mtu d.

(** [read] is what [dev.Read] does to the buffer, given the offset: the buffer, the number of
    packets and the size of the first. *)
Definition ReadPacket (read : bytes -> Z -> res (bytes * Z * Z)) (buf : bytes) : res (bytes * Z) :=
  if len buf <? tunReadOffset + 1 then Err "buffer too small for TUN read"
  else
    match read buf tunReadOffset with
    | Panic => Panic
    | Err _ => Err "TUN read"
    | Ok (buf, n, pktSize) =>
      if n =? 0 then Err "TUN read returned 0 packets"
      else if (pktSize >? 0) && (tunReadOffset >? 0) then
        src ← slice buf tunReadOffset (tunReadOffset + pktSize);
        buf ← copy_at buf 0 src;
        Ok (buf, pktSize)
      else Ok (buf, pktSize)
    end.

(** The buffer and offset handed to [dev.Write]; [None] where nothing is written. *)
Definition WritePacket (write : bytes -> Z -> res unit) (buf : bytes) (n : Z) : res (option (bytes * Z)) :=
  if n <=? 0 then Ok None
  else
    src ← slice buf 0 n;
    writeBuf ← copy_at (make (tunReadOffset + n)) tunReadOffset src;
    match write writeBuf tunReadOffset with
    | Ok _ => Ok (Some (writeBuf, tunReadOffset))
    | Err _ => Err "TUN write"
    | Panic => Panic
    end.

(** The device is closed once; it counts as closed even if closing it failed. *)
Definition Close (close : res unit) (d : Device) : Device * list device_event * res unit :=
  if closed d then (d, [], Ok tt)
  else
    (mkDevice (name d) (mtu d) (dev d) true, [Closed (dev d)],
     match close with Ok _ => Ok tt | Err _ => Err "closing TUN device" | Panic => Panic end).

Definition IsClosed (d : Device) : bool := closed d.

(** What [watchContext] does when the context ends; the result says whether it logs. *)
Definition watchContext (close : res unit) (d : Device) : Device * list device_event * res bool :=
  let '(d, evs, r) := Close close d in
  (d, evs, match r with Ok _ => Ok false | Err _ => Ok (negb (IsClosed d)) | Panic => Panic end).

(** [GOOS], whether the device node exists and whether the user is root. *)
Definition Available (GOOS : string) (node root : bool) : bool :=
  if String.eqb GOOS "linux" then node && root
  else if String.eqb GOOS "darwin" then root
  else String.eqb GOOS "windows".

(** ** The life of a device *)

(** [Close] by whoever, or the end of the context, each with what the platform answers. *)
Inductive closer := Closes (close : res unit) | ContextEnds (close : res unit).

Definition closer_step (c : closer) (d : Device) : Device * list device_event :=
  match c with Closes r => (Close r d).1 | ContextEnds r => (watchContext r d).1 end.

Fixpoint close_all (cs : list closer) (d : Device) : Device * list device_event :=
  match cs with
  | [] => (d, [])
  | c :: cs => let '(d, evs) := closer_step c d in let '(d, evs') := close_all cs d in (d, evs ++ evs')
  end.

Lemma closer_step_eq c d : closer_step c d =
  (mkDevice (name d) (mtu d) (dev d) true, if closed d then [] else [Closed (dev d)]).
Proof. by destruct c, d as [? ? ? []]. Qed.

Lemma close_all_closed cs d : closed d = true -> close_all cs d = (d, []).
Proof.
  intros Hd. induction cs as [|c cs IH]; [done|]. cbn. rewrite closer_step_eq, Hd.
  assert (mkDevice (name d) (mtu d) (dev d) true = d) as -> by (destruct d; cbn in *; congruence). by rewrite IH.
Qed.

(** no device is lost: a call of [NewDevice] that fails leaves nothing open, one that succeeds
    opens one device, with the name the platform gave it and an MTU above zero; and
    whatever closes it, and however often and however it goes, the platform is told once. *)
Theorem device_closed_once CreateTUN dev_Name nm m evs r :
  NewDevice CreateTUN dev_Name nm m = (evs, r) -> r <> Panic ->
  match r with
  | Ok d => evs = [Created (dev d)] /\ closed d = false /\ dev_Name (dev d) = Ok (name d) /\ 0 < mtu d /\
      forall c cs, close_all (c :: cs) d = (mkDevice (name d) (mtu d) (dev d) true, [Closed (dev d)])
  | _ => evs = [] \/ exists h, evs = [Created h; Closed h]
  end.
Proof.
  unfold NewDevice, createPlatformTUN. destruct (CreateTUN _ _) as [h|e|]; [|intros [= <- <-] _; by left|intros [= <- <-] Hp; by destruct Hp].
  destruct (dev_Name h) as [n|e|] eqn:En; [|intros [= <- <-] _; right; by exists h|intros [= <- <-] Hp; by destruct Hp].
  intros [= <- <-] _. cbn. split_and!; [done..| |].
  - destruct (Z.leb_spec m 0); [done|lia].
  - intros c cs. by rewrite closer_step_eq, close_all_closed.
Qed.

Lemma device_closed_once_witness :
  (close_all [ContextEnds (Err "busy"); Closes (Ok tt)] (mkDevice "utun3" 1280 7 false)).2 = [Closed 7].
Proof.
  destruct (device_closed_once (fun _ _ => Ok 7%nat) (fun _ => Ok "utun3") "" 0 [Created 7] (Ok (mkDevice "utun3" 1280 7 false)) eq_refl
    ltac:(discriminate)) as (_ & _ & _ & _ & H).
  exact (f_equal snd (H (ContextEnds (Err "busy")) [Closes (Ok tt)])).
Defined.

(** The failure of a close at the end of the context is never logged: the device counts as
    closed by then. *)
Theorem watchContext_silent close d d' evs b : watchContext close d = (d', evs, Ok b) -> b = false.
Proof. unfold watchContext, Close, IsClosed. destruct (closed d), close; by intros [= <- <- <-]. Qed.

Lemma watchContext_silent_witness :
  let d := mkDevice "utun3" 1280 7 false in (watchContext (Err "busy") d).1.2 = [Closed 7] /\ negb (IsClosed (watchContext (Err "busy") d).1.1) = false.
Proof. split; [reflexivity|]. exact (watchContext_silent (Err "busy") (mkDevice "utun3" 1280 7 false) _ _ _ eq_refl). Defined.

(** ** Packets keep their bytes *)

(** A device that delivers [packet] behind the offset, as the interface says. *)
Definition delivers (packet : bytes) (buf : bytes) (offset : Z) : res (bytes * Z * Z) :=
  buf ← copy_at buf offset packet; Ok (buf, 1, len packet).

Lemma copy_mid_ok (buf src : bytes) a : 0 <= a -> a + len src <= len buf ->
  copy_at buf a src = Ok (sub buf 0 a ++ src ++ drop (Z.to_nat (a + len src)) buf).
Proof.
  intros Ha Hl. pose proof (len_nonneg src).
  rewrite <- (take_drop (Z.to_nat a) buf) at 1. rewrite <- (take_drop (length src) (drop (Z.to_nat a) buf)) at 1.
  rewrite drop_drop. unfold len in *. rewrite (copy_mid _ (take (length src) (drop (Z.to_nat a) buf))).
  - unfold sub. rewrite drop_0, Z.sub_0_r. do 3 f_equal. f_equal. lia.
  - unfold len. rewrite length_take. lia.
  - unfold len. rewrite length_take, length_drop. lia.
Qed.

Lemma ReadPacket_delivers packet buf : 0 < len packet -> tunReadOffset + len packet <= len buf ->
  exists rest, ReadPacket (delivers packet) buf = Ok (packet ++ rest, len packet) /\ len (packet ++ rest) = len buf.
Proof.
  intros Hp Hb. unfold ReadPacket, delivers, tunReadOffset in *. rewrite (proj2 (Z.ltb_ge _ _)) by lia.
  rewrite copy_mid_ok, !bind_Ok by lia. cbn [Z.eqb]. rewrite (proj2 (Z.gtb_lt _ _)) by lia. cbn [andb Z.gtb Z.compare].
  assert (len (sub buf 0 4) = 4) as H4 by (rewrite len_sub; lia). pose proof (len_drop (Z.to_nat (4 + len packet)) buf) as Hd.
  set (d := drop _ buf) in *. rewrite (slice_mid _ packet d) by (rewrite ?H4; lia).
  rewrite bind_Ok, copy_mid_ok; [|lia|rewrite !len_app, H4; pose proof (len_nonneg d); lia].
  rewrite bind_Ok. eexists. split; [reflexivity|]. rewrite !len_app, len_drop, !len_app, H4. change (len (sub _ 0 0)) with 0. lia.
Qed.

(** a packet passes the device unchanged in both directions: what the device delivers is
    what the caller finds at the start of its buffer, with its size, and what the caller writes
    is what the device finds behind the offset.  No size that fits panics. *)
Theorem packets_pass packet buf : 0 < len packet -> tunReadOffset + len packet <= len buf ->
  (exists rest, ReadPacket (delivers packet) buf = Ok (packet ++ rest, len packet)) /\
  (forall write more, write (make tunReadOffset ++ packet) tunReadOffset = Ok tt ->
    WritePacket write (packet ++ more) (len packet) = Ok (Some (make tunReadOffset ++ packet, tunReadOffset))).
Proof.
  intros Hp Hb. split; [destruct (ReadPacket_delivers packet buf Hp Hb) as (rest & H & _); by exists rest|]. unfold tunReadOffset in *.
  intros write more Hw. unfold WritePacket, tunReadOffset in *. rewrite (proj2 (Z.leb_gt _ _)) by lia.
  rewrite slice_head, bind_Ok by done. rewrite copy_mid_ok by (rewrite ?len_make; lia).
  assert (sub (make (4 + len packet)) 0 4 ++ packet ++ drop (Z.to_nat (4 + len packet)) (make (4 + len packet)) = make 4 ++ packet) as ->.
  { rewrite drop_ge by (unfold make; rewrite length_replicate; lia). rewrite app_nil_r. f_equal. unfold sub.
    rewrite drop_0, make_app by lia. by rewrite Z.sub_0_r, take_app_length' by done. }
  by rewrite bind_Ok, Hw.
Qed.

Lemma packets_pass_witness :
  exists rest, ReadPacket (delivers [69; 0; 0; 20]) (make 16) = Ok ([69; 0; 0; 20] ++ rest, 4).
Proof. destruct (packets_pass [69; 0; 0; 20] (make 16)) as [H _]; [done..|exact H]. Defined.

End TunDev.

(** ** The loop of the engine over the device ([Engine.Start], [Engine.outboundLoop]) *)

Module Outbound.
Import Cipher BufPool Engine TunDev.

Section outbound.
Context {C : Crypto}.

(** What [Start] starts: the loop, unless the engine runs already or has no device. *)
Definition Start (running : bool) (e : Engine) : bool * bool := if running then (running, false) else (true, tunReader e).

(** A round of the loop: a buffer from the pool, a packet from the device, and the way of the
    packet through the engine. *)
Definition outbound_round (pick : option nat) (pool : BufferPool) (read : bytes -> Z -> res (bytes * Z * Z)) (w : world) (rnd : option bytes) :
    BufferPool * (world * res (list event)) :=
  let '(buf, pool) := Get pick pool in
  match ReadPacket read buf with
  | Panic => (pool, (w, Panic))
  | Err _ => (Put pool buf (len buf), (w, Ok []))
  | Ok (buf, n) =>
    match slice buf 0 n with
    | Ok packet => (Put pool buf (len buf), outboundStep w rnd (Ok packet))
    | _ => (pool, (w, Panic))
    end
  end.

(** a packet the device delivers goes through the engine as it is, whatever buffer the pool
    hands out, and the pool is left as it must be. *)
Theorem outbound_round_packet pick pool packet w rnd :
  0 <= bufSize pool -> pool_ok pool -> 0 < len packet -> tunReadOffset + len packet <= bufSize pool ->
  exists pool', outbound_round pick pool (delivers packet) w rnd = (pool', outboundStep w rnd (Ok packet)) /\
    pool_ok pool' /\ bufSize pool' = bufSize pool.
Proof.
  intros Hs Hok Hp Hl. pose proof (Get_ok pick pool Hs Hok) as (Hb & Hpo & Hz). unfold outbound_round.
  destruct (Get pick pool) as [buf p]. cbn [fst snd] in *. subst buf.
  destruct (ReadPacket_delivers packet (make (bufSize pool)) Hp) as (rest & -> & Hlen); [rewrite len_make; lia|].
  rewrite slice_head by done. eexists. split; [reflexivity|]. rewrite len_make in Hlen.
  split; [apply Put_ok; done|]. unfold Put. by case_match.
Qed.

End outbound.

Lemma outbound_round_packet_witness :
  exists pool', outbound_round (C := Cipher.Toy.toy) None (NewBufferPool MaxPacketSize) (delivers [69; 0; 0; 20]) (mkWorld ∅ (mkEngine SADB.NewSADatabase true true true None 4500 false ∅)) None =
    (pool', (mkWorld ∅ (mkEngine SADB.NewSADatabase true true true None 4500 false ∅), Ok [])).
Proof.
  destruct (outbound_round_packet (C := Cipher.Toy.toy) None (NewBufferPool MaxPacketSize) [69; 0; 0; 20]
    (mkWorld ∅ (mkEngine SADB.NewSADatabase true true true None 4500 false ∅)) None) as (p & H & _); [done|by constructor|done|done|].
  exists p. exact H.
Defined.

End Outbound.
