(* ===== verification/Daemon.v ===== *)
(** * Daemon: the process ([cmd/swan-ng/daemon.go], [resolveL2TPConnection] of [cmd/swan-ng/l2tp.go])

    The daemon wires the parts together: the callbacks that find a connection's secret, the
    handlers of the three ports, the ESP engine between the listeners, the TUN device and the
    L2TP server.  The data plane is the world inside the state of the IKE server, which points
    to the engine.  A handler runs to its end before the next one starts; what leaves the
    process is its result. *)

From S2P Require Import Prelude Net Filepath Rand Exch EspCipher EspPacket EspSA EspNatt EspEngine.
From S2P Require Import Ipam L2tpChap L2tpProfile L2tpSession L2tpTunnel L2tpIpcp L2tpServer.
From S2P Require Import IkeV2 IkeProposal IkeCrypto IkeKeys IkeSession IkeManager IkeEap IkeV2Init IkeV1Main IkeServer.
From S2P Require Import Config Listener Tun.

Module Proc.
Import Cfg Crypto Keys Manager Nego.

(** ** Which secret a peer is asked for *)

Section psk.
Context (IPString : bytes -> string) {O : ConnOrder}.

Definition v1_matches (peerAddr : UDPAddr) (conn : ConnectionConfig) : bool :=
  negb (negb (AuthBy conn =? "secret")%string || negb (KeyExchange conn =? "ikev1")%string) &&
  ((Right conn =? "%any")%string || (Right conn =? IPString (IP peerAddr))%string) && negb (PSK conn =? "")%string.

Definition v2_matches (peerAddr : UDPAddr) (peerID : bytes) (conn : ConnectionConfig) : bool :=
  negb (negb (AuthBy conn =? "secret")%string || (negb (KeyExchange conn =? "")%string && negb (KeyExchange conn =? "ikev2")%string)) &&
  (let matchID := if negb (RightID conn =? "")%string then RightID conn else Right conn in
   (matchID =? "%any")%string || bool_decide (bytes_of_string matchID = peerID) || (matchID =? IPString (IP peerAddr))%string) &&
  negb (PSK conn =? "")%string.

(** Both closures walk over the connections and return with the first that matches. *)
Fixpoint first_match (matches : ConnectionConfig -> bool) (entries : list (string * option ConnectionConfig)) : res (string * ConnectionConfig) :=
  match entries with
  | [] => Err "no PSK found"
  | (_, None) :: _ => Panic
  | (name, Some conn) :: entries => if matches conn then Ok (name, conn) else first_match matches entries
  end.

Definition secret_of (x : string * ConnectionConfig) : bytes * bytes := (bytes_of_string (PSK x.2), bytes_of_string x.1).

Definition v1PSKFunc (cfg : Config) (peerAddr : UDPAddr) : res (bytes * bytes) :=
  secret_of <$> first_match (v1_matches peerAddr) (conn_order (Config_Connections cfg)).
Definition v2PSKFunc (cfg : Config) (peerAddr : UDPAddr) (peerID : bytes) : res (bytes * bytes) :=
  secret_of <$> first_match (v2_matches peerAddr peerID) (conn_order (Config_Connections cfg)).

(** The callbacks as the handlers take them.  A listener's address is never nil, and no
    connection of a configuration that was loaded is. *)
Definition callback {A} (r : res A) : option A := match r with Ok a => Some a | _ => None end.

Definition ikev1Handler (cfg : Config) : Main1.IKEv1Handler :=
  Main1.NewIKEv1Handler (fun a => a ← a; callback (v1PSKFunc cfg a)) None (bytes_of_string "swan-ng") V2.IDIPv4Addr.
Definition ikev2Handler (cfg : Config) (r : rng) : Init.IKEv2Handler * rng :=
  Init.NewIKEv2Handler (fun a peerID => a ← a; callback (v2PSKFunc cfg a peerID)) None (bytes_of_string "swan-ng") V2.IDIPv4Addr Sess.CookieModeAuto r.

Definition resolveL2TPConnection (cfg : Config) (connName : string) : res (string * ConnectionConfig) :=
  if negb (connName =? "")%string then
    match Config_Connections cfg !! connName with
    | None => Err "ipsec connection not found in config"
    | Some None => Panic
    | Some (Some conn) => if (PSK conn =? "")%string then Err "ipsec connection has no PSK defined" else Ok (connName, conn)
    end
  else
    x ← FindConnectionByAuthBy cfg "secret";
    match x with
    | Some x => Ok x
    | None => Err "no ipsec connection with authby=secret found"
    end.

(** ** The secret is that of a connection that matches *)

Lemma first_match_spec matches m : all_usable m ->
  match first_match matches (conn_order m) with
  | Ok (name, conn) => m !! name = Some (Some conn) /\ matches conn = true
  | Err _ => forall name conn, m !! name = Some (Some conn) -> matches conn = false
  | Panic => False
  end.
Proof.
  intros Hu. pose proof (conn_order_perm m) as Hp.
  assert (forall e, e ∈ conn_order m <-> m !! e.1 = Some e.2) as Hin.
  { intros [k x]. by rewrite Hp, elem_of_map_to_list. }
  assert (match first_match matches (conn_order m) with
    | Ok e => (e.1, Some e.2) ∈ conn_order m /\ matches e.2 = true
    | Err _ => forall name conn, (name, Some conn) ∈ conn_order m -> matches conn = false
    | Panic => exists name, (name, None) ∈ conn_order m end) as H.
  { clear. induction (conn_order m) as [|[k [conn|]] l IH]; cbn.
    - intros ?? H. by apply not_elem_of_nil in H.
    - destruct (matches conn) eqn:Em; [split; [by left|done]|]. destruct (first_match matches l) as [[n c]|e|].
      + destruct IH. split; [by right|done].
      + intros n c [[= -> ->]|H]%elem_of_cons; [done|by eapply IH].
      + destruct IH as [n H]. exists n. by right.
    - exists k. by left. }
  destruct (first_match matches (conn_order m)) as [[n c]|e|]; cbn in *.
  - destruct H as [H ?]. split; [|done]. by apply (Hin (n, Some c)).
  - intros n c Hn. apply (H n). by apply Hin.
  - destruct H as [n H]. apply Hin in H. by destruct (Hu _ _ H) as (c & ? & _).
Qed.

(** A connection is meant for a peer: of IKEv1 by the address on the right, of IKEv2 by the
    identity expected on the right or, if none is given, the address on the right, which the
    identity of the peer or its address must be. *)
Definition meant_v1 (peerAddr : UDPAddr) (conn : ConnectionConfig) : Prop :=
  AuthBy conn = "secret"%string /\ KeyExchange conn = "ikev1"%string /\ PSK conn <> ""%string /\
  (Right conn = "%any"%string \/ Right conn = IPString (IP peerAddr)).

Definition expected_on_right (conn : ConnectionConfig) (id : string) : Prop :=
  RightID conn <> ""%string /\ id = RightID conn \/ RightID conn = ""%string /\ id = Right conn.

Definition meant_v2 (peerAddr : UDPAddr) (peerID : bytes) (conn : ConnectionConfig) : Prop :=
  AuthBy conn = "secret"%string /\ (KeyExchange conn = ""%string \/ KeyExchange conn = "ikev2"%string) /\ PSK conn <> ""%string /\
  exists id, expected_on_right conn id /\ (id = "%any"%string \/ bytes_of_string id = peerID \/ id = IPString (IP peerAddr)).

Lemma v1_matches_meant peerAddr conn : v1_matches peerAddr conn = true <-> meant_v1 peerAddr conn.
Proof.
  unfold v1_matches, meant_v1. rewrite !andb_true_iff, !negb_true_iff, orb_false_iff, orb_true_iff, !negb_false_iff, !String.eqb_eq, String.eqb_neq. tauto.
Qed.

Lemma v2_matches_meant peerAddr peerID conn : v2_matches peerAddr peerID conn = true <-> meant_v2 peerAddr peerID conn.
Proof.
  unfold v2_matches, meant_v2, expected_on_right. cbv zeta. rewrite !andb_true_iff, !negb_true_iff, orb_false_iff, andb_false_iff, !negb_false_iff.
  rewrite !orb_true_iff, bool_decide_eq_true, !String.eqb_eq, String.eqb_neq.
  destruct (String.eqb_spec (RightID conn) ""%string) as [E|E]; cbn [negb]; naive_solver.
Qed.

(** What a callback answers: the secret of a connection that is meant, with its name, and no
    secret exactly when none is. *)
Definition answers (cfg : Config) (meant : ConnectionConfig -> Prop) (r : res (bytes * bytes)) : Prop :=
  match r with
  | Ok (psk, connName) => exists name conn, Config_Connections cfg !! name = Some (Some conn) /\ meant conn /\
      connName = bytes_of_string name /\ psk = bytes_of_string (PSK conn)
  | Err _ => forall name conn, Config_Connections cfg !! name = Some (Some conn) -> ~ meant conn
  | Panic => False
  end.

Lemma answers_first cfg matches meant : all_usable (Config_Connections cfg) -> (forall conn, matches conn = true <-> meant conn) ->
  answers cfg meant (secret_of <$> first_match matches (conn_order (Config_Connections cfg))).
Proof.
  intros Hu Hm. pose proof (first_match_spec matches _ Hu) as H. destruct (first_match _ _) as [[n c]|e|]; [|intros n c Hc|done].
  - destruct H as [H1 H2%Hm]. by exists n, c.
  - specialize (H n c Hc). rewrite <- Hm. by rewrite H.
Qed.

(** C16: PSK isolation.  With a configuration that was loaded, the callback of IKEv1 answers with
    the secret and the name of a connection that authenticates by secret, is for IKEv1, and has
    any peer or this peer's address on its right; the one of IKEv2 with those of a connection
    that authenticates by secret, is for IKEv2 or for no version in particular, and expects any
    peer, this peer's identity or its address.  They fail exactly when there is no such
    connection. *)
Theorem psk_isolated cfg peerAddr peerID : all_usable (Config_Connections cfg) ->
  answers cfg (meant_v1 peerAddr) (v1PSKFunc cfg peerAddr) /\ answers cfg (meant_v2 peerAddr peerID) (v2PSKFunc cfg peerAddr peerID).
Proof. intros Hu. split; (apply answers_first; [done|]); intros conn; [apply v1_matches_meant|apply v2_matches_meant]. Qed.

End psk.
(** ** The parts and their wiring *)

Abbreviation L2TPServer := (Server.Server (P := Pool.Pool) (D := Profile.ProfileUserDB)).
Abbreviation L2TPConfig := (Server.ServerConfig (P := Pool.Pool) (D := Profile.ProfileUserDB)).

Record Daemon := mkDaemon {
  ikeServer : IServer.Server;
  l2tpServer : option L2TPServer;
  listenMgr : Listen.Manager
}.

Definition with_ike (d : Daemon) (s : IServer.Server) : Daemon := mkDaemon s (l2tpServer d) (listenMgr d).
Definition with_l2tp (d : Daemon) (s : L2TPServer) : Daemon := mkDaemon (ikeServer d) (Some s) (listenMgr d).
Definition espEngine (d : Daemon) : Engine.world := Manager.esp (IServer.sv_sessions (ikeServer d)).
Definition with_engine (d : Daemon) (w : Engine.world) : Daemon :=
  let sm := IServer.sv_sessions (ikeServer d) in
  with_ike d (IServer.with_sessions (ikeServer d) (Manager.mkState (Manager.heap1 sm) (Manager.heap2 sm) (Manager.manager sm) w)).

(** What leaves the process. *)
Inductive output :=
  | Datagram (port : Z) (data : bytes) (to : option UDPAddr)
  | ToTUN (packet : bytes).

(** A call of [SendTo] sends when a listener has the port. *)
Definition send (d : Daemon) (port : Z) (data : bytes) (to : option UDPAddr) : list output :=
  match Listen.find_port (Listen.listeners (listenMgr d)) port with Some _ => [Datagram port data to] | None => [] end.

Section daemon.
Context {C : Cipher.Crypto} {D : Digests} {E : ECDH} {L : Eap.Legacy} {O : MapOrder} {CO : ConnOrder}.
Context (md5 : bytes -> bytes) (rg : nat -> nat -> nat -> range) (tries : nat).
Context (ParseIP : string -> bytes) (IPString : bytes -> string).
Context (ReadFile : string -> res bytes) (UnmarshalProfile : bytes -> res Profile.L2TPProfile).

Section run.
Context (h1 : Main1.IKEv1Handler) (h2 : Init.IKEv2Handler).

(** The calls of the sender the IKE server has made since [s]. *)
Definition ike_outputs (d : Daemon) (s s' : IServer.Server) : list output :=
  concat ((fun g => send d (IServer.dg_port g) (IServer.dg_data g) (IServer.dg_addr g)) <$>
    drop (length (IServer.sv_sent s)) (IServer.sv_sent s')).

Definition ike_call (d : Daemon) (x : secret) (buf : bytes) (n : Z) (addr : UDPAddr) (isNATT : bool) : Daemon * res (list output) :=
  let '(s, r) := IServer.HandlePacket rg tries h1 h2 x buf n (Some addr) isNATT (ikeServer d) in
  (with_ike d s, match r with Ok _ => Ok (ike_outputs d (ikeServer d) s) | Err e => Err e | Panic => Panic end).

(** [SendL2TPResponse] has no implementation in the repository, so a [Sent] is not an output. *)
Definition l2tp_outputs (evs : list Server.event) : list output :=
  omap (fun e => match e with Server.TunWrite p => Some (ToTUN p) | Server.Sent _ _ => None end) evs.

Definition l2tp_result (d : Daemon) (r : res (L2TPServer * list Server.event)) : Daemon * res (list output) :=
  match r with
  | Ok (s, evs) => (with_l2tp d s, Ok (l2tp_outputs evs))
  | Err e => (d, Err e)
  | Panic => (d, Panic)
  end.

Definition l2tp_call (d : Daemon) (now : Z) (r : rng) (data : bytes) (addr : UDPAddr) : Daemon * res (list output) :=
  match l2tpServer d with
  | None => (d, Ok [])
  | Some s => l2tp_result d (Server.HandlePacket md5 now r s data addr)
  end.

(** The events of the engine, carried out in their order. *)
Fixpoint esp_outputs (d : Daemon) (now : Z) (r : rng) (evs : list Engine.event) : Daemon * res (list output) :=
  match evs with
  | [] => (d, Ok [])
  | ev :: evs =>
    let '(d, x) := match ev with
      | Engine.WritePacket p => (d, Ok [ToTUN p])
      | Engine.SendTo port data to => (d, Ok (send d port data (Some to)))
      | Engine.HandlePacket payload from => l2tp_call d now r payload from
      end in
    match x with
    | Ok out => let '(d, y) := esp_outputs d now r evs in (d, (fun o => out ++ o)%list <$> y)
    | y => (d, y)
    end
  end.

Definition esp_call (d : Daemon) (now : Z) (r : rng) (x : Engine.world * res (list Engine.event)) : Daemon * res (list output) :=
  let d := with_engine d x.1 in
  match x.2 with
  | Ok evs => esp_outputs d now r evs
  | Err e => (d, Err e)
  | Panic => (d, Panic)
  end.

(** The handlers of the listeners. *)
Definition on_natt (d : Daemon) (x : secret) (now : Z) (r : rng) (buf : bytes) (n : Z) (addr : UDPAddr) : Daemon * res (list output) :=
  match (data ← slice buf 0 n; Natt.ClassifyNATT data) with
  | Panic => (d, Panic)
  | Err _ => (d, Ok [])
  | Ok (Natt.PacketTypeIKE, payload) => ike_call d x payload (len payload) addr true
  | Ok _ => esp_call d now r (Engine.HandleInboundESP (espEngine d) buf n addr)
  end.

Definition on_ike (d : Daemon) (x : secret) (buf : bytes) (n : Z) (addr : UDPAddr) : Daemon * res (list output) :=
  ike_call d x buf n addr false.

Definition on_l2tp (d : Daemon) (now : Z) (r : rng) (buf : bytes) (n : Z) (addr : UDPAddr) : Daemon * res (list output) :=
  match l2tpServer d with
  | Some _ => match slice buf 0 n with Ok data => l2tp_call d now r data addr | _ => (d, Panic) end
  | None => (d, Ok [])
  end.

(** What happens to the process: a datagram on a port (with the random values its handler
    draws and the time), a packet from the TUN device, a tick of a tunnel, the end. *)
Inductive input :=
  | Udp (port : Z) (x : secret) (now : Z) (r : rng) (buf : bytes) (n : Z) (from : UDPAddr)
  | FromTUN (now : Z) (r : rng) (rnd : option bytes) (rd : res bytes)
  | Retransmit (now : Z) (tunnel : nat)
  | Hello (now : Z) (tunnel : nat)
  | Shutdown (now : Z).

Definition handle (d : Daemon) (i : input) : Daemon * res (list output) :=
  match i with
  | Udp port x now r buf n from =>
    if port =? Listen.PortNATT then on_natt d x now r buf n from
    else if port =? Listen.PortIKE then on_ike d x buf n from
    else if port =? Listen.PortL2TP then on_l2tp d now r buf n from
    else (d, Ok [])
  | FromTUN now r rnd rd => esp_call d now r (Engine.outboundStep (espEngine d) rnd rd)
  | Retransmit now l => match l2tpServer d with None => (d, Ok []) | Some s => l2tp_result d (Server.tick (Tunnel.retransmitTick now) s l) end
  | Hello now l => match l2tpServer d with None => (d, Ok []) | Some s => l2tp_result d (Server.tick (Tunnel.helloTick now) s l) end
  | Shutdown now => match l2tpServer d with None => (d, Ok []) | Some s => l2tp_result d (Server.Close now s) end
  end.

End run.

(** ** The start *)

(** The configuration [initL2TPServer] builds: it has no sender. *)
Definition l2tp_config (cfg : Config) (resolvedConfigPath : string) (tun : bool) : res L2TPConfig :=
  let l := Cfg.L2TP cfg in
  p ← Pool.NewPool ParseIP (L2TP_Range (L2TP_IPAM l));
  let paths := (fun p => if IsAbs p then p else Join (Dir resolvedConfigPath) p) <$> L2TP_Profile l in
  let db := Profile.LoadProfiles ReadFile UnmarshalProfile Profile.NewProfileUserDB paths in
  let parsed (k : nat) (dflt : string) := match L2TP_DNS (L2TP_IPAM l) !! k with
    | Some text => match ParseIP text with [] => ParseIP dflt | ip => ip end
    | None => ParseIP dflt
    end in
  Ok (Server.mkConfig (bytes_of_string (Hostname (Cfg.Server cfg))) (ParseIP (Gateway (L2TP_IPAM l))) (parsed 0%nat "1.1.1.1") (parsed 1%nat "1.0.0.1")
    (Some p) db false tun).

Definition initL2TPServer (cfg : Config) (resolvedConfigPath : string) (tun : bool) : res L2TPServer :=
  c ← l2tp_config cfg resolvedConfigPath tun;
  Ok (Server.Start (Server.NewServer c)).

(** A listener that cannot be bound is left out. *)
Definition bind_ports (bound : Z -> res (nat * Z)) : Listen.Manager :=
  foldl (fun m p => (Listen.AddUDP m (bound p.1) p.2).1) Listen.NewManager
    [(Listen.PortNATT, "NAT-T/ESP"); (Listen.PortIKE, "IKE"); (Listen.PortL2TP, "L2TP")].

(** The TUN device: its name and MTU have defaults, and the daemon goes on without one. *)
Definition open_tun (cfg : Config) (available : bool) (CreateTUN : string -> Z -> res nat) (dev_Name : nat -> res string) : option TunDev.Device :=
  let tunName := if (DeviceName (Cfg.TUN cfg) =? "")%string then TunDev.DefaultDeviceName else DeviceName (Cfg.TUN cfg) in
  let tunMTU := if MTU (Cfg.TUN cfg) <=? 0 then TunDev.DefaultMTU else MTU (Cfg.TUN cfg) in
  if available then match (TunDev.NewDevice CreateTUN dev_Name tunName tunMTU).2 with Ok d => Some d | _ => None end else None.

(** [RunE] up to the point where it waits: the TUN device is there or not, the L2TP server is
    there when it is enabled and starts. *)
Definition start (cfg : Config) (resolvedConfigPath : string) (tun : bool) (bound : Z -> res (nat * Z)) (r : rng) :
    res (Daemon * Main1.IKEv1Handler * Init.IKEv2Handler) :=
  engine ← Engine.NewEngine (Engine.mkConfig (Some SADB.NewSADatabase) (Some (BufPool.NewBufferPool BufPool.MaxPacketSize)) tun tun true None 0);
  let '(h2, r) := ikev2Handler IPString cfg r in
  let l2tp := if L2TP_Enabled (Cfg.L2TP cfg)
    then match initL2TPServer cfg resolvedConfigPath tun with Ok s => Some s | _ => None end else None in
  let engine := match l2tp with Some _ => Engine.SetL2TPHandler engine true | None => engine end in
  let sm := Manager.mkState ∅ ∅ (Manager.NewSessionManager true) (Engine.mkWorld ∅ engine) in
  Ok (mkDaemon (IServer.NewServer sm r true) l2tp (bind_ports bound), ikev1Handler IPString cfg, h2).

End daemon.

(** ** An L2TP server without a sender answers nobody *)

Section silent.
Context {P D : Type} `{AP : Pools.AddressPool P} {UD : Chap.UserDatabase D} (md5 : bytes -> bytes).
Import Server.
Implicit Types s : Server.Server (P := P) (D := D).

(** The sender stays, and without one nothing is sent. *)
Definition silent s (x : Server.Server (P := P) (D := D) * list event) : Prop :=
  sender x.1 = sender s /\ (sender s = false -> forall data addr, Sent data addr ∉ x.2).

Lemma emit_silent s s' addr out data to : sender s' = sender s -> sender s = false -> Sent data to ∉ emit s' addr out.
Proof. unfold emit. intros -> ->. apply not_elem_of_nil. Qed.

Lemma silent_nil s s' : sender s' = sender s -> silent s (s', []).
Proof. split; [done|]. intros ???. apply not_elem_of_nil. Qed.

Lemma silent_emit s s' s1 addr out : sender s' = sender s -> sender s1 = sender s -> silent s (s', emit s1 addr out).
Proof. split; [done|]. intros Hs ??. by eapply emit_silent. Qed.

Lemma silent_app s s' e1 e2 : silent s (s', e1) -> silent s (s', e2) -> silent s (s', e1 ++ e2).
Proof. intros [H H1] [_ H2]. split; [done|]. intros Hs ??. cbn in *. rewrite elem_of_app. intros [Hi|Hi]; [by eapply H1|by eapply H2]. Qed.

Lemma releaseIP_sender s ip s' : releaseIP s ip = Ok s' -> sender s' = sender s.
Proof. unfold releaseIP. intros H. repeat case_match; simplify_eq; done. Qed.

Lemma releaseAll_sender s ips s' : releaseAll s ips = Ok s' -> sender s' = sender s.
Proof.
  revert s. induction ips as [|ip ips IH]; intros s H; cbn in H; [by injection H as <-|].
  apply bind_Ok_inv in H as (s1 & H1 & H). rewrite (IH s1 H). by eapply releaseIP_sender.
Qed.

Lemma allocateIP_sender s s' ip : allocateIP s = Ok (s', ip) -> sender s' = sender s.
Proof. unfold allocateIP. intros H. repeat case_match; simplify_eq; done. Qed.

(** Takes a result apart. *)
Ltac parts H :=
  repeat match type of H with
  | (_ ≫= _) = Ok _ => let x := fresh "x" in let Hx := fresh "Hx" in apply bind_Ok_inv in H as (x & Hx & H); cbv beta in H
  | (let '(_, _) := ?x in _) = Ok _ => destruct x
  | (if ?b then _ else _) = Ok _ => destruct b
  | match ?x with _ => _ end = Ok _ => destruct x eqn:?; try discriminate H
  | Ok _ = Ok _ => injection H as H; subst
  end.

(** Puts the equations about the sender together. *)
Ltac senders :=
  repeat match goal with
  | H : allocateIP _ = Ok _ |- _ => apply allocateIP_sender in H
  | H : releaseAll _ _ = Ok _ |- _ => apply releaseAll_sender in H
  end; cbn in *; congruence.

Lemma startPPP_sender now r s l t sid s' out : startPPP now r s l t sid = Ok (s', out) -> sender s' = sender s.
Proof. unfold startPPP. intros H. parts H; senders. Qed.

Lemma routeControlMessage_sender now r s l t hdr msgType avps s' out :
  routeControlMessage now r s l t hdr msgType avps = Ok (s', out) -> sender s' = sender s.
Proof. unfold routeControlMessage. intros H. parts H; first [by eapply startPPP_sender|senders]. Qed.

Lemma handleNewTunnel_silent now s hdr payload addr x : handleNewTunnel now s hdr payload addr = Ok x -> silent s x.
Proof. unfold handleNewTunnel. intros H. parts H; first [by apply silent_nil|by apply silent_emit]. Qed.

Lemma handleControlMessage_silent now r s hdr payload addr x : handleControlMessage now r s hdr payload addr = Ok x -> silent s x.
Proof.
  unfold handleControlMessage. intros H. destruct (_ =? 0); [by eapply handleNewTunnel_silent|].
  parts H; try first [by apply silent_nil|by apply silent_emit].
  match goal with H : routeControlMessage _ _ _ _ _ _ _ _ = _ |- _ => apply routeControlMessage_sender in H end.
  apply silent_app; by apply silent_emit.
Qed.

Lemma forward_silent s s' d e2 : silent s (s', e2) -> silent s (s', forwardToTUN s d ++ e2).
Proof.
  intros H. apply silent_app; [|done]. split; [apply H|]. intros _ ??. cbn. unfold forwardToTUN.
  case_match; [apply not_elem_of_nil|]. by intros ?%list_elem_of_singleton.
Qed.

Lemma handleDataMessage_silent now r s hdr payload x : handleDataMessage md5 now r s hdr payload = Ok x -> silent s x.
Proof.
  unfold handleDataMessage. intros H. parts H; try by apply silent_nil.
  destruct o; [apply forward_silent|]; by apply silent_emit.
Qed.

Lemma HandlePacket_silent now r s data addr x : HandlePacket md5 now r s data addr = Ok x -> silent s x.
Proof.
  unfold HandlePacket. intros H. parts H; [by eapply handleControlMessage_silent|by eapply handleDataMessage_silent|by apply silent_nil].
Qed.

Lemma tick_silent f s l x : tick f s l = Ok x -> silent s x.
Proof. unfold tick. intros H. parts H; [by apply silent_emit|by apply silent_nil]. Qed.

Lemma closeTunnels_silent now ls s x : closeTunnels now s ls = Ok x -> silent s x.
Proof.
  revert s x. induction ls as [|l ls IH]; intros s x H; cbn in H; parts H; [by apply silent_nil|].
  match goal with H : releaseAll _ _ = _ |- _ => apply releaseAll_sender in H; cbn in H end.
  match goal with H : closeTunnels _ _ _ = _ |- _ => apply IH in H as [Hs Hn] end. cbn in *.
  apply silent_app; [apply silent_emit; congruence|]. split; cbn; [congruence|]. intros E. apply Hn. congruence.
Qed.

Lemma Close_silent now s x : Close now s = Ok x -> silent s x.
Proof. unfold Close. intros H. parts H. match goal with H : closeTunnels _ _ _ = _ |- _ => apply closeTunnels_silent in H; exact H end. Qed.

(** The tickers and the end write nothing to the TUN device. *)
Lemma tick_no_tun f s l s' evs d : tick f s l = Ok (s', evs) -> TunWrite d ∉ evs.
Proof. unfold tick. intros H. parts H; [apply emit_no_tun|apply not_elem_of_nil]. Qed.

Lemma closeTunnels_no_tun now ls s s' evs d : closeTunnels now s ls = Ok (s', evs) -> TunWrite d ∉ evs.
Proof.
  revert s s' evs. induction ls as [|l ls IH]; intros s s' evs H; cbn in H; parts H; [apply not_elem_of_nil|].
  rewrite elem_of_app. intros [Hi|Hi]; [by apply emit_no_tun in Hi|]. by eapply IH.
Qed.

Lemma Close_no_tun now s s' evs d : Close now s = Ok (s', evs) -> TunWrite d ∉ evs.
Proof. unfold Close. intros H. parts H. by eapply closeTunnels_no_tun. Qed.

End silent.


Section config.
Context (ParseIP : string -> bytes) (ReadFile : string -> res bytes) (UnmarshalProfile : bytes -> res Profile.L2TPProfile).

(** The configuration of the L2TP server of a daemon, if it has one. *)
Definition l2tp_of (cfg : Config) (path : string) (tun : bool) : option L2TPConfig :=
  match l2tp_config ParseIP ReadFile UnmarshalProfile cfg path tun with Ok c => Some c | _ => None end.

(** When that configuration is one the theorems about L2TP are about: the name of the host is
    short enough for a CHAP packet, and the name servers are addresses of IPv4. *)
Lemma l2tp_of_good cfg path tun c :
  (forall s, bytes_wf (ParseIP s)) -> Z.of_nat (String.length (Hostname (Cfg.Server cfg))) < 65515 ->
  (forall s, s ∈ "1.1.1.1"%string :: "1.0.0.1"%string :: L2TP_DNS (L2TP_IPAM (Cfg.L2TP cfg)) -> ParseIP s <> [] -> Ipcp.good_ip (ParseIP s)) ->
  l2tp_of cfg path tun = Some c -> Server.good_config c.
Proof.
  intros Hwf Hn Hd H. unfold l2tp_of, l2tp_config in H. destruct (Pool.NewPool ParseIP _) as [p|?|] eqn:Ep; [|done..]. injection H as <-.
  destruct (Pool.NewPool_ok ParseIP _ p Hwf Ep) as (Hp & Ha & Hu & _).
  assert (forall k dflt, dflt ∈ ["1.1.1.1"%string; "1.0.0.1"%string] ->
    let ip := match L2TP_DNS (L2TP_IPAM (Cfg.L2TP cfg)) !! k with Some text => match ParseIP text with [] => ParseIP dflt | ip => ip end | None => ParseIP dflt end in
    ip <> [] -> Ipcp.good_ip ip) as Hdns.
  { intros k dflt Hk. cbv zeta. assert (dflt ∈ "1.1.1.1"%string :: "1.0.0.1"%string :: L2TP_DNS (L2TP_IPAM (Cfg.L2TP cfg))) as Hin by set_solver.
    destruct (_ !! k) as [text|] eqn:Ek; [|by apply Hd]. destruct (ParseIP text) as [|b ip] eqn:Et; [by apply Hd|]. intros _. rewrite <- Et.
    apply Hd; [|by rewrite Et]. apply list_elem_of_lookup_2 in Ek. set_solver. }
  constructor; cbn.
  - unfold Session.good_name, len, bytes_of_string. rewrite length_fmap.
    by replace (length (String.list_ascii_of_string (Hostname (Cfg.Server cfg)))) with (String.length (Hostname (Cfg.Server cfg)))
      by (generalize (Hostname (Cfg.Server cfg)); intros h; induction h; cbn; congruence).
  - apply Hdns. by left.
  - apply Hdns. right. by left.
  - by apply Pools.ipam_fresh.
Qed.

End config.

(** ** Runs of the daemon *)

Section runs.
Context {C : Cipher.Crypto} {D : Digests} {E : ECDH} {L : Eap.Legacy} {O : MapOrder} {CO : ConnOrder}.
Context (md5 : bytes -> bytes) (rg : nat -> nat -> nat -> range) (tries : nat).
Context (ParseIP : string -> bytes) (IPString : bytes -> string).
Context (ReadFile : string -> res bytes) (UnmarshalProfile : bytes -> res Profile.L2TPProfile).

(** A datagram in the buffer of a listener; those above 52000 bytes, which the proofs about
    L2TP leave out, are left out here. *)
Definition input_ok (i : input) : Prop :=
  match i with
  | Udp _ _ _ _ buf n _ => bytes_wf buf /\ 0 <= n <= len buf /\ n <= 52000
  | _ => True
  end.

Section step.
Context (h1 : Main1.IKEv1Handler) (h2 : Init.IKEv2Handler).

Definition step (d d' : Daemon) : Prop := exists i outs, input_ok i /\ handle md5 rg tries h1 h2 d i = (d', Ok outs).

(** The login a session rests on, in the run that led to the state of the L2TP server. *)
Definition logged_in (c : L2TPConfig) (s : L2TPServer) (data : bytes) (packet : bytes) : Prop :=
  exists log l sid se ch, star (Server.server_step md5) (Server.NewServer c, Server.no_logins) (s, log) /\
    Server.carries s data l sid se packet /\ Session.chapHandler se = Some ch /\ log (l, sid, Chap.challenge ch, Session.username se).

(** A daemon whose engine has no SA; [c] is the configuration of its L2TP server. *)
Record idle (c : option L2TPConfig) (w : Engine.world) (d : Daemon) : Prop := {
  id_engine : espEngine d = w;
  id_ike : IServer.server_ok (IServer.sv_sessions (ikeServer d));
  id_l2tp : match l2tpServer d with
            | None => True
            | Some s => Server.sender s = false /\ exists cfg, c = Some cfg /\ Server.good_config cfg /\
                exists log, star (Server.server_step md5) (Server.NewServer cfg, Server.no_logins) (s, log)
            end
}.

Definition no_SA (w : Engine.world) : Prop :=
  (forall spi, SADB.LookupBySPI (Engine.saDB (Engine.eng w)) spi = None) /\ Engine.spd (Engine.eng w) = ∅ /\ Engine.defaultOutSA (Engine.eng w) = None.

(** Where what leaves the process comes from. *)
Definition accounted (c : option L2TPConfig) (d : Daemon) (i : input) (o : output) : Prop :=
  match o with
  | Datagram port data to => exists x now r buf n from, i = Udp port x now r buf n from /\ to = Some from /\
      (port = Listen.PortIKE \/ port = Listen.PortNATT /\ exists answer, data = make 4 ++ answer)
  | ToTUN packet => exists x now r buf n from s cfg, i = Udp Listen.PortL2TP x now r buf n from /\ l2tpServer d = Some s /\ c = Some cfg /\
      logged_in cfg s (sub buf 0 n) packet
  end.

Lemma with_engine_id d : with_engine d (espEngine d) = d.
Proof. by destruct d as [[[]]]. Qed.

Lemma idle_inbound w buf n from w' evs : no_SA w -> Engine.HandleInboundESP w buf n from = (w', Ok evs) -> w' = w /\ evs = [].
Proof.
  intros [Hdb _]. unfold Engine.HandleInboundESP. destruct (_ <? _); [by intros [= <- <-]|].
  destruct (_ ≫= _) as [[[] ?]|?|]; try by intros [= <- <-]. destruct (Esp.ParseHeader _) as [hdr|?|]; try by intros [= <- <-].
  rewrite Hdb. by intros [= <- <-].
Qed.

Lemma idle_outbound w rnd rd w' evs : no_SA w -> Engine.outboundStep w rnd rd = (w', Ok evs) -> w' = w /\ evs = [].
Proof.
  intros (_ & Hs & Hd). unfold Engine.outboundStep. destruct rd as [packet|?|]; try by intros [= <- <-]. destruct (_ =? _); [by intros [= <- <-]|].
  destruct (_ ≫= _) as [[nh dst]|?|]; try by intros [= <- <-].
  assert (Engine.selectOutbound (Engine.eng w) dst = None) as ->; [|by intros [= <- <-]].
  unfold Engine.selectOutbound. rewrite Hs, Hd. destruct dst; [|done]. by rewrite lookup_empty.
Qed.

Lemma effect_esp pd r m m' : IServer.effect rg h2 pd r m m' -> esp m' = esp m.
Proof. by intros [->|l sess _ _ ->|l sess _ _ ->|msg l sess sess' _ _ _ _ _ _ _ ->]. Qed.

Lemma ike_call_ok c w d x buf n from natt d' outs :
  idle c w d -> ike_call rg tries h1 h2 d x buf n from natt = (d', Ok outs) ->
  idle c w d' /\ forall o, o ∈ outs -> exists answer, o = Datagram (if natt then 4500 else 500) (if natt then make 4 ++ answer else answer) (Some from).
Proof.
  intros [Hw Hi Hl] H. unfold ike_call in H. pose proof (IServer.HandlePacket_effect rg tries h1 h2 x buf n (Some from) natt (ikeServer d) Hi) as [He Hs].
  destruct (IServer.HandlePacket _ _ _ _ _ _ _ _ _ _) as [s' [[]|?|]]; [|done..]. injection H as <- <-. cbn [fst] in *. split.
  - constructor; [|by eapply IServer.effect_ok|done]. unfold espEngine in *. cbn. by erewrite effect_esp.
  - intros o. unfold ike_outputs. destruct Hs as [->|(_ & data & ->)]; [rewrite drop_all; by intros ?%not_elem_of_nil|].
    rewrite drop_app_length. cbn. rewrite app_nil_r. unfold send. destruct (Listen.find_port _ _); [|by intros ?%not_elem_of_nil].
    intros ->%list_elem_of_singleton. exists data. by destruct natt.
Qed.

Lemma with_l2tp_idle c w d (s s' : L2TPServer) log cfg :
  idle c w d -> c = Some cfg -> Server.good_config cfg -> Server.sender s = false -> Server.sender s' = Server.sender s ->
  star (Server.server_step md5) (Server.NewServer cfg, Server.no_logins) (s', log) -> idle c w (with_l2tp d s').
Proof. intros [] -> Hc Hs Hs' Hst. constructor; [done..|]. cbn. split; [congruence|]. exists cfg. split_and!; try done. by exists log. Qed.

Lemma l2tp_outputs_elem evs o : o ∈ l2tp_outputs evs -> exists p, o = ToTUN p /\ Server.TunWrite p ∈ evs.
Proof. unfold l2tp_outputs. intros ([|p] & He & [= <-])%list_elem_of_omap. by exists p. Qed.

Lemma l2tp_call_ok c w d now r data from d' outs :
  idle c w d -> bytes_wf data -> len data <= 52000 -> l2tp_call md5 d now r data from = (d', Ok outs) ->
  idle c w d' /\ forall o, o ∈ outs -> exists p s cfg, o = ToTUN p /\ l2tpServer d = Some s /\ c = Some cfg /\ logged_in cfg s data p.
Proof.
  intros Hd Hwf Hlen H. unfold l2tp_call in H. pose proof (id_l2tp _ _ _ Hd) as Hl.
  destruct (l2tpServer d) as [s|]; [|injection H as <- <-; split; [done|]; by intros o ?%not_elem_of_nil].
  destruct Hl as (Hsend & cfg & Hc & Hg & log & Hst). unfold l2tp_result in H.
  destruct (Server.HandlePacket md5 now r s data from) as [[s' evs]|?|] eqn:Eh; [|done..]. injection H as <- <-. split.
  - eapply with_l2tp_idle; try done; [by apply HandlePacket_silent in Eh as [? _]|].
    eapply star_snoc; [exact Hst|]. by eapply Server.step_packet.
  - intros o (p & -> & Hp)%l2tp_outputs_elem. exists p, s, cfg. split_and!; try done.
    pose proof (Server.reached_ok md5 cfg _ Hg Hst) as [[held Hs] Hlog]. cbn in *.
    pose proof (Server.HandlePacket_spec md5 now r s held data from Hs Hwf Hlen) as Hsp. rewrite Eh in Hsp. destruct Hsp as [_ Ht].
    destruct (Ht p Hp) as (l & sid & se & Hcar). pose proof Hcar as (payload & (hdr & _ & _ & _ & _ & Hat) & _ & Hph & _).
    destruct (Hlog l sid se Hat) as (ch & H1 & H2); [by rewrite Hph|]. by exists log, l, sid, se, ch.
Qed.

(** What the tickers and the end do to a server. *)
Lemma l2tp_result_ok c w d s x d' outs :
  idle c w d -> l2tpServer d = Some s -> l2tp_result d x = (d', Ok outs) ->
  (forall s' evs, x = Ok (s', evs) -> silent s (s', evs) /\ (forall log, Server.server_step md5 (s, log) (s', log)) /\ forall p, Server.TunWrite p ∉ evs) ->
  idle c w d' /\ outs = [].
Proof.
  intros Hd Es H Hx. unfold l2tp_result in H. destruct x as [[s' evs]|?|]; [|done..]. injection H as <- <-.
  destruct (Hx s' evs eq_refl) as ([Hs _] & Hstep & Hno). pose proof (id_l2tp _ _ _ Hd) as Hl. rewrite Es in Hl.
  destruct Hl as (Hsend & cfg & Hc & Hg & log & Hst). split.
  - eapply with_l2tp_idle; try done. eapply star_snoc; [exact Hst|]. apply Hstep.
  - destruct (l2tp_outputs evs) as [|o os] eqn:Eo; [done|]. exfalso. destruct (l2tp_outputs_elem evs o) as (p & _ & Hp); [rewrite Eo; by left|].
    by apply (Hno p).
Qed.

Lemma esp_call_idle c w d now r x d' outs :
  idle c w d -> (forall w' evs, x = (w', Ok evs) -> w' = w /\ evs = []) -> esp_call md5 d now r x = (d', Ok outs) -> idle c w d' /\ outs = [].
Proof.
  intros Hd Hx H. unfold esp_call in H. destruct x as [w' [evs|?|]]; [|done..]. destruct (Hx w' evs eq_refl) as [-> ->].
  cbn [fst snd] in H. rewrite <- (id_engine _ _ _ Hd), with_engine_id in H. cbn in H. by injection H as <- <-.
Qed.

Lemma sub_wf (buf : bytes) n : bytes_wf buf -> 0 <= n <= len buf -> n <= 52000 -> bytes_wf (sub buf 0 n) /\ len (sub buf 0 n) <= 52000.
Proof. intros Hwf Hn Hl. split; [by apply Forall_sub|]. rewrite len_sub; lia. Qed.

Lemma handle_ok c w d i d' outs :
  no_SA w -> idle c w d -> input_ok i -> handle md5 rg tries h1 h2 d i = (d', Ok outs) ->
  idle c w d' /\ forall o, o ∈ outs -> accounted c d i o.
Proof.
  intros Hw Hd Hi H.
  assert (forall P, P /\ outs = [] -> P /\ forall o, o ∈ outs -> accounted c d i o) as Hnil by (intros P [HP ->]; split; [done|]; by intros o ?%not_elem_of_nil).
  destruct i as [port x now r buf n from|now r rnd rd|now l|now l|now]; cbn [handle] in H.
  - destruct Hi as (Hwf & Hn & Hlen). destruct (sub_wf buf n Hwf Hn Hlen) as [Hwf' Hlen'].
    destruct (Z.eqb_spec port Listen.PortNATT) as [->|_]; [|destruct (Z.eqb_spec port Listen.PortIKE) as [->|_]; [|destruct (Z.eqb_spec port Listen.PortL2TP) as [->|_]]].
    + unfold on_natt in H. destruct (_ ≫= _) as [[[] payload]|?|]; [| | |by apply Hnil; injection H as <- <-|done].
      * apply Hnil. eapply esp_call_idle; [exact Hd| |exact H]. intros w' evs Ex. rewrite (id_engine _ _ _ Hd) in Ex. by eapply idle_inbound.
      * eapply ike_call_ok in H as [H1 H2]; [|exact Hd]. split; [done|]. intros o Ho. destruct (H2 o Ho) as [answer ->].
        exists x, now, r, buf, n, from. split_and!; [done..|]. right. split; [done|]. by exists answer.
      * apply Hnil. eapply esp_call_idle; [exact Hd| |exact H]. intros w' evs Ex. rewrite (id_engine _ _ _ Hd) in Ex. by eapply idle_inbound.
    + eapply ike_call_ok in H as [H1 H2]; [|exact Hd]. split; [done|]. intros o Ho. destruct (H2 o Ho) as [answer ->].
      exists x, now, r, buf, n, from. split_and!; [done..|]. by left.
    + unfold on_l2tp in H. destruct (l2tpServer d) eqn:El; [|by apply Hnil; injection H as <- <-]. rewrite slice_ok in H by lia.
      eapply l2tp_call_ok in H as [H1 H2]; [|exact Hd|done|done]. split; [done|]. intros o Ho. destruct (H2 o Ho) as (p & s1 & cfg & -> & ? & ? & ?).
      exists x, now, r, buf, n, from, s1, cfg. split_and!; congruence || done.
    + by apply Hnil; injection H as <- <-.
  - apply Hnil. eapply esp_call_idle; [exact Hd| |exact H]. intros w' evs Ex. rewrite (id_engine _ _ _ Hd) in Ex. by eapply idle_outbound.
  - apply Hnil. destruct (l2tpServer d) as [s|] eqn:El; [|by injection H as <- <-]. eapply l2tp_result_ok; [exact Hd|exact El|exact H|].
    intros s' evs Et. split_and!; [by eapply tick_silent|intros log; by eapply Server.step_retransmit|by intros p; eapply tick_no_tun].
  - apply Hnil. destruct (l2tpServer d) as [s|] eqn:El; [|by injection H as <- <-]. eapply l2tp_result_ok; [exact Hd|exact El|exact H|].
    intros s' evs Et. split_and!; [by eapply tick_silent|intros log; by eapply Server.step_hello|by intros p; eapply tick_no_tun].
  - apply Hnil. destruct (l2tpServer d) as [s|] eqn:El; [|by injection H as <- <-]. eapply l2tp_result_ok; [exact Hd|exact El|exact H|].
    intros s' evs Et. split_and!; [by eapply Close_silent|intros log; by eapply Server.step_close|by intros p; eapply Close_no_tun].
Qed.

End step.

Lemma start_idle cfg path tun bound r d h1 h2 :
  start ParseIP IPString ReadFile UnmarshalProfile cfg path tun bound r = Ok (d, h1, h2) ->
  (forall c, l2tp_of ParseIP ReadFile UnmarshalProfile cfg path tun = Some c -> Server.good_config c) ->
  idle (l2tp_of ParseIP ReadFile UnmarshalProfile cfg path tun) (espEngine d) d /\ no_SA (espEngine d).
Proof.
  intros H Hg. unfold start in H. apply bind_Ok_inv in H as (engine & He & H). injection He as <-.
  destruct (ikev2Handler IPString cfg r) as [h2' r']. injection H as <- _ _. unfold initL2TPServer, l2tp_of in *.
  set (l2tp := if L2TP_Enabled _ then _ else _). split.
  - constructor; [done|apply IServer.start_ok|]. cbn [l2tpServer]. subst l2tp. destruct (L2TP_Enabled _); [|done].
    destruct (l2tp_config _ _ _ _ _ _) as [c|?|] eqn:Ec; [|done..]. cbn. split.
    + unfold l2tp_config in Ec. by apply bind_Ok_inv in Ec as (p & _ & [= <-]).
    + exists c. split; [done|]. split; [by apply Hg|]. exists Server.no_logins. eapply star_snoc; [apply star_refl|]. apply Server.step_start.
  - unfold no_SA, espEngine. cbn. destruct l2tp; split_and!; try done; intros spi; apply lookup_empty.
Qed.

(** C7: what leaves the daemon.  In every run from the start, whatever arrives on its ports and from
    the TUN device: every datagram it sends is an answer of the IKE server, on the port the packet
    came in on and to its sender; every packet it writes to the TUN device came in clear on the
    port of L2TP, in a session whose user has logged in; and the ESP engine stays as it was when
    the daemon started, without a single SA.  So no packet is ever sent or received through
    ESP, whatever IKE has negotiated. *)
Theorem daemon_never_tunnels cfg path tun bound r d0 h1 h2 d i d' outs :
  start ParseIP IPString ReadFile UnmarshalProfile cfg path tun bound r = Ok (d0, h1, h2) ->
  (forall c, l2tp_of ParseIP ReadFile UnmarshalProfile cfg path tun = Some c -> Server.good_config c) ->
  star (step h1 h2) d0 d -> input_ok i -> handle md5 rg tries h1 h2 d i = (d', Ok outs) ->
  espEngine d' = espEngine d0 /\ (forall spi, SADB.LookupBySPI (Engine.saDB (Engine.eng (espEngine d'))) spi = None) /\
  forall o, o ∈ outs -> accounted (l2tp_of ParseIP ReadFile UnmarshalProfile cfg path tun) d i o.
Proof.
  intros Hs Hg Hr Hi H. destruct (start_idle _ _ _ _ _ _ _ _ Hs Hg) as [H0 Hno].
  assert (idle (l2tp_of ParseIP ReadFile UnmarshalProfile cfg path tun) (espEngine d0) d) as Hd.
  { eapply (star_invariant (step h1 h2) (idle _ (espEngine d0))); [|exact H0|exact Hr]. intros d1 d2 Hd1 (j & os & Hj & Hh). by eapply handle_ok. }
  eapply handle_ok in H as [Hd' Ho]; [|exact Hno|exact Hd|exact Hi]. rewrite (id_engine _ _ _ Hd'). split_and!; [done|apply Hno|exact Ho].
Qed.

(** C26: nobody can log in over L2TP.  The L2TP server of the daemon is made without a sender: in
    every run, no message it receives and no tick makes it answer, so no peer ever learns the
    tunnel it is given or the challenge it must meet. *)
Theorem daemon_l2tp_silent cfg path tun bound r d0 h1 h2 d s :
  start ParseIP IPString ReadFile UnmarshalProfile cfg path tun bound r = Ok (d0, h1, h2) ->
  (forall c, l2tp_of ParseIP ReadFile UnmarshalProfile cfg path tun = Some c -> Server.good_config c) ->
  star (step h1 h2) d0 d -> l2tpServer d = Some s ->
  (forall now r data from s' evs msg to, Server.HandlePacket md5 now r s data from = Ok (s', evs) -> Server.Sent msg to ∉ evs) /\
  (forall f l s' evs msg to, Server.tick f s l = Ok (s', evs) -> Server.Sent msg to ∉ evs).
Proof.
  intros Hs Hg Hr Hd. destruct (start_idle _ _ _ _ _ _ _ _ Hs Hg) as [H0 Hno].
  assert (idle (l2tp_of ParseIP ReadFile UnmarshalProfile cfg path tun) (espEngine d0) d) as Hi.
  { eapply (star_invariant (step h1 h2) (idle _ (espEngine d0))); [|exact H0|exact Hr]. intros d1 d2 Hd1 (j & os & Hj & Hh). by eapply handle_ok. }
  pose proof (id_l2tp _ _ _ Hi) as Hl. rewrite Hd in Hl. destruct Hl as [Hsend _]. split.
  - intros * Hh. apply HandlePacket_silent in Hh as [_ Hn]. by apply Hn.
  - intros * Hh. apply tick_silent in Hh as [_ Hn]. by apply Hn.
Qed.

End runs.

(** ** A run: a request of IKE_SA_INIT is answered *)

Import EspCipher.Cipher.Toy.

Section demo.
Existing Instance Eap.toy_legacy.

#[local] Instance forward : ConnOrder := {| conn_order := map_to_list; conn_order_perm m := reflexivity (map_to_list m) |}.
#[local] Instance backward : ConnOrder := {| conn_order m := reverse (map_to_list m); conn_order_perm m := reverse_Permutation (map_to_list m) |}.

(** Two connections for anyone. *)
Definition demo_cfg : Config :=
  mkConfig (mkServerCfg "gw" "0.0.0.0") (mkLogging "" "" "" 0 0 0 false) (mkTUN "" 0)
    (mkIPSec {["home" := Some (demo_conn "%any" "%any" "secret" "one"); "work" := Some (demo_conn "%any" "%any" "secret" "two")]} [] false)
    (mkIKEv2 true "auto" (mkIPAM "" []) [] false) (mkL2TP true (mkL2TPIPAM "10.0.0.1" "10.0.0.10 - 10.0.0.13" []) [] false).

Definition demo_IPString (ip : bytes) : string := "?".

Lemma demo_usable : all_usable (Config_Connections demo_cfg).
Proof.
  intros name c H. assert (Forall (fun e => exists conn, e.2 = Some conn /\ usable conn) (map_to_list (Config_Connections demo_cfg))) as Hf.
  { vm_compute. repeat constructor; eexists; (split; [done|]); unfold usable; cbn; naive_solver. }
  rewrite Forall_forall in Hf. by apply (Hf (name, c)), elem_of_map_to_list.
Qed.

(** With two connections that match, which secret is used depends on the order the runtime
    happens to visit the map in. *)
Example psk_depends_on_order addr :
  v2PSKFunc demo_IPString (O := forward) demo_cfg addr [] <> v2PSKFunc demo_IPString (O := backward) demo_cfg addr [].
Proof. vm_compute. discriminate. Qed.

Lemma psk_isolated_witness :
  answers demo_cfg (meant_v2 demo_IPString Init.demo_peer []) (v2PSKFunc demo_IPString (O := forward) demo_cfg Init.demo_peer []).
Proof. exact (proj2 (psk_isolated demo_IPString (O := forward) demo_cfg Init.demo_peer [] demo_usable)). Defined.

Definition demo_bound (port : Z) : res (nat * Z) := Ok (Z.to_nat port, port).
Definition demo_noread (path : string) : res bytes := Err "no such file".
Definition demo_noparse (data : bytes) : res Profile.L2TPProfile := Err "not parsed".

Definition demo_begin := start Pool.demo_parse demo_IPString demo_noread demo_noparse (CO := forward) demo_cfg "/etc/swan/config.yaml" true demo_bound demo_rng.
Definition demo_idle : Daemon := mkDaemon IServer.demo_start None Listen.NewManager.
Definition demo_h1 := ikev1Handler demo_IPString (O := forward) demo_cfg.
Definition demo_h2 := (ikev2Handler demo_IPString (O := forward) demo_cfg demo_rng).1.
Definition demo_d0 : Daemon := match demo_begin with Ok (d, _, _) => d | _ => demo_idle end.

Lemma demo_started : demo_begin = Ok (demo_d0, demo_h1, demo_h2).
Proof. reflexivity. Qed.

Definition demo_request : bytes := IServer.wire Init.demo_request.
Definition demo_input : input := Udp 500 (PrivKey [3]) 0 demo_rng demo_request (len demo_request) Init.demo_peer.
Definition demo_result := handle Chap.toy_md5 (fun _ _ _ => map_range) 1 demo_h1 demo_h2 demo_d0 demo_input.

Lemma demo_daemon_answered : match demo_result.2 with Ok [Datagram port _ to] => bool_decide (port = 500 /\ to = Some Init.demo_peer) | _ => false end = true.
Proof. vm_compute. reflexivity. Qed.

Lemma demo_daemon_good c : l2tp_of Pool.demo_parse demo_noread demo_noparse demo_cfg "/etc/swan/config.yaml" true = Some c -> Server.good_config c.
Proof.
  apply l2tp_of_good; [apply Pool.demo_parse_wf|done|]. intros s [->|[->|H]%elem_of_cons]%elem_of_cons H'; [done|done|]. by apply not_elem_of_nil in H.
Qed.

Lemma demo_request_fits : bool_decide (bytes_wf demo_request) && (len demo_request <=? 52000) = true.
Proof. vm_compute. reflexivity. Qed.

Lemma demo_input_ok : input_ok demo_input.
Proof.
  pose proof demo_request_fits as [H1 H2]%andb_prop. apply bool_decide_eq_true in H1. pose proof (len_nonneg demo_request).
  unfold input_ok, demo_input. split; [exact H1|]. lia.
Qed.

Lemma daemon_never_tunnels_witness :
  exists d' data, demo_result = (d', Ok [Datagram 500 data (Some Init.demo_peer)]) /\
    (forall spi, SADB.LookupBySPI (Engine.saDB (Engine.eng (espEngine d'))) spi = None).
Proof.
  pose proof demo_daemon_answered as Ha. destruct demo_result as [d' [[|[port data to|] [|]]| |]] eqn:E; try discriminate Ha.
  apply bool_decide_eq_true in Ha as [-> ->].
  exists d', data. split; [reflexivity|].
  unfold demo_result in E. exact (proj1 (proj2 (daemon_never_tunnels Chap.toy_md5 (fun _ _ _ => map_range) 1 Pool.demo_parse demo_IPString demo_noread demo_noparse demo_cfg "/etc/swan/config.yaml"
    true demo_bound demo_rng demo_d0 demo_h1 demo_h2 demo_d0 demo_input d' [Datagram 500 data (Some Init.demo_peer)] demo_started demo_daemon_good (star_refl _ _) demo_input_ok E))).
Defined.

Lemma daemon_l2tp_silent_witness :
  exists s, l2tpServer demo_d0 = Some s /\ forall now r data from s' evs msg to,
    Server.HandlePacket Chap.toy_md5 now r s data from = Ok (s', evs) -> Server.Sent msg to ∉ evs.
Proof.
  eexists. split; [reflexivity|].
  exact (proj1 (daemon_l2tp_silent Chap.toy_md5 (fun _ _ _ => map_range) 1 Pool.demo_parse demo_IPString demo_noread demo_noparse demo_cfg "/etc/swan/config.yaml"
    true demo_bound demo_rng demo_d0 demo_h1 demo_h2 demo_d0 _ demo_started demo_daemon_good (star_refl _ _) eq_refl)).
Defined.

End demo.

End Proc.
