(* ===== verification/Commands.v ===== *)
(** * Commands: the commands that make users ([cmd/swan-ng/ikev2.go], [l2tp.go], [main.go])

    What is typed is an argument: the line of the validity period, the two passwords as the
    terminal delivers them.  What is printed is left out.  The encoder and the decoder of
    YAML are parameters, with the law that a profile reads back. *)

From Stdlib Require Import Ascii.
From S2P Require Import Prelude Rand Exch Filepath Config L2tpChap L2tpProfile IkeCrypto Files Dates Certman Export.
From S2P Require Import IkeManager Daemon.

#[local] Open Scope string_scope.

Module Command.

Import Files.Disk Certman.Cert Export.Profile.

#[local] Opaque Dates.Time.AddDate.

(** ** The validity period *)

Definition is_space (c : ascii) : bool := let n := nat_of_ascii c in Nat.eqb n 32 || (Nat.leb 9 n && Nat.leb n 13).

Fixpoint TrimLeft (s : string) : string :=
  match s with String c s' => if is_space c then TrimLeft s' else s | EmptyString => "" end.

Fixpoint TrimRight (s : string) : string :=
  match s with
  | EmptyString => ""
  | String c s => match TrimRight s with EmptyString => if is_space c then "" else String c "" | s => String c s end
  end.

(** [strings.TrimSpace], of ASCII. *)
Definition TrimSpace (s : string) : string := TrimRight (TrimLeft s).

Definition decimal (c : ascii) : option Z :=
  let n := nat_of_ascii c in if Nat.leb 48 n && Nat.leb n 57 then Some (Z.of_nat n - 48) else None.

Fixpoint digits (acc : Z) (s : string) : option Z :=
  match s with
  | EmptyString => Some acc
  | String c s => d ← decimal c; digits (10 * acc + d)%Z s
  end.

(** [strconv.Atoi]: an optional sign, one digit at least, and a number of 64 bits. *)
Definition Atoi (s : string) : option Z :=
  let '(neg, s) := match s with
    | String c s' => if Ascii.eqb c "-" then (true, s') else if Ascii.eqb c "+" then (false, s') else (false, s)
    | EmptyString => (false, s)
    end in
  if s =? "" then None
  else
    n ← digits 0 s;
    let n := if neg then (- n)%Z else n in
    if ((- 2 ^ 63 <=? n) && (n <? 2 ^ 63))%Z then Some n else None.

(** [promptCertValidity]: the line typed, with its end, or what there was before the input ended. *)
Definition promptCertValidity (input : string) : Z :=
  let input := TrimSpace input in
  if input =? "" then 120
  else match Atoi input with
       | Some months => if (months <=? 0)%Z then 120 else months
       | None => 120
       end.

Example validity :
  promptCertValidity (" 24" ++ String newline "") = 24 /\ promptCertValidity "" = 120 /\ promptCertValidity "-3" = 120 /\
  promptCertValidity "+6" = 6 /\ promptCertValidity "1e3" = 120 /\ promptCertValidity "99999999999999999999" = 120 /\ promptCertValidity "007" = 7.
Proof. vm_compute. by split_and!. Qed.

(** ** User profiles *)

Record ikev2ProfileData := mkIKEv2Profile { Username : string; Certificate : string; Key : string; ValidityMonths : Z }.
Record l2tpProfileData := mkL2TPProfile { L2TP_Username : string; L2TP_Password : string }.

Class YAML := {
  Marshal_ikev2 : ikev2ProfileData -> res bytes;
  Marshal_l2tp : l2tpProfileData -> res bytes;
  Unmarshal_l2tp : bytes -> res L2tpProfile.Profile.L2TPProfile
}.

(** What is encoded is decoded. *)
Class YAMLLaws (Y : YAML) := {
  l2tp_reads_back p b : Marshal_l2tp p = Ok b ->
    Unmarshal_l2tp b = Ok (L2tpProfile.Profile.mkProfile (bytes_of_string (L2TP_Username p)) (bytes_of_string (L2TP_Password p)))
}.

Section commands.
Context {X : X509} {P : PEM} {E : ExportLib} {Y : YAML} {CO : Cfg.ConnOrder}.
Context (ParseIP : string -> bytes).

Definition writeIKEv2Profile (path username : string) (validityMonths : Z) (certPath keyPath : string) : exch state unit :=
  data ← lift (Marshal_ikev2 (mkIKEv2Profile username certPath keyPath validityMonths));
  WriteFile path data 420.

Definition writeL2TPProfile (path username password : string) : exch state unit :=
  data ← lift (Marshal_l2tp (mkL2TPProfile username password));
  WriteFile path data 384.

Definition certs_dir (configPath : string) : string := Join (Dir configPath) "certs".
Definition profile_dir (configPath : string) : string := Join (Dir configPath) "profile.d".
Definition profile_path (configPath kind username ext : string) : string := Join (profile_dir configPath) (kind ++ username ++ ext).

(** ** swan-ng ikev2 add-user *)

(** What follows the certificate of the client: the exports and the profile. *)
Definition export_user (configPath username hostname : string) (validityMonths : Z) (clientCertPath clientKeyPath : string) : exch state unit :=
  _ ← MkdirAll (profile_dir configPath);
  let caCertPath := Join (certs_dir configPath) "ca.crt" in
  let p12Password := username in
  let p12Path := profile_path configPath "ikev2-" username ".p12" in
  _ ← ExportP12 clientCertPath clientKeyPath caCertPath p12Path p12Password;
  _ ← ExportMobileconfig username hostname caCertPath p12Path p12Password (profile_path configPath "ikev2-" username ".mobileconfig");
  _ ← ExportSSwan username hostname caCertPath p12Path (profile_path configPath "ikev2-" username ".sswan");
  writeIKEv2Profile (profile_path configPath "ikev2-" username ".yaml") username validityMonths clientCertPath clientKeyPath.

(** The three certificates are made at three readings of the clock. *)
Definition ikev2AddUser (cfg : Cfg.Config) (configPath username input : string) (now : nat -> Z) : exch state unit :=
  let hostname := Cfg.Hostname (Cfg.Server cfg) in
  if hostname =? "" then fail "server.hostname must be configured in config.yaml"
  else
    let certsDir := certs_dir configPath in
    ca ← InitCA (now 0%nat) certsDir;
    _ ← InitServerCert ParseIP (now 1%nat) certsDir hostname ca.1 ca.2;
    let validityMonths := promptCertValidity input in
    paths ← GenerateClientCert (now 2%nat) certsDir username validityMonths ca.1 ca.2;
    export_user configPath username hostname validityMonths paths.1 paths.2.

(** ** swan-ng l2tp add-user *)

(** [typed] is what [term.ReadPassword] returns. *)
Definition promptMaskedPassword (typed : res string) : res string :=
  match typed with Ok passwordBytes => Ok passwordBytes | Err _ => Err "reading masked input" | Panic => Panic end.

Lemma promptMaskedPassword_ok typed pw : promptMaskedPassword typed = Ok pw -> typed = Ok pw.
Proof. by destruct typed. Qed.

Definition l2tpAddUser (cfg : Cfg.Config) (configPath connName username : string) (password confirm : res string) : exch state unit :=
  let hostname := Cfg.Hostname (Cfg.Server cfg) in
  if hostname =? "" then fail "server.hostname must be configured in config.yaml"
  else
    conn ← lift (Proc.resolveL2TPConnection cfg connName);
    password ← lift (promptMaskedPassword password);
    if password =? "" then fail "password cannot be empty"
    else
      confirm ← lift (promptMaskedPassword confirm);
      if negb (password =? confirm) then fail "passwords do not match"
      else
        _ ← MkdirAll (profile_dir configPath);
        _ ← writeL2TPProfile (profile_path configPath "l2tp-" username ".yaml") username password;
        ExportL2TPProfile username password hostname (Cfg.PSK conn.2) (profile_path configPath "l2tp-" username ".txt").

End commands.

(** ** What other commands use ([main.go], [service.go], [version.go]) *)

(** The configuration and the path it was read from. *)
Definition loadConfig (Resolve : string -> res string) (Load : string -> res Cfg.Config) (cfgPath : string) : res (Cfg.Config * string) :=
  resolvedPath ← Resolve cfgPath;
  loaded ← Load resolvedPath;
  Ok (loaded, resolvedPath).

(** The arguments of the service that is installed. *)
Definition service_arguments (cfgPath : string) : list string := "daemon" :: (if cfgPath =? "" then [] else ["--config"; cfgPath]).

Definition version_text (version commit : string) : string :=
  "swan-ng version " ++ Cfg.or_default version "dev" ++ " (commit: " ++ Cfg.or_default commit "unknown" ++ ")".

(** ** Facts *)

Section facts.
Context {X : X509} {XL : X509Laws X} {P : PEM} {PL : PEMLaws P} {E : ExportLib} {Y : YAML} {CO : Cfg.ConnOrder}.
Context (ParseIP : string -> bytes).

Lemma certs_dir_nonempty path : certs_dir path <> "".
Proof. apply Join_nonempty, Dir_nonempty. Qed.
Lemma profile_dir_nonempty path : profile_dir path <> "".
Proof. apply Join_nonempty, Dir_nonempty. Qed.

(** The files the exports write. *)
Definition exported (configPath username : string) : list string :=
  profile_path configPath "ikev2-" username <$> [".p12"; ".mobileconfig"; ".sswan"; ".yaml"].

Lemma export_user_effect Q configPath username hostname months cp kp `{!PreOrder Q} :
  within (disk Q) (MkdirAll (profile_dir configPath)) ->
  (forall p data perm, p ∈ exported configPath username -> within (disk Q) (WriteFile p data perm)) ->
  within (disk Q) (export_user configPath username hostname months cp kp).
Proof.
  intros Hm Hw. unfold export_user, ExportP12, ExportMobileconfig, ExportSSwan, writeIKEv2Profile, write_template, ReadDER, ReadRawPEM,
    LoadCertFromPEM, LoadKeyFromPEM, new_uuid. effects; try done; apply Hw; unfold exported; cbn; set_solver.
Qed.

(** The certificates and the keys of the directory of certificates are not among them. *)
Lemma not_exported configPath username dir name e : dir <> "" -> e = ".crt" \/ e = ".key" -> Join dir (name ++ e) ∉ exported configPath username.
Proof.
  intros Hd He Hi. apply list_elem_of_fmap in Hi as (x & Hx & Hi). unfold profile_path in Hx. rewrite <- app_assoc_s in Hx.
  assert (extension x = true /\ last_char e <> last_char x /\ extension e = true) as (H1 & H2 & H3).
  { repeat (apply elem_of_cons in Hi as [->|Hi]; [by destruct He as [-> | ->]|]). by apply elem_of_nil in Hi. }
  revert Hx. by apply Join_ext_ne; [|apply profile_dir_nonempty|..].
Qed.

Lemma export_user_keeps {A} (parse : bytes -> res A) configPath username hostname months cp kp (s s' : state) r q a dir name e :
  export_user configPath username hostname months cp kp s = (s', r) -> dir <> "" -> e = ".crt" \/ e = ".key" -> q = Join dir (name ++ e) ->
  holds parse s.1 q a -> holds parse s'.1 q a.
Proof.
  intros H Hd He -> Hh.
  assert (stays (Join dir (name ++ e)) s.1 s'.1) as Hs.
  { pose proof (export_user_effect (stays (Join dir (name ++ e))) configPath username hostname months cp kp) as W.
    specialize (W (stays_MkdirAll _ _) (fun p data perm _ => stays_WriteFile _ p data perm) s). by rewrite H in W. }
  assert (others (exported configPath username) s.1 s'.1) as Ho.
  { pose proof (export_user_effect (others (exported configPath username)) configPath username hostname months cp kp) as W.
    specialize (W (others_MkdirAll _ _) (fun p data perm Hp => others_WriteFile _ p data perm Hp) s). by rewrite H in W. }
  eapply holds_same; [apply Hs, Hh| |exact Hh]. by apply Ho, not_exported.
Qed.

(** The validity period is a positive number of 64 bits, whatever is typed. *)
Lemma promptCertValidity_range input : 1 <= promptCertValidity input < 2 ^ 63.
Proof.
  unfold promptCertValidity. destruct (_ =? _); [lia|]. destruct (Atoi (TrimSpace input)) as [months|] eqn:Ea; [|lia].
  destruct (Z.leb_spec months 0); [lia|]. split; [lia|]. unfold Atoi in Ea. destruct (TrimSpace input) as [|c t]; [done|].
  destruct (if Ascii.eqb c "-" then _ else _) as [neg d]. destruct (d =? ""); [done|]. destruct (digits 0 d) as [n|]; [|done]. cbn in Ea.
  destruct (_ && _) eqn:Eb in Ea; [|done]. injection Ea as <-. apply andb_true_iff in Eb as [_ Eb]. by apply Z.ltb_lt in Eb.
Qed.

Definition authority_files (certsDir : string) : list string :=
  [ca_cert_path certsDir; ca_key_path certsDir; server_cert_path certsDir; server_key_path certsDir].

(** What comes before the certificate of the client. *)
Lemma authority_effects now now' certsDir hostname (s s1 : state) r : InitCA now certsDir s = (s1, r) ->
  (forall p, stays p s.1 s1.1) /\ others (authority_files certsDir) s.1 s1.1 /\
  forall ca caKey s2 r', InitServerCert ParseIP now' certsDir hostname ca caKey s1 = (s2, r') ->
    (forall p, stays p s1.1 s2.1) /\ others [server_cert_path certsDir; server_key_path certsDir] s1.1 s2.1.
Proof.
  intros H. split_and!.
  - intros p. pose proof (InitCA_effect (stays p) now certsDir (stays_MkdirAll _ _) (fun _ _ => stays_WriteFile _ _ _ _) (fun _ _ => stays_WriteFile _ _ _ _) s) as W.
    by rewrite H in W.
  - refine (others_more [ca_cert_path certsDir; ca_key_path certsDir] _ _ _ _ _); [|unfold authority_files; set_solver].
    pose proof (InitCA_effect (others [ca_cert_path certsDir; ca_key_path certsDir]) now certsDir (others_MkdirAll _ _)) as W.
    specialize (W ltac:(intros; apply others_WriteFile; set_solver) ltac:(intros; apply others_WriteFile; set_solver) s). by rewrite H in W.
  - intros ca caKey s2 r' H'. split.
    + intros p. pose proof (InitServerCert_effect ParseIP (stays p) now' certsDir hostname ca caKey (stays_MkdirAll _ _) (fun _ _ => stays_WriteFile _ _ _ _)
        (fun _ _ => stays_WriteFile _ _ _ _) s1) as W. by rewrite H' in W.
    + pose proof (InitServerCert_effect ParseIP (others [server_cert_path certsDir; server_key_path certsDir]) now' certsDir hostname ca caKey (others_MkdirAll _ _)) as W.
      specialize (W ltac:(intros; apply others_WriteFile; set_solver) ltac:(intros; apply others_WriteFile; set_solver) s1). by rewrite H' in W.
Qed.

(** C30: A user is made once: when the certificate of the name is there, whatever became of the run
    that made it, the command fails and writes no file but those of the authority and of the
    server; a run that failed after the certificate cannot be repeated. *)
Theorem ikev2_user_once cfg configPath username input now (s s' : state) r :
  is_file s.1 (client_cert_path (certs_dir configPath) username) = true ->
  ikev2AddUser ParseIP cfg configPath username input now s = (s', r) ->
  r <> Ok tt /\ others (authority_files (certs_dir configPath)) s.1 s'.1.
Proof.
  intros Hf H. unfold ikev2AddUser in H. destruct (_ =? ""); [by injection H as <- <-|].
  apply exch_bind_cases in H as (s1 & ra & Ea & H).
  destruct (authority_effects (now 0%nat) (now 1%nat) _ (Cfg.Hostname (Cfg.Server cfg)) _ _ _ Ea) as (Hs1 & Ho1 & Hnext).
  destruct H as [(ca & -> & H)|(_ & -> & Hr)]; [|by split].
  apply exch_bind_cases in H as (s2 & rs & Es & H). destruct (Hnext _ _ _ _ Es) as [Hs2 Ho2].
  assert (others (authority_files (certs_dir configPath)) s.1 s2.1) as Ho.
  { etrans; [exact Ho1|]. eapply others_more; [exact Ho2|]. unfold authority_files. set_solver. }
  destruct H as [(x & -> & H)|(_ & -> & Hr)]; [|by split]. cbv zeta in H. apply exch_bind_cases in H as (s3 & rp & Ec & H).
  rewrite GenerateClientCert_exists in Ec by by apply Hs2, Hs1. injection Ec as <- <-.
  destruct H as [(x' & H' & _)|(_ & -> & Hr)]; [discriminate H'|by split].
Qed.


End facts.

Section l2tp_facts.
Context {Y : YAML} {YL : YAMLLaws Y} {CO : Cfg.ConnOrder}.

(** The files as the daemon reads them. *)
Definition read_disk (s : state) (path : string) : res bytes := (ReadFile path s).2.

Lemma profile_path_ne configPath kind u e e' : extension e = true -> extension e' = true -> last_char e <> last_char e' ->
  profile_path configPath kind u e <> profile_path configPath kind u e'.
Proof. unfold profile_path. rewrite <- !app_assoc_s. apply Join_ext_ne; apply profile_dir_nonempty. Qed.

Lemma string_nonempty (u : string) : u <> "" -> bytes_of_string u <> [].
Proof. by destruct u. Qed.

Lemma export_l2tp_effects username password hostname psk path (s : state) :
  (forall p, stays p s.1 (ExportL2TPProfile username password hostname psk path s).1.1) /\
  others [path] s.1 (ExportL2TPProfile username password hostname psk path s).1.1.
Proof.
  split; [intros p; refine ((_ : within (disk (stays p)) _) s)|refine ((_ : within (disk (others [path])) _) s)];
    unfold ExportL2TPProfile, write_template; effects.
Qed.

(** C22: A user of L2TP that was made: the two passwords typed were the same and not empty, no file
    is written but the profile and the text, and the daemon that loads the profile, whatever it
    loaded before, finds the password for the user. *)
Theorem l2tp_user_logs_in cfg configPath connName username password confirm (s s' : state) :
  username <> "" -> l2tpAddUser cfg configPath connName username password confirm s = (s', Ok tt) ->
  exists pw, password = Ok pw /\ confirm = Ok pw /\ pw <> "" /\
    others [profile_path configPath "l2tp-" username ".yaml"; profile_path configPath "l2tp-" username ".txt"] s.1 s'.1 /\
    forall db paths, Chap.LookupUser (L2tpProfile.Profile.LoadProfiles (read_disk s') Unmarshal_l2tp db
      (paths ++ [profile_path configPath "l2tp-" username ".yaml"])) (bytes_of_string username) = Some (bytes_of_string pw).
Proof.
  intros Hu H. set (yaml := profile_path configPath "l2tp-" username ".yaml"). set (txt := profile_path configPath "l2tp-" username ".txt").
  unfold l2tpAddUser in H. destruct (_ =? ""); [done|].
  apply exch_bind_inv in H as (s1 & conn & [= <- _] & H). apply exch_bind_inv in H as (s2 & pw & [= <- Hpw%promptMaskedPassword_ok] & H).
  destruct (String.eqb_spec pw "") as [|Hne]; [done|]. apply exch_bind_inv in H as (s3 & pw' & [= <- Hpw'%promptMaskedPassword_ok] & H).
  destruct (String.eqb_spec pw pw') as [<-|]; [|done]. cbn [negb] in H. apply exch_bind_inv in H as (s4 & [] & Hm & H).
  apply exch_bind_inv in H as (s5 & [] & Hw & H). fold yaml in Hw. fold txt in H. exists pw. split_and!; [done..| |].
  - pose proof (others_MkdirAll [yaml; txt] (profile_dir configPath) s) as W1. rewrite Hm in W1. unfold disk in W1. cbn [fst] in W1. etrans; [exact W1|].
    apply exch_bind_inv in Hw as (s6 & b & [= <- _] & Hw). pose proof (others_WriteFile [yaml; txt] yaml b 384 (list_elem_of_here _ _) s4) as W2.
    rewrite Hw in W2. etrans; [exact W2|].
    pose proof (export_l2tp_effects username pw (Cfg.Hostname (Cfg.Server cfg)) (Cfg.PSK conn.2) txt s5) as [_ W3]. rewrite H in W3.
    eapply others_more; [exact W3|]. intros p ->%list_elem_of_singleton. right. left.
  - intros db paths. apply exch_bind_inv in Hw as (s6 & b & [= <- Hb] & Hw).
    destruct (WriteFile_holds Unmarshal_l2tp _ _ _ _ _ _ Hw (l2tp_reads_back _ _ Hb)) as (_ & _ & _ & Hh). cbn [L2TP_Username L2TP_Password] in Hh.
    assert (holds Unmarshal_l2tp s'.1 yaml (L2tpProfile.Profile.mkProfile (bytes_of_string username) (bytes_of_string pw))) as Hh'.
    { pose proof (export_l2tp_effects username pw (Cfg.Hostname (Cfg.Server cfg)) (Cfg.PSK conn.2) txt s5) as [Hst Ho]. rewrite H in Hst, Ho.
      eapply holds_same; [apply Hst, Hh|apply Ho|exact Hh]. intros Hi%list_elem_of_singleton. revert Hi. by apply profile_path_ne. }
    unfold Chap.LookupUser, L2tpProfile.Profile.ProfileUserDB_lookup, L2tpProfile.Profile.LoadProfiles. cbn [L2tpProfile.Profile.users].
    rewrite foldl_app. cbn [foldl]. unfold L2tpProfile.Profile.load_one. destruct Hh' as [_ Hr]. specialize (Hr s'.2).
    apply exch_bind_inv in Hr as (? & data & Hr & [= _ Hdata]). unfold read_disk. destruct s' as [d r']. cbn [fst snd] in *. rewrite Hr. cbn.
    rewrite Hdata. cbn. rewrite decide_False by by apply string_nonempty. apply lookup_insert_eq.
Qed.

End l2tp_facts.

(** ** Runs on a small disk *)

Section demo.

#[local] Existing Instances toy_x509 toy_x509_laws toy_pem toy_pem_laws Cfg.demo_order.

#[local] Instance toy_exports : ExportLib := {|
  P12_Encode _ c _ _ r := Ok (bytes_of_string (CommonName c), r); uuid_New r := ("00000000-0000-4000-8000-000000000000", r); json_MarshalIndent _ := Ok [123; 125]
|}.

#[local] Instance toy_yaml : YAML := {|
  Marshal_ikev2 _ := Ok []; Marshal_l2tp p := Ok (bits (encode (L2TP_Username p, L2TP_Password p)));
  Unmarshal_l2tp b := match decode (unbits b) with
    | Some (u, p) => Ok (L2tpProfile.Profile.mkProfile (bytes_of_string u) (bytes_of_string p)) | None => Err "yaml" end
|}.

#[local] Instance toy_yaml_laws : YAMLLaws toy_yaml.
Proof. split. intros [u p] b [= <-]. cbn. rewrite unbits_bits. by rewrite decode_encode. Qed.

Definition demo_path : string := "/etc/swan/config.yaml".
Definition demo_clock (_ : nat) : Z := demo_now.

Definition demo_add (username : string) : exch state unit := ikev2AddUser demo_ParseIP Cfg.demo_loaded demo_path username "12" demo_clock.

(** The disk with the configuration alone; a disk where a file is in the way of the profiles. *)
Definition demo_disk : state := (mkFS {[demo_path := mkFile [] 420]} (list_to_set ["/etc"; "/etc/swan"]), demo_rng).
Definition demo_blocked : state := (put "/etc/swan/profile.d" (mkFile [] 420) demo_disk.1, demo_rng).

(** The run that fails after the certificate: the user cannot be made again, even when the
    cause is gone. *)
Example demo_stuck :
  let s := (demo_add "alice" demo_blocked).1 in
  let repaired := (mkFS (delete "/etc/swan/profile.d" (files s.1)) (dirs s.1), s.2) in
  ((demo_add "alice" demo_blocked).2, (demo_add "alice" repaired).2, (demo_add "bob" repaired).2) =
    (Err "not a directory", Err "client certificate already exists", Ok tt).
Proof. vm_compute. reflexivity. Qed.

(** The profile of an IKEv2 user is readable by all, with the bundle in it, whose password is
    the name; the text of an L2TP user, with the password and the key in it, is as the mask of
    the process leaves it. *)
Definition demo_l2tp : exch state unit := l2tpAddUser Cfg.demo_loaded demo_path "" "alice" (Ok "secret") (Ok "secret").

Example demo_modes :
  (fun p => mode <$> files (demo_add "alice" demo_disk).1.1 !! p) <$>
    ["/etc/swan/profile.d/ikev2-alice.p12"; "/etc/swan/profile.d/ikev2-alice.mobileconfig"; "/etc/swan/profile.d/ikev2-alice.sswan"] =
    [Some 384; Some 438; Some 420] /\
  (fun p => mode <$> files (demo_l2tp demo_disk).1.1 !! p) <$> ["/etc/swan/profile.d/l2tp-alice.yaml"; "/etc/swan/profile.d/l2tp-alice.txt"] =
    [Some 384; Some 438].
Proof. vm_compute. by split. Qed.

(** The period that wraps: the certificate of [mallory] is made on 2024-01-31 and has expired
    in 1990. *)
Example demo_expired :
  let r := ikev2AddUser demo_ParseIP Cfg.demo_loaded demo_path "mallory" "7014648590646" demo_clock demo_disk in
  promptCertValidity "7014648590646" = 7014648590646 /\ r.2 = Ok tt /\
  match LoadCertFromPEM "/etc/swan/certs/clients/mallory.crt" r.1 with
  | (_, Ok c) => (NotBefore c, NotAfter c) = (1706702400, 654065984)
  | _ => False
  end.
Proof. vm_compute. by repeat split. Qed.


Lemma ikev2_user_once_witness : (demo_add "alice" (demo_add "alice" demo_blocked).1).2 <> Ok tt.
Proof.
  destruct (demo_add "alice" (demo_add "alice" demo_blocked).1) as [s' r] eqn:H. unfold demo_add at 1 in H.
  refine (proj1 (ikev2_user_once demo_ParseIP _ _ _ _ _ _ _ _ _ H)). vm_compute. reflexivity.
Defined.

Lemma l2tp_user_logs_in_witness :
  Chap.LookupUser (L2tpProfile.Profile.LoadProfiles (read_disk (demo_l2tp demo_disk).1) Unmarshal_l2tp L2tpProfile.Profile.NewProfileUserDB
    ["/etc/swan/profile.d/l2tp-alice.yaml"]) (bytes_of_string "alice") = Some (bytes_of_string "secret").
Proof.
  assert (succeeds (demo_l2tp demo_disk).2 = true) as Hs by (vm_compute; reflexivity).
  destruct (demo_l2tp demo_disk) as [s' [[]|e|]] eqn:H; [|discriminate Hs..]. clear Hs. unfold demo_l2tp in H.
  destruct (l2tp_user_logs_in Cfg.demo_loaded demo_path "" "alice" (Ok "secret") (Ok "secret") demo_disk s') as (pw & [= <-] & _ & _ & _ & Hl);
    [discriminate|exact H|].
  exact (Hl _ []).
Defined.

End demo.
End Command.
