(* ===== verification/Service.v ===== *)
(** * Service: the program as a service of the system ([cmd/swan-ng/service.go], [main.go])

    The library that knows the services of the system is an argument: what it makes of a
    configuration, and what it does to the services that are installed, which are the state of
    the commands.  So is the library of the command line, which finds the value of a flag. *)

From S2P Require Import Prelude Rand Exch Filepath Config Commands.

#[local] Open Scope string_scope.

Module Service.

Record Config := mkConfig { Name : string; DisplayName : string; Description : string; Arguments : list string }.

Definition svcConfig : Config := mkConfig "swan-ng" "SWAN-NG VPN" "SWAN Next-Generation IPsec VPN Daemon (IKEv2/L2TP/IKEv1)" [].

Section service.
Context {M S : Type} (New : Config -> res S) (InstallService UninstallService : S -> exch M unit).
Context (Load : string -> res Cfg.Config) (EvalSymlinks : string -> res string) (Executable : res string).

(** [filepath.Abs], of a process that runs in a directory. *)
Definition Abs (cwd path : string) : res string := Ok (if IsAbs path then Clean path else Join cwd path).

Definition resolve (cwd : string) : string -> res string := Cfg.ResolveConfigPath (Abs cwd) EvalSymlinks Executable.

(** The configuration is loaded before, and only to see that it loads. *)
Definition serviceInstall (cwd cfgPath : string) : exch M unit :=
  _ ← lift (Command.loadConfig (resolve cwd) Load cfgPath);
  let c := mkConfig (Name svcConfig) (DisplayName svcConfig) (Description svcConfig) (Command.service_arguments cfgPath) in
  s ← lift (New c);
  InstallService s.

Definition serviceUninstall : exch M unit :=
  s ← lift (New svcConfig);
  UninstallService s.

(** The state with which the process ends, of a command that returned. *)
Definition exit_status {A} (r : res A) : Z := match r with Ok _ => 0 | _ => 1 end.

(** A service is installed only when its configuration loads where it is installed, and then
    the library is asked once, with the name that [serviceUninstall] looks for. *)
Theorem install_checks cwd cfgPath m m' : serviceInstall cwd cfgPath m = (m', Ok tt) ->
  exists path cfg c s, resolve cwd cfgPath = Ok path /\ Load path = Ok cfg /\ New c = Ok s /\
    Name c = Name svcConfig /\ InstallService s m = (m', Ok tt).
Proof.
  intros H. apply exch_bind_inv in H as (m1 & [cfg path] & [= <- Hl] & H). unfold Command.loadConfig in Hl.
  apply bind_Ok_inv in Hl as (p & Hp & Hl). apply bind_Ok_inv in Hl as (c & Hc & [= <- <-]).
  apply exch_bind_inv in H as (m2 & s & [= <- Hs] & H). by eexists p, c, _, s.
Qed.

(** The flag of the command line of the service that is installed. *)
Context (flag : list string -> string) (flag_none : flag ["daemon"] = "") (flag_config : forall p, flag ["daemon"; "--config"; p] = p).

(** The service reads the configuration that was checked when it was installed, wherever it
    runs, if no path was given or an absolute one. *)
Theorem service_same_config cwd cwd' cfgPath : cfgPath = "" \/ IsAbs cfgPath = true ->
  resolve cwd' (flag (Command.service_arguments cfgPath)) = resolve cwd cfgPath.
Proof using flag_none flag_config.
  unfold Command.service_arguments, resolve, Cfg.ResolveConfigPath, Abs.
  destruct (String.eqb_spec cfgPath "") as [->|Hne]; [by rewrite flag_none|]. intros [?|Ha]; [done|].
  rewrite flag_config. destruct (String.eqb_spec cfgPath "") as [?|_]; [done|]. cbn [negb]. by rewrite Ha.
Qed.

End service.

(** ** Where a service looks *)

Definition demo_flag (args : list string) : string := match args with [_; _; p] => p | _ => "" end.

(** A relative path is passed on as it was typed: the service looks in its own directory. *)
Example relative_path_moves :
  let resolve := resolve (fun p => Ok p) (Ok "/usr/bin/swan-ng") in
  (resolve "/etc/swan" "config.yaml", resolve "/" (demo_flag (Command.service_arguments "config.yaml"))) = (Ok "/etc/swan/config.yaml", Ok "/config.yaml").
Proof. vm_compute. reflexivity. Qed.

Lemma service_same_config_witness :
  resolve (fun p => Ok p) (Ok "/usr/bin/swan-ng") "/" (demo_flag (Command.service_arguments "/etc/swan/../swan.yaml")) = Ok "/etc/swan.yaml".
Proof.
  etrans; [exact (service_same_config (fun p => Ok p) (Ok "/usr/bin/swan-ng") demo_flag eq_refl (fun p => eq_refl) "/root" "/" "/etc/swan/../swan.yaml" (or_intror eq_refl))|].
  vm_compute. reflexivity.
Defined.

Lemma install_checks_witness :
  exists path cfg c s, resolve (fun p => Ok p) (Ok "/usr/bin/swan-ng") "/root" "" = Ok path /\ Ok Cfg.demo_loaded = Ok cfg /\
    Ok c = Ok s /\ Name c = "swan-ng" /\ ([s], @Ok unit tt) = ([mkConfig "swan-ng" (DisplayName svcConfig) (Description svcConfig) ["daemon"]], Ok tt).
Proof.
  exact (install_checks (M := list Config) (fun c => Ok c) (fun s _ => ([s], Ok tt)) (fun _ => Ok Cfg.demo_loaded) (fun p => Ok p)
    (Ok "/usr/bin/swan-ng") "/root" "" [] _ eq_refl).
Defined.

End Service.
