(* ===== verification/Locks.v ===== *)
(** * Locks: the mutexes of the process and the goroutines that take them

    A handler is here the sequence of its [Lock] and [Unlock] calls, which what it finds on
    its way decides: the rest of its code is in the other files.  [defer mu.Unlock()] is
    [critical].  A mutex knows whether it is taken, not by whom: unlocking one that is free
    ends the process.  The mutexes are those of the L2TP server, its tunnels, their
    control channels and sessions, the pool, the users, the IKE sessions and their manager, the
    engine, the database of SAs, the windows, the listeners and the device. *)

From stdpp Require Import functions.
From S2P Require Import Prelude.

Module Mutex.

Inductive lock :=
  | ServerMu | TunnelMu (t : nat) | ControlMu (t : nat) | L2TPSessionMu (t s : nat) | PoolMu | UsersMu
  | SessionsMu | IKESessionMu (n : nat) | EngineMu | DatabaseMu | WindowMu (sa : nat) | SocketsMu | DeviceMu.

#[global] Instance lock_eq_dec : EqDecision lock.
Proof. solve_decision. Defined.

Inductive op := Lock (l : lock) | RLock (l : lock) | Unlock (l : lock) | RUnlock (l : lock).

Definition program := list op.

Definition critical (l : lock) (body : program) : program := Lock l :: body ++ [Unlock l].
Definition rcritical (l : lock) (body : program) : program := RLock l :: body ++ [RUnlock l].

Definition when (b : bool) (p : program) : program := if b then p else [].
Definition for_each {A} (f : A -> program) (l : list A) : program := concat (f <$> l).
Definition if_some {A} (f : A -> program) (x : option A) : program := match x with Some a => f a | None => [] end.

(** ** L2TP: [control.go], [session.go], [tunnel.go]; the daemon's server has no sender *)

Definition SetRemoteTunnelID t := critical (ControlMu t) [].
Definition SetPeerWindow t := critical (ControlMu t) [].
Definition Send t := critical (ControlMu t) [].
Definition SendZLB t := critical (ControlMu t) [].
Definition Receive t := critical (ControlMu t) [].

(** [timeout]: some message has been sent too often.  The mutex is unlocked before [onTimeout],
    and again by the [defer]. *)
Definition CheckRetransmit t (timeout : bool) : program :=
  critical (ControlMu t) (when timeout (Unlock (ControlMu t) :: critical (TunnelMu t) [])).

Definition Allocate := critical PoolMu [].
Definition Release := critical PoolMu [].
Definition LookupUser := rcritical UsersMu [].

Definition session_handleICCN t s := critical (L2TPSessionMu t s) [].
Definition InitPPP t s := critical (L2TPSessionMu t s) [].

(** A response to the challenge is looked up. *)
Definition HandleData t s (login : bool) := critical (L2TPSessionMu t s) (when login LookupUser).
Definition SendData t s := critical (L2TPSessionMu t s) [].

(** A session to close, and whether it has an address. *)
Definition close t (x : nat * bool) := critical (L2TPSessionMu t x.1) (when x.2 Release).

Inductive sccrq := Refused | BadVersion (window : bool) | Accepted (window : bool).

Definition HandleSCCRQ t (o : sccrq) :=
  critical (TunnelMu t) (match o with
    | Refused => []
    | BadVersion window | Accepted window => SetRemoteTunnelID t ++ when window (SetPeerWindow t) ++ Send t
    end).
Definition HandleSCCCN t := critical (TunnelMu t) [].
Definition HandleICRQ t (accepted : bool) := critical (TunnelMu t) (when accepted (Send t)).
Definition HandleICCN t s (found : bool) := critical (TunnelMu t) [] ++ when found (session_handleICCN t s).
Definition HandleHello t := critical (TunnelMu t) [].
Definition HandleCDN t (found : option (nat * bool)) := critical (TunnelMu t) [] ++ if_some (close t) found.
Definition HandleStopCCN t (sessions : list (nat * bool)) := critical (TunnelMu t) (for_each (close t) sessions) ++ SendZLB t.
Definition SendCDN t (found : option (nat * bool)) := critical (TunnelMu t) (Send t ++ if_some (close t) found).
Definition GetSession t := critical (TunnelMu t) [].
Definition SessionCount t := critical (TunnelMu t) [].
Definition Close t (connected : bool) (sessions : list (nat * bool)) :=
  critical (TunnelMu t) (when connected (Send t) ++ for_each (close t) sessions).

(** The two tickers of [Run]. *)
Definition retransmitTick := CheckRetransmit.
Definition helloTick t (due : bool) := critical (TunnelMu t) [] ++ when due (Send t).

(** ** L2TP: [server.go] *)

(** An ICCN: for no session or in the wrong state; for a session that is gone by then; when
    there is no address left, with the session still there or not; and the rest. *)
Inductive iccn := BadICCN (found : bool) | Gone | NoAddress (present : bool) | Started.

Inductive message :=
  | SCCCN | ICRQ (accepted : bool) | ICCN (o : iccn) | Hello
  | CDN (found : option (option (nat * bool))) | StopCCN (sessions : list (nat * bool)) | Other.

Definition tunnel_lookup := rcritical ServerMu [].
Definition removeTunnel := critical ServerMu [].

Definition routeControlMessage t s (m : message) : program :=
  match m with
  | SCCCN => HandleSCCCN t
  | ICRQ accepted => HandleICRQ t accepted ++ when accepted (SendZLB t)
  | ICCN (BadICCN found) => HandleICCN t s found
  | ICCN Gone => HandleICCN t s true ++ GetSession t
  | ICCN (NoAddress present) => HandleICCN t s true ++ GetSession t ++ Allocate ++ SendCDN t (if present then Some (s, false) else None)
  | ICCN Started => HandleICCN t s true ++ GetSession t ++ Allocate ++ InitPPP t s ++ SendData t s
  | Hello => HandleHello t
  | CDN avp => if_some (HandleCDN t) avp ++ SessionCount t
  | StopCCN sessions => HandleStopCCN t sessions ++ removeTunnel
  | Other => []
  end.

Inductive datagram :=
  | Malformed
  | NewTunnel (t : nat) (o : sccrq)
  | Control (known : option (nat * option (nat * message)))
  | Data (known : option (nat * option (nat * bool * nat))).

(** [known]: the tunnel, then the session and message when the datagram is in order; of a
    data message the session, whether it is a login and how many frames answer it. *)
Definition HandlePacket (d : datagram) : program :=
  match d with
  | Malformed => []
  | NewTunnel t o => Receive t ++ HandleSCCRQ t o ++ match o with Accepted _ => critical ServerMu [] ++ SendZLB t | _ => [] end
  | Control known => tunnel_lookup ++
    if_some (fun '(t, m) => critical (TunnelMu t) [] ++ Receive t ++ SendZLB t ++ if_some (fun '(s, m) => routeControlMessage t s m) m) known
  | Data known => tunnel_lookup ++
    if_some (fun '(t, x) => critical (TunnelMu t) [] ++ GetSession t ++
      if_some (fun '(s, login, frames) => HandleData t s login ++ for_each (fun _ => SendData t s) (seq 0 frames)) x) known
  end.

Definition Server_Close (tunnels : list (nat * bool * list (nat * bool))) : program :=
  critical ServerMu (for_each (fun '(t, connected, sessions) => Close t connected sessions) tunnels).

(** ** ESP: [engine.go], [sa.go], [replay.go]; [listener.go]; [tun.go] *)

Definition LookupBySPI := rcritical DatabaseMu [].
Definition RemoveInbound := critical DatabaseMu [].
Definition RemoveOutboundSA := critical EngineMu [].
Definition Check sa := critical (WindowMu sa) [].
Definition Advance sa := critical (WindowMu sa) [].
Definition SendTo := critical SocketsMu [].

Definition Decrypt sa (passed : bool) := Check sa ++ when passed (Advance sa).

(** [inner]: the packet passed, and what it has for the L2TP server. *)
Definition HandleInboundESP (known : option (nat * option (option datagram))) : program :=
  LookupBySPI ++ if_some (fun '(sa, inner) =>
    Decrypt sa (bool_decide (is_Some inner)) ++ if_some (if_some (fun d => critical EngineMu [] ++ HandlePacket d)) inner) known.

Definition outbound_round (sent : bool) : program := critical EngineMu [] ++ when sent SendTo.
Definition Engine_Start (running : bool) := critical EngineMu [] ++ when (negb running) (critical EngineMu []).
Definition Manager_Start (running : bool) := critical SocketsMu [] ++ when (negb running) (critical SocketsMu []).
Definition watchContext (failed : bool) := critical DeviceMu [] ++ when failed (critical DeviceMu []).

(** ** IKE: [session.go], [server.go] *)

(** The session of either version with the number of its child SAs, and whether it has an
    address. *)
Definition evictSessionLocked (v2 v1 : option (nat * nat)) (address : bool) : program :=
  let teardown := fun '(n, children) => critical (IKESessionMu n) (for_each (fun _ => RemoveInbound) (seq 0 children)) in
  if_some teardown v2 ++ if_some teardown v1 ++ when address RemoveOutboundSA.

Record eviction := mkEviction { ev_v2 : option (nat * nat); ev_v1 : option (nat * nat); ev_address : bool }.
Definition evict (e : eviction) := evictSessionLocked (ev_v2 e) (ev_v1 e) (ev_address e).

Definition RegisterSession (old : option eviction) := critical SessionsMu (if_some evict old).
Definition GetSession_ := rcritical SessionsMu [].
Definition DeleteSession (e : eviction) := critical SessionsMu (evict e).

(** A delete payload: of the IKE SA, or of ESP SAs. *)
Definition delete_payload (d : eviction + nat) : program :=
  match d with inl e => DeleteSession e | inr spis => for_each (fun _ => RemoveInbound) (seq 0 spis) end.

(** The first messages make a session; [HandleAuth], [HandleAuthEAP] and [HandleTransaction] hold
    the mutex of theirs, [HandleInformational] does not. *)
Inductive exchange :=
  | Init (registered : option (option eviction))
  | InSession (n : option nat)
  | Informational (deletes : option (list (eviction + nat)))
  | Ignored.

Definition ike_HandlePacket (x : exchange) (reply : bool) : program :=
  match x with
  | Init registered => if_some RegisterSession registered
  | InSession n => GetSession_ ++ if_some (fun n => critical (IKESessionMu n) []) n
  | Informational deletes => GetSession_ ++ if_some (for_each delete_payload) deletes
  | Ignored => []
  end ++ when reply SendTo.

(** ** What the goroutines of the process do *)

(** The daemon before it waits: the L2TP server, with profiles to load or not, and a
    listener for each port that could be bound. *)
Definition start_up (l2tp : option bool) (bound : nat) : program :=
  if_some (fun profiles => critical PoolMu [] ++ when profiles (critical UsersMu []) ++ rcritical UsersMu [] ++ critical EngineMu [] ++ rcritical UsersMu []) l2tp ++
  for_each (fun _ => critical SocketsMu []) (seq 0 bound).

Inductive job :=
  | OnIKE (x : exchange) (reply : bool) | OnESP (known : option (nat * option (option datagram))) | OnL2TP (d : datagram)
  | Outbound (sent : bool) | RetransmitTick (t : nat) | HelloTick (t : nat) (due : bool)
  | StartEngine (running : bool) | StartListeners (running : bool) | ContextEnds (failed : bool) | StartUp (l2tp : option bool) (bound : nat)
  | Shutdown (tunnels : list (nat * bool * list (nat * bool))).

(** [RetransmitTick]: no message has been sent too often. *)
Definition run (j : job) : program :=
  match j with
  | OnIKE x reply => ike_HandlePacket x reply
  | OnESP known => HandleInboundESP known
  | OnL2TP d => HandlePacket d
  | Outbound sent => outbound_round sent
  | RetransmitTick t => retransmitTick t false
  | HelloTick t due => helloTick t due
  | StartEngine running => Engine_Start running
  | StartListeners running => Manager_Start running
  | ContextEnds failed => watchContext failed
  | StartUp l2tp bound => start_up l2tp bound
  | Shutdown tunnels => Server_Close tunnels
  end.

Definition goroutine (jobs : list job) : program := for_each run jobs.

(** ** Goroutines that run next to each other *)

(** Taken by a writer, or by one reader and [n] more. *)
Inductive mode := Writer | Readers (n : nat).

Record world := mkWorld { locks : lock -> option mode; threads : list program }.

Inductive outcome := Next (w : world) | Blocked | Fatal | Done.

Definition writer_waits (l : lock) (ts : list program) : bool :=
  existsb (fun p => match p with Lock l' :: _ => bool_decide (l' = l) | _ => false end) ts.

(** Whether a goroutine that is about to take a mutex for writing has already asked for it,
    which keeps new readers out, is not known: with [pending] all of them have. *)
Definition exec (pending : bool) (w : world) (i : nat) : outcome :=
  match threads w !! i with
  | Some (o :: p) =>
    let go l m := Next (mkWorld (<[l := m]> (locks w)) (<[i := p]> (threads w))) in
    match o with
    | Lock l => match locks w l with None => go l (Some Writer) | Some _ => Blocked end
    | RLock l =>
      if pending && writer_waits l (threads w) then Blocked
      else match locks w l with
           | None => go l (Some (Readers 0))
           | Some (Readers n) => go l (Some (Readers (S n)))
           | Some Writer => Blocked
           end
    | Unlock l => match locks w l with Some Writer => go l None | _ => Fatal end
    | RUnlock l =>
      match locks w l with
      | Some (Readers 0) => go l None
      | Some (Readers (S n)) => go l (Some (Readers n))
      | _ => Fatal
      end
    end
  | _ => Done
  end.

Definition step (w w' : world) : Prop := exists i, exec false w i = Next w'.

Definition start (ts : list program) : world := mkWorld (fun _ => None) ts.
Definition remaining (w : world) : nat := length (concat (threads w)).

Fixpoint schedule (w : world) (order : list nat) : outcome :=
  match order with
  | [] => Next w
  | i :: order => match exec false w i with Next w => schedule w order | o => o end
  end.

(** ** The order of the mutexes *)

Definition rank (l : lock) : nat :=
  match l with
  | ServerMu | SessionsMu => 0
  | TunnelMu _ | IKESessionMu _ => 1
  | ControlMu _ | L2TPSessionMu _ _ => 2
  | _ => 3
  end.

Definition above (l : lock) (held : list (lock * bool)) : Prop := Forall (fun x => (rank x.1 < rank l)%nat) held.

(** What a goroutine does that holds some mutexes: it takes only those that come after all
    it holds, and gives back the last one first. *)
Fixpoint in_order (held : list (lock * bool)) (p : program) : Prop :=
  match p with
  | [] => held = []
  | Lock l :: p => above l held /\ in_order ((l, true) :: held) p
  | RLock l :: p => above l held /\ in_order ((l, false) :: held) p
  | Unlock l :: p => exists h, held = (l, true) :: h /\ in_order h p
  | RUnlock l :: p => exists h, held = (l, false) :: h /\ in_order h p
  end.

(** A part that takes mutexes of rank [n] at least and gives all of them back. *)
Definition balanced (n : nat) (p : program) : Prop :=
  forall held q, Forall (fun x => (rank x.1 < n)%nat) held -> in_order held q -> in_order held (p ++ q).

Lemma balanced_nil n : balanced n [].
Proof. by intros held q. Qed.
Lemma balanced_app n p q : balanced n p -> balanced n q -> balanced n (p ++ q).
Proof. intros Hp Hq held r H Hr. rewrite <- app_assoc. apply Hp; [done|]. by apply Hq. Qed.
Lemma balanced_when n b p : balanced n p -> balanced n (when b p).
Proof. destruct b; [done|]. intros _. apply balanced_nil. Qed.
Lemma balanced_if_some {A} n (f : A -> program) x : (forall a, balanced n (f a)) -> balanced n (if_some f x).
Proof. intros H. destruct x; [apply H|apply balanced_nil]. Qed.
Lemma balanced_for_each {A} n (f : A -> program) l : (forall a, balanced n (f a)) -> balanced n (for_each f l).
Proof. intros H. induction l as [|a l IH]; [apply balanced_nil|]. by apply balanced_app. Qed.

Lemma below_more n m (held : list (lock * bool)) : (n <= m)%nat ->
  Forall (fun x => (rank x.1 < n)%nat) held -> Forall (fun x => (rank x.1 < m)%nat) held.
Proof. intros Hn H. apply Forall_forall. intros x Hx. rewrite Forall_forall in H. specialize (H x Hx). cbn in *. lia. Qed.

Lemma balanced_critical n l p : (n <= rank l)%nat -> balanced (S (rank l)) p -> balanced n (critical l p).
Proof.
  intros Hn Hp held q Hh Hq. cbn. rewrite <- app_assoc. split; [by eapply below_more|].
  apply Hp; [constructor; [cbn; lia|eapply below_more; [|exact Hh]; lia]|]. by exists held.
Qed.
Lemma balanced_rcritical n l p : (n <= rank l)%nat -> balanced (S (rank l)) p -> balanced n (rcritical l p).
Proof.
  intros Hn Hp held q Hh Hq. cbn. rewrite <- app_assoc. split; [by eapply below_more|].
  apply Hp; [constructor; [cbn; lia|eapply below_more; [|exact Hh]; lia]|]. by exists held.
Qed.

(** Takes a handler apart. *)
Ltac in_parts := repeat first
  [ assumption | apply balanced_nil | apply balanced_critical; [cbn; lia|] | apply balanced_rcritical; [cbn; lia|] | apply balanced_app
  | apply balanced_when | apply balanced_if_some; intros | apply balanced_for_each; intros
  | match goal with x : (_ * _)%type |- _ => destruct x end ].

Lemma balanced_message t s m : balanced 0 (routeControlMessage t s m).
Proof. destruct m as [| |[| |[]|]| | | |]; cbn [routeControlMessage]; in_parts. Qed.

Lemma balanced_datagram d : balanced 0 (HandlePacket d).
Proof.
  destruct d as [|t []|[[t [[s m]|]]|]|[[t [[[s login] frames]|]]|]]; cbn [HandlePacket if_some]; in_parts. apply balanced_message.
Qed.

Lemma balanced_delete d : balanced 0 (delete_payload d).
Proof. destruct d; cbn [delete_payload]; unfold DeleteSession, evict, evictSessionLocked, RemoveOutboundSA; in_parts. Qed.

Lemma balanced_exchange x reply : balanced 0 (ike_HandlePacket x reply).
Proof.
  destruct x as [[[old|]|]|n|deletes|]; cbn [ike_HandlePacket if_some]; unfold RegisterSession; cbn [if_some]; unfold evict, evictSessionLocked; in_parts.
  apply balanced_delete.
Qed.

Lemma balanced_job j : balanced 0 (run j).
Proof.
  destruct j as [x reply|[[sa [[d|]|]]|]|d|sent|t|t due|running|running|failed|l2tp bound|tunnels]; cbn [run]; try apply balanced_exchange; try apply balanced_datagram;
    in_parts; apply balanced_datagram.
Qed.

Lemma goroutine_in_order jobs : in_order [] (goroutine jobs).
Proof.
  assert (balanced 0 (goroutine jobs)) as H by (apply balanced_for_each, balanced_job).
  specialize (H [] [] ltac:(constructor) eq_refl). by rewrite app_nil_r in H.
Qed.

(** ** What is taken is what is held *)

(** How many hold a mutex, for writing and for reading. *)
Definition holders (m : option mode) (write : bool) : nat :=
  match m, write with
  | Some Writer, true => 1
  | Some (Readers n), false => S n
  | _, _ => 0
  end.

Definition agrees (f : lock -> option mode) (held : list (lock * bool)) : Prop := forall l b, times (l, b) held = holders (f l) b.

Lemma agrees_perm f h h' : h ≡ₚ h' -> agrees f h -> agrees f h'.
Proof. intros Hp H l b. by rewrite <- (times_perm _ _ _ Hp). Qed.

(** One mutex changes, and what is held of it. *)
Lemma agrees_change f held held' l m :
  (forall l' b, l' <> l -> times (l', b) held' = times (l', b) held) -> (forall b, times (l, b) held' = holders m b) ->
  agrees f held -> agrees (<[l := m]> f) held'.
Proof.
  intros Hne Hl H l' b. destruct (decide (l' = l)) as [->|Hn]; [by rewrite fn_lookup_insert|].
  rewrite fn_lookup_insert_ne by done. by rewrite Hne.
Qed.

Lemma times_other (l l' : lock) (b b' : bool) held : l' <> l -> times (l', b') ((l, b) :: held) = times (l', b') held.
Proof. intros Hn. rewrite times_cons, decide_False by congruence. done. Qed.

(** The mutexes a goroutine holds, for each of them. *)
Definition inv (w : world) : Prop := exists helds, Forall2 in_order helds (threads w) /\ agrees (locks w) (concat helds).

Lemma start_inv ts : Forall (in_order []) ts -> inv (start ts).
Proof.
  intros H. exists (replicate (length ts) []). split.
  - cbn. induction H; cbn; by constructor.
  - assert (concat (replicate (length ts) (@nil (lock * bool))) = []) as -> by (induction ts; [done|]; inversion H; auto). by intros l.
Qed.

Lemma concat_take {A} (ls : list (list A)) i l x : ls !! i = Some l -> concat (<[i := x :: l]> ls) ≡ₚ x :: concat ls.
Proof.
  intros H. apply (Permutation_app_inv_l l). rewrite (concat_insert ls i l (x :: l) H). by rewrite <- Permutation_middle.
Qed.
Lemma concat_give {A} (ls : list (list A)) i l x : ls !! i = Some (x :: l) -> concat ls ≡ₚ x :: concat (<[i := l]> ls).
Proof.
  intros H. apply (Permutation_app_inv_l l). rewrite <- (concat_insert ls i (x :: l) l H). by rewrite <- Permutation_middle.
Qed.

(** A mutex is taken or given back, by a goroutine that does it in order. *)
Lemma agrees_take (f : lock -> option mode) held l (b : bool) (m : option mode) :
  agrees f held -> (forall b', holders m b' = ((if decide (b = b') then 1 else 0) + holders (f l) b')%nat) -> agrees (<[l := m]> f) ((l, b) :: held).
Proof.
  intros Ha Hm. apply (agrees_change f held); [intros; by apply times_other| |done]. intros b'. rewrite Hm, times_cons, (Ha l b').
  f_equal. destruct (decide (b = b')) as [->|]; [by rewrite decide_True|rewrite decide_False by congruence; done].
Qed.

Lemma agrees_give (f : lock -> option mode) held l (b : bool) : agrees f ((l, b) :: held) ->
  if b then f l = Some Writer /\ agrees (<[l := None]> f) held
  else exists n, f l = Some (Readers n) /\ agrees (<[l := match n with 0%nat => None | S n => Some (Readers n) end]> f) held.
Proof.
  intros Ha. pose proof (Ha l true) as Ht. pose proof (Ha l false) as Hf. rewrite times_cons in Ht, Hf.
  assert (forall m, (forall b', times (l, b') held = holders m b') -> agrees (<[l := m]> f) held) as Hc.
  { intros m Hm. apply (agrees_change f ((l, b) :: held)); [intros; symmetry; by apply times_other|exact Hm|done]. }
  destruct b.
  - rewrite decide_True in Ht by done. rewrite decide_False in Hf by done. destruct (f l) as [[|n]|]; cbn [holders] in Ht, Hf; try lia.
    split; [done|]. apply Hc. intros []; cbn [holders]; lia.
  - rewrite decide_False in Ht by done. rewrite decide_True in Hf by done. destruct (f l) as [[|n]|]; cbn [holders] in Ht, Hf; try lia.
    exists n. split; [done|]. apply Hc. intros []; destruct n; cbn [holders]; lia.
Qed.

(** What the next operation of a goroutine comes to. *)
Lemma exec_inv pending w i : inv w ->
  match exec pending w i with Next w' => inv w' /\ (remaining w' < remaining w)%nat | Fatal => False | _ => True end.
Proof.
  intros (helds & Hin & Ha). unfold exec. destruct (threads w !! i) as [[|o p]|] eqn:Ht; [done| |done].
  destruct (Forall2_lookup_r _ _ _ _ _ Hin Ht) as (h & Hh & Ho).
  assert (forall f h', in_order h' p -> agrees f (concat (<[i := h']> helds)) ->
    inv (mkWorld f (<[i := p]> (threads w))) /\ (remaining (mkWorld f (<[i := p]> (threads w))) < remaining w)%nat) as Hgo.
  { intros f h' Hp Hf. split; [exists (<[i := h']> helds); by split; [apply Forall2_insert|]|]. pose proof (concat_give _ _ _ _ Ht) as Hg.
    apply Permutation_length in Hg. change (remaining w = S (remaining (mkWorld f (<[i := p]> (threads w))))) in Hg. lia. }
  destruct o as [l|l|l|l]; cbn [in_order] in Ho.
  - destruct (locks w l) eqn:E; [done|]. apply (Hgo _ _ (proj2 Ho)).
    eapply agrees_perm; [symmetry; by apply concat_take|]. apply agrees_take; [done|]. by rewrite E; intros [].
  - destruct (pending && _); [done|]. destruct (locks w l) as [[|n]|] eqn:E; [done|..]; apply (Hgo _ _ (proj2 Ho));
      (eapply agrees_perm; [symmetry; by apply concat_take|]); (apply agrees_take; [done|]; by rewrite E; intros []).
  - destruct Ho as (h' & -> & Hp). destruct (agrees_give _ _ l true (agrees_perm _ _ _ (concat_give _ _ _ _ Hh) Ha)) as [-> Ha']. by apply (Hgo _ h').
  - destruct Ho as (h' & -> & Hp). destruct (agrees_give _ _ l false (agrees_perm _ _ _ (concat_give _ _ _ _ Hh) Ha)) as (n & -> & Ha').
    destruct n; by apply (Hgo _ h').
Qed.

Lemma reachable_inv ts w : Forall (in_order []) ts -> star step (start ts) w -> inv w.
Proof.
  intros H. apply (star_invariant step inv); [|by apply start_inv].
  intros w1 w2 Hi [i Hs]. pose proof (exec_inv false w1 i Hi) as He. rewrite Hs in He. apply He.
Qed.

(** ** Somebody can always go on *)

Definition goes_on (w : world) : Prop := exists i w', exec true w i = Next w'.

(** A goroutine that gives back a mutex goes on. *)
Lemma unlock_goes_on w i l p : inv w -> threads w !! i = Some (Unlock l :: p) -> goes_on w.
Proof.
  intros Hi Ht. pose proof (exec_inv true w i Hi) as He. exists i. unfold exec in *. rewrite Ht in *. destruct (locks w l) as [[]|]; eauto; done.
Qed.
Lemma runlock_goes_on w i l p : inv w -> threads w !! i = Some (RUnlock l :: p) -> goes_on w.
Proof.
  intros Hi Ht. pose proof (exec_inv true w i Hi) as He. exists i. unfold exec in *. rewrite Ht in *. destruct (locks w l) as [[|[]]|]; eauto; done.
Qed.

(** So does one that waits for a mutex that is free, or a writer it has to let go first. *)
Lemma free_goes_on w i l o p : threads w !! i = Some (o :: p) -> o = Lock l \/ o = RLock l -> locks w l = None -> goes_on w.
Proof.
  intros Ht Ho E. destruct (writer_waits l (threads w)) eqn:Hw.
  - apply existsb_exists in Hw as (q & Hq%list_elem_of_In & Hl). apply list_elem_of_lookup in Hq as [k Hk].
    destruct q as [|[l'| | |] q]; try done. apply bool_decide_eq_true in Hl as ->. change (threads w !! k = Some (Lock l :: q)) in Hk. exists k. unfold exec. rewrite Hk, E. eauto.
  - exists i. unfold exec. rewrite Ht. destruct Ho as [->| ->]; [rewrite E; eauto|]. rewrite Hw, E. eauto.
Qed.

(** When a mutex is taken, whoever has it goes on, or waits for one that comes after it. *)
Lemma taken_goes_on n w l : inv w -> (4 - rank l <= n)%nat -> locks w l <> None -> goes_on w.
Proof.
  intros Hi. revert l. induction n as [|n IH]; intros l Hn Hl; [destruct l; cbn in Hn; lia|].
  pose proof Hi as (helds & Hin & Ha). assert (exists b, (l, b) ∈ concat helds) as [b (h & Hh%list_elem_of_In & Hx%list_elem_of_In)%list_elem_of_In%in_concat].
  { destruct (locks w l) as [[|k]|] eqn:E; [exists true|exists false|done]; apply times_pos; rewrite Ha, E; cbn [holders]; lia. }
  apply list_elem_of_lookup in Hh as [j Hj]. destruct (Forall2_lookup_l _ _ _ _ _ Hin Hj) as (p & Ht & Ho).
  destruct p as [|[l'|l'|l'|l'] p]; cbn in Ho; [subst h; by apply elem_of_nil in Hx|..| |].
  1,2: destruct Ho as [Hab _]; unfold above in Hab; rewrite Forall_forall in Hab; specialize (Hab _ Hx); cbn in Hab;
    (destruct (locks w l') eqn:E; [apply (IH l'); [lia|by rewrite E]|eapply free_goes_on; eauto]).
  - by eapply unlock_goes_on.
  - by eapply runlock_goes_on.
Qed.

Lemma some_goes_on w i o p : inv w -> threads w !! i = Some (o :: p) -> goes_on w.
Proof.
  intros Hi Ht. destruct o as [l|l|l|l]; [..|by eapply unlock_goes_on|by eapply runlock_goes_on].
  all: destruct (locks w l) eqn:E; [eapply (taken_goes_on 4 w l); [done|lia|by rewrite E]|eapply free_goes_on; eauto].
Qed.

(** C9: Whatever the goroutines of the process do, in whatever order their steps come, as
    long as no L2TP message is sent too often: a goroutine goes on, unless all have finished, even
    if every one that wants to write keeps new readers out; no mutex is unlocked that is
    free, which would end the process; a step brings the end nearer; and in the end no
    mutex is taken. *)
Theorem process_never_stuck (gs : list (list job)) w : star step (start (goroutine <$> gs)) w ->
  (goes_on w \/ Forall (fun p => p = []) (threads w) /\ forall l, locks w l = None) /\
  (forall pending i, exec pending w i <> Fatal) /\
  (forall w', step w w' -> (remaining w' < remaining w)%nat).
Proof.
  intros Hst. assert (inv w) as Hi.
  { eapply reachable_inv; [|exact Hst]. apply Forall_fmap, Forall_true. intros jobs. apply goroutine_in_order. }
  split_and!.
  - destruct (decide (Exists (fun p => p <> []) (threads w))) as [(p & (i & Hp)%list_elem_of_lookup & Hn)%Exists_exists|Hd].
    + left. destruct p as [|o p]; [done|]. by eapply some_goes_on.
    + right. apply not_Exists_Forall in Hd; [|intros p; destruct p; [right|left]; naive_solver].
      assert (Forall (fun p => p = []) (threads w)) as Hd'.
      { eapply Forall_impl; [exact Hd|]. intros [|] H; [done|]. by destruct H. }
      clear Hd. rename Hd' into Hd. split; [done|]. destruct Hi as (helds & Hin & Ha). intros l.
      assert (concat helds = []) as E by (clear Ha; induction Hin as [|h p hs ps Hh _ IH]; inversion Hd; subst; [done|]; cbn in *; subst; by apply IH).
      rewrite E in Ha. pose proof (Ha l true). pose proof (Ha l false). by destruct (locks w l) as [[]|].
  - intros pending i He. pose proof (exec_inv pending w i Hi) as H. by rewrite He in H.
  - intros w' [i Hs]. pose proof (exec_inv false w i Hi) as H. rewrite Hs in H. apply H.
Qed.

(** ** Runs *)

Lemma order_star w0 w order w' : star step w0 w -> schedule w order = Next w' -> star step w0 w'.
Proof.
  revert w. induction order as [|i order IH]; intros w Hw H; cbn in H; [by injection H as <-|].
  destruct (exec false w i) as [w1| | |] eqn:E; try done. apply (IH w1); [|done]. eapply star_snoc; [exact Hw|by exists i].
Qed.

(** The server closes while a client stops its tunnel: the client waits for the mutex of the
    server. *)
Definition demo_jobs : list (list job) :=
  [[Shutdown [(0%nat, true, [(1%nat, true)])]]; [OnL2TP (Control (Some (0%nat, Some (1%nat, StopCCN [(1%nat, true)]))))]].

Definition demo_run : outcome := schedule (start (goroutine <$> demo_jobs)) [0; 0]%nat.

Lemma process_never_stuck_witness :
  match demo_run with Next w => exec true w 1 = Blocked /\ forall i, exec true w i <> Fatal | _ => False end.
Proof.
  destruct demo_run as [w| | |] eqn:E; [|vm_compute in E; discriminate E..]. split.
  - vm_compute in E. injection E as <-. vm_compute. reflexivity.
  - apply (order_star (start (goroutine <$> demo_jobs))) in E; [|apply star_refl].
    intros i. exact (proj1 (proj2 (process_never_stuck demo_jobs w E)) true i).
Defined.

(** All of it can be done. *)
Example demo_ends :
  match schedule (start (goroutine <$> demo_jobs)) (replicate 10 0 ++ replicate 18 1)%nat with Next w => remaining w = 0%nat | _ => False end.
Proof. vm_compute. reflexivity. Qed.

(** When a message has been sent too often, the mutex is unlocked twice: the process ends, at
    the second unlock or, when another goroutine has taken the mutex between the two, at
    that one's. *)
Example timeout_fatal : schedule (start [CheckRetransmit 0 true]) (replicate 5 0)%nat = Fatal.
Proof. vm_compute. reflexivity. Qed.

Example timeout_fatal_elsewhere :
  schedule (start [CheckRetransmit 0 true; Send 0]) [0; 0; 0; 0; 1; 0; 1]%nat = Fatal.
Proof. vm_compute. reflexivity. Qed.

(** The first of the two is needed: with the mutex held, [onTimeout] and a handler of the
    tunnel wait for each other. *)
Example timeout_deadlock :
  match schedule (start [critical (ControlMu 0) (critical (TunnelMu 0) []); SendCDN 0 None]) [0; 1]%nat with
  | Next w => exec false w 0 = Blocked /\ exec false w 1 = Blocked
  | _ => False
  end.
Proof. vm_compute. by split. Qed.

End Mutex.
